(* ===== verification/_CoqProject ===== *)
-Q . S2P
Prelude.v
CLib.v
BbState.v
BbTx.v
BbPdu.v
BbSim.v
BbCalls.v
BbReg.v
BbSms.v
BbSimCmd.v
BbGps.v
BbAt.v
BbRx.v
BbTick.v
BbIfx.v
BbTxFacts.v
BbPduFacts.v
BbGsm7Facts.v
BbSmsFacts.v
BbLinkFacts.v
BbWindow.v
BbArq.v
BbMuxFacts.v
BbDataFacts.v
BbInv.v
BbInvCmd.v
BbInvRun.v
BbCallFacts.v
BbSimFacts.v
BbTickFacts.v
BbRegFacts.v
BbLineFacts.v
BbIfxFacts.v
HwLib.v
Fifo8.v
Spi.v
SpiFacts.v
Dart.v
DartFacts.v
Fmc.v
Adm.v
NandFacts.v
TcpUsb.v
TcpUsbFacts.v
UsbCore.v
UsbFacts.v
UsbOutFacts.v
UsbHost.v
UsbRegs.v
UsbInv.v
UsbIrq.v
Sha1.v
Sha1A4.v
Sha1Facts.v
Pke.v
PkeFacts.v
Nor.v
NorFacts.v
SpiNor.v
NorBootFacts.v
Sysic.v
SysicFacts.v
IosDev.v
IosSnap.v
IosDevFacts.v
IosWakeFacts.v
IosSnapFacts.v
BbSpi.v
BbSpiFacts.v
CdmaAes.v
Cdma.v
CdmaRegs.v
CdmaAesFacts.v
CdmaFacts.v
CdmaPipe.v
CdmaSpi.v
CdmaFrame.v
CdmaKick.v
CdmaPaced.v
CdmaSnap.v
