(* ===== verification/Prelude.v ===== *)
(** * Verification of QEMU-iOS devices

    QEMU-iOS is QEMU with machines for the first iPhones, iPods and the iPad.
    This development models the modem of the phones completely, the device that
    puts it on the board, and the devices of the machines on which booting and
    the modem's traffic depend: the SPI controller of the modem, the DMA engine
    with its AES filter, the interrupt and GPIO controller, the boot flash with its
    SPI controller, the NAND flash of the first iPod touch, the address
    translation units, the USB device controller with its link to the host, and
    the hash and public-key engines that check firmware.

    ** The modem core and its model

    [src/hw/misc/ios_baseband_core.c] is a program of its own, free of QEMU's
    object model: a state ([struct IosBbCore],
    [src/include/hw/misc/ios_baseband_core.h]), entry points that take octets
    from the phone, the time, and events of the network, and callbacks that
    carry octets to the phone and IP packets to the network.  It is modelled
    whole, with the session part of the GPS receiver
    ([src/hw/misc/ios_baseband_gps.c]).

    Octets from the phone enter at [ios_bb_input].  They are either AT commands
    or, once the kernel has switched the line, H5 packets in SLIP framing
    ([h5_input]), a sliding-window protocol with a window of seven.  The payload
    of H5 is a byte stream which the 27.010 multiplexer ([mx_input]) cuts into
    frames for up to fifteen channels.  A channel assembles command lines
    ([at_chan_input]) for the interpreter ([at_command]) or, in data mode, IP
    packets ([data_chan_input]).  The interpreter reads and changes the model of
    the card, the network, the calls and the messages, and answers through the
    same layers downwards: [chan_write], [mx_send], [h5_queue], [h5_pump].
    [ios_bb_tick] runs everything that is due at a time, and [ios_bb_next_due]
    tells the device when to call it again.  On the phones that reach the modem
    over SPI, [ios_bb_ifx_xfer] packs the stream into SPI transfers.

    - [Prelude]: bytes, machine integers, record update, shared lemmas.
    - [CLib]: [atoi], [sscanf], [printf] and [gmtime_r] as far as used.
    - [BbState]: the records of [struct IosBbCore].
    - [BbTx]: H5 and multiplexer transmission, channel writes.
    - [BbPdu]: GSM 03.38, UCS2, hexadecimal, semi-octets, time stamps.
    - [BbSim], [BbSimCmd]: the card, its file, +CPIN, +CLCK, +CPWD.
    - [BbCalls]: the call table, dialling, +CHLD, unsolicited codes.
    - [BbReg]: registration script, signal reports, vibration motor.
    - [BbSms]: SMS-DELIVER, SMS-SUBMIT, the +CMGS prompt.
    - [BbGps]: the session of the GPS receiver.
    - [BbAt]: the command chain of [at_command_line], in its order.
    - [BbRx]: reception from [ios_bb_input] to lines and IP packets.
    - [BbTick]: [ios_bb_tick], [ios_bb_next_due], [ios_bb_reset], [ios_bb_init].
      It ends with a reset core, used by the examples.
    - [BbIfx]: the SPI framing in its two versions.

    ** The devices and their model

    - [HwLib]: big and little endian words, guest memory ([phys_read],
      [phys_write]), the arena guard ([src/include/hw/arm/ipod_touch_guard.h]).
    - [Sha1], [Sha1A4]: the compression function
      ([src/include/hw/arm/sha1_compress.h]) and the two hash engines,
      [src/hw/arm/ipod_touch_sha1.c] and [src/hw/arm/s5l8930_sha1.c].
    - [Pke]: the public-key engine, [src/hw/arm/ipod_touch_pke.c].
    - [Nor]: the SPI boot flash and its NVRAM, [src/hw/arm/ipod_touch_nor_spi.c].
    - [Sysic]: interrupt groups, GPIO pads and power gates,
      [src/hw/arm/ipod_touch_sysic.c].
    - [IosDev], [IosSnap]: the device around the core, its lines, timers, queues,
      SPI port and vmstate, [src/hw/misc/ios_baseband.c].
    - [BbSpi]: the SPI controller of the modem, [src/hw/arm/s5l8930_bbspi.c].
    - [CdmaAes], [Cdma], [CdmaRegs]: the DMA engine, [src/hw/arm/s5l8930_cdma.c]:
      the AES contexts with the queue between a pair of channels; the walk of a
      descriptor chain and the kick by a peripheral; paced audio, the register
      windows, reset and snapshot.
    - [CdmaSpi]: the SPI controller as a peripheral of the DMA engine.
    - [Fifo8]: the byte FIFO of the device models, [src/util/fifo8.c].
    - [Spi], [SpiNor]: the SPI controller of the machines,
      [src/hw/arm/ipod_touch_spi.c], with the bus of [src/hw/ssi/ssi.c], and the
      boot flash on it.
    - [Dart]: the address translation units, [src/hw/arm/s5l8920_dart.c] and
      [src/hw/arm/s5l8930_dart.c], and the loops of their clients (scaler, panel,
      display, camera, picture decoder) that move data a page at a time.
    - [Fmc]: the image store ([src/hw/arm/nand-image.c]) and the flash controller
      ([src/hw/arm/s5l8900_fmc.c]) that keeps its pages in a store, or in page
      files with a writable overlay.
    - [Adm]: the front end that runs the driver's commands from guest memory and
      queues the pages for the controller's FIFO ([src/hw/arm/s5l8900_adm.c]), and
      the error-correction block ([src/hw/arm/s5l8900_nand_ecc.c]).
    - [TcpUsb]: USB transactions over a socket, both ends,
      [src/hw/arm/ipod_touch_tcp_usb.c].
    - [UsbCore], [UsbHost], [UsbRegs]: the USB device controller,
      [src/hw/arm/ipod_touch_usb_otg.c]: endpoints, interrupts and the handler of
      a transaction, which is the callback of the transport; the built-in host,
      which calls the same handler from a timer; the registers, the link, cable,
      reset and loading.

    ** Conventions

    Operations are functions from state to state, with the names of the source.
    A pointer into an array of the state is an index.  The output callbacks
    append to logs in the state ([out_log], [data_log]), so the order of effects
    is part of the model; [card_file] is the content of the card's file, and the
    interrupt lines and timers of a device are fields of its record.  Guest
    memory is a function from addresses to octets.  Octets are integers in [Z],
    the counters that can wrap do so at their width ([u8], [u16], [u32]), and C
    strings are the octets before the terminator.  A C function with an error
    result returns an [option] or a pair with a [bool].  The numeric constants
    of the source keep their names.

    Code outside the repository's sources is an argument: the big-number library
    (class [Bignum]), the block cipher (class [BlockCipher], with its laws in
    [CipherLen] and [CipherInv]), the checksum of the NVRAM, the devices behind
    the FIFO addresses of the DMA engine (class [FifoPort]), the predicate which
    descriptor addresses can be read, and the rate of the audio interface.
    The system calls on the USB link's socket follow a schedule that says how much
    each one moves, that it would block, or that it fails; dialling the host and
    the environment variable with its address are arguments.
    The results of the host's file calls under the flash follow such a schedule
    too, and what an automatic buffer of the flash controller holds before it is
    filled is an argument.
    What a theorem needs of them is stated beside it, and its witness
    instantiates them.

    ** The theorems

    - The whole core ([BbInv], [BbInvCmd], [BbInvRun]).  [bb_wf] bounds every
      buffer, counter and stored index; the order [evolves] adds what no
      operation may undo.  Every operation is shown to go up in that order, and
      [core_bounds] and [blocked_for_good] follow for all sequences of calls.
    - The H5 link ([BbTxFacts], [BbLinkFacts], [BbWindow],
      [BbArq]).  [h5_hop] takes one packet over the wire, octet by octet;
      [h5_crc_bit_serial] relates the table to the shift register;
      [h5_pump_done] describes the window.  A step relation adds a line that
      loses packets: [arq_in_order] is its safety (nothing lost, repeated or
      reordered), [arq_recovers] says that no reachable state is stuck.  The
      sender is the modem's code and the receiver, the phone, part of the relation.
    - The multiplexer ([BbMuxFacts]): [mux_frame_received],
      [mux_bad_fcs_dropped]; and packet data above it ([BbDataFacts]):
      [ip_reassembly], [data_path].
    - Messages ([BbPduFacts], [BbGsm7Facts], [BbSmsFacts], [BbLineFacts]):
      [gsm7_roundtrip]; what a phone with the alphabet of TS 23.038 reads from an
      SMS-DELIVER ([sms_deliver_roundtrip], [phone_reads]) and the modem from an SMS-SUBMIT
      ([sms_submit_gsm7], [sms_submit_ucs2]); the parser's memory safety
      ([sms_parse_submit_safe]); the announced lengths ([cmgr_length]).
    - The card ([BbSimFacts]): what its file brings back ([sim_card_roundtrip]), and
      how many guesses at its codes there are ([guesses_bounded]).
    - Calls ([BbCallFacts]): +CHLD refines a function on the table of slots
      ([chld_refines]); [dial_spec] and [incoming_call_spec] give every branch;
      [radio_off_drops_calls], [chld_answer_one_active].
    - Time ([BbTickFacts], [BbRegFacts]): [tick_leaves_nothing_due],
      [vib_edge_exact], [call_connects]; a modem in coverage registers and the
      report reaches the link ([registers]).
    - Command lines ([BbLineFacts]): [at_line_dispatch].
    - SPI framing ([BbIfxFacts]): [ifx_conservation], [ifx_unsent_restores].
    - The device around the core ([IosDevFacts], [IosWakeFacts],
      [IosSnapFacts]): a sleeping phone is woken and sees the octets
      ([iosbb_wakeup], with the one exception the setters make); a snapshot restores the device
      ([iosbb_snapshot_roundtrip], [iosbb_snapshot_loads]).
    - The modem's SPI controller ([BbSpiFacts]): [bbspi_frame].
    - The DMA engine.  [CdmaAesFacts] has the algebra of chained blocks,
      [CdmaFacts] the walks of a chain against memory.  [cdma_aes_pair]
      ([CdmaPipe]): a pair of channels around an AES context leaves in memory
      what the cipher gives on the whole source.  [cdma_spi_frame]
      ([CdmaSpi], [CdmaFrame], [CdmaKick]): the DMA engine, the SPI
      controller and the modem together exchange a frame.  [cdma_paced_once]
      ([CdmaPaced]): paced audio plays each segment once.  [CdmaSnap]: reset,
      abort and snapshots.
    - The hash engines ([Sha1Facts]): the jobs of a message give its SHA-1 digest
      ([sha1_jobs_digest], [sha1_a4_digest]), [a4_fill_bounded].
    - The public-key engine ([PkeFacts]): [pke_montgomery],
      [pke_cache_unobservable], [pke_forge_vouches].
    - The boot flash ([NorFacts], [NorBootFacts]): [nor_roundtrip],
      [nor_change_guarded], [nor_snapshot]; the NVRAM patch for the boot
      arguments ([nor_boot_args]).
    - The interrupt controller ([SysicFacts]): [sysic_request_held],
      [sysic_edge_kept].
    - The FIFO is a bounded queue with the position of its head in the ring, which
      the operations that hand out a pointer show ([fifo8_refines], in [Fifo8]).
    - The SPI controller ([SpiFacts]): its interrupt line follows the registers
      ([spi_line_tracks]), the accesses that fail an assertion are known exactly
      ([spi_abort_iff]), a command and its answer of any length pass through the
      FIFOs ([spi_command_ok]); with the flash on the bus, its content is read
      from the first access after the reset on ([spi_nor_read], in [SpiNor]).
    - Transfers through a translation unit ([DartFacts]) are compared with the
      translation of every byte; a frame the scaler writes is the one the display
      reads ([dart30_scaled_frame]).
    - The NAND flash ([NandFacts]).  Over either backing, programs and erases
      refine an array of records in which programming clears bits and erasing
      sets a block to blank ([nand_store_refines]).  A row of pages the driver
      writes by command and FIFO is read back by command and FIFO, with its
      metadata, and no other page changes ([nand_row_roundtrip]).  The reads of
      the FIFO that leave the page list are known exactly ([fmc_overrun_iff]).
    - The USB link.  Whatever the schedule of the system calls, the device's end
      of the transport answers the stream of requests as a function on streams
      says ([tcp_usb_serves], in [TcpUsbFacts]), and no payload leaves its buffer
      on either end ([tcp_usb_payload_fits]).  With the controller as callback, an
      armed IN transfer reaches the host whole ([usb_in_delivered], in [UsbFacts])
      and the packets of an OUT transfer are gathered in guest memory
      ([usb_out_gathered], in [UsbOutFacts]).
    - The USB controller ([UsbInv], [UsbIrq]): in all reachable
      states the built-in host stays inside its buffer and arms its timer again
      ([usb_reachable_wf]); register writes keep the interrupt line settled
      ([usb_line_settled]), those to an endpoint's control register excepted
      ([usb_disable_unseen]).
    - Behaviour the code does not mean to have, as theorems that exhibit it:
      [mux_oversize_wedged], [h5_slice_cut], [mux_nested_cmux_loses_line],
      [gsm7_AE_lost], [creg_report_stale], [cops_manual_cut], [plmn_short_lost],
      [a4_reset_stale], [cdma_snapshot_refused], [spi_word_split],
      [dart20_invalid_entry], [usb_disable_unseen], [host_single_cfg],
      [fmc_overrun_iff], [fmc_stale_page], [fmc_blank_lost].

    ** Bounds and fuel

    Every operation is total.  Loops over an input recurse on it.  Four loops
    of the core shorten their input by more than its first octet
    ([encodable_loop], [septets_loop], [ip_slices], [data_chan_loop]); they take
    the length of the input as fuel and each turn removes at least one octet.
    [ip_drain] takes one more than the length of its queue, of which each turn
    removes at least one octet; [ip_drain_room] shows that it leaves room in the
    buffer, so that [data_chan_loop] always advances.  [h5_pump_loop] takes
    seven, the window's size, since each turn fills one place; [h5_pump_done]
    proves that it ends because the window is full or the queue empty.

    Of the devices, the walk of a descriptor chain and the loop of paced audio
    are bounded in the source itself, at 4096 turns.  The walk of an NVRAM bank
    ([nvram_walk]) takes 512 turns: a bank has 8192 octets and a partition at
    least sixteen.  [nvram_vars] takes one more than the length of the list and
    removes a terminator each turn; [gid_find] removes two blobs each turn.
    [fold_carry] takes three, enough for the sum of sixteen octets.  The hash
    engine's DMA ([sha1_dma]) takes the number of blocks and removes at least
    one each turn.  The loops of the SPI controller take the number of bytes to
    send, and the free places of the receive FIFO.  The loops over pages take
    the number of pages a range can touch ([pages], [enough_pages]).  The walk
    over USB descriptors ([has_mux_loop]) takes the number of bytes; each
    descriptor has at least two.  The removal of a block's page files
    ([erase_pages]) takes the 128 pages of a block, and the report of metadata
    ([report_loop]) the number of pages queued.

    ** What is not modelled

    Trace output, and the tests for absent callbacks (a boolean of the state
    says whether a data back end is attached).  The GPS position is formatted
    from floating-point numbers; the resulting text is a field of the state.
    The list of the USB controller's snapshot fields (a load gives any
    registers), and how the host of the USB link is dialled.  The text of a
    flash store's description: the parsed fields are arguments.  The
    registration of types and the properties of QEMU's object model.  The
    remaining devices of the machines ([src/hw/arm]): clocks, timers, I2C and
    its slaves, the USB PHY, the display and its GPU, audio, multitouch, Wi-Fi,
    and the flash controllers of the later machines.  The machines themselves,
    which place the devices and load firmware from host files.  Upstream QEMU
    is outside the scope of
    the development. *)

From Stdlib Require Import ZArith Lia String Ascii.
From stdpp Require Import base numbers list.
Local Open Scope Z_scope.

(** ** Functional record update

    [Upd p] is the setter that goes with the projection [p].  A record
    declares its eta expansion once and derives one instance per field. *)

Class Upd {R E : Type} (p : R -> E) := upd : (E -> E) -> R -> R.
Arguments upd {R E} p {_} f r.

Ltac derive_upd eta p :=
  let f := fresh "f" in
  let r := fresh "r" in
  intros f r;
  let e := eval cbv beta delta [eta] in (eta r) in
  lazymatch e with
  | context C [p r] => let t := context C [f (p r)] in exact t
  end.

Declare Scope upd_scope.
Delimit Scope upd_scope with upd.
Open Scope upd_scope.

Notation "r <| p := v |>" := (upd p (fun _ => v) r)
  (at level 1, p at level 11, v at level 99, left associativity) : upd_scope.
Notation "r <| p ::= f |>" := (upd p f r)
  (at level 1, p at level 11, f at level 99, left associativity) : upd_scope.
Notation "r <| p ; q := v |>" := (upd p (upd q (fun _ => v)) r)
  (at level 1, p at level 11, q at level 11, v at level 99, left associativity) : upd_scope.
Notation "r <| p ; q ::= f |>" := (upd p (upd q f) r)
  (at level 1, p at level 11, q at level 11, f at level 99, left associativity) : upd_scope.

(** ** Machine integers

    A C integer is a [Z].  Conversions that can lose bits are written out. *)

Definition u8 (x : Z) : Z := x mod 256.
Definition u16 (x : Z) : Z := x mod 65536.
Definition u32 (x : Z) : Z := x mod 4294967296.

(** Conversion to a 32-bit two's complement [int]. *)
Definition s32 (x : Z) : Z := (x + 2147483648) mod 4294967296 - 2147483648.

(** A byte read through a signed [char]. *)
Definition schar (b : Z) : Z := if b <? 128 then b else b - 256.

Definition b2z (b : bool) : Z := if b then 1 else 0.

Definition is_byte (b : Z) : Prop := 0 <= b < 256.

#[global] Instance is_byte_dec b : Decision (is_byte b).
Proof. unfold is_byte. apply _. Defined.

Definition is_bytes (l : list Z) : Prop := Forall is_byte l.

Definition all_bytes : list Z := Z.of_nat <$> seq 0 256.

(** ** Lists indexed by C integers *)

Definition zlen {A} (l : list A) : Z := Z.of_nat (length l).
Definition ztake {A} (n : Z) (l : list A) : list A := take (Z.to_nat n) l.
Definition zdrop {A} (n : Z) (l : list A) : list A := drop (Z.to_nat n) l.

(** Checked read: [None] outside the list (negative indices included). *)
Definition zget {A} (l : list A) (i : Z) : option A :=
  if i <? 0 then None else l !! Z.to_nat i.

(** Read of a byte buffer whose bounds the caller established; 0 outside. *)
Definition rd (l : list Z) (i : Z) : Z := default 0 (l !! Z.to_nat i).

(** Store into a buffer; outside the buffer nothing changes. *)
Definition wr {A} (l : list A) (i : Z) (v : A) : list A := <[Z.to_nat i := v]> l.

(** [memcpy (buf + off) src]: bytes past the end of [buf] are lost. *)
Fixpoint blit (buf : list Z) (off : nat) (src : list Z) : list Z :=
  match src with
  | [] => buf
  | b :: t => blit (<[off := b]> buf) (S off) t
  end.

(** ** Tactics and automation *)

Create HintDb bb.

(** Case analysis on every boolean test and match of the goal. *)
Ltac split_ifs :=
  repeat match goal with
  | |- context [if ?c then _ else _] => destruct c eqn:?
  | |- context [match ?o with Some _ => _ | None => _ end] => destruct o eqn:?
  end.

(** Boolean comparisons in the context as propositions [lia] understands. *)
Ltac bool_hyps :=
  repeat match goal with
  | H : (_ && _)%bool = true |- _ => apply andb_prop in H as [? ?]
  | H : (_ || _)%bool = false |- _ => apply orb_false_elim in H as [? ?]
  | H : negb _ = true |- _ => apply negb_true_iff in H
  | H : negb _ = false |- _ => apply negb_false_iff in H
  | H : (_ <? _) = true |- _ => apply Z.ltb_lt in H
  | H : (_ <? _) = false |- _ => apply Z.ltb_ge in H
  | H : (_ <=? _) = true |- _ => apply Z.leb_le in H
  | H : (_ <=? _) = false |- _ => apply Z.leb_gt in H
  | H : (_ =? _) = true |- _ => apply Z.eqb_eq in H
  | H : (_ =? _) = false |- _ => apply Z.eqb_neq in H
  end.

(** ** Shared lemmas *)

Lemma elem_all_bytes (b : Z) : is_byte b -> b ∈ all_bytes.
Proof.
  intros [H1 H2]. unfold all_bytes.
  apply list_elem_of_fmap. exists (Z.to_nat b).
  split; [lia|]. apply elem_of_seq. lia.
Qed.

(** A boolean property of bytes holds of all of them once it evaluates to
    true on the 256 values. *)
Lemma byte_forall (P : Z -> bool) :
  forallb P all_bytes = true -> forall b, is_byte b -> P b = true.
Proof.
  intros HP b Hb.
  rewrite forallb_forall in HP. apply HP, list_elem_of_In, elem_all_bytes, Hb.
Qed.

Lemma byte_forall2 (P : Z -> Z -> bool) :
  forallb (fun a => forallb (P a) all_bytes) all_bytes = true ->
  forall a b, is_byte a -> is_byte b -> P a b = true.
Proof.
  intros HP a b Ha Hb.
  apply (byte_forall (P a)); [|exact Hb].
  apply (byte_forall (fun a => forallb (P a) all_bytes) HP a Ha).
Qed.

Lemma u8_is_byte x : is_byte (u8 x).
Proof. unfold is_byte, u8. apply Z.mod_pos_bound. lia. Qed.

Lemma u8_id x : is_byte x -> u8 x = x.
Proof. intros H. unfold u8. apply Z.mod_small. exact H. Qed.

Lemma u8_le x : 0 <= x -> u8 x <= x.
Proof. intros H. unfold u8. apply Z.mod_le; lia. Qed.

Lemma s32_id x : -2147483648 <= x < 2147483648 -> s32 x = x.
Proof. intros H. unfold s32. rewrite Z.mod_small; lia. Qed.

Lemma s32_range x : -2147483648 <= s32 x < 2147483648.
Proof. unfold s32. pose proof (Z.mod_pos_bound (x + 2147483648) 4294967296). lia. Qed.

Lemma zlen_nonneg {A} (l : list A) : 0 <= zlen l.
Proof. unfold zlen. lia. Qed.

Lemma zlen_nil {A} : zlen (@nil A) = 0.
Proof. reflexivity. Qed.

Lemma zlen_cons {A} (x : A) l : zlen (x :: l) = zlen l + 1.
Proof. unfold zlen. simpl. lia. Qed.

Lemma zlen_app {A} (l k : list A) : zlen (l ++ k) = zlen l + zlen k.
Proof. unfold zlen. rewrite length_app. lia. Qed.

Lemma zlen_ztake {A} n (l : list A) : zlen (ztake n l) = Z.min (Z.max 0 n) (zlen l).
Proof. unfold zlen, ztake. rewrite length_take. lia. Qed.

Lemma zlen_zdrop {A} n (l : list A) : zlen (zdrop n l) = Z.max 0 (zlen l - Z.max 0 n).
Proof. unfold zlen, zdrop. rewrite length_drop. lia. Qed.

Lemma ztake_zdrop {A} n (l : list A) : ztake n l ++ zdrop n l = l.
Proof. apply take_drop. Qed.

Lemma ztake_app_len {A} (l k : list A) : ztake (zlen l) (l ++ k) = l.
Proof. unfold ztake, zlen. rewrite Nat2Z.id. apply take_app_length. Qed.

Lemma zdrop_app_len {A} (l k : list A) : zdrop (zlen l) (l ++ k) = k.
Proof. unfold zdrop, zlen. rewrite Nat2Z.id. apply drop_app_length. Qed.

Lemma ztake_all {A} n (l : list A) : zlen l <= n -> ztake n l = l.
Proof. unfold ztake, zlen. intros. apply take_ge. lia. Qed.

Lemma zdrop_app_r {A} (l k : list A) i : zlen l <= i -> zdrop i (l ++ k) = zdrop (i - zlen l) k.
Proof.
  intros H. unfold zdrop, zlen in *. rewrite drop_app_ge by lia. f_equal. lia.
Qed.

Lemma zdrop_app_l {A} n (l k : list A) : n <= zlen l -> zdrop n (l ++ k) = zdrop n l ++ k.
Proof. intros H. unfold zdrop, zlen in *. by rewrite drop_app_le by lia. Qed.

Lemma ztake_app_l {A} n (l k : list A) : n <= zlen l -> ztake n (l ++ k) = ztake n l.
Proof. intros H. unfold ztake, zlen in *. by rewrite take_app_le by lia. Qed.

Lemma zdrop_zdrop {A} n m (l : list A) : 0 <= n -> 0 <= m -> zdrop m (zdrop n l) = zdrop (n + m) l.
Proof. intros. unfold zdrop. rewrite drop_drop. f_equal. lia. Qed.

Lemma ztake_add {A} a b (l : list A) : 0 <= a -> 0 <= b -> ztake (a + b) l = ztake a l ++ ztake b (zdrop a l).
Proof.
  intros Ha Hb. unfold ztake, zdrop. rewrite Z2Nat.inj_add by lia. rewrite <- (take_drop (Z.to_nat a) l) at 1.
  rewrite take_app. rewrite length_take. f_equal.
  - rewrite take_ge; [done|]. rewrite length_take. lia.
  - destruct (decide (Z.to_nat a <= length l)%nat); [f_equal; lia|]. rewrite (drop_ge l) by lia. by rewrite !take_nil.
Qed.

Lemma slice_zdrop {A} n m (l : list A) : 0 <= n -> 0 <= m -> ztake m (zdrop n l) ++ zdrop (n + m) l = zdrop n l.
Proof. intros. rewrite <- zdrop_zdrop by lia. apply ztake_zdrop. Qed.

Lemma zlen_wr {A} (l : list A) i v : zlen (wr l i v) = zlen l.
Proof. unfold zlen, wr. rewrite length_insert. reflexivity. Qed.

Lemma alter_alter {A} (f g : A -> A) i (l : list A) :
  alter f i (alter g i l) = alter (fun x => f (g x)) i l.
Proof. revert i. induction l as [|x l IH]; intros [|i]; try done. exact (f_equal (cons x) (IH i)). Qed.

Lemma length_blit buf off src : length (blit buf off src) = length buf.
Proof.
  revert buf off. induction src as [|b t IH]; intros; simpl; [done|].
  rewrite IH, length_insert. done.
Qed.

Lemma zlen_blit (b src : list Z) off : zlen (blit b off src) = zlen b.
Proof. unfold zlen. by rewrite length_blit. Qed.

Lemma is_bytes_app l k : is_bytes (l ++ k) <-> is_bytes l /\ is_bytes k.
Proof. apply Forall_app. Qed.

Lemma is_bytes_take n l : is_bytes l -> is_bytes (take n l).
Proof. apply Forall_take. Qed.

Lemma is_bytes_drop n l : is_bytes l -> is_bytes (drop n l).
Proof. apply Forall_drop. Qed.

Lemma rd_is_byte l i : is_bytes l -> is_byte (rd l i).
Proof.
  intros H. unfold rd. destruct (l !! Z.to_nat i) as [x|] eqn:E; simpl.
  - apply (Forall_lookup_1 _ _ _ _ H E).
  - unfold is_byte. lia.
Qed.

#[export] Hint Resolve u8_is_byte rd_is_byte is_bytes_take is_bytes_drop zlen_nonneg : bb.
Create Rewrite HintDb zlen.
#[export] Hint Rewrite @zlen_nil @zlen_cons @zlen_app @zlen_ztake @zlen_zdrop @zlen_wr : zlen.

(** A boolean property of 16-bit values, checked on all of them. *)
Lemma u16_forall (P : Z -> bool) :
  forallb (fun a => forallb (fun b => P (a * 256 + b)) all_bytes) all_bytes = true ->
  forall c, 0 <= c < 65536 -> P c = true.
Proof.
  intros HP c Hc.
  pose proof (Z.div_mod c 256 ltac:(lia)) as E.
  rewrite E, (Z.mul_comm 256).
  apply (byte_forall2 (fun a b => P (a * 256 + b)) HP); unfold is_byte.
  - split; [apply Z.div_pos; lia|apply Z.div_lt_upper_bound; lia].
  - apply Z.mod_pos_bound. lia.
Qed.
