(* ===== verification/CLib.v ===== *)
(** * The C library as the sources use it

    Byte strings, [atoi], [sscanf] and [printf] conversions, [gmtime_r].
    A C string is the list of its bytes before the terminating NUL. *)

From Stdlib Require Import ZArith Lia String Ascii.
From stdpp Require Import base numbers list.
From S2P Require Import Prelude.
Local Open Scope Z_scope.

(** ** Strings *)

Definition bytes := list Z.

(** The bytes of a string literal. *)
Fixpoint str (s : string) : bytes :=
  match s with
  | EmptyString => []
  | String c t => Z.of_N (N_of_ascii c) :: str t
  end.

Definition crlf : bytes := [13; 10].

(** The double quote character. *)
Definition dq : bytes := [34].

(** The C string that starts at offset [off] of a buffer. *)
Fixpoint until_nul (l : bytes) : bytes :=
  match l with
  | [] => []
  | b :: t => if b =? 0 then [] else b :: until_nul t
  end.

Definition cstr (buf : bytes) (off : nat) : bytes := until_nul (drop off buf).

(** [strcmp (s, t) == 0] *)
Definition streq (s t : bytes) : bool := bool_decide (s = t).

(** [strncmp (s, pat, strlen (pat)) == 0] *)
Fixpoint starts_with (pat s : bytes) : bool :=
  match pat, s with
  | [], _ => true
  | p :: pat', c :: s' => (p =? c) && starts_with pat' s'
  | _ :: _, [] => false
  end.

(** [snprintf (buf, size, "%s", s)]: what the buffer then holds. *)
Definition fit (size : Z) (s : bytes) : bytes := ztake (size - 1) s.

Definition is_digit (c : Z) : bool := (48 <=? c) && (c <=? 57).

(** [strspn (s, "0123456789") == strlen (s)] *)
Definition all_digits (s : bytes) : bool := forallb is_digit s.

Definition is_space (c : Z) : bool := (c =? 32) || ((9 <=? c) && (c <=? 13)).

Definition tolower (c : Z) : Z := if (65 <=? c) && (c <=? 90) then c + 32 else c.

(** [strchr]: the suffix that starts at the first [c]. *)
Fixpoint strchr (c : Z) (s : bytes) : option bytes :=
  match s with
  | [] => None
  | b :: t => if b =? c then Some s else strchr c t
  end.

(** [strrchr]: the suffix that starts at the last [c]. *)
Fixpoint strrchr (c : Z) (s : bytes) : option bytes :=
  match s with
  | [] => None
  | b :: t => match strrchr c t with
              | Some r => Some r
              | None => if b =? c then Some s else None
              end
  end.

(** [strstr (s, pat) != NULL] *)
Fixpoint contains (pat s : bytes) : bool :=
  starts_with pat s ||
  match s with
  | [] => false
  | _ :: t => contains pat t
  end.

(** ** Numbers in text *)

Fixpoint skip_space (s : bytes) : bytes :=
  match s with
  | [] => []
  | c :: t => if is_space c then skip_space t else s
  end.

(** The longest run of digits: its value from [acc], and the rest. *)
Fixpoint read_digits (acc : Z) (s : bytes) : Z * bytes :=
  match s with
  | c :: t => if is_digit c then read_digits (10 * acc + (c - 48)) t else (acc, s)
  | [] => (acc, [])
  end.

(** [strtol] saturates at the 64-bit range, and storing into an [int]
    keeps the low 32 bits. *)
Definition to_int (z : Z) : Z :=
  s32 (Z.max (-9223372036854775808) (Z.min 9223372036854775807 z)).

(** The result of one step of a scan format: the value and the input left,
    or a failure and where it left the input. *)
Inductive scan (A : Type) :=
| ScanOk (v : A) (rest : bytes)
| ScanFail (rest : bytes).
Arguments ScanOk {A}.
Arguments ScanFail {A}.

(** One [%d] conversion. *)
Definition scan_d (s : bytes) : scan Z :=
  let s := skip_space s in
  let '(neg, s) :=
    match s with
    | c :: t => if c =? 45 then (true, t) else if c =? 43 then (false, t) else (false, s)
    | [] => (false, [])
    end in
  match s with
  | c :: _ =>
      if is_digit c then
        let '(v, rest) := read_digits 0 s in
        ScanOk (to_int (if neg then - v else v)) rest
      else ScanFail s
  | [] => ScanFail []
  end.

Definition atoi (s : bytes) : Z :=
  match scan_d s with
  | ScanOk v _ => v
  | ScanFail _ => 0
  end.

(** [sscanf (s, "%d,%d,...")]: the values converted, at most [n]. *)
Fixpoint scan_ds (n : nat) (s : bytes) : list Z :=
  match n with
  | O => []
  | S n' =>
      match scan_d s with
      | ScanFail _ => []
      | ScanOk v rest =>
          match rest with
          | c :: t => if c =? 44 then v :: scan_ds n' t else [v]
          | [] => [v]
          end
      end
  end.

(** [%<w>s]: white space, then at most [w] other bytes, at least one. *)
Fixpoint read_word (w : nat) (s : bytes) : bytes * bytes :=
  match w, s with
  | S w', c :: t =>
      if is_space c then ([], s)
      else let '(x, r) := read_word w' t in (c :: x, r)
  | _, _ => ([], s)
  end.

Definition scan_s (w : nat) (s : bytes) : scan bytes :=
  match read_word w (skip_space s) with
  | ([], r) => ScanFail r
  | (x, r) => ScanOk x r
  end.

(** [%<w>[0-9]]: at most [w] digits, at least one, no white space skipped. *)
Fixpoint read_digit_run (w : nat) (s : bytes) : bytes * bytes :=
  match w, s with
  | S w', c :: t =>
      if is_digit c then let '(x, r) := read_digit_run w' t in (c :: x, r)
      else ([], s)
  | _, _ => ([], s)
  end.

Definition scan_digits (w : nat) (s : bytes) : scan bytes :=
  match read_digit_run w s with
  | ([], r) => ScanFail r
  | (x, r) => ScanOk x r
  end.

(** Literal text of a scan format. *)
Fixpoint scan_lit (pat s : bytes) : scan unit :=
  match pat, s with
  | [], _ => ScanOk tt s
  | p :: pat', c :: s' => if p =? c then scan_lit pat' s' else ScanFail s
  | _ :: _, [] => ScanFail []
  end.

Definition scan_bind {A B} (m : scan A) (k : A -> bytes -> scan B) : scan B :=
  match m with
  | ScanOk v rest => k v rest
  | ScanFail rest => ScanFail rest
  end.

(** ** printf conversions *)

(** Digits of a non-negative number in base [base]; 20 decimal digits and
    16 hexadecimal ones hold every 64-bit value. *)
Definition digit_char (d : Z) : Z := if d <? 10 then 48 + d else 55 + d.

Fixpoint digits_of (fuel : nat) (base n : Z) : bytes :=
  match fuel with
  | O => []
  | S f => if n <? base then [digit_char n]
           else digits_of f base (n / base) ++ [digit_char (n mod base)]
  end.

Definition fmt_u (n : Z) : bytes := digits_of 20 10 n.
Definition fmt_d (n : Z) : bytes := if n <? 0 then 45 :: fmt_u (- n) else fmt_u n.
Definition fmt_X (n : Z) : bytes := digits_of 16 16 (u32 n).

(** [%02d] *)
Definition fmt_02d (n : Z) : bytes :=
  if (0 <=? n) && (n <? 10) then 48 :: fmt_d n else fmt_d n.

(** ** Calendar time *)

Record tm := mkTm {
  tm_year : Z; tm_mon : Z; tm_mday : Z; tm_hour : Z; tm_min : Z; tm_sec : Z
}.

(** [gmtime_r]: the proleptic Gregorian date of a Unix time, by eras of
    400 years (146097 days) counted from 1 March of year 0. *)
Definition gmtime (secs : Z) : tm :=
  let days := secs / 86400 in
  let rem := secs mod 86400 in
  let z := days + 719468 in
  let era := z / 146097 in
  let doe := z mod 146097 in
  let yoe := (doe - doe / 1460 + doe / 36524 - doe / 146096) / 365 in
  let doy := doe - (365 * yoe + yoe / 4 - yoe / 100) in
  let mp := (5 * doy + 2) / 153 in
  let d := doy - (153 * mp + 2) / 5 + 1 in
  let m := if mp <? 10 then mp + 3 else mp - 9 in
  let y := yoe + era * 400 + (if m <=? 2 then 1 else 0) in
  mkTm (y - 1900) (m - 1) d (rem / 3600) (rem mod 3600 / 60) (rem mod 60).

(** ** Lemmas *)

Lemma streq_refl s : streq s s = true.
Proof. apply bool_decide_eq_true_2. reflexivity. Qed.

Lemma streq_true s t : streq s t = true <-> s = t.
Proof. apply bool_decide_eq_true. Qed.

Lemma streq_false s t : streq s t = false <-> s <> t.
Proof. apply bool_decide_eq_false. Qed.

Lemma starts_with_app pat s : starts_with pat (pat ++ s) = true.
Proof. induction pat as [|p t IH]; simpl; [done|]. rewrite Z.eqb_refl. exact IH. Qed.

Lemma starts_with_spec pat s : starts_with pat s = true <-> exists t, s = pat ++ t.
Proof.
  revert s. induction pat as [|p pat IH]; intros s; simpl.
  - split; eauto.
  - destruct s as [|c s]; [split; [done|intros [? ?]; done]|].
    rewrite andb_true_iff, Z.eqb_eq, IH. split.
    + intros [-> [t ->]]. eauto.
    + intros [t [= -> ->]]. eauto.
Qed.

Lemma until_nul_no_nul l : Forall (fun b => b <> 0) (until_nul l).
Proof.
  induction l as [|b t IH]; simpl; [constructor|].
  destruct (Z.eqb_spec b 0); constructor; auto.
Qed.

Lemma until_nul_length l : (length (until_nul l) <= length l)%nat.
Proof. induction l as [|b t IH]; simpl; [lia|]. destruct (b =? 0); simpl; lia. Qed.

Lemma until_nul_id l : Forall (fun b => b <> 0) l -> until_nul l = l.
Proof.
  induction 1 as [|b t Hb _ IH]; simpl; [done|].
  destruct (Z.eqb_spec b 0); [done|]. f_equal. exact IH.
Qed.

Lemma until_nul_stop l k :
  Forall (fun b => b <> 0) l -> until_nul (l ++ 0 :: k) = l.
Proof.
  induction 1 as [|b t Hb _ IH]; simpl; [done|].
  destruct (Z.eqb_spec b 0); [done|]. f_equal. exact IH.
Qed.

Lemma is_bytes_until_nul l : is_bytes l -> is_bytes (until_nul l).
Proof.
  induction 1 as [|b t Hb _ IH]; simpl; [constructor|].
  destruct (b =? 0); [constructor|]. constructor; auto.
Qed.

Lemma zlen_fit n s : 1 <= n -> zlen (fit n s) <= n - 1.
Proof. intros H. unfold fit. rewrite zlen_ztake. lia. Qed.

Lemma fit_id n s : zlen s <= n - 1 -> fit n s = s.
Proof. intros H. unfold fit. apply ztake_all. lia. Qed.

Lemma is_digit_spec c : is_digit c = true <-> 48 <= c <= 57.
Proof. unfold is_digit. rewrite andb_true_iff, !Z.leb_le. lia. Qed.

Lemma tolower_is_byte c : is_byte c -> is_byte (tolower c).
Proof. unfold is_byte, tolower. intros H. split_ifs; bool_hyps; lia. Qed.

Lemma to_int_id z : -2147483648 <= z < 2147483648 -> to_int z = z.
Proof. intros H. unfold to_int. rewrite Z.min_r, Z.max_r by lia. apply s32_id. lia. Qed.

Lemma to_int_range z : -2147483648 <= to_int z < 2147483648.
Proof. apply s32_range. Qed.

Lemma scan_d_range s v r : scan_d s = ScanOk v r -> -2147483648 <= v < 2147483648.
Proof.
  unfold scan_d. repeat case_match; intros; simplify_eq; apply to_int_range.
Qed.

Lemma atoi_range s : -2147483648 <= atoi s < 2147483648.
Proof.
  unfold atoi. destruct (scan_d s) as [v r|] eqn:E; [|lia].
  apply (scan_d_range _ _ _ E).
Qed.
