(* ===== verification/BbState.v ===== *)
(** * The baseband core's state

    [struct IosBbCore] of [src/include/hw/misc/ios_baseband_core.h], with its
    fields grouped into one record per layer.  Buffers whose unused part the
    code can read back are kept whole; the others are the list of their live
    bytes, whose length is the counter the C code keeps beside them. *)

From Stdlib Require Import ZArith Lia.
From stdpp Require Import base numbers list.
From S2P Require Import Prelude CLib.
Local Open Scope Z_scope.

(** ** Constants *)

Definition IOS_BB_MAX_CH : Z := 16.
Definition IOS_BB_MAX_CALLS : nat := 4.
Definition IOS_BB_H5_WINDOW : Z := 7.
Definition IOS_BB_SMS_STORE : Z := 4.

(** +XCALLSTAT states *)
Definition IOS_BB_CALL_ACTIVE : Z := 0.
Definition IOS_BB_CALL_HELD : Z := 1.
Definition IOS_BB_CALL_DIALING : Z := 2.
Definition IOS_BB_CALL_ALERTING : Z := 3.
Definition IOS_BB_CALL_INCOMING : Z := 4.
Definition IOS_BB_CALL_WAITING : Z := 5.
Definition IOS_BB_CALL_RELEASED : Z := 6.

(** Receiver states of the 27.010 basic mode. *)
Inductive MxState :=
| MX_SEARCH | MX_ADDR | MX_CTRL | MX_LEN0 | MX_LEN1 | MX_DATA | MX_FCS.

#[global] Instance MxState_eq_dec : EqDecision MxState.
Proof. solve_decision. Defined.

(** ** Records *)

(** One call slot, [struct IosBbCall]. *)
Record IosBbCall := mkCall {
  c_used : bool;
  c_mt : bool;
  c_id : Z;
  c_stat : Z;
  c_next_stat : Z;
  c_due_ms : Z;
  c_rings : Z;
  c_emergency : bool;
  c_number : bytes
}.

(** One AT channel, [struct IosBbAtChan]; [ch_line] is the whole
    600-byte buffer, stale bytes included. *)
Record IosBbAtChan := mkChan {
  ch_line : bytes;
  ch_len : Z;
  ch_echo : bool;
  ch_open : bool;
  ch_sms_prompt : bool;
  ch_data_cid : Z
}.

(** A reliable packet kept for retransmission, [struct IosBbH5Pkt]
    ([len] is the length of [p_data]). *)
Record IosBbH5Pkt := mkPkt {
  p_seq : Z;
  p_data : bytes
}.

(** The 27.010 receiver, [struct IosBbMuxRx]; [m_buf] is the prefix
    of [buf] that [cnt] counts. *)
Record IosBbMuxRx := mkMuxRx {
  m_state : MxState;
  m_flags_run : Z;
  m_addr : Z;
  m_ctrl : Z;
  m_len : Z;
  m_buf : bytes;
  m_fcs : Z
}.

(** A stored message, [struct IosBbSms]. *)
Record IosBbSms := mkSms {
  s_used : bool;
  s_num : bytes;
  s_pdu : bytes
}.

(** The GPS receiver, [struct IosBbGps]; [g_text] stands for what
    [ios_bb_gps_format] prints of the floating-point position. *)
Record IosBbGps := mkGps {
  g_present : bool;
  g_fix : bool;
  g_text : bytes;
  g_ch : Z;
  g_interval_ms : Z;
  g_due_ms : Z
}.

(** Network and SIM controls the device sets. *)
Record Ctl := mkCtl {
  operator_long : bytes;
  operator_short : bytes;
  plmn : bytes;
  sca : bytes;
  voicemail : bytes;
  signal_dbm : Z;
  battery : Z;
  registered : bool;
  search_ms : Z;
  nitz : bool;
  sim_present : bool;
  lac : Z;
  ci : Z;
  imei : bytes;
  imsi : bytes;
  iccid : bytes;
  answer_delay_ms : Z
}.

(** The card: PIN, PUK, tries and EF_LOCI. *)
Record Sim := mkSim {
  pin_on : bool;
  pin : bytes;
  puk : bytes;
  pin_left : Z;
  puk_left : Z;
  sim_file : bytes;
  pin_ok : bool;
  loci_plmn : bytes
}.

(** The H5 link; [h5_rx] is the whole 2048-byte buffer, [h5_unacked] and
    [h5_txq] are the live prefixes that [h5_nunacked] and [h5_txq_len] count. *)
Record Link := mkLink {
  h5 : bool;
  h5_active : bool;
  h5_crc : bool;
  h5_in_frame : bool;
  h5_esc : bool;
  h5_rx : bytes;
  h5_rxlen : Z;
  h5_tx_seq : Z;
  h5_rx_next : Z;
  h5_need_ack : bool;
  h5_unacked : list IosBbH5Pkt;
  h5_last_tx_ms : Z;
  h5_txq : bytes
}.

(** The multiplexer. *)
Record Mux := mkMux {
  mux : bool;
  mux_leave : bool;
  muxrx : IosBbMuxRx
}.

(** AT engine settings and the channels learned for each unsolicited code. *)
Record At := mkAt {
  hex_cs : bool;
  colp_off : bool;
  xemc_on : bool;
  off : bool;
  power_offs : Z;
  xreg_n : Z;
  xsigstr_on : bool;
  xsigstr_ch : Z;
  xciev_ch : Z;
  xsim_ch : Z;
  call_ch : Z;
  sms_ch : Z;
  s0 : Z;
  ctzr_on : bool;
  ctzr_ch : Z
}.

(** Registration. *)
Record Reg := mkReg {
  cfun : Z;
  cops_format : Z;
  cops_detached : bool;
  creg_n : Z;
  creg_ch : Z;
  cgreg_n : Z;
  last_rssi : Z;
  last_batt : Z;
  sim_last : bool;
  last_creg : Z;
  reg_step : Z;
  reg_due_ms : Z;
  camp_due_ms : Z;
  camp_noted : bool;
  xsim_due_ms : Z;
  xsim_pushed : bool
}.

(** The +XDRV peripherals: temperature reports and the vibration motor. *)
Record Drv := mkDrv {
  temp_period_ms : Z;
  temp_ch : Z;
  temp_due_ms : Z;
  vib_mode : Z;
  vib_period_ms : Z;
  vib_on_ms : Z;
  vib_start_ms : Z
}.

(** The call table. *)
Record Calls := mkCalls {
  next_call_id : Z;
  calls : list IosBbCall;
  ceer_cause : Z;
  last_dialed : bytes
}.

(** Short messages. *)
Record Sms := mkSmsSt {
  sms_mr : Z;
  last_mo_num : bytes;
  last_mo_text : bytes;
  mo_count : Z;
  store : list IosBbSms;
  store_next : Z
}.

(** Packet data; [data_out] tells whether a network is attached, [ip_rx]
    is the prefix that [ip_rxlen] counts. *)
Record Data := mkData {
  data_out : bool;
  pdp_active : bool;
  ip_rx : bytes
}.

(** The outside: clock, wall clock offset and zone, what went out
    through the two callbacks, the card file and whether it can be written, and the
    uninitialised bytes of the local array that +COPS=1 decodes into. *)
Record Env := mkEnv {
  now_ms : Z;
  wall_offset_ms : Z;
  gmtoff : Z -> Z;
  out_log : list bytes;
  data_log : list bytes;
  card_file : option bytes;
  card_writable : bool;
  stack_plmn : bytes
}.

(** [struct IosBbCore]. *)
Record IosBbCore := mkCore {
  b_ctl : Ctl;
  b_sim : Sim;
  b_link : Link;
  b_mux : Mux;
  b_ch : list IosBbAtChan;
  b_at : At;
  b_reg : Reg;
  b_drv : Drv;
  b_call : Calls;
  b_sms : Sms;
  b_data : Data;
  b_gps : IosBbGps;
  b_env : Env
}.

(** ** Setters *)

Definition eta_IosBbCall (r : IosBbCall) : IosBbCall := mkCall (c_used r) (c_mt r) (c_id r)
        (c_stat r) (c_next_stat r) (c_due_ms r) (c_rings r) (c_emergency r) (c_number r).
#[export] Instance upd_c_used : Upd c_used := ltac:(derive_upd eta_IosBbCall c_used).
#[export] Instance upd_c_mt : Upd c_mt := ltac:(derive_upd eta_IosBbCall c_mt).
#[export] Instance upd_c_id : Upd c_id := ltac:(derive_upd eta_IosBbCall c_id).
#[export] Instance upd_c_stat : Upd c_stat := ltac:(derive_upd eta_IosBbCall c_stat).
#[export] Instance upd_c_next_stat : Upd c_next_stat := ltac:(derive_upd eta_IosBbCall c_next_stat).
#[export] Instance upd_c_due_ms : Upd c_due_ms := ltac:(derive_upd eta_IosBbCall c_due_ms).
#[export] Instance upd_c_rings : Upd c_rings := ltac:(derive_upd eta_IosBbCall c_rings).
#[export] Instance upd_c_emergency : Upd c_emergency := ltac:(derive_upd eta_IosBbCall c_emergency).
#[export] Instance upd_c_number : Upd c_number := ltac:(derive_upd eta_IosBbCall c_number).

Definition eta_IosBbAtChan (r : IosBbAtChan) : IosBbAtChan := mkChan (ch_line r) (ch_len r)
        (ch_echo r) (ch_open r) (ch_sms_prompt r) (ch_data_cid r).
#[export] Instance upd_ch_line : Upd ch_line := ltac:(derive_upd eta_IosBbAtChan ch_line).
#[export] Instance upd_ch_len : Upd ch_len := ltac:(derive_upd eta_IosBbAtChan ch_len).
#[export] Instance upd_ch_echo : Upd ch_echo := ltac:(derive_upd eta_IosBbAtChan ch_echo).
#[export] Instance upd_ch_open : Upd ch_open := ltac:(derive_upd eta_IosBbAtChan ch_open).
#[export] Instance upd_ch_sms_prompt : Upd ch_sms_prompt := ltac:(derive_upd eta_IosBbAtChan ch_sms_prompt).
#[export] Instance upd_ch_data_cid : Upd ch_data_cid := ltac:(derive_upd eta_IosBbAtChan ch_data_cid).

Definition eta_IosBbH5Pkt (r : IosBbH5Pkt) : IosBbH5Pkt := mkPkt (p_seq r) (p_data r).
#[export] Instance upd_p_seq : Upd p_seq := ltac:(derive_upd eta_IosBbH5Pkt p_seq).
#[export] Instance upd_p_data : Upd p_data := ltac:(derive_upd eta_IosBbH5Pkt p_data).

Definition eta_IosBbMuxRx (r : IosBbMuxRx) : IosBbMuxRx := mkMuxRx (m_state r) (m_flags_run r)
        (m_addr r) (m_ctrl r) (m_len r) (m_buf r) (m_fcs r).
#[export] Instance upd_m_state : Upd m_state := ltac:(derive_upd eta_IosBbMuxRx m_state).
#[export] Instance upd_m_flags_run : Upd m_flags_run := ltac:(derive_upd eta_IosBbMuxRx m_flags_run).
#[export] Instance upd_m_addr : Upd m_addr := ltac:(derive_upd eta_IosBbMuxRx m_addr).
#[export] Instance upd_m_ctrl : Upd m_ctrl := ltac:(derive_upd eta_IosBbMuxRx m_ctrl).
#[export] Instance upd_m_len : Upd m_len := ltac:(derive_upd eta_IosBbMuxRx m_len).
#[export] Instance upd_m_buf : Upd m_buf := ltac:(derive_upd eta_IosBbMuxRx m_buf).
#[export] Instance upd_m_fcs : Upd m_fcs := ltac:(derive_upd eta_IosBbMuxRx m_fcs).

Definition eta_IosBbSms (r : IosBbSms) : IosBbSms := mkSms (s_used r) (s_num r) (s_pdu r).
#[export] Instance upd_s_used : Upd s_used := ltac:(derive_upd eta_IosBbSms s_used).
#[export] Instance upd_s_num : Upd s_num := ltac:(derive_upd eta_IosBbSms s_num).
#[export] Instance upd_s_pdu : Upd s_pdu := ltac:(derive_upd eta_IosBbSms s_pdu).

Definition eta_IosBbGps (r : IosBbGps) : IosBbGps := mkGps (g_present r) (g_fix r) (g_text r)
        (g_ch r) (g_interval_ms r) (g_due_ms r).
#[export] Instance upd_g_present : Upd g_present := ltac:(derive_upd eta_IosBbGps g_present).
#[export] Instance upd_g_fix : Upd g_fix := ltac:(derive_upd eta_IosBbGps g_fix).
#[export] Instance upd_g_text : Upd g_text := ltac:(derive_upd eta_IosBbGps g_text).
#[export] Instance upd_g_ch : Upd g_ch := ltac:(derive_upd eta_IosBbGps g_ch).
#[export] Instance upd_g_interval_ms : Upd g_interval_ms := ltac:(derive_upd eta_IosBbGps g_interval_ms).
#[export] Instance upd_g_due_ms : Upd g_due_ms := ltac:(derive_upd eta_IosBbGps g_due_ms).

Definition eta_Ctl (r : Ctl) : Ctl := mkCtl (operator_long r) (operator_short r) (plmn r)
        (sca r) (voicemail r) (signal_dbm r) (battery r) (registered r) (search_ms r) (nitz r)
        (sim_present r) (lac r) (ci r) (imei r) (imsi r) (iccid r) (answer_delay_ms r).
#[export] Instance upd_operator_long : Upd operator_long := ltac:(derive_upd eta_Ctl operator_long).
#[export] Instance upd_operator_short : Upd operator_short := ltac:(derive_upd eta_Ctl operator_short).
#[export] Instance upd_plmn : Upd plmn := ltac:(derive_upd eta_Ctl plmn).
#[export] Instance upd_sca : Upd sca := ltac:(derive_upd eta_Ctl sca).
#[export] Instance upd_voicemail : Upd voicemail := ltac:(derive_upd eta_Ctl voicemail).
#[export] Instance upd_signal_dbm : Upd signal_dbm := ltac:(derive_upd eta_Ctl signal_dbm).
#[export] Instance upd_battery : Upd battery := ltac:(derive_upd eta_Ctl battery).
#[export] Instance upd_registered : Upd registered := ltac:(derive_upd eta_Ctl registered).
#[export] Instance upd_search_ms : Upd search_ms := ltac:(derive_upd eta_Ctl search_ms).
#[export] Instance upd_nitz : Upd nitz := ltac:(derive_upd eta_Ctl nitz).
#[export] Instance upd_sim_present : Upd sim_present := ltac:(derive_upd eta_Ctl sim_present).
#[export] Instance upd_lac : Upd lac := ltac:(derive_upd eta_Ctl lac).
#[export] Instance upd_ci : Upd ci := ltac:(derive_upd eta_Ctl ci).
#[export] Instance upd_imei : Upd imei := ltac:(derive_upd eta_Ctl imei).
#[export] Instance upd_imsi : Upd imsi := ltac:(derive_upd eta_Ctl imsi).
#[export] Instance upd_iccid : Upd iccid := ltac:(derive_upd eta_Ctl iccid).
#[export] Instance upd_answer_delay_ms : Upd answer_delay_ms := ltac:(derive_upd eta_Ctl answer_delay_ms).

Definition eta_Sim (r : Sim) : Sim := mkSim (pin_on r) (pin r) (puk r) (pin_left r) (puk_left r)
        (sim_file r) (pin_ok r) (loci_plmn r).
#[export] Instance upd_pin_on : Upd pin_on := ltac:(derive_upd eta_Sim pin_on).
#[export] Instance upd_pin : Upd pin := ltac:(derive_upd eta_Sim pin).
#[export] Instance upd_puk : Upd puk := ltac:(derive_upd eta_Sim puk).
#[export] Instance upd_pin_left : Upd pin_left := ltac:(derive_upd eta_Sim pin_left).
#[export] Instance upd_puk_left : Upd puk_left := ltac:(derive_upd eta_Sim puk_left).
#[export] Instance upd_sim_file : Upd sim_file := ltac:(derive_upd eta_Sim sim_file).
#[export] Instance upd_pin_ok : Upd pin_ok := ltac:(derive_upd eta_Sim pin_ok).
#[export] Instance upd_loci_plmn : Upd loci_plmn := ltac:(derive_upd eta_Sim loci_plmn).

Definition eta_Link (r : Link) : Link := mkLink (h5 r) (h5_active r) (h5_crc r) (h5_in_frame r)
        (h5_esc r) (h5_rx r) (h5_rxlen r) (h5_tx_seq r) (h5_rx_next r) (h5_need_ack r)
        (h5_unacked r) (h5_last_tx_ms r) (h5_txq r).
#[export] Instance upd_h5 : Upd h5 := ltac:(derive_upd eta_Link h5).
#[export] Instance upd_h5_active : Upd h5_active := ltac:(derive_upd eta_Link h5_active).
#[export] Instance upd_h5_crc : Upd h5_crc := ltac:(derive_upd eta_Link h5_crc).
#[export] Instance upd_h5_in_frame : Upd h5_in_frame := ltac:(derive_upd eta_Link h5_in_frame).
#[export] Instance upd_h5_esc : Upd h5_esc := ltac:(derive_upd eta_Link h5_esc).
#[export] Instance upd_h5_rx : Upd h5_rx := ltac:(derive_upd eta_Link h5_rx).
#[export] Instance upd_h5_rxlen : Upd h5_rxlen := ltac:(derive_upd eta_Link h5_rxlen).
#[export] Instance upd_h5_tx_seq : Upd h5_tx_seq := ltac:(derive_upd eta_Link h5_tx_seq).
#[export] Instance upd_h5_rx_next : Upd h5_rx_next := ltac:(derive_upd eta_Link h5_rx_next).
#[export] Instance upd_h5_need_ack : Upd h5_need_ack := ltac:(derive_upd eta_Link h5_need_ack).
#[export] Instance upd_h5_unacked : Upd h5_unacked := ltac:(derive_upd eta_Link h5_unacked).
#[export] Instance upd_h5_last_tx_ms : Upd h5_last_tx_ms := ltac:(derive_upd eta_Link h5_last_tx_ms).
#[export] Instance upd_h5_txq : Upd h5_txq := ltac:(derive_upd eta_Link h5_txq).

Definition eta_Mux (r : Mux) : Mux := mkMux (mux r) (mux_leave r) (muxrx r).
#[export] Instance upd_mux : Upd mux := ltac:(derive_upd eta_Mux mux).
#[export] Instance upd_mux_leave : Upd mux_leave := ltac:(derive_upd eta_Mux mux_leave).
#[export] Instance upd_muxrx : Upd muxrx := ltac:(derive_upd eta_Mux muxrx).

Definition eta_At (r : At) : At := mkAt (hex_cs r) (colp_off r) (xemc_on r) (off r)
        (power_offs r) (xreg_n r) (xsigstr_on r) (xsigstr_ch r) (xciev_ch r) (xsim_ch r)
        (call_ch r) (sms_ch r) (s0 r) (ctzr_on r) (ctzr_ch r).
#[export] Instance upd_hex_cs : Upd hex_cs := ltac:(derive_upd eta_At hex_cs).
#[export] Instance upd_colp_off : Upd colp_off := ltac:(derive_upd eta_At colp_off).
#[export] Instance upd_xemc_on : Upd xemc_on := ltac:(derive_upd eta_At xemc_on).
#[export] Instance upd_off : Upd off := ltac:(derive_upd eta_At off).
#[export] Instance upd_power_offs : Upd power_offs := ltac:(derive_upd eta_At power_offs).
#[export] Instance upd_xreg_n : Upd xreg_n := ltac:(derive_upd eta_At xreg_n).
#[export] Instance upd_xsigstr_on : Upd xsigstr_on := ltac:(derive_upd eta_At xsigstr_on).
#[export] Instance upd_xsigstr_ch : Upd xsigstr_ch := ltac:(derive_upd eta_At xsigstr_ch).
#[export] Instance upd_xciev_ch : Upd xciev_ch := ltac:(derive_upd eta_At xciev_ch).
#[export] Instance upd_xsim_ch : Upd xsim_ch := ltac:(derive_upd eta_At xsim_ch).
#[export] Instance upd_call_ch : Upd call_ch := ltac:(derive_upd eta_At call_ch).
#[export] Instance upd_sms_ch : Upd sms_ch := ltac:(derive_upd eta_At sms_ch).
#[export] Instance upd_s0 : Upd s0 := ltac:(derive_upd eta_At s0).
#[export] Instance upd_ctzr_on : Upd ctzr_on := ltac:(derive_upd eta_At ctzr_on).
#[export] Instance upd_ctzr_ch : Upd ctzr_ch := ltac:(derive_upd eta_At ctzr_ch).

Definition eta_Reg (r : Reg) : Reg := mkReg (cfun r) (cops_format r) (cops_detached r)
        (creg_n r) (creg_ch r) (cgreg_n r) (last_rssi r) (last_batt r) (sim_last r)
        (last_creg r) (reg_step r) (reg_due_ms r) (camp_due_ms r) (camp_noted r) (xsim_due_ms r)
        (xsim_pushed r).
#[export] Instance upd_cfun : Upd cfun := ltac:(derive_upd eta_Reg cfun).
#[export] Instance upd_cops_format : Upd cops_format := ltac:(derive_upd eta_Reg cops_format).
#[export] Instance upd_cops_detached : Upd cops_detached := ltac:(derive_upd eta_Reg cops_detached).
#[export] Instance upd_creg_n : Upd creg_n := ltac:(derive_upd eta_Reg creg_n).
#[export] Instance upd_creg_ch : Upd creg_ch := ltac:(derive_upd eta_Reg creg_ch).
#[export] Instance upd_cgreg_n : Upd cgreg_n := ltac:(derive_upd eta_Reg cgreg_n).
#[export] Instance upd_last_rssi : Upd last_rssi := ltac:(derive_upd eta_Reg last_rssi).
#[export] Instance upd_last_batt : Upd last_batt := ltac:(derive_upd eta_Reg last_batt).
#[export] Instance upd_sim_last : Upd sim_last := ltac:(derive_upd eta_Reg sim_last).
#[export] Instance upd_last_creg : Upd last_creg := ltac:(derive_upd eta_Reg last_creg).
#[export] Instance upd_reg_step : Upd reg_step := ltac:(derive_upd eta_Reg reg_step).
#[export] Instance upd_reg_due_ms : Upd reg_due_ms := ltac:(derive_upd eta_Reg reg_due_ms).
#[export] Instance upd_camp_due_ms : Upd camp_due_ms := ltac:(derive_upd eta_Reg camp_due_ms).
#[export] Instance upd_camp_noted : Upd camp_noted := ltac:(derive_upd eta_Reg camp_noted).
#[export] Instance upd_xsim_due_ms : Upd xsim_due_ms := ltac:(derive_upd eta_Reg xsim_due_ms).
#[export] Instance upd_xsim_pushed : Upd xsim_pushed := ltac:(derive_upd eta_Reg xsim_pushed).

Definition eta_Drv (r : Drv) : Drv := mkDrv (temp_period_ms r) (temp_ch r) (temp_due_ms r)
        (vib_mode r) (vib_period_ms r) (vib_on_ms r) (vib_start_ms r).
#[export] Instance upd_temp_period_ms : Upd temp_period_ms := ltac:(derive_upd eta_Drv temp_period_ms).
#[export] Instance upd_temp_ch : Upd temp_ch := ltac:(derive_upd eta_Drv temp_ch).
#[export] Instance upd_temp_due_ms : Upd temp_due_ms := ltac:(derive_upd eta_Drv temp_due_ms).
#[export] Instance upd_vib_mode : Upd vib_mode := ltac:(derive_upd eta_Drv vib_mode).
#[export] Instance upd_vib_period_ms : Upd vib_period_ms := ltac:(derive_upd eta_Drv vib_period_ms).
#[export] Instance upd_vib_on_ms : Upd vib_on_ms := ltac:(derive_upd eta_Drv vib_on_ms).
#[export] Instance upd_vib_start_ms : Upd vib_start_ms := ltac:(derive_upd eta_Drv vib_start_ms).

Definition eta_Calls (r : Calls) : Calls := mkCalls (next_call_id r) (calls r) (ceer_cause r)
        (last_dialed r).
#[export] Instance upd_next_call_id : Upd next_call_id := ltac:(derive_upd eta_Calls next_call_id).
#[export] Instance upd_calls : Upd calls := ltac:(derive_upd eta_Calls calls).
#[export] Instance upd_ceer_cause : Upd ceer_cause := ltac:(derive_upd eta_Calls ceer_cause).
#[export] Instance upd_last_dialed : Upd last_dialed := ltac:(derive_upd eta_Calls last_dialed).

Definition eta_Sms (r : Sms) : Sms := mkSmsSt (sms_mr r) (last_mo_num r) (last_mo_text r)
        (mo_count r) (store r) (store_next r).
#[export] Instance upd_sms_mr : Upd sms_mr := ltac:(derive_upd eta_Sms sms_mr).
#[export] Instance upd_last_mo_num : Upd last_mo_num := ltac:(derive_upd eta_Sms last_mo_num).
#[export] Instance upd_last_mo_text : Upd last_mo_text := ltac:(derive_upd eta_Sms last_mo_text).
#[export] Instance upd_mo_count : Upd mo_count := ltac:(derive_upd eta_Sms mo_count).
#[export] Instance upd_store : Upd store := ltac:(derive_upd eta_Sms store).
#[export] Instance upd_store_next : Upd store_next := ltac:(derive_upd eta_Sms store_next).

Definition eta_Data (r : Data) : Data := mkData (data_out r) (pdp_active r) (ip_rx r).
#[export] Instance upd_data_out : Upd data_out := ltac:(derive_upd eta_Data data_out).
#[export] Instance upd_pdp_active : Upd pdp_active := ltac:(derive_upd eta_Data pdp_active).
#[export] Instance upd_ip_rx : Upd ip_rx := ltac:(derive_upd eta_Data ip_rx).

Definition eta_Env (r : Env) : Env := mkEnv (now_ms r) (wall_offset_ms r) (gmtoff r) (out_log r)
        (data_log r) (card_file r) (card_writable r) (stack_plmn r).
#[export] Instance upd_now_ms : Upd now_ms := ltac:(derive_upd eta_Env now_ms).
#[export] Instance upd_wall_offset_ms : Upd wall_offset_ms := ltac:(derive_upd eta_Env wall_offset_ms).
#[export] Instance upd_gmtoff : Upd gmtoff := ltac:(derive_upd eta_Env gmtoff).
#[export] Instance upd_out_log : Upd out_log := ltac:(derive_upd eta_Env out_log).
#[export] Instance upd_data_log : Upd data_log := ltac:(derive_upd eta_Env data_log).
#[export] Instance upd_card_file : Upd card_file := ltac:(derive_upd eta_Env card_file).
#[export] Instance upd_card_writable : Upd card_writable := ltac:(derive_upd eta_Env card_writable).
#[export] Instance upd_stack_plmn : Upd stack_plmn := ltac:(derive_upd eta_Env stack_plmn).

Definition eta_IosBbCore (r : IosBbCore) : IosBbCore := mkCore (b_ctl r) (b_sim r) (b_link r)
        (b_mux r) (b_ch r) (b_at r) (b_reg r) (b_drv r) (b_call r) (b_sms r) (b_data r)
        (b_gps r) (b_env r).
#[export] Instance upd_b_ctl : Upd b_ctl := ltac:(derive_upd eta_IosBbCore b_ctl).
#[export] Instance upd_b_sim : Upd b_sim := ltac:(derive_upd eta_IosBbCore b_sim).
#[export] Instance upd_b_link : Upd b_link := ltac:(derive_upd eta_IosBbCore b_link).
#[export] Instance upd_b_mux : Upd b_mux := ltac:(derive_upd eta_IosBbCore b_mux).
#[export] Instance upd_b_ch : Upd b_ch := ltac:(derive_upd eta_IosBbCore b_ch).
#[export] Instance upd_b_at : Upd b_at := ltac:(derive_upd eta_IosBbCore b_at).
#[export] Instance upd_b_reg : Upd b_reg := ltac:(derive_upd eta_IosBbCore b_reg).
#[export] Instance upd_b_drv : Upd b_drv := ltac:(derive_upd eta_IosBbCore b_drv).
#[export] Instance upd_b_call : Upd b_call := ltac:(derive_upd eta_IosBbCore b_call).
#[export] Instance upd_b_sms : Upd b_sms := ltac:(derive_upd eta_IosBbCore b_sms).
#[export] Instance upd_b_data : Upd b_data := ltac:(derive_upd eta_IosBbCore b_data).
#[export] Instance upd_b_gps : Upd b_gps := ltac:(derive_upd eta_IosBbCore b_gps).
#[export] Instance upd_b_env : Upd b_env := ltac:(derive_upd eta_IosBbCore b_env).
(** ** Arrays of the core *)

Definition call0 : IosBbCall := mkCall false false 0 0 0 0 0 false [].
Definition chan0 : IosBbAtChan := mkChan (replicate 600 0) 0 false false false 0.
Definition sms0 : IosBbSms := mkSms false [] [].

(** [bb->calls[i]] *)
Definition get_call (i : nat) (bb : IosBbCore) : IosBbCall :=
  default call0 (bb.(b_call).(calls) !! i).

Definition upd_call (i : nat) (f : IosBbCall -> IosBbCall) (bb : IosBbCore) : IosBbCore :=
  bb <| b_call; calls ::= alter f i |>.

(** [bb->ch[ch]] *)
Definition get_ch (ch : Z) (bb : IosBbCore) : IosBbAtChan :=
  default chan0 (bb.(b_ch) !! Z.to_nat ch).

Definition upd_ch (ch : Z) (f : IosBbAtChan -> IosBbAtChan) (bb : IosBbCore) : IosBbCore :=
  bb <| b_ch ::= alter f (Z.to_nat ch) |>.

Definition is_open (ch : Z) (bb : IosBbCore) : bool := (get_ch ch bb).(ch_open).

(** [for (int i = 0; i < n; i++) body (i)] *)
Definition for_each {S : Type} (n : nat) (body : nat -> S -> S) (s : S) : S :=
  fold_left (fun s i => body i s) (seq 0 n) s.

(** The first index below [n] that satisfies a test of the state. *)
Fixpoint first_from (k i : nat) (p : nat -> bool) : option nat :=
  match k with
  | O => None
  | S k' => if p i then Some i else first_from k' (S i) p
  end.

Definition first_index (n : nat) (p : nat -> bool) : option nat := first_from n 0 p.

(** ** Lemmas *)

Lemma first_from_spec k i p j :
  first_from k i p = Some j ->
  (i <= j < i + k)%nat /\ p j = true /\ forall m, (i <= m < j)%nat -> p m = false.
Proof.
  revert i. induction k as [|k IH]; intros i; simpl; [done|].
  destruct (p i) eqn:E; intros H; simplify_eq.
  - split_and!; [lia|lia|done|]. intros. lia.
  - apply IH in H as (H1 & H2 & H3). split_and!; [lia|lia|done|].
    intros m Hm. destruct (decide (m = i)) as [->|]; [done|]. apply H3. lia.
Qed.

Lemma first_from_None k i p :
  first_from k i p = None -> forall m, (i <= m < i + k)%nat -> p m = false.
Proof.
  revert i. induction k as [|k IH]; intros i; simpl; [lia|].
  destruct (p i) eqn:E; [done|]. intros H m Hm.
  destruct (decide (m = i)) as [->|]; [done|]. apply (IH _ H). lia.
Qed.

Lemma for_each_ind {S : Type} (P : S -> Prop) n body (s : S) :
  P s -> (forall i s, (i < n)%nat -> P s -> P (body i s)) -> P (for_each n body s).
Proof.
  intros Hs Hb. unfold for_each.
  assert (H : forall l, (forall i, i ∈ l -> (i < n)%nat) ->
    forall s, P s -> P (fold_left (fun s i => body i s) l s)).
  { induction l as [|x l IH]; intros Hl s' Hs'; simpl; [done|].
    apply IH; [intros; apply Hl; by right|]. apply Hb; [apply Hl; by left|done]. }
  apply H; [|done]. intros i Hi. apply elem_of_seq in Hi. lia.
Qed.
