(* ===== verification/BbTx.v ===== *)
(** * Transmit side of the baseband core

    H5 packets (CRC, SLIP framing, the transmit window), 27.010 frames (FCS,
    basic-mode header) and the channel writes built on them:
    [src/hw/misc/ios_baseband_core.c] from [h5_crc_init] to [h5_retransmit],
    from [mx_fcs_init] to [mx_control], and [h5_stream] to [chan_printf].
    Trace output is not modelled. *)

From Stdlib Require Import ZArith Lia String.
From stdpp Require Import base numbers list.
From S2P Require Import Prelude CLib BbState.
Local Open Scope Z_scope.

(** ** H5 *)

Definition H5_TYPE_ACK : Z := 0.
Definition H5_TYPE_DATA : Z := 14.
Definition H5_TYPE_LINK : Z := 15.
Definition H5_RETX_MS : Z := 250.
Definition H5_MAX_PAYLOAD : Z := 1024.

(** The inner loop of [h5_crc_init] for one table entry. *)
Definition h5_crc_bit (c : Z) : Z :=
  if Z.testbit c 0 then Z.lxor (Z.shiftr c 1) 0x8408 else Z.shiftr c 1.

Definition h5_crc_entry (i : Z) : Z :=
  let c := Nat.iter 8 h5_crc_bit i in
  u16 (Z.lor (Z.shiftr c 8) (Z.shiftl c 8)).

Definition h5_crc_table : list Z := Eval vm_compute in (h5_crc_entry <$> all_bytes).

Definition h5_crc_step (c b : Z) : Z :=
  Z.lxor (rd h5_crc_table (Z.land (Z.lxor b (Z.shiftr c 8)) 0xff)) (u16 (Z.shiftl c 8)).

(** The bit reversal that ends [ios_bb_h5_crc]. *)
Definition bitrev16 (c : Z) : Z :=
  fold_left (fun r i => u16 (Z.lor (Z.shiftl r 1) (Z.land (Z.shiftr c (Z.of_nat i)) 1)))
            (seq 0 16) 0.

Definition ios_bb_h5_crc (p : bytes) : Z := bitrev16 (fold_left h5_crc_step p 0xffff).

(** The output callback. *)
Definition out_bytes (b : bytes) (bb : IosBbCore) : IosBbCore :=
  bb <| b_env; out_log ::= fun l => l ++ [b] |>.

(** SLIP escaping of one byte. *)
Definition slip_byte (b : Z) : bytes :=
  if b =? 0xc0 then [0xdb; 0xdc] else if b =? 0xdb then [0xdb; 0xdd] else [b].

Definition slip_wire (pkt : bytes) : bytes :=
  [0xc0] ++ concat (slip_byte <$> pkt) ++ [0xc0].

Definition h5_send_wire (pkt : bytes) (bb : IosBbCore) : IosBbCore :=
  out_bytes (slip_wire pkt) bb.

(** The packet [h5_send_pkt] builds: header, payload and, when negotiated, CRC. *)
Definition h5_packet (l : Link) (type : Z) (reliable : bool) (seq : Z) (data : bytes) : bytes :=
  let len := zlen data in
  let crc := l.(h5_crc) && negb (type =? H5_TYPE_LINK) in
  let p0 := u8 (Z.lor (Z.lor (Z.lor seq (Z.shiftl l.(h5_rx_next) 3))
                             (Z.shiftl (b2z crc) 6)) (Z.shiftl (b2z reliable) 7)) in
  let p1 := u8 (Z.lor type (Z.shiftl (Z.land len 0xf) 4)) in
  let p2 := u8 (Z.shiftr len 4) in
  let p3 := u8 (Z.lnot (p0 + p1 + p2)) in
  let pkt := [p0; p1; p2; p3] ++ data in
  if crc then
    let c := ios_bb_h5_crc pkt in pkt ++ [u8 (Z.shiftr c 8); u8 c]
  else pkt.

Definition h5_send_pkt (type : Z) (reliable : bool) (seq : Z) (data : bytes)
    (bb : IosBbCore) : IosBbCore :=
  if H5_MAX_PAYLOAD <? zlen data then bb
  else
    let bb := h5_send_wire (h5_packet bb.(b_link) type reliable seq data) bb in
    bb <| b_link; h5_need_ack := false |>
       <| b_link; h5_last_tx_ms := bb.(b_env).(now_ms) |>.

Definition h5_send_ack (bb : IosBbCore) : IosBbCore :=
  let bb := if bb.(b_link).(h5_active) then h5_send_pkt H5_TYPE_ACK false 0 [] bb else bb in
  bb <| b_link; h5_need_ack := false |>.

(** The size of [h5_txq]. *)
Definition H5_TXQ_SIZE : Z := 8192.

(** A queue record: two length bytes, then the payload. *)
Definition txq_record (data : bytes) : bytes :=
  [u8 (zlen data); u8 (Z.shiftr (zlen data) 8)] ++ data.

Definition h5_queue (data : bytes) (bb : IosBbCore) : IosBbCore :=
  let data := if H5_MAX_PAYLOAD <? zlen data then ztake H5_MAX_PAYLOAD data else data in
  if H5_TXQ_SIZE <? zlen bb.(b_link).(h5_txq) + 2 + zlen data then bb
  else bb <| b_link; h5_txq ::= fun q => q ++ txq_record data |>.

Definition h5_send_one_unacked (data : bytes) (bb : IosBbCore) : IosBbCore :=
  let seq := bb.(b_link).(h5_tx_seq) in
  let bb := bb <| b_link; h5_unacked ::= fun u => u ++ [mkPkt seq data] |> in
  let bb := h5_send_pkt H5_TYPE_DATA true seq data bb in
  bb <| b_link; h5_tx_seq := Z.land (seq + 1) 7 |>.

(** The loop of [h5_pump]; every turn adds a packet to the window, so
    [IOS_BB_H5_WINDOW] turns are enough (see [h5_pump_done]). *)
Fixpoint h5_pump_loop (fuel : nat) (bb : IosBbCore) : IosBbCore :=
  match fuel with
  | O => bb
  | S fuel' =>
      let q := bb.(b_link).(h5_txq) in
      if (zlen bb.(b_link).(h5_unacked) <? IOS_BB_H5_WINDOW) && (2 <=? zlen q) then
        let len := Z.lor (rd q 0) (Z.shiftl (rd q 1) 8) in
        if zlen q <? 2 + len then bb
        else
          let bb := h5_send_one_unacked (ztake len (zdrop 2 q)) bb in
          h5_pump_loop fuel' (bb <| b_link; h5_txq := zdrop (2 + len) q |>)
      else bb
  end.

Definition h5_pump (bb : IosBbCore) : IosBbCore :=
  if bb.(b_link).(h5_active) then h5_pump_loop 7 bb else bb.

Definition h5_retransmit (bb : IosBbCore) : IosBbCore :=
  fold_left (fun bb p => h5_send_pkt H5_TYPE_DATA true p.(p_seq) p.(p_data) bb)
            bb.(b_link).(h5_unacked) bb.

(** Raw or H5-wrapped output of a byte stream. *)
Definition h5_stream (data : bytes) (bb : IosBbCore) : IosBbCore :=
  if bb.(b_at).(off) then bb
  else if negb bb.(b_link).(h5) then out_bytes data bb
  else if negb bb.(b_link).(h5_active) then h5_queue data bb
  else h5_pump (h5_queue data bb).

(** ** 27.010 basic mode *)

Definition MX_FLAG : Z := 0xf9.
Definition MX_EA : Z := 0x01.
Definition MX_CR : Z := 0x02.
Definition MX_PF : Z := 0x10.
Definition MX_UIH : Z := 0xef.
Definition MX_UI : Z := 0x03.
Definition MX_SABM : Z := 0x2f.
Definition MX_UA : Z := 0x63.
Definition MX_DM : Z := 0x0f.
Definition MX_DISC : Z := 0x43.
Definition MX_INIT_FCS : Z := 0xff.
Definition MX_GOOD_FCS : Z := 0xcf.

(** [ctrl & ~MX_PF] on a byte. *)
Definition no_pf (ctrl : Z) : Z := Z.ldiff ctrl MX_PF.

Definition mx_fcs_bit (c : Z) : Z :=
  if Z.testbit c 0 then Z.lxor (Z.shiftr c 1) 0xe0 else Z.shiftr c 1.

Definition mx_fcs_table : list Z :=
  Eval vm_compute in ((fun i => Nat.iter 8 mx_fcs_bit i) <$> all_bytes).

Definition mx_fcs_step (fcs b : Z) : Z := rd mx_fcs_table (Z.lxor fcs b).

Definition mx_fcs (fcs : Z) (p : bytes) : Z := fold_left mx_fcs_step p fcs.

Definition mx_emit (f : bytes) (bb : IosBbCore) : IosBbCore :=
  h5_stream ([MX_FLAG] ++ f ++ [MX_FLAG]) bb.

(** Address, control and length octets of a frame. *)
Definition mx_header (dlci : Z) (cr : bool) (ctrl len : Z) : bytes :=
  [u8 (Z.lor (Z.lor (Z.shiftl dlci 2) (Z.shiftl (b2z cr) 1)) MX_EA); u8 ctrl] ++
  (if len <? 128 then [u8 (Z.lor (Z.shiftl len 1) MX_EA)]
   else [u8 (Z.shiftl (Z.land len 0x7f) 1); u8 (Z.shiftr len 7)]).

(** The frame of [mx_send], flags not included. *)
Definition mx_frame (dlci : Z) (cr : bool) (ctrl : Z) (data : bytes) : bytes :=
  let hdr := mx_header dlci cr ctrl (zlen data) in
  let fcs := mx_fcs MX_INIT_FCS hdr in
  let fcs := if negb (no_pf ctrl =? MX_UIH) then mx_fcs fcs data else fcs in
  hdr ++ data ++ [u8 (0xff - fcs)].

Definition mx_send (dlci : Z) (cr : bool) (ctrl : Z) (data : bytes) (bb : IosBbCore) : IosBbCore :=
  mx_emit (mx_frame dlci cr ctrl data) bb.

Definition mx_send_frame_canned (dlci ctrl : Z) (bb : IosBbCore) : IosBbCore :=
  let f := [u8 (Z.lor (Z.lor (Z.shiftl dlci 2)
                             (if negb bb.(b_link).(h5) then MX_CR else 0)) MX_EA);
            u8 ctrl; MX_EA] in
  mx_emit (f ++ [u8 (0xff - mx_fcs MX_INIT_FCS f)]) bb.

Definition MX_CMD_MSC : Z := 0xe3.
Definition MX_CMD_TEST : Z := 0x13.
Definition MX_CMD_PSC : Z := 0x23.
Definition MX_CMD_RLS : Z := 0x2b.
Definition MX_CMD_FCOFF : Z := 0x33.
Definition MX_CMD_FCON : Z := 0x53.
Definition MX_CMD_CLD : Z := 0x63.

Definition mx_msc (dlci : Z) (dv : bool) (bb : IosBbCore) : IosBbCore :=
  let msc := [MX_CMD_MSC; Z.lor (Z.shiftl 2 1) MX_EA;
              u8 (Z.lor (Z.lor (Z.shiftl dlci 2) MX_CR) MX_EA);
              Z.lor 0x0d (if dv then 0x80 else 0)] in
  mx_send 0 false MX_UIH msc bb.

(** The size of [resp] in [mx_control]. *)
Definition MX_RESP_SIZE : Z := 64.

(** The response octets and the [dlen] that remains after the [switch]. *)
Definition mx_control_resp (type : Z) (data : bytes) (dlen : Z) : bytes * Z :=
  let cap := if MX_RESP_SIZE - 2 <? dlen then MX_RESP_SIZE - 2 else dlen in
  if type =? MX_CMD_PSC then ([0x21; MX_EA], dlen)
  else if type =? MX_CMD_CLD then ([0x61; MX_EA], dlen)
  else if type =? MX_CMD_TEST then
    ([0x11; u8 (Z.lor (Z.shiftl cap 1) MX_EA)] ++ ztake cap data, cap)
  else if (type =? MX_CMD_MSC) || (type =? MX_CMD_RLS) || (type =? MX_CMD_FCON)
          || (type =? MX_CMD_FCOFF) then
    ([Z.ldiff type MX_CR; u8 (Z.lor (Z.shiftl cap 1) MX_EA)] ++ ztake cap data, cap)
  else ([0x09; Z.lor (Z.shiftl 1 1) MX_EA; type], dlen).

Definition mx_control (data : bytes) (bb : IosBbCore) : IosBbCore :=
  let len := zlen data in
  if len <? 2 then bb
  else
    let type := rd data 0 in
    let clen := Z.land (Z.shiftr (rd data 1) 1) 0x7f in
    if len <? 2 + clen then bb
    else
      let data := zdrop 2 data in
      let '(resp, dlen) := mx_control_resp type data clen in
      let bb := if type =? MX_CMD_CLD then bb <| b_mux; mux_leave := true |> else bb in
      let bb := mx_send 0 false MX_UIH resp bb in
      if (type =? MX_CMD_MSC) && (2 <=? dlen) && negb bb.(b_link).(h5) then
        mx_msc (Z.shiftr (rd data 0) 2) false bb
      else bb.

(** ** Channel writes *)

Definition chan_write (ch : Z) (s : bytes) (bb : IosBbCore) : IosBbCore :=
  if bb.(b_mux).(mux) && (0 <? ch) then mx_send ch false MX_UIH s bb
  else h5_stream s bb.

(** [vsnprintf] into a 512-byte buffer, then the channel write. *)
Definition chan_printf (ch : Z) (s : bytes) (bb : IosBbCore) : IosBbCore :=
  chan_write ch (ztake 511 s) bb.

(** A response or unsolicited line: CR LF around the text. *)
Definition at_line (ch : Z) (s : bytes) (bb : IosBbCore) : IosBbCore :=
  chan_printf ch (crlf ++ s ++ crlf) bb.

Definition at_ok (ch : Z) (bb : IosBbCore) : IosBbCore := at_line ch (str "OK") bb.
Definition at_error (ch : Z) (bb : IosBbCore) : IosBbCore := at_line ch (str "ERROR") bb.

Definition cme_error (ch err : Z) (bb : IosBbCore) : IosBbCore :=
  at_line ch (str "+CME ERROR: " ++ fmt_d err) bb.
