(* ===== verification/BbPdu.v ===== *)
(** * SMS text and number codings

    GSM 03.38 septets, UCS2, hexadecimal, swapped semi-octets and the service
    centre time stamp: [src/hw/misc/ios_baseband_core.c] from [gsm7_main] to
    [scts_from_ms].  Functions that fill a caller's buffer return the bytes
    written; a read outside the input makes [gsm7_unpack] return [None]. *)

From Stdlib Require Import ZArith Lia String.
From stdpp Require Import base numbers list.
From S2P Require Import Prelude CLib.
Local Open Scope Z_scope.

(** ** GSM 03.38 *)

(** One-byte entries [first .. first + n - 1]. *)
Definition ascii_run (first : Z) (n : nat) : list bytes :=
  (fun i => [first + Z.of_nat i]) <$> seq 0 n.

(** The default alphabet as the source writes it, position by position. *)
Definition gsm7_main : list bytes := Eval vm_compute in (
  (* 0..15 *)
  [[0x40]; [0xc2; 0xa3]; [0x24]; [0xc2; 0xa5]; [0xc3; 0xa8]; [0xc3; 0xa9]; [0xc3; 0xb9];
   [0xc3; 0xac]; [0xc3; 0xb2]; [0xc3; 0x87]; [0x0a]; [0xc3; 0x98]; [0xc3; 0xb8]; [0x0d];
   [0xc3; 0x85]; [0xc3; 0xa5]] ++
  (* 16..31 *)
  [[0xce; 0x94]; [0x5f]; [0xce; 0xa6]; [0xce; 0x93]; [0xce; 0x9b]; [0xce; 0xa9];
   [0xce; 0xa0]; [0xce; 0xa8]; [0xce; 0xa3]; [0xce; 0x98]; [0xce; 0x9e]; [0xc3; 0x86];
   [0xc3; 0xa6]; [0xc3; 0x9f]; [0xc3; 0x89]; [0x20]] ++
  (* 32..47 *)
  [[0x20]; [0x21]; [0x22]; [0x23]; [0xc2; 0xa4]; [0x25]; [0x26]; [0x27]; [0x28]; [0x29];
   [0x2a]; [0x2b]; [0x2c]; [0x2d]; [0x2e]; [0x2f]] ++
  (* 48..63 *)
  ascii_run 0x30 16 ++
  (* 64..95 *)
  [[0xc2; 0xa1]] ++ ascii_run 0x41 26 ++
  [[0xc3; 0x84]; [0xc3; 0x96]; [0xc3; 0x91]; [0xc2; 0xa7]; [0xc2; 0xbf]] ++
  (* 96..127 *)
  [[0xc2; 0xa0]] ++ ascii_run 0x61 26 ++
  [[0xc3; 0xa4]; [0xc3; 0xb6]; [0xc3; 0xbc]; [0xc3; 0xb1]; [0xc3; 0xa0]]).

(** The escape table: text and the septet after 0x1b. *)
Definition gsm7_ext : list (bytes * Z) :=
  [([0x5e], 0x14); ([0x7b], 0x28); ([0x7d], 0x29); ([0x5c], 0x2f);
   ([0x5b], 0x3c); ([0x5d], 0x3d); ([0x7c], 0x40); ([0xe2; 0x82; 0xac], 0x65)].

(** The loop over [gsm7_main] from position [i]. *)
Fixpoint lookup_main (tbl : list bytes) (i : Z) (s : bytes) : option (Z * Z) :=
  match tbl with
  | [] => None
  | e :: t =>
      if i =? 31 then lookup_main t (i + 1) s
      else if starts_with e s then Some (i, zlen e)
      else lookup_main t (i + 1) s
  end.

Fixpoint lookup_ext (tbl : list (bytes * Z)) (s : bytes) : option (Z * Z) :=
  match tbl with
  | [] => None
  | (e, v) :: t =>
      if starts_with e s then Some (Z.lor 0x100 v, zlen e) else lookup_ext t s
  end.

(** Septet (0x100 marks an escape) and length of the entry at the head of [s]. *)
Definition gsm7_lookup (s : bytes) : option (Z * Z) :=
  match lookup_main gsm7_main 0 s with
  | Some r => Some r
  | None => lookup_ext gsm7_ext s
  end.

(** Every turn of the loop consumes at least one byte of [s]. *)
Fixpoint encodable_loop (fuel : nat) (s : bytes) : bool :=
  match fuel, s with
  | _, [] => true
  | O, _ => false
  | S fuel', _ =>
      match gsm7_lookup s with
      | None => false
      | Some (_, n) => encodable_loop fuel' (zdrop n s)
      end
  end.

Definition gsm7_encodable (s : bytes) : bool := encodable_loop (length s) s.

(** The first loop of [gsm7_pack]: the septets, at most 512. *)
Fixpoint septets_loop (fuel : nat) (s : bytes) (ns : Z) : list Z :=
  match fuel, s with
  | _, [] => []
  | O, _ => []
  | S fuel', _ =>
      if ns + 2 <? 512 then
        match gsm7_lookup s with
        | None => []
        | Some (v, n) =>
            if Z.testbit v 8 then
              0x1b :: Z.land v 0xff :: septets_loop fuel' (zdrop n s) (ns + 2)
            else v :: septets_loop fuel' (zdrop n s) (ns + 1)
        end
      else []
  end.

Definition gsm7_septets (s : bytes) : list Z := septets_loop (length s) s 0.

(** The seven bits of a septet, least significant first. *)
Definition septet_bits (v : Z) : list bool :=
  (fun b => Z.testbit v (Z.of_nat b)) <$> seq 0 7.

(** The bit loop of [gsm7_pack]; true when it returned early. *)
Fixpoint put_bits (bits : list bool) (max bitpos : Z) (out : bytes) : bytes * Z * bool :=
  match bits with
  | [] => (out, bitpos, false)
  | x :: t =>
      let k := Z.shiftr bitpos 3 in
      let out :=
        if x then wr out k (Z.lor (rd out k) (Z.shiftl 1 (Z.land bitpos 7))) else out in
      let bitpos := bitpos + 1 in
      if max <? Z.shiftr bitpos 3 + 1 then (out, bitpos, true)
      else put_bits t max bitpos out
  end.

(** Packed octets (the returned count of them) and the number of septets. *)
Definition gsm7_pack (s : bytes) (max : Z) : bytes * Z :=
  let septets := gsm7_septets s in
  let '(out, bitpos, stop) :=
    put_bits (concat (septet_bits <$> septets)) max 0 (replicate (Z.to_nat max) 0) in
  let no := if stop then max else Z.shiftr (bitpos + 7) 3 in
  (ztake no out, zlen septets).

(** Bit [k] of the packed stream. *)
Definition stream_bit (inp : bytes) (k : Z) : option Z :=
  b ← zget inp (Z.shiftr k 3); Some (Z.land (Z.shiftr b (Z.land k 7)) 1).

Fixpoint read_septet (nb : nat) (inp : bytes) (bitpos b v : Z) : option Z :=
  match nb with
  | O => Some v
  | S nb' =>
      x ← stream_bit inp (bitpos + b);
      read_septet nb' inp bitpos (b + 1) (Z.lor v (Z.shiftl x b))
  end.

(** The escape table read backwards. *)
Fixpoint ext_text (tbl : list (bytes * Z)) (v : Z) : bytes :=
  match tbl with
  | [] => []
  | (e, w) :: t => if w =? v then e else ext_text t v
  end.

Fixpoint unpack_loop (n : nat) (inp : bytes) (i : Z) (esc : bool) (out : bytes) (max : Z)
    : option bytes :=
  match n with
  | O => Some out
  | S n' =>
      if zlen out + 4 <? max then
        v ← read_septet 7 inp (i * 7) 0 0;
        if esc then unpack_loop n' inp (i + 1) false (out ++ ext_text gsm7_ext v) max
        else if v =? 0x1b then unpack_loop n' inp (i + 1) true out max
        else unpack_loop n' inp (i + 1) false
               (out ++ default [] (gsm7_main !! Z.to_nat v)) max
      else Some out
  end.

Definition gsm7_unpack (inp : bytes) (nseptets max : Z) : option bytes :=
  unpack_loop (Z.to_nat nseptets) inp 0 false [] max.

(** ** UCS2 *)

Fixpoint utf8_to_ucs2be (s : bytes) (no max : Z) : bytes :=
  match s with
  | [] => []
  | c :: t =>
      if max <? no + 2 then []
      else
        let put c rest := Z.shiftr c 8 :: Z.land c 0xff :: rest in
        if c <? 0x80 then put c (utf8_to_ucs2be t (no + 2) max)
        else
          match t with
          | [] => []
          | d :: t2 =>
              if (Z.land c 0xf0 =? 0xe0) && (match t2 with [] => true | _ => false end) then []
              else if Z.land c 0xe0 =? 0xc0 then
                put (Z.lor (Z.shiftl (Z.land c 0x1f) 6) (Z.land d 0x3f))
                    (utf8_to_ucs2be t2 (no + 2) max)
              else if Z.land c 0xf0 =? 0xe0 then
                match t2 with
                | [] => []
                | e :: t3 =>
                    put (Z.lor (Z.lor (Z.shiftl (Z.land c 0x0f) 12)
                                      (Z.shiftl (Z.land d 0x3f) 6)) (Z.land e 0x3f))
                        (utf8_to_ucs2be t3 (no + 2) max)
                end
              else put 63 (utf8_to_ucs2be t (no + 2) max)
          end
  end.

(** UTF-8 bytes of a 16-bit unit. *)
Definition utf8_unit (c : Z) : bytes :=
  if c <? 0x80 then [c]
  else if c <? 0x800 then [Z.lor 0xc0 (Z.shiftr c 6); Z.lor 0x80 (Z.land c 0x3f)]
  else [Z.lor 0xe0 (Z.shiftr c 12); Z.lor 0x80 (Z.land (Z.shiftr c 6) 0x3f);
        Z.lor 0x80 (Z.land c 0x3f)].

Fixpoint ucs2be_loop (inp : bytes) (out : bytes) (max : Z) : bytes :=
  match inp with
  | h :: l :: t =>
      if zlen out + 3 <? max then
        ucs2be_loop t (out ++ utf8_unit (Z.lor (Z.shiftl h 8) l)) max
      else out
  | _ => out
  end.

Definition ucs2be_to_utf8 (inp : bytes) (n max : Z) : bytes := ucs2be_loop (ztake n inp) [] max.

(** ** Hexadecimal *)

Definition hexdig (d : Z) : Z := rd (str "0123456789ABCDEF") d.

Definition bytes_to_hex (inp : bytes) : bytes :=
  concat ((fun b => [hexdig (Z.shiftr b 4); hexdig (Z.land b 0xf)]) <$> inp).

Definition hex_digit (c : Z) : Z :=
  if (48 <=? c) && (c <=? 57) then c - 48
  else if (97 <=? c) && (c <=? 102) then c - 97 + 10
  else if (65 <=? c) && (c <=? 70) then c - 65 + 10
  else 0xffff.

Fixpoint hex_nibbles (s : bytes) (n max : Z) : bytes :=
  match s with
  | [] => []
  | c :: t =>
      if n <? max then
        let hi := hex_digit c in
        if hi =? 0xffff then hex_nibbles t n max
        else
          match t with
          | [] => [u8 (Z.lor (Z.shiftl hi 4) 0xf)]
          | d :: t2 =>
              let lo := hex_digit d in
              let lo := if lo =? 0xffff then 0xf else lo in
              u8 (Z.lor (Z.shiftl hi 4) lo) :: hex_nibbles t2 (n + 1) max
          end
      else []
  end.

(** [str_to_hexstr (s, out, max)] *)
Definition str_to_hexstr (s : bytes) (max : Z) : bytes :=
  bytes_to_hex (ztake ((max - 1) / 2) s).

(** ** Semi-octets and time stamps *)

Fixpoint digits_to_semi (digits : bytes) (n max : Z) : bytes :=
  match digits with
  | [] => []
  | c :: t =>
      if n <? max then
        let hi := c - 48 in
        match t with
        | d :: t2 =>
            if is_digit d then
              u8 (Z.lor (Z.shiftl (d - 48) 4) hi) :: digits_to_semi t2 (n + 1) max
            else u8 (Z.lor (Z.shiftl 0xf 4) hi) :: digits_to_semi t (n + 1) max
        | [] => [u8 (Z.lor (Z.shiftl 0xf 4) hi)]
        end
      else []
  end.

Fixpoint semi_loop (inp out : bytes) (max : Z) : bytes :=
  match inp with
  | [] => out
  | b :: t =>
      if zlen out + 2 <? max then
        let hi := Z.shiftr b 4 in
        let lo := Z.land b 0xf in
        let out := if lo <? 10 then out ++ [48 + lo] else out in
        let out := if hi <? 10 then out ++ [48 + hi] else out in
        semi_loop t out max
      else out
  end.

Definition semi_to_digits (inp : bytes) (n max : Z) : bytes := semi_loop (ztake n inp) [] max.

(** A two-digit value with its digits swapped. *)
Definition swapped_bcd (v : Z) : Z := u8 (Z.lor (Z.shiftl (v mod 10) 4) (v / 10)).

Definition scts_from_ms (ms : Z) : bytes :=
  let t := gmtime (Z.quot ms 1000) in
  swapped_bcd <$> [(t.(tm_year) + 1900) mod 100; t.(tm_mon) + 1; t.(tm_mday);
                   t.(tm_hour); t.(tm_min); t.(tm_sec); 0].
