(* ===== verification/BbSim.v ===== *)
(** * The SIM card

    Lock state, the card file and the PIN checks:
    [src/hw/misc/ios_baseband_core.c] from [sim_locked] to [sim_load], and the
    validators of the device properties that surround them. *)

From Stdlib Require Import ZArith Lia String.
From stdpp Require Import base numbers list.
From S2P Require Import Prelude CLib BbState BbTx.
Local Open Scope Z_scope.

Definition IOS_BB_PIN_TRIES : Z := 3.
Definition IOS_BB_PUK_TRIES : Z := 10.

Definition sim_locked (bb : IosBbCore) : bool :=
  let s := bb.(b_sim) in
  bb.(b_ctl).(sim_present) &&
  ((s.(pin_left) =? 0) || (s.(pin_on) && negb s.(pin_ok))).

Definition ios_bb_sim_lock (bb : IosBbCore) : string :=
  let s := bb.(b_sim) in
  if s.(puk_left) =? 0 then "blocked"
  else if s.(pin_left) =? 0 then "puk"
  else if negb s.(pin_on) then "off"
  else if s.(pin_ok) then "ready" else "pin".

(** [min] to 8 digits. *)
Definition sim_code_ok (s : bytes) (min : Z) : bool :=
  (min <=? zlen s) && (zlen s <=? 8) && all_digits s.

(** The text [sim_save] writes. *)
Definition card_text (s : Sim) : bytes :=
  str "sim-pin " ++ fmt_d (b2z s.(pin_on)) ++ [32] ++ s.(pin) ++ [32] ++ s.(puk) ++ [32] ++
  fmt_d s.(pin_left) ++ [32] ++ fmt_d s.(puk_left) ++ [10] ++
  match s.(loci_plmn) with
  | [] => []
  | _ :: _ => str "loci " ++ s.(loci_plmn) ++ [10]
  end.

Definition sim_save (bb : IosBbCore) : IosBbCore :=
  match bb.(b_sim).(sim_file) with
  | [] => bb
  | _ :: _ =>
      if bb.(b_env).(card_writable) then
        bb <| b_env; card_file := Some (card_text bb.(b_sim)) |>
      else bb
  end.

(** What the first [fscanf] of [sim_load] converts. *)
Record CardLine := mkCardLine {
  cl_on : Z; cl_pin : bytes; cl_puk : bytes; cl_pin_left : Z; cl_puk_left : Z
}.

(** ["sim-pin %d %15s %15s %d %d"] *)
Definition scan_card (f : bytes) : scan CardLine :=
  scan_bind (scan_lit (str "sim-pin") f) (fun _ f =>
  scan_bind (scan_d (skip_space f)) (fun on f =>
  scan_bind (scan_s 15 f) (fun pin f =>
  scan_bind (scan_s 15 f) (fun puk f =>
  scan_bind (scan_d f) (fun pin_left f =>
  scan_bind (scan_d f) (fun puk_left f =>
  ScanOk (mkCardLine on pin puk pin_left puk_left) f)))))).

(** [" loci %6[0-9]"] *)
Definition scan_loci (f : bytes) : scan bytes :=
  scan_bind (scan_lit (str "loci") (skip_space f)) (fun _ f =>
  scan_digits 6 (skip_space f)).

Definition card_line_ok (c : CardLine) : bool :=
  sim_code_ok c.(cl_pin) 4 && sim_code_ok c.(cl_puk) 8 &&
  (0 <=? c.(cl_pin_left)) && (c.(cl_pin_left) <=? IOS_BB_PIN_TRIES) &&
  (0 <=? c.(cl_puk_left)) && (c.(cl_puk_left) <=? IOS_BB_PUK_TRIES).

(** A new SIM's state; [sim_file] and [pin_ok] are not [sim_load]'s. *)
Definition new_card (s : Sim) : Sim :=
  mkSim false (str "1111") (str "12345678") IOS_BB_PIN_TRIES IOS_BB_PUK_TRIES
        s.(sim_file) s.(pin_ok) [].

Definition load_card_line (c : CardLine) (s : Sim) : Sim :=
  if card_line_ok c then
    mkSim (negb (c.(cl_on) =? 0)) (fit 9 c.(cl_pin)) (fit 9 c.(cl_puk))
          c.(cl_pin_left) c.(cl_puk_left) s.(sim_file) s.(pin_ok) s.(loci_plmn)
  else s.

Definition load_loci (f : bytes) (s : Sim) : Sim :=
  match scan_loci f with
  | ScanOk l _ => if 5 <=? zlen l then s <| loci_plmn := fit 7 l |> else s
  | ScanFail _ => s
  end.

Definition sim_load (bb : IosBbCore) : IosBbCore :=
  let bb := bb <| b_sim ::= new_card |> in
  match bb.(b_sim).(sim_file), bb.(b_env).(card_file) with
  | _ :: _, Some f =>
      match scan_card f with
      | ScanOk c f => bb <| b_sim ::= fun s => load_loci f (load_card_line c s) |>
      | ScanFail f => bb <| b_sim ::= load_loci f |>
      end
  | _, _ => bb
  end.
