(* ===== verification/BbCalls.v ===== *)
(** * Calls

    The call table, the unsolicited codes that drive the phone's call screen,
    +CHLD and dialling: [src/hw/misc/ios_baseband_core.c] from [at_type_of] to
    [ios_bb_call_state], [ios_bb_emergency_call], [chld_command] and
    [dial_command].  A pointer to a slot of [bb->calls] is its index. *)

From Stdlib Require Import ZArith Lia String.
From stdpp Require Import base numbers list.
From S2P Require Import Prelude CLib BbState BbTx BbSim.
Local Open Scope Z_scope.

Definition at_type_of (number : bytes) : Z :=
  match number with
  | c :: _ => if c =? 43 then 145 else 129
  | [] => 129
  end.

(** [number + (number[0] == '+')] *)
Definition skip_plus (number : bytes) : bytes :=
  match number with
  | c :: t => if c =? 43 then t else number
  | [] => []
  end.

(** The slot [call_new] takes: the first one not in use. *)
Definition free_slot (bb : IosBbCore) : option nat :=
  first_index IOS_BB_MAX_CALLS (fun i => negb (get_call i bb).(c_used)).

Definition call_new (mt : bool) (number : bytes) (stat : Z) (bb : IosBbCore)
    : option nat * IosBbCore :=
  match free_slot bb with
  | Some i =>
      let c := mkCall true mt bb.(b_call).(next_call_id) stat (-1) 0 0 false (fit 32 number) in
      (Some i, (upd_call i (fun _ => c) bb)
               <| b_call; next_call_id ::= fun n => n + 1 |>)
  | None => (None, bb)
  end.

Definition call_by_id (id : Z) (bb : IosBbCore) : option nat :=
  first_index IOS_BB_MAX_CALLS
    (fun i => (get_call i bb).(c_used) && ((get_call i bb).(c_id) =? id)).

Definition emit_xcallstat (id stat : Z) (bb : IosBbCore) : IosBbCore :=
  let ch := bb.(b_at).(call_ch) in
  if is_open ch bb then at_line ch (str "+XCALLSTAT: " ++ fmt_d id ++ str "," ++ fmt_d stat) bb
  else bb.

Definition call_release (i : nat) (bb : IosBbCore) : IosBbCore :=
  let bb := upd_call i (fun c => c <| c_stat := IOS_BB_CALL_RELEASED |>
                                   <| c_next_stat := -1 |> <| c_due_ms := 0 |>) bb in
  let bb := emit_xcallstat (get_call i bb).(c_id) IOS_BB_CALL_RELEASED bb in
  let ch := bb.(b_at).(call_ch) in
  let bb := if (get_call i bb).(c_emergency) && bb.(b_at).(xemc_on) && is_open ch bb
            then at_line ch (str "+XEMC: 0") bb else bb in
  upd_call i (fun c => c <| c_used := false |>) bb.

(** The list in [ios_bb_is_emergency_number]. *)
Definition emergency_numbers : list bytes :=
  [str "112"; str "911"; str "000"; str "08"; str "110"; str "118"; str "119"; str "999"].

Definition ios_bb_is_emergency_number (number : bytes) : bool :=
  existsb (streq number) emergency_numbers.

Definition radio_ok (bb : IosBbCore) : bool :=
  (bb.(b_reg).(cfun) =? 1) && bb.(b_ctl).(registered).

Definition service_ok (bb : IosBbCore) : bool := radio_ok bb && negb (sim_locked bb).

Definition stat_in (l : list Z) (c : IosBbCall) : bool :=
  c.(c_used) && existsb (Z.eqb c.(c_stat)) l.

Definition call_ring_urcs (i : nat) (bb : IosBbCore) : IosBbCore :=
  let bb := emit_xcallstat (get_call i bb).(c_id) IOS_BB_CALL_INCOMING bb in
  let ch := bb.(b_at).(call_ch) in
  let num := (get_call i bb).(c_number) in
  let bb := at_line ch (str "+CLIP: " ++ dq ++ skip_plus num ++ dq ++ str "," ++
                        fmt_d (at_type_of num) ++ str ",,," ++ dq ++ dq ++ str ",0") bb in
  let active := existsb (fun j => negb (Nat.eqb j i) &&
      stat_in [IOS_BB_CALL_ACTIVE; IOS_BB_CALL_DIALING; IOS_BB_CALL_ALERTING] (get_call j bb))
      (seq 0 IOS_BB_MAX_CALLS) in
  let bb := if active then
      at_line ch (str "+CCWA: " ++ dq ++ skip_plus num ++ dq ++ str "," ++
                  fmt_d (at_type_of num) ++ str ",1") bb
    else bb in
  let bb := at_line ch (str "RING") bb in
  upd_call i (fun c => c <| c_rings := 1 |> <| c_next_stat := -2 |>
                         <| c_due_ms := bb.(b_env).(now_ms) + 3000 |>) bb.

(** A bare number of 11 or more digits gets its plus sign. *)
Definition intl_number (number : bytes) : bytes :=
  match number with
  | c :: _ =>
      if negb (c =? 43) && (11 <=? zlen number) && all_digits number
      then fit 34 (str "+" ++ number) else number
  | [] => number
  end.

Definition ios_bb_incoming_call (number : bytes) (bb : IosBbCore) : bool * IosBbCore :=
  if negb (is_open bb.(b_at).(call_ch) bb) || negb (service_ok bb)
     || match number with [] => true | _ => false end
  then (false, bb)
  else
    match call_new true (intl_number number) IOS_BB_CALL_INCOMING bb with
    | (Some i, bb) => (true, call_ring_urcs i bb)
    | (None, bb) => (false, bb)
    end.

Definition call_progress (i : nat) (stat : Z) (bb : IosBbCore) : IosBbCore :=
  let c := get_call i bb in
  let bb :=
    if (stat =? IOS_BB_CALL_ACTIVE) && negb c.(c_mt) && negb bb.(b_at).(colp_off) &&
       ((c.(c_stat) =? IOS_BB_CALL_DIALING) || (c.(c_stat) =? IOS_BB_CALL_ALERTING))
    then at_line bb.(b_at).(call_ch)
           (str "+COLP: " ++ dq ++ c.(c_number) ++ dq ++ str "," ++ fmt_d (at_type_of c.(c_number))) bb
    else bb in
  let bb := upd_call i (fun c => c <| c_stat := stat |> <| c_next_stat := -1 |>
                                   <| c_due_ms := 0 |>) bb in
  emit_xcallstat c.(c_id) stat bb.

Definition ios_bb_remote_answer (bb : IosBbCore) : IosBbCore :=
  match first_index IOS_BB_MAX_CALLS
          (fun i => stat_in [IOS_BB_CALL_DIALING; IOS_BB_CALL_ALERTING] (get_call i bb)) with
  | Some i => call_progress i IOS_BB_CALL_ACTIVE bb
  | None => bb
  end.

Definition ios_bb_remote_hangup (bb : IosBbCore) : IosBbCore :=
  match first_index IOS_BB_MAX_CALLS
          (fun i => (get_call i bb).(c_used) &&
                    negb ((get_call i bb).(c_stat) =? IOS_BB_CALL_RELEASED)) with
  | Some i => call_release i (bb <| b_call; ceer_cause := 16 |>)
  | None => bb
  end.

(** The name of the first slot in use whose state has one. *)
Definition call_stat_name (stat : Z) : option string :=
  if stat =? IOS_BB_CALL_ACTIVE then Some "active"%string
  else if stat =? IOS_BB_CALL_HELD then Some "held"%string
  else if stat =? IOS_BB_CALL_DIALING then Some "dialing"%string
  else if stat =? IOS_BB_CALL_ALERTING then Some "alerting"%string
  else if (stat =? IOS_BB_CALL_INCOMING) || (stat =? IOS_BB_CALL_WAITING)
  then Some "incoming"%string
  else None.

Definition ios_bb_call_state (bb : IosBbCore) : string :=
  (fix loop (l : list IosBbCall) : string :=
     match l with
     | [] => "idle"%string
     | c :: t => if c.(c_used) then
                   match call_stat_name c.(c_stat) with
                   | Some n => n
                   | None => loop t
                   end
                 else loop t
     end) bb.(b_call).(calls).

Definition ios_bb_emergency_call (bb : IosBbCore) : bool :=
  match first_index IOS_BB_MAX_CALLS (fun i => (get_call i bb).(c_used)) with
  | Some i => (get_call i bb).(c_emergency)
  | None => false
  end.

(** Release every call whose slot is in use and whose state is listed. *)
Definition release_where (l : list Z) (bb : IosBbCore) : IosBbCore :=
  for_each IOS_BB_MAX_CALLS
    (fun i bb => if stat_in l (get_call i bb) then call_release i bb else bb) bb.

(** Release every call in use. *)
Definition release_all (bb : IosBbCore) : IosBbCore :=
  for_each IOS_BB_MAX_CALLS
    (fun i bb => if (get_call i bb).(c_used) then call_release i bb else bb) bb.

(** Answer slot [i]: the active calls are held first. *)
Definition hold_others (i : nat) (bb : IosBbCore) : IosBbCore :=
  for_each IOS_BB_MAX_CALLS
    (fun j bb => if negb (Nat.eqb j i) && stat_in [IOS_BB_CALL_ACTIVE] (get_call j bb)
                 then call_progress j IOS_BB_CALL_HELD bb else bb) bb.

(** Swap the active and the held calls. *)
Definition swap_calls (bb : IosBbCore) : IosBbCore :=
  for_each IOS_BB_MAX_CALLS
    (fun i bb => if stat_in [IOS_BB_CALL_ACTIVE] (get_call i bb)
                 then call_progress i IOS_BB_CALL_HELD bb
                 else if stat_in [IOS_BB_CALL_HELD] (get_call i bb)
                 then call_progress i IOS_BB_CALL_ACTIVE bb else bb) bb.

Definition join_held (bb : IosBbCore) : IosBbCore :=
  for_each IOS_BB_MAX_CALLS
    (fun i bb => if stat_in [IOS_BB_CALL_HELD] (get_call i bb)
                 then call_progress i IOS_BB_CALL_ACTIVE bb else bb) bb.

Definition first_ringing (bb : IosBbCore) : option nat :=
  first_index IOS_BB_MAX_CALLS
    (fun i => stat_in [IOS_BB_CALL_INCOMING; IOS_BB_CALL_WAITING] (get_call i bb)).

(** [arg] is [None] for a bare "+chld". *)
Definition chld_command (ch : Z) (arg : option bytes) (bb : IosBbCore) : IosBbCore :=
  match arg with
  | None | Some [] => at_ok ch bb
  | Some arg =>
      let what := fit 8 arg in
      let bb := at_ok ch bb in
      match what with
      | 48 :: _ =>
          release_where [IOS_BB_CALL_HELD; IOS_BB_CALL_INCOMING; IOS_BB_CALL_WAITING] bb
      | 49 :: [] =>
          release_where [IOS_BB_CALL_ACTIVE; IOS_BB_CALL_DIALING; IOS_BB_CALL_ALERTING] bb
      | 49 :: id =>
          match call_by_id (atoi id) bb with
          | Some i => call_release i bb
          | None => bb
          end
      | 50 :: _ =>
          match first_ringing bb with
          | Some i => call_progress i IOS_BB_CALL_ACTIVE (hold_others i bb)
          | None => swap_calls bb
          end
      | 51 :: _ => join_held bb
      | _ => bb
      end
  end.

(** The number part of a dial string: up to [;], spaces dropped, at most 31. *)
Fixpoint dial_number (s : bytes) (n : Z) : bytes :=
  match s with
  | [] => []
  | c :: t =>
      if n <? 31 then
        if c =? 59 then []
        else if negb (c =? 32) then c :: dial_number t (n + 1)
        else dial_number t n
      else []
  end.

Definition dial_command (ch : Z) (num : bytes) (bb : IosBbCore) : IosBbCore :=
  let nbuf := dial_number num 0 in
  let emergency := ios_bb_is_emergency_number nbuf in
  if match nbuf with [] => true | _ => false end
     || negb (is_open bb.(b_at).(call_ch) bb)
     || negb (if emergency then radio_ok bb else service_ok bb)
  then at_error ch bb
  else
    match call_new false nbuf IOS_BB_CALL_DIALING bb with
    | (None, bb) => at_error ch bb
    | (Some i, bb) =>
        let bb := bb <| b_call; last_dialed := fit 32 nbuf |> in
        let bb := upd_call i (fun c => c <| c_emergency := emergency |>) bb in
        let bb := at_ok ch bb in
        let bb := if emergency && bb.(b_at).(xemc_on)
                  then at_line bb.(b_at).(call_ch) (str "+XEMC: 1") bb else bb in
        let bb := emit_xcallstat (get_call i bb).(c_id) IOS_BB_CALL_DIALING bb in
        upd_call i (fun c => c <| c_next_stat := IOS_BB_CALL_ALERTING |>
                               <| c_due_ms := bb.(b_env).(now_ms) + 2000 |>) bb
    end.
