(* ===== verification/BbReg.v ===== *)
(** * Registration, signal reports and the vibration motor

    [src/hw/misc/ios_baseband_core.c]: [nitz_report], [ios_bb_vibrating] to
    [ios_bb_attached], and from [ios_bb_rssi] to [ios_bb_changed]. *)

From Stdlib Require Import ZArith Lia String.
From stdpp Require Import base numbers list.
From S2P Require Import Prelude CLib BbState BbTx BbSim BbCalls.
Local Open Scope Z_scope.

(** ** Vibration motor *)

Definition ios_bb_vibrating (bb : IosBbCore) : bool :=
  let d := bb.(b_drv) in
  let t := bb.(b_env).(now_ms) - d.(vib_start_ms) in
  if bb.(b_at).(off) || (t <? 0) || (d.(vib_on_ms) <=? 0) then false
  else if d.(vib_mode) =? 1 then t <? d.(vib_on_ms)
  else if d.(vib_mode) =? 2 then
    (0 <? d.(vib_period_ms)) && (Z.rem t d.(vib_period_ms) <? d.(vib_on_ms))
  else false.

Definition vib_next_edge (bb : IosBbCore) : Z :=
  let d := bb.(b_drv) in
  let t := bb.(b_env).(now_ms) - d.(vib_start_ms) in
  if (d.(vib_on_ms) <=? 0) || (t <? 0) then 0
  else if d.(vib_mode) =? 1 then
    if t <? d.(vib_on_ms) then d.(vib_start_ms) + d.(vib_on_ms) else 0
  else if (d.(vib_mode) =? 2) && (0 <? d.(vib_period_ms)) then
    let cycle := t - Z.rem t d.(vib_period_ms) in
    let edge := if Z.rem t d.(vib_period_ms) <? d.(vib_on_ms)
                then cycle + d.(vib_on_ms) else cycle + d.(vib_period_ms) in
    d.(vib_start_ms) + edge
  else 0.

Definition ios_bb_attached (bb : IosBbCore) : bool :=
  negb bb.(b_at).(off) && ((bb.(b_reg).(last_creg) =? 1) || (bb.(b_reg).(last_creg) =? 5)).

(** ** Registration *)

Definition ios_bb_rssi (bb : IosBbCore) : Z :=
  let dbm := bb.(b_ctl).(signal_dbm) in
  let n := Z.quot (dbm + 113 + 1) 2 in
  if dbm <=? -113 then 0
  else if 31 <? n then 31
  else if n <? 0 then 0 else n.

(** [bb->battery] clamped to 1..100. *)
Definition batt_level (bb : IosBbCore) : Z :=
  let b := bb.(b_ctl).(battery) in
  if b <? 1 then 1 else if 100 <? b then 100 else b.

Definition camp_possible (bb : IosBbCore) : bool :=
  (bb.(b_reg).(cfun) =? 1) && negb bb.(b_reg).(cops_detached)
  && negb (sim_locked bb) && bb.(b_ctl).(registered).

Definition camped (bb : IosBbCore) : bool :=
  camp_possible bb && negb (bb.(b_reg).(camp_due_ms) =? 0)
  && (bb.(b_reg).(camp_due_ms) <=? bb.(b_env).(now_ms)).

Definition reg_stat (bb : IosBbCore) : Z :=
  if negb (bb.(b_reg).(cfun) =? 1) then 0
  else if bb.(b_reg).(cops_detached) || sim_locked bb then 0
  else if camped bb then 1 else 2.

Definition IOS_BB_SEARCH_MS : Z := 8000.
Definition IOS_BB_STORED_SEARCH_MS : Z := 3000.

(** How long the search that starts now takes. *)
Definition search_time (bb : IosBbCore) : Z :=
  let loci := bb.(b_sim).(loci_plmn) in
  let stored := match loci with [] => false | _ => streq loci bb.(b_ctl).(plmn) end in
  if stored then IOS_BB_STORED_SEARCH_MS
  else if negb (bb.(b_ctl).(search_ms) =? 0) then bb.(b_ctl).(search_ms)
  else IOS_BB_SEARCH_MS.

Definition camp_update (bb : IosBbCore) : IosBbCore :=
  let r := bb.(b_reg) in
  if negb (camp_possible bb) then bb <| b_reg; camp_due_ms := 0 |>
  else if r.(camp_due_ms) =? 0 then
    let due := bb.(b_env).(now_ms) + search_time bb in
    let due := due + b2z (due =? 0) in
    bb <| b_reg; camp_due_ms := due |> <| b_reg; camp_noted := false |>
  else if (r.(camp_due_ms) <=? bb.(b_env).(now_ms)) && negb r.(camp_noted) then
    let bb := bb <| b_reg; camp_noted := true |> in
    if negb (streq bb.(b_sim).(loci_plmn) bb.(b_ctl).(plmn)) then
      sim_save (bb <| b_sim; loci_plmn := fit 7 bb.(b_ctl).(plmn) |>)
    else bb
  else bb.

Definition emit_xsigstr (bb : IosBbCore) : IosBbCore :=
  let rscp := bb.(b_ctl).(signal_dbm) + 116 in
  let ch := bb.(b_at).(xsigstr_ch) in
  if negb bb.(b_at).(xsigstr_on) || negb (is_open ch bb) || negb (reg_stat bb =? 1) then bb
  else
    let rscp := if rscp <? 0 then 0 else if 91 <? rscp then 91 else rscp in
    at_line ch (str "+XSIGSTR: 2," ++ fmt_d rscp ++ str "," ++ fmt_d (49 - 4)) bb.

Definition emit_xciev (bb : IosBbCore) : IosBbCore :=
  let rssi := ios_bb_rssi bb in
  let batt := batt_level bb in
  let ch := bb.(b_at).(xciev_ch) in
  if negb (is_open ch bb) then bb
  else
    let bb := bb <| b_reg; last_rssi := rssi |> <| b_reg; last_batt := batt |> in
    let bb := at_line ch (str "+XCIEV: " ++ fmt_d rssi ++ str "," ++ fmt_d batt) bb in
    emit_xsigstr bb.

Definition reg_schedule (bb : IosBbCore) : IosBbCore :=
  if negb (bb.(b_reg).(cfun) =? 1) then bb
  else bb <| b_reg; reg_step := 1 |>
          <| b_reg; reg_due_ms := bb.(b_env).(now_ms) + 300 |>.

Definition IOS_BB_XREG_BEARER : Z := 4.

Definition xreg_value (bb : IosBbCore) : Z :=
  if reg_stat bb =? 1 then IOS_BB_XREG_BEARER else 0.

Definition nitz_report (bb : IosBbCore) : IosBbCore :=
  let secs := Z.quot (bb.(b_env).(now_ms) + bb.(b_env).(wall_offset_ms)) 1000 in
  let ch := bb.(b_at).(ctzr_ch) in
  if negb bb.(b_ctl).(nitz) || negb bb.(b_at).(ctzr_on) || negb (is_open ch bb) then bb
  else
    let utc := gmtime secs in
    at_line ch
      (str "+CTZV: " ++ fmt_d (Z.quot (bb.(b_env).(gmtoff) secs) 900) ++ str "," ++ dq ++
       fmt_02d (Z.rem utc.(tm_year) 100) ++ str "/" ++ fmt_02d (utc.(tm_mon) + 1) ++ str "/" ++
       fmt_02d utc.(tm_mday) ++ str "," ++ fmt_02d utc.(tm_hour) ++ str ":" ++
       fmt_02d utc.(tm_min) ++ str ":" ++ fmt_02d utc.(tm_sec) ++ dq) bb.

(** A +CGREG line with the given status, when the host enabled them. *)
Definition cgreg_line (ch stat : Z) (bb : IosBbCore) : IosBbCore :=
  if 0 <? bb.(b_reg).(cgreg_n) then at_line ch (str "+CGREG: " ++ fmt_d stat) bb else bb.

Definition reg_tick (bb : IosBbCore) : IosBbCore :=
  let ch := bb.(b_reg).(creg_ch) in
  let stat := reg_stat bb in
  if negb (is_open ch bb) then bb <| b_reg; reg_step := 0 |>
  else if bb.(b_reg).(reg_step) =? 1 then
    if stat =? 1 then
      let bb := at_line ch (str "+CREG: 2") bb in
      let bb := bb <| b_reg; last_creg := 2 |> in
      let bb := cgreg_line ch 2 bb in
      bb <| b_reg; reg_step := 2 |>
         <| b_reg; reg_due_ms := bb.(b_env).(now_ms) + 400 |>
    else
      let bb := at_line ch (str "+CREG: " ++ fmt_d stat) bb in
      let bb := bb <| b_reg; last_creg := stat |> in
      let bb := cgreg_line ch stat bb in
      bb <| b_reg; reg_step := 0 |>
  else if bb.(b_reg).(reg_step) =? 2 then
    let bb := at_line ch (str "+CREG: 1," ++ fmt_X bb.(b_ctl).(lac) ++ str "," ++
                          fmt_X bb.(b_ctl).(ci)) bb in
    let bb := bb <| b_reg; last_creg := 1 |> in
    let bb := nitz_report bb in
    let bb := cgreg_line ch 1 bb in
    let bb := if 0 <? bb.(b_at).(xreg_n)
              then at_line ch (str "+XREG: " ++ fmt_d (xreg_value bb)) bb else bb in
    let bb := emit_xciev bb in
    bb <| b_reg; reg_step := 0 |>
  else bb.

Definition ios_bb_operator_changed (bb : IosBbCore) : IosBbCore :=
  if (reg_stat bb =? 1) && is_open bb.(b_reg).(creg_ch) bb then reg_schedule bb else bb.

Definition ios_bb_changed (bb : IosBbCore) : IosBbCore :=
  let rssi := ios_bb_rssi bb in
  let batt := batt_level bb in
  let bb :=
    if negb (rssi =? bb.(b_reg).(last_rssi)) || negb (batt =? bb.(b_reg).(last_batt)) then
      if is_open bb.(b_at).(xciev_ch) bb then emit_xciev bb
      else emit_xsigstr (bb <| b_reg; last_rssi := rssi |> <| b_reg; last_batt := batt |>)
    else bb in
  let bb := camp_update bb in
  let bb :=
    if (bb.(b_reg).(cfun) =? 1) && is_open bb.(b_reg).(creg_ch) bb
       && negb (reg_stat bb =? bb.(b_reg).(last_creg))
    then reg_schedule bb else bb in
  let bb :=
    if negb (eqb bb.(b_ctl).(sim_present) bb.(b_reg).(sim_last))
       && is_open bb.(b_at).(xsim_ch) bb
    then bb <| b_reg; xsim_due_ms := bb.(b_env).(now_ms) + 100 |> else bb in
  bb <| b_reg; sim_last := bb.(b_ctl).(sim_present) |>.
