(* ===== verification/BbSms.v ===== *)
(** * Short messages

    Building an SMS-DELIVER, parsing the guest's SMS-SUBMIT, the property
    validators and the +CMGS prompt: [src/hw/misc/ios_baseband_core.c],
    [sms_build_deliver], [sms_parse_submit] and from [cmgs_prompt_commit] to
    [ios_bb_last_mo_sms_text]. *)

From Stdlib Require Import ZArith Lia String.
From stdpp Require Import base numbers list.
From S2P Require Import Prelude CLib BbState BbTx BbPdu BbSim BbCalls.
Local Open Scope Z_scope.

(** ** SMS-DELIVER *)

(** Service centre address octets. *)
Definition sca_octets (sca : bytes) : bytes :=
  match sca with
  | [] => [0]
  | _ :: _ => let semi := digits_to_semi sca 0 10 in u8 (1 + zlen semi) :: 0x91 :: semi
  end.

(** The size of the [oct] array. *)
Definition OCT_SIZE : Z := 2 + 1 + 1 + 1 + 1 + 14 + 1 + 175.

(** User data length and octets; [None] when the text does not fit one message. *)
Definition deliver_ud (text : bytes) : option bytes :=
  if negb (gsm7_encodable text) then
    let ud := utf8_to_ucs2be text 0 320 in
    if 140 <? zlen ud then None else Some (u8 (zlen ud) :: ud)
  else
    let '(ud, nsept) := gsm7_pack text 180 in
    if (160 <? nsept) || (140 <? zlen ud) then None else Some (u8 nsept :: ud).

(** The octets of the message, service centre address included. *)
Definition deliver_octets (bb : IosBbCore) (number text : bytes) : option bytes :=
  let ucs2 := negb (gsm7_encodable text) in
  let hdr := sca_octets bb.(b_ctl).(sca) in
  let oct := hdr ++ [0x04; u8 (zlen number); 0x91] in
  let oct := oct ++ digits_to_semi number 0 (OCT_SIZE - zlen oct) in
  let oct := oct ++ [0x00; if ucs2 then 0x08 else 0x00] ++
             scts_from_ms (bb.(b_env).(now_ms) + bb.(b_env).(wall_offset_ms)) in
  ud ← deliver_ud text; Some (oct ++ ud).

(** The hexadecimal PDU, the octet count and the TPDU octet count; [None]
    where the C function returns 0. *)
Definition sms_build_deliver (bb : IosBbCore) (number text : bytes) (pmax : Z)
    : option (bytes * Z * Z) :=
  if 20 <? zlen number then None
  else
    oct ← deliver_octets bb number text;
    let n := zlen oct in
    if pmax <? 2 * n + 1 then None
    else Some (bytes_to_hex oct, n, n - zlen (sca_octets bb.(b_ctl).(sca))).

(** ** SMS-SUBMIT *)

(** The decoded text; [None] for a read outside the PDU. *)
Definition submit_text (p : bytes) (pos udl udoct dcs : Z) : option bytes :=
  let kind := Z.land (Z.shiftr dcs 2) 0x3 in
  if kind =? 0 then gsm7_unpack (zdrop pos p) (Z.min udl (udoct * 8 / 7)) 512
  else if kind =? 1 then
    let n := Z.min (Z.min udl udoct) 511 in
    if pos + n <=? zlen p then Some (ztake n (zdrop pos p)) else None
  else
    let n := Z.min udl udoct in
    if pos + n <=? zlen p then Some (ucs2be_to_utf8 (zdrop pos p) n 512) else None.

(** [sms_parse_submit (bb, p, n)] with [n] the length of [p]; the result is
    [None] when some [p[i]] of the C code is read at [i >= n]. *)
Definition sms_parse_submit (p : bytes) (bb : IosBbCore) : option IosBbCore :=
  let n := zlen p in
  if n <? 5 then Some bb
  else
    p0 ← zget p 0;
    let pos := 1 + p0 in
    if n <=? pos then Some bb
    else
      fo ← zget p pos;
      let vp := if Z.land (Z.shiftr fo 3) 3 =? 2 then 1 else 0 in
      let pos := pos + 1 in
      if n <=? pos then Some bb
      else
        let pos := pos + 1 in
        if n <=? pos then Some bb
        else
          dlen ← zget p pos;
          let pos := pos + 1 in
          if n <=? pos then Some bb
          else
            let da_semi := pos + 1 in
            let da_oct := (dlen + 1) / 2 in
            let pos := da_semi + da_oct in
            if n <=? pos + 2 + vp then Some bb
            else
              let num := semi_to_digits (zdrop da_semi p) da_oct 32 in
              let bb := bb <| b_sms; last_mo_num := num |> in
              dcs ← zget p (pos + 1);
              let pos := pos + 2 + vp in
              if n <=? pos then Some bb
              else
                udl ← zget p pos;
                let pos := pos + 1 in
                text ← submit_text p pos udl (n - pos) dcs;
                Some (bb <| b_sms; last_mo_text := text |>
                         <| b_sms; mo_count ::= fun c => u32 (c + 1) |>).

(** ** The +CMGS prompt *)

Definition cmgs_prompt_commit (ch : Z) (send : bool) (bb : IosBbCore) : IosBbCore :=
  let line := (get_ch ch bb).(ch_line) in
  let bb := upd_ch ch (fun c => c <| ch_sms_prompt := false |> <| ch_len := 0 |>) bb in
  if negb send then at_error ch bb
  else
    let pdu := hex_nibbles (cstr line 0) 0 220 in
    let bb := default bb (sms_parse_submit pdu bb) in
    let bb := bb <| b_sms; sms_mr ::= fun m => Z.land (m + 1) 0xff |> in
    let bb := at_line ch (str "+CMGS: " ++ fmt_d bb.(b_sms).(sms_mr)) bb in
    at_ok ch bb.

(** ** Network side *)

Definition ios_bb_sms_sender_ok (number : bytes) : bool :=
  let number := skip_plus number in
  match number with
  | [] => false
  | _ :: _ => negb (20 <? zlen number) && all_digits number
  end.

Definition ios_bb_plmn_ok (plmn : bytes) : bool :=
  ((zlen plmn =? 5) || (zlen plmn =? 6)) && all_digits plmn.

Definition ios_bb_carrier_ok (name : bytes) : bool :=
  match name with
  | [] => false
  | _ :: _ =>
      (zlen name <? 33) &&
      forallb (fun c => negb ((c <? 0x20) || (c =? 0x7f) || (c =? 34))) name
  end.

Definition ios_bb_incoming_sms (number text : bytes) (bb : IosBbCore) : bool * IosBbCore :=
  if negb (is_open bb.(b_at).(sms_ch) bb) || negb (service_ok bb)
     || negb (ios_bb_sms_sender_ok number) || match text with [] => true | _ => false end
  then (false, bb)
  else
    let number := skip_plus number in
    match sms_build_deliver bb number text 400 with
    | None => (false, bb)
    | Some (pdu, _, tpdu) =>
        let slot := Z.to_nat (bb.(b_sms).(store_next) mod IOS_BB_SMS_STORE) in
        let bb := bb <| b_sms; store ::= alter (fun _ => mkSms true (fit 32 number) (fit 400 pdu)) slot |> in
        let bb := bb <| b_sms; store_next ::= fun n => u32 (n + 1) |> in
        (true, at_line bb.(b_at).(sms_ch)
                 (str "+CMT: ," ++ fmt_u tpdu ++ crlf ++ crlf ++ pdu) bb)
    end.

Definition ios_bb_last_mo_sms_number (bb : IosBbCore) : bytes := bb.(b_sms).(last_mo_num).
Definition ios_bb_last_mo_sms_text (bb : IosBbCore) : bytes := until_nul bb.(b_sms).(last_mo_text).
