(* ===== verification/BbSimCmd.v ===== *)
(** * SIM lock commands

    +CPIN, +XPINCNT, +CLCK and +CPWD: [src/hw/misc/ios_baseband_core.c],
    [at_fields], [sim_check_pin], [sim_command] and [arg_after]. *)

From Stdlib Require Import ZArith Lia String.
From stdpp Require Import base numbers list.
From S2P Require Import Prelude CLib BbState BbTx BbSim BbCalls BbReg.
Local Open Scope Z_scope.

(** What follows [pat] at the head of [cmd]. *)
Definition arg_after (cmd pat : bytes) : option bytes :=
  if starts_with pat cmd then Some (drop (length pat) cmd) else None.

(** The field loop: [n] is the current field, and its length is [len]. *)
Fixpoint at_fields_loop (s : bytes) (n : nat) (quoted : bool) (f : list bytes) (max : nat)
    : list bytes * nat :=
  match s with
  | [] => (f, n)
  | c :: t =>
      if c =? 34 then at_fields_loop t n (negb quoted) f max
      else if (c =? 44) && negb quoted then
        if Nat.eqb (S n) max then (f, S n)
        else at_fields_loop t (S n) quoted f max
      else if zlen (default [] (f !! n)) <? 23 then
        at_fields_loop t n quoted (alter (fun x => x ++ [c]) n f) max
      else at_fields_loop t n quoted f max
  end.

(** The fields, and how many of them the argument has. *)
Definition at_fields (arg : bytes) (max : nat) : list bytes * Z :=
  match arg with
  | [] => (replicate max [], 0)
  | _ :: _ =>
      let '(f, n) := at_fields_loop arg 0 false (replicate max []) max in
      (f, Z.of_nat (Nat.min (S n) max))
  end.

Definition field (f : list bytes) (i : nat) : bytes := default [] (f !! i).

(** One PIN check; true when the PIN was right. *)
Definition sim_check_pin (ch : Z) (p : bytes) (bb : IosBbCore) : bool * IosBbCore :=
  let s := bb.(b_sim) in
  if s.(pin_left) =? 0 then (false, cme_error ch 12 bb)
  else if streq p s.(pin) then
    (true, sim_save (bb <| b_sim; pin_left := IOS_BB_PIN_TRIES |> <| b_sim; pin_ok := true |>))
  else
    let bb := bb <| b_sim; pin_left ::= fun n => n - 1 |> in
    let bb := if bb.(b_sim).(pin_left) =? 0 then bb <| b_sim; pin_ok := false |> else bb in
    (false, cme_error ch 16 (sim_save bb)).

(** +CPIN? *)
Definition cpin_query (ch : Z) (bb : IosBbCore) : IosBbCore :=
  if negb bb.(b_ctl).(sim_present) then cme_error ch 10 bb
  else if bb.(b_sim).(puk_left) =? 0 then cme_error ch 13 bb
  else
    let state := if bb.(b_sim).(pin_left) =? 0 then str "SIM PUK"
                 else if sim_locked bb then str "SIM PIN" else str "READY" in
    at_ok ch (at_line ch (str "+CPIN: " ++ state) bb).

(** +CPIN="<puk>","<new pin>" on a blocked PIN *)
Definition cpin_unblock (ch : Z) (f : list bytes) (n : Z) (bb : IosBbCore) : IosBbCore :=
  if (n <? 2) || negb (sim_code_ok (field f 1) 4) then cme_error ch 3 bb
  else if streq (field f 0) bb.(b_sim).(puk) then
    let bb := bb <| b_sim; pin := fit 9 (field f 1) |> <| b_sim; pin_on := true |>
                 <| b_sim; pin_ok := true |> <| b_sim; pin_left := IOS_BB_PIN_TRIES |>
                 <| b_sim; puk_left := IOS_BB_PUK_TRIES |> in
    at_ok ch (sim_save bb)
  else cme_error ch 16 (sim_save (bb <| b_sim; puk_left ::= fun n => n - 1 |>)).

(** +CPIN=... *)
Definition cpin_set (ch : Z) (arg : bytes) (bb : IosBbCore) : IosBbCore :=
  let was_locked := sim_locked bb in
  let '(f, n) := at_fields arg 2 in
  let bb :=
    if negb bb.(b_ctl).(sim_present) then cme_error ch 10 bb
    else if bb.(b_sim).(puk_left) =? 0 then cme_error ch 13 bb
    else if bb.(b_sim).(pin_left) =? 0 then cpin_unblock ch f n bb
    else if negb was_locked then cme_error ch 3 bb
    else match sim_check_pin ch (field f 0) bb with
         | (true, bb) => at_ok ch bb
         | (false, bb) => bb
         end in
  if was_locked && negb (sim_locked bb) then reg_schedule bb else bb.

(** +CLCK=<facility>,<mode>[,<pin>] *)
Definition clck_set (ch : Z) (arg : bytes) (bb : IosBbCore) : IosBbCore :=
  let '(f, n) := at_fields arg 3 in
  let query := (1 <? n) && streq (field f 1) (str "2") in
  if negb (streq (field f 0) (str "sc")) then
    at_ok ch (if query then at_line ch (str "+CLCK: 0") bb else bb)
  else if query then at_ok ch (at_line ch (str "+CLCK: " ++ fmt_d (b2z bb.(b_sim).(pin_on))) bb)
  else if (n <? 3) || (negb (streq (field f 1) (str "0")) && negb (streq (field f 1) (str "1")))
  then cme_error ch 3 bb
  else match sim_check_pin ch (field f 2) bb with
       | (true, bb) =>
           at_ok ch (sim_save (bb <| b_sim; pin_on := rd (field f 1) 0 =? 49 |>))
       | (false, bb) => bb
       end.

(** +CPWD=<facility>,<old>,<new> *)
Definition cpwd_set (ch : Z) (arg : bytes) (bb : IosBbCore) : IosBbCore :=
  let '(f, n) := at_fields arg 3 in
  if negb (streq (field f 0) (str "sc")) then at_ok ch bb
  else if (n <? 3) || negb (sim_code_ok (field f 2) 4) || negb bb.(b_sim).(pin_on)
  then cme_error ch 3 bb
  else match sim_check_pin ch (field f 1) bb with
       | (true, bb) => at_ok ch (sim_save (bb <| b_sim; pin := fit 9 (field f 2) |>))
       | (false, bb) => bb
       end.

(** [None] when [cmd] is none of the lock commands. *)
Definition sim_command (ch : Z) (cmd : bytes) (bb : IosBbCore) : option IosBbCore :=
  if streq cmd (str "cpin?") then Some (cpin_query ch bb)
  else if starts_with (str "xpincnt") cmd then
    Some (at_ok ch (at_line ch (str "+XPINCNT: " ++ fmt_d bb.(b_sim).(pin_left) ++ str ",3," ++
                                fmt_d bb.(b_sim).(puk_left) ++ str ",10") bb))
  else match arg_after cmd (str "cpin=") with
  | Some arg => Some (cpin_set ch arg bb)
  | None =>
  match arg_after cmd (str "clck=") with
  | Some arg => Some (clck_set ch arg bb)
  | None =>
  match arg_after cmd (str "cpwd=") with
  | Some arg => Some (cpwd_set ch arg bb)
  | None => None
  end end end.
