(* ===== verification/BbGps.v ===== *)
(** * The GPS receiver's session

    [src/hw/misc/ios_baseband_gps.c]: the +XLSR session and its reports.  The
    formatting of the floating-point position is not modelled; [g_text] holds
    its result. *)

From Stdlib Require Import ZArith Lia String.
From stdpp Require Import base numbers list.
From S2P Require Import Prelude CLib BbState.
Local Open Scope Z_scope.

Definition GPS_FIRST_FIX_MS : Z := 1000.

Definition ios_bb_gps_reset (g : IosBbGps) : IosBbGps :=
  g <| g_ch := -1 |> <| g_interval_ms := 0 |> <| g_due_ms := 0 |>.

(** [f = strchr (f, ','); f = f ? f + 1 : NULL], [k] times. *)
Fixpoint after_commas (k : nat) (f : bytes) : option bytes :=
  match k with
  | O => Some f
  | S k' =>
      match strchr 44 f with
      | Some (_ :: t) => after_commas k' t
      | _ => None
      end
  end.

(** [None] when the command is not the receiver's. *)
Definition ios_bb_gps_command (now ch : Z) (cmd : bytes) (g : IosBbGps) : option IosBbGps :=
  if negb g.(g_present) then None
  else if streq cmd (str "xlsrstop") then Some (ios_bb_gps_reset g)
  else if starts_with (str "xlsr=") cmd then
    let interval :=
      match after_commas 4 (drop 5 cmd) with
      | Some f => Z.min (atoi f) 86400
      | None => 0
      end in
    Some (g <| g_ch := ch |>
            <| g_interval_ms := (if 0 <? interval then interval else 1) * 1000 |>
            <| g_due_ms := now + GPS_FIRST_FIX_MS |>)
  else None.

(** The receiver afterwards, and the line due with its channel. *)
Definition ios_bb_gps_poll (now : Z) (g : IosBbGps) : IosBbGps * option (Z * bytes) :=
  if (g.(g_ch) <? 0) || (g.(g_due_ms) =? 0) || (now <? g.(g_due_ms)) then (g, None)
  else
    let g := g <| g_due_ms := now + g.(g_interval_ms) |> in
    if negb g.(g_fix) then (g, None)
    else (g, Some (g.(g_ch), fit 200 (crlf ++ str "+XLSR: " ++ fit 160 g.(g_text) ++ crlf))).

Definition ios_bb_gps_next_due (g : IosBbGps) : Z :=
  if 0 <=? g.(g_ch) then g.(g_due_ms) else 0.
