(* ===== verification/BbAt.v ===== *)
(** * The AT command interpreter

    [src/hw/misc/ios_baseband_core.c], [ios_bb_radio_nvram] to
    [radio_nvram_block] and [at_command_line].  The command chain of
    [at_command_line] is cut into groups; a group returns [None] when the
    command is none of its own, and the next group is tried. *)

From Stdlib Require Import ZArith Lia String.
From stdpp Require Import base numbers list.
From S2P Require Import Prelude CLib BbState BbTx BbPdu BbSim BbCalls BbReg BbSms BbSimCmd BbGps.
Local Open Scope Z_scope.

(** ** Radio nvram *)

Definition IOS_BB_NVRAM_SIZE : Z := 0x600.
Definition IOS_BB_NVRAM_BLOCK : Z := 512.
Definition IOS_BB_NVRAM_WIFI_CAL : Z := 1.

Definition ios_bb_radio_nvram : bytes :=
  let cal := 1024 in
  let words := (4 + cal) / 2 in
  [0; IOS_BB_NVRAM_WIFI_CAL; u8 (Z.shiftr words 8); u8 words] ++
  ((fun i => u8 (Z.lxor (Z.of_nat i * 37 + 0x5a) (Z.shiftr (Z.of_nat i) 3))) <$>
     seq 0 (Z.to_nat cal)) ++
  replicate 4 0 ++
  replicate (Z.to_nat (IOS_BB_NVRAM_SIZE - (4 + cal + 4))) 0xff.

Definition radio_nvram_block (ch block : Z) (bb : IosBbCore) : IosBbCore :=
  if (block <? 0) || (IOS_BB_NVRAM_SIZE / IOS_BB_NVRAM_BLOCK <=? block) then
    at_line ch (str "+XDRV: 9,1,1," ++ fmt_d block ++ str "," ++ crlf ++ crlf ++ str "OK") bb
  else
    let nv := ztake IOS_BB_NVRAM_BLOCK (zdrop (block * IOS_BB_NVRAM_BLOCK) ios_bb_radio_nvram) in
    chan_write ch (crlf ++ str "+XDRV: 9,1,0," ++ fmt_d block ++ str "," ++ bytes_to_hex nv ++
                   crlf ++ crlf ++ str "OK" ++ crlf) bb.

(** ** Command groups *)

(** [bytes_eq cmd "text"] and the prefix test, on literals. *)
Definition is_cmd (cmd : bytes) (s : string) : bool := streq cmd (str s).
Definition has_prefix (cmd : bytes) (s : string) : bool := starts_with (str s) cmd.

(** A line, then OK. *)
Definition line_ok (ch : Z) (s : bytes) (bb : IosBbCore) : IosBbCore :=
  at_ok ch (at_line ch s bb).

(** The argument after a prefix, or the next alternative. *)
Definition on_arg (cmd : bytes) (s : string) (k : bytes -> IosBbCore) (next : option IosBbCore)
    : option IosBbCore :=
  match arg_after cmd (str s) with
  | Some arg => Some (k arg)
  | None => next
  end.

Definition on (c : bool) (v : IosBbCore) (next : option IosBbCore) : option IosBbCore :=
  if c then Some v else next.

(** Unsolicited codes go back on the channel that enabled them. *)
Definition at_learn (ch : Z) (cmd : bytes) (bb : IosBbCore) : IosBbCore :=
  if 0 <? ch then
    if has_prefix cmd "creg=" then bb <| b_reg; creg_ch := ch |>
    else if has_prefix cmd "xmer=" then bb <| b_at; xciev_ch := ch |>
    else if has_prefix cmd "xcallstat=" then bb <| b_at; call_ch := ch |>
    else if has_prefix cmd "cnmi=" then bb <| b_at; sms_ch := ch |>
    else if has_prefix cmd "xsigstr=" then bb <| b_at; xsigstr_ch := ch |>
    else if has_prefix cmd "xsimstate=" then bb <| b_at; xsim_ch := ch |>
    else bb
  else bb.

(** +xdrv=4,0,<mode>,<level>,<period>,<on> *)
Definition at_vibrate (ch : Z) (arg : bytes) (bb : IosBbCore) : IosBbCore :=
  let v := scan_ds 4 arg in
  at_ok ch (bb <| b_drv; vib_mode := rd v 0 |> <| b_drv; vib_period_ms := rd v 2 |>
               <| b_drv; vib_on_ms := rd v 3 |>
               <| b_drv; vib_start_ms := bb.(b_env).(now_ms) |>).

(** +xdrv=5,16,<seconds> *)
Definition at_temperature (ch : Z) (arg : bytes) (bb : IosBbCore) : IosBbCore :=
  let n := Z.min (atoi arg) 86400 in
  at_ok ch (bb <| b_drv; temp_period_ms := if 0 <? n then n * 1000 else 0 |>
               <| b_drv; temp_ch := ch |>
               <| b_drv; temp_due_ms := if 0 <? n then bb.(b_env).(now_ms) + 1000 else 0 |>).

(** +crsm=<op>,<file id> *)
Definition at_crsm (ch : Z) (arg : bytes) (bb : IosBbCore) : IosBbCore :=
  let v := scan_ds 2 arg in
  let op := rd v 0 in
  let fid := rd v 1 in
  let reply :=
    if (fid =? 0x6fad) && (op =? 176) then str "+CRSM: 144,0," ++ dq ++ str "00000002" ++ dq
    else if (fid =? 0x6fad) && (op =? 192) then
      str "+CRSM: 144,0," ++ dq ++ str "000000046FAD040011FFBB01020000" ++ dq
    else if (fid =? 0x6f38) && (op =? 176) then str "+CRSM: 144,0," ++ dq ++ str "FF000000" ++ dq
    else if (fid =? 0x6f38) && (op =? 192) then
      str "+CRSM: 144,0," ++ dq ++ str "000000046F38040014FF4401020000" ++ dq
    else str "+CRSM: 148,4" in
  line_ok ch reply bb.

(** From +xsigstr= to +xgendata. *)
Definition at_plus_drv (ch : Z) (cmd : bytes) (bb : IosBbCore) : option IosBbCore :=
  on_arg cmd "xsigstr=" (fun arg =>
    emit_xsigstr (at_ok ch (bb <| b_at; xsigstr_on := atoi arg =? 1 |>))) (
  on_arg cmd "xdrv=4,0," (fun arg => at_vibrate ch arg bb) (
  on_arg cmd "xdrv=5,16," (fun arg => at_temperature ch arg bb) (
  on_arg cmd "crsm=" (fun arg => at_crsm ch arg bb) (
  on (is_cmd cmd "xsio?") (line_ok ch (str "+XSIO: 0,*0") bb) (
  on (has_prefix cmd "xtransportmode")
     (at_ok ch (if (ch =? 0) && negb bb.(b_mux).(mux) then bb <| b_link; h5 := true |> else bb)) (
  on (has_prefix cmd "xgendata")
     (line_ok ch (if bb.(b_link).(h5)
                  then str "+XGENDATA: " ++ dq ++ str "DEV_ICE_MODEM_03.12.08_G" ++ dq
                  else str "+XGENDATA: " ++ dq ++ str "DEV_ICE2_MODEM_02.10.04" ++ dq ++ str "," ++
                       dq ++ str "BOOTLOADER_VERSION: 02.10.04" ++ dq) bb)
  None)))))).

(** The receiver [memset] leaves. *)
Definition muxrx0 : IosBbMuxRx := mkMuxRx MX_SEARCH 0 0 0 0 [] 0.

(** From +cgsn to +cpwroff. *)
Definition at_plus_ident (ch : Z) (cmd : bytes) (bb : IosBbCore) : option IosBbCore :=
  on (is_cmd cmd "cgsn") (line_ok ch bb.(b_ctl).(imei) bb) (
  on (is_cmd cmd "cimi") (line_ok ch bb.(b_ctl).(imsi) bb) (
  on (is_cmd cmd "ccid") (line_ok ch bb.(b_ctl).(iccid) bb) (
  match sim_command ch cmd bb with
  | Some bb => Some bb
  | None =>
  on_arg cmd "cmux=" (fun _ =>
    upd_ch 0 (fun c => c <| ch_open := false |>)
      ((at_ok ch bb) <| b_mux; mux := true |> <| b_mux; muxrx := muxrx0 |>)) (
  on (is_cmd cmd "cpwroff")
     ((at_ok ch bb) <| b_at; off := true |> <| b_at; power_offs ::= fun n => u32 (n + 1) |>)
  None)
  end))).

(** A "+CREG: 0" on the registration channel. *)
Definition creg_zero (bb : IosBbCore) : IosBbCore :=
  let ch := bb.(b_reg).(creg_ch) in
  if is_open ch bb && (0 <? bb.(b_reg).(creg_n)) then
    (at_line ch (str "+CREG: 0") bb) <| b_reg; last_creg := 0 |>
  else bb.

Definition at_cfun (ch : Z) (arg : bytes) (bb : IosBbCore) : IosBbCore :=
  let n := atoi arg in
  let bb := at_ok ch bb in
  if ((n =? 0) || (n =? 1) || (n =? 4)) && negb (n =? bb.(b_reg).(cfun)) then
    let bb := bb <| b_reg; cfun := n |> in
    if n =? 1 then
      let bb := reg_schedule bb in
      if is_open bb.(b_at).(xsim_ch) bb && negb bb.(b_reg).(xsim_pushed) then
        bb <| b_reg; xsim_due_ms := bb.(b_env).(now_ms) + 500 |>
      else bb
    else (creg_zero (release_all bb)) <| b_reg; reg_step := 0 |>
  else bb.

(** The PLMN a manual selection decodes: three bytes, those the text does not
    cover uninitialised. *)
Definition cops_manual_plmn (hex : bytes) (bb : IosBbCore) : bytes :=
  let got := hex_nibbles hex 0 3 in
  ztake 3 (got ++ zdrop (zlen got) bb.(b_env).(stack_plmn)).

Definition at_cops (ch : Z) (arg : bytes) (bb : IosBbCore) : IosBbCore :=
  let bb := at_ok ch bb in
  if streq arg (str "0") then reg_schedule (bb <| b_reg; cops_detached := false |>)
  else if streq arg (str "2") then creg_zero (bb <| b_reg; cops_detached := true |>)
  else if starts_with (str "3,") arg then
    bb <| b_reg; cops_format := schar (rd arg 2) - 48 |>
  else if starts_with (str "1,2," ++ dq) arg then
    let p := cops_manual_plmn (drop 5 arg) bb in
    reg_schedule
      (if negb (rd p 0 =? 0) && negb (rd p 1 =? 0)
       then bb <| b_ctl; plmn := fit 7 (until_nul p) |> else bb)
  else bb.

Definition at_cops_query (ch : Z) (bb : IosBbCore) : IosBbCore :=
  let reply :=
    if negb (reg_stat bb =? 1) then str "+COPS: 0"
    else if bb.(b_reg).(cops_format) =? 2 then
      str "+COPS: 0,2," ++ dq ++ str_to_hexstr bb.(b_ctl).(plmn) 17 ++ dq
    else
      let name := match bb.(b_ctl).(operator_long) with [] => bb.(b_ctl).(plmn) | l => l end in
      str "+COPS: 0," ++ fmt_d bb.(b_reg).(cops_format) ++ str "," ++ dq ++
      str_to_hexstr name 17 ++ dq in
  line_ok ch reply bb.

(** From +cfun= to +cops?. *)
Definition at_plus_radio (ch : Z) (cmd : bytes) (bb : IosBbCore) : option IosBbCore :=
  on_arg cmd "cfun=" (fun arg => at_cfun ch arg bb) (
  on_arg cmd "creg=" (fun arg =>
    let bb := at_ok ch (bb <| b_reg; creg_n := atoi arg |>) in
    if 0 <? bb.(b_reg).(creg_n) then reg_schedule bb else bb) (
  on (is_cmd cmd "creg?")
     (line_ok ch (str "+CREG: " ++ fmt_d bb.(b_reg).(creg_n) ++ str "," ++ fmt_d (reg_stat bb) ++
                  str "," ++ fmt_X bb.(b_ctl).(lac) ++ str "," ++ fmt_X bb.(b_ctl).(ci)) bb) (
  on_arg cmd "cgreg=" (fun arg =>
    let bb := at_ok ch (bb <| b_reg; cgreg_n := atoi arg |>) in
    if 0 <? bb.(b_reg).(cgreg_n) then reg_schedule bb else bb) (
  on_arg cmd "xreg=" (fun arg => at_ok ch (bb <| b_at; xreg_n := atoi arg |>)) (
  on (is_cmd cmd "xreg?")
     (line_ok ch (str "+XREG: " ++ fmt_d bb.(b_at).(xreg_n) ++ str "," ++
                  fmt_d (xreg_value bb)) bb) (
  on (is_cmd cmd "cgreg?")
     (line_ok ch (str "+CGREG: " ++ fmt_d bb.(b_reg).(cgreg_n) ++ str "," ++
                  fmt_d (reg_stat bb)) bb) (
  on_arg cmd "cops=" (fun arg => at_cops ch arg bb) (
  on (is_cmd cmd "cops?") (at_cops_query ch bb)
  None)))))))).

(** +ccfc=<reason>,<mode>[,<number>[,<type>[,<class>]]] *)
Definition at_ccfc (ch : Z) (arg : bytes) (bb : IosBbCore) : IosBbCore :=
  let cls :=
    match after_commas 4 arg with
    | Some p => if is_digit (rd p 0) then atoi p else 7
    | None => 7
    end in
  let bb :=
    match scan_ds 2 arg with
    | [_; mode] => if mode =? 2 then at_line ch (str "+CCFC: 0," ++ fmt_d cls) bb else bb
    | _ => bb
    end in
  at_ok ch bb.

(** From +xcops= to +ceer. *)
Definition at_plus_info (ch : Z) (cmd : bytes) (bb : IosBbCore) : option IosBbCore :=
  on_arg cmd "xcops=" (fun arg =>
    let type := if streq arg (str "7") then 0 else atoi arg in
    line_ok ch (str "+XCOPS: " ++ fmt_d type ++ str "," ++ dq ++
                str_to_hexstr bb.(b_ctl).(operator_long) 65 ++ dq) bb) (
  on (has_prefix cmd "xcgedpage")
     (let rxlev := Z.max 0 (Z.min 63 (bb.(b_ctl).(signal_dbm) + 110)) in
      line_ok ch (str "+XCGEDPAGE: RAT:" ++ dq ++ str "GSM" ++ dq ++ str ",Rssi: " ++
                  fmt_d (if reg_stat bb =? 1 then rxlev else 0)) bb) (
  on (is_cmd cmd "csvm?")
     (line_ok ch (str "+CSVM: 0," ++ dq ++ str_to_hexstr bb.(b_ctl).(voicemail) 49 ++ dq ++
                  str ",129") bb) (
  on (is_cmd cmd "csca?")
     (line_ok ch (str "+CSCA: " ++ dq ++ str_to_hexstr bb.(b_ctl).(sca) 49 ++ dq ++
                  str ",129") bb) (
  on (is_cmd cmd "xcfc" || is_cmd cmd "xcfc?") (line_ok ch (str "+XCFC: 3") bb) (
  on_arg cmd "ccfc=" (fun arg => at_ccfc ch arg bb) (
  on (is_cmd cmd "ceer") (line_ok ch (str "+CEER: CC," ++ fmt_d bb.(b_call).(ceer_cause)) bb)
  None)))))).

(** +cmgr=<index> *)
Definition at_cmgr (ch : Z) (arg : bytes) (bb : IosBbCore) : IosBbCore :=
  let idx := atoi arg in
  let s := default sms0 (bb.(b_sms).(store) !! Z.to_nat (Z.rem (idx - 1) IOS_BB_SMS_STORE)) in
  if (1 <=? idx) && s.(s_used) then
    let oct := zlen s.(s_pdu) / 2 in
    let sca_len := match bb.(b_ctl).(sca) with
                   | [] => 1
                   | _ => 1 + 1 + (zlen bb.(b_ctl).(sca) + 1) / 2
                   end in
    line_ok ch (str "+CMGR: 1,," ++ fmt_u (u32 (oct - sca_len)) ++ crlf ++ crlf ++ s.(s_pdu)) bb
  else at_error ch bb.

(** Settings that are accepted and not kept. *)
Definition accepted : list string :=
  ["cmms="; "cnmi="; "cscb="; "xtesm="; "xmer="; "ctzu="; "xcallstat="; "clip="; "ccwa=";
   "cnap="; "cusd="; "cssn="; "xpow="; "xdrv="; "xl1set="; "ipr="; "cmee="; "xsimstate=";
   "cgdcont="; "xgauth="; "xdns="; "ctfr="; "vts="; "xvts="; "cmgd="; "csca="]%string.

(** From +cmgs= to the accepted settings. *)
Definition at_plus_sms (ch : Z) (cmd : bytes) (bb : IosBbCore) : option IosBbCore :=
  on_arg cmd "cmgs=" (fun _ =>
    chan_printf ch (crlf ++ str "> ")
      (upd_ch ch (fun c => c <| ch_sms_prompt := true |> <| ch_len := 0 |>) bb)) (
  on_arg cmd "cmgr=" (fun arg => at_cmgr ch arg bb) (
  on_arg cmd "cnma" (fun _ => at_ok ch bb) (
  on_arg cmd "ctzr=" (fun arg =>
    at_ok ch (bb <| b_at; ctzr_on := 0 <? atoi arg |> <| b_at; ctzr_ch := ch |>)) (
  on (existsb (has_prefix cmd) accepted)
     (let bb := at_ok ch bb in
      if has_prefix cmd "ctfr=" then release_where [IOS_BB_CALL_INCOMING; IOS_BB_CALL_WAITING] bb
      else bb)
  None)))).

(** The number of +xemn=: quotes and spaces dropped, at most 31. *)
Fixpoint xemn_number (s : bytes) (n : Z) : bytes :=
  match s with
  | [] => []
  | c :: t =>
      if n <? 31 then
        if negb (c =? 34) && negb (c =? 32) then c :: xemn_number t (n + 1)
        else xemn_number t n
      else []
  end.

(** From +xemc= to +clcc. *)
Definition at_plus_call (ch : Z) (cmd : bytes) (bb : IosBbCore) : option IosBbCore :=
  on_arg cmd "xemc=" (fun arg => at_ok ch (bb <| b_at; xemc_on := atoi arg =? 1 |>)) (
  on_arg cmd "xemn=" (fun arg =>
    let num := xemn_number arg 0 in
    line_ok ch (str "+XEMN: " ++ dq ++ num ++ dq ++ str "," ++
                fmt_d (b2z (ios_bb_is_emergency_number num))) bb) (
  on_arg cmd "colp=" (fun arg => at_ok ch (bb <| b_at; colp_off := atoi arg =? 0 |>)) (
  on (is_cmd cmd "colp?")
     (line_ok ch (str "+COLP: " ++ fmt_d (b2z (negb bb.(b_at).(colp_off))) ++ str ",1") bb) (
  on_arg cmd "cscs=" (fun arg => at_ok ch (bb <| b_at; hex_cs := contains (str "hex") arg |>)) (
  on (has_prefix cmd "csms") (line_ok ch (str "+CSMS: 1,1,1") bb) (
  on (has_prefix cmd "chld")
     (chld_command ch (if rd cmd 4 =? 61 then Some (drop 5 cmd) else None) bb) (
  on (is_cmd cmd "clcc") (at_ok ch bb)
  None))))))).

(** Deactivation on one channel: back to command mode, and say so. *)
Definition cgact_drop (cid : Z) (i : nat) (bb : IosBbCore) : IosBbCore :=
  let ch := Z.of_nat i in
  if (get_ch ch bb).(ch_data_cid) =? cid then
    let bb := upd_ch ch (fun c => c <| ch_data_cid := 0 |>) bb in
    let bb := bb <| b_data; ip_rx := [] |> in
    let bb := at_line ch (str "NO CARRIER") bb in
    if negb bb.(b_link).(h5) then mx_msc ch false bb else bb
  else bb.

(** ["0,%d"] *)
Definition cgact_cid (arg : bytes) : Z :=
  match scan_lit (str "0,") arg with
  | ScanOk _ rest => match scan_d rest with ScanOk v _ => v | ScanFail _ => 1 end
  | ScanFail _ => 1
  end.

Definition at_cgact (ch : Z) (arg : bytes) (bb : IosBbCore) : IosBbCore :=
  if atoi arg =? 0 then
    let bb := bb <| b_data; pdp_active := false |> in
    for_each (Z.to_nat IOS_BB_MAX_CH) (cgact_drop (cgact_cid arg)) (at_ok ch bb)
  else if bb.(b_data).(data_out) && service_ok bb then
    at_ok ch (bb <| b_data; pdp_active := true |>)
  else cme_error ch 100 bb.

Definition at_cgdata (ch : Z) (arg : bytes) (bb : IosBbCore) : IosBbCore :=
  if negb bb.(b_data).(pdp_active) || (ch =? 0) then at_line ch (str "NO CARRIER") bb
  else
    let bb := at_line ch (str "CONNECT") bb in
    let bb := if negb bb.(b_link).(h5) then mx_msc ch true bb else bb in
    let cid := match strrchr 44 arg with Some (_ :: t) => atoi t | _ => 1 end in
    let bb := upd_ch ch (fun c => c <| ch_data_cid := cid |>) bb in
    bb <| b_data; ip_rx := [] |>.

(** From +cgact? to the end. *)
Definition at_plus_data (ch : Z) (cmd : bytes) (bb : IosBbCore) : option IosBbCore :=
  on (is_cmd cmd "cgact?")
     (line_ok ch (str "+CGACT: 1," ++ fmt_d (b2z bb.(b_data).(pdp_active))) bb) (
  on_arg cmd "cgact=" (fun arg => at_cgact ch arg bb) (
  on_arg cmd "cgpaddr=" (fun arg =>
    line_ok ch (str "+CGPADDR: " ++ fmt_d (atoi arg) ++ str "," ++ dq ++ str "10.0.2.15" ++ dq) bb) (
  on (is_cmd cmd "xdns?")
     (line_ok ch (str "+XDNS: 1," ++ dq ++ str "10.0.2.3" ++ dq ++ str "," ++ dq ++
                  str "0.0.0.0" ++ dq) bb) (
  on_arg cmd "cgdata=" (fun arg => at_cgdata ch arg bb) (
  match ios_bb_gps_command bb.(b_env).(now_ms) ch cmd bb.(b_gps) with
  | Some g => Some (at_ok ch (bb <| b_gps := g |>))
  | None => None
  end))))).

(** ** The line interpreter *)

Definition or_else (o : option IosBbCore) (next : option IosBbCore) : option IosBbCore :=
  match o with Some bb => Some bb | None => next end.

(** The commands after the plus sign; an unknown one is answered OK. *)
Definition at_plus (ch : Z) (cmd : bytes) (bb : IosBbCore) : IosBbCore :=
  let bb := at_learn ch cmd bb in
  default (at_ok ch bb)
    (or_else (at_plus_drv ch cmd bb) (
     or_else (at_plus_ident ch cmd bb) (
     or_else (at_plus_radio ch cmd bb) (
     or_else (at_plus_info ch cmd bb) (
     or_else (at_plus_sms ch cmd bb) (
     or_else (at_plus_call ch cmd bb) (
     at_plus_data ch cmd bb))))))).

(** The copy in [buf]: iBoot's closing semicolon dropped, at most 599 bytes. *)
Definition at_strip (line : bytes) : bytes :=
  let n := zlen line in
  let n := if (0 <? n) && (rd line (n - 1) =? 59) && negb (rd line 0 =? 100) then n - 1 else n in
  ztake (Z.min n 599) line.

Definition at_answer (ch : Z) (bb : IosBbCore) : IosBbCore :=
  match first_ringing bb with
  | Some i => call_progress i IOS_BB_CALL_ACTIVE (at_ok ch bb)
  | None => at_line ch (str "NO CARRIER") bb
  end.

Definition at_command_line (ch : Z) (line : bytes) (bb : IosBbCore) : IosBbCore :=
  let cmd := at_strip line in
  if has_prefix cmd "+xdrv=9,1," then radio_nvram_block ch (atoi (drop 10 cmd)) bb
  else
    match cmd with
    | [] => at_ok ch bb
    | c :: rest =>
        if is_cmd cmd "e0" || is_cmd cmd "e1" then at_ok ch bb
        else if c =? 100 then dial_command ch rest bb
        else if is_cmd cmd "a" then at_answer ch bb
        else if is_cmd cmd "h" || is_cmd cmd "h0" then release_all (at_ok ch bb)
        else if has_prefix cmd "s0=" then at_ok ch (bb <| b_at; s0 := atoi (drop 3 cmd) |>)
        else if negb (c =? 43) then at_ok ch bb
        else at_plus ch rest bb
    end.

Definition at_command (ch : Z) (line : bytes) (bb : IosBbCore) : IosBbCore :=
  camp_update (at_command_line ch line bb).
