(* ===== verification/BbRx.v ===== *)
(** * Receive side of the baseband core

    Bytes from the host through SLIP, H5, the 27.010 multiplexer and the AT
    line assembly, and raw IP on data channels:
    [src/hw/misc/ios_baseband_core.c], [h5_rx_pkt], [h5_input], [mx_rx_frame],
    [mx_input], [data_chan_input] to [h5_rx_payload] and [ios_bb_input]. *)

From Stdlib Require Import ZArith Lia String.
From stdpp Require Import base numbers list.
From S2P Require Import Prelude CLib BbState BbTx BbPdu BbSim BbCalls BbReg BbSms BbSimCmd BbGps BbAt.
Local Open Scope Z_scope.

(** ** Raw IP from the guest *)

(** The size of [ip_rx]. *)
Definition IP_RX_SIZE : Z := 2048.

(** One look at the reassembly buffer: drop it, wait, or cut a packet. *)
Inductive ip_step :=
| IpDrop
| IpWait
| IpPacket (tot : Z).

Definition ip_next (q : bytes) : ip_step :=
  if 20 <=? zlen q then
    let tot := Z.lor (Z.shiftl (rd q 2) 8) (rd q 3) in
    if negb (Z.shiftr (rd q 0) 4 =? 4) || (tot <? 20) || (IP_RX_SIZE <? tot) then IpDrop
    else if zlen q <? tot then IpWait
    else IpPacket tot
  else IpWait.

(** The data callback, when a network is attached. *)
Definition data_out_bytes (p : bytes) (bb : IosBbCore) : IosBbCore :=
  if bb.(b_data).(data_out) then bb <| b_env; data_log ::= fun l => l ++ [p] |> else bb.

(** The inner loop; a cut packet shortens the buffer by at least 20 bytes. *)
Fixpoint ip_drain (fuel : nat) (bb : IosBbCore) : IosBbCore :=
  match fuel with
  | O => bb
  | S fuel' =>
      let q := bb.(b_data).(ip_rx) in
      match ip_next q with
      | IpDrop => bb <| b_data; ip_rx := [] |>
      | IpWait => bb
      | IpPacket tot =>
          let bb := data_out_bytes (ztake tot q) bb in
          ip_drain fuel' (bb <| b_data; ip_rx := zdrop tot q |>)
      end
  end.

(** The outer loop; a full buffer never survives [ip_drain], so every turn
    takes at least one byte. *)
Fixpoint data_chan_loop (fuel : nat) (data : bytes) (bb : IosBbCore) : IosBbCore :=
  match fuel, data with
  | _, [] => bb
  | O, _ => bb
  | S fuel', _ =>
      let n := Z.min (zlen data) (IP_RX_SIZE - zlen bb.(b_data).(ip_rx)) in
      let bb := bb <| b_data; ip_rx ::= fun q => q ++ ztake n data |> in
      let bb := ip_drain (S (length bb.(b_data).(ip_rx))) bb in
      data_chan_loop fuel' (zdrop n data) bb
  end.

Definition data_chan_input (data : bytes) (bb : IosBbCore) : IosBbCore :=
  data_chan_loop (length data) data bb.

(** The slices of at most 1500 bytes [ios_bb_data_input] sends. *)
Fixpoint ip_slices (fuel : nat) (pkt : bytes) : list bytes :=
  match fuel, pkt with
  | _, [] => []
  | O, _ => []
  | S fuel', _ => ztake 1500 pkt :: ip_slices fuel' (zdrop 1500 pkt)
  end.

Definition ios_bb_data_input (pkt : bytes) (bb : IosBbCore) : bool * IosBbCore :=
  match first_from 15 1 (fun i => let c := get_ch (Z.of_nat i) bb in
                                  c.(ch_open) && negb (c.(ch_data_cid) =? 0)) with
  | Some i =>
      (true, fold_left (fun bb s => mx_send (Z.of_nat i) false MX_UIH s bb)
                       (ip_slices (length pkt) pkt) bb)
  | None => (false, bb)
  end.

(** ** AT lines *)

(** Store a byte at [ch_len]. *)
Definition push_line (b : Z) (c : IosBbAtChan) : IosBbAtChan :=
  if c.(ch_len) <? 599 then
    c <| ch_line ::= fun l => wr l c.(ch_len) b |> <| ch_len ::= fun n => n + 1 |>
  else c.

Definition at_chan_byte (ch : Z) (bb : IosBbCore) (b : Z) : IosBbCore :=
  let c := get_ch ch bb in
  if c.(ch_sms_prompt) then
    if b =? 0x1a then cmgs_prompt_commit ch true bb
    else if b =? 0x1b then cmgs_prompt_commit ch false bb
    else if negb (hex_digit b =? 0xffff) then upd_ch ch (push_line b) bb
    else bb
  else if b =? 13 then
    if negb (c.(ch_len) =? 0) then
      let bb := upd_ch ch (fun c => c <| ch_line ::= fun l => wr l c.(ch_len) 0 |>) bb in
      let line := (get_ch ch bb).(ch_line) in
      let bb := if (2 <=? c.(ch_len)) && (rd line 0 =? 97) && (rd line 1 =? 116)
                then at_command ch (cstr line 2) bb else bb in
      upd_ch ch (fun c => c <| ch_len := 0 |>) bb
    else bb
  else if b =? 10 then bb
  else upd_ch ch (push_line (tolower b)) bb.

Definition at_chan_input (ch : Z) (data : bytes) (bb : IosBbCore) : IosBbCore :=
  if negb ((get_ch ch bb).(ch_data_cid) =? 0) then data_chan_input data bb
  else fold_left (at_chan_byte ch) data bb.

(** The same function on the information field of a frame, which is the
    receiver's own buffer: the loop reads [muxrx.buf] as it is at each turn, and
    a +CMUX on the way clears it. *)
Definition at_chan_input_mux (ch : Z) (bb : IosBbCore) : IosBbCore :=
  let data := bb.(b_mux).(muxrx).(m_buf) in
  if negb ((get_ch ch bb).(ch_data_cid) =? 0) then data_chan_input data bb
  else fold_left (fun bb i => at_chan_byte ch bb (rd bb.(b_mux).(muxrx).(m_buf) (Z.of_nat i)))
                 (seq 0 (length data)) bb.

(** ** 27.010 receiver *)

(** The information field [data] of the frame is [muxrx.buf]. *)
Definition mx_rx_frame (addr ctrl : Z) (bb : IosBbCore) : IosBbCore :=
  let data := bb.(b_mux).(muxrx).(m_buf) in
  let dlci := Z.shiftr addr 2 in
  let kind := no_pf ctrl in
  let in_range := dlci <? IOS_BB_MAX_CH in
  if kind =? MX_SABM then
    let bb := if in_range then upd_ch dlci (fun c => c <| ch_open := true |>) bb else bb in
    let bb := mx_send_frame_canned dlci (Z.lor MX_UA (Z.land ctrl MX_PF)) bb in
    if (dlci =? bb.(b_at).(xsim_ch)) && negb bb.(b_reg).(xsim_pushed) then
      bb <| b_reg; xsim_due_ms := bb.(b_env).(now_ms) + 100 |>
    else bb
  else if kind =? MX_DISC then
    let bb := if in_range then
                upd_ch dlci (fun c => c <| ch_open := false |> <| ch_len := 0 |>
                                        <| ch_sms_prompt := false |> <| ch_data_cid := 0 |>) bb
              else bb in
    mx_send_frame_canned dlci (Z.lor MX_UA (Z.land ctrl MX_PF)) bb
  else if (kind =? MX_DM) || (kind =? MX_UA) then bb
  else if (kind =? MX_UIH) || (kind =? MX_UI) then
    if dlci =? 0 then mx_control data bb
    else if in_range && is_open dlci bb then at_chan_input_mux dlci bb
    else if in_range then mx_send_frame_canned dlci (Z.lor MX_DM (Z.land ctrl MX_PF)) bb
    else bb
  else bb.

(** The size of [muxrx.buf]. *)
Definition MX_BUF_SIZE : Z := 1600.

(** An address octet. *)
Definition mx_addr_byte (c : Z) (m : IosBbMuxRx) : IosBbMuxRx :=
  if c =? MX_FLAG then m <| m_state := MX_SEARCH |> <| m_flags_run := 1 |>
  else m <| m_fcs := mx_fcs_step MX_INIT_FCS c |> <| m_addr := c |>
         <| m_state := if Z.testbit c 0 then MX_CTRL else MX_ADDR |>.

(** The state after the length is known. *)
Definition mx_after_len (len : Z) : MxState := if negb (len =? 0) then MX_DATA else MX_FCS.

(** An information octet. *)
Definition mx_data_byte (c : Z) (m : IosBbMuxRx) : IosBbMuxRx :=
  let m := if zlen m.(m_buf) <? MX_BUF_SIZE then m <| m_buf ::= fun b => b ++ [c] |> else m in
  if m.(m_len) <=? zlen m.(m_buf) then
    let m := if negb (no_pf m.(m_ctrl) =? MX_UIH)
             then m <| m_fcs := mx_fcs m.(m_fcs) m.(m_buf) |> else m in
    m <| m_state := MX_FCS |>
  else m.

Definition on_rx (f : IosBbMuxRx -> IosBbMuxRx) (bb : IosBbCore) : IosBbCore :=
  bb <| b_mux; muxrx ::= f |>.

(** The [switch] of [mx_input] for one byte. *)
Definition mx_byte_switch (bb : IosBbCore) (c : Z) : IosBbCore :=
  let m := bb.(b_mux).(muxrx) in
  match m.(m_state) with
  | MX_SEARCH =>
      if c =? MX_FLAG then
        let bb := if (1 <=? m.(m_flags_run)) && negb (Z.testbit m.(m_flags_run) 0)
                  then h5_stream [MX_FLAG; MX_FLAG] bb else bb in
        on_rx (fun m => m <| m_flags_run ::= fun n => u32 (n + 1) |>) bb
      else
        on_rx (fun m => mx_addr_byte c (m <| m_flags_run := 0 |> <| m_state := MX_ADDR |>)) bb
  | MX_ADDR => on_rx (mx_addr_byte c) bb
  | MX_CTRL =>
      on_rx (fun m => m <| m_fcs := mx_fcs_step m.(m_fcs) c |> <| m_ctrl := c |>
                        <| m_state := MX_LEN0 |>) bb
  | MX_LEN0 =>
      on_rx (fun m =>
        let m := m <| m_fcs := mx_fcs_step m.(m_fcs) c |> in
        let len := Z.shiftr c 1 in
        if Z.testbit c 0 then
          m <| m_len := len |> <| m_buf := [] |> <| m_state := mx_after_len len |>
        else m <| m_len := Z.land len 0x7f |> <| m_state := MX_LEN1 |>) bb
  | MX_LEN1 =>
      on_rx (fun m =>
        let m := m <| m_fcs := mx_fcs_step m.(m_fcs) c |> in
        let len := Z.lor m.(m_len) (Z.shiftl c 7) in
        m <| m_len := len |> <| m_buf := [] |> <| m_state := mx_after_len len |>) bb
  | MX_DATA => on_rx (mx_data_byte c) bb
  | MX_FCS =>
      let bb := if mx_fcs_step m.(m_fcs) c =? MX_GOOD_FCS
                then mx_rx_frame m.(m_addr) m.(m_ctrl) bb else bb in
      on_rx (fun m => m <| m_state := MX_SEARCH |> <| m_flags_run := 0 |>) bb
  end.

(** One turn of the loop: the switch, then the close-down a CLD asked for. *)
Definition mx_byte (bb : IosBbCore) (c : Z) : IosBbCore :=
  let bb := mx_byte_switch bb c in
  if bb.(b_mux).(mux_leave) then
    bb <| b_mux; mux_leave := false |> <| b_mux; mux := false |> <| b_mux; muxrx := muxrx0 |>
  else bb.

Definition mx_input (buf : bytes) (bb : IosBbCore) : IosBbCore := fold_left mx_byte buf bb.

(** ** H5 receiver *)

Definition h5_rx_payload (data : bytes) (bb : IosBbCore) : IosBbCore :=
  if bb.(b_mux).(mux) then mx_input data bb else at_chan_input 0 data bb.

(** Header checksum, length and CRC of a received packet of [n] bytes. *)
Definition h5_pkt_ok (p : bytes) (n : Z) : bool :=
  let len := Z.lor (Z.shiftr (rd p 1) 4) (Z.shiftl (rd p 2) 4) in
  let crc := Z.testbit (rd p 0) 6 in
  negb (n <? 4) && (u8 (rd p 0 + rd p 1 + rd p 2) =? u8 (Z.lnot (rd p 3))) &&
  negb (1500 <? len) && (4 + len + b2z crc * 2 =? n) &&
  (negb crc ||
   let c := ios_bb_h5_crc (ztake (4 + len) p) in
   let r := Z.lor (Z.shiftl (rd p (4 + len)) 8) (rd p (4 + len + 1)) in
   (c =? r) || (c =? u16 (Z.lor (Z.shiftl r 8) (Z.shiftr r 8)))).

(** Any packet advances the window for what it acknowledges. *)
Definition h5_ack (ack : Z) (bb : IosBbCore) : IosBbCore :=
  match bb.(b_link).(h5_unacked) with
  | [] => bb
  | p :: _ =>
      let d := Z.land (ack - p.(p_seq)) 7 in
      if d <=? zlen bb.(b_link).(h5_unacked) then
        h5_pump (bb <| b_link; h5_unacked ::= zdrop d |>)
      else bb
  end.

(** A link establishment packet; [p[4]] is read whatever the length is. *)
Definition h5_link (p : bytes) (len : Z) (bb : IosBbCore) : IosBbCore :=
  if rd p 4 =? 1 then h5_send_pkt H5_TYPE_LINK false 0 [0x02; 0x7d] bb
  else if rd p 4 =? 3 then
    let bb := bb <| b_link; h5_crc := (3 <=? len) && Z.testbit (rd p 6) 4 |> in
    let bb := h5_send_pkt H5_TYPE_LINK false 0
                [0x04; 0x7b; if 3 <=? len then rd p 6 else IOS_BB_H5_WINDOW] bb in
    h5_pump (bb <| b_link; h5_active := true |>)
  else bb.

(** [p] is the receive buffer, of which [n] bytes are the packet. *)
Definition h5_rx_pkt (p : bytes) (n : Z) (bb : IosBbCore) : IosBbCore :=
  if negb (h5_pkt_ok p n) then bb
  else
    let len := Z.lor (Z.shiftr (rd p 1) 4) (Z.shiftl (rd p 2) 4) in
    let type := Z.land (rd p 1) 0xf in
    let seq := Z.land (rd p 0) 7 in
    let ack := Z.land (Z.shiftr (rd p 0) 3) 7 in
    let bb := h5_ack ack bb in
    if type =? H5_TYPE_LINK then h5_link p len bb
    else if negb bb.(b_link).(h5_active) then bb
    else if type =? H5_TYPE_ACK then bb
    else if negb (type =? H5_TYPE_DATA) || negb (Z.testbit (rd p 0) 7) then bb
    else if seq =? bb.(b_link).(h5_rx_next) then
      h5_rx_payload (ztake len (zdrop 4 p)) (bb <| b_link; h5_rx_next := Z.land (seq + 1) 7 |>)
    else bb <| b_link; h5_need_ack := true |>.

(** The size of [h5_rx]. *)
Definition H5_RX_SIZE : Z := 2048.

(** Hand the buffered packet over. *)
Definition h5_deliver (bb : IosBbCore) : IosBbCore :=
  h5_rx_pkt bb.(b_link).(h5_rx) bb.(b_link).(h5_rxlen) bb.

(** Append a decoded byte; an overlong frame is dropped. *)
Definition h5_push (c : Z) (bb : IosBbCore) : IosBbCore :=
  if bb.(b_link).(h5_rxlen) <? H5_RX_SIZE then
    bb <| b_link; h5_rx ::= fun r => wr r bb.(b_link).(h5_rxlen) c |>
       <| b_link; h5_rxlen ::= fun n => n + 1 |>
  else bb <| b_link; h5_rxlen := 0 |> <| b_link; h5_in_frame := false |>.

(** The part of the loop of [h5_input] that runs inside a frame. *)
Definition h5_frame_byte (bb : IosBbCore) (c : Z) : IosBbCore :=
  if bb.(b_link).(h5_esc) then
    let bb := bb <| b_link; h5_esc := false |> in
    if c =? 0xdc then h5_push 0xc0 bb
    else if c =? 0xdd then h5_push 0xdb bb
    else bb <| b_link; h5_in_frame := false |> <| b_link; h5_rxlen := 0 |>
  else if c =? 0xc0 then
    (h5_deliver bb) <| b_link; h5_rxlen := 0 |> <| b_link; h5_in_frame := false |>
  else if c =? 0xdb then bb <| b_link; h5_esc := true |>
  else h5_push c bb.

Definition h5_byte (bb : IosBbCore) (c : Z) : IosBbCore :=
  if negb bb.(b_link).(h5_in_frame) then
    if c =? 0xc0 then
      (if negb (bb.(b_link).(h5_rxlen) =? 0) then h5_deliver bb else bb)
        <| b_link; h5_rxlen := 0 |>
    else h5_frame_byte (bb <| b_link; h5_in_frame := true |>) c
  else h5_frame_byte bb c.

Definition h5_input (buf : bytes) (bb : IosBbCore) : IosBbCore := fold_left h5_byte buf bb.

(** ** Bytes from the host *)

(** The bytes before the first SLIP delimiter. *)
Fixpoint before_c0 (buf : bytes) : bytes :=
  match buf with
  | [] => []
  | b :: t => if b =? 0xc0 then [] else b :: before_c0 t
  end.

Definition ios_bb_input (buf : bytes) (bb : IosBbCore) : IosBbCore :=
  if bb.(b_at).(off) then bb
  else
    let bb :=
      if negb bb.(b_link).(h5) && bb.(b_mux).(mux) then mx_input buf bb
      else if negb bb.(b_link).(h5) then
        let head := before_c0 buf in
        let bb := match head with [] => bb | _ => at_chan_input 0 head bb end in
        let tail := drop (length head) buf in
        match tail with
        | [] => bb
        | _ => h5_input tail (bb <| b_link; h5 := true |>)
        end
      else h5_input buf bb in
    if bb.(b_link).(h5_need_ack) then h5_send_ack bb else bb.
