(* ===== verification/BbTick.v ===== *)
(** * Time, reset and initialisation of the baseband core

    [src/hw/misc/ios_baseband_core.c], [ios_bb_tick], [ios_bb_next_due],
    [ios_bb_reset] and [ios_bb_init]. *)

From Stdlib Require Import ZArith Lia String.
From stdpp Require Import base numbers list.
From S2P Require Import Prelude CLib BbState BbTx BbPdu BbSim BbCalls BbReg BbSms BbSimCmd BbGps BbAt BbRx.
Local Open Scope Z_scope.

(** ** The parts of [ios_bb_tick], in order *)

(** A registration change found by the tick itself. *)
Definition tick_reg_check (now : Z) (bb : IosBbCore) : IosBbCore :=
  if (bb.(b_reg).(reg_step) =? 0) && (0 <? bb.(b_reg).(creg_n)) && is_open bb.(b_reg).(creg_ch) bb
     && negb (reg_stat bb =? bb.(b_reg).(last_creg)) then
    if (reg_stat bb =? 1) && (bb.(b_reg).(last_creg) =? 2) then
      bb <| b_reg; reg_step := 2 |> <| b_reg; reg_due_ms := now |>
    else reg_schedule bb
  else bb.

Definition tick_reg (now : Z) (bb : IosBbCore) : IosBbCore :=
  if negb (bb.(b_reg).(reg_step) =? 0) && (bb.(b_reg).(reg_due_ms) <=? now) then reg_tick bb
  else bb.

(** Temperature reports: every sensor but the battery's. *)
Definition tick_temp (now : Z) (bb : IosBbCore) : IosBbCore :=
  let d := bb.(b_drv) in
  if negb (d.(temp_due_ms) =? 0) && (d.(temp_due_ms) <=? now) then
    let bb :=
      if is_open d.(temp_ch) bb || (d.(temp_ch) =? 0) then
        fold_left (fun bb s => at_line d.(temp_ch)
                     (str "+XDRVI: 5,17," ++ fmt_d s ++ str ",1,25,25") bb) [0; 1; 3; 4; 5] bb
      else bb in
    bb <| b_drv; temp_due_ms := now + d.(temp_period_ms) |>
  else bb.

(** The SIM presence report. *)
Definition tick_xsim (now : Z) (bb : IosBbCore) : IosBbCore :=
  let r := bb.(b_reg) in
  if negb (r.(xsim_due_ms) =? 0) && (r.(xsim_due_ms) <=? now) then
    let bb := bb <| b_reg; xsim_due_ms := 0 |> in
    let ch := bb.(b_at).(xsim_ch) in
    if is_open ch bb then
      let bb := at_line ch (str "+XSIM: " ++ fmt_d (b2z bb.(b_ctl).(sim_present))) bb in
      bb <| b_reg; sim_last := bb.(b_ctl).(sim_present) |> <| b_reg; xsim_pushed := true |>
    else bb
  else bb.

(** The scripted step of one call. *)
Definition tick_call (now : Z) (i : nat) (bb : IosBbCore) : IosBbCore :=
  let c := get_call i bb in
  if negb c.(c_used) then bb
  else if (c.(c_next_stat) =? -2) && (c.(c_due_ms) <=? now) then
    let bb := upd_call i (fun c => c <| c_rings ::= fun n => n + 1 |>) bb in
    let bb := at_line bb.(b_at).(call_ch) (str "RING") bb in
    if (0 <? bb.(b_at).(s0)) && (bb.(b_at).(s0) <=? (get_call i bb).(c_rings)) then
      call_progress i IOS_BB_CALL_ACTIVE bb
    else upd_call i (fun c => c <| c_due_ms := now + 3000 |>) bb
  else if (0 <=? c.(c_next_stat)) && (c.(c_due_ms) <=? now) then
    if c.(c_next_stat) =? IOS_BB_CALL_ALERTING then
      let bb := upd_call i (fun c => c <| c_stat := IOS_BB_CALL_ALERTING |>) bb in
      let bb := emit_xcallstat c.(c_id) IOS_BB_CALL_ALERTING bb in
      let delay := bb.(b_ctl).(answer_delay_ms) in
      if 0 <=? delay then
        upd_call i (fun c => c <| c_next_stat := IOS_BB_CALL_ACTIVE |>
                               <| c_due_ms := now + (if negb (delay =? 0) then delay else 100) |>) bb
      else upd_call i (fun c => c <| c_next_stat := -1 |>) bb
    else if c.(c_next_stat) =? IOS_BB_CALL_ACTIVE then call_progress i IOS_BB_CALL_ACTIVE bb
    else upd_call i (fun c => c <| c_next_stat := -1 |>) bb
  else bb.

Definition tick_calls (now : Z) (bb : IosBbCore) : IosBbCore :=
  for_each IOS_BB_MAX_CALLS (tick_call now) bb.

Definition tick_h5 (now : Z) (bb : IosBbCore) : IosBbCore :=
  match bb.(b_link).(h5_unacked) with
  | [] => bb
  | _ :: _ =>
      if H5_RETX_MS <=? now - bb.(b_link).(h5_last_tx_ms) then
        (h5_retransmit bb) <| b_link; h5_last_tx_ms := now |>
      else bb
  end.

Definition tick_gps (now : Z) (bb : IosBbCore) : IosBbCore :=
  let '(g, r) := ios_bb_gps_poll now bb.(b_gps) in
  let bb := bb <| b_gps := g |> in
  match r with
  | Some (ch, fix_line) => if is_open ch bb then chan_write ch fix_line bb else bb
  | None => bb
  end.

Definition ios_bb_tick (now : Z) (bb : IosBbCore) : IosBbCore :=
  let bb := bb <| b_env; now_ms := now |> in
  if bb.(b_at).(off) then bb
  else
    let bb := camp_update bb in
    let bb := tick_reg_check now bb in
    let bb := tick_reg now bb in
    let bb := tick_temp now bb in
    let bb := tick_xsim now bb in
    let bb := tick_calls now bb in
    let bb := tick_h5 now bb in
    tick_gps now bb.

(** ** The next deadline *)

(** [if (t && (!due || t < due)) due = t] *)
Definition sooner (due t : Z) : Z :=
  if negb (t =? 0) && ((due =? 0) || (t <? due)) then t else due.

Definition call_due (c : IosBbCall) : Z :=
  if c.(c_used) && negb (c.(c_next_stat) =? -1) then c.(c_due_ms) else 0.

Definition ios_bb_next_due (bb : IosBbCore) : Z :=
  if bb.(b_at).(off) then 0
  else
    let r := bb.(b_reg) in
    let due := if negb (r.(reg_step) =? 0) then r.(reg_due_ms) else 0 in
    let due := if (bb.(b_env).(now_ms) <? r.(camp_due_ms)) &&
                  ((due =? 0) || (r.(camp_due_ms) <? due)) then r.(camp_due_ms) else due in
    let due := sooner due bb.(b_drv).(temp_due_ms) in
    let due := sooner due r.(xsim_due_ms) in
    let due := sooner due (vib_next_edge bb) in
    let due := fold_left (fun due i => sooner due (call_due (get_call i bb)))
                         (seq 0 IOS_BB_MAX_CALLS) due in
    let due := match bb.(b_link).(h5_unacked) with
               | [] => due
               | _ :: _ => let t := bb.(b_link).(h5_last_tx_ms) + H5_RETX_MS in
                           if (due =? 0) || (t <? due) then t else due
               end in
    sooner due (ios_bb_gps_next_due bb.(b_gps)).

(** ** Reset *)

(** What [memset] leaves, before the defaults are filled in. *)
Definition link0 : Link :=
  mkLink false false false false false (replicate (Z.to_nat H5_RX_SIZE) 0) 0 0 0 false [] 0 [].
Definition mux0 : Mux := mkMux false false muxrx0.

Definition ios_bb_reset (bb : IosBbCore) : IosBbCore :=
  let s := bb.(b_sim) in
  mkCore bb.(b_ctl)
    (mkSim s.(pin_on) s.(pin) s.(puk) s.(pin_left) s.(puk_left) s.(sim_file) false s.(loci_plmn))
    link0 mux0
    (alter (fun c => c <| ch_open := true |>) 0%nat (replicate (Z.to_nat IOS_BB_MAX_CH) chan0))
    (mkAt false false false false bb.(b_at).(power_offs) 0 false 0 2 3 1 3 0 false 0)
    (mkReg 1 2 false 0 2 0 0 0 bb.(b_ctl).(sim_present) 0 0 0 0 false 0 false)
    (mkDrv 0 0 0 0 0 0 0)
    (mkCalls 1 (replicate IOS_BB_MAX_CALLS (call0 <| c_next_stat := -1 |>)) 16 [])
    (mkSmsSt 0 [] [] 0 (replicate (Z.to_nat IOS_BB_SMS_STORE) sms0) 0)
    (mkData bb.(b_data).(data_out) false [])
    (ios_bb_gps_reset bb.(b_gps))
    bb.(b_env).

Definition ios_bb_init (bb : IosBbCore) : IosBbCore :=
  sim_load (ios_bb_reset (bb <| b_env; now_ms := 0 |>)).

(** ** A concrete modem

    A freshly reset core with a subscriber, a network and a PIN, on which the
    examples of the other files evaluate the model. *)

Definition ex_ctl : Ctl :=
  mkCtl (str "Carrier") (str "Carrier") (str "00101") (str "15550000001") (str "15550000002")
        (-70) 80 true 1000 true true 1 1 (str "011111111111116") (str "001010123456789")
        (str "8901010123456789012") 5000.

Definition ex_sim : Sim :=
  mkSim true (str "1234") (str "12345678") 3 10 (str "sim.txt") false (str "00101").

Definition ex_env : Env := mkEnv 1000 0 (fun _ => 0) [] [] None true [].

Definition ex_core : IosBbCore :=
  ios_bb_reset
    (mkCore ex_ctl ex_sim link0 mux0 [] (mkAt false false false false 0 0 false 0 0 0 0 0 0 false 0)
       (mkReg 0 0 false 0 0 0 0 0 false 0 0 0 0 false 0 false) (mkDrv 0 0 0 0 0 0 0)
       (mkCalls 0 [] 0 []) (mkSmsSt 0 [] [] 0 [] 0) (mkData true false [])
       (mkGps false false [] 0 0 0) ex_env).

(** The same modem with the H5 link up and the multiplexer running. *)
Definition ex_h5 : IosBbCore :=
  ex_core <| b_link; h5 := true |> <| b_link; h5_active := true |> <| b_link; h5_crc := true |>.

Definition ex_mux : IosBbCore := ex_core <| b_mux; mux := true |>.
