(* ===== verification/BbIfx.v ===== *)
(** * Infineon SPI framing

    The modem side of the baseband SPI link of the 3GS (version 1) and the
    iPhone 4 (version 2, with transmit credits): [src/hw/misc/ios_baseband_core.c],
    [ios_bb_ifx_init] to [ios_bb_ifx_unsent]. *)

From Stdlib Require Import ZArith Lia String.
From stdpp Require Import base numbers list.
From S2P Require Import Prelude CLib.
Local Open Scope Z_scope.

Definition IOS_BB_IFX_HDR : Z := 4.
Definition IFX_MORE : Z := 0x10.
Definition IFX_V2_CREDIT_REQ : Z := 0x40.
Definition IFX_V2_GRANT : Z := 16.
Definition IFX_TXQ_SIZE : Z := 16384.

(** [struct IosBbIfx]; [x_txq] is the prefix that [txq_len] counts. *)
Record IosBbIfx := mkIfx {
  x_version : Z;
  x_max_data : Z;
  x_credits_out : Z;
  x_credits_in : Z;
  x_txq : bytes
}.

Definition eta_IosBbIfx (r : IosBbIfx) : IosBbIfx :=
  mkIfx (x_version r) (x_max_data r) (x_credits_out r) (x_credits_in r) (x_txq r).
#[export] Instance upd_x_credits_out : Upd x_credits_out := ltac:(derive_upd eta_IosBbIfx x_credits_out).
#[export] Instance upd_x_credits_in : Upd x_credits_in := ltac:(derive_upd eta_IosBbIfx x_credits_in).
#[export] Instance upd_x_txq : Upd x_txq := ltac:(derive_upd eta_IosBbIfx x_txq).

Definition ios_bb_ifx_init (version max_data : Z) : IosBbIfx :=
  mkIfx version (Z.min max_data 0xffe) 0 0 [].

Definition ios_bb_ifx_modem_reset (x : IosBbIfx) : IosBbIfx :=
  x <| x_txq := [] |> <| x_credits_in ::= fun c => Z.min c IFX_V2_GRANT |>.

Definition ios_bb_ifx_queue (buf : bytes) (x : IosBbIfx) : IosBbIfx :=
  if IFX_TXQ_SIZE <? zlen x.(x_txq) + zlen buf then x
  else x <| x_txq ::= fun q => q ++ buf |>.

Definition ios_bb_ifx_pending (x : IosBbIfx) : bool := negb (zlen x.(x_txq) =? 0).

Definition ifx_can_send (x : IosBbIfx) : Z :=
  if (x.(x_version) =? 2) && (x.(x_credits_in) <=? 0) then 0 else zlen x.(x_txq).

(** The AP's half of a transfer: the payload it carries, and the credits. *)
Definition ifx_rx (mosi : bytes) (x : IosBbIfx) : bytes * IosBbIfx :=
  let n := zlen mosi in
  if IOS_BB_IFX_HDR <=? n then
    let in_len := Z.lor (rd mosi 0) (Z.shiftl (Z.land (rd mosi 1) 0xf) 8) in
    let ok := (in_len <=? x.(x_max_data)) && (IOS_BB_IFX_HDR + in_len <=? n) in
    let in_len := if ok then in_len else 0 in
    let x :=
      if x.(x_version) =? 2 then
        let x := if negb (in_len =? 0) then x <| x_credits_out ::= fun c => c - 1 |> else x in
        let x := if Z.testbit (rd mosi 1) 6 then x <| x_credits_out := 0 |> else x in
        x <| x_credits_in ::= fun c =>
             c + Z.lor (rd mosi 2) (Z.shiftl (Z.land (rd mosi 3) 0xf) 8) |>
      else x in
    (ztake in_len (zdrop IOS_BB_IFX_HDR mosi), x)
  else ([], x).

(** The modem's half of a transfer of [n] bytes. *)
Definition ifx_tx (n : Z) (x : IosBbIfx) : bytes * IosBbIfx :=
  if n <? IOS_BB_IFX_HDR then (replicate (Z.to_nat n) 0, x)
  else
    let out_len := Z.min (ifx_can_send x) (Z.min x.(x_max_data) (n - IOS_BB_IFX_HDR)) in
    let m1 := u8 (Z.shiftr out_len 8) in
    let m1 := if out_len <? zlen x.(x_txq) then Z.lor m1 IFX_MORE else m1 in
    let v2 := x.(x_version) =? 2 in
    let m1 := if v2 && (out_len =? 0) && negb (zlen x.(x_txq) =? 0)
              then Z.lor m1 IFX_V2_CREDIT_REQ else m1 in
    let x := if v2 && negb (out_len =? 0)
             then x <| x_credits_in ::= fun c => c - 1 |> else x in
    let grant := if v2 && (x.(x_credits_out) <? IFX_V2_GRANT)
                 then IFX_V2_GRANT - x.(x_credits_out) else 0 in
    let x := x <| x_credits_out ::= fun c => c + grant |> in
    let m2 := if v2 then u8 grant else u8 x.(x_max_data) in
    let m3 := if v2 then u8 (Z.shiftr grant 8)
              else Z.land (Z.shiftr x.(x_max_data) 8) 0xf in
    let payload := ztake out_len x.(x_txq) in
    let pad := replicate (Z.to_nat (n - IOS_BB_IFX_HDR - out_len)) 0 in
    ([u8 out_len; m1; m2; m3] ++ payload ++ pad, x <| x_txq ::= zdrop out_len |>).

(** One transfer of [n] bytes; a side that is [None] is a NULL pointer.  The
    result is the payload received, the frame sent and the new state. *)
Definition ios_bb_ifx_xfer (mosi : option bytes) (miso : bool) (n : Z) (x : IosBbIfx)
    : bytes * bytes * IosBbIfx :=
  let '(rx, x) := match mosi with Some m => ifx_rx (ztake n m) x | None => ([], x) end in
  if miso then let '(tx, x) := ifx_tx n x in (rx, tx, x) else (rx, [], x).

Definition ios_bb_ifx_unsent (miso : bytes) (x : IosBbIfx) : IosBbIfx :=
  let len := Z.lor (rd miso 0) (Z.shiftl (Z.land (rd miso 1) 0xf) 8) in
  if (len =? 0) || (x.(x_max_data) <? len) || (IFX_TXQ_SIZE <? zlen x.(x_txq) + len) then x
  else
    let x := x <| x_txq ::= fun q => ztake len (zdrop IOS_BB_IFX_HDR miso) ++ q |> in
    if x.(x_version) =? 2 then x <| x_credits_in ::= fun c => c + 1 |> else x.
