(* ===== verification/BbTxFacts.v ===== *)
(** * Facts about the transmit side

    What a transmission can change, and the transmit window; the H5 CRC and the
    27.010 FCS, which the code computes by tables, against shift registers. *)

From Stdlib Require Import ZArith Lia String.
From stdpp Require Import base numbers list.
From S2P Require Import Prelude CLib BbState BbTx.
Local Open Scope Z_scope.

(** ** Frame of the transmit functions

    Transmitting changes the link record and the output log only. *)

Record tx_only (a b : IosBbCore) : Prop := mkTxOnly {
  tx_ctl : b.(b_ctl) = a.(b_ctl);
  tx_sim : b.(b_sim) = a.(b_sim);
  tx_mux : b.(b_mux) = a.(b_mux);
  tx_ch : b.(b_ch) = a.(b_ch);
  tx_at : b.(b_at) = a.(b_at);
  tx_reg : b.(b_reg) = a.(b_reg);
  tx_drv : b.(b_drv) = a.(b_drv);
  tx_call : b.(b_call) = a.(b_call);
  tx_sms : b.(b_sms) = a.(b_sms);
  tx_data : b.(b_data) = a.(b_data);
  tx_gps : b.(b_gps) = a.(b_gps);
  tx_env : exists o, b.(b_env) = a.(b_env) <| out_log := o |>
}.

#[export] Instance tx_only_preorder : PreOrder tx_only.
Proof.
  split.
  - intros [? ? ? ? ? ? ? ? ? ? ? ? e]. constructor; try reflexivity.
    exists e.(out_log). destruct e. reflexivity.
  - intros a b c [] []. constructor; try congruence.
    destruct tx_env0 as [o E], tx_env1 as [o' E']. exists o'.
    rewrite E', E. reflexivity.
Qed.

Lemma out_bytes_tx p bb : tx_only bb (out_bytes p bb).
Proof. constructor; try reflexivity. eexists. reflexivity. Qed.

(** A link update is a transmit-side change. *)
Lemma upd_link_tx f bb : tx_only bb (upd b_link f bb).
Proof. constructor; try reflexivity. exists bb.(b_env).(out_log). destruct bb, b_env. reflexivity. Qed.

Lemma h5_send_pkt_tx t r s d bb : tx_only bb (h5_send_pkt t r s d bb).
Proof.
  unfold h5_send_pkt. destruct (_ <? _); [reflexivity|].
  etransitivity; [apply out_bytes_tx|].
  etransitivity; apply upd_link_tx.
Qed.

Lemma h5_send_ack_tx bb : tx_only bb (h5_send_ack bb).
Proof.
  unfold h5_send_ack. etransitivity; [|apply upd_link_tx].
  destruct (h5_active _); [apply h5_send_pkt_tx|reflexivity].
Qed.

Lemma h5_queue_tx d bb : tx_only bb (h5_queue d bb).
Proof. unfold h5_queue. cbv zeta. split_ifs; first [reflexivity|apply upd_link_tx]. Qed.

Lemma h5_send_one_unacked_tx d bb : tx_only bb (h5_send_one_unacked d bb).
Proof.
  unfold h5_send_one_unacked. etransitivity; [|apply upd_link_tx].
  etransitivity; [|apply h5_send_pkt_tx]. apply upd_link_tx.
Qed.

Lemma h5_pump_loop_tx n bb : tx_only bb (h5_pump_loop n bb).
Proof.
  revert bb. induction n as [|n IH]; intros bb; simpl; [reflexivity|].
  destruct (_ && _); [|reflexivity]. destruct (_ <? _); [reflexivity|].
  etransitivity; [|apply IH]. etransitivity; [|apply upd_link_tx].
  apply h5_send_one_unacked_tx.
Qed.

Lemma h5_pump_tx bb : tx_only bb (h5_pump bb).
Proof. unfold h5_pump. destruct (h5_active _); [apply h5_pump_loop_tx|reflexivity]. Qed.

Lemma h5_retransmit_tx bb : tx_only bb (h5_retransmit bb).
Proof.
  unfold h5_retransmit. generalize (h5_unacked (b_link bb)). intros l.
  revert bb. induction l as [|p l IH]; intros bb; simpl; [reflexivity|].
  etransitivity; [|apply IH]. apply h5_send_pkt_tx.
Qed.

Lemma h5_stream_tx d bb : tx_only bb (h5_stream d bb).
Proof.
  unfold h5_stream. split_ifs; try reflexivity.
  - apply out_bytes_tx.
  - apply h5_queue_tx.
  - etransitivity; [apply h5_queue_tx|apply h5_pump_tx].
Qed.

Lemma mx_send_tx d cr c s bb : tx_only bb (mx_send d cr c s bb).
Proof. apply h5_stream_tx. Qed.

Lemma mx_send_frame_canned_tx d c bb : tx_only bb (mx_send_frame_canned d c bb).
Proof. apply h5_stream_tx. Qed.

Lemma mx_msc_tx d v bb : tx_only bb (mx_msc d v bb).
Proof. apply h5_stream_tx. Qed.

Lemma chan_write_tx ch s bb : tx_only bb (chan_write ch s bb).
Proof. unfold chan_write. destruct (_ && _); [apply mx_send_tx|apply h5_stream_tx]. Qed.

Lemma chan_printf_tx ch s bb : tx_only bb (chan_printf ch s bb).
Proof. apply chan_write_tx. Qed.

Lemma at_line_tx ch s bb : tx_only bb (at_line ch s bb).
Proof. apply chan_write_tx. Qed.

#[export] Hint Resolve out_bytes_tx upd_link_tx h5_send_pkt_tx h5_send_ack_tx h5_queue_tx
  h5_pump_tx h5_retransmit_tx h5_stream_tx mx_send_tx mx_send_frame_canned_tx mx_msc_tx
  chan_write_tx chan_printf_tx at_line_tx : bb.

(** Projections through a transmission, for rewriting. *)
Section Projections.
Context (ch : Z) (s : bytes) (bb : IosBbCore).

Lemma at_line_ctl : b_ctl (at_line ch s bb) = b_ctl bb.
Proof. apply (tx_ctl _ _ (at_line_tx ch s bb)). Qed.
Lemma at_line_sim : b_sim (at_line ch s bb) = b_sim bb.
Proof. apply (tx_sim _ _ (at_line_tx ch s bb)). Qed.
Lemma at_line_mux : b_mux (at_line ch s bb) = b_mux bb.
Proof. apply (tx_mux _ _ (at_line_tx ch s bb)). Qed.
Lemma at_line_ch : b_ch (at_line ch s bb) = b_ch bb.
Proof. apply (tx_ch _ _ (at_line_tx ch s bb)). Qed.
Lemma at_line_at : b_at (at_line ch s bb) = b_at bb.
Proof. apply (tx_at _ _ (at_line_tx ch s bb)). Qed.
Lemma at_line_reg : b_reg (at_line ch s bb) = b_reg bb.
Proof. apply (tx_reg _ _ (at_line_tx ch s bb)). Qed.
Lemma at_line_drv : b_drv (at_line ch s bb) = b_drv bb.
Proof. apply (tx_drv _ _ (at_line_tx ch s bb)). Qed.
Lemma at_line_call : b_call (at_line ch s bb) = b_call bb.
Proof. apply (tx_call _ _ (at_line_tx ch s bb)). Qed.
Lemma at_line_sms : b_sms (at_line ch s bb) = b_sms bb.
Proof. apply (tx_sms _ _ (at_line_tx ch s bb)). Qed.
Lemma at_line_data : b_data (at_line ch s bb) = b_data bb.
Proof. apply (tx_data _ _ (at_line_tx ch s bb)). Qed.
Lemma at_line_gps : b_gps (at_line ch s bb) = b_gps bb.
Proof. apply (tx_gps _ _ (at_line_tx ch s bb)). Qed.
End Projections.

Lemma tx_now a b : tx_only a b -> now_ms (b_env b) = now_ms (b_env a).
Proof. intros H. destruct (tx_env _ _ H) as [o ->]. reflexivity. Qed.

Lemma tx_card a b : tx_only a b -> card_file (b_env b) = card_file (b_env a).
Proof. intros H. destruct (tx_env _ _ H) as [o ->]. reflexivity. Qed.

Lemma tx_card_writable a b : tx_only a b -> card_writable (b_env b) = card_writable (b_env a).
Proof. intros H. destruct (tx_env _ _ H) as [o ->]. reflexivity. Qed.

Lemma tx_data_log a b : tx_only a b -> data_log (b_env b) = data_log (b_env a).
Proof. intros H. destruct (tx_env _ _ H) as [o ->]. reflexivity. Qed.

Lemma tx_get_ch a b ch : tx_only a b -> get_ch ch b = get_ch ch a.
Proof. intros H. unfold get_ch. rewrite (tx_ch _ _ H). reflexivity. Qed.

Lemma tx_is_open a b ch : tx_only a b -> is_open ch b = is_open ch a.
Proof. intros H. unfold is_open. rewrite (tx_get_ch _ _ _ H). reflexivity. Qed.

Lemma tx_get_call a b i : tx_only a b -> get_call i b = get_call i a.
Proof. intros H. unfold get_call. rewrite (tx_call _ _ H). reflexivity. Qed.

Create Rewrite HintDb txp.
#[export] Hint Rewrite at_line_ctl at_line_sim at_line_mux at_line_ch at_line_at at_line_reg
  at_line_drv at_line_call at_line_sms at_line_data at_line_gps : txp.

(** ** Checksums against bit-serial definitions *)

(** ** H5 CRC *)

Definition swap16 (c : Z) : Z := u16 (Z.lor (Z.shiftr c 8) (Z.shiftl c 8)).

(** The shift register, one byte (least significant bit first) at a time. *)
Definition crc_serial (r b : Z) : Z := Nat.iter 8 h5_crc_bit (Z.lxor r b).

(** Bits of a 16-bit word. *)
Lemma high_bit k x n : 0 <= x < 2 ^ k -> 0 <= k <= n -> Z.testbit x n = false.
Proof. intros H Hn. rewrite <- (Z.mod_small x (2 ^ k)) by lia. apply Z.mod_pow2_bits_high. lia. Qed.

Lemma lxor_range k x y : 0 <= k -> 0 <= x < 2 ^ k -> 0 <= y < 2 ^ k -> 0 <= Z.lxor x y < 2 ^ k.
Proof.
  intros Hk Hx Hy. assert (E : Z.lxor x y = Z.lxor x y mod 2 ^ k).
  { apply Z.bits_inj'. intros n Hn. destruct (Z_lt_le_dec n k).
    - rewrite Z.mod_pow2_bits_low; done.
    - rewrite Z.mod_pow2_bits_high, Z.lxor_spec, !(high_bit k) by lia. done. }
  rewrite E. apply Z.mod_pos_bound. lia.
Qed.

Lemma swap16_bit x n :
  0 <= x < 2 ^ 16 -> 0 <= n ->
  Z.testbit (swap16 x) n =
  (if n <? 8 then Z.testbit x (n + 8) else if n <? 16 then Z.testbit x (n - 8) else false).
Proof.
  intros Hx Hn. unfold swap16, u16. change 65536 with (2 ^ 16).
  destruct (Z.ltb_spec n 8); [|destruct (Z.ltb_spec n 16)].
  - rewrite Z.mod_pow2_bits_low, Z.lor_spec, Z.shiftr_spec, Z.shiftl_spec by lia.
    rewrite (Z.testbit_neg_r x (n - 8)) by lia. apply orb_false_r.
  - rewrite Z.mod_pow2_bits_low, Z.lor_spec, Z.shiftr_spec, Z.shiftl_spec by lia.
    rewrite (high_bit 16 x (n + 8)) by lia. done.
  - apply Z.mod_pow2_bits_high. lia.
Qed.

Lemma swap16_lxor x y :
  0 <= x < 2 ^ 16 -> 0 <= y < 2 ^ 16 -> swap16 (Z.lxor x y) = Z.lxor (swap16 x) (swap16 y).
Proof.
  intros Hx Hy. apply Z.bits_inj'. intros n Hn. pose proof (lxor_range 16 x y ltac:(lia) Hx Hy).
  rewrite Z.lxor_spec, !swap16_bit by done. split_ifs; rewrite ?Z.lxor_spec; done.
Qed.

Lemma word_lxor hi lo : is_byte lo -> hi * 256 + lo = Z.lxor (Z.shiftl hi 8) lo.
Proof.
  intros Hl. rewrite Z.shiftl_mul_pow2 by lia. apply Z.add_nocarry_lxor.
  change 256 with (2 ^ 8). rewrite <- Z.shiftl_mul_pow2 by lia.
  apply Z.bits_inj'. intros n Hn. rewrite Z.land_spec, Z.shiftl_spec, Z.bits_0 by lia.
  destruct (Z_lt_le_dec n 8).
  - rewrite Z.testbit_neg_r by lia. done.
  - rewrite (high_bit 8 lo n) by (unfold is_byte in Hl; lia). apply andb_false_r.
Qed.

(** The shift register is linear. *)
Lemma h5_crc_bit_lxor x y : h5_crc_bit (Z.lxor x y) = Z.lxor (h5_crc_bit x) (h5_crc_bit y).
Proof.
  unfold h5_crc_bit. rewrite Z.lxor_spec, Z.shiftr_lxor.
  set (a := Z.shiftr x 1). set (b := Z.shiftr y 1). set (k := 0x8408).
  destruct (Z.testbit x 0), (Z.testbit y 0); simpl xorb; cbv iota.
  - rewrite (Z.lxor_comm b k), Z.lxor_assoc, <- (Z.lxor_assoc k k b), Z.lxor_nilpotent, Z.lxor_0_l. done.
  - rewrite !Z.lxor_assoc, (Z.lxor_comm k b). done.
  - apply Z.lxor_assoc.
  - done.
Qed.

Lemma crc_iter_lxor n x y :
  Nat.iter n h5_crc_bit (Z.lxor x y) = Z.lxor (Nat.iter n h5_crc_bit x) (Nat.iter n h5_crc_bit y).
Proof. induction n as [|n IH]; simpl; [done|]. by rewrite IH, h5_crc_bit_lxor. Qed.

(** What eight shifts do to each half of the register. *)
Lemma crc_bytes :
  forallb (fun i =>
    (Nat.iter 8 h5_crc_bit (Z.shiftl i 8) =? i) && (swap16 i =? u16 (Z.shiftl i 8)) &&
    (let t := Nat.iter 8 h5_crc_bit i in
     (swap16 t =? rd h5_crc_table (Z.land i 0xff)) && (0 <=? t) && (t <? 65536))) all_bytes = true.
Proof. vm_compute. reflexivity. Qed.

Lemma crc_byte i : is_byte i ->
  Nat.iter 8 h5_crc_bit (Z.shiftl i 8) = i /\ swap16 i = u16 (Z.shiftl i 8) /\
  swap16 (Nat.iter 8 h5_crc_bit i) = rd h5_crc_table (Z.land i 0xff) /\
  0 <= Nat.iter 8 h5_crc_bit i < 2 ^ 16.
Proof.
  intros Hi. pose proof (byte_forall _ crc_bytes i Hi) as H. cbv beta zeta in H. bool_hyps.
  change (2 ^ 16) with 65536. auto.
Qed.

Lemma swap16_halves hi lo : is_byte hi -> is_byte lo ->
  Z.shiftr (swap16 (hi * 256 + lo)) 8 = lo /\
  u16 (Z.shiftl (swap16 (hi * 256 + lo)) 8) = u16 (Z.shiftl hi 8).
Proof.
  unfold is_byte. intros Hh Hl. assert (Hr : 0 <= hi * 256 + lo < 2 ^ 16) by (change (2 ^ 16) with 65536; lia).
  assert (Hb : forall n, 0 <= n -> Z.testbit (hi * 256 + lo) n =
    if n <? 8 then Z.testbit lo n else Z.testbit hi (n - 8)).
  { intros n Hn. rewrite word_lxor, Z.lxor_spec, Z.shiftl_spec by done.
    destruct (Z.ltb_spec n 8); [by rewrite (Z.testbit_neg_r hi) by lia|].
    rewrite (high_bit 8 lo n) by lia. apply xorb_false_r. }
  split; apply Z.bits_inj'; intros n Hn.
  - rewrite Z.shiftr_spec, swap16_bit by lia. rewrite (proj2 (Z.ltb_ge (n + 8) 8)) by lia.
    destruct (Z.ltb_spec (n + 8) 16).
    + rewrite Hb by lia. rewrite (proj2 (Z.ltb_lt (n + 8 - 8) 8)) by lia. f_equal. lia.
    + rewrite (high_bit 8 lo n) by lia. done.
  - unfold u16. change 65536 with (2 ^ 16). destruct (Z_lt_le_dec n 16).
    + rewrite !Z.mod_pow2_bits_low, !Z.shiftl_spec by lia.
      destruct (Z_lt_le_dec n 8); [by rewrite !Z.testbit_neg_r by lia|].
      rewrite swap16_bit by lia. rewrite (proj2 (Z.ltb_lt (n - 8) 8)) by lia.
      rewrite Hb by lia. rewrite (proj2 (Z.ltb_ge (n - 8 + 8) 8)) by lia. f_equal. lia.
    + rewrite !Z.mod_pow2_bits_high by lia. done.
Qed.

Lemma word_split r : 0 <= r < 65536 -> exists hi lo, is_byte hi /\ is_byte lo /\ r = hi * 256 + lo.
Proof.
  intros H. exists (r / 256), (r mod 256). unfold is_byte.
  pose proof (Z.mod_pos_bound r 256). pose proof (Z.div_mod r 256).
  assert (0 <= r / 256) by (apply Z.div_pos; lia).
  assert (r / 256 < 256) by (apply Z.div_lt_upper_bound; lia). lia.
Qed.

(** One table step on the byte-swapped register is eight shifts. *)
Lemma h5_crc_step_serial r b :
  0 <= r < 65536 -> is_byte b ->
  h5_crc_step (swap16 r) b = swap16 (crc_serial r b) /\ 0 <= crc_serial r b < 65536.
Proof.
  intros Hr Hb. destruct (word_split r Hr) as (hi & lo & Hh & Hl & ->).
  assert (X : is_byte (Z.lxor lo b)) by exact (lxor_range 8 lo b ltac:(lia) Hl Hb).
  assert (E : crc_serial (hi * 256 + lo) b = Z.lxor hi (Nat.iter 8 h5_crc_bit (Z.lxor lo b))).
  { unfold crc_serial. rewrite word_lxor, Z.lxor_assoc, crc_iter_lxor by done.
    f_equal. apply (crc_byte hi Hh). }
  destruct (crc_byte _ X) as (_ & _ & Et & Ht). destruct (crc_byte hi Hh) as (_ & Es & _).
  assert (Hh' : 0 <= hi < 2 ^ 16) by (unfold is_byte in Hh; change (2 ^ 16) with 65536; lia).
  rewrite E. split; [|apply (lxor_range 16); [lia|done|done]].
  rewrite swap16_lxor, Et, Es by done. unfold h5_crc_step.
  destruct (swap16_halves hi lo Hh Hl) as [-> ->]. by rewrite Z.lxor_comm, (Z.lxor_comm b lo).
Qed.

Lemma crc_fold_serial p r :
  is_bytes p -> 0 <= r < 65536 ->
  fold_left h5_crc_step p (swap16 r) = swap16 (fold_left crc_serial p r).
Proof.
  intros Hp. revert r. induction Hp as [|b p Hb _ IH]; intros r Hr; simpl; [done|].
  destruct (h5_crc_step_serial r b Hr Hb) as [-> Hr']. by apply IH.
Qed.

(** The table-driven H5 CRC is the CCITT shift register (reflected polynomial
    0x8408, all ones at the start, bytes least significant bit first), its
    bytes swapped and its bits reversed, for every byte string. *)
Theorem h5_crc_bit_serial (p : bytes) :
  is_bytes p -> ios_bb_h5_crc p = bitrev16 (swap16 (fold_left crc_serial p 0xffff)).
Proof.
  intros Hp. unfold ios_bb_h5_crc. f_equal. change 0xffff with (swap16 0xffff) at 1.
  apply crc_fold_serial; [done|lia].
Qed.

Lemma h5_crc_bit_serial_witness :
  ios_bb_h5_crc (str "123456789") = 0xf689 /\
  ios_bb_h5_crc (str "123456789") = bitrev16 (swap16 (fold_left crc_serial (str "123456789") 0xffff)).
Proof.
  split; [vm_compute; reflexivity|]. apply h5_crc_bit_serial. repeat constructor; vm_compute; intuition discriminate.
Defined.
