(* ===== verification/BbPduFacts.v ===== *)
(** * Round trips of the SMS codings *)

From Stdlib Require Import ZArith Lia String.
From stdpp Require Import base numbers list.
From S2P Require Import Prelude CLib BbPdu.
Local Open Scope Z_scope.

(** ** Hexadecimal *)

Lemma hex_digit_hexdig_hi b : is_byte b -> hex_digit (hexdig (Z.shiftr b 4)) = Z.shiftr b 4.
Proof.
  intros Hb. apply Z.eqb_eq. revert b Hb.
  apply (byte_forall (fun b => hex_digit (hexdig (Z.shiftr b 4)) =? Z.shiftr b 4)).
  vm_compute. reflexivity.
Qed.

Lemma hex_digit_hexdig_lo b : is_byte b -> hex_digit (hexdig (Z.land b 0xf)) = Z.land b 0xf.
Proof.
  intros Hb. apply Z.eqb_eq. revert b Hb.
  apply (byte_forall (fun b => hex_digit (hexdig (Z.land b 0xf)) =? Z.land b 0xf)).
  vm_compute. reflexivity.
Qed.

(** Two nibbles of a byte put together again. *)
Lemma nibbles_byte b : is_byte b ->
  (Z.shiftr b 4 =? 0xffff) = false /\ (Z.land b 0xf =? 0xffff) = false /\
  u8 (Z.lor (Z.shiftl (Z.shiftr b 4) 4) (Z.land b 0xf)) = b.
Proof.
  intros Hb.
  pose proof (byte_forall (fun b => negb (Z.shiftr b 4 =? 0xffff) && negb (Z.land b 0xf =? 0xffff)
    && (u8 (Z.lor (Z.shiftl (Z.shiftr b 4) 4) (Z.land b 0xf)) =? b)) eq_refl b Hb) as H.
  cbv beta in H. bool_hyps. rewrite !Z.eqb_neq. auto.
Qed.

Lemma hex_roundtrip_from l n max :
  is_bytes l -> n + zlen l <= max -> hex_nibbles (bytes_to_hex l) n max = l.
Proof.
  intros Hl. revert n. induction Hl as [|b l Hb _ IH]; intros n Hn; [done|].
  rewrite zlen_cons in Hn. pose proof (zlen_nonneg l).
  unfold bytes_to_hex. simpl.
  destruct (Z.ltb_spec n max); [|lia].
  rewrite hex_digit_hexdig_hi, hex_digit_hexdig_lo by done.
  destruct (nibbles_byte b Hb) as (-> & -> & ->).
  f_equal. apply IH. lia.
Qed.

Lemma bytes_to_hex_cons b l :
  bytes_to_hex (b :: l) = hexdig (Z.shiftr b 4) :: hexdig (Z.land b 0xf) :: bytes_to_hex l.
Proof. reflexivity. Qed.

Lemma zlen_bytes_to_hex l : zlen (bytes_to_hex l) = 2 * zlen l.
Proof.
  induction l as [|b l IH]; [done|]. rewrite bytes_to_hex_cons, !zlen_cons, IH. lia.
Qed.

(** ** Semi-octets *)

Lemma semi_pair c d : is_digit c = true -> is_digit d = true ->
  let b := u8 (Z.lor (Z.shiftl (d - 48) 4) (c - 48)) in
  Z.land b 0xf = c - 48 /\ Z.shiftr b 4 = d - 48.
Proof.
  intros Hc Hd. apply is_digit_spec in Hc, Hd.
  pose proof (byte_forall2 (fun c d =>
    negb (is_digit c && is_digit d) ||
    (let b := u8 (Z.lor (Z.shiftl (d - 48) 4) (c - 48)) in
     (Z.land b 0xf =? c - 48) && (Z.shiftr b 4 =? d - 48)))) as H.
  specialize (H ltac:(vm_compute; reflexivity) c d).
  unfold is_byte in H. specialize (H ltac:(lia) ltac:(lia)).
  apply orb_prop in H as [H|H].
  - apply negb_true_iff, andb_false_iff in H.
    destruct H as [H|H]; apply not_true_iff_false in H; exfalso; apply H, is_digit_spec; lia.
  - cbv zeta in H |- *. bool_hyps. auto.
Qed.

Lemma semi_last c : is_digit c = true ->
  let b := u8 (Z.lor (Z.shiftl 0xf 4) (c - 48)) in
  Z.land b 0xf = c - 48 /\ Z.shiftr b 4 = 15.
Proof.
  intros Hc. apply is_digit_spec in Hc.
  pose proof (byte_forall (fun c =>
    negb (is_digit c) ||
    (let b := u8 (Z.lor (Z.shiftl 0xf 4) (c - 48)) in
     (Z.land b 0xf =? c - 48) && (Z.shiftr b 4 =? 15)))) as H.
  specialize (H ltac:(vm_compute; reflexivity) c ltac:(unfold is_byte; lia)).
  apply orb_prop in H as [H|H].
  - apply negb_true_iff, not_true_iff_false in H. exfalso. apply H, is_digit_spec. lia.
  - cbv zeta in H |- *. bool_hyps. auto.
Qed.

Lemma semi_loop_digits d n out max omax :
  all_digits d = true -> zlen d <= 2 * (max - n) -> zlen out + zlen d + 1 < omax ->
  semi_loop (digits_to_semi d n max) out omax = out ++ d.
Proof.
  remember (length d) as k eqn:Hk. revert d Hk n out.
  induction k as [k IH] using lt_wf_ind. intros d Hk n out Hd Hmax Hout.
  destruct d as [|c t]; simpl; [by rewrite app_nil_r|].
  simpl in Hd. apply andb_prop in Hd as [Hc Ht].
  rewrite zlen_cons in Hmax, Hout. pose proof (zlen_nonneg t). pose proof (zlen_nonneg out).
  destruct (Z.ltb_spec n max); [|lia].
  pose proof (proj1 (is_digit_spec c) Hc).
  destruct t as [|d t2].
  - destruct (semi_last c Hc) as [E1 E2]. cbv zeta in E1, E2. simpl.
    destruct (Z.ltb_spec (zlen out + 2) omax) as [_|Hge].
    2: { rewrite zlen_nil in Hout. lia. }
    rewrite E1, E2. destruct (Z.ltb_spec (c - 48) 10); [|lia]. simpl.
    do 2 f_equal. lia.
  - simpl in Ht. apply andb_prop in Ht as [Hd Ht]. rewrite Hd.
    pose proof (proj1 (is_digit_spec d) Hd).
    rewrite zlen_cons in Hmax, Hout. pose proof (zlen_nonneg t2).
    destruct (semi_pair c d Hc Hd) as [E1 E2]. cbv zeta in E1, E2. simpl.
    destruct (Z.ltb_spec (zlen out + 2) omax); [|lia].
    rewrite E1, E2.
    destruct (Z.ltb_spec (c - 48) 10); [|lia]. destruct (Z.ltb_spec (d - 48) 10); [|lia].
    replace (48 + (c - 48)) with c by lia. replace (48 + (d - 48)) with d by lia.
    rewrite (IH (length t2)); [|simpl in Hk; lia|done|done|lia|].
    + rewrite <- !app_assoc. reflexivity.
    + rewrite !zlen_app, !zlen_cons, zlen_nil. lia.
Qed.

Lemma zlen_digits_to_semi_le d n max : n <= max -> zlen (digits_to_semi d n max) <= max - n.
Proof.
  remember (length d) as k eqn:Hk. revert d Hk n.
  induction k as [k IH] using lt_wf_ind. intros d Hk n Hn.
  destruct d as [|c t]; simpl; [rewrite zlen_nil; lia|].
  destruct (Z.ltb_spec n max); [|rewrite zlen_nil; lia].
  destruct t as [|e t2]; [rewrite zlen_cons, zlen_nil; lia|].
  destruct (is_digit e); rewrite zlen_cons; simpl in Hk.
  - specialize (IH (length t2) ltac:(lia) t2 eq_refl (n + 1) ltac:(lia)). lia.
  - specialize (IH (length (e :: t2)) ltac:(simpl; lia) (e :: t2) eq_refl (n + 1) ltac:(lia)). lia.
Qed.

Lemma zlen_digits_to_semi d n max :
  all_digits d = true -> zlen d <= 2 * (max - n) ->
  zlen (digits_to_semi d n max) = (zlen d + 1) / 2.
Proof.
  remember (length d) as k eqn:Hk. revert d Hk n.
  induction k as [k IH] using lt_wf_ind. intros d Hk n Hd Hmax.
  destruct d as [|c t]; simpl; [done|].
  rewrite zlen_cons in *. pose proof (zlen_nonneg t).
  destruct (Z.ltb_spec n max); [|lia].
  destruct t as [|e t2]; [done|].
  simpl in Hd. apply andb_prop in Hd as [_ Hd]. apply andb_prop in Hd as [He Ht]. rewrite He.
  rewrite !zlen_cons in *. pose proof (zlen_nonneg t2).
  rewrite (IH (length t2)); [|simpl in Hk; lia|done|done|lia].
  replace (zlen t2 + 1 + 1 + 1) with (zlen t2 + 1 + 1 * 2) by lia.
  rewrite Z.div_add by lia. reflexivity.
Qed.

(** ** UCS2 *)

(** A unit of text that is not NUL. *)
Definition is_unit (c : Z) : Prop := 0 < c < 0x10000.

Definition utf8_text (cs : list Z) : bytes := concat (utf8_unit <$> cs).

Definition ucs2_octets (cs : list Z) : bytes :=
  concat ((fun c => [Z.shiftr c 8; Z.land c 0xff]) <$> cs).

Lemma ucs2_octets_cons c cs :
  ucs2_octets (c :: cs) = Z.shiftr c 8 :: Z.land c 0xff :: ucs2_octets cs.
Proof. reflexivity. Qed.

Lemma zlen_ucs2_octets cs : zlen (ucs2_octets cs) = 2 * zlen cs.
Proof.
  induction cs as [|c cs IH]; [done|]. rewrite ucs2_octets_cons, !zlen_cons, IH. lia.
Qed.

(** What the decoder computes on the bytes of one unit. *)
Definition unit_ok (c : Z) : bool :=
  (Z.lor (Z.shiftl (Z.shiftr c 8) 8) (Z.land c 0xff) =? c) &&
  match utf8_unit c with
  | [a] => (a <? 0x80) && (a =? c)
  | [a; b] =>
      negb (a <? 0x80) && negb (Z.land a 0xf0 =? 0xe0) && (Z.land a 0xe0 =? 0xc0) &&
      (Z.lor (Z.shiftl (Z.land a 0x1f) 6) (Z.land b 0x3f) =? c)
  | [a; b; d] =>
      negb (a <? 0x80) && (Z.land a 0xf0 =? 0xe0) && negb (Z.land a 0xe0 =? 0xc0) &&
      (Z.lor (Z.lor (Z.shiftl (Z.land a 0x0f) 12) (Z.shiftl (Z.land b 0x3f) 6)) (Z.land d 0x3f) =? c)
  | _ => false
  end.

Lemma unit_ok_all c : 0 <= c < 65536 -> unit_ok c = true.
Proof. revert c. apply u16_forall. vm_compute. reflexivity. Qed.

Lemma utf8_unit_len c : 1 <= zlen (utf8_unit c) <= 3.
Proof. unfold utf8_unit. split_ifs; rewrite !zlen_cons, zlen_nil; lia. Qed.

Lemma zlen_utf8_text cs : zlen cs <= zlen (utf8_text cs) <= 3 * zlen cs.
Proof.
  induction cs as [|c cs IH]; [done|].
  change (utf8_text (c :: cs)) with (utf8_unit c ++ utf8_text cs).
  rewrite zlen_app, zlen_cons. pose proof (utf8_unit_len c). lia.
Qed.

Lemma utf8_to_ucs2be_unit c rest no max :
  0 <= c < 65536 -> no + 2 <= max ->
  utf8_to_ucs2be (utf8_unit c ++ rest) no max =
  Z.shiftr c 8 :: Z.land c 0xff :: utf8_to_ucs2be rest (no + 2) max.
Proof.
  intros Hc Hno. pose proof (unit_ok_all c Hc) as H. unfold unit_ok in H.
  apply andb_prop in H as [_ H].
  destruct (utf8_unit c) as [|a [|b [|d [|]]]]; try done; simpl.
  - bool_hyps. destruct (Z.ltb_spec max (no + 2)); [lia|].
    destruct (Z.ltb_spec a 0x80); [|lia]. subst a. reflexivity.
  - destruct (Z.ltb_spec max (no + 2)); [lia|].
    destruct (a <? 0x80); [done|]. destruct (Z.land a 0xf0 =? 0xe0); [done|]. simpl in H |- *.
    destruct (Z.land a 0xe0 =? 0xc0); [|done]. simpl in H. apply Z.eqb_eq in H.
    rewrite H. reflexivity.
  - destruct (Z.ltb_spec max (no + 2)); [lia|].
    destruct (a <? 0x80); [done|]. destruct (Z.land a 0xf0 =? 0xe0); [|done]. simpl in H |- *.
    destruct (Z.land a 0xe0 =? 0xc0); [done|]. simpl in H. apply Z.eqb_eq in H.
    rewrite H. reflexivity.
Qed.

Lemma utf8_to_ucs2be_text cs no max :
  Forall (fun c => 0 <= c < 65536) cs -> no + 2 * zlen cs <= max ->
  utf8_to_ucs2be (utf8_text cs) no max = ucs2_octets cs.
Proof.
  intros Hcs. revert no. induction Hcs as [|c cs Hc _ IH]; intros no Hno; [done|].
  rewrite zlen_cons in Hno. pose proof (zlen_nonneg cs).
  change (utf8_text (c :: cs)) with (utf8_unit c ++ utf8_text cs).
  rewrite utf8_to_ucs2be_unit by lia. rewrite ucs2_octets_cons, IH by lia. reflexivity.
Qed.

Lemma ucs2be_loop_text cs out max :
  Forall (fun c => 0 <= c < 65536) cs -> zlen out + zlen (utf8_text cs) + 3 <= max ->
  ucs2be_loop (ucs2_octets cs) out max = out ++ utf8_text cs.
Proof.
  intros Hcs. revert out. induction Hcs as [|c cs Hc _ IH]; intros out Hout.
  { simpl. by rewrite app_nil_r. }
  change (utf8_text (c :: cs)) with (utf8_unit c ++ utf8_text cs) in *.
  rewrite zlen_app in Hout. pose proof (utf8_unit_len c). pose proof (zlen_nonneg (utf8_text cs)).
  rewrite ucs2_octets_cons. simpl. destruct (Z.ltb_spec (zlen out + 3) max); [|lia].
  pose proof (unit_ok_all c Hc) as Hu. unfold unit_ok in Hu. apply andb_prop in Hu as [Hu _].
  apply Z.eqb_eq in Hu. rewrite Hu, IH; [by rewrite <- app_assoc|].
  rewrite zlen_app. lia.
Qed.
