(* ===== verification/BbGsm7Facts.v ===== *)
(** * The GSM 03.38 round trip

    Text made of alphabet entries comes back from packing and unpacking; the
    entry at position 27 does not, because its septet is the escape code.  Then what
    a phone with the alphabet of TS 23.038 shows for the septets the modem packs. *)

From Stdlib Require Import ZArith Lia String.
From stdpp Require Import base numbers list.
From S2P Require Import Prelude CLib BbPdu BbPduFacts.
Local Open Scope Z_scope.

(** ** Symbols of the alphabet *)

Inductive sym :=
| Main (i : nat)
| Ext (j : nat).

Definition sym_text (s : sym) : bytes :=
  match s with
  | Main i => default [] (gsm7_main !! i)
  | Ext j => default [] (fst <$> gsm7_ext !! j)
  end.

Definition sym_septets (s : sym) : list Z :=
  match s with
  | Main i => [Z.of_nat i]
  | Ext j => [0x1b; default 0 (snd <$> gsm7_ext !! j)]
  end.

(** The symbols that survive: not the duplicate space at 31 and not the entry
    at 27, whose septet is the escape code. *)
Definition sym_ok (s : sym) : bool :=
  match s with
  | Main i => Nat.ltb i 128 && negb (Nat.eqb i 27) && negb (Nat.eqb i 31)
  | Ext j => Nat.ltb j 8
  end.

Definition syms_text (l : list sym) : bytes := concat (sym_text <$> l).
Definition syms_septets (l : list sym) : list Z := concat (sym_septets <$> l).

(** ** Lookup *)

Lemma starts_with_overlap p q r :
  starts_with p (q ++ r) = true -> starts_with p q = true \/ starts_with q p = true.
Proof.
  revert q. induction p as [|a p IH]; intros q H; [by left|].
  destruct q as [|b q]; [by right|]. simpl in *.
  apply andb_prop in H as [Hab H]. rewrite Hab. apply Z.eqb_eq in Hab. subst b.
  rewrite Z.eqb_refl. simpl. apply IH, H.
Qed.

(** Two different entries of the tables never overlap at the head. *)
Definition disjoint_heads (p q : bytes) : bool :=
  negb (starts_with p q) && negb (starts_with q p).

Lemma disjoint_heads_app p q r : disjoint_heads p q = true -> starts_with p (q ++ r) = false.
Proof.
  intros H. apply not_true_iff_false. intros E. apply starts_with_overlap in E.
  unfold disjoint_heads in H. bool_hyps. destruct E; congruence.
Qed.

Lemma lookup_main_skip tbl base s :
  (forall k e, tbl !! k = Some e -> base + Z.of_nat k <> 31 -> starts_with e s = false) ->
  lookup_main tbl base s = None.
Proof.
  revert base. induction tbl as [|e t IH]; intros base H; simpl; [done|].
  rewrite IH.
  - destruct (Z.eqb_spec base 31); [done|].
    rewrite (H 0%nat e); [done|done|lia].
  - intros k e' Hk Hne. apply (H (S k)); [done|lia].
Qed.

Lemma lookup_main_first tbl base k e s :
  tbl !! k = Some e -> base + Z.of_nat k <> 31 -> starts_with e s = true ->
  (forall k' e', (k' < k)%nat -> tbl !! k' = Some e' -> base + Z.of_nat k' <> 31 ->
     starts_with e' s = false) ->
  lookup_main tbl base s = Some (base + Z.of_nat k, zlen e).
Proof.
  revert base k. induction tbl as [|e0 t IH]; intros base k Hk Hne Hs Hlt; [done|].
  simpl. destruct k as [|k].
  - simplify_eq/=. rewrite Hs. destruct (Z.eqb_spec base 31); [lia|].
    do 2 f_equal. lia.
  - simpl in Hk.
    assert (E : lookup_main t (base + 1) s = Some (base + Z.of_nat (S k), zlen e)).
    { rewrite (IH (base + 1) k); [do 2 f_equal; lia|done|lia|done|].
      intros k' e' Hk' He' Hne'. apply (Hlt (S k') e'); [lia|done|lia]. }
    destruct (Z.eqb_spec base 31); [done|].
    rewrite (Hlt 0%nat e0); [done|lia|done|lia].
Qed.

Lemma main_disjoint_true :
  forallb (fun i => forallb (fun k =>
    Nat.eqb i k || Nat.eqb i 31 || Nat.eqb k 31 ||
    disjoint_heads (sym_text (Main k)) (sym_text (Main i)))
    (seq 0 128)) (seq 0 128) = true.
Proof. vm_compute. reflexivity. Qed.

Lemma ext_disjoint_true :
  forallb (fun j =>
    forallb (fun k => Nat.eqb k 31 ||
      disjoint_heads (sym_text (Main k)) (sym_text (Ext j))) (seq 0 128) &&
    forallb (fun k => Nat.eqb j k ||
      disjoint_heads (sym_text (Ext k)) (sym_text (Ext j))) (seq 0 8)) (seq 0 8) = true.
Proof. vm_compute. reflexivity. Qed.

Lemma forallb_seq P n k : forallb P (seq 0 n) = true -> (k < n)%nat -> P k = true.
Proof.
  rewrite forallb_forall. intros H Hk. apply H, list_elem_of_In, elem_of_seq. lia.
Qed.

Lemma sym_text_main i e : gsm7_main !! i = Some e -> sym_text (Main i) = e.
Proof. intros E. exact (f_equal (default []) E). Qed.

Lemma gsm7_lookup_main i rest :
  sym_ok (Main i) = true ->
  gsm7_lookup (sym_text (Main i) ++ rest) = Some (Z.of_nat i, zlen (sym_text (Main i))).
Proof.
  intros Hi. simpl in Hi. bool_hyps.
  apply Nat.ltb_lt in H. apply Nat.eqb_neq in H1, H0.
  destruct (gsm7_main !! i) as [e|] eqn:E.
  2: { apply lookup_ge_None in E. simpl in E. lia. }
  unfold gsm7_lookup. rewrite (sym_text_main i e E).
  rewrite (lookup_main_first _ 0 i e); [done|done|lia|apply starts_with_app|].
  intros k' e' Hk' He' Hne.
  pose proof main_disjoint_true as D.
  apply (forallb_seq _ _ i) in D; [|done]. apply (forallb_seq _ _ k') in D; [|lia].
  cbv beta in D. rewrite (sym_text_main _ _ He'), (sym_text_main _ _ E) in D.
  apply disjoint_heads_app.
  destruct (Nat.eqb_spec i k'); [lia|]. destruct (Nat.eqb_spec i 31); [lia|].
  destruct (Nat.eqb_spec k' 31); [lia|]. exact D.
Qed.

Lemma gsm7_lookup_ext j rest :
  sym_ok (Ext j) = true ->
  gsm7_lookup (sym_text (Ext j) ++ rest) =
  Some (Z.lor 0x100 (default 0 (snd <$> gsm7_ext !! j)), zlen (sym_text (Ext j))).
Proof.
  intros Hj. simpl in Hj. apply Nat.ltb_lt in Hj.
  pose proof (forallb_seq _ 8 j ext_disjoint_true Hj) as D.
  cbv beta in D. apply andb_prop in D as [D _].
  unfold gsm7_lookup. rewrite lookup_main_skip.
  - clear D. do 8 (destruct j as [|j]; [reflexivity|]). lia.
  - intros k e Hk Hne. apply disjoint_heads_app.
    assert (Hlt : (k < 128)%nat) by (apply lookup_lt_Some in Hk; exact Hk).
    pose proof (forallb_seq _ _ k D Hlt) as Dk. cbv beta in Dk. rewrite (sym_text_main _ _ Hk) in Dk.
    destruct (Nat.eqb_spec k 31); [lia|]. exact Dk.
Qed.

(** ** Septets *)

Lemma main_lengths_true :
  forallb (fun i => Nat.leb 1 (length (sym_text (Main i))) &&
                    Nat.leb (length (sym_text (Main i))) 2) (seq 0 128) = true.
Proof. vm_compute. reflexivity. Qed.

Lemma sym_text_len s :
  sym_ok s = true -> 1 <= zlen (sym_text s) <= 2 * zlen (sym_septets s).
Proof.
  destruct s as [i|j]; intros H.
  - simpl in H. bool_hyps. apply Nat.ltb_lt in H.
    pose proof (forallb_seq _ 128 i main_lengths_true H) as L. cbv beta in L.
    apply andb_prop in L as [L1 L2]. apply Nat.leb_le in L1, L2.
    unfold zlen. change (length (sym_septets (Main i))) with 1%nat. lia.
  - simpl in H. apply Nat.ltb_lt in H.
    do 8 (destruct j as [|j]; [vm_compute; split; discriminate|]). lia.
Qed.

Lemma syms_text_len l :
  forallb sym_ok l = true -> zlen l <= zlen (syms_text l) <= 2 * zlen (syms_septets l).
Proof.
  induction l as [|s l IH]; intros H; [done|].
  simpl in H. apply andb_prop in H as [Hs H]. specialize (IH H).
  change (syms_text (s :: l)) with (sym_text s ++ syms_text l).
  change (syms_septets (s :: l)) with (sym_septets s ++ syms_septets l).
  rewrite !zlen_app, zlen_cons. pose proof (sym_text_len s Hs). lia.
Qed.

Lemma septets_loop_syms l fuel ns :
  forallb sym_ok l = true -> (length (syms_text l) <= fuel)%nat ->
  ns + zlen (syms_septets l) + 1 < 512 ->
  septets_loop fuel (syms_text l) ns = syms_septets l.
Proof.
  revert fuel ns. induction l as [|s l IH]; intros fuel ns H Hf Hn.
  { destruct fuel; reflexivity. }
  simpl in H. apply andb_prop in H as [Hs H].
  change (syms_text (s :: l)) with (sym_text s ++ syms_text l) in *.
  change (syms_septets (s :: l)) with (sym_septets s ++ syms_septets l) in *.
  rewrite length_app in Hf. rewrite zlen_app in Hn.
  pose proof (sym_text_len s Hs) as Hl. pose proof (zlen_nonneg (syms_septets l)).
  destruct fuel as [|fuel]; [unfold zlen in Hl; lia|].
  destruct (sym_text s ++ syms_text l) as [|c t] eqn:E.
  { apply (f_equal (@length Z)) in E. rewrite length_app in E. unfold zlen in Hl. simpl in E. lia. }
  cbn [septets_loop]. rewrite <- E. clear c t E.
  destruct s as [i|j].
  - change (zlen (sym_septets (Main i))) with 1 in Hn.
    destruct (Z.ltb_spec (ns + 2) 512); [|lia].
    rewrite gsm7_lookup_main, zdrop_app_len by done.
    simpl in Hs. bool_hyps. apply Nat.ltb_lt in H2.
    assert (Z.testbit (Z.of_nat i) 8 = false) as ->.
    { rewrite Z.testbit_false by lia. rewrite Z.div_small by lia. done. }
    rewrite IH; [done|done|unfold zlen in Hl; lia|lia].
  - change (zlen (sym_septets (Ext j))) with 2 in Hn.
    destruct (Z.ltb_spec (ns + 2) 512); [|lia].
    rewrite gsm7_lookup_ext, zdrop_app_len by done.
    rewrite IH; [|done|unfold zlen in Hl; lia|lia].
    simpl in Hs. apply Nat.ltb_lt in Hs.
    do 8 (destruct j as [|j]; [vm_compute; reflexivity|]). lia.
Qed.

Lemma encodable_loop_syms l fuel :
  forallb sym_ok l = true -> (length (syms_text l) <= fuel)%nat ->
  encodable_loop fuel (syms_text l) = true.
Proof.
  revert fuel. induction l as [|s l IH]; intros fuel H Hf.
  { destruct fuel; reflexivity. }
  simpl in H. apply andb_prop in H as [Hs H].
  change (syms_text (s :: l)) with (sym_text s ++ syms_text l) in *.
  rewrite length_app in Hf. pose proof (sym_text_len s Hs) as Hl. unfold zlen in Hl.
  destruct fuel as [|fuel]; [lia|].
  destruct (sym_text s ++ syms_text l) as [|c t] eqn:E; [reflexivity|].
  cbn [encodable_loop]. rewrite <- E. clear c t E.
  destruct s as [i|j]; rewrite ?gsm7_lookup_main, ?gsm7_lookup_ext, zdrop_app_len by done;
    apply IH; solve [done|lia].
Qed.

(** ** The bit stream *)

(** Bit [k] of a buffer, least significant bit of each octet first. *)
Definition bit_at (out : bytes) (k : Z) : bool :=
  Z.testbit (rd out (Z.shiftr k 3)) (Z.land k 7).

Lemma bit_index k : 0 <= k -> Z.shiftr k 3 = k / 8 /\ Z.land k 7 = k mod 8.
Proof.
  intros H. split; [rewrite Z.shiftr_div_pow2 by lia; done|].
  change 7 with (Z.ones 3). rewrite Z.land_ones by lia. done.
Qed.

Lemma bit_at_set out pos k :
  0 <= pos -> pos / 8 < zlen out -> 0 <= k ->
  bit_at (wr out (Z.shiftr pos 3)
            (Z.lor (rd out (Z.shiftr pos 3)) (Z.shiftl 1 (Z.land pos 7)))) k
  = ((k =? pos) || bit_at out k).
Proof.
  intros Hp Hl Hk. unfold bit_at, rd, wr.
  destruct (bit_index pos Hp) as [-> ->]. destruct (bit_index k Hk) as [-> ->].
  pose proof (Z.mod_pos_bound pos 8). pose proof (Z.mod_pos_bound k 8).
  pose proof (Z.div_mod pos 8). pose proof (Z.div_mod k 8).
  assert (0 <= pos / 8) by (apply Z.div_pos; lia).
  assert (0 <= k / 8) by (apply Z.div_pos; lia).
  destruct (Z.eq_dec (k / 8) (pos / 8)) as [E|E].
  - rewrite E, list_lookup_insert_eq by (unfold zlen in Hl; lia). simpl.
    rewrite Z.lor_spec, orb_comm. f_equal.
    rewrite Z.shiftl_spec by lia.
    destruct (Z.eqb_spec k pos) as [->|Hne].
    + rewrite Z.sub_diag. done.
    + destruct (Z.lt_trichotomy (k mod 8) (pos mod 8)) as [L|[L|L]]; [|lia|].
      * apply Z.testbit_neg_r. lia.
      * change 1 with (2 ^ 0). rewrite Z.pow2_bits_false by lia. done.
  - rewrite list_lookup_insert_ne by lia.
    destruct (Z.eqb_spec k pos) as [->|]; [lia|done].
Qed.

Lemma put_bits_spec bits max pos out :
  0 <= pos -> zlen out = max -> (pos + zlen bits) / 8 + 1 <= max ->
  exists out', put_bits bits max pos out = (out', pos + zlen bits, false) /\
    zlen out' = max /\
    forall k, 0 <= k -> bit_at out' k =
      (bit_at out k || (if k <? pos then false else default false (bits !! Z.to_nat (k - pos)))).
Proof.
  revert pos out. induction bits as [|x t IH]; intros pos out Hp Hl Hm.
  - exists out. rewrite zlen_nil, Z.add_0_r. simpl.
    split_and!; [done|done|]. intros k Hk.
    destruct (k <? pos); by rewrite orb_false_r.
  - rewrite zlen_cons in *. pose proof (zlen_nonneg t).
    assert (Hd : pos / 8 <= (pos + 1) / 8 <= (pos + (zlen t + 1)) / 8)
      by (split; apply Z.div_le_mono; lia).
    cbn [put_bits]. cbv zeta. destruct (bit_index (pos + 1) ltac:(lia)) as [E8 _].
    rewrite E8. destruct (Z.ltb_spec max ((pos + 1) / 8 + 1)) as [L|_]; [lia|].
    set (out1 := if x then _ else _).
    assert (Hl1 : zlen out1 = max) by (subst out1; destruct x; rewrite ?zlen_wr; done).
    destruct (IH (pos + 1) out1 ltac:(lia) Hl1) as (out' & -> & Hl' & Hb).
    { replace (pos + 1 + zlen t) with (pos + (zlen t + 1)) by lia. done. }
    exists out'. split_and!; [do 2 f_equal; lia|done|]. intros k Hk. rewrite (Hb k Hk).
    assert (bit_at out1 k = ((k =? pos) && x || bit_at out k)) as ->.
    { subst out1. destruct x; [|by rewrite andb_false_r].
      rewrite bit_at_set by lia. by rewrite andb_true_r. }
    destruct (Z.lt_trichotomy k pos) as [L|[->|L]].
    + rewrite (proj2 (Z.eqb_neq k pos)), (proj2 (Z.ltb_lt k pos)), (proj2 (Z.ltb_lt k (pos+1))) by lia.
      done.
    + rewrite Z.eqb_refl, (proj2 (Z.ltb_lt pos (pos+1))), Z.ltb_irrefl, Z.sub_diag by lia.
      simpl. destruct x, (bit_at out pos); done.
    + rewrite (proj2 (Z.eqb_neq k pos)), (proj2 (Z.ltb_ge k pos)), (proj2 (Z.ltb_ge k (pos+1))) by lia.
      replace (Z.to_nat (k - pos)) with (S (Z.to_nat (k - (pos + 1)))) by lia. done.
Qed.

Lemma stream_bit_take out no k :
  0 <= k -> k / 8 < no -> no <= zlen out ->
  stream_bit (ztake no out) k = Some (b2z (bit_at out k)).
Proof.
  intros Hk Hn Hl. unfold stream_bit, bit_at, zget, rd, ztake.
  destruct (bit_index k Hk) as [-> ->]. assert (0 <= k / 8) by (apply Z.div_pos; lia).
  rewrite (proj2 (Z.ltb_ge (k / 8) 0)) by lia. rewrite lookup_take_lt by lia.
  destruct (out !! Z.to_nat (k / 8)) as [b|] eqn:E; simpl.
  - f_equal. pose proof (Z.mod_pos_bound k 8).
    change (b2z (Z.testbit b (k mod 8))) with (Z.b2z (Z.testbit b (k mod 8))).
    rewrite Z.testbit_spec', Z.shiftr_div_pow2 by lia.
    change 1 with (Z.ones 1). apply Z.land_ones. lia.
  - apply lookup_ge_None in E. unfold zlen in Hl. lia.
Qed.

(** ** Reading septets back *)

Lemma septet_bits_len v : length (septet_bits v) = 7%nat.
Proof. reflexivity. Qed.

Lemma septets_bits_len l : length (concat (septet_bits <$> l)) = (7 * length l)%nat.
Proof.
  induction l as [|v l IH]; [done|].
  change (concat (septet_bits <$> v :: l)) with (septet_bits v ++ concat (septet_bits <$> l)).
  rewrite length_app, IH, septet_bits_len. simpl. lia.
Qed.

Lemma septets_bits_lookup l i v b :
  l !! i = Some v -> (b < 7)%nat ->
  concat (septet_bits <$> l) !! (7 * i + b)%nat = Some (Z.testbit v (Z.of_nat b)).
Proof.
  revert i. induction l as [|w l IH]; intros i Hi Hb; [done|].
  change (concat (septet_bits <$> w :: l)) with (septet_bits w ++ concat (septet_bits <$> l)).
  destruct i as [|i]; simpl in Hi.
  - simplify_eq. rewrite lookup_app_l by (rewrite septet_bits_len; lia).
    do 7 (destruct b as [|b]; [reflexivity|]). lia.
  - rewrite lookup_app_r by (rewrite septet_bits_len; lia).
    rewrite septet_bits_len.
    replace (7 * S i + b - 7)%nat with (7 * i + b)%nat by lia. by apply IH.
Qed.

Lemma septet_sum_all :
  forallb (fun v => (128 <=? v) ||
    (fold_left (fun a b => Z.lor a (Z.shiftl (b2z (Z.testbit v b)) b)) [0;1;2;3;4;5;6] 0 =? v))
  all_bytes = true.
Proof. vm_compute. reflexivity. Qed.

Lemma septet_sum v : 0 <= v < 128 ->
  fold_left (fun a b => Z.lor a (Z.shiftl (b2z (Z.testbit v b)) b)) [0;1;2;3;4;5;6] 0 = v.
Proof.
  intros H.
  pose proof (byte_forall _ septet_sum_all v ltac:(unfold is_byte; lia)) as E. cbv beta in E.
  apply orb_prop in E as [E|E]; [apply Z.leb_le in E; lia|by apply Z.eqb_eq].
Qed.

Lemma read_septet_ok inp pos v :
  0 <= v < 128 ->
  (forall b, 0 <= b < 7 -> stream_bit inp (pos + b) = Some (b2z (Z.testbit v b))) ->
  read_septet 7 inp pos 0 0 = Some v.
Proof.
  intros Hv H. cbn [read_septet].
  rewrite (H 0), (H (0+1)), (H (0+1+1)), (H (0+1+1+1)), (H (0+1+1+1+1)),
    (H (0+1+1+1+1+1)), (H (0+1+1+1+1+1+1)) by lia.
  cbn [mbind option_bind]. f_equal. apply (septet_sum v Hv).
Qed.

Definition septets_ok (l : list Z) : Prop := Forall (fun v => 0 <= v < 128) l.

(** What packing leaves in its buffer: the octets the septets need, and in
    them the bits of the septets one after the other. *)
Lemma gsm7_pack_bits s max :
  let l := gsm7_septets s in
  7 * zlen l / 8 + 1 <= max ->
  exists out', gsm7_pack s max = (ztake ((7 * zlen l + 7) / 8) out', zlen l) /\
    (7 * zlen l + 7) / 8 <= zlen out' /\
    forall k, 0 <= k -> bit_at out' k =
      default false (concat (septet_bits <$> l) !! Z.to_nat k).
Proof.
  intros l Hm. pose proof (zlen_nonneg l) as Hl0.
  assert (Hlen : zlen (concat (septet_bits <$> l)) = 7 * zlen l)
    by (unfold zlen; rewrite septets_bits_len; lia).
  assert (0 <= 7 * zlen l / 8) by (apply Z.div_pos; lia).
  destruct (put_bits_spec (concat (septet_bits <$> l)) max 0 (replicate (Z.to_nat max) 0))
    as (out' & E & Hl' & Hb).
  { lia. } { unfold zlen. rewrite length_replicate. lia. } { by rewrite Hlen. }
  exists out'. split_and!.
  - unfold gsm7_pack. fold l. rewrite E, Hlen, Z.add_0_l, Z.shiftr_div_pow2 by lia. done.
  - rewrite Hl'. transitivity ((7 * zlen l + 1 * 8) / 8); [apply Z.div_le_mono; lia|].
    rewrite Z.div_add by lia. lia.
  - intros k Hk. rewrite Hb, (proj2 (Z.ltb_ge k 0)), Z.sub_0_r by lia.
    replace (bit_at (replicate (Z.to_nat max) 0) k) with false; [done|].
    unfold bit_at, rd. destruct (replicate _ 0 !! _) eqn:R; simpl; [|by rewrite Z.bits_0].
    apply lookup_replicate in R as [-> _]. by rewrite Z.bits_0.
Qed.

(** Packing puts septet [i] at bits [7 i .. 7 i + 6]; reading there gives it
    back. *)
Lemma pack_read s max out n :
  gsm7_pack s max = (out, n) ->
  (7 * zlen (gsm7_septets s)) / 8 + 1 <= max -> septets_ok (gsm7_septets s) ->
  n = zlen (gsm7_septets s) /\ zlen out = (7 * zlen (gsm7_septets s) + 7) / 8 /\
  forall i v, gsm7_septets s !! i = Some v ->
    read_septet 7 out (Z.of_nat i * 7) 0 0 = Some v.
Proof.
  intros Hp Hm Hok. destruct (gsm7_pack_bits s max Hm) as (out' & E & Hl & Hb).
  set (l := gsm7_septets s) in *. rewrite E in Hp. simplify_eq.
  pose proof (zlen_nonneg l). assert (0 <= (7 * zlen l + 7) / 8) by (apply Z.div_pos; lia).
  split_and!; [done|rewrite zlen_ztake; lia|]. intros i v Hi.
  pose proof (lookup_lt_Some _ _ _ Hi) as Hlt.
  assert (Hv : 0 <= v < 128) by exact (Forall_lookup_1 _ _ _ _ Hok Hi).
  apply read_septet_ok; [done|]. intros b Hb7.
  assert (Hk : Z.of_nat i * 7 + b < 7 * zlen l) by (unfold zlen; lia).
  rewrite stream_bit_take; [|lia| |done].
  - do 2 f_equal. rewrite Hb by lia.
    replace (Z.to_nat (Z.of_nat i * 7 + b)) with (7 * i + Z.to_nat b)%nat by lia.
    rewrite (septets_bits_lookup l i v) by (done || lia). simpl. by rewrite Z2Nat.id by lia.
  - apply Z.div_lt_upper_bound; [lia|].
    pose proof (Z.div_mod (7 * zlen l + 7) 8). pose proof (Z.mod_pos_bound (7 * zlen l + 7) 8). lia.
Qed.

Lemma unpack_loop_syms inp l i out max :
  forallb sym_ok l = true ->
  (forall j v, syms_septets l !! j = Some v ->
     read_septet 7 inp ((i + Z.of_nat j) * 7) 0 0 = Some v) ->
  zlen out + zlen (syms_text l) + 4 < max ->
  unpack_loop (length (syms_septets l)) inp i false out max = Some (out ++ syms_text l).
Proof.
  revert i out. induction l as [|s l IH]; intros i out H Hr Hm.
  { simpl. by rewrite app_nil_r. }
  simpl in H. apply andb_prop in H as [Hs H].
  change (syms_text (s :: l)) with (sym_text s ++ syms_text l) in *.
  change (syms_septets (s :: l)) with (sym_septets s ++ syms_septets l) in *.
  rewrite zlen_app in Hm. rewrite app_assoc.
  pose proof (sym_text_len s Hs) as Hl. pose proof (zlen_nonneg (syms_text l)).
  destruct s as [k|k]; cbn [sym_septets app length] in *; cbn [unpack_loop].
  - rewrite (proj2 (Z.ltb_lt _ max)) by lia.
    pose proof (Hr 0%nat _ eq_refl) as R0. rewrite Z.add_0_r in R0. rewrite R0.
    cbn [mbind option_bind].
    pose proof Hs as Hk. simpl in Hk. bool_hyps. apply Nat.eqb_neq in H3.
    rewrite (proj2 (Z.eqb_neq (Z.of_nat k) 0x1b)) by lia. rewrite Nat2Z.id.
    change (default [] (gsm7_main !! k)) with (sym_text (Main k)).
    apply IH; [done| |rewrite zlen_app; lia].
    intros j v Hj. replace (i + 1 + Z.of_nat j) with (i + Z.of_nat (S j)) by lia. by apply Hr.
  - rewrite (proj2 (Z.ltb_lt _ max)) by lia.
    pose proof (Hr 0%nat _ eq_refl) as R0. pose proof (Hr 1%nat _ eq_refl) as R1.
    rewrite Z.add_0_r in R0. rewrite R0.
    cbn [mbind option_bind]. rewrite Z.eqb_refl.
    change (Z.of_nat 1) with 1 in R1. rewrite R1. cbn [mbind option_bind].
    rewrite <- IH with (i := i + 1 + 1); [|done| |rewrite zlen_app; lia].
    + do 2 f_equal. simpl in Hs. apply Nat.ltb_lt in Hs. clear -Hs.
      do 8 (destruct k as [|k]; [vm_compute; reflexivity|]). lia.
    + intros j v Hj. replace (i + 1 + 1 + Z.of_nat j) with (i + Z.of_nat (S (S j))) by lia.
      by apply Hr.
Qed.

Lemma syms_septets_ok l : forallb sym_ok l = true -> septets_ok (syms_septets l).
Proof.
  induction l as [|s l IH]; intros H; [constructor|].
  simpl in H. apply andb_prop in H as [Hs H].
  apply Forall_app. split; [|by apply IH].
  destruct s as [i|j]; simpl in Hs.
  - bool_hyps. apply Nat.ltb_lt in H0. repeat constructor; lia.
  - apply Nat.ltb_lt in Hs.
    do 8 (destruct j as [|j]; [repeat constructor; vm_compute; discriminate|]). lia.
Qed.

Lemma gsm7_septets_syms l :
  forallb sym_ok l = true -> zlen (syms_septets l) <= 510 ->
  gsm7_septets (syms_text l) = syms_septets l.
Proof. intros H Hl. apply septets_loop_syms; [done|lia|lia]. Qed.

(** Unpacking what packing left. *)
Lemma gsm7_unpack_pack l out :
  forallb sym_ok l = true -> zlen (syms_septets l) <= 160 ->
  gsm7_pack (syms_text l) 180 = (out, zlen (syms_septets l)) ->
  zlen out = (7 * zlen (syms_septets l) + 7) / 8 /\
  gsm7_unpack out (zlen (syms_septets l)) 512 = Some (syms_text l).
Proof.
  intros H Hn E. pose proof (syms_text_len l H).
  assert (S := gsm7_septets_syms l H ltac:(lia)).
  assert (Hd : 7 * zlen (syms_septets l) / 8 <= 140)
    by (transitivity (7 * 160 / 8); [apply Z.div_le_mono; lia|done]).
  pose proof (pack_read _ _ _ _ E) as P. rewrite S in P.
  destruct P as (_ & Hlen & Hr); [lia|by apply syms_septets_ok|].
  split; [done|]. unfold gsm7_unpack. unfold zlen at 1. rewrite Nat2Z.id.
  rewrite unpack_loop_syms; [done|done| |rewrite zlen_nil; lia].
  intros j v Hj. rewrite Z.add_0_l. by apply Hr.
Qed.

Lemma gsm7_pack_syms (l : list sym) :
  forallb sym_ok l = true -> zlen (syms_septets l) <= 160 ->
  gsm7_encodable (syms_text l) = true /\
  exists out, gsm7_pack (syms_text l) 180 = (out, zlen (syms_septets l)) /\
    zlen out <= 140 /\
    gsm7_unpack out (zlen (syms_septets l)) 512 = Some (syms_text l).
Proof.
  intros H Hn. split; [by apply encodable_loop_syms|].
  destruct (gsm7_pack (syms_text l) 180) as [out n] eqn:E. exists out.
  assert (n = zlen (syms_septets l)) as ->.
  { unfold gsm7_pack in E. rewrite (gsm7_septets_syms l H) in E by lia.
    destruct (put_bits _ _ _ _) as [[? ?] ?]. by simplify_eq. }
  destruct (gsm7_unpack_pack l out H Hn E) as [Hlen Hu]. split_and!; [done| |done].
  rewrite Hlen. transitivity (1127 / 8); [apply Z.div_le_mono; lia|done].
Qed.

(** C7. Text over the alphabet (every entry but the one at position 27, and the
    escape extensions) of at most 160 septets is recognised as encodable,
    packs into at most 140 octets with the exact septet count, and unpacks to
    the same text: neither the 180-octet packing buffer nor the 512-byte text
    buffer cuts it. *)
Theorem gsm7_roundtrip (l : list sym) :
  forallb sym_ok l = true -> zlen (syms_septets l) <= 160 ->
  gsm7_encodable (syms_text l) = true /\
  exists out, gsm7_pack (syms_text l) 180 = (out, zlen (syms_septets l)) /\
    zlen out <= 140 /\
    gsm7_unpack out (zlen (syms_septets l)) 512 = Some (syms_text l).
Proof. apply gsm7_pack_syms. Qed.

Lemma gsm7_roundtrip_witness :
  let l := [Main 72; Ext 0; Main 0; Main 101; Ext 7; Main 124] in
  exists out, gsm7_pack (syms_text l) 180 = (out, 8) /\
    gsm7_unpack out 8 512 = Some (syms_text l).
Proof.
  intros l. destruct (gsm7_roundtrip l eq_refl ltac:(vm_compute; discriminate))
    as (_ & out & Hp & _ & Hu).
  exists out. exact (conj Hp Hu).
Defined.

(** The alphabet entry at position 27 (a capital AE ligature) is accepted as
    encodable and packed, but the text that comes back is empty: its septet is
    the escape code, because the table has no slot for the escape itself. *)
Theorem gsm7_AE_lost :
  gsm7_encodable (sym_text (Main 27)) = true /\
  let '(out, n) := gsm7_pack (sym_text (Main 27)) 180 in
  n = 1 /\ gsm7_unpack out n 512 = Some [] /\ sym_text (Main 27) <> [].
Proof. vm_compute. repeat split; discriminate. Qed.

(** ** The phone's alphabet

    TS 23.038, as code points: the default alphabet, where the escape code on its
    own shows as a space, and the extension table. *)
Definition code_run (first n : nat) : list Z := Z.of_nat <$> seq first n.

Definition std_alphabet : list Z := Eval vm_compute in (
  [0x40; 0xa3; 0x24; 0xa5; 0xe8; 0xe9; 0xf9; 0xec; 0xf2; 0xc7; 0x0a; 0xd8; 0xf8; 0x0d; 0xc5; 0xe5] ++
  [0x394; 0x5f; 0x3a6; 0x393; 0x39b; 0x3a9; 0x3a0; 0x3a8; 0x3a3; 0x398; 0x39e; 0x20; 0xc6; 0xe6; 0xdf; 0xc9] ++
  code_run 0x20 4 ++ [0xa4] ++ code_run 0x25 27 ++
  [0xa1] ++ code_run 0x41 26 ++ [0xc4; 0xd6; 0xd1; 0xdc; 0xa7] ++
  [0xbf] ++ code_run 0x61 26 ++ [0xe4; 0xf6; 0xf1; 0xfc; 0xe0]).

Definition std_extension : list (Z * Z) :=
  [(0x0a, 0x0c); (0x14, 0x5e); (0x28, 0x7b); (0x29, 0x7d); (0x2f, 0x5c);
   (0x3c, 0x5b); (0x3d, 0x7e); (0x3e, 0x5d); (0x40, 0x7c); (0x65, 0x20ac)].

Definition std_char (v : Z) : Z := default 0x20 (std_alphabet !! Z.to_nat v).

(** A code the extension table does not have shows as in the default alphabet. *)
Definition std_escaped (v : Z) : Z :=
  match List.find (fun p => p.1 =? v) std_extension with Some p => p.2 | None => std_char v end.

Fixpoint phone_chars (l : list Z) : list Z :=
  match l with
  | [] => []
  | v :: t =>
      if v =? 0x1b then
        match t with
        | [] => [std_char v]
        | w :: u => std_escaped w :: phone_chars u
        end
      else std_char v :: phone_chars t
  end.

(** The characters the modem packs at another one's place, and what shows. *)
Definition shown (c : Z) : Z :=
  match c with
  | 0xe6 => 0xc6 | 0xdf => 0xe6 | 0xc9 => 0xdf
  | 0xa7 => 0xdc | 0xbf => 0xa7 | 0xa0 => 0xbf
  | 0xfc => 0xf1 | 0xf1 => 0xfc
  | 0x5d => 0x7e
  | _ => c
  end.

(** ** Characters and entries of the tables *)

(** The character at the head of a UTF-8 text. *)
Definition char_of (s : bytes) : Z :=
  match utf8_to_ucs2be s 0 2 with [h; l] => Z.lor (Z.shiftl h 8) l | _ => 0 end.

Lemma char_of_unit c r : 0 <= c < 65536 -> char_of (utf8_unit c ++ r) = c.
Proof.
  intros H. unfold char_of. rewrite utf8_to_ucs2be_unit by lia.
  assert (utf8_to_ucs2be r (0 + 2) 2 = []) as -> by (by destruct r).
  pose proof (unit_ok_all c H) as U. unfold unit_ok in U. apply andb_prop in U as [U _]. by apply Z.eqb_eq.
Qed.

(** An entry of the tables other than the unused space is one character, shown as
    [shown] says unless it is the escape code. *)
Definition in_table (s : sym) : bool :=
  match s with Main i => Nat.ltb i 128 && negb (Nat.eqb i 31) | Ext j => Nat.ltb j 8 end.

Definition shows (s : sym) (c : Z) : bool :=
  if c =? 0xc6 then negb (sym_ok s)
  else sym_ok s && match sym_septets s with
       | [v] => negb (v =? 0x1b) && (std_char v =? shown c)
       | [e; v] => (e =? 0x1b) && (std_escaped v =? shown c)
       | _ => false
       end.

Definition entry_ok (s : sym) : bool :=
  let c := char_of (sym_text s) in
  bool_decide (utf8_unit c = sym_text s) && (0 <=? c) && (c <? 65536) && shows s c.

Lemma entries_ok :
  forallb (fun i => Nat.eqb i 31 || entry_ok (Main i)) (seq 0 128) && forallb (fun j => entry_ok (Ext j)) (seq 0 8) = true.
Proof. vm_compute. reflexivity. Qed.

Lemma entry_ok_in s : in_table s = true -> entry_ok s = true.
Proof.
  pose proof entries_ok as E. apply andb_prop in E as [E1 E2]. destruct s as [i|j]; unfold in_table; intros H.
  - apply andb_prop in H as [H1 H2]. apply Nat.ltb_lt in H1. pose proof (forallb_seq _ _ i E1 H1) as E. cbv beta in E.
    by destruct (Nat.eqb i 31).
  - apply Nat.ltb_lt in H. exact (forallb_seq _ _ j E2 H).
Qed.

Lemma entry_shows s c : in_table s = true -> 0 <= c < 65536 -> sym_text s = utf8_unit c -> shows s c = true.
Proof.
  intros Hs Hc E. apply entry_ok_in, andb_prop in Hs as [_ H].
  assert (char_of (sym_text s) = c) as R by (rewrite E, <- (app_nil_r (utf8_unit c)); by apply char_of_unit).
  by rewrite R in H.
Qed.

(** A text that begins with an entry and with a character has them equal. *)
Lemma entry_unit s c r :
  in_table s = true -> 0 <= c < 65536 -> starts_with (sym_text s) (utf8_unit c ++ r) = true -> sym_text s = utf8_unit c.
Proof.
  intros Hs Hc H. apply starts_with_spec in H as [r' E]. pose proof (entry_ok_in s Hs) as O. unfold entry_ok in O.
  cbv zeta in O. set (a := char_of (sym_text s)) in *. apply andb_prop in O as [O _].
  apply andb_prop in O as [O Hlt]. apply andb_prop in O as [O H0]. apply bool_decide_eq_true in O.
  apply Z.leb_le in H0. apply Z.ltb_lt in Hlt.
  apply (f_equal char_of) in E. rewrite char_of_unit, <- O, char_of_unit in E by lia. by rewrite <- O, E.
Qed.

Lemma lookup_main_inv tbl base s v n :
  lookup_main tbl base s = Some (v, n) ->
  exists k e, tbl !! k = Some e /\ v = base + Z.of_nat k /\ v <> 31 /\ n = zlen e /\ starts_with e s = true.
Proof.
  revert base. induction tbl as [|e t IH]; intros base H; [done|]. simpl in H.
  assert (K : lookup_main t (base + 1) s = Some (v, n) -> exists k e0, (e :: t) !! k = Some e0 /\ v = base + Z.of_nat k /\
    v <> 31 /\ n = zlen e0 /\ starts_with e0 s = true).
  { intros R. destruct (IH _ R) as (k & e0 & Hk & Hv & Hr). exists (S k), e0. split_and!; [done|lia|..]; apply Hr. }
  destruct (Z.eqb_spec base 31); [by apply K|]. destruct (starts_with e s) eqn:E; [|by apply K].
  simplify_eq. exists 0%nat, e. split_and!; [done|lia|done|done|done].
Qed.

Lemma lookup_ext_inv tbl s v n :
  lookup_ext tbl s = Some (v, n) ->
  exists k e w, tbl !! k = Some (e, w) /\ v = Z.lor 0x100 w /\ n = zlen e /\ starts_with e s = true.
Proof.
  induction tbl as [|[e w] t IH]; intros H; [done|]. simpl in H. destruct (starts_with e s) eqn:E.
  - simplify_eq. by exists 0%nat, e, w.
  - destruct (IH H) as (k & e0 & w0 & ?). by exists (S k), e0, w0.
Qed.

(** What a lookup found is an entry at the head of the text. *)
Lemma gsm7_lookup_inv s v n :
  gsm7_lookup s = Some (v, n) ->
  exists y, in_table y = true /\ starts_with (sym_text y) s = true /\ n = zlen (sym_text y) /\
    sym_septets y = (if Z.testbit v 8 then [0x1b; Z.land v 0xff] else [v]).
Proof.
  unfold gsm7_lookup. destruct (lookup_main gsm7_main 0 s) as [[v' n']|] eqn:E; intros H.
  - simplify_eq. apply lookup_main_inv in E as (k & e & Hk & -> & Hne & -> & Hs). pose proof (lookup_lt_Some _ _ _ Hk) as Hlt.
    change (length gsm7_main) with 128%nat in Hlt. exists (Main k). rewrite (sym_text_main _ _ Hk).
    assert (Z.testbit (0 + Z.of_nat k) 8 = false) as -> by (rewrite Z.testbit_false, Z.div_small by lia; done).
    split_and!; try done. simpl. apply andb_true_intro. split; [by apply Nat.ltb_lt|].
    apply negb_true_iff, Nat.eqb_neq. lia.
  - apply lookup_ext_inv in H as (k & e & w & Hk & -> & -> & Hs). pose proof (lookup_lt_Some _ _ _ Hk) as Hlt.
    change (length gsm7_ext) with 8%nat in Hlt. exists (Ext k).
    assert (sym_text (Ext k) = e) as -> by exact (f_equal (fun o => default [] (fst <$> o)) Hk).
    split_and!; [by apply Nat.ltb_lt|done|done|].
    assert (sym_septets (Ext k) = [0x1b; w]) as -> by exact (f_equal (fun o => [0x1b; default 0 (snd <$> o)]) Hk). clear -Hk Hlt.
    do 8 (destruct k as [|k]; [simpl in Hk; by simplify_eq|]). lia.
Qed.

(** Every septet the modem packs is one. *)
Lemma gsm7_septets_ok s : septets_ok (gsm7_septets s).
Proof.
  assert (K : forall y, in_table y = true -> septets_ok (sym_septets y)).
  { intros [i|j] H; simpl in H.
    - apply andb_prop in H as [H _]. apply Nat.ltb_lt in H. repeat constructor; lia.
    - apply Nat.ltb_lt in H. do 8 (destruct j as [|j]; [repeat constructor; vm_compute; discriminate|]). lia. }
  unfold gsm7_septets. generalize (length s) as fuel. intros fuel. generalize 0 as ns. revert s.
  induction fuel as [|fuel IH]; intros s ns; [by destruct s; constructor|].
  destruct s as [|c t]; [constructor|]. cbn [septets_loop]. destruct (_ <? _); [|constructor].
  destruct (gsm7_lookup (c :: t)) as [[v n]|] eqn:E; [|constructor].
  apply gsm7_lookup_inv in E as (y & Hy & _ & _ & Ey). apply K in Hy. rewrite Ey in Hy.
  destruct (Z.testbit v 8); [inversion_clear Hy as [|? ? H1 H2]; inversion_clear H2|inversion_clear Hy];
    repeat constructor; try lia; apply IH.
Qed.

(** ** What a phone shows *)

Lemma encodable_loop_cons fuel s : s <> [] ->
  encodable_loop (S fuel) s = match gsm7_lookup s with None => false | Some (_, n) => encodable_loop fuel (zdrop n s) end.
Proof. by destruct s. Qed.

Lemma septets_loop_cons fuel s ns : s <> [] ->
  septets_loop (S fuel) s ns =
  if ns + 2 <? 512 then
    match gsm7_lookup s with
    | None => []
    | Some (v, n) =>
        if Z.testbit v 8 then 0x1b :: Z.land v 0xff :: septets_loop fuel (zdrop n s) (ns + 2)
        else v :: septets_loop fuel (zdrop n s) (ns + 1)
    end
  else [].
Proof. by destruct s. Qed.

(** A message the modem packs, without a capital AE, is a list of entries. *)
Lemma encodable_entries cs fuel :
  Forall is_unit cs -> 0xc6 ∉ cs -> encodable_loop fuel (utf8_text cs) = true ->
  exists l, forallb sym_ok l = true /\
    Forall2 (fun y c => in_table y = true /\ sym_text y = utf8_unit c) l cs.
Proof.
  intros Hc. revert fuel. induction Hc as [|c cs Hc _ IH]; intros fuel Hn H; [by exists []|].
  apply not_elem_of_cons in Hn as [Hne Hn]. unfold is_unit in Hc.
  change (utf8_text (c :: cs)) with (utf8_unit c ++ utf8_text cs) in H. pose proof (utf8_unit_len c) as Hl.
  assert (E : utf8_unit c ++ utf8_text cs <> []) by (destruct (utf8_unit c); [rewrite zlen_nil in Hl; lia|done]).
  destruct fuel as [|fuel]; [by destruct (utf8_unit c ++ utf8_text cs)|]. rewrite encodable_loop_cons in H by done.
  destruct (gsm7_lookup _) as [[v n]|] eqn:L; [|done].
  apply gsm7_lookup_inv in L as (y & Hy & Hs & -> & _). apply entry_unit in Hs; [|done|lia].
  rewrite Hs, zdrop_app_len in H. destruct (IH _ Hn H) as (l & Hl' & HF). exists (y :: l). split; [|by constructor].
  cbn [forallb]. rewrite Hl', andb_true_r. pose proof (entry_shows y c Hy ltac:(lia) Hs) as O. unfold shows in O.
  rewrite (proj2 (Z.eqb_neq c 0xc6)) in O by done. by apply andb_prop in O as [O _].
Qed.

Lemma entries_text l cs :
  Forall2 (fun y c => in_table y = true /\ sym_text y = utf8_unit c) l cs -> syms_text l = utf8_text cs.
Proof.
  induction 1 as [|y c l cs [_ E] _ IH]; [done|].
  change (sym_text y ++ syms_text l = utf8_unit c ++ utf8_text cs). by rewrite E, IH.
Qed.

(** Septets that are few were not cut. *)
Lemma septets_loop_full l fuel ns :
  forallb sym_ok l = true -> (length (syms_text l) <= fuel)%nat ->
  ns + zlen (septets_loop fuel (syms_text l) ns) + 2 < 512 ->
  septets_loop fuel (syms_text l) ns = syms_septets l.
Proof.
  revert fuel ns. induction l as [|s l IH]; intros fuel ns H Hf Hn; [by destruct fuel|].
  simpl in H. apply andb_prop in H as [Hs H].
  change (syms_text (s :: l)) with (sym_text s ++ syms_text l) in *.
  change (syms_septets (s :: l)) with (sym_septets s ++ syms_septets l).
  rewrite length_app in Hf. pose proof (sym_text_len s Hs) as Hl.
  assert (E : sym_text s ++ syms_text l <> []) by (destruct (sym_text s); [rewrite zlen_nil in Hl; lia|done]).
  destruct fuel as [|fuel]; [unfold zlen in Hl; lia|]. rewrite septets_loop_cons in * by done.
  destruct (Z.ltb_spec (ns + 2) 512) as [Hlt|Hge]; [|rewrite zlen_nil in Hn; lia].
  destruct s as [i|j].
  - rewrite gsm7_lookup_main, zdrop_app_len in * by done. simpl in Hs. bool_hyps.
    match goal with Hi : Nat.ltb i 128 = true |- _ => apply Nat.ltb_lt in Hi end.
    assert (Z.testbit (Z.of_nat i) 8 = false) as T by (rewrite Z.testbit_false, Z.div_small by lia; done).
    rewrite T in *. rewrite zlen_cons in Hn. rewrite IH; [done|done|unfold zlen in Hl; lia|lia].
  - rewrite gsm7_lookup_ext, zdrop_app_len in * by done.
    assert (T : Z.testbit (Z.lor 0x100 (default 0 (snd <$> gsm7_ext !! j))) 8 = true /\
      Z.land (Z.lor 0x100 (default 0 (snd <$> gsm7_ext !! j))) 0xff = default 0 (snd <$> gsm7_ext !! j)).
    { simpl in Hs. apply Nat.ltb_lt in Hs. clear -Hs. do 8 (destruct j as [|j]; [by vm_compute|]). lia. }
    destruct T as [T1 T2]. rewrite T1, T2 in *. rewrite !zlen_cons in Hn. rewrite IH; [done|done|unfold zlen in Hl; lia|lia].
Qed.

Lemma phone_chars_entries l cs :
  forallb sym_ok l = true -> Forall is_unit cs ->
  Forall2 (fun y c => in_table y = true /\ sym_text y = utf8_unit c) l cs ->
  phone_chars (syms_septets l) = shown <$> cs.
Proof.
  intros Hl Hc HF. revert Hl Hc. induction HF as [|y c l cs [Hy E] _ IH]; intros Hl Hc; [done|].
  apply Forall_cons in Hc as [Hc Hcs]. unfold is_unit in Hc. simpl in Hl. apply andb_prop in Hl as [Hs Hl].
  change (syms_septets (y :: l)) with (sym_septets y ++ syms_septets l). cbn [fmap list_fmap].
  pose proof (entry_shows y c Hy ltac:(lia) E) as O. unfold shows in O. rewrite Hs in O.
  destruct (c =? 0xc6); [done|].
  apply andb_prop in O as [_ O]. specialize (IH Hl Hcs).
  destruct (sym_septets y) as [|v [|w [|]]]; try done; apply andb_prop in O as [O1 O2]; apply Z.eqb_eq in O2; simpl.
  - apply negb_true_iff in O1. by rewrite O1, O2, <- IH.
  - by rewrite O1, O2, <- IH.
Qed.

(** A packed message without a capital AE shows character by character. *)
Lemma phone_shows cs :
  Forall is_unit cs -> 0xc6 ∉ cs -> gsm7_encodable (utf8_text cs) = true ->
  zlen (gsm7_septets (utf8_text cs)) <= 160 ->
  phone_chars (gsm7_septets (utf8_text cs)) = shown <$> cs.
Proof.
  intros Hc Hn He Hl. destruct (encodable_entries cs _ Hc Hn He) as (l & Hs & HF).
  rewrite <- (phone_chars_entries l cs Hs Hc HF). f_equal. unfold gsm7_septets in *. rewrite <- (entries_text _ _ HF) in *.
  apply septets_loop_full; [done|done|lia].
Qed.

(** ** The octets as one little endian number *)

Definition le_num (l : bytes) : Z := fold_right (fun b acc => b + 256 * acc) 0 l.

(** Septet [i] of packed user data takes bits [7 i .. 7 i + 6] of it. *)
Definition phone_septets (n : Z) (ud : bytes) : list Z :=
  (fun i => (le_num ud / 2 ^ (7 * Z.of_nat i)) mod 2 ^ 7) <$> seq 0 (Z.to_nat n).

Lemma le_num_bit l k : is_bytes l -> 0 <= k -> Z.testbit (le_num l) k = bit_at l k.
Proof.
  intros H. revert k. induction H as [|b l Hb _ IH]; intros k Hk; unfold bit_at; destruct (bit_index k Hk) as [-> ->].
  { unfold rd. simpl. by rewrite !Z.bits_0. }
  change (le_num (b :: l)) with (b + 256 * le_num l). unfold is_byte in Hb. destruct (Z.lt_ge_cases k 8) as [L|L].
  - rewrite Z.div_small, Z.mod_small by lia. change (rd (b :: l) 0) with b.
    rewrite <- (Z.mod_pow2_bits_low _ 8) by lia. change (2 ^ 8) with 256.
    rewrite Z.mul_comm, Z.mod_add, Z.mod_small by lia. done.
  - replace k with (k - 8 + 8) at 1 by lia. rewrite <- Z.div_pow2_bits by lia. change (2 ^ 8) with 256.
    rewrite Z.mul_comm, Z.div_add, Z.div_small, Z.add_0_l, IH by lia. unfold bit_at.
    destruct (bit_index (k - 8)) as [-> ->]; [lia|]. replace k with ((k - 8) + 1 * 8) by lia.
    rewrite Z.div_add, Z.mod_add by lia. replace (k - 8 + 1 * 8 - 8) with (k - 8) by lia.
    assert (0 <= (k - 8) / 8) by (apply Z.div_pos; lia). unfold rd.
    by replace (Z.to_nat ((k - 8) / 8 + 1)) with (S (Z.to_nat ((k - 8) / 8))) by lia.
Qed.

(** The septets of what was packed. *)
Lemma phone_septets_pack s max out n :
  gsm7_pack s max = (out, n) -> is_bytes out -> 7 * zlen (gsm7_septets s) / 8 + 1 <= max ->
  n = zlen (gsm7_septets s) /\ zlen out = (7 * n + 7) / 8 /\ phone_septets n out = gsm7_septets s.
Proof.
  intros Hp Hb Hm. destruct (gsm7_pack_bits s max Hm) as (out' & E & Hl & Hbit).
  pose proof (gsm7_septets_ok s) as Hok. set (l := gsm7_septets s) in *. rewrite E in Hp. simplify_eq.
  pose proof (zlen_nonneg l). set (no := (7 * zlen l + 7) / 8) in *. assert (0 <= no) by (apply Z.div_pos; lia).
  split_and!; [done|rewrite zlen_ztake; lia|]. apply list_eq. intros i. unfold phone_septets. rewrite list_lookup_fmap.
  destruct (decide (i < length l)%nat) as [Hi|Hi].
  2: { rewrite !lookup_ge_None_2; [done|lia|rewrite length_seq; unfold zlen; lia]. }
  rewrite lookup_seq_lt by (unfold zlen; lia). destruct (lookup_lt_is_Some_2 _ _ Hi) as [v Hv]. rewrite Hv. simpl. f_equal.
  assert (R : 0 <= v < 128) by exact (Forall_lookup_1 _ _ _ _ Hok Hv).
  apply Z.bits_inj'. intros m Hm0. destruct (Z.lt_ge_cases m 7) as [L|L].
  - rewrite Z.mod_pow2_bits_low, Z.div_pow2_bits, le_num_bit by (done || lia).
    assert (Hk : m + 7 * Z.of_nat i < 7 * zlen l) by (unfold zlen; lia).
    assert ((m + 7 * Z.of_nat i) / 8 < no).
    { apply Z.div_lt_upper_bound; [lia|]. subst no. pose proof (Z.div_mod (7 * zlen l + 7) 8).
      pose proof (Z.mod_pos_bound (7 * zlen l + 7) 8). lia. }
    assert (0 <= (m + 7 * Z.of_nat i) / 8) by (apply Z.div_pos; lia).
    transitivity (bit_at out' (m + 7 * Z.of_nat i)).
    + unfold bit_at, rd, ztake. destruct (bit_index (m + 7 * Z.of_nat i)) as [-> _]; [lia|]. by rewrite lookup_take_lt by lia.
    + rewrite Hbit by lia. replace (Z.to_nat (m + 7 * Z.of_nat i)) with (7 * i + Z.to_nat m)%nat by lia.
      rewrite (septets_bits_lookup l i v) by (done || lia). simpl. by rewrite Z2Nat.id by lia.
  - rewrite Z.mod_pow2_bits_high by lia. symmetry. apply Z.bits_above_log2; [lia|].
    destruct (Z.eq_dec v 0) as [->|]; [simpl; lia|]. apply Z.log2_lt_pow2; [lia|].
    apply Z.lt_le_trans with (2 ^ 7); [lia|apply Z.pow_le_mono_r; lia].
Qed.
