(* ===== verification/BbSmsFacts.v ===== *)
(** * Facts about short messages

    Memory safety of the SMS-SUBMIT parser, what the parser recovers from a
    message laid out as GSM 03.40 says, and the size and content of the
    SMS-DELIVER the modem builds. *)

From Stdlib Require Import ZArith Lia String.
From stdpp Require Import base numbers list.
From S2P Require Import Prelude CLib BbState BbTx BbPdu BbSim BbCalls BbSms.
From S2P Require Import BbTick BbPduFacts BbGsm7Facts.
Local Open Scope Z_scope.

(** ** Reads of the SMS-SUBMIT parser stay inside the PDU *)

Lemma zget_in {A} (l : list A) i : 0 <= i < zlen l -> exists x, zget l i = Some x.
Proof.
  intros H. unfold zget. rewrite (proj2 (Z.ltb_ge i 0)) by lia.
  apply lookup_lt_is_Some. unfold zlen in H. lia.
Qed.

Lemma zget_byte l i x : is_bytes l -> zget l i = Some x -> is_byte x.
Proof.
  intros H E. unfold zget in E. destruct (i <? 0); [done|].
  exact (Forall_lookup_1 _ _ _ _ H E).
Qed.

Lemma read_septet_in nb inp pos b v :
  0 <= pos -> 0 <= b -> pos + b + Z.of_nat nb <= 8 * zlen inp ->
  exists w, read_septet nb inp pos b v = Some w.
Proof.
  revert b v. induction nb as [|nb IH]; intros b v Hp Hb H; [by eexists|].
  cbn [read_septet]. unfold stream_bit.
  destruct (bit_index (pos + b) ltac:(lia)) as [-> _].
  destruct (zget_in inp ((pos + b) / 8)) as [x ->].
  { split; [apply Z.div_pos; lia|apply Z.div_lt_upper_bound; lia]. }
  apply IH; lia.
Qed.

Lemma unpack_loop_in n inp i esc out max :
  0 <= i -> 7 * (i + Z.of_nat n) <= 8 * zlen inp ->
  exists t, unpack_loop n inp i esc out max = Some t.
Proof.
  revert i esc out. induction n as [|n IH]; intros i esc out Hi H; [by eexists|].
  cbn [unpack_loop]. destruct (_ <? _); [|by eexists].
  destruct (read_septet_in 7 inp (i * 7) 0 0) as [v ->]; [lia..|].
  cbn [mbind option_bind]. split_ifs; apply IH; lia.
Qed.

Lemma submit_text_in p pos udl dcs :
  0 <= pos -> pos <= zlen p -> 0 <= udl ->
  exists t, submit_text p pos udl (zlen p - pos) dcs = Some t.
Proof.
  intros H0 H1 Hu. unfold submit_text. cbv zeta.
  set (u := zlen p - pos). assert (Hq : 0 <= u * 8 / 7) by (apply Z.div_pos; lia).
  assert (7 * (u * 8 / 7) <= u * 8) by (apply Z.mul_div_le; lia).
  destruct (_ =? 0).
  - apply unpack_loop_in; [lia|]. rewrite Z2Nat.id, zlen_zdrop by lia. lia.
  - destruct (_ =? 1);
      (match goal with |- context [?a <=? ?b] => destruct (Z.leb_spec a b); [by eexists|lia] end).
Qed.

Ltac read_at p :=
  match goal with
  | |- context [zget p ?i] =>
      let x := fresh "x" in let E := fresh "E" in
      destruct (zget_in p i) as [x E]; [lia|]; rewrite E; cbn [mbind option_bind]
  end.

(** Parsing an SMS-SUBMIT never reads outside the PDU the guest sent: for
    every byte string the parser, its septet unpacker and its UCS2 decoder
    stay within the buffer. *)
Theorem sms_parse_submit_safe (p : bytes) (bb : IosBbCore) :
  is_bytes p -> sms_parse_submit p bb <> None.
Proof.
  intros Hp. unfold sms_parse_submit. cbv zeta.
  destruct (Z.ltb_spec (zlen p) 5); [done|]. read_at p.
  pose proof (zget_byte _ _ _ Hp E) as [? ?].
  destruct (Z.leb_spec (zlen p) (1 + x)); [done|]. read_at p.
  set (vp := if _ =? 2 then 1 else 0). assert (0 <= vp <= 1) by (subst vp; split_ifs; lia).
  destruct (Z.leb_spec (zlen p) (1 + x + 1)); [done|].
  destruct (Z.leb_spec (zlen p) (1 + x + 1 + 1)); [done|]. read_at p.
  pose proof (zget_byte _ _ _ Hp E1) as [? ?].
  assert (0 <= (x1 + 1) / 2) by (apply Z.div_pos; lia).
  destruct (Z.leb_spec (zlen p) (1 + x + 1 + 1 + 1)); [done|].
  destruct (Z.leb_spec (zlen p) (1 + x + 1 + 1 + 1 + 1 + (x1 + 1) / 2 + 2 + vp)); [done|].
  read_at p. pose proof (zget_byte _ _ _ Hp E2) as [? ?]. read_at p.
  match goal with |- context [submit_text p ?pos ?udl _ ?dcs] =>
    destruct (submit_text_in p pos udl dcs) as [t ->]; [lia..|] end.
  done.
Qed.

Lemma sms_parse_submit_safe_witness :
  let p := [0; 0x11; 0; 255; 0x91; 1; 2; 3; 4] in
  is_bytes p /\ forall bb, sms_parse_submit p bb <> None.
Proof.
  assert (H : is_bytes [0; 0x11; 0; 255; 0x91; 1; 2; 3; 4]) by (repeat constructor; lia).
  split; [exact H|]. intros bb. apply sms_parse_submit_safe. exact H.
Defined.

(** ** A message laid out as GSM 03.40 says *)

(** Service centre address, first octet without a validity period, message
    reference, destination address, protocol, coding, user data. *)
Definition submit_pdu (sca : bytes) (mr : Z) (number : bytes) (dcs udl : Z) (ud : bytes) : bytes :=
  (zlen sca :: sca) ++ [0x01; mr; zlen number; 0x91] ++ digits_to_semi number 0 10 ++
  [0x00; dcs; udl] ++ ud.

Lemma zget_app_r {A} (l k : list A) i : zlen l <= i -> zget (l ++ k) i = zget k (i - zlen l).
Proof.
  intros H. unfold zget, zlen in *.
  rewrite (proj2 (Z.ltb_ge i 0)), (proj2 (Z.ltb_ge (i - _) 0)) by lia.
  rewrite lookup_app_r by lia. f_equal. lia.
Qed.

(** The tail of such a message, after the service centre address. *)
Definition submit_tail (mr : Z) (number : bytes) (dcs udl : Z) (ud : bytes) : bytes :=
  [0x01; mr; zlen number; 0x91] ++ digits_to_semi number 0 10 ++ [0x00; dcs; udl] ++ ud.

Lemma submit_pdu_get sca mr number dcs udl ud i :
  0 <= i -> zget (submit_pdu sca mr number dcs udl ud) (1 + zlen sca + i) =
            zget (submit_tail mr number dcs udl ud) i.
Proof.
  intros Hi. unfold submit_pdu. rewrite zget_app_r by (rewrite zlen_cons; lia).
  f_equal. rewrite zlen_cons. lia.
Qed.

Lemma submit_tail_get mr number dcs udl ud i :
  0 <= i -> zget (submit_tail mr number dcs udl ud) (4 + zlen (digits_to_semi number 0 10) + i) =
            zget ([0x00; dcs; udl] ++ ud) i.
Proof.
  intros Hi. unfold submit_tail. rewrite app_assoc.
  assert (E : zlen ([0x01; mr; zlen number; 0x91] ++ digits_to_semi number 0 10) =
              4 + zlen (digits_to_semi number 0 10)) by (rewrite zlen_app; reflexivity).
  rewrite zget_app_r, E by lia. f_equal. lia.
Qed.

Lemma submit_pdu_len sca mr number dcs udl ud :
  zlen (submit_pdu sca mr number dcs udl ud) =
  zlen sca + 8 + zlen (digits_to_semi number 0 10) + zlen ud.
Proof. unfold submit_pdu. rewrite !zlen_app, !zlen_cons, zlen_nil. lia. Qed.

Lemma submit_pdu_number sca mr number dcs udl ud :
  all_digits number = true -> zlen number <= 20 ->
  semi_to_digits (zdrop (1 + zlen sca + 4) (submit_pdu sca mr number dcs udl ud))
    ((zlen number + 1) / 2) 32 = number.
Proof.
  intros Hd Hn. unfold submit_pdu. rewrite app_assoc.
  assert (E : 1 + zlen sca + 4 = zlen ((zlen sca :: sca) ++ [0x01; mr; zlen number; 0x91]))
    by (rewrite zlen_app, !zlen_cons, zlen_nil; lia).
  rewrite E, zdrop_app_len. unfold semi_to_digits.
  rewrite <- (zlen_digits_to_semi number 0 10) by (done || lia).
  rewrite ztake_app_len, semi_loop_digits; [done|done|lia|rewrite zlen_nil; lia].
Qed.

Lemma submit_pdu_ud sca mr number dcs udl ud :
  zdrop (zlen (submit_pdu sca mr number dcs udl [])) (submit_pdu sca mr number dcs udl ud) = ud.
Proof.
  assert (E : submit_pdu sca mr number dcs udl ud = submit_pdu sca mr number dcs udl [] ++ ud)
    by (unfold submit_pdu; rewrite <- !app_assoc; reflexivity).
  rewrite E. apply zdrop_app_len.
Qed.

(** What the parser finds in such a message. *)
Lemma sms_parse_submit_fields sca mr number dcs udl ud bb :
  all_digits number = true -> 1 <= zlen number <= 20 ->
  sms_parse_submit (submit_pdu sca mr number dcs udl ud) bb =
  (text ← submit_text (submit_pdu sca mr number dcs udl ud)
           (zlen (submit_pdu sca mr number dcs udl [])) udl (zlen ud) dcs;
   Some (bb <| b_sms; last_mo_num := number |> <| b_sms; last_mo_text := text |>
           <| b_sms; mo_count ::= fun c => u32 (c + 1) |>)).
Proof.
  intros Hd Hn. pose proof (zlen_digits_to_semi number 0 10 Hd ltac:(lia)) as Hs.
  assert (1 <= (zlen number + 1) / 2).
  { change 1 with (2 / 2) at 1. apply Z.div_le_mono; lia. }
  pose proof (zlen_nonneg sca). pose proof (zlen_nonneg ud).
  pose proof (submit_pdu_len sca mr number dcs udl ud) as Hp.
  pose proof (submit_pdu_len sca mr number dcs udl []) as Hp0. change (zlen (@nil Z)) with 0 in Hp0.
  pose proof (submit_pdu_get sca mr number dcs udl ud) as Hg.
  pose proof (submit_tail_get mr number dcs udl ud) as Ht.
  pose proof (submit_pdu_number sca mr number dcs udl ud Hd ltac:(lia)) as Hnum.
  assert (HL : zget (submit_pdu sca mr number dcs udl ud) 0 = Some (zlen sca)) by reflexivity.
  set (p := submit_pdu sca mr number dcs udl ud) in *. set (L := zlen sca) in *.
  unfold sms_parse_submit. cbv zeta.
  rewrite (proj2 (Z.ltb_ge (zlen p) 5)) by lia. rewrite HL. cbn [mbind option_bind].
  rewrite (proj2 (Z.leb_gt (zlen p) (1 + L))) by lia.
  pose proof (Hg 0 ltac:(lia)) as G. rewrite Z.add_0_r in G. rewrite G.
  change (zget (submit_tail _ _ _ _ _) 0) with (Some 1). cbn [mbind option_bind].
  change (Z.land (Z.shiftr 1 3) 3 =? 2) with false. cbv iota.
  rewrite (proj2 (Z.leb_gt (zlen p) (1 + L + 1))), (proj2 (Z.leb_gt (zlen p) (1 + L + 1 + 1))) by lia.
  replace (1 + L + 1 + 1) with (1 + L + 2) by lia. rewrite Hg by lia.
  change (zget (submit_tail _ _ _ _ _) 2) with (Some (zlen number)). cbn [mbind option_bind].
  replace (1 + L + 2 + 1 + 1) with (1 + L + 4) by lia. rewrite Hnum.
  rewrite !(proj2 (Z.leb_gt (zlen p) _)) by lia.
  replace (1 + L + 4 + (zlen number + 1) / 2 + 1) with
    (1 + L + (4 + zlen (digits_to_semi number 0 10) + 1)) by lia.
  rewrite Hg, Ht by lia. change (zget _ 1) with (Some dcs). cbn [mbind option_bind].
  replace (1 + L + 4 + (zlen number + 1) / 2 + 2 + 0) with
    (1 + L + (4 + zlen (digits_to_semi number 0 10) + 2)) by lia.
  rewrite Hg, Ht by lia. change (zget _ 2) with (Some udl). cbn [mbind option_bind].
  replace (1 + L + (4 + zlen (digits_to_semi number 0 10) + 2) + 1)
    with (zlen (submit_pdu sca mr number dcs udl [])) by lia.
  replace (zlen p - zlen (submit_pdu sca mr number dcs udl [])) with (zlen ud) by lia.
  done.
Qed.

(** The number and the text of a mobile-originated message are recovered: a
    PDU laid out as GSM 03.40 prescribes, with a destination of 1 to 20 digits
    and at most 160 septets of text over the default alphabet, makes the modem
    record exactly that number and that text and count one more message,
    whatever service centre address precedes it. *)
Theorem sms_submit_gsm7 sca mr number (l : list sym) ud bb :
  all_digits number = true -> 1 <= zlen number <= 20 ->
  forallb sym_ok l = true -> zlen (syms_septets l) <= 160 ->
  gsm7_pack (syms_text l) 180 = (ud, zlen (syms_septets l)) ->
  sms_parse_submit (submit_pdu sca mr number 0x00 (zlen (syms_septets l)) ud) bb =
  Some (bb <| b_sms; last_mo_num := number |> <| b_sms; last_mo_text := syms_text l |>
           <| b_sms; mo_count ::= fun c => u32 (c + 1) |>).
Proof.
  intros Hd Hn Hl Hs Hp. rewrite sms_parse_submit_fields by done.
  destruct (gsm7_unpack_pack l ud Hl Hs Hp) as (Hlen & Hu).
  unfold submit_text. change (Z.land (Z.shiftr 0 2) 3 =? 0) with true. cbv iota zeta.
  rewrite submit_pdu_ud. pose proof (zlen_nonneg (syms_septets l)).
  rewrite Z.min_l, Hu; [done|]. rewrite Hlen.
  apply Z.div_le_lower_bound; [lia|].
  pose proof (Z.div_mod (7 * zlen (syms_septets l) + 7) 8).
  pose proof (Z.mod_pos_bound (7 * zlen (syms_septets l) + 7) 8). lia.
Qed.

Lemma sms_submit_gsm7_witness :
  let l := [Main 72; Main 105; Ext 7] in
  exists ud, forall bb,
    sms_parse_submit (submit_pdu [0x91; 0x21] 7 (str "4155551") 0x00 4 ud) bb =
    Some (bb <| b_sms; last_mo_num := str "4155551" |> <| b_sms; last_mo_text := syms_text l |>
             <| b_sms; mo_count ::= fun c => u32 (c + 1) |>).
Proof.
  intros l. eexists. intros bb. subst l.
  refine (sms_submit_gsm7 [0x91; 0x21] 7 (str "4155551") [Main 72; Main 105; Ext 7]
    (fst (gsm7_pack (syms_text [Main 72; Main 105; Ext 7]) 180)) bb eq_refl _ eq_refl _ _);
    [vm_compute; split; discriminate|vm_compute; discriminate|vm_compute; reflexivity].
Defined.

(** The same for UCS2: a message of at most 70 16-bit units (of which the
    UTF-8 form fits the text buffer) is recovered exactly. *)
Theorem sms_submit_ucs2 sca mr number (cs : list Z) bb :
  all_digits number = true -> 1 <= zlen number <= 20 ->
  Forall (fun c => 0 <= c < 65536) cs -> zlen cs <= 70 ->
  sms_parse_submit (submit_pdu sca mr number 0x08 (2 * zlen cs)
                      (utf8_to_ucs2be (utf8_text cs) 0 320)) bb =
  Some (bb <| b_sms; last_mo_num := number |> <| b_sms; last_mo_text := utf8_text cs |>
           <| b_sms; mo_count ::= fun c => u32 (c + 1) |>).
Proof.
  intros Hd Hn Hc Hl. rewrite sms_parse_submit_fields by done.
  pose proof (zlen_nonneg cs). pose proof (zlen_utf8_text cs).
  rewrite utf8_to_ucs2be_text by (done || lia).
  unfold submit_text. change (Z.land (Z.shiftr 8 2) 3 =? 0) with false.
  change (Z.land (Z.shiftr 8 2) 3 =? 1) with false. cbv iota zeta.
  rewrite submit_pdu_ud, zlen_ucs2_octets, Z.min_id, submit_pdu_len, submit_pdu_len, zlen_ucs2_octets.
  change (zlen (@nil Z)) with 0. rewrite (proj2 (Z.leb_le _ _)) by lia.
  cbn [mbind option_bind]. unfold ucs2be_to_utf8.
  rewrite <- zlen_ucs2_octets, ztake_all, ucs2be_loop_text by (done || lia || (change (zlen (@nil Z)) with 0; lia)).
  done.
Qed.

Lemma sms_submit_ucs2_witness :
  sms_parse_submit (submit_pdu [] 0 (str "911") 0x08 6 [0x20; 0xac; 0; 65; 0x4e; 0x2d]) ex_core =
  Some (ex_core <| b_sms; last_mo_num := str "911" |>
           <| b_sms; last_mo_text := utf8_text [0x20ac; 65; 0x4e2d] |>
           <| b_sms; mo_count ::= fun c => u32 (c + 1) |>).
Proof.
  refine (sms_submit_ucs2 [] 0 (str "911") [0x20ac; 65; 0x4e2d] ex_core eq_refl _ _ _);
    [vm_compute; split; discriminate|repeat constructor; lia|vm_compute; discriminate].
Defined.

(** ** SMS-DELIVER *)

Lemma is_bytes_digits_to_semi d n max : is_bytes (digits_to_semi d n max).
Proof.
  remember (length d) as k eqn:Hk. revert d Hk n.
  induction k as [k IH] using lt_wf_ind. intros d -> n.
  destruct d as [|c t]; simpl; [constructor|]. destruct (_ <? _); [|constructor].
  destruct t as [|e t2]; [constructor; [apply u8_is_byte|constructor]|].
  destruct (is_digit e); (constructor; [apply u8_is_byte|]); (eapply IH; [|reflexivity]); simpl; lia.
Qed.

Lemma is_bytes_sca sca : is_bytes (sca_octets sca).
Proof.
  destruct sca; [repeat constructor; lia|].
  constructor; [apply u8_is_byte|]. constructor; [unfold is_byte; lia|]. apply is_bytes_digits_to_semi.
Qed.

Lemma is_bytes_scts ms : is_bytes (scts_from_ms ms).
Proof. unfold scts_from_ms, swapped_bcd. repeat (constructor; [apply u8_is_byte|]). constructor. Qed.

Lemma zlen_sca sca : 1 <= zlen (sca_octets sca) <= 12.
Proof.
  destruct sca as [|c t]; [done|]. unfold sca_octets. cbv zeta. rewrite !zlen_cons.
  pose proof (zlen_digits_to_semi_le (c :: t) 0 10 ltac:(lia)).
  pose proof (zlen_nonneg (digits_to_semi (c :: t) 0 10)). lia.
Qed.

Lemma byte_set_bit_all :
  forallb (fun b => forallb (fun k =>
    (0 <=? Z.lor b (Z.shiftl 1 (Z.land k 7))) && (Z.lor b (Z.shiftl 1 (Z.land k 7)) <? 256))
    all_bytes) all_bytes = true.
Proof. vm_compute. reflexivity. Qed.

Lemma byte_set_bit b k : is_byte b -> 0 <= k -> is_byte (Z.lor b (Z.shiftl 1 (Z.land k 7))).
Proof.
  intros Hb Hk. destruct (bit_index k Hk) as [_ E].
  assert (Hm : is_byte (k mod 8)) by (pose proof (Z.mod_pos_bound k 8); unfold is_byte; lia).
  pose proof (byte_forall2 _ byte_set_bit_all b (k mod 8) Hb Hm) as H. cbv beta in H.
  assert (Z.land (k mod 8) 7 = Z.land k 7) as F.
  { destruct (bit_index (k mod 8)) as [_ ->]; [unfold is_byte in Hm; lia|].
    rewrite E. apply Z.mod_mod. lia. }
  rewrite F in H. bool_hyps. unfold is_byte. lia.
Qed.

Lemma is_bytes_put_bits bits max pos out :
  is_bytes out -> 0 <= pos -> is_bytes (put_bits bits max pos out).1.1.
Proof.
  revert pos out. induction bits as [|x t IH]; intros pos out Ho Hp; [done|].
  cbn [put_bits]. cbv zeta. set (out1 := if x then _ else _).
  assert (is_bytes out1).
  { subst out1. destruct x; [|done]. apply Forall_insert; [done|].
    apply byte_set_bit; [by apply rd_is_byte|done]. }
  destruct (_ <? _); [done|]. apply IH; [done|lia].
Qed.

Lemma is_bytes_gsm7_pack s max out n : gsm7_pack s max = (out, n) -> is_bytes out.
Proof.
  unfold gsm7_pack. pose proof (is_bytes_put_bits (concat (septet_bits <$> gsm7_septets s)) max 0
    (replicate (Z.to_nat max) 0)) as H.
  destruct (put_bits _ _ _ _) as [[o p] b]. intros E. simplify_eq. simpl in H.
  apply is_bytes_take, H; [|lia]. apply Forall_replicate. unfold is_byte. lia.
Qed.

Lemma is_bytes_ucs2_octets cs : Forall (fun c => 0 <= c < 65536) cs -> is_bytes (ucs2_octets cs).
Proof.
  induction 1 as [|c cs Hc _ IH]; [constructor|]. rewrite ucs2_octets_cons.
  assert (E : Z.land c 0xff = c mod 256) by (change 0xff with (Z.ones 8); apply Z.land_ones; lia).
  constructor; [|constructor; [|done]]; unfold is_byte.
  - rewrite Z.shiftr_div_pow2 by lia. split; [apply Z.div_pos; lia|apply Z.div_lt_upper_bound; lia].
  - rewrite E. apply Z.mod_pos_bound. lia.
Qed.

(** A text that fits one message: 160 septets when the modem packs it, 70 16-bit
    units when it does not. *)
Definition one_message (cs : list Z) : Prop :=
  if gsm7_encodable (utf8_text cs) then zlen (gsm7_septets (utf8_text cs)) <= 160 else zlen cs <= 70.

(** What a phone reads in the transport part of a message, by TS 23.040 and
    23.038 alone: as many address digits as announced, the low half of each octet
    first; septets from the user data as one little endian number, or 16-bit units,
    high octet first; and no octet missing or left over. *)
Definition half_octets (l : bytes) : list Z := concat ((fun b => [Z.land b 0xf; Z.shiftr b 4]) <$> l).

Fixpoint phone_units (l : bytes) : list Z :=
  match l with
  | h :: l0 :: t => (256 * h + l0) :: phone_units t
  | _ => []
  end.

Definition phone_reads (tpdu : bytes) : option (bytes * list Z) :=
  alen ← zget tpdu 1;
  let k := (alen + 1) / 2 in
  let num := Z.add 48 <$> ztake alen (half_octets (ztake k (zdrop 3 tpdu))) in
  dcs ← zget tpdu (3 + k + 1);
  udl ← zget tpdu (3 + k + 9);
  let ud := zdrop (3 + k + 10) tpdu in
  if dcs =? 8 then if zlen ud =? udl then Some (num, phone_units ud) else None
  else if zlen ud =? (7 * udl + 7) / 8 then Some (num, phone_chars (phone_septets udl ud)) else None.

(** The characters that come out. *)
Definition heard (cs : list Z) : list Z :=
  if gsm7_encodable (utf8_text cs) then phone_chars (gsm7_septets (utf8_text cs)) else cs.

Lemma half_octets_digits d n max :
  all_digits d = true -> zlen d <= 2 * (max - n) ->
  Z.add 48 <$> ztake (zlen d) (half_octets (digits_to_semi d n max)) = d.
Proof.
  unfold ztake, zlen. rewrite Nat2Z.id. remember (length d) as k eqn:Hk. revert d Hk n.
  induction k as [k IH] using lt_wf_ind. intros d -> n Hd H.
  destruct d as [|c t]; [done|]. simpl in Hd. apply andb_prop in Hd as [Hc Hd]. cbn [digits_to_semi].
  simpl length in H. rewrite (proj2 (Z.ltb_lt n max)) by lia.
  destruct t as [|e t2].
  - destruct (semi_last c Hc) as [E1 _]. cbv zeta in E1. simpl. rewrite E1. f_equal. lia.
  - simpl in Hd. apply andb_prop in Hd as [He Hd]. rewrite He. destruct (semi_pair c e Hc He) as [E1 E2]. cbv zeta in E1, E2.
    set (b := u8 (Z.lor (Z.shiftl (e - 48) 4) (c - 48))) in *.
    change (half_octets (b :: ?l)) with (Z.land b 0xf :: Z.shiftr b 4 :: half_octets l). rewrite E1, E2. cbn [length take fmap list_fmap].
    f_equal; [lia|]. f_equal; [lia|]. simpl length in H. apply (IH (length t2)); [simpl; lia|done|done|lia].
Qed.

Lemma phone_units_octets cs : Forall is_unit cs -> phone_units (ucs2_octets cs) = cs.
Proof.
  induction 1 as [|c cs Hc _ IH]; [done|]. rewrite ucs2_octets_cons. cbn [phone_units]. rewrite IH. f_equal.
  change 0xff with (Z.ones 8). rewrite Z.shiftr_div_pow2, Z.land_ones by lia. change (2 ^ 8) with 256.
  pose proof (Z.div_mod c 256). lia.
Qed.

Definition deliver_tpdu (number : bytes) (dcs : Z) (scts ud : bytes) (udl : Z) : bytes :=
  [0x04; zlen number; 0x91] ++ digits_to_semi number 0 10 ++ [0x00; dcs] ++ scts ++ udl :: ud.

Lemma phone_reads_tpdu number dcs scts ud udl :
  all_digits number = true -> zlen number <= 20 -> zlen scts = 7 ->
  phone_reads (deliver_tpdu number dcs scts ud udl) =
  if dcs =? 8 then if zlen ud =? udl then Some (number, phone_units ud) else None
  else if zlen ud =? (7 * udl + 7) / 8 then Some (number, phone_chars (phone_septets udl ud)) else None.
Proof.
  intros Hd Hn Hs. unfold phone_reads, deliver_tpdu.
  change (zget (_ ++ _) 1) with (Some (zlen number)). cbn [mbind option_bind]. cbv zeta.
  rewrite <- (zlen_digits_to_semi number 0 10) by (done || lia).
  set (semi := digits_to_semi number 0 10). pose proof (zlen_nonneg semi).
  assert (E : zlen ([0x04; zlen number; 0x91] ++ semi) = 3 + zlen semi) by (rewrite zlen_app; done).
  assert (E2 : zlen ([0x00; dcs] ++ scts) = 9) by (rewrite zlen_app, Hs; done).
  rewrite (zdrop_app_r [_; _; _] _ 3) by done. change (3 - zlen _) with 0.
  change (zdrop 0) with (fun l : bytes => l). cbv beta.
  rewrite ztake_app_len. subst semi. rewrite half_octets_digits by (done || lia). set (semi := digits_to_semi number 0 10) in *.
  rewrite (app_assoc _ semi), (app_assoc [_; _] scts).
  assert (G : forall i, 0 <= i ->
    zget (([0x04; zlen number; 0x91] ++ semi) ++ ([0x00; dcs] ++ scts) ++ udl :: ud) (3 + zlen semi + i)
    = zget (([0x00; dcs] ++ scts) ++ udl :: ud) i).
  { intros i Hi. rewrite zget_app_r, E by lia. f_equal. lia. }
  rewrite (G 1), (G 9) by lia. change (zget _ 1) with (Some dcs). cbn [mbind option_bind].
  rewrite (zget_app_r _ _ 9), E2, Z.sub_diag by lia.
  change (zget (udl :: ud) 0) with (Some udl). cbn [mbind option_bind].
  rewrite (zdrop_app_r (_ ++ semi)), E by lia.
  replace (3 + zlen semi + 10 - (3 + zlen semi)) with 10 by lia.
  rewrite zdrop_app_r, E2 by lia. change (zdrop _ (udl :: ud)) with ud.
  done.
Qed.

Lemma digits_to_semi_room d n max max' :
  all_digits d = true -> zlen d <= 2 * (max - n) -> zlen d <= 2 * (max' - n) ->
  digits_to_semi d n max = digits_to_semi d n max'.
Proof.
  remember (length d) as k eqn:Hk. revert d Hk n.
  induction k as [k IH] using lt_wf_ind. intros d -> n Hd H H'.
  destruct d as [|c t]; [done|]. simpl. simpl in Hd. apply andb_prop in Hd as [_ Hd].
  rewrite zlen_cons in *. pose proof (zlen_nonneg t).
  rewrite (proj2 (Z.ltb_lt n max)), (proj2 (Z.ltb_lt n max')) by lia.
  destruct t as [|e t2]; [done|]. simpl in Hd. apply andb_prop in Hd as [He Hd].
  rewrite He. f_equal. rewrite zlen_cons in *.
  eapply IH; [|reflexivity|done|lia|lia]. simpl. lia.
Qed.

(** The user data of a text that fits, and what a phone reads in it. *)
Lemma deliver_ud_ok cs :
  Forall is_unit cs -> one_message cs ->
  exists udl ud, deliver_ud (utf8_text cs) = Some (udl :: ud) /\ is_bytes (udl :: ud) /\ zlen ud <= 140 /\
    if gsm7_encodable (utf8_text cs) then zlen ud = (7 * udl + 7) / 8 /\ phone_chars (phone_septets udl ud) = heard cs
    else zlen ud = udl /\ phone_units ud = heard cs.
Proof.
  intros Hc Ho. unfold deliver_ud, heard. unfold one_message in Ho.
  assert (Hc' : Forall (fun c => 0 <= c < 65536) cs) by (eapply Forall_impl; [exact Hc|unfold is_unit; lia]).
  destruct (gsm7_encodable (utf8_text cs)); cbn [negb].
  - set (l := gsm7_septets (utf8_text cs)) in *. pose proof (zlen_nonneg l).
    destruct (gsm7_pack (utf8_text cs) 180) as [ud n] eqn:Ep.
    assert (7 * zlen l / 8 <= 140) by (transitivity (7 * 160 / 8); [apply Z.div_le_mono; lia|done]).
    destruct (phone_septets_pack _ _ _ _ Ep (is_bytes_gsm7_pack _ _ _ _ Ep)) as (-> & Hz & Hs); [fold l; lia|]. fold l in Hz, Hs |- *.
    assert (zlen ud <= 140) by (rewrite Hz; transitivity (1127 / 8); [apply Z.div_le_mono; lia|done]).
    rewrite (proj2 (Z.ltb_ge 160 _)), (proj2 (Z.ltb_ge 140 _)) by lia. cbn [orb]. rewrite u8_id by (unfold is_byte; lia).
    eexists _, _. split_and!; [done| |done|done|by rewrite Hs].
    constructor; [unfold is_byte; lia|]. exact (is_bytes_gsm7_pack _ _ _ _ Ep).
  - pose proof (zlen_nonneg cs). rewrite utf8_to_ucs2be_text by (done || lia). cbv zeta. rewrite zlen_ucs2_octets.
    rewrite (proj2 (Z.ltb_ge 140 _)) by lia. rewrite u8_id by (unfold is_byte; lia).
    eexists _, _. split_and!; [done| |rewrite zlen_ucs2_octets; lia|by rewrite zlen_ucs2_octets|by apply phone_units_octets].
    constructor; [unfold is_byte; lia|by apply is_bytes_ucs2_octets].
Qed.

(** The octets of the message: the address of the service centre, then the
    transport part. *)
Lemma deliver_octets_tpdu bb number text udl ud :
  all_digits number = true -> zlen number <= 20 ->
  deliver_ud text = Some (udl :: ud) ->
  deliver_octets bb number text =
  Some (sca_octets bb.(b_ctl).(sca) ++
        deliver_tpdu number (if negb (gsm7_encodable text) then 8 else 0)
          (scts_from_ms (bb.(b_env).(now_ms) + bb.(b_env).(wall_offset_ms))) ud udl).
Proof.
  intros Hd Hn Hu. unfold deliver_octets, deliver_tpdu. cbv zeta. rewrite Hu.
  cbn [mbind option_bind]. pose proof (zlen_nonneg number).
  rewrite u8_id by (unfold is_byte; lia).
  pose proof (zlen_sca bb.(b_ctl).(sca)) as Hs. set (hdr := sca_octets _) in *.
  assert (E : zlen (hdr ++ [4; zlen number; 0x91]) = zlen hdr + 3) by (rewrite zlen_app; done).
  rewrite E. change OCT_SIZE with 196.
  rewrite (digits_to_semi_room number 0 (196 - (zlen hdr + 3)) 10) by (done || lia).
  f_equal. by rewrite <- !app_assoc.
Qed.

Lemma deliver_tpdu_size number dcs scts ud udl :
  zlen number <= 20 -> is_bytes scts -> zlen scts = 7 -> is_bytes (udl :: ud) -> is_byte dcs ->
  zlen ud <= 140 ->
  is_bytes (deliver_tpdu number dcs scts ud udl) /\ zlen (deliver_tpdu number dcs scts ud udl) <= 163.
Proof.
  intros Hn Hb Hs Hu Hc Hl. unfold deliver_tpdu. pose proof (zlen_nonneg number). split.
  - repeat (apply is_bytes_app; split); [|apply is_bytes_digits_to_semi| |done|done];
      repeat constructor; unfold is_byte in *; lia.
  - rewrite !zlen_app, (zlen_cons udl ud), Hs. pose proof (zlen_digits_to_semi_le number 0 10 ltac:(lia)).
    change (zlen [4; zlen number; 145]) with 3. change (zlen [0; dcs]) with 2. lia.
Qed.

(** C8. A text of characters up to U+FFFF from a sender of 1 to 20 digits, of at most
    160 septets when the modem packs it and at most 70 characters when it does not,
    is built into one PDU: at most 175 octets, so neither the octet array nor the
    400-byte hexadecimal buffer overflows; the hexadecimal form decodes to those
    octets; and a phone that reads the announced number of transport octets by
    TS 23.040 and 23.038 finds exactly the sender and [heard].  That is the text
    itself when it is sent as 16-bit units.  When it is packed it is what the
    standard alphabet makes of the modem's septets: without a capital AE, whose
    septet is the escape code, it is the text character by character but for the
    nine characters of [shown] (small ae, sharp s, capital E acute, section sign,
    inverted question mark, no-break space, small u diaeresis, small n tilde and
    the closing bracket), which the modem's tables have at another's place. *)
Theorem sms_deliver_roundtrip bb number cs :
  all_digits number = true -> 1 <= zlen number <= 20 -> Forall is_unit cs -> one_message cs ->
  (exists oct tpdu,
    sms_build_deliver bb number (utf8_text cs) 400 = Some (bytes_to_hex oct, zlen oct, tpdu) /\
    zlen oct <= 175 /\ hex_nibbles (bytes_to_hex oct) 0 220 = oct /\
    phone_reads (zdrop (zlen oct - tpdu) oct) = Some (number, heard cs)) /\
  (0xc6 ∉ cs -> heard cs = if gsm7_encodable (utf8_text cs) then shown <$> cs else cs).
Proof.
  intros Hd Hn Hc Ho. split.
  2: { intros Hne. unfold heard. unfold one_message in Ho. destruct (gsm7_encodable (utf8_text cs)) eqn:E; [by apply phone_shows|reflexivity]. }
  destruct (deliver_ud_ok cs Hc Ho) as (udl & ud & Eu & Hb & Hl & Hdec).
  set (dcs := if negb (gsm7_encodable (utf8_text cs)) then 8 else 0).
  set (scts := scts_from_ms (bb.(b_env).(now_ms) + bb.(b_env).(wall_offset_ms))).
  pose proof (deliver_octets_tpdu bb number _ udl ud Hd ltac:(lia) Eu) as Eo.
  fold dcs scts in Eo. set (hdr := sca_octets _) in *.
  pose proof (zlen_sca bb.(b_ctl).(sca)) as Hs. fold hdr in Hs.
  destruct (deliver_tpdu_size number dcs scts ud udl) as [Hby Hsz];
    [lia|apply is_bytes_scts|done|done|subst dcs; split_ifs; unfold is_byte; lia|done|].
  set (t := deliver_tpdu number dcs scts ud udl) in *. pose proof (zlen_nonneg t).
  assert (Ez : zlen (hdr ++ t) = zlen hdr + zlen t) by apply zlen_app.
  exists (hdr ++ t), (zlen t). split_and!.
  - unfold sms_build_deliver. rewrite (proj2 (Z.ltb_ge 20 _)) by lia. rewrite Eo.
    cbn [mbind option_bind]. cbv zeta. fold hdr.
    rewrite (proj2 (Z.ltb_ge 400 _)) by lia. do 2 f_equal. lia.
  - lia.
  - apply hex_roundtrip_from; [|lia]. apply is_bytes_app. split; [apply is_bytes_sca|done].
  - replace (zlen (hdr ++ t) - zlen t) with (zlen hdr) by lia. rewrite zdrop_app_len.
    subst t. rewrite phone_reads_tpdu by (done || lia).
    subst dcs. destruct (gsm7_encodable (utf8_text cs)); destruct Hdec as [Hz Hx]; cbn [negb Z.eqb Pos.eqb];
      rewrite Hz, Z.eqb_refl, Hx; reflexivity.
Qed.

(** Packed, with a character at another's place; and as 16-bit units. *)
Lemma sms_deliver_roundtrip_witness :
  (exists oct tpdu,
    sms_build_deliver ex_core (str "14155551212") (utf8_text [72; 0x20ac; 0xfc; 0x5d]) 400 =
      Some (bytes_to_hex oct, zlen oct, tpdu) /\
    phone_reads (zdrop (zlen oct - tpdu) oct) = Some (str "14155551212", [72; 0x20ac; 0xf1; 0x7e])) /\
  (exists oct tpdu,
    sms_build_deliver ex_core (str "911") (utf8_text [0x4e2d; 0x6587]) 400 = Some (bytes_to_hex oct, zlen oct, tpdu) /\
    phone_reads (zdrop (zlen oct - tpdu) oct) = Some (str "911", [0x4e2d; 0x6587])).
Proof.
  split.
  - destruct (sms_deliver_roundtrip ex_core (str "14155551212") [72; 0x20ac; 0xfc; 0x5d]) as [(oct & tpdu & H & _ & _ & H') _].
    + reflexivity.
    + vm_compute. split; discriminate.
    + repeat constructor; lia.
    + vm_compute. discriminate.
    + exists oct, tpdu. exact (conj H H').
  - destruct (sms_deliver_roundtrip ex_core (str "911") [0x4e2d; 0x6587]) as [(oct & tpdu & H & _ & _ & H') _].
    + reflexivity.
    + vm_compute. split; discriminate.
    + repeat constructor; lia.
    + vm_compute. discriminate.
    + exists oct, tpdu. exact (conj H H').
Defined.
