(* ===== verification/BbLinkFacts.v ===== *)
(** * Facts about the H5 link

    SLIP framing and H5 packets as the receiver sees them, and the CRC table
    against a bit-serial definition. *)

From Stdlib Require Import ZArith Lia String.
From stdpp Require Import base numbers list.
From S2P Require Import Prelude CLib BbState BbTx BbRx BbTick.
Local Open Scope Z_scope.

(** ** SLIP *)

(** The receiver between frames, with room for a packet of [n] bytes. *)
Definition rx_idle (l : Link) : Prop :=
  l.(h5_in_frame) = false /\ l.(h5_esc) = false /\ l.(h5_rxlen) = 0.

(** The receive buffer after [pkt] was appended to the [h5_rxlen] bytes in it. *)
Definition rx_filled (pkt : bytes) (l : Link) : Link :=
  l <| h5_in_frame := true |>
    <| h5_rx ::= fun r => blit r (Z.to_nat l.(h5_rxlen)) pkt |>
    <| h5_rxlen ::= fun n => n + zlen pkt |>.

#[local] Arguments h5_push : simpl never.

Lemma h5_push_room c bb :
  bb.(b_link).(h5_rxlen) < 2048 ->
  h5_push c bb = bb <| b_link; h5_rx ::= fun r => wr r bb.(b_link).(h5_rxlen) c |>
                    <| b_link; h5_rxlen ::= fun n => n + 1 |>.
Proof. intros H. unfold h5_push. rewrite (proj2 (Z.ltb_lt _ H5_RX_SIZE)); done. Qed.

Lemma h5_slip_byte c bb :
  bb.(b_link).(h5_esc) = false -> bb.(b_link).(h5_rxlen) < 2048 ->
  fold_left h5_byte (slip_byte c) bb = bb <| b_link ::= rx_filled [c] |>.
Proof.
  destruct bb as [ctl sim link mux ch at_ reg drv call sms data gps env].
  destruct link as [h a cr inf esc rx rl ts rn na un lt tq]. simpl. intros -> Hr.
  assert (Hpush : forall b, h5_push b
      (mkCore ctl sim (mkLink h a cr true false rx rl ts rn na un lt tq)
         mux ch at_ reg drv call sms data gps env) =
      mkCore ctl sim (mkLink h a cr true false (wr rx rl b) (rl + 1) ts rn na un lt tq)
         mux ch at_ reg drv call sms data gps env)
    by (intros b; rewrite h5_push_room; [reflexivity|exact Hr]).
  unfold slip_byte. destruct (Z.eqb_spec c 0xc0) as [->|H1];
    [|destruct (Z.eqb_spec c 0xdb) as [->|H2]]; destruct inf; try exact (Hpush _);
    cbn [fold_left]; unfold h5_byte, h5_frame_byte; simpl;
    rewrite (proj2 (Z.eqb_neq c 0xc0) H1), ?(proj2 (Z.eqb_neq c 0xdb) H2); exact (Hpush c).
Qed.


Lemma blit_app buf off p q : blit buf off (p ++ q) = blit (blit buf off p) (off + length p)%nat q.
Proof.
  revert buf off. induction p as [|b p IH]; intros buf off; simpl.
  - by rewrite Nat.add_0_r.
  - rewrite IH. f_equal. lia.
Qed.

Lemma rx_filled_cons c p l :
  0 <= l.(h5_rxlen) -> rx_filled p (rx_filled [c] l) = rx_filled (c :: p) l.
Proof.
  intros H. destruct l as [h a cr inf esc rx rl ts rn na un lt tq]. simpl in H.
  assert (E : Z.to_nat (rl + 1) = S (Z.to_nat rl)) by lia.
  assert (E' : rl + zlen [c] + zlen p = rl + zlen (c :: p)) by (rewrite (zlen_cons c p); change (zlen [c]) with 1; lia).
  change (rx_filled p (rx_filled [c] _)) with
    (mkLink h a cr true esc (blit (blit rx (Z.to_nat rl) [c]) (Z.to_nat (rl + 1)) p)
       (rl + zlen [c] + zlen p) ts rn na un lt tq).
  rewrite E, E'. reflexivity.
Qed.

Lemma h5_slip_bytes pkt bb :
  bb.(b_link).(h5_esc) = false -> 0 <= bb.(b_link).(h5_rxlen) ->
  bb.(b_link).(h5_rxlen) + zlen pkt <= 2048 -> pkt <> [] ->
  fold_left h5_byte (concat (slip_byte <$> pkt)) bb = bb <| b_link ::= rx_filled pkt |>.
Proof.
  revert bb. induction pkt as [|c p IH]; intros bb He H0 Hl Hne; [done|].
  change (concat (slip_byte <$> c :: p)) with (slip_byte c ++ concat (slip_byte <$> p)).
  rewrite zlen_cons in Hl. pose proof (zlen_nonneg p).
  rewrite fold_left_app, h5_slip_byte by (done || lia).
  destruct p as [|d p']; [done|].
  assert (E : h5_rxlen (b_link (bb <| b_link ::= rx_filled [c] |>)) = h5_rxlen (b_link bb) + 1)
    by reflexivity.
  rewrite IH by (rewrite ?E; done || lia). clear E.
  destruct bb as [ctl sim link mux ch at_ reg drv call sms data gps env].
  change (mkCore ctl sim (rx_filled (d :: p') (rx_filled [c] link)) mux ch at_ reg drv call sms data gps env
    = mkCore ctl sim (rx_filled (c :: d :: p') link) mux ch at_ reg drv call sms data gps env).
  by rewrite rx_filled_cons.
Qed.

(** A whole framed packet: the receiver hands the unescaped bytes to
    [h5_rx_pkt] once, and is between frames again. *)
Lemma h5_input_slip pkt bb :
  rx_idle bb.(b_link) -> pkt <> [] -> zlen pkt <= 2048 ->
  h5_input (slip_wire pkt) bb =
  (h5_rx_pkt (blit bb.(b_link).(h5_rx) 0 pkt) (zlen pkt) (bb <| b_link ::= rx_filled pkt |>))
    <| b_link; h5_rxlen := 0 |> <| b_link; h5_in_frame := false |>.
Proof.
  intros (Hf & He & Hr) Hne Hl. unfold h5_input, slip_wire.
  rewrite !fold_left_app. cbn [fold_left].
  assert (h5_byte bb 0xc0 = bb) as ->.
  { unfold h5_byte. rewrite Hf, Hr. simpl. destruct bb as [? ? []]. simpl in Hr. by rewrite Hr. }
  rewrite h5_slip_bytes by (done || lia).
  unfold h5_byte, h5_frame_byte. simpl. rewrite He. simpl.
  unfold h5_deliver. simpl. by rewrite Hr.
Qed.

Lemma blit_at pre buf src :
  (length src <= length buf)%nat ->
  blit (pre ++ buf) (length pre) src = pre ++ src ++ drop (length src) buf.
Proof.
  revert pre buf. induction src as [|b t IH]; intros pre buf H; [done|].
  destruct buf as [|x buf]; simpl in H; [lia|]. simpl.
  rewrite insert_app_r_alt, Nat.sub_diag by lia. simpl.
  specialize (IH (pre ++ [b]) buf ltac:(lia)).
  rewrite length_app, Nat.add_1_r, <- !app_assoc in IH. exact IH.
Qed.

Lemma blit_0 buf src :
  (length src <= length buf)%nat -> blit buf 0 src = src ++ drop (length src) buf.
Proof. exact (blit_at [] buf src). Qed.

(** ** Packets *)

(** The four header octets, for any sequence and acknowledgement numbers. *)
Definition hdr0 (seq ack : Z) (crc rel : bool) : Z :=
  u8 (Z.lor (Z.lor (Z.lor seq (Z.shiftl ack 3)) (Z.shiftl (b2z crc) 6)) (Z.shiftl (b2z rel) 7)).

Definition octal : list Z := [0; 1; 2; 3; 4; 5; 6; 7].

Lemma elem_octal s : 0 <= s < 8 -> In s octal.
Proof. intros H. unfold octal. simpl. lia. Qed.

Lemma hdr0_all :
  forallb (fun s => forallb (fun a => forallb (fun c => forallb (fun r =>
    let p := hdr0 s a c r in
    (0 <=? p) && (p <? 256) && (Z.land p 7 =? s) && (Z.land (Z.shiftr p 3) 7 =? a) &&
    Bool.eqb (Z.testbit p 6) c && Bool.eqb (Z.testbit p 7) r)
    [true; false]) [true; false]) octal) octal = true.
Proof. vm_compute. reflexivity. Qed.

Lemma hdr0_fields seq ack crc rel :
  0 <= seq < 8 -> 0 <= ack < 8 ->
  let p := hdr0 seq ack crc rel in
  is_byte p /\ Z.land p 7 = seq /\ Z.land (Z.shiftr p 3) 7 = ack /\
  Z.testbit p 6 = crc /\ Z.testbit p 7 = rel.
Proof.
  intros Hs Ha p. pose proof hdr0_all as H.
  rewrite forallb_forall in H. specialize (H seq (elem_octal _ Hs)).
  rewrite forallb_forall in H. specialize (H ack (elem_octal _ Ha)).
  rewrite forallb_forall in H. specialize (H crc ltac:(destruct crc; simpl; auto)).
  rewrite forallb_forall in H. specialize (H rel ltac:(destruct rel; simpl; auto)).
  cbv zeta in H. fold p in H. bool_hyps. unfold is_byte.
  repeat match goal with E : Bool.eqb _ _ = true |- _ => apply eqb_prop in E end. auto.
Qed.

(** Length and type octets. *)
Definition hdr1 (type len : Z) : Z := u8 (Z.lor type (Z.shiftl (Z.land len 0xf) 4)).
Definition hdr2 (len : Z) : Z := u8 (Z.shiftr len 4).

Lemma len_all :
  forallb (fun n => let len := Z.of_nat n in
    forallb (fun t => (Z.land (hdr1 t len) 0xf =? t) && (0 <=? hdr1 t len) && (hdr1 t len <? 256) &&
      (Z.lor (Z.shiftr (hdr1 t len) 4) (Z.shiftl (hdr2 len) 4) =? len)) [0; 14; 15])
  (seq 0 1501) = true.
Proof. vm_compute. reflexivity. Qed.

Lemma len_fields type len :
  (type = 0 \/ type = 14 \/ type = 15) -> 0 <= len <= 1500 ->
  is_byte (hdr1 type len) /\ Z.land (hdr1 type len) 0xf = type /\
  Z.lor (Z.shiftr (hdr1 type len) 4) (Z.shiftl (hdr2 len) 4) = len.
Proof.
  intros Ht Hl. pose proof len_all as H. rewrite forallb_forall in H.
  specialize (H (Z.to_nat len)). rewrite in_seq in H. specialize (H ltac:(lia)).
  rewrite forallb_forall in H. specialize (H type ltac:(simpl; lia)).
  rewrite Z2Nat.id in H by lia. cbv zeta in H. bool_hyps. unfold is_byte. auto.
Qed.

Lemma u8_lnot_lnot s : u8 (Z.lnot (u8 (Z.lnot s))) = u8 s.
Proof.
  unfold u8, Z.lnot, Z.pred.
  pose proof (Z.div_mod (- s + -1) 256).
  replace (- ((- s + -1) mod 256) + -1) with (s + (- s + -1) / 256 * 256) by lia.
  apply Z.mod_add. lia.
Qed.

Lemma u8_small_bits c : 0 <= c < 65536 ->
  Z.lor (Z.shiftl (u8 (Z.shiftr c 8)) 8) (u8 c) = c.
Proof.
  intros H. apply Z.eqb_eq. revert c H.
  apply (u16_forall (fun c => Z.lor (Z.shiftl (u8 (Z.shiftr c 8)) 8) (u8 c) =? c)).
  vm_compute. reflexivity.
Qed.

Lemma ios_bb_h5_crc_range p : 0 <= ios_bb_h5_crc p < 65536.
Proof.
  unfold ios_bb_h5_crc, bitrev16.
  change (seq 0 16) with (seq 0 15 ++ [15%nat]). rewrite fold_left_app. cbn [fold_left].
  unfold u16. apply Z.mod_pos_bound. lia.
Qed.

(** Which packets carry a CRC. *)
Definition pkt_crc (l : Link) (type : Z) : bool := l.(h5_crc) && negb (type =? H5_TYPE_LINK).

Definition pkt_head (l : Link) (type : Z) (rel : bool) (seq len : Z) : bytes :=
  let p0 := hdr0 seq l.(h5_rx_next) (pkt_crc l type) rel in
  [p0; hdr1 type len; hdr2 len; u8 (Z.lnot (p0 + hdr1 type len + hdr2 len))].

Definition pkt_tail (crc : bool) (body : bytes) : bytes :=
  if crc then [u8 (Z.shiftr (ios_bb_h5_crc body) 8); u8 (ios_bb_h5_crc body)] else [].

Lemma h5_packet_eq l type rel seq data :
  h5_packet l type rel seq data =
  (pkt_head l type rel seq (zlen data) ++ data) ++
  pkt_tail (pkt_crc l type) (pkt_head l type rel seq (zlen data) ++ data).
Proof.
  unfold h5_packet, pkt_tail, pkt_head, pkt_crc, hdr0, hdr1, hdr2. cbv zeta.
  destruct (h5_crc l && negb (type =? H5_TYPE_LINK)); [reflexivity|by rewrite app_nil_r].
Qed.

Lemma zlen_pkt_tail crc body : zlen (pkt_tail crc body) = b2z crc * 2.
Proof. destruct crc; reflexivity. Qed.

Lemma zlen_h5_packet l type rel seq data :
  zlen (h5_packet l type rel seq data) = 4 + zlen data + b2z (pkt_crc l type) * 2.
Proof. rewrite h5_packet_eq, !zlen_app, zlen_pkt_tail. reflexivity. Qed.

Lemma rd_app_r l k i : zlen l <= i -> rd (l ++ k) i = rd k (i - zlen l).
Proof.
  intros H. unfold rd, zlen in *. rewrite lookup_app_r by lia. do 2 f_equal. lia.
Qed.

Lemma rd_app_l l k i : 0 <= i < zlen l -> rd (l ++ k) i = rd l i.
Proof. intros H. unfold rd, zlen in *. by rewrite lookup_app_l by lia. Qed.

(** Well-formed arguments of a packet. *)
Definition pkt_args (l : Link) (type seq : Z) (data : bytes) : Prop :=
  0 <= l.(h5_rx_next) < 8 /\ 0 <= seq < 8 /\ (type = 0 \/ type = 14 \/ type = 15) /\
  zlen data <= 1500.

(** The octets of a packet, one by one. *)
Lemma rd_head l type rel seq len rest :
  let p0 := hdr0 seq l.(h5_rx_next) (pkt_crc l type) rel in
  rd (pkt_head l type rel seq len ++ rest) 0 = p0 /\
  rd (pkt_head l type rel seq len ++ rest) 1 = hdr1 type len /\
  rd (pkt_head l type rel seq len ++ rest) 2 = hdr2 len /\
  rd (pkt_head l type rel seq len ++ rest) 3 = u8 (Z.lnot (p0 + hdr1 type len + hdr2 len)).
Proof.
  intros p0. unfold pkt_head. fold p0. cbv zeta.
  generalize (u8 (Z.lnot (p0 + hdr1 type len + hdr2 len))), p0, (hdr1 type len), (hdr2 len).
  intros. split_and!; reflexivity.
Qed.

Lemma h5_packet_split l type rel seq data rest :
  exists tail, h5_packet l type rel seq data ++ rest =
    pkt_head l type rel seq (zlen data) ++ data ++ tail.
Proof. eexists. rewrite h5_packet_eq, <- !app_assoc. reflexivity. Qed.

(** What the receiver reads in a packet the sender built. *)
Lemma h5_packet_fields l type rel seq data rest :
  pkt_args l type seq data ->
  let p := h5_packet l type rel seq data ++ rest in
  Z.land (rd p 0) 7 = seq /\ Z.land (Z.shiftr (rd p 0) 3) 7 = l.(h5_rx_next) /\
  Z.testbit (rd p 0) 6 = pkt_crc l type /\
  Z.testbit (rd p 0) 7 = rel /\ Z.land (rd p 1) 0xf = type /\
  Z.lor (Z.shiftr (rd p 1) 4) (Z.shiftl (rd p 2) 4) = zlen data /\
  u8 (rd p 0 + rd p 1 + rd p 2) = u8 (Z.lnot (rd p 3)) /\
  ztake (zlen data) (zdrop 4 p) = data.
Proof.
  intros (Hn & Hs & Ht & Hd) p. pose proof (zlen_nonneg data).
  destruct (hdr0_fields seq l.(h5_rx_next) (pkt_crc l type) rel Hs Hn) as (_ & E1 & E2 & E3 & E4).
  destruct (len_fields type (zlen data) Ht ltac:(lia)) as (_ & E5 & E6).
  destruct (h5_packet_split l type rel seq data rest) as [tail Ep]. fold p in Ep. rewrite Ep.
  destruct (rd_head l type rel seq (zlen data) (data ++ tail)) as (-> & -> & -> & ->).
  rewrite u8_lnot_lnot. split_and!; try assumption; try reflexivity.
  change 4 with (zlen (pkt_head l type rel seq (zlen data))). rewrite zdrop_app_len.
  apply ztake_app_len.
Qed.

(** The CRC octets, as the receiver puts them together. *)
Lemma h5_packet_crc l type rel seq data rest :
  pkt_crc l type = true ->
  let p := h5_packet l type rel seq data ++ rest in
  ios_bb_h5_crc (ztake (4 + zlen data) p) =
  Z.lor (Z.shiftl (rd p (4 + zlen data)) 8) (rd p (4 + zlen data + 1)).
Proof.
  intros Hc p. set (body := pkt_head l type rel seq (zlen data) ++ data).
  assert (Hb : zlen body = 4 + zlen data) by (unfold body; rewrite zlen_app; reflexivity).
  assert (Ep : p = body ++ pkt_tail true body ++ rest)
    by (unfold p; rewrite h5_packet_eq, Hc, <- app_assoc; reflexivity).
  rewrite Ep, <- Hb, ztake_app_len, (rd_app_r body _ (zlen body)), (rd_app_r body _ (zlen body + 1)) by lia.
  rewrite Z.sub_diag. replace (zlen body + 1 - zlen body) with 1 by lia. unfold pkt_tail.
  pose proof (ios_bb_h5_crc_range body) as Hr. revert Hr. generalize (ios_bb_h5_crc body).
  intros c Hr. symmetry. exact (u8_small_bits c Hr).
Qed.

(** A packet the sender built passes the receiver's checks. *)
Lemma h5_packet_ok l type rel seq data rest :
  pkt_args l type seq data ->
  h5_pkt_ok (h5_packet l type rel seq data ++ rest) (zlen (h5_packet l type rel seq data)) = true.
Proof.
  intros Ha. destruct (h5_packet_fields l type rel seq data rest Ha)
    as (_ & _ & E6 & _ & _ & El & Ek & _).
  destruct Ha as (_ & _ & _ & Hd). pose proof (zlen_nonneg data).
  pose proof (h5_packet_crc l type rel seq data rest) as Hc.
  unfold h5_pkt_ok. cbv zeta in *. rewrite zlen_h5_packet.
  revert E6 El Ek Hc. generalize (h5_packet l type rel seq data ++ rest). intros p E6 El Ek Hc.
  rewrite El, E6, Ek, !Z.eqb_refl.
  assert (0 <= b2z (pkt_crc l type)) by (destruct (pkt_crc l type); simpl; lia).
  rewrite (proj2 (Z.ltb_ge _ 4)), (proj2 (Z.ltb_ge 1500 _)) by lia.
  destruct (pkt_crc l type); [|reflexivity]. rewrite Hc, Z.eqb_refl by done. reflexivity.
Qed.

(** What a receiver does with a reliable data packet. *)
Definition h5_take_data (ack seq : Z) (data : bytes) (bb : IosBbCore) : IosBbCore :=
  let bb := h5_ack ack bb in
  if negb bb.(b_link).(h5_active) then bb
  else if seq =? bb.(b_link).(h5_rx_next) then
    h5_rx_payload data (bb <| b_link; h5_rx_next := Z.land (seq + 1) 7 |>)
  else bb <| b_link; h5_need_ack := true |>.

Lemma h5_rx_pkt_data l seq data rest bb :
  pkt_args l H5_TYPE_DATA seq data ->
  h5_rx_pkt (h5_packet l H5_TYPE_DATA true seq data ++ rest)
    (zlen (h5_packet l H5_TYPE_DATA true seq data)) bb =
  h5_take_data l.(h5_rx_next) seq data bb.
Proof.
  intros Ha. pose proof (h5_packet_ok l H5_TYPE_DATA true seq data rest Ha) as Hok.
  destruct (h5_packet_fields l H5_TYPE_DATA true seq data rest Ha)
    as (Es & En & _ & Er & Et & El & _ & Ed).
  revert Hok Es En Er Et El Ed.
  generalize (h5_packet l H5_TYPE_DATA true seq data ++ rest),
    (zlen (h5_packet l H5_TYPE_DATA true seq data)). intros p n Hok Es En Er Et El Ed.
  unfold h5_rx_pkt, h5_take_data. rewrite Hok. cbv zeta. cbn [negb].
  rewrite Es, En, Er, Et, El, Ed. reflexivity.
Qed.

(** C14. One H5 hop, bytes to bytes: what a core puts on the wire for a reliable
    data packet, read byte by byte by an idle core, acknowledges exactly the
    frames the sender's acknowledgement field names and hands exactly the
    payload to the layer above when the sequence number is the expected one;
    any other sequence number delivers nothing and asks for a new
    acknowledgement. Escaping, header checksum, length and CRC (negotiated or
    not) never lose or alter a packet of up to 1024 bytes. *)
Theorem h5_hop (tx rx : IosBbCore) (seq : Z) (data : bytes) :
  pkt_args tx.(b_link) H5_TYPE_DATA seq data -> zlen data <= H5_MAX_PAYLOAD ->
  rx_idle rx.(b_link) -> zlen rx.(b_link).(h5_rx) = H5_RX_SIZE ->
  exists wire,
    (h5_send_pkt H5_TYPE_DATA true seq data tx).(b_env).(out_log) = tx.(b_env).(out_log) ++ [wire] /\
    exists pkt,
    h5_input wire rx =
      (h5_take_data tx.(b_link).(h5_rx_next) seq data (rx <| b_link ::= rx_filled pkt |>))
        <| b_link; h5_rxlen := 0 |> <| b_link; h5_in_frame := false |>.
Proof.
  intros Ha Hd Hi Hr. set (pkt := h5_packet tx.(b_link) H5_TYPE_DATA true seq data).
  exists (slip_wire pkt). split.
  { unfold h5_send_pkt. rewrite (proj2 (Z.ltb_ge _ _) Hd). reflexivity. }
  exists pkt.
  assert (Hl : 4 <= zlen pkt <= 1030).
  { unfold pkt. rewrite zlen_h5_packet. pose proof (zlen_nonneg data). unfold H5_MAX_PAYLOAD in Hd.
    destruct (pkt_crc _ _); simpl; lia. }
  rewrite h5_input_slip; [|done|intros E; rewrite E in Hl; unfold zlen in Hl; simpl in Hl; lia|lia].
  do 4 f_equal. unfold H5_RX_SIZE in Hr. rewrite blit_0 by (unfold zlen in *; lia).
  by apply h5_rx_pkt_data.
Qed.

Lemma h5_hop_witness :
  exists wire, (h5_send_pkt H5_TYPE_DATA true 0 (str "at") ex_h5).(b_env).(out_log) = [wire] /\
    exists pkt, h5_input wire ex_h5 =
      (h5_take_data 0 0 (str "at") (ex_h5 <| b_link ::= rx_filled pkt |>))
        <| b_link; h5_rxlen := 0 |> <| b_link; h5_in_frame := false |>.
Proof.
  refine (h5_hop ex_h5 ex_h5 0 (str "at") _ _ _ _).
  - unfold pkt_args. split; [vm_compute; split; [discriminate|reflexivity]|].
    split; [vm_compute; split; [discriminate|reflexivity]|]. split; [right; left; reflexivity|].
    vm_compute. discriminate.
  - vm_compute. discriminate.
  - split; [reflexivity|split; reflexivity].
  - vm_compute. reflexivity.
Defined.
