(* ===== verification/BbWindow.v ===== *)
(** * The H5 transmit window

    What queueing, pumping, acknowledging and retransmitting do to the queue of
    records and to the window of unacknowledged packets. *)

From Stdlib Require Import ZArith Lia String.
From stdpp Require Import base numbers list.
From S2P Require Import Prelude CLib BbState BbTx BbRx BbTick BbTxFacts.
Local Open Scope Z_scope.

(** ** Queue records *)

Definition small (d : bytes) : Prop := zlen d <= H5_MAX_PAYLOAD.

Definition records (ds : list bytes) : bytes := concat (txq_record <$> ds).

Lemma records_cons d ds : records (d :: ds) = txq_record d ++ records ds.
Proof. reflexivity. Qed.

Lemma records_app a b : records (a ++ b) = records a ++ records b.
Proof. unfold records. by rewrite fmap_app, concat_app. Qed.

Definition len_octets_ok (len : Z) : bool :=
  Z.lor (u8 len) (Z.shiftl (u8 (Z.shiftr len 8)) 8) =? len.

Lemma len_octets_all : forallb (fun k => len_octets_ok (Z.of_nat k)) (seq 0 1025) = true.
Proof. vm_compute. reflexivity. Qed.

(** The length the pump reads in front of a record. *)
Lemma record_len d rest :
  small d ->
  Z.lor (rd (txq_record d ++ rest) 0) (Z.shiftl (rd (txq_record d ++ rest) 1) 8) = zlen d.
Proof.
  unfold small, H5_MAX_PAYLOAD. intros H. pose proof (zlen_nonneg d).
  pose proof len_octets_all as A. rewrite forallb_forall in A.
  specialize (A (Z.to_nat (zlen d))). rewrite in_seq, Z2Nat.id in A by lia.
  apply Z.eqb_eq, A. lia.
Qed.

Lemma zlen_record d : zlen (txq_record d) = 2 + zlen d.
Proof. unfold txq_record. rewrite zlen_app. reflexivity. Qed.

Lemma record_body d rest :
  ztake (zlen d) (zdrop 2 (txq_record d ++ rest)) = d /\
  zdrop (2 + zlen d) (txq_record d ++ rest) = rest.
Proof.
  split.
  - unfold txq_record. rewrite <- app_assoc.
    change 2 with (zlen [u8 (zlen d); u8 (Z.shiftr (zlen d) 8)]).
    rewrite zdrop_app_len. apply ztake_app_len.
  - rewrite <- zlen_record. apply zdrop_app_len.
Qed.

(** ** Pumping *)

(** Packets with consecutive sequence numbers. *)
Fixpoint pkts_from (seq : Z) (ds : list bytes) : list IosBbH5Pkt :=
  match ds with
  | [] => []
  | d :: t => mkPkt seq d :: pkts_from (Z.land (seq + 1) 7) t
  end.

Definition seq_after (seq : Z) (n : nat) : Z := Nat.iter n (fun s => Z.land (s + 1) 7) seq.

(** The wire form of a data packet. *)
Definition data_wire (l : Link) (p : IosBbH5Pkt) : bytes :=
  slip_wire (h5_packet l H5_TYPE_DATA true p.(p_seq) p.(p_data)).

(** What a link keeps while only its transmit side works. *)
Definition same_rx (l l' : Link) : Prop :=
  l'.(h5) = l.(h5) /\ l'.(h5_active) = l.(h5_active) /\ l'.(h5_crc) = l.(h5_crc) /\
  l'.(h5_rx_next) = l.(h5_rx_next).

Lemma data_wire_same l l' p : same_rx l l' -> data_wire l' p = data_wire l p.
Proof. intros (_ & _ & E & E'). unfold data_wire, h5_packet. by rewrite E, E'. Qed.

Lemma iter_shift {A} (f : A -> A) n x : Nat.iter n f (f x) = f (Nat.iter n f x).
Proof. induction n as [|n IH]; simpl; [done|by rewrite IH]. Qed.

Lemma seq_after_succ seq n : seq_after (Z.land (seq + 1) 7) n = seq_after seq (S n).
Proof. exact (iter_shift (fun s => Z.land (s + 1) 7) n seq). Qed.

Lemma h5_send_pkt_small type rel seq d bb :
  small d ->
  let bb' := h5_send_pkt type rel seq d bb in
  same_rx bb.(b_link) bb'.(b_link) /\
  bb'.(b_link).(h5_unacked) = bb.(b_link).(h5_unacked) /\
  bb'.(b_link).(h5_tx_seq) = bb.(b_link).(h5_tx_seq) /\
  bb'.(b_link).(h5_txq) = bb.(b_link).(h5_txq) /\
  bb'.(b_env).(out_log) =
    bb.(b_env).(out_log) ++ [slip_wire (h5_packet bb.(b_link) type rel seq d)].
Proof.
  intros H. unfold h5_send_pkt. rewrite (proj2 (Z.ltb_ge _ _) H). cbv zeta.
  unfold same_rx. simpl. auto 10.
Qed.

Lemma h5_send_one_spec d bb :
  small d ->
  let l := bb.(b_link) in
  let bb' := h5_send_one_unacked d bb in
  same_rx l bb'.(b_link) /\
  bb'.(b_link).(h5_unacked) = l.(h5_unacked) ++ [mkPkt l.(h5_tx_seq) d] /\
  bb'.(b_link).(h5_tx_seq) = Z.land (l.(h5_tx_seq) + 1) 7 /\
  bb'.(b_link).(h5_txq) = l.(h5_txq) /\
  bb'.(b_env).(out_log) = bb.(b_env).(out_log) ++ [data_wire l (mkPkt l.(h5_tx_seq) d)].
Proof.
  intros H. unfold h5_send_one_unacked. cbv zeta.
  set (bb1 := bb <| b_link; h5_unacked ::= _ |>).
  destruct (h5_send_pkt_small H5_TYPE_DATA true (h5_tx_seq (b_link bb)) d bb1 H)
    as (H1 & H2 & H3 & H4 & H5). cbv zeta in *.
  split_and!; [exact H1|exact H2|reflexivity|exact H4|exact H5].
Qed.

Lemma same_rx_trans a b c : same_rx a b -> same_rx b c -> same_rx a c.
Proof. unfold same_rx. intuition congruence. Qed.

Lemma h5_pump_loop_spec fuel ds bb :
  bb.(b_link).(h5_txq) = records ds -> Forall small ds ->
  let l := bb.(b_link) in
  let bb' := h5_pump_loop fuel bb in
  let k := Nat.min fuel (Nat.min (7 - length l.(h5_unacked)) (length ds)) in
  let new := pkts_from l.(h5_tx_seq) (take k ds) in
  same_rx l bb'.(b_link) /\
  bb'.(b_link).(h5_unacked) = l.(h5_unacked) ++ new /\
  bb'.(b_link).(h5_tx_seq) = seq_after l.(h5_tx_seq) k /\
  bb'.(b_link).(h5_txq) = records (drop k ds) /\
  bb'.(b_env).(out_log) = bb.(b_env).(out_log) ++ (data_wire l <$> new).
Proof.
  assert (stop : forall (bb : IosBbCore) ds, bb.(b_link).(h5_txq) = records ds ->
    same_rx bb.(b_link) bb.(b_link) /\
    bb.(b_link).(h5_unacked) = bb.(b_link).(h5_unacked) ++ [] /\
    bb.(b_link).(h5_tx_seq) = seq_after bb.(b_link).(h5_tx_seq) 0 /\
    bb.(b_link).(h5_txq) = records (drop 0 ds) /\
    bb.(b_env).(out_log) = bb.(b_env).(out_log) ++ []).
  { intros b e H. rewrite !app_nil_r. unfold same_rx. auto 10. }
  revert ds bb. induction fuel as [|fuel IH]; intros ds bb Hq Hs; cbv zeta.
  { exact (stop bb ds Hq). }
  cbn [h5_pump_loop]. cbv zeta.
  destruct (Z.ltb_spec (zlen (h5_unacked (b_link bb))) IOS_BB_H5_WINDOW) as [Hw|Hw];
    unfold IOS_BB_H5_WINDOW, zlen in Hw.
  2: { cbn [andb]. replace (7 - length (h5_unacked (b_link bb)))%nat with 0%nat by lia.
       rewrite Nat.min_0_l, Nat.min_0_r. exact (stop bb ds Hq). }
  destruct ds as [|d ds].
  { rewrite Hq. rewrite !Nat.min_0_r. exact (stop bb [] Hq). }
  inversion Hs as [|? ? Hd Hs']; subst.
  pose proof (zlen_nonneg d). pose proof (zlen_nonneg (records ds)).
  assert (Hz : zlen (h5_txq (b_link bb)) = 2 + zlen d + zlen (records ds))
    by (rewrite Hq, records_cons, zlen_app, zlen_record; lia).
  rewrite (proj2 (Z.leb_le 2 _)) by lia. cbn [andb].
  assert (Hlen : Z.lor (rd (h5_txq (b_link bb)) 0) (Z.shiftl (rd (h5_txq (b_link bb)) 1) 8) = zlen d)
    by (rewrite Hq; by apply record_len).
  rewrite Hlen, (proj2 (Z.ltb_ge _ (2 + zlen d))) by lia.
  rewrite Hq, records_cons. destruct (record_body d (records ds)) as [-> ->].
  destruct (h5_send_one_spec d bb Hd) as (S1 & S2 & S3 & S4 & S5). cbv zeta in *.
  set (bb1 := (h5_send_one_unacked d bb) <| b_link; h5_txq := records ds |>).
  destruct (IH ds bb1 eq_refl Hs') as (I1 & I2 & I3 & I4 & I5). cbv zeta in *.
  change (h5_unacked (b_link bb1)) with (h5_unacked (b_link (h5_send_one_unacked d bb))) in *.
  change (h5_tx_seq (b_link bb1)) with (h5_tx_seq (b_link (h5_send_one_unacked d bb))) in *.
  change (out_log (b_env bb1)) with (out_log (b_env (h5_send_one_unacked d bb))) in *.
  rewrite S2, S3 in *. rewrite S5 in I5. rewrite length_app in *. simpl (length [_]) in *.
  replace (Nat.min (S fuel) (Nat.min (7 - length (h5_unacked (b_link bb))) (length (d :: ds))))
    with (S (Nat.min fuel (Nat.min (7 - (length (h5_unacked (b_link bb)) + 1)) (length ds))))
    by (cbn [length]; lia).
  cbn [take drop pkts_from].
  split_and!.
  - eapply same_rx_trans; [exact S1|exact I1].
  - rewrite I2, <- app_assoc. reflexivity.
  - rewrite I3. apply seq_after_succ.
  - exact I4.
  - rewrite I5, <- app_assoc, fmap_cons. do 2 f_equal.
    apply list_fmap_ext. intros _ p _. apply data_wire_same. exact S1.
Qed.

(** How many queued frames the window takes. *)
Definition room (l : Link) (ds : list bytes) : nat :=
  Nat.min (7 - length l.(h5_unacked)) (length ds).

Lemma h5_pump_spec ds bb :
  bb.(b_link).(h5_txq) = records ds -> Forall small ds -> bb.(b_link).(h5_active) = true ->
  let l := bb.(b_link) in
  let bb' := h5_pump bb in
  let new := pkts_from l.(h5_tx_seq) (take (room l ds) ds) in
  same_rx l bb'.(b_link) /\
  bb'.(b_link).(h5_unacked) = l.(h5_unacked) ++ new /\
  bb'.(b_link).(h5_tx_seq) = seq_after l.(h5_tx_seq) (room l ds) /\
  bb'.(b_link).(h5_txq) = records (drop (room l ds) ds) /\
  bb'.(b_env).(out_log) = bb.(b_env).(out_log) ++ (data_wire l <$> new).
Proof.
  intros Hq Hs Ha. unfold h5_pump. rewrite Ha.
  pose proof (h5_pump_loop_spec 7 ds bb Hq Hs) as H. cbv zeta in *. unfold room.
  rewrite (Nat.min_r 7) in H by lia. exact H.
Qed.

Lemma resend_spec ps bb :
  Forall (fun p => small p.(p_data)) ps ->
  let l := bb.(b_link) in
  let bb' := fold_left (fun bb p => h5_send_pkt H5_TYPE_DATA true p.(p_seq) p.(p_data) bb) ps bb in
  same_rx l bb'.(b_link) /\ bb'.(b_link).(h5_unacked) = l.(h5_unacked) /\
  bb'.(b_link).(h5_tx_seq) = l.(h5_tx_seq) /\ bb'.(b_link).(h5_txq) = l.(h5_txq) /\
  bb'.(b_env).(out_log) = bb.(b_env).(out_log) ++ (data_wire l <$> ps).
Proof.
  cbv zeta. revert bb. induction ps as [|p ps IH]; intros bb Hp.
  { simpl. rewrite app_nil_r. unfold same_rx. auto 10. }
  inversion Hp as [|? ? H1 H2]; subst. cbn [fold_left].
  destruct (h5_send_pkt_small H5_TYPE_DATA true p.(p_seq) p.(p_data) bb H1)
    as (S1 & S2 & S3 & S4 & S5). cbv zeta in *.
  set (bb1 := h5_send_pkt H5_TYPE_DATA true p.(p_seq) p.(p_data) bb) in *.
  destruct (IH bb1 H2) as (I1 & I2 & I3 & I4 & I5).
  split_and!; try congruence.
  - eapply same_rx_trans; eassumption.
  - rewrite I5, S5, <- app_assoc, fmap_cons. do 2 f_equal.
    apply list_fmap_ext. intros _ q _. by apply data_wire_same.
Qed.

Lemma h5_retransmit_spec bb :
  Forall (fun p => small p.(p_data)) bb.(b_link).(h5_unacked) ->
  let l := bb.(b_link) in
  let bb' := h5_retransmit bb in
  same_rx l bb'.(b_link) /\ bb'.(b_link).(h5_unacked) = l.(h5_unacked) /\
  bb'.(b_link).(h5_tx_seq) = l.(h5_tx_seq) /\ bb'.(b_link).(h5_txq) = l.(h5_txq) /\
  bb'.(b_env).(out_log) = bb.(b_env).(out_log) ++ (data_wire l <$> l.(h5_unacked)).
Proof. apply resend_spec. Qed.

(** Queueing: the frame (cut at 1024 bytes) goes to the end of the queue, or is
    refused whole when the queue has no room. *)
Definition cut (d : bytes) : bytes := ztake H5_MAX_PAYLOAD d.

Lemma cut_small d : small (cut d).
Proof. unfold small, cut, H5_MAX_PAYLOAD. rewrite zlen_ztake. lia. Qed.

Definition fits (d : bytes) (l : Link) : bool :=
  zlen l.(h5_txq) + 2 + zlen (cut d) <=? H5_TXQ_SIZE.

Lemma h5_queue_spec d bb :
  h5_queue d bb =
  if fits d bb.(b_link) then bb <| b_link; h5_txq ::= fun q => q ++ txq_record (cut d) |> else bb.
Proof.
  unfold h5_queue, fits, cut. cbv zeta.
  assert (E : (if H5_MAX_PAYLOAD <? zlen d then ztake H5_MAX_PAYLOAD d else d) = ztake H5_MAX_PAYLOAD d).
  { destruct (Z.ltb_spec H5_MAX_PAYLOAD (zlen d)); [done|]. by rewrite ztake_all by lia. }
  rewrite E. rewrite Z.ltb_antisym. by destruct (_ <=? _).
Qed.

Lemma pkts_from_data seq ds : p_data <$> pkts_from seq ds = ds.
Proof. revert seq. induction ds as [|d ds IH]; intros seq; [done|]. simpl. f_equal. apply IH. Qed.

(** C33. Pumping an active link neither loses nor reorders frames (window followed
    by queue is the same list before and after), puts on the line exactly the
    packets that entered the window, and stops only when the window holds
    seven packets or the queue is empty: seven turns of its loop are enough. *)
Theorem h5_pump_done ds bb :
  bb.(b_link).(h5_txq) = records ds -> Forall small ds -> bb.(b_link).(h5_active) = true ->
  (length bb.(b_link).(h5_unacked) <= 7)%nat ->
  exists new ds',
    (h5_pump bb).(b_link).(h5_unacked) = bb.(b_link).(h5_unacked) ++ new /\
    (h5_pump bb).(b_link).(h5_txq) = records ds' /\
    (p_data <$> bb.(b_link).(h5_unacked)) ++ ds =
      (p_data <$> (h5_pump bb).(b_link).(h5_unacked)) ++ ds' /\
    (h5_pump bb).(b_env).(out_log) = bb.(b_env).(out_log) ++ (data_wire bb.(b_link) <$> new) /\
    (length (h5_pump bb).(b_link).(h5_unacked) = 7%nat \/ (h5_pump bb).(b_link).(h5_txq) = []).
Proof.
  intros Hq Hs Ha Hl. destruct (h5_pump_spec ds bb Hq Hs Ha) as (_ & P1 & _ & P3 & P4). cbv zeta in *.
  eexists _, _. split_and!; [exact P1|exact P3| |exact P4|].
  - by rewrite P1, fmap_app, pkts_from_data, <- app_assoc, take_drop.
  - rewrite P1, P3, length_app. unfold room.
    assert (E : forall s l, length (pkts_from s l) = length l).
    { intros s l. rewrite <- (length_fmap p_data), pkts_from_data. done. }
    rewrite E, length_take.
    destruct (Nat.le_gt_cases (length ds) (7 - length (h5_unacked (b_link bb)))).
    + right. rewrite Nat.min_r, drop_all by lia. done.
    + left. lia.
Qed.

Lemma h5_pump_done_witness :
  let bb := h5_queue (str "at") ex_h5 in
  exists new ds',
    (h5_pump bb).(b_link).(h5_unacked) = bb.(b_link).(h5_unacked) ++ new /\
    (h5_pump bb).(b_link).(h5_txq) = records ds' /\
    (length (h5_pump bb).(b_link).(h5_unacked) = 7%nat \/ (h5_pump bb).(b_link).(h5_txq) = []).
Proof.
  intros bb. destruct (h5_pump_done [str "at"] bb) as (new & ds' & H1 & H2 & _ & _ & H3).
  - vm_compute. reflexivity.
  - repeat constructor. vm_compute. discriminate.
  - reflexivity.
  - vm_compute. lia.
  - exists new, ds'. exact (conj H1 (conj H2 H3)).
Defined.
