(* ===== verification/BbArq.v ===== *)
(** * Reliable delivery over the H5 link

    The transmit side of a core, a line that loses packets, and a receiver that
    follows the receive rule of the code ([BbLinkFacts.h5_take_data]), as a step
    relation; an invariant in absolute frame numbers; in-order delivery without
    loss or duplication, and the way out of every reachable state. *)

From Stdlib Require Import ZArith Lia String.
From stdpp Require Import base numbers list relations.
From S2P Require Import Prelude CLib BbState BbTx BbRx BbTick BbTxFacts BbLinkFacts BbWindow.
Local Open Scope Z_scope.

(** ** The system *)

(** The sending core, the packets on the line (in order), the receiver's next
    sequence number and what it passed up, the acknowledgements on their way
    back, and every frame the sender's queue accepted. *)
Record arq := mkArq {
  tx : IosBbCore;
  wire : list bytes;
  next : Z;
  got : list bytes;
  acks : list Z;
  subm : list bytes
}.

(** What the sender put on the line between two states. *)
Definition sent (bb bb' : IosBbCore) : list bytes :=
  drop (length bb.(b_env).(out_log)) bb'.(b_env).(out_log).

(** A line unit that carries a data packet. *)
Definition carries (w : bytes) (p : IosBbH5Pkt) : Prop :=
  exists l, pkt_args l H5_TYPE_DATA p.(p_seq) p.(p_data) /\ small p.(p_data) /\ w = data_wire l p.

Inductive astep : arq -> arq -> Prop :=
| s_queue d t w n g a f :
    astep (mkArq t w n g a f)
          (mkArq (h5_queue d t) w n g a (if fits d t.(b_link) then f ++ [cut d] else f))
| s_pump t w n g a f :
    astep (mkArq t w n g a f) (mkArq (h5_pump t) (w ++ sent t (h5_pump t)) n g a f)
| s_retransmit t w n g a f :
    astep (mkArq t w n g a f) (mkArq (h5_retransmit t) (w ++ sent t (h5_retransmit t)) n g a f)
| s_lose t x w n g a f :
    astep (mkArq t (x :: w) n g a f) (mkArq t w n g a f)
| s_recv t x p w n g a f :
    carries x p -> p.(p_seq) = n ->
    astep (mkArq t (x :: w) n g a f) (mkArq t w (Z.land (p.(p_seq) + 1) 7) (g ++ [p.(p_data)]) a f)
| s_again t x p w n g a f :
    carries x p -> p.(p_seq) <> n ->
    astep (mkArq t (x :: w) n g a f) (mkArq t w n g a f)
| s_ack_out t w n g a f :
    astep (mkArq t w n g a f) (mkArq t w n g (a ++ [n]) f)
| s_ack_lose t w n g x a f :
    astep (mkArq t w n g (x :: a) f) (mkArq t w n g a f)
| s_ack_in t w n g x a f :
    astep (mkArq t w n g (x :: a) f) (mkArq (h5_ack x t) (w ++ sent t (h5_ack x t)) n g a f).

(** A sender just configured, and nothing on the line. *)
Definition arq_init (s : arq) : Prop :=
  let l := s.(tx).(b_link) in
  l.(h5_active) = true /\ l.(h5_tx_seq) = 0 /\ l.(h5_unacked) = [] /\ l.(h5_txq) = [] /\
  0 <= l.(h5_rx_next) < 8 /\
  s.(wire) = [] /\ s.(next) = 0 /\ s.(got) = [] /\ s.(acks) = [] /\ s.(subm) = [].

Definition reachable (s : arq) : Prop := exists s0, arq_init s0 /\ rtc astep s0 s.

(** ** Sequence numbers *)

Definition mod8 (n : nat) : Z := Z.of_nat n mod 8.

Lemma land7 z : Z.land z 7 = z mod 8.
Proof. change 7 with (Z.ones 3). rewrite Z.land_ones by lia. reflexivity. Qed.

Lemma mod8_S n : Z.land (mod8 n + 1) 7 = mod8 (S n).
Proof. rewrite land7. unfold mod8. rewrite Zplus_mod_idemp_l. f_equal. lia. Qed.

Lemma mod8_range n : 0 <= mod8 n < 8.
Proof. apply Z.mod_pos_bound. lia. Qed.

(** Numbers less than eight apart are told apart by their residue. *)
Lemma mod8_inj a b : (a <= b + 7)%nat -> (b <= a + 7)%nat -> mod8 a = mod8 b -> a = b.
Proof.
  unfold mod8. intros H1 H2 E.
  pose proof (Z.div_mod (Z.of_nat a) 8). pose proof (Z.div_mod (Z.of_nat b) 8). lia.
Qed.

Lemma mod8_diff a b : (b <= a <= b + 7)%nat -> Z.land (mod8 a - mod8 b) 7 = Z.of_nat (a - b).
Proof.
  intros H. rewrite land7. unfold mod8. rewrite <- Zminus_mod.
  rewrite Z.mod_small; lia.
Qed.

Lemma seq_after_mod8 n k : seq_after (mod8 n) k = mod8 (n + k).
Proof.
  unfold seq_after. induction k as [|k IH]; simpl; [f_equal; lia|].
  rewrite IH, mod8_S. f_equal. lia.
Qed.

(** Frame [k] of the numbered frames, as a packet. *)
Definition pkt_at (all : list bytes) (k : nat) : IosBbH5Pkt :=
  mkPkt (mod8 k) (nth k all []).

Lemma pkt_at_app all more k : (k < length all)%nat -> pkt_at (all ++ more) k = pkt_at all k.
Proof. intros H. unfold pkt_at. by rewrite app_nth1. Qed.

Lemma pkts_from_at all ds :
  pkts_from (mod8 (length all)) ds = pkt_at (all ++ ds) <$> seq (length all) (length ds).
Proof.
  revert all. induction ds as [|d ds IH]; intros all; [done|].
  cbn [pkts_from length seq]. rewrite fmap_cons. f_equal.
  - unfold pkt_at. by rewrite nth_middle.
  - rewrite mod8_S. specialize (IH (all ++ [d])). rewrite length_app, Nat.add_1_r, <- app_assoc in IH.
    exact IH.
Qed.

(** ** A line unit carries one packet *)

Fixpoint unslip (l : bytes) : bytes :=
  match l with
  | [] => []
  | b :: t =>
      if b =? 0xdb then
        match t with [] => [] | c :: t' => (if c =? 0xdc then 0xc0 else 0xdb) :: unslip t' end
      else b :: unslip t
  end.

Lemma unslip_slip p : unslip (concat (slip_byte <$> p)) = p.
Proof.
  induction p as [|b p IH]; [done|].
  change (concat (slip_byte <$> b :: p)) with (slip_byte b ++ concat (slip_byte <$> p)).
  unfold slip_byte at 1. destruct (Z.eqb_spec b 0xc0) as [->|H1]; [simpl; by rewrite IH|].
  destruct (Z.eqb_spec b 0xdb) as [->|H2]; [simpl; by rewrite IH|].
  simpl. rewrite (proj2 (Z.eqb_neq b 0xdb) H2). by rewrite IH.
Qed.

Lemma slip_wire_inj p q : slip_wire p = slip_wire q -> p = q.
Proof.
  unfold slip_wire. intros H. simplify_eq/=. apply app_inj_tail in H as [H _].
  rewrite <- (unslip_slip p), <- (unslip_slip q). by rewrite H.
Qed.

Lemma carries_inj w p q : carries w p -> carries w q -> p = q.
Proof.
  intros (l & Hp & _ & ->) (l' & Hq & _ & E). apply slip_wire_inj in E.
  destruct (h5_packet_fields l H5_TYPE_DATA true _ _ [] Hp) as (S1 & _ & _ & _ & _ & L1 & _ & D1).
  destruct (h5_packet_fields l' H5_TYPE_DATA true _ _ [] Hq) as (S2 & _ & _ & _ & _ & L2 & _ & D2).
  rewrite E in S1, L1, D1. cbv zeta in *. destruct p as [s d], q as [s' d']. simpl in *.
  rewrite <- L1, L2 in D1. congruence.
Qed.

(** ** Packets on the line *)

(** [ks] are the frame numbers on the line, [r] the receiver's next one, [hi] a
    bound on where the receiver can be when the first of them arrives. *)
Fixpoint chan_ok (r hi : nat) (ks : list nat) : Prop :=
  match ks with
  | [] => True
  | k :: t => (hi <= k + 7)%nat /\ (k < r + 8)%nat /\ chan_ok r (Nat.max hi (S k)) t
  end.

Lemma chan_ok_mono r r' hi hi' ks :
  (r <= r')%nat -> (hi' <= hi)%nat -> chan_ok r hi ks -> chan_ok r' hi' ks.
Proof.
  revert hi hi'. induction ks as [|k t IH]; intros hi hi' Hr Hh; simpl; [done|].
  intros (H1 & H2 & H3). split_and!; [lia|lia|]. eapply IH; [| |exact H3]; lia.
Qed.

Lemma chan_ok_app r hi N ks new :
  chan_ok r hi ks -> (hi <= N)%nat -> Forall (fun k => k < N)%nat ks ->
  Forall (fun k => k < N /\ N <= k + 7 /\ k < r + 8)%nat new ->
  chan_ok r hi (ks ++ new).
Proof.
  revert hi. induction ks as [|k t IH]; intros hi Hc Hh Hk Hn; simpl.
  - revert hi Hh Hc. induction Hn as [|k t (H1 & H2 & H3) Ht IH']; intros hi Hh _; simpl; [done|].
    split_and!; [lia|lia|]. apply IH'; [lia|done].
  - destruct Hc as (H1 & H2 & H3). inversion Hk; subst.
    split_and!; [done|done|]. apply IH; [done|lia|done|done].
Qed.

(** Acknowledgements on the way back never go backwards. *)
Fixpoint acks_ok (lo hi : nat) (l : list nat) : Prop :=
  match l with
  | [] => (lo <= hi)%nat
  | a :: t => (lo <= a)%nat /\ acks_ok a hi t
  end.

Lemma acks_ok_le lo hi l : acks_ok lo hi l -> (lo <= hi)%nat.
Proof. revert lo. induction l as [|a t IH]; intros lo; simpl; [done|]. intros [H1 H2]. specialize (IH _ H2). lia. Qed.

Lemma acks_ok_mono lo lo' hi hi' l :
  (lo' <= lo)%nat -> (hi <= hi')%nat -> acks_ok lo hi l -> acks_ok lo' hi' l.
Proof.
  revert lo lo'. induction l as [|a t IH]; intros lo lo' H1 H2; simpl; [lia|].
  intros [H3 H4]. split; [lia|]. exact (IH a a ltac:(lia) H2 H4).
Qed.

Lemma acks_ok_snoc lo hi l : acks_ok lo hi l -> acks_ok lo hi (l ++ [hi]).
Proof.
  revert lo. induction l as [|a t IH]; intros lo; simpl; [lia|].
  intros [H1 H2]. split; [done|]. by apply IH.
Qed.

(** ** The invariant *)

(** [all] are the frames that have a number, [ds] those still queued; the first
    [base] are acknowledged, the first [r] delivered. *)
Record inv (all ds : list bytes) (base r : nat) (s : arq) : Prop := mkInv {
  i_active : s.(tx).(b_link).(h5_active) = true;
  i_next : 0 <= s.(tx).(b_link).(h5_rx_next) < 8;
  i_small : Forall small (all ++ ds);
  i_subm : s.(subm) = all ++ ds;
  i_txq : s.(tx).(b_link).(h5_txq) = records ds;
  i_seq : s.(tx).(b_link).(h5_tx_seq) = mod8 (length all);
  i_unacked : s.(tx).(b_link).(h5_unacked) = pkt_at all <$> seq base (length all - base);
  i_window : (base <= r /\ r <= length all /\ length all <= base + 7)%nat;
  i_rx : s.(next) = mod8 r;
  i_got : s.(got) = take r all;
  i_acks : exists l, s.(acks) = mod8 <$> l /\ acks_ok base r l;
  i_wire : exists ks, Forall2 (fun w k => carries w (pkt_at all k)) s.(wire) ks /\
             Forall (fun k => k < length all)%nat ks /\ chan_ok r r ks
}.

Lemma small_nth all k : Forall small all -> small (nth k all []).
Proof.
  intros H. destruct (nth_in_or_default k all []) as [Hin| ->].
  - rewrite Forall_forall in H. apply H. by apply list_elem_of_In.
  - unfold small. vm_compute. discriminate.
Qed.

Lemma carries_at l all k :
  0 <= l.(h5_rx_next) < 8 -> Forall small all -> carries (data_wire l (pkt_at all k)) (pkt_at all k).
Proof.
  intros Hn Hs. pose proof (small_nth all k Hs) as Hk. exists l. split_and!; [|exact Hk|done].
  unfold small, H5_MAX_PAYLOAD in Hk. repeat split; try apply mod8_range; try tauto; simpl; lia.
Qed.

Definition wire_ok (all : list bytes) (r : nat) (w : list bytes) : Prop :=
  exists ks, Forall2 (fun x k => carries x (pkt_at all k)) w ks /\
    Forall (fun k => k < length all)%nat ks /\ chan_ok r r ks.

(** Packets of the current window go to the end of the line. *)
Lemma wire_send all more r w l new :
  wire_ok all r w -> 0 <= l.(h5_rx_next) < 8 -> Forall small (all ++ more) ->
  (r <= length (all ++ more))%nat ->
  Forall (fun k => k < length (all ++ more) /\ length (all ++ more) <= k + 7 /\ k < r + 8)%nat new ->
  wire_ok (all ++ more) r (w ++ (data_wire l <$> (pkt_at (all ++ more) <$> new))).
Proof.
  intros (ks & H2 & Hk & Hc) Hn Hs Hr Hnew. exists (ks ++ new). split_and!.
  - apply Forall2_app.
    + clear -H2 Hk.
      induction H2 as [|x k w ks H _ IH]; inversion Hk; subst; constructor; [by rewrite pkt_at_app|auto].
    + clear -Hn Hs. induction new as [|k t IH]; constructor; [by apply carries_at|exact IH].
  - apply Forall_app. split.
    + eapply Forall_impl; [exact Hk|]. intros k H. cbv beta in H. rewrite length_app. lia.
    + eapply Forall_impl; [exact Hnew|]. intros k H. cbv beta in H. lia.
  - eapply (chan_ok_app r r (length (all ++ more))); [done|done| |done].
    eapply Forall_impl; [exact Hk|]. intros k H. cbv beta in H. rewrite length_app. lia.
Qed.

Lemma sent_app bb bb' out :
  bb'.(b_env).(out_log) = bb.(b_env).(out_log) ++ out -> sent bb bb' = out.
Proof. intros E. unfold sent. rewrite E. apply drop_app_length. Qed.

(** Pumping numbers the frames the window has room for. *)
Lemma inv_pump all ds base r t w n g a f :
  inv all ds base r (mkArq t w n g a f) ->
  let k := room t.(b_link) ds in
  inv (all ++ take k ds) (drop k ds) base r (mkArq (h5_pump t) (w ++ sent t (h5_pump t)) n g a f).
Proof.
  intros [Ha Hn Hs Hf Hq Hseq Hu (Hb & Hr & Hw) Hrx Hg Hak Hwi] k. simpl in *.
  pose proof Hs as Hs2. apply Forall_app in Hs2 as [Hs1 Hs2].
  destruct (h5_pump_spec ds t Hq Hs2 Ha) as ((E1 & E2 & E3 & E4) & P1 & P2 & P3 & P4). cbv zeta in *.
  fold k in P1, P2, P3, P4.
  assert (Hk : (k <= length ds /\ length all + k <= base + 7)%nat).
  { subst k. unfold room. rewrite Hu, length_fmap, length_seq. lia. }
  assert (Hl : length (take k ds) = k) by (rewrite length_take; lia).
  rewrite Hseq in P1, P2, P4. rewrite pkts_from_at, Hl in P1, P4.
  assert (Hall : all ++ ds = (all ++ take k ds) ++ drop k ds) by (rewrite <- app_assoc, take_drop; done).
  rewrite Hall in Hs.
  assert (Hsm : Forall small (all ++ take k ds)) by (apply Forall_app in Hs as [H _]; exact H).
  constructor; simpl; try done.
  - by rewrite E2.
  - by rewrite E4.
  - by rewrite Hf, Hall.
  - rewrite P2, seq_after_mod8, length_app, Hl. done.
  - rewrite P1, Hu, length_app, Hl.
    replace (length all + k - base)%nat with (length all - base + k)%nat by lia.
    rewrite seq_app, fmap_app. f_equal.
    + apply list_fmap_ext. intros i x Hx. apply lookup_seq in Hx as [-> ?]. symmetry. apply pkt_at_app. lia.
    + do 2 f_equal. lia.
  - rewrite length_app, Hl. lia.
  - rewrite Hg, take_app_le by lia. done.
  - rewrite (sent_app _ _ _ P4).
    apply (wire_send all (take k ds) r w t.(b_link)); [done|done|done|rewrite length_app; lia|].
    apply Forall_seq. intros j Hj. rewrite length_app, Hl. lia.
Qed.

Lemma inv_queue d all ds base r t w n g a f :
  inv all ds base r (mkArq t w n g a f) ->
  exists ds', inv all ds' base r
    (mkArq (h5_queue d t) w n g a (if fits d t.(b_link) then f ++ [cut d] else f)).
Proof.
  intros H. rewrite h5_queue_spec. destruct (fits d t.(b_link)); [|by exists ds].
  destruct H as [Ha Hn Hs Hf Hq Hseq Hu Hw Hrx Hg Hak Hwi]. simpl in *.
  exists (ds ++ [cut d]). constructor; simpl; try done.
  - rewrite app_assoc. apply Forall_app. split; [done|]. constructor; [apply cut_small|constructor].
  - by rewrite Hf, app_assoc.
  - rewrite Hq, records_app. unfold records at 3. simpl. by rewrite app_nil_r.
Qed.

Lemma unacked_small all base :
  Forall small all -> Forall (fun p => small p.(p_data)) (pkt_at all <$> seq base (length all - base)).
Proof.
  intros H. apply Forall_fmap, Forall_seq. intros j _. simpl. by apply small_nth.
Qed.

Lemma inv_retransmit all ds base r t w n g a f :
  inv all ds base r (mkArq t w n g a f) ->
  inv all ds base r (mkArq (h5_retransmit t) (w ++ sent t (h5_retransmit t)) n g a f).
Proof.
  intros [Ha Hn Hs Hf Hq Hseq Hu (Hb & Hr & Hw) Hrx Hg Hak Hwi]. simpl in *.
  apply Forall_app in Hs as Hs'. destruct Hs' as [Hs1 Hs2].
  destruct (h5_retransmit_spec t) as ((E1 & E2 & E3 & E4) & P1 & P2 & P3 & P4).
  { rewrite Hu. by apply unacked_small. }
  cbv zeta in *. rewrite Hu in P4.
  constructor; simpl; rewrite ?E2, ?E4, ?P1, ?P2, ?P3; try done.
  - rewrite (sent_app _ _ _ P4).
    pose proof (wire_send all [] r w t.(b_link) (seq base (length all - base))) as W.
    rewrite app_nil_r in W. apply W; [done|done|done|lia|].
    apply Forall_seq. intros j Hj. lia.
Qed.

(** An acknowledgement moves the base to the number it stands for, and pumps. *)
Lemma inv_ack_base m l all ds base r t w n g a f :
  inv all ds base r (mkArq t w n g a f) -> (base < length all)%nat -> (base <= m)%nat ->
  acks_ok m r l ->
  let t1 := t <| b_link; h5_unacked ::= zdrop (Z.of_nat (m - base)) |> in
  h5_ack (mod8 m) t = h5_pump t1 /\ inv all ds m r (mkArq t1 w n g (mod8 <$> l) f).
Proof.
  intros [Ha Hn Hs Hf Hq Hseq Hu (Hb & Hr & Hw) Hrx Hg _ Hwi] Hlt Hm Hl t1. simpl in *.
  pose proof (acks_ok_le _ _ _ Hl) as Hmr. split.
  - unfold h5_ack. rewrite Hu. destruct (length all - base)%nat as [|j] eqn:Ej; [lia|].
    cbn [seq]. rewrite fmap_cons. cbv beta iota zeta. change (p_seq (pkt_at all base)) with (mod8 base).
    rewrite mod8_diff by lia.
    assert (Hz : zlen (pkt_at all base :: (pkt_at all <$> seq (S base) j)) = Z.of_nat (length all - base)).
    { unfold zlen. cbn [length]. rewrite length_fmap, length_seq. lia. }
    rewrite Hz, (proj2 (Z.leb_le _ _)) by lia. done.
  - constructor; simpl; try done.
    + rewrite Hu. unfold zdrop. rewrite Nat2Z.id, <- fmap_drop, drop_seq. do 2 f_equal; lia.
    + lia.
    + by exists l.
Qed.

Lemma inv_ack x all ds base r t w n g a f :
  inv all ds base r (mkArq t w n g (x :: a) f) ->
  exists all' ds' base', inv all' ds' base' r (mkArq (h5_ack x t) (w ++ sent t (h5_ack x t)) n g a f).
Proof.
  intros H. pose proof H as [_ _ _ _ _ _ Hu (Hb & Hr & Hw) _ _ (l & El & Hl) _]. simpl in El, Hu.
  destruct l as [|m l]; [done|]. simpl in El, Hl. simplify_eq. destruct Hl as [Hm Hl].
  destruct (decide (base = length all)) as [->|Hne].
  - unfold h5_ack. rewrite Hu, Nat.sub_diag. unfold sent. rewrite drop_all, app_nil_r.
    exists all, ds, (length all). destruct H. constructor; simpl in *; try done.
    exists l. split; [done|]. eapply acks_ok_mono; [| |exact Hl]; lia.
  - destruct (inv_ack_base m l _ _ _ _ _ _ _ _ _ _ H ltac:(lia) Hm Hl) as [-> I].
    apply inv_pump in I. eexists _, _, _. exact I.
Qed.

(** The line loses, or the receiver refuses, its first packet. *)
Lemma wire_tail all r x w : wire_ok all r (x :: w) -> wire_ok all r w.
Proof.
  intros (ks & H2 & Hk & Hc). inversion H2 as [|? k ? ks' _ H2']; subst.
  inversion Hk; subst. exists ks'. split_and!; [done|done|].
  eapply chan_ok_mono; [| |apply Hc]; lia.
Qed.

(** The receiver takes the packet with its next number, and that is the next
    frame; every other packet has another number. *)
Lemma wire_recv all r x w p :
  (r <= length all)%nat -> wire_ok all r (x :: w) -> carries x p ->
  (p.(p_seq) = mod8 r -> (r < length all)%nat /\ p = pkt_at all r /\ wire_ok all (S r) w).
Proof.
  intros Hr (ks & H2 & Hk & Hc) Hp E. inversion H2 as [|? k ? ks' Hx H2']; subst.
  pose proof (carries_inj _ _ _ Hp Hx) as ->. destruct Hc as (C1 & C2 & C3).
  apply mod8_inj in E; [|lia|lia]. subst k. inversion Hk; subst.
  split_and!; [done|done|]. exists ks'. split_and!; [done|done|].
  eapply chan_ok_mono; [| |exact C3]; lia.
Qed.

Lemma take_S_nth (all : list bytes) r : (r < length all)%nat -> take (S r) all = take r all ++ [nth r all []].
Proof.
  intros H. destruct (all !! r) as [d|] eqn:E.
  - erewrite take_S_r by exact E. f_equal. f_equal. symmetry. apply nth_lookup_Some. exact E.
  - apply lookup_ge_None in E. lia.
Qed.

Lemma inv_recv all ds base r t x p w n g a f :
  inv all ds base r (mkArq t (x :: w) n g a f) -> carries x p -> p.(p_seq) = n ->
  inv all ds base (S r) (mkArq t w (Z.land (p.(p_seq) + 1) 7) (g ++ [p.(p_data)]) a f).
Proof.
  intros [Ha Hn Hs Hf Hq Hseq Hu (Hb & Hr & Hw) Hrx Hg (l & El & Hl) Hwi] Hp E. simpl in *.
  subst n. destruct (wire_recv all r x w p) as (Hlt & -> & Hw'); [lia|done|done|done|].
  constructor; simpl; try done.
  - lia.
  - apply mod8_S.
  - by rewrite Hg, take_S_nth.
  - exists l. split; [done|]. eapply acks_ok_mono; [| |exact Hl]; lia.
Qed.

(** Every step keeps the invariant, in some accounting of the frames. *)
Lemma inv_step s s' :
  astep s s' -> forall all ds base r, inv all ds base r s ->
  exists all' ds' base' r', inv all' ds' base' r' s'.
Proof.
  intros Hst all ds base r H. destruct Hst.
  - destruct (inv_queue d _ _ _ _ _ _ _ _ _ _ H) as [ds' H']. eauto.
  - eexists _, _, _, _. exact (inv_pump _ _ _ _ _ _ _ _ _ _ H).
  - eexists _, _, _, _. exact (inv_retransmit _ _ _ _ _ _ _ _ _ _ H).
  - exists all, ds, base, r. destruct H. constructor; simpl in *; try done. by apply (wire_tail all r x).
  - eexists _, _, _, _. eapply inv_recv; eassumption.
  - exists all, ds, base, r. destruct H. constructor; simpl in *; try done. by apply (wire_tail all r x).
  - exists all, ds, base, r. destruct H as [? ? ? ? ? ? ? ? Hrx ? (l & El & Hl) ?].
    constructor; simpl in *; try done. exists (l ++ [r]). rewrite fmap_app, El, Hrx.
    split; [done|]. by apply acks_ok_snoc.
  - exists all, ds, base, r. destruct H as [? ? ? ? ? ? ? ? ? ? (l & El & Hl) ?].
    constructor; simpl in *; try done. destruct l as [|m l]; [done|]. simpl in *. simplify_eq.
    exists l. split; [done|]. eapply acks_ok_mono; [| |apply Hl]; lia.
  - destruct (inv_ack _ _ _ _ _ _ _ _ _ _ _ H) as (all' & ds' & base' & H'). eauto.
Qed.

Lemma inv_init s : arq_init s -> inv [] [] 0 0 s.
Proof.
  destruct s as [t w n g a f]. intros (H1 & H2 & H3 & H4 & H5 & H6 & H7 & H8 & H9 & H10). simpl in *.
  subst. constructor; simpl; try done.
  - lia.
  - exists []. split; [done|simpl; lia].
  - exists []. split_and!; constructor.
Qed.

Lemma reachable_inv s : reachable s -> exists all ds base r, inv all ds base r s.
Proof.
  intros (s0 & Hi & Hs). apply inv_init in Hi.
  assert (H : exists all ds base r, inv all ds base r s0) by eauto. clear Hi.
  induction Hs as [s|s s1 s2 Hst _ IH]; [done|].
  destruct H as (all & ds & base & r & H). apply IH. eapply inv_step; eassumption.
Qed.

(** The frames of the window. *)
Lemma window_data (all : list bytes) base :
  (fun k => p_data (pkt_at all k)) <$> seq base (length all - base) = drop base all.
Proof.
  revert base. induction all as [|d all IH]; intros base; [by rewrite drop_nil|].
  destruct base as [|base].
  - rewrite drop_0. cbn [length]. rewrite Nat.sub_0_r. cbn [seq]. rewrite fmap_cons. f_equal.
    specialize (IH 0%nat). rewrite Nat.sub_0_r, drop_0 in IH. rewrite <- IH at 2.
    rewrite <- fmap_S_seq, <- list_fmap_compose. reflexivity.
  - simpl (drop _ _). rewrite <- IH. cbn [length]. rewrite Nat.sub_succ.
    rewrite <- fmap_S_seq, <- list_fmap_compose. reflexivity.
Qed.

(** C2. Reliable, ordered delivery: whatever the line loses in either direction,
    and however sends, pumps, retransmissions and acknowledgements interleave,
    what the receiver has passed up is a prefix of the frames the sender's
    queue accepted (no loss, no duplicate, no reordering); the window never
    holds more than seven packets; and every accepted frame that is not yet
    delivered is still held by the sender, in the window or in the queue.  The
    sender is the modem's code; the receiver is the phone, given as a relation that
    takes the frame it expects next and acknowledges what it took. *)
Theorem arq_in_order (s : arq) :
  reachable s ->
  s.(got) = take (length s.(got)) s.(subm) /\
  (length s.(tx).(b_link).(h5_unacked) <= 7)%nat /\
  exists n ds, (n <= length s.(got))%nat /\ s.(tx).(b_link).(h5_txq) = records ds /\
    drop n s.(subm) = (p_data <$> s.(tx).(b_link).(h5_unacked)) ++ ds.
Proof.
  intros H. destruct (reachable_inv s H) as (all & ds & base & r & [_ _ _ Hf Hq _ Hu (Hb & Hr & Hw) _ Hg _ _]).
  assert (Hlg : length (got s) = r) by (rewrite Hg, length_take; lia).
  split_and!.
  - rewrite Hlg, Hf, take_app_le by lia. done.
  - rewrite Hu, length_fmap, length_seq. lia.
  - exists base, ds. split_and!; [lia|done|]. rewrite Hf, drop_app_le by lia. f_equal.
    rewrite Hu, <- list_fmap_compose. symmetry. apply window_data.
Qed.

(** ** The way out *)

(** Where the receiver ends after the frames [ks]. *)
Definition adv (r : nat) (ks : list nat) : nat :=
  fold_left (fun r k => if Nat.eqb k r then S r else r) ks r.

Lemma adv_seq r b m : (b <= r)%nat -> (r <= b + m)%nat -> adv r (seq b m) = (b + m)%nat.
Proof.
  revert r b. induction m as [|m IH]; intros r b Hb Hr; simpl; [unfold adv; simpl; lia|].
  unfold adv in *. simpl. destruct (Nat.eqb_spec b r); rewrite IH; lia.
Qed.

(** Nothing more is lost: the line empties. *)
Lemma drain all ds base t a f ks : forall w r n g,
  inv all ds base r (mkArq t w n g a f) ->
  Forall2 (fun x k => carries x (pkt_at all k)) w ks -> chan_ok r r ks ->
  exists n' g', rtc astep (mkArq t w n g a f) (mkArq t [] n' g' a f) /\
    inv all ds base (adv r ks) (mkArq t [] n' g' a f).
Proof.
  induction ks as [|k ks IH]; intros w r n g H H2 Hc.
  { inversion H2; subst. exists n, g. split; [apply rtc_refl|exact H]. }
  inversion H2 as [|x ? w' ? Hx H2']; subst. destruct Hc as (C1 & C2 & C3).
  pose proof (i_rx _ _ _ _ _ H) as Hn. simpl in Hn. subst n.
  unfold adv. cbn [fold_left]. destruct (Nat.eqb_spec k r) as [->|Hne].
  - pose proof (inv_recv _ _ _ _ _ _ _ _ _ _ _ _ H Hx eq_refl) as H'.
    destruct (IH _ _ _ _ H' H2') as (n' & g' & Hs & Hi).
    { eapply chan_ok_mono; [| |exact C3]; lia. }
    exists n', g'. split; [|exact Hi]. eapply rtc_l; [|exact Hs]. by apply s_recv.
  - destruct (IH w' r (mod8 r) g) as (n' & g' & Hs & Hi).
    { destruct H. constructor; simpl in *; try done. by apply (wire_tail all r x). }
    { done. }
    { eapply chan_ok_mono; [| |exact C3]; lia. }
    exists n', g'. split; [|exact Hi]. eapply rtc_l; [|exact Hs].
    eapply s_again; [exact Hx|]. simpl. intros E. apply Hne. apply mod8_inj; [lia|lia|exact E].
Qed.

(** One retransmission on a line that loses nothing delivers the whole window. *)
Lemma redeliver all ds base r t w n g a f :
  inv all ds base r (mkArq t w n g a f) ->
  exists t' n' g', rtc astep (mkArq t w n g a f) (mkArq t' [] n' g' a f) /\
    inv all ds base (length all) (mkArq t' [] n' g' a f).
Proof.
  intros H. destruct (i_wire _ _ _ _ _ H) as (ks & H2 & _ & Hc). simpl in H2.
  destruct (drain _ _ _ _ _ _ _ _ _ _ _ H H2 Hc) as (n1 & g1 & S1 & I1).
  set (r1 := adv r ks) in *. pose proof (inv_retransmit _ _ _ _ _ _ _ _ _ _ I1) as I2.
  pose proof I1 as [_ Hn Hs _ _ _ Hu (Hb & Hr & Hw) _ _ _ _]. simpl in Hn, Hu.
  apply Forall_app in Hs as [Hs _].
  destruct (h5_retransmit_spec t) as (_ & _ & _ & _ & P4); [rewrite Hu; by apply unacked_small|].
  cbv zeta in P4. rewrite Hu in P4. rewrite (sent_app _ _ _ P4) in I2.
  destruct (drain all ds base (h5_retransmit t) a f (seq base (length all - base)) _ _ _ _ I2)
    as (n2 & g2 & S2 & I3).
  - simpl. generalize (seq base (length all - base)). intros l.
    induction l as [|k l IH]; constructor; [by apply carries_at|exact IH].
  - apply (chan_ok_app r1 r1 (length all) []); [done|done|constructor|].
    apply Forall_seq. intros j Hj. lia.
  - rewrite adv_seq in I3 by lia. replace (base + (length all - base))%nat with (length all) in I3 by lia.
    exists (h5_retransmit t), n2, g2. split; [|exact I3].
    etransitivity; [exact S1|]. eapply rtc_l; [apply s_retransmit|].
    rewrite (sent_app _ _ _ P4). exact S2.
Qed.

(** Old acknowledgements can be forgotten. *)
Lemma forget_acks t w n g a f : rtc astep (mkArq t w n g a f) (mkArq t w n g [] f).
Proof. induction a as [|x a IH]; [apply rtc_refl|]. eapply rtc_l; [apply s_ack_lose|exact IH]. Qed.

(** With everything delivered, an acknowledgement (or the pump alone, when the
    window is empty) numbers the next queued frames. *)
Lemma refill all ds base t n g a f :
  inv all ds base (length all) (mkArq t [] n g a f) -> ds <> [] ->
  exists all' ds' base' t' w', rtc astep (mkArq t [] n g a f) (mkArq t' w' n g [] f) /\
    inv all' ds' base' (length all) (mkArq t' w' n g [] f) /\ (length all < length all')%nat.
Proof.
  intros H Hd. pose proof (i_rx _ _ _ _ _ H) as Hn. simpl in Hn.
  assert (Hpos : (1 <= length ds)%nat) by (destruct ds; [done|simpl; lia]).
  assert (H0 : inv all ds base (length all) (mkArq t [] n g [] f)).
  { pose proof H as [_ _ _ _ _ _ _ (Hb & _ & _) _ _ _ _]. destruct H. constructor; simpl in *; try done.
    exists []. split; [done|]. simpl. lia. }
  pose proof H0 as [_ _ _ _ _ _ Hu (Hb & _ & Hw) _ _ _ _]. simpl in Hu.
  destruct (decide (base = length all)) as [E|Hne].
  - pose proof (inv_pump _ _ _ _ _ _ _ _ _ _ H0) as I. cbv zeta in I.
    eexists _, _, _, _, _. split; [|split; [exact I|]].
    + etransitivity; [apply forget_acks|]. apply rtc_once. apply s_pump.
    + rewrite length_app, length_take. unfold room. rewrite Hu, length_fmap, length_seq. lia.
  - destruct (inv_ack_base (length all) [] _ _ _ _ _ _ _ _ _ _ H0) as [E I]; [lia|lia|simpl; lia|].
    set (t1 := t <| b_link; h5_unacked ::= _ |>) in *.
    pose proof (inv_pump _ _ _ _ _ _ _ _ _ _ I) as I2. cbv zeta in I2.
    eexists _, _, _, _, _. split; [|split; [exact I2|]].
    + etransitivity; [apply forget_acks|]. eapply rtc_l; [apply s_ack_out|].
      rewrite Hn. simpl ([] ++ _). apply rtc_once.
      replace (sent t1 (h5_pump t1)) with (sent t (h5_ack (mod8 (length all)) t)) by (rewrite E; done).
      rewrite <- E. apply s_ack_in.
    + pose proof (i_unacked _ _ _ _ _ I) as Hu1. simpl in Hu1.
      rewrite length_app, length_take. unfold room. fold t1 in Hu1.
      change (h5_unacked (b_link t1)) with (zdrop (Z.of_nat (length all - base)) (h5_unacked (b_link t))).
      rewrite Hu1, Nat.sub_diag. simpl (length _). lia.
Qed.

(** C5. No frame is ever stuck: from every state the protocol can reach, whatever
    was lost before, there is a continuation (a retransmission, the receiver's
    acknowledgement, and so on) after which the receiver, the phone of the same
    relation, has passed up every frame the sender accepted, in order and once. *)
Theorem arq_recovers (s : arq) :
  reachable s -> exists s', rtc astep s s' /\ s'.(subm) = s.(subm) /\ s'.(got) = s.(subm).
Proof.
  intros H. destruct (reachable_inv s H) as (all & ds & base & r & I). clear H.
  remember (length ds) as m eqn:Hm. revert s all ds base r Hm I.
  induction m as [m IH] using lt_wf_ind. intros [t w n g a f] all ds base r -> I.
  destruct (redeliver _ _ _ _ _ _ _ _ _ _ I) as (t1 & n1 & g1 & S1 & I1).
  pose proof I1 as [_ _ _ Hf _ _ _ _ _ Hg _ _]. simpl in Hf, Hg. rewrite take_ge in Hg by lia.
  destruct ds as [|d ds'] eqn:Ed.
  { exists (mkArq t1 [] n1 g1 a f). split_and!; [exact S1|done|]. simpl. rewrite Hg, Hf, app_nil_r. done. }
  rewrite <- Ed in *. destruct (refill _ _ _ _ _ _ _ _ I1) as (all2 & ds2 & b2 & t2 & w2 & S2 & I2 & Hlt);
    [by rewrite Ed|].
  pose proof (i_subm _ _ _ _ _ I2) as Hf2. simpl in Hf2.
  assert (Hlen : (length ds2 < length ds)%nat).
  { rewrite Hf in Hf2. apply (f_equal length) in Hf2. rewrite !length_app in Hf2. lia. }
  destruct (IH (length ds2) Hlen _ _ _ _ _ eq_refl I2) as (s' & S3 & E1 & E2). simpl in E1, E2.
  exists s'. split_and!; [|exact E1|exact E2].
  etransitivity; [exact S1|]. etransitivity; [exact S2|exact S3].
Qed.

(** A sender with one frame queued, sent and lost. *)
Definition ex_arq : arq :=
  mkArq (h5_pump (h5_queue (str "at") ex_h5)) [] 0 [] [] [str "at"].

Lemma ex_arq_reachable : reachable ex_arq.
Proof.
  exists (mkArq ex_h5 [] 0 [] [] []). split.
  { repeat split; vm_compute; congruence. }
  eapply rtc_l; [apply (s_queue (str "at"))|].
  eapply rtc_l; [apply s_pump|]. eapply rtc_l; [|apply rtc_refl]. apply s_lose.
Qed.

Lemma arq_in_order_witness :
  got ex_arq = take (length (got ex_arq)) (subm ex_arq) /\
  (length (h5_unacked (b_link (tx ex_arq))) <= 7)%nat /\
  exists n ds, (n <= length (got ex_arq))%nat /\ h5_txq (b_link (tx ex_arq)) = records ds /\
    drop n (subm ex_arq) = (p_data <$> h5_unacked (b_link (tx ex_arq))) ++ ds.
Proof. exact (arq_in_order ex_arq ex_arq_reachable). Defined.

Lemma arq_recovers_witness :
  exists s', rtc astep ex_arq s' /\ subm s' = [str "at"] /\ got s' = [str "at"].
Proof. exact (arq_recovers ex_arq ex_arq_reachable). Defined.
