(* ===== verification/BbMuxFacts.v ===== *)
(** * Facts about the 27.010 multiplexer

    A frame the sender builds is received exactly once with its address,
    control field and information; a frame with a wrong check sequence is
    dropped; a length over the receive buffer is never finished. *)

From Stdlib Require Import ZArith Lia String.
From stdpp Require Import base numbers list.
From S2P Require Import Prelude CLib BbState BbTx BbAt BbRx BbTick.
Local Open Scope Z_scope.

(** ** Check sequence *)

Lemma fcs_good_all :
  forallb (fun z => Bool.eqb (rd mx_fcs_table z =? MX_GOOD_FCS) (z =? 0xff) &&
                    (0xff - z =? Z.lxor z 0xff) &&
                    (0 <=? rd mx_fcs_table z) && (rd mx_fcs_table z <? 256)) all_bytes = true.
Proof. vm_compute. reflexivity. Qed.

Lemma fcs_table_byte z : is_byte z -> is_byte (rd mx_fcs_table z).
Proof. intros H. pose proof (byte_forall _ fcs_good_all z H) as E. cbv beta in E. bool_hyps. done. Qed.

Lemma lxor_byte a b : is_byte a -> is_byte b -> is_byte (Z.lxor a b).
Proof.
  intros Ha Hb. unfold is_byte in *.
  assert (E : Z.lxor a b = Z.lxor a b mod 2 ^ 8).
  { rewrite <- (Z.mod_small a (2 ^ 8)) at 1 by lia. rewrite <- (Z.mod_small b (2 ^ 8)) at 1 by lia.
    rewrite <- !Z.land_ones by lia. apply Z.bits_inj'. intros n Hn.
    rewrite Z.land_spec, !Z.lxor_spec, !Z.land_spec. by destruct (Z.testbit (Z.ones 8) n), (Z.testbit a n), (Z.testbit b n). }
  rewrite E. change 256 with (2 ^ 8). apply Z.mod_pos_bound. lia.
Qed.

Lemma mx_fcs_byte fcs p : is_byte fcs -> is_bytes p -> is_byte (mx_fcs fcs p).
Proof.
  unfold mx_fcs. intros Hf Hp. revert fcs Hf. induction Hp as [|b p Hb _ IH]; intros fcs Hf; [done|].
  apply IH, fcs_table_byte, lxor_byte; done.
Qed.

(** The last octet brings the check sequence to its good value exactly when it
    is the complement of what was computed. *)
Lemma mx_fcs_good fcs x :
  is_byte fcs -> is_byte x -> (mx_fcs_step fcs x =? MX_GOOD_FCS) = (x =? 0xff - fcs).
Proof.
  intros Hf Hx. unfold mx_fcs_step.
  pose proof (byte_forall _ fcs_good_all _ (lxor_byte _ _ Hf Hx)) as E. cbv beta in E.
  pose proof (byte_forall _ fcs_good_all fcs Hf) as E'. cbv beta in E'.
  apply andb_prop in E as [E _]. apply andb_prop in E as [E _]. apply andb_prop in E as [E _].
  apply eqb_prop in E. rewrite E.
  apply andb_prop in E' as [E' _]. apply andb_prop in E' as [E' _].
  apply andb_prop in E' as [_ E']. apply Z.eqb_eq in E'. rewrite E'.
  destruct (Z.eqb_spec x (Z.lxor fcs 0xff)) as [->|Hne].
  - rewrite <- Z.lxor_assoc, Z.lxor_nilpotent. done.
  - apply Z.eqb_neq. intros Hc. apply Hne. rewrite <- Hc, <- Z.lxor_assoc, Z.lxor_nilpotent. done.
Qed.

(** ** Receiving a frame *)

(** The core with the receiver in state [m]. *)
Definition with_rx (m : IosBbMuxRx) (bb : IosBbCore) : IosBbCore := bb <| b_mux; muxrx := m |>.

Lemma mx_byte_on_rx bb c f :
  bb.(b_mux).(mux_leave) = false -> mx_byte_switch bb c = on_rx f bb ->
  mx_byte bb c = with_rx (f bb.(b_mux).(muxrx)) bb.
Proof.
  intros Hl E. unfold mx_byte. rewrite E. cbv zeta. simpl. rewrite Hl. reflexivity.
Qed.

Lemma with_rx_twice m m' bb : with_rx m (with_rx m' bb) = with_rx m bb.
Proof. reflexivity. Qed.

Definition fcs_after (ctrl fcs : Z) (data : bytes) : Z :=
  if negb (no_pf ctrl =? MX_UIH) then mx_fcs fcs data else fcs.

(** The information field. *)
Lemma mx_data_bytes data pre fr addr ctrl fcs bb :
  bb.(b_mux).(mux_leave) = false -> data <> [] -> zlen (pre ++ data) <= 1600 ->
  fold_left mx_byte data (with_rx (mkMuxRx MX_DATA fr addr ctrl (zlen (pre ++ data)) pre fcs) bb) =
  with_rx (mkMuxRx MX_FCS fr addr ctrl (zlen (pre ++ data)) (pre ++ data)
             (fcs_after ctrl fcs (pre ++ data))) bb.
Proof.
  intros Hl. revert pre. induction data as [|c t IH]; intros pre Hne Hz; [done|].
  cbn [fold_left].
  erewrite (mx_byte_on_rx _ c (mx_data_byte c)); [|exact Hl|reflexivity].
  rewrite with_rx_twice. cbn [b_mux muxrx with_rx]. simpl (muxrx _).
  unfold mx_data_byte. cbn [m_buf m_len m_ctrl m_fcs].
  rewrite zlen_app, zlen_cons in Hz. pose proof (zlen_nonneg t).
  rewrite (proj2 (Z.ltb_lt (zlen pre) MX_BUF_SIZE)) by (unfold MX_BUF_SIZE; lia).
  assert (Ez : zlen (pre ++ [c]) = zlen pre + 1) by (rewrite zlen_app; reflexivity).
  cbv zeta. simpl. rewrite Ez, zlen_app, zlen_cons.
  destruct t as [|d t'].
  - change (zlen []) with 0. rewrite (proj2 (Z.leb_le _ _)) by lia.
    unfold fcs_after. destruct (negb _); reflexivity.
  - rewrite zlen_cons in Hz |- *. pose proof (zlen_nonneg t'). rewrite (proj2 (Z.leb_gt _ _)) by lia.
    specialize (IH (pre ++ [c]) ltac:(done)). rewrite <- app_assoc in IH.
    change ([c] ++ d :: t') with (c :: d :: t') in IH.
    rewrite zlen_app, !zlen_cons in IH. exact (IH ltac:(lia)).
Qed.

(** Length octets. *)
Definition len_short_ok (len : Z) : bool :=
  let c := u8 (Z.lor (Z.shiftl len 1) MX_EA) in Z.testbit c 0 && (Z.shiftr c 1 =? len).

Definition len_long_ok (len : Z) : bool :=
  let c := u8 (Z.shiftl (Z.land len 0x7f) 1) in
  let d := u8 (Z.shiftr len 7) in
  negb (Z.testbit c 0) && (Z.lor (Z.land (Z.shiftr c 1) 0x7f) (Z.shiftl d 7) =? len).

Lemma len_short_all : forallb (fun k => len_short_ok (Z.of_nat k)) (seq 0 128) = true.
Proof. vm_compute. reflexivity. Qed.

Lemma len_long_all len : 0 <= len < 32768 -> len_long_ok len = true.
Proof.
  intros Hl. unfold len_long_ok. change 0x7f with (Z.ones 7). rewrite !Z.land_ones, !Z.shiftr_div_pow2 by lia.
  change (2 ^ 7) with 128. change (2 ^ 1) with 2. rewrite Z.shiftl_mul_pow2 by lia. change (2 ^ 1) with 2.
  pose proof (Z.mod_pos_bound len 128 ltac:(lia)). pose proof (Z.div_mod len 128 ltac:(lia)).
  assert (0 <= len / 128 < 256) by lia.
  rewrite !u8_id, Z.div_mul by (unfold is_byte; lia). rewrite Zmod_mod, andb_true_iff. split.
  - by rewrite Z.mul_comm, Z.testbit_even_0.
  - apply Z.eqb_eq. change 128 with (2 ^ 7). rewrite <- Z.land_ones, <- Z.shiftr_div_pow2 by lia.
    apply Z.bits_inj'. intros n Hn. rewrite Z.lor_spec, Z.land_spec, Z.shiftl_spec by lia.
    destruct (Z.ltb_spec n 7).
    + rewrite Z.ones_spec_low, (Z.testbit_neg_r _ (n - 7)) by lia. by rewrite andb_true_r, orb_false_r.
    + rewrite Z.ones_spec_high, Z.shiftr_spec by lia. rewrite andb_false_r. simpl. f_equal. lia.
Qed.

Lemma seq_forall P n len :
  forallb (fun k => P (Z.of_nat k)) (seq 0 n) = true -> 0 <= len < Z.of_nat n -> P len = true.
Proof.
  intros H Hl. rewrite forallb_forall in H. rewrite <- (Z2Nat.id len) by lia.
  apply H, in_seq. lia.
Qed.

(** Address octet. *)
Definition mx_addr (dlci : Z) (cr : bool) : Z :=
  u8 (Z.lor (Z.lor (Z.shiftl dlci 2) (Z.shiftl (b2z cr) 1)) MX_EA).

Definition addr_ok (d : Z) : bool :=
  forallb (fun cr => let a := mx_addr d cr in
    negb (a =? MX_FLAG) && Z.testbit a 0 && (Z.shiftr a 2 =? d)) [true; false].

Lemma addr_all : forallb (fun k => addr_ok (Z.of_nat k)) (seq 0 62) = true.
Proof. vm_compute. reflexivity. Qed.

Lemma mx_addr_ok dlci cr :
  0 <= dlci < 62 ->
  (mx_addr dlci cr =? MX_FLAG) = false /\ Z.testbit (mx_addr dlci cr) 0 = true /\
  Z.shiftr (mx_addr dlci cr) 2 = dlci.
Proof.
  intros H. pose proof (seq_forall _ 62 dlci addr_all ltac:(lia)) as E. unfold addr_ok in E.
  rewrite forallb_forall in E. specialize (E cr ltac:(destruct cr; simpl; auto)).
  cbv zeta in E. bool_hyps. split_and!; [by apply Z.eqb_neq|done|done].
Qed.

(** One byte that only moves the receiver. *)
Ltac mx_next f :=
  erewrite (mx_byte_on_rx (with_rx _ _) _ f); [|assumption|reflexivity];
  rewrite with_rx_twice.

Lemma mx_search_addr c m bb :
  bb.(b_mux).(mux_leave) = false -> m.(m_state) = MX_SEARCH ->
  (c =? MX_FLAG) = false -> Z.testbit c 0 = true ->
  mx_byte (with_rx m bb) c =
  with_rx (mkMuxRx MX_CTRL 0 c m.(m_ctrl) m.(m_len) m.(m_buf) (mx_fcs_step MX_INIT_FCS c)) bb.
Proof.
  intros Hl Hs Hc Ht.
  rewrite (mx_byte_on_rx _ c (fun m => mx_addr_byte c (m <| m_flags_run := 0 |> <| m_state := MX_ADDR |>)));
    [|exact Hl|].
  - rewrite with_rx_twice. unfold mx_addr_byte. rewrite Hc, Ht. destruct m. reflexivity.
  - unfold mx_byte_switch. simpl. rewrite Hs, Hc. reflexivity.
Qed.

(** The header of a frame brings an idle receiver to the information field, or
    to the check sequence when there is none. *)
Lemma mx_header_bytes dlci cr ctrl len m bb :
  bb.(b_mux).(mux_leave) = false -> m.(m_state) = MX_SEARCH ->
  0 <= dlci < 62 -> is_byte ctrl -> 0 <= len < 32768 ->
  fold_left mx_byte (mx_header dlci cr ctrl len) (with_rx m bb) =
  with_rx (mkMuxRx (mx_after_len len) 0 (mx_addr dlci cr) ctrl len []
             (mx_fcs MX_INIT_FCS (mx_header dlci cr ctrl len))) bb.
Proof.
  intros Hl Hs Hd Hc Hn. destruct (mx_addr_ok dlci cr Hd) as (Ha & Hb & _).
  unfold mx_header. fold (mx_addr dlci cr). rewrite u8_id by done.
  cbn [app fold_left]. rewrite mx_search_addr by done. unfold mx_fcs. cbn [fold_left].
  set (f1 := mx_fcs_step MX_INIT_FCS (mx_addr dlci cr)).
  mx_next (fun m => m <| m_fcs := mx_fcs_step m.(m_fcs) ctrl |> <| m_ctrl := ctrl |> <| m_state := MX_LEN0 |>).
  simpl (muxrx _). set (f2 := mx_fcs_step f1 ctrl).
  change (_ <| m_fcs := _ |> <| m_ctrl := ctrl |> <| m_state := MX_LEN0 |>) with
    (mkMuxRx MX_LEN0 0 (mx_addr dlci cr) ctrl m.(m_len) m.(m_buf) f2).
  destruct (Z.ltb_spec len 128).
  - pose proof (seq_forall _ 128 len len_short_all ltac:(lia)) as E. unfold len_short_ok in E. cbv zeta in E.
    set (c := u8 (Z.lor (Z.shiftl len 1) MX_EA)) in *. bool_hyps. cbn [fold_left].
    erewrite (mx_byte_on_rx (with_rx _ _) c); [|exact Hl|reflexivity].
    rewrite with_rx_twice. simpl (muxrx _). cbv beta zeta.
    rewrite H0, H1. reflexivity.
  - pose proof (len_long_all len ltac:(lia)) as E. unfold len_long_ok in E. cbv zeta in E.
    set (c := u8 (Z.shiftl (Z.land len 0x7f) 1)) in *. set (d := u8 (Z.shiftr len 7)) in *.
    bool_hyps. cbn [fold_left].
    erewrite (mx_byte_on_rx (with_rx _ _) c); [|exact Hl|reflexivity].
    rewrite with_rx_twice. simpl (muxrx _). cbv beta zeta. rewrite H0.
    erewrite (mx_byte_on_rx (with_rx _ _) d); [|exact Hl|reflexivity].
    rewrite with_rx_twice. simpl (muxrx _). cbv beta zeta. simpl (m_len _). rewrite H1. reflexivity.
Qed.

(** The receiver once header and information are in. *)
Definition mx_ready (dlci : Z) (cr : bool) (ctrl : Z) (data : bytes) : IosBbMuxRx :=
  mkMuxRx MX_FCS 0 (mx_addr dlci cr) ctrl (zlen data) data
    (fcs_after ctrl (mx_fcs MX_INIT_FCS (mx_header dlci cr ctrl (zlen data))) data).

(** After the check sequence: look for the next frame, and leave the
    multiplexer if the frame was a close-down. *)
Definition mx_settle (bb : IosBbCore) : IosBbCore :=
  let bb := on_rx (fun m => m <| m_state := MX_SEARCH |> <| m_flags_run := 0 |>) bb in
  if bb.(b_mux).(mux_leave) then
    bb <| b_mux; mux_leave := false |> <| b_mux; mux := false |> <| b_mux; muxrx := muxrx0 |>
  else bb.

Lemma mx_body_bytes dlci cr ctrl data m bb :
  bb.(b_mux).(mux_leave) = false -> m.(m_state) = MX_SEARCH ->
  0 <= dlci < 62 -> is_byte ctrl -> zlen data <= 1600 ->
  fold_left mx_byte (mx_header dlci cr ctrl (zlen data) ++ data) (with_rx m bb) =
  with_rx (mx_ready dlci cr ctrl data) bb.
Proof.
  intros Hl Hs Hd Hc Hn. pose proof (zlen_nonneg data).
  rewrite fold_left_app, mx_header_bytes by (done || lia).
  destruct data as [|c t] eqn:Ed.
  - unfold mx_ready, fcs_after. simpl fold_left. destruct (negb _); reflexivity.
  - rewrite <- Ed in *. unfold mx_after_len.
    rewrite (proj2 (Z.eqb_neq (zlen data) 0)) by (rewrite Ed, zlen_cons; pose proof (zlen_nonneg t); lia).
    exact (mx_data_bytes data [] 0 _ ctrl _ bb Hl ltac:(by rewrite Ed) Hn).
Qed.

Lemma mx_ready_fcs_byte dlci cr ctrl data :
  is_bytes data -> is_byte (mx_ready dlci cr ctrl data).(m_fcs).
Proof.
  intros Hd. unfold mx_ready, fcs_after. cbn [m_fcs].
  assert (is_byte (mx_fcs MX_INIT_FCS (mx_header dlci cr ctrl (zlen data)))).
  { apply mx_fcs_byte; [unfold is_byte, MX_INIT_FCS; lia|]. unfold mx_header.
    apply is_bytes_app. split; [repeat constructor; apply u8_is_byte|].
    split_ifs; repeat constructor; apply u8_is_byte. }
  destruct (negb _); [by apply mx_fcs_byte|done].
Qed.

Lemma mx_fcs_octet dlci cr ctrl data x bb :
  is_bytes data -> is_byte x ->
  mx_byte (with_rx (mx_ready dlci cr ctrl data) bb) x =
  mx_settle (if x =? 0xff - (mx_ready dlci cr ctrl data).(m_fcs)
             then mx_rx_frame (mx_addr dlci cr) ctrl (with_rx (mx_ready dlci cr ctrl data) bb)
             else with_rx (mx_ready dlci cr ctrl data) bb).
Proof.
  intros Hd Hx. rewrite <- (mx_fcs_good _ x (mx_ready_fcs_byte dlci cr ctrl data Hd) Hx).
  reflexivity.
Qed.

(** An opening flag moves an idle receiver only. *)
Lemma mx_open_flag bb :
  bb.(b_mux).(mux_leave) = false -> bb.(b_mux).(muxrx).(m_state) = MX_SEARCH ->
  0 <= bb.(b_mux).(muxrx).(m_flags_run) <= 1 ->
  exists m, mx_byte bb MX_FLAG = with_rx m bb /\ m.(m_state) = MX_SEARCH /\
    m.(m_flags_run) = u32 (bb.(b_mux).(muxrx).(m_flags_run) + 1).
Proof.
  intros Hl Hs Hf. eexists. split.
  - apply (mx_byte_on_rx bb MX_FLAG (fun m => m <| m_flags_run ::= fun n => u32 (n + 1) |>)); [done|].
    unfold mx_byte_switch. rewrite Hs, Z.eqb_refl. cbv zeta.
    assert (H : (1 <=? m_flags_run (muxrx (b_mux bb))) &&
                negb (Z.testbit (m_flags_run (muxrx (b_mux bb))) 0) = false).
    { assert (E : m_flags_run (muxrx (b_mux bb)) = 0 \/ m_flags_run (muxrx (b_mux bb)) = 1) by lia.
      destruct E as [-> | ->]; reflexivity. }
    rewrite H. reflexivity.
  - split; [exact Hs|reflexivity].
Qed.

(** A receiver that waits for a frame. *)
Definition mx_idle (bb : IosBbCore) : Prop :=
  bb.(b_mux).(mux_leave) = false /\ bb.(b_mux).(muxrx).(m_state) = MX_SEARCH /\
  0 <= bb.(b_mux).(muxrx).(m_flags_run) <= 1.

(** Flag, header, information and any last octet. *)
Lemma mx_frame_octets dlci cr ctrl data x bb :
  mx_idle bb -> 0 <= dlci < 62 -> is_byte ctrl -> is_bytes data -> zlen data <= 1600 -> is_byte x ->
  mx_input ([MX_FLAG] ++ mx_header dlci cr ctrl (zlen data) ++ data ++ [x]) bb =
  mx_settle (if x =? 0xff - (mx_ready dlci cr ctrl data).(m_fcs)
             then mx_rx_frame (mx_addr dlci cr) ctrl (with_rx (mx_ready dlci cr ctrl data) bb)
             else with_rx (mx_ready dlci cr ctrl data) bb).
Proof.
  intros (Hl & Hs & Hf) Hd Hc Hb Hn Hx. destruct (mx_open_flag bb Hl Hs Hf) as (m & E & Hm & _).
  unfold mx_input. rewrite fold_left_app. cbn [fold_left]. rewrite E.
  rewrite app_assoc, fold_left_app, mx_body_bytes by done.
  cbn [fold_left]. by apply mx_fcs_octet.
Qed.

Lemma mx_frame_in dlci cr ctrl data bb :
  mx_idle bb -> 0 <= dlci < 62 -> is_byte ctrl -> is_bytes data -> zlen data <= MX_BUF_SIZE ->
  mx_input ([MX_FLAG] ++ mx_frame dlci cr ctrl data) bb =
    mx_settle (mx_rx_frame (mx_addr dlci cr) ctrl (with_rx (mx_ready dlci cr ctrl data) bb))
  /\ Z.shiftr (mx_addr dlci cr) 2 = dlci.
Proof.
  intros Hi Hd Hc Hb Hn. split; [|by apply mx_addr_ok].
  pose proof (mx_ready_fcs_byte dlci cr ctrl data Hb) as Hf.
  change (mx_frame dlci cr ctrl data) with
    (mx_header dlci cr ctrl (zlen data) ++ data ++ [u8 (0xff - (mx_ready dlci cr ctrl data).(m_fcs))]).
  rewrite u8_id by (unfold is_byte in *; lia).
  rewrite mx_frame_octets by (done || (unfold is_byte in *; lia)). by rewrite Z.eqb_refl.
Qed.

(** C4. A frame as [mx_send] puts it on the line (channels below 62, up to 1600
    bytes of information, with one- or two-octet length), read by a
    multiplexer that waits for a frame, is handed to the frame handler exactly
    once, with its address, control field and information unchanged. *)
Theorem mux_frame_received dlci cr ctrl data bb :
  mx_idle bb -> 0 <= dlci < 62 -> is_byte ctrl -> is_bytes data -> zlen data <= MX_BUF_SIZE ->
  mx_input ([MX_FLAG] ++ mx_frame dlci cr ctrl data) bb =
    mx_settle (mx_rx_frame (mx_addr dlci cr) ctrl (with_rx (mx_ready dlci cr ctrl data) bb))
  /\ Z.shiftr (mx_addr dlci cr) 2 = dlci.
Proof. apply mx_frame_in. Qed.

Lemma mux_frame_received_witness :
  mx_input ([MX_FLAG] ++ mx_frame 3 true MX_UIH (str "at+cops?")) ex_mux =
    mx_settle (mx_rx_frame (mx_addr 3 true) MX_UIH
                 (with_rx (mx_ready 3 true MX_UIH (str "at+cops?")) ex_mux)) /\
  Z.shiftr (mx_addr 3 true) 2 = 3.
Proof.
  refine (mux_frame_received 3 true MX_UIH (str "at+cops?") ex_mux _ _ _ _ _).
  - split; [reflexivity|]. split; [reflexivity|]. vm_compute. split; discriminate.
  - lia.
  - vm_compute. split; [discriminate|reflexivity].
  - repeat constructor; vm_compute; intuition discriminate.
  - vm_compute. discriminate.
Defined.

(** A frame with a check octet other than the one [mx_send] computes is dropped: only the receiver's
    own state changes, and it waits for the next frame. *)
Theorem mux_bad_fcs_dropped dlci cr ctrl data x bb :
  mx_idle bb -> 0 <= dlci < 62 -> is_byte ctrl -> is_bytes data -> zlen data <= MX_BUF_SIZE ->
  is_byte x -> mx_frame dlci cr ctrl data <> mx_header dlci cr ctrl (zlen data) ++ data ++ [x] ->
  exists m, mx_input ([MX_FLAG] ++ mx_header dlci cr ctrl (zlen data) ++ data ++ [x]) bb = with_rx m bb
    /\ m.(m_state) = MX_SEARCH /\ m.(m_flags_run) = 0.
Proof.
  intros Hi Hd Hc Hb Hn Hx Hne. pose proof (mx_ready_fcs_byte dlci cr ctrl data Hb) as Hf.
  rewrite mx_frame_octets by done.
  assert ((x =? 0xff - (mx_ready dlci cr ctrl data).(m_fcs)) = false) as ->.
  { apply Z.eqb_neq. intros ->. apply Hne.
    change (mx_frame dlci cr ctrl data) with
      (mx_header dlci cr ctrl (zlen data) ++ data ++ [u8 (0xff - (mx_ready dlci cr ctrl data).(m_fcs))]).
    by rewrite u8_id by (unfold is_byte in *; lia). }
  destruct Hi as (Hl & _). unfold mx_settle. cbv zeta. simpl. rewrite Hl.
  eexists. split; [reflexivity|]. split; reflexivity.
Qed.

Lemma mux_bad_fcs_dropped_witness :
  exists m, mx_input ([MX_FLAG] ++ mx_header 1 true MX_UIH 2 ++ str "at" ++ [0]) ex_mux = with_rx m ex_mux
    /\ m.(m_state) = MX_SEARCH /\ m.(m_flags_run) = 0.
Proof.
  refine (mux_bad_fcs_dropped 1 true MX_UIH (str "at") 0 ex_mux _ _ _ _ _ _ _).
  - split; [reflexivity|]. split; [reflexivity|]. vm_compute. split; discriminate.
  - lia.
  - vm_compute. split; [discriminate|reflexivity].
  - repeat constructor; vm_compute; intuition discriminate.
  - vm_compute. discriminate.
  - vm_compute. split; [discriminate|reflexivity].
  - vm_compute. discriminate.
Defined.

(** ** Findings *)

Lemma mx_data_wedged data fr addr ctrl len buf fcs bb :
  bb.(b_mux).(mux_leave) = false -> 1600 < len -> zlen buf <= 1600 ->
  exists buf', mx_input data (with_rx (mkMuxRx MX_DATA fr addr ctrl len buf fcs) bb) =
    with_rx (mkMuxRx MX_DATA fr addr ctrl len buf' fcs) bb.
Proof.
  intros Hl Hn. revert buf. induction data as [|c t IH]; intros buf Hb; [by eexists|].
  unfold mx_input in *. cbn [fold_left].
  erewrite (mx_byte_on_rx _ c (mx_data_byte c)); [|exact Hl|reflexivity]. rewrite with_rx_twice.
  simpl (muxrx _). unfold mx_data_byte. cbn [m_buf]. cbv zeta.
  destruct (Z.ltb_spec (zlen buf) MX_BUF_SIZE) as [Hlt|Hge].
  - assert (Ez : zlen (buf ++ [c]) = zlen buf + 1) by (rewrite zlen_app; reflexivity).
    unfold MX_BUF_SIZE in Hlt. simpl. rewrite (proj2 (Z.leb_gt len (zlen (buf ++ [c])))) by lia.
    apply (IH (buf ++ [c])). lia.
  - simpl. rewrite (proj2 (Z.leb_gt len (zlen buf))) by lia. apply IH. lia.
Qed.

(** C40. A frame header that announces more than 1600 bytes stops the multiplexer
    for good: the counter saturates at the buffer size and never reaches the
    length, so whatever the host sends afterwards, flags and valid frames
    included, is swallowed without any effect or answer. *)
Theorem mux_oversize_wedged dlci cr ctrl len rest bb :
  mx_idle bb -> 0 <= dlci < 62 -> is_byte ctrl -> MX_BUF_SIZE < len < 32768 ->
  exists m, mx_input ([MX_FLAG] ++ mx_header dlci cr ctrl len ++ rest) bb = with_rx m bb.
Proof.
  unfold MX_BUF_SIZE. intros (Hl & Hs & Hf) Hd Hc Hn. destruct (mx_open_flag bb Hl Hs Hf) as (m & E & Hm & _).
  unfold mx_input. cbn [app fold_left]. rewrite E, fold_left_app, mx_header_bytes by (done || lia).
  unfold mx_after_len. rewrite (proj2 (Z.eqb_neq len 0)) by lia.
  edestruct (mx_data_wedged rest) as [buf' ->]; [exact Hl|lia|done|by eexists].
Qed.

Lemma mux_oversize_wedged_witness :
  exists m, mx_input ([MX_FLAG] ++ mx_header 1 true MX_UIH 1601 ++
      ([MX_FLAG] ++ mx_frame 0 true MX_UIH [MX_CMD_CLD; 1])) ex_mux = with_rx m ex_mux.
Proof.
  refine (mux_oversize_wedged 1 true MX_UIH 1601 _ ex_mux _ _ _ _).
  - split; [reflexivity|]. split; [reflexivity|]. vm_compute. split; discriminate.
  - lia.
  - vm_compute. split; [discriminate|reflexivity].
  - vm_compute. split; reflexivity.
Defined.

(** A +CMUX received inside a running multiplexer clears the buffer its own
    frame is read from: a second command in the same frame, answered on its
    own, is lost. *)
Theorem mux_nested_cmux_loses_line :
  let bb := upd_ch 1 (fun c => c <| ch_open := true |>) ex_mux in
  let answers s := zlen (at_chan_input_mux 1 (with_rx (mkMuxRx MX_FCS 0 7 MX_UIH (zlen s) s 0) bb)).(b_env).(out_log) in
  answers (str "at+cgsn" ++ [13]) = 2 /\
  answers (str "at+cmux=0" ++ [13]) = 1 /\
  answers (str "at+cmux=0" ++ [13] ++ str "at+cgsn" ++ [13]) = 1.
Proof. vm_compute. repeat split. Qed.
