(* ===== verification/BbDataFacts.v ===== *)
(** * Facts about packet data

    IP packets are cut out of the byte stream of a data channel however the
    stream is fragmented, and a packet from the network is sent in slices that
    put together give it back. *)

From Stdlib Require Import ZArith Lia String.
From stdpp Require Import base numbers list.
From S2P Require Import Prelude CLib BbState BbTx BbAt BbRx BbTick BbTxFacts BbMuxFacts BbWindow.
Local Open Scope Z_scope.

(** ** Reassembly *)

(** A packet the modem accepts: version 4, and a total length field that is its
    length, at least the header and at most the buffer. *)
Definition ip_ok (p : bytes) : Prop :=
  20 <= zlen p <= IP_RX_SIZE /\ Z.shiftr (rd p 0) 4 = 4 /\
  Z.lor (Z.shiftl (rd p 2) 8) (rd p 3) = zlen p.

(** What is buffered is the beginning of the first of the packets to come. *)
Definition partial (q : bytes) (pkts : list bytes) : Prop :=
  match pkts with [] => q = [] | p :: _ => zlen q < zlen p end.

Lemma rd_prefix q x p y i : q ++ x = p ++ y -> 0 <= i < zlen q -> i < zlen p -> rd q i = rd p i.
Proof.
  intros E Hq Hp. unfold rd. f_equal. unfold zlen in *.
  rewrite <- (lookup_app_l q x), <- (lookup_app_l p y), E by lia. done.
Qed.

(** The step on the beginning of a stream of packets. *)
Lemma ip_next_stream q x p y :
  ip_ok p -> q ++ x = p ++ y ->
  ip_next q = if zlen q <? zlen p then IpWait else IpPacket (zlen p).
Proof.
  intros (Hl & Hv & Ht) E. unfold ip_next.
  destruct (Z.leb_spec 20 (zlen q)) as [H20|H20].
  - rewrite (rd_prefix q x p y 0 E), (rd_prefix q x p y 2 E), (rd_prefix q x p y 3 E), Hv, Ht by lia.
    rewrite (proj2 (Z.ltb_ge (zlen p) 20)), (proj2 (Z.ltb_ge IP_RX_SIZE (zlen p))) by lia.
    by rewrite Z.eqb_refl.
  - rewrite (proj2 (Z.ltb_lt (zlen q) (zlen p))) by lia. done.
Qed.

Definition ip_state (log : list bytes) (q : bytes) (bb : IosBbCore) : IosBbCore :=
  bb <| b_env; data_log := log |> <| b_data; ip_rx := q |>.

Lemma ip_state_twice l q l' q' bb : ip_state l q (ip_state l' q' bb) = ip_state l q bb.
Proof. reflexivity. Qed.

Lemma app_split_le {A} (p y q x : list A) :
  p ++ y = q ++ x -> (length p <= length q)%nat -> exists t, q = p ++ t /\ y = t ++ x.
Proof.
  revert q. induction p as [|a p IH]; intros q E Hl; [by exists q|].
  destruct q as [|b q]; [simpl in Hl; lia|]. simpl in *. injection E as -> E.
  destruct (IH q E ltac:(lia)) as (t & -> & ->). by exists t.
Qed.

Lemma ip_drain_stream fuel q x pkts log bb :
  bb.(b_data).(data_out) = true -> Forall ip_ok pkts -> q ++ x = concat pkts ->
  (length q < fuel)%nat ->
  exists whole rest q', pkts = whole ++ rest /\ q' ++ x = concat rest /\ partial q' rest /\
    ip_drain fuel (ip_state log q bb) = ip_state (log ++ whole) q' bb.
Proof.
  intros Ho. revert q pkts log. induction fuel as [|fuel IH]; intros q pkts log Hp E Hf; [lia|].
  destruct pkts as [|p pkts].
  { exists [], [], q. apply app_eq_nil in E as [-> ->].
    rewrite (app_nil_r log). split_and!; reflexivity. }
  inversion Hp as [|? ? Hok Hp']; subst. cbn [concat] in E.
  cbn [ip_drain]. cbv zeta. change (ip_rx (b_data (ip_state log q bb))) with q.
  rewrite (ip_next_stream q x p (concat pkts) Hok E).
  destruct (Z.ltb_spec (zlen q) (zlen p)) as [Hlt|Hge].
  { exists [], (p :: pkts), q. rewrite (app_nil_r log). split_and!; done. }
  destruct (app_split_le p (concat pkts) q x (eq_sym E)) as (t & -> & E').
  { unfold zlen in Hge. lia. }
  rewrite ztake_app_len, zdrop_app_len. unfold data_out_bytes.
  change (data_out (b_data (ip_state log (p ++ t) bb))) with (data_out (b_data bb)). rewrite Ho.
  destruct Hok as (Hl & _). rewrite length_app in Hf. unfold zlen in Hl.
  destruct (IH t pkts (log ++ [p]) Hp' (eq_sym E')) as (whole & rest & q' & -> & Eq & Hq' & Hd); [lia|].
  exists (p :: whole), rest, q'. split_and!; [done|done|done|].
  rewrite <- app_assoc in Hd. exact Hd.
Qed.

Lemma partial_room q x pkts :
  Forall ip_ok pkts -> q ++ x = concat pkts -> partial q pkts -> zlen q < IP_RX_SIZE.
Proof.
  intros Hp E H. destruct pkts as [|p pkts]; simpl in H.
  - subst q. unfold zlen, IP_RX_SIZE. simpl. lia.
  - inversion Hp as [|? ? (Hl & _) _]; subst. lia.
Qed.

(** A fragment of the stream. *)
Lemma data_chan_loop_stream fuel data q x pkts log bb :
  bb.(b_data).(data_out) = true -> Forall ip_ok pkts -> q ++ data ++ x = concat pkts ->
  partial q pkts -> (length data <= fuel)%nat ->
  exists whole rest q', pkts = whole ++ rest /\ q' ++ x = concat rest /\ partial q' rest /\
    data_chan_loop fuel data (ip_state log q bb) = ip_state (log ++ whole) q' bb.
Proof.
  intros Ho. revert data q pkts log. induction fuel as [|fuel IH]; intros data q pkts log Hp E Hq Hf.
  { destruct data; [|simpl in Hf; lia]. exists [], pkts, q. rewrite (app_nil_r log). split_and!; done. }
  destruct data as [|b data0] eqn:Ed.
  { exists [], pkts, q. rewrite (app_nil_r log). split_and!; done. }
  rewrite <- Ed in *. assert (Hpos : 1 <= zlen data) by (rewrite Ed, zlen_cons; pose proof (zlen_nonneg data0); lia).
  assert (Hroom : zlen q < IP_RX_SIZE) by (eapply partial_room; eassumption).
  assert (Eloop : data_chan_loop (S fuel) data (ip_state log q bb) =
    let n := Z.min (zlen data) (IP_RX_SIZE - zlen q) in
    data_chan_loop fuel (zdrop n data)
      (ip_drain (S (length (q ++ ztake n data))) (ip_state log (q ++ ztake n data) bb))).
  { rewrite Ed. reflexivity. }
  rewrite Eloop. cbv zeta. clear Eloop. set (n := Z.min (zlen data) (IP_RX_SIZE - zlen q)).
  assert (Hsplit : ztake n data ++ zdrop n data = data) by apply ztake_zdrop.
  destruct (ip_drain_stream (S (length (q ++ ztake n data))) (q ++ ztake n data) (zdrop n data ++ x)
              pkts log bb Ho Hp) as (w1 & r1 & q1 & -> & E1 & Hq1 & ->).
  { rewrite <- app_assoc. rewrite (app_assoc (ztake n data)), Hsplit. done. } { lia. }
  apply Forall_app in Hp as [_ Hp1].
  destruct (IH (zdrop n data) q1 r1 (log ++ w1) Hp1 E1 Hq1) as (w2 & r2 & q2 & -> & E2 & Hq2 & ->).
  { assert (Hz : zlen (zdrop n data) <= zlen data - 1) by (rewrite zlen_zdrop; lia).
    unfold zlen in Hz. lia. }
  exists (w1 ++ w2), r2, q2. rewrite !app_assoc. split_and!; done.
Qed.

Lemma data_chan_input_stream data q x pkts log bb :
  bb.(b_data).(data_out) = true -> Forall ip_ok pkts -> q ++ data ++ x = concat pkts ->
  partial q pkts ->
  exists whole rest q', pkts = whole ++ rest /\ q' ++ x = concat rest /\ partial q' rest /\
    data_chan_input data (ip_state log q bb) = ip_state (log ++ whole) q' bb.
Proof. intros. by apply data_chan_loop_stream. Qed.

Lemma frags_stream frags q pkts log bb :
  bb.(b_data).(data_out) = true -> Forall ip_ok pkts -> q ++ concat frags = concat pkts ->
  partial q pkts ->
  fold_left (fun bb f => data_chan_input f bb) frags (ip_state log q bb) =
  ip_state (log ++ pkts) [] bb.
Proof.
  intros Ho. revert q pkts log. induction frags as [|f frags IH]; intros q pkts log Hp E Hq.
  - cbn [concat] in E. rewrite app_nil_r in E. destruct pkts as [|p pkts]; simpl in Hq.
    + subst q. by rewrite app_nil_r.
    + exfalso. subst q. cbn [concat] in Hq. rewrite zlen_app in Hq.
      pose proof (zlen_nonneg (concat pkts)). lia.
  - cbn [fold_left concat] in *.
    destruct (data_chan_input_stream f q (concat frags) pkts log bb Ho Hp E Hq)
      as (w & r & q' & -> & E' & Hq' & ->).
    apply Forall_app in Hp as [_ Hp']. rewrite (IH q' r) by done. by rewrite app_assoc.
Qed.

Lemma ip_state_log l pp :
  pp.(b_data).(ip_rx) = [] ->
  ip_state (pp.(b_env).(data_log) ++ l) [] pp = pp <| b_env; data_log ::= fun k => k ++ l |>.
Proof.
  intros H. destruct pp as [? ? ? ? ? ? ? ? ? ? [] ? []]. simpl in H. by subst.
Qed.

(** IP packets come out of a data channel exactly as they went in: a stream of
    valid packets, cut into fragments at any places, is handed to the network
    packet by packet, in order, with nothing lost, and leaves the reassembly
    buffer empty; nothing else of the modem changes. *)
Theorem ip_reassembly (frags pkts : list bytes) (bb : IosBbCore) :
  bb.(b_data).(data_out) = true -> bb.(b_data).(ip_rx) = [] ->
  Forall ip_ok pkts -> concat frags = concat pkts ->
  fold_left (fun bb f => data_chan_input f bb) frags bb =
  bb <| b_env; data_log ::= fun l => l ++ pkts |>.
Proof.
  intros Ho Hq Hp E.
  assert (Hbb : bb = ip_state bb.(b_env).(data_log) [] bb).
  { destruct bb as [? ? ? ? ? ? ? ? ? ? [d p q] ? []]. simpl in *. by subst q. }
  rewrite Hbb at 1. rewrite (frags_stream frags [] pkts); [by apply ip_state_log|done|done|done|].
  destruct Hp as [|p l (Hz & _) _]; [done|]. simpl. change (zlen []) with 0. lia.
Qed.

(** A minimal packet of the example. *)
Definition ex_ip : bytes := [0x45; 0; 0; 20] ++ replicate 16 7.

Lemma ip_reassembly_witness :
  let frags := [take 3 ex_ip; drop 3 ex_ip ++ take 10 ex_ip; drop 10 ex_ip] in
  fold_left (fun bb f => data_chan_input f bb) frags ex_core =
  ex_core <| b_env; data_log ::= fun l => l ++ [ex_ip; ex_ip] |>.
Proof.
  intros frags. refine (ip_reassembly frags [ex_ip; ex_ip] ex_core eq_refl eq_refl _ eq_refl).
  repeat constructor; vm_compute; discriminate.
Defined.

(** ** Slices *)

Lemma ip_slices_concat fuel pkt : (length pkt <= fuel)%nat -> concat (ip_slices fuel pkt) = pkt.
Proof.
  revert pkt. induction fuel as [|fuel IH]; intros pkt Hf.
  { destruct pkt; [done|simpl in Hf; lia]. }
  destruct pkt as [|b t] eqn:E; [done|]. rewrite <- E in *.
  assert (Es : ip_slices (S fuel) pkt = ztake 1500 pkt :: ip_slices fuel (zdrop 1500 pkt))
    by (rewrite E; reflexivity).
  rewrite Es. cbn [concat]. rewrite IH; [apply ztake_zdrop|].
  unfold zdrop. rewrite length_drop. subst pkt. simpl in *. lia.
Qed.

Lemma ip_slices_size fuel pkt : Forall (fun s => s <> [] /\ zlen s <= 1500) (ip_slices fuel pkt).
Proof.
  revert pkt. induction fuel as [|fuel IH]; intros pkt; [by destruct pkt|].
  destruct pkt as [|b t]; [constructor|]. constructor; [|apply IH].
  split; [done|]. rewrite zlen_ztake. lia.
Qed.

Lemma ip_slices_ok fuel pkt :
  is_bytes (concat (ip_slices fuel pkt)) ->
  Forall (fun s => is_bytes s /\ zlen s <= 1500) (ip_slices fuel pkt).
Proof.
  pose proof (ip_slices_size fuel pkt) as Hz. revert Hz. generalize (ip_slices fuel pkt). intros ss Hz Hb.
  induction Hz as [|s ss [_ Hz] _ IH]; constructor; cbn [concat] in Hb; apply is_bytes_app in Hb as [H1 H2].
  - done.
  - by apply IH.
Qed.

(** ** From the network to the guest's side of the multiplexer *)

(** A channel in data mode. *)
Definition data_chan (i : Z) (bb : IosBbCore) : Prop :=
  0 < i < IOS_BB_MAX_CH /\ is_open i bb = true /\ (get_ch i bb).(ch_data_cid) <> 0.

Lemma mx_rx_frame_data i bb :
  data_chan i bb ->
  mx_rx_frame (mx_addr i false) MX_UIH bb = data_chan_input bb.(b_mux).(muxrx).(m_buf) bb.
Proof.
  intros (Hi & Ho & Hc). unfold IOS_BB_MAX_CH in Hi.
  destruct (mx_addr_ok i false ltac:(lia)) as (_ & _ & Ha).
  unfold mx_rx_frame. cbv zeta. rewrite Ha. change (no_pf MX_UIH) with MX_UIH.
  change (MX_UIH =? MX_SABM) with false. change (MX_UIH =? MX_DISC) with false.
  change ((MX_UIH =? MX_DM) || (MX_UIH =? MX_UA)) with false.
  change ((MX_UIH =? MX_UIH) || (MX_UIH =? MX_UI)) with true. cbv iota.
  rewrite (proj2 (Z.eqb_neq i 0)), (proj2 (Z.ltb_lt i IOS_BB_MAX_CH)) by (unfold IOS_BB_MAX_CH; lia).
  rewrite Ho. cbn [andb]. unfold at_chan_input_mux. cbv zeta.
  rewrite (proj2 (Z.eqb_neq _ _) Hc). done.
Qed.

(** A slice, framed as the sender frames it. *)
Definition slice_wire (i : Z) (s : bytes) : bytes := [MX_FLAG] ++ mx_frame i false MX_UIH s ++ [MX_FLAG].

Lemma slice_received i s m log q x pkts bb :
  data_chan i bb -> bb.(b_mux).(mux_leave) = false -> bb.(b_data).(data_out) = true ->
  m.(m_state) = MX_SEARCH -> 0 <= m.(m_flags_run) <= 1 ->
  is_bytes s -> zlen s <= 1500 ->
  Forall ip_ok pkts -> q ++ s ++ x = concat pkts -> partial q pkts ->
  exists m' whole rest q', pkts = whole ++ rest /\ q' ++ x = concat rest /\ partial q' rest /\
    m'.(m_state) = MX_SEARCH /\ 0 <= m'.(m_flags_run) <= 1 /\
    mx_input (slice_wire i s) (with_rx m (ip_state log q bb)) =
    with_rx m' (ip_state (log ++ whole) q' bb).
Proof.
  intros Hc Hl Ho Hs Hf Hb Hz Hp E Hq. pose proof Hc as (Hi & _). unfold IOS_BB_MAX_CH in Hi.
  set (X := with_rx m (ip_state log q bb)).
  destruct (mx_frame_in i false MX_UIH s X) as [Er _];
    [split_and!; [exact Hl|exact Hs|apply Hf|apply Hf]|lia|unfold is_byte, MX_UIH; lia|done|
     unfold MX_BUF_SIZE; lia|].
  unfold slice_wire. rewrite app_assoc. unfold mx_input in *. rewrite fold_left_app, Er.
  assert (Hcx : data_chan i (with_rx (mx_ready i false MX_UIH s) X)) by exact Hc.
  rewrite (mx_rx_frame_data i _ Hcx).
  change (with_rx (mx_ready i false MX_UIH s) X) with
    (ip_state log q (with_rx (mx_ready i false MX_UIH s) bb)).
  change (m_buf _) with s.
  destruct (data_chan_input_stream s q x pkts log (with_rx (mx_ready i false MX_UIH s) bb) Ho Hp E Hq)
    as (w & r & q' & Ep & Ex & Hq' & ->).
  unfold mx_settle. cbv zeta.
  change (mux_leave _) with (mux_leave (b_mux bb)). rewrite Hl. cbn [fold_left].
  set (Y := on_rx _ _).
  destruct (mx_open_flag Y) as (m' & Ey & Hm' & Hf'); [exact Hl|reflexivity|simpl; lia|].
  rewrite Ey. exists m', w, r, q'. split_and!; try done; rewrite Hf'; vm_compute; discriminate.
Qed.

Lemma slices_received i ss m log q pkts bb :
  data_chan i bb -> bb.(b_mux).(mux_leave) = false -> bb.(b_data).(data_out) = true ->
  m.(m_state) = MX_SEARCH -> 0 <= m.(m_flags_run) <= 1 ->
  Forall (fun s => is_bytes s /\ zlen s <= 1500) ss ->
  Forall ip_ok pkts -> q ++ concat ss = concat pkts -> partial q pkts ->
  exists m', fold_left (fun bb w => mx_input w bb) (slice_wire i <$> ss) (with_rx m (ip_state log q bb)) =
    with_rx m' (ip_state (log ++ pkts) [] bb).
Proof.
  intros Hc Hl Ho. revert m log q pkts. induction ss as [|s ss IH]; intros m log q pkts Hs Hf Hb Hp E Hq.
  - cbn [concat] in E. rewrite app_nil_r in E. exists m. destruct pkts as [|p pkts]; simpl in Hq.
    + subst q. by rewrite app_nil_r.
    + exfalso. subst q. cbn [concat] in Hq. rewrite zlen_app in Hq.
      pose proof (zlen_nonneg (concat pkts)). lia.
  - inversion Hb as [|? ? (Hb1 & Hz) Hb2]; subst. cbn [concat] in E. rewrite fmap_cons. cbn [fold_left].
    destruct (slice_received i s m log q (concat ss) pkts bb)
      as (m' & w & r & q' & -> & E' & Hq' & Hs' & Hf' & ->); try done.
    apply Forall_app in Hp as [_ Hp'].
    destruct (IH m' (log ++ w) q' r Hs' Hf' Hb2 Hp' E' Hq') as [m2 ->].
    exists m2. by rewrite app_assoc.
Qed.

(** The slices on the line, when the multiplexer runs without H5. *)
Lemma send_slices_out i ss bb :
  bb.(b_at).(off) = false -> bb.(b_link).(h5) = false ->
  (fold_left (fun bb s => mx_send i false MX_UIH s bb) ss bb).(b_env).(out_log) =
  bb.(b_env).(out_log) ++ (slice_wire i <$> ss).
Proof.
  revert bb. induction ss as [|s ss IH]; intros bb Ho Hh; [by rewrite app_nil_r|].
  cbn [fold_left]. rewrite fmap_cons.
  assert (E : mx_send i false MX_UIH s bb = out_bytes (slice_wire i s) bb).
  { unfold mx_send, mx_emit, h5_stream. rewrite Ho, Hh. reflexivity. }
  rewrite E, IH by done. simpl. by rewrite <- app_assoc.
Qed.

Lemma ip_state_id pp :
  pp.(b_data).(ip_rx) = [] -> pp = with_rx pp.(b_mux).(muxrx) (ip_state pp.(b_env).(data_log) [] pp).
Proof.
  intros H. destruct pp as [? ? ? [] ? ? ? ? ? ? [] ? []]. simpl in H. by subst.
Qed.

(** C6. An IP packet from the network crosses the multiplexer whole: the slices a
    modem in raw multiplexer mode sends for it on its data channel, received
    frame by frame by a core whose channel of that number is in data mode, are
    put together again into exactly that packet. *)
Theorem data_path (pkt : bytes) (bb pp : IosBbCore) :
  bb.(b_at).(off) = false -> bb.(b_link).(h5) = false -> ip_ok pkt -> is_bytes pkt ->
  fst (ios_bb_data_input pkt bb) = true ->
  mx_idle pp -> pp.(b_data).(data_out) = true -> pp.(b_data).(ip_rx) = [] ->
  (forall i, data_chan i bb -> data_chan i pp) ->
  exists wires m,
    (snd (ios_bb_data_input pkt bb)).(b_env).(out_log) = bb.(b_env).(out_log) ++ wires /\
    fold_left (fun pp w => mx_input w pp) wires pp =
    with_rx m (pp <| b_env; data_log ::= fun l => l ++ [pkt] |>).
Proof.
  intros Ho Hh Hok Hb Ht (Hl & Hs & Hf) Hd Hq Hch. unfold ios_bb_data_input in *.
  destruct (first_from 15 1 _) as [i|] eqn:E; [|done]. clear Ht. cbn [fst snd].
  apply first_from_spec in E as (Hi & Ht & _). cbv beta zeta in Ht. apply andb_prop in Ht as [H1 H2].
  apply negb_true_iff, Z.eqb_neq in H2.
  assert (Hc : data_chan (Z.of_nat i) pp).
  { apply Hch. split_and!; [lia|unfold IOS_BB_MAX_CH; lia| |exact H2].
    unfold is_open. exact H1. }
  set (ss := ip_slices (length pkt) pkt).
  assert (Ess : concat ss = pkt) by (apply ip_slices_concat; lia).
  assert (Hss : Forall (fun s => is_bytes s /\ zlen s <= 1500) ss).
  { apply ip_slices_ok. fold ss. by rewrite Ess. }
  destruct (slices_received (Z.of_nat i) ss pp.(b_mux).(muxrx) pp.(b_env).(data_log) [] [pkt] pp)
    as [m Em]; try done.
  { by constructor. } { simpl. by rewrite app_nil_r. }
  { simpl. destruct Hok as (Hz & _). change (zlen []) with 0. lia. }
  exists (slice_wire (Z.of_nat i) <$> ss), m. split; [by apply send_slices_out|].
  rewrite (ip_state_id pp Hq) at 1. rewrite Em. by rewrite ip_state_log.
Qed.

(** The example modem with channel 2 in data mode. *)
Definition ex_data : IosBbCore :=
  upd_ch 2 (fun c => c <| ch_open := true |> <| ch_data_cid := 1 |>) ex_mux.

Lemma data_path_witness :
  exists wires m,
    (snd (ios_bb_data_input ex_ip ex_data)).(b_env).(out_log) = wires /\
    fold_left (fun pp w => mx_input w pp) wires ex_data =
    with_rx m (ex_data <| b_env; data_log ::= fun l => l ++ [ex_ip] |>).
Proof.
  refine (data_path ex_ip ex_data ex_data eq_refl eq_refl _ _ eq_refl _ eq_refl eq_refl _).
  - repeat split; vm_compute; discriminate.
  - repeat constructor; vm_compute; intuition discriminate.
  - split; [reflexivity|]. split; [reflexivity|]. vm_compute. split; discriminate.
  - intros i H. exact H.
Defined.

(** ** Long slices over H5 *)

(** Over H5 a slice of more than 1017 bytes is cut: the frame the multiplexer
    built for it is longer than the 1024 bytes the H5 queue keeps of it, so its
    end, check sequence and closing flag included, is never sent. *)
Theorem h5_slice_cut i s bb :
  bb.(b_at).(off) = false -> bb.(b_link).(h5) = true -> bb.(b_link).(h5_active) = false ->
  fits (slice_wire i s) bb.(b_link) = true -> 1017 < zlen s ->
  (mx_send i false MX_UIH s bb).(b_link).(h5_txq) =
    bb.(b_link).(h5_txq) ++ txq_record (ztake 1024 (slice_wire i s)) /\
  zlen (ztake 1024 (slice_wire i s)) < zlen (slice_wire i s).
Proof.
  intros Ho Hh Ha Hf Hs.
  assert (Hl : zlen (slice_wire i s) = zlen s + 7).
  { unfold slice_wire, mx_frame, mx_header. cbv zeta.
    rewrite (proj2 (Z.ltb_ge (zlen s) 128)) by lia. rewrite !zlen_app, !zlen_cons, !zlen_nil. lia. }
  split; [|rewrite zlen_ztake; lia].
  unfold mx_send, mx_emit, h5_stream. rewrite Ho, Hh, Ha. cbn [negb].
  change ([MX_FLAG] ++ mx_frame i false MX_UIH s ++ [MX_FLAG]) with (slice_wire i s).
  rewrite h5_queue_spec, Hf. reflexivity.
Qed.

Lemma h5_slice_cut_witness :
  let bb := ex_core <| b_link; h5 := true |> in
  let s := replicate 1400 7 in
  (mx_send 2 false MX_UIH s bb).(b_link).(h5_txq) = [] ++ txq_record (ztake 1024 (slice_wire 2 s)) /\
  zlen (ztake 1024 (slice_wire 2 s)) < zlen (slice_wire 2 s).
Proof.
  intros bb s. refine (h5_slice_cut 2 s bb eq_refl eq_refl eq_refl _ _); vm_compute; reflexivity.
Defined.
