(* ===== verification/BbInv.v ===== *)
(** * The well-formedness invariant

    Bounds of every buffer, counter and stored channel number of the core, and
    the order [evolves] between states: it preserves them, keeps the card's
    secrets and a blocked card, and only appends to what was sent. *)

From Stdlib Require Import ZArith Lia String.
From stdpp Require Import base numbers list.
From S2P Require Import Prelude CLib BbState BbTx BbPdu BbSim BbCalls BbReg BbSms BbSimCmd BbGps BbAt BbRx BbTick.
From S2P Require Import BbTxFacts BbWindow.
Local Open Scope Z_scope.

(** ** Well-formed components *)

(** A channel number. *)
Definition chan_ix (ch : Z) : Prop := 0 <= ch < IOS_BB_MAX_CH.

Record sim_wf (s : Sim) : Prop := mkSimWf {
  sw_pin_left : 0 <= s.(pin_left) <= IOS_BB_PIN_TRIES;
  sw_puk_left : 0 <= s.(puk_left) <= IOS_BB_PUK_TRIES;
  sw_pin : sim_code_ok s.(pin) 4 = true;
  sw_puk : sim_code_ok s.(puk) 8 = true;
  sw_loci : zlen s.(loci_plmn) <= 6
}.

Record link_wf (l : Link) : Prop := mkLinkWf {
  lw_rx : zlen l.(h5_rx) = H5_RX_SIZE;
  lw_bytes : is_bytes l.(h5_rx);
  lw_rxlen : 0 <= l.(h5_rxlen) <= H5_RX_SIZE;
  lw_seq : 0 <= l.(h5_tx_seq) < 8;
  lw_next : 0 <= l.(h5_rx_next) < 8;
  lw_window : (length l.(h5_unacked) <= 7)%nat;
  lw_unacked : Forall (fun p => small p.(p_data)) l.(h5_unacked);
  lw_txq : exists ds, l.(h5_txq) = records ds /\ Forall small ds;
  lw_txq_size : zlen l.(h5_txq) <= H5_TXQ_SIZE
}.

Definition mux_wf (m : Mux) : Prop :=
  zlen m.(muxrx).(m_buf) <= MX_BUF_SIZE /\ 0 <= m.(muxrx).(m_addr).

(** The line buffer keeps its terminator. *)
Record chan_wf (c : IosBbAtChan) : Prop := mkChanWf {
  cw_size : zlen c.(ch_line) = 600;
  cw_len : 0 <= c.(ch_len) <= 599;
  cw_nul : rd c.(ch_line) 599 = 0
}.

Definition chans_wf (l : list IosBbAtChan) : Prop :=
  zlen l = IOS_BB_MAX_CH /\ Forall chan_wf l.

Record at_wf (a : At) : Prop := mkAtWf {
  aw_xsigstr : chan_ix a.(xsigstr_ch);
  aw_xciev : chan_ix a.(xciev_ch);
  aw_xsim : chan_ix a.(xsim_ch);
  aw_call : chan_ix a.(call_ch);
  aw_sms : chan_ix a.(sms_ch);
  aw_ctzr : chan_ix a.(ctzr_ch)
}.

Definition reg_wf (r : Reg) : Prop :=
  chan_ix r.(creg_ch) /\ (r.(cfun) = 0 \/ r.(cfun) = 1 \/ r.(cfun) = 4) /\ 0 <= r.(reg_step) <= 2.

Definition drv_wf (d : Drv) : Prop :=
  chan_ix d.(temp_ch) /\ (d.(temp_due_ms) <> 0 -> 0 < d.(temp_period_ms)).

(** Calls in progress have identifiers of their own, all issued already. *)
Definition call_ids_ok (l : list IosBbCall) (next : Z) : Prop :=
  (forall i c, l !! i = Some c -> c.(c_used) = true -> c.(c_id) < next) /\
  (forall i j c d, l !! i = Some c -> l !! j = Some d -> c.(c_used) = true -> d.(c_used) = true ->
     c.(c_id) = d.(c_id) -> i = j).

Record calls_wf (c : Calls) : Prop := mkCallsWf {
  kw_size : length c.(calls) = IOS_BB_MAX_CALLS;
  kw_each : Forall (fun c => zlen c.(c_number) <= 31 /\ -2 <= c.(c_next_stat)) c.(calls);
  kw_last : zlen c.(last_dialed) <= 31;
  kw_ids : call_ids_ok c.(calls) c.(next_call_id)
}.

Record smss_wf (s : Sms) : Prop := mkSmsWf {
  mw_store : zlen s.(store) = IOS_BB_SMS_STORE;
  mw_each : Forall (fun m => zlen m.(s_num) <= 31 /\ zlen m.(s_pdu) <= 399) s.(store);
  mw_num : zlen s.(last_mo_num) <= 31;
  mw_text : zlen s.(last_mo_text) <= 511
}.

Definition data_wf (d : Data) : Prop := zlen d.(ip_rx) < IP_RX_SIZE.

Definition gps_wf (g : IosBbGps) : Prop :=
  -1 <= g.(g_ch) < IOS_BB_MAX_CH /\ (0 <= g.(g_ch) -> 0 < g.(g_interval_ms)).

Record bb_wf (bb : IosBbCore) : Prop := mkWf {
  w_sim : sim_wf bb.(b_sim);
  w_link : link_wf bb.(b_link);
  w_mux : mux_wf bb.(b_mux);
  w_ch : chans_wf bb.(b_ch);
  w_at : at_wf bb.(b_at);
  w_reg : reg_wf bb.(b_reg);
  w_drv : drv_wf bb.(b_drv);
  w_call : calls_wf bb.(b_call);
  w_sms : smss_wf bb.(b_sms);
  w_data : data_wf bb.(b_data);
  w_gps : gps_wf bb.(b_gps);
  w_plmn : zlen bb.(b_ctl).(plmn) <= 6
}.

(** ** The order *)

(** The card keeps its PUK and its file, and a blocked card stays as it is. *)
Definition sim_evolves (s s' : Sim) : Prop :=
  s'.(puk) = s.(puk) /\ s'.(sim_file) = s.(sim_file) /\
  (s.(pin_left) = 0 -> s.(puk_left) = 0 ->
   s'.(pin_left) = 0 /\ s'.(puk_left) = 0 /\ s'.(pin_on) = s.(pin_on) /\ s'.(pin) = s.(pin) /\
   s'.(pin_ok) = s.(pin_ok)).

Record evolved (a b : IosBbCore) : Prop := mkEv {
  ev_wf : bb_wf b;
  ev_sim : sim_evolves a.(b_sim) b.(b_sim);
  ev_ctl : b.(b_ctl) = a.(b_ctl) <| plmn := b.(b_ctl).(plmn) |>;
  ev_out : a.(b_env).(out_log) `prefix_of` b.(b_env).(out_log);
  ev_data : a.(b_env).(data_log) `prefix_of` b.(b_env).(data_log)
}.

Definition evolves (a b : IosBbCore) : Prop := bb_wf a -> evolved a b.

Lemma sim_evolves_refl s : sim_evolves s s.
Proof. unfold sim_evolves. auto 10. Qed.

Lemma sim_evolves_trans a b c : sim_evolves a b -> sim_evolves b c -> sim_evolves a c.
Proof.
  intros (H1 & H2 & H3) (H4 & H5 & H6). split_and!; [congruence|congruence|].
  intros E1 E2. destruct (H3 E1 E2) as (? & ? & ? & ? & ?).
  destruct (H6) as (? & ? & ? & ? & ?); [done|done|]. split_and!; congruence.
Qed.

#[export] Instance evolves_preorder : PreOrder evolves.
Proof.
  split.
  - intros bb W. constructor; [exact W|apply sim_evolves_refl|by destruct bb as [[]]|done|done].
  - intros a b c Hab Hbc W. destruct (Hab W) as [W1 S1 C1 O1 D1].
    destruct (Hbc W1) as [W2 S2 C2 O2 D2]. constructor.
    + done.
    + eapply sim_evolves_trans; eassumption.
    + rewrite C2, C1. destruct (b_ctl a), (b_ctl b), (b_ctl c). reflexivity.
    + by etransitivity.
    + by etransitivity.
Qed.

(** The facts of the invariant can be used to show that it is kept. *)
Lemma ev_intro a b : (bb_wf a -> evolves a b) -> evolves a b.
Proof. intros H W. exact (H W W). Qed.

Lemma ev_if (c : bool) a x y :
  (c = true -> evolves a x) -> (c = false -> evolves a y) -> evolves a (if c then x else y).
Proof. destruct c; auto. Qed.

(** ** Updates of one component *)

Ltac ev_upd :=
  intros W; destruct W; constructor;
  [constructor; simpl in *; auto|apply sim_evolves_refl|reflexivity|reflexivity|reflexivity].

Lemma ev_upd_reg f bb :
  (reg_wf bb.(b_reg) -> reg_wf (f bb.(b_reg))) -> evolves bb (upd b_reg f bb).
Proof. intros H. destruct bb as [[]]. ev_upd. Qed.

Lemma ev_upd_at f bb : (at_wf bb.(b_at) -> at_wf (f bb.(b_at))) -> evolves bb (upd b_at f bb).
Proof. intros H. destruct bb as [[]]. ev_upd. Qed.

Lemma ev_upd_drv f bb : (drv_wf bb.(b_drv) -> drv_wf (f bb.(b_drv))) -> evolves bb (upd b_drv f bb).
Proof. intros H. destruct bb as [[]]. ev_upd. Qed.

Lemma ev_upd_call f bb :
  (calls_wf bb.(b_call) -> calls_wf (f bb.(b_call))) -> evolves bb (upd b_call f bb).
Proof. intros H. destruct bb as [[]]. ev_upd. Qed.

Lemma ev_upd_sms f bb : (smss_wf bb.(b_sms) -> smss_wf (f bb.(b_sms))) -> evolves bb (upd b_sms f bb).
Proof. intros H. destruct bb as [[]]. ev_upd. Qed.

Lemma ev_upd_data f bb : (data_wf bb.(b_data) -> data_wf (f bb.(b_data))) -> evolves bb (upd b_data f bb).
Proof. intros H. destruct bb as [[]]. ev_upd. Qed.

Lemma ev_upd_gps f bb : (gps_wf bb.(b_gps) -> gps_wf (f bb.(b_gps))) -> evolves bb (upd b_gps f bb).
Proof. intros H. destruct bb as [[]]. ev_upd. Qed.

Lemma ev_upd_mux f bb : (mux_wf bb.(b_mux) -> mux_wf (f bb.(b_mux))) -> evolves bb (upd b_mux f bb).
Proof. intros H. destruct bb as [[]]. ev_upd. Qed.

Lemma ev_upd_link f bb : (link_wf bb.(b_link) -> link_wf (f bb.(b_link))) -> evolves bb (upd b_link f bb).
Proof. intros H. destruct bb as [[]]. ev_upd. Qed.

Lemma ev_upd_b_ch f bb : (chans_wf bb.(b_ch) -> chans_wf (f bb.(b_ch))) -> evolves bb (upd b_ch f bb).
Proof. intros H. destruct bb as [[]]. ev_upd. Qed.

Lemma ev_upd_sim f bb :
  (sim_wf bb.(b_sim) -> sim_wf (f bb.(b_sim)) /\ sim_evolves bb.(b_sim) (f bb.(b_sim))) ->
  evolves bb (upd b_sim f bb).
Proof.
  intros H W. destruct bb as [[]]. destruct (H (w_sim _ W)) as [H1 H2].
  destruct W. constructor; [by constructor|exact H2|done|done|done].
Qed.

(** Several updates of the card at once. *)
Lemma ev_set_sim a b :
  b = a <| b_sim := b.(b_sim) |> ->
  (sim_wf a.(b_sim) -> sim_wf b.(b_sim) /\ sim_evolves a.(b_sim) b.(b_sim)) -> evolves a b.
Proof. intros -> H. by apply (ev_upd_sim (fun _ => b_sim b)). Qed.

Lemma ev_upd_env f bb :
  bb.(b_env).(out_log) `prefix_of` (f bb.(b_env)).(out_log) ->
  bb.(b_env).(data_log) `prefix_of` (f bb.(b_env)).(data_log) -> evolves bb (upd b_env f bb).
Proof.
  intros H1 H2 W. destruct bb as [[]]. destruct W.
  constructor; [by constructor|apply sim_evolves_refl|done|exact H1|exact H2].
Qed.

Lemma ev_upd_plmn v bb : zlen v <= 6 -> evolves bb (bb <| b_ctl; plmn := v |>).
Proof.
  intros H W. destruct bb as [[]]. destruct W. constructor; [by constructor|apply sim_evolves_refl|done|done|done].
Qed.

(** Transmissions keep everything but the link. *)
Lemma ev_tx a b :
  tx_only a b -> (link_wf a.(b_link) -> link_wf b.(b_link)) ->
  a.(b_env).(out_log) `prefix_of` b.(b_env).(out_log) -> evolves a b.
Proof.
  intros T H O W. pose proof (tx_data_log _ _ T) as D. destruct T, W. constructor.
  - constructor; try congruence. auto.
  - rewrite tx_sim. apply sim_evolves_refl.
  - rewrite tx_ctl. by destruct (b_ctl a).
  - done.
  - by rewrite D.
Qed.

(** ** The link *)

Lemma ev_out_bytes p bb : evolves bb (out_bytes p bb).
Proof. apply ev_upd_env; simpl; [by eexists|done]. Qed.

(** Link fields with no bound of their own. *)
Ltac ev_link := apply ev_upd_link; intros []; constructor; simpl in *; try assumption; try lia.

Lemma ev_h5_send_pkt t r s d bb : evolves bb (h5_send_pkt t r s d bb).
Proof.
  unfold h5_send_pkt. destruct (_ <? _); [reflexivity|]. cbv zeta.
  etransitivity; [apply ev_out_bytes|]. etransitivity; ev_link.
Qed.

Lemma ev_h5_send_ack bb : evolves bb (h5_send_ack bb).
Proof.
  unfold h5_send_ack. cbv zeta. etransitivity; [|ev_link].
  destruct (h5_active _); [apply ev_h5_send_pkt|reflexivity].
Qed.

Lemma ev_h5_queue d bb : evolves bb (h5_queue d bb).
Proof.
  rewrite h5_queue_spec. destruct (fits _ _) eqn:F; [|reflexivity].
  unfold fits in F. apply Z.leb_le in F. apply ev_upd_link. intros [].
  destruct lw_txq0 as (ds & E & Hs). constructor; try assumption; simpl.
  - exists (ds ++ [cut d]). rewrite records_app, E. split.
    + f_equal. unfold records. simpl. by rewrite app_nil_r.
    + apply Forall_app. split; [done|]. repeat constructor. apply cut_small.
  - rewrite zlen_app, zlen_record. lia.
Qed.

Lemma ev_h5_retransmit bb : evolves bb (h5_retransmit bb).
Proof.
  unfold h5_retransmit. generalize (h5_unacked (b_link bb)). intros l. revert bb.
  induction l as [|p l IH]; intros bb; simpl; [reflexivity|].
  etransitivity; [|apply IH]. apply ev_h5_send_pkt.
Qed.

Lemma seq_range s : 0 <= Z.land s 7 < 8.
Proof. change 7 with (Z.ones 3). rewrite Z.land_ones by lia. apply Z.mod_pos_bound. lia. Qed.

(** One turn of the pump's loop. *)
Lemma ev_pump_turn d ds bb :
  bb.(b_link).(h5_txq) = records (d :: ds) -> Forall small (d :: ds) ->
  (length bb.(b_link).(h5_unacked) < 7)%nat ->
  evolves bb ((h5_send_one_unacked d bb) <| b_link; h5_txq := records ds |>).
Proof.
  intros Hq Hs Hw. inversion Hs as [|? ? Hd Hs']; subst.
  pose proof (zlen_nonneg (txq_record d)).
  unfold h5_send_one_unacked. cbv zeta.
  set (bb1 := bb <| b_link; h5_unacked ::= _ |>).
  assert (H1 : evolves bb bb1).
  { ev_link; [rewrite length_app; simpl; lia|]. apply Forall_app. by repeat constructor. }
  etransitivity; [exact H1|]. etransitivity; [apply ev_h5_send_pkt|].
  etransitivity; apply ev_upd_link.
  - intros []. constructor; try assumption. apply seq_range.
  - intros []. constructor; try assumption; [by exists ds|]. simpl in *.
    destruct (h5_send_pkt_small H5_TYPE_DATA true (h5_tx_seq (b_link bb)) d bb1 Hd)
      as (_ & _ & _ & E & _). cbv zeta in E. rewrite E in lw_txq_size0.
    change (h5_txq (b_link bb1)) with (h5_txq (b_link bb)) in lw_txq_size0.
    rewrite Hq, records_cons, zlen_app in lw_txq_size0. lia.
Qed.

Lemma ev_h5_pump_loop n bb : evolves bb (h5_pump_loop n bb).
Proof.
  revert bb. induction n as [|n IH]; intros bb; cbn [h5_pump_loop]; [reflexivity|]. cbv zeta.
  destruct (_ <? IOS_BB_H5_WINDOW) eqn:Hw; [|reflexivity]. apply Z.ltb_lt in Hw.
  destruct (2 <=? _) eqn:H2; [|reflexivity]. apply Z.leb_le in H2. cbn [andb].
  destruct (_ <? _) eqn:H3; [reflexivity|].
  etransitivity; [|apply IH]. apply ev_intro. intros W.
  destruct (lw_txq _ (w_link _ W)) as (ds & Hq & Hs).
  destruct ds as [|d ds]; [rewrite Hq in H2; unfold records, zlen in H2; simpl in H2; lia|].
  inversion Hs; subst. unfold IOS_BB_H5_WINDOW, zlen in Hw.
  assert (Hlen : Z.lor (rd (h5_txq (b_link bb)) 0) (Z.shiftl (rd (h5_txq (b_link bb)) 1) 8) = zlen d)
    by (rewrite Hq; by apply record_len).
  rewrite Hlen, Hq, records_cons. destruct (record_body d (records ds)) as [-> ->].
  apply ev_pump_turn; [done|done|lia].
Qed.

Lemma ev_h5_pump bb : evolves bb (h5_pump bb).
Proof. unfold h5_pump. destruct (h5_active _); [apply ev_h5_pump_loop|reflexivity]. Qed.

Lemma ev_h5_stream d bb : evolves bb (h5_stream d bb).
Proof.
  unfold h5_stream. split_ifs; try reflexivity.
  - apply ev_out_bytes.
  - apply ev_h5_queue.
  - etransitivity; [apply ev_h5_queue|apply ev_h5_pump].
Qed.

Lemma ev_mx_send d cr c s bb : evolves bb (mx_send d cr c s bb).
Proof. apply ev_h5_stream. Qed.

Lemma ev_mx_send_frame_canned d c bb : evolves bb (mx_send_frame_canned d c bb).
Proof. apply ev_h5_stream. Qed.

Lemma ev_mx_msc d v bb : evolves bb (mx_msc d v bb).
Proof. apply ev_h5_stream. Qed.

Lemma ev_chan_write ch s bb : evolves bb (chan_write ch s bb).
Proof. unfold chan_write. destruct (_ && _); [apply ev_mx_send|apply ev_h5_stream]. Qed.

Lemma ev_at_line ch s bb : evolves bb (at_line ch s bb).
Proof. apply ev_chan_write. Qed.

Lemma ev_at_ok ch bb : evolves bb (at_ok ch bb).
Proof. apply ev_chan_write. Qed.

Lemma ev_at_error ch bb : evolves bb (at_error ch bb).
Proof. apply ev_chan_write. Qed.

Lemma ev_chan_printf ch s bb : evolves bb (chan_printf ch s bb).
Proof. apply ev_chan_write. Qed.

Lemma ev_cme_error ch e bb : evolves bb (cme_error ch e bb).
Proof. apply ev_chan_write. Qed.

(** ** Automation *)

Create HintDb ev discriminated.
#[export] Hint Constants Opaque : ev.
#[export] Hint Resolve ev_out_bytes ev_h5_send_pkt ev_h5_send_ack ev_h5_queue ev_h5_retransmit
  ev_h5_pump ev_h5_stream ev_mx_send ev_mx_send_frame_canned ev_mx_msc ev_chan_write ev_at_line
  ev_at_ok ev_at_error ev_chan_printf ev_cme_error : ev.

(** The side condition of a component update. *)
Ltac ev_side p :=
  match goal with |- _ (p ?x) -> _ => generalize (p x) end;
  let r := fresh in let H := fresh in
  intros r H;
  first [exact H
        |unfold reg_wf, drv_wf, data_wf, gps_wf, mux_wf in *;
         repeat match goal with
         | H : _ /\ _ |- _ => destruct H
         | H : at_wf _ |- _ => destruct H
         | H : smss_wf _ |- _ => destruct H
         | H : calls_wf _ |- _ => destruct H
         | H : link_wf _ |- _ => destruct H
         end;
         first [solve [constructor; simpl in *; first [assumption|lia]]
               |unfold chan_ix in *; repeat split; simpl in *; first [assumption|lia|auto]]].

(** The outermost function or update. *)
Ltac ev_last :=
  lazymatch goal with
  | |- evolves _ (upd b_reg _ _) => apply ev_upd_reg; try (solve [ev_side b_reg])
  | |- evolves _ (upd b_at _ _) => apply ev_upd_at; try (solve [ev_side b_at])
  | |- evolves _ (upd b_drv _ _) => apply ev_upd_drv; try (solve [ev_side b_drv])
  | |- evolves _ (upd b_call _ _) => apply ev_upd_call; try (solve [ev_side b_call])
  | |- evolves _ (upd b_sms _ _) => apply ev_upd_sms; try (solve [ev_side b_sms])
  | |- evolves _ (upd b_data _ _) => apply ev_upd_data; try (solve [ev_side b_data])
  | |- evolves _ (upd b_gps _ _) => apply ev_upd_gps; try (solve [ev_side b_gps])
  | |- evolves _ (upd b_mux _ _) => apply ev_upd_mux; try (solve [ev_side b_mux])
  | |- evolves _ (upd b_link _ _) => apply ev_upd_link; try (solve [ev_side b_link])
  | |- evolves _ (upd b_sim _ _) => apply ev_upd_sim
  | |- evolves _ (upd b_env _ _) => apply ev_upd_env; try (solve [done])
  | |- evolves _ _ => solve [eauto 2 with ev]
  end.

(** Case analysis and peeling of a state transformer. *)
Ltac ev_step :=
  lazymatch goal with
  | |- evolves ?x ?x => reflexivity
  | |- evolves _ (if ?c then _ else _) => first [apply ev_if; intros ?|destruct c eqn:?]
  | |- evolves _ (match ?c with _ => _ end) => destruct c eqn:?
  | |- evolves _ _ => etransitivity; [|ev_last]
  end.

Ltac ev := cbv zeta; repeat ev_step.
