(* ===== verification/BbInvCmd.v ===== *)
(** * The invariant through the AT commands

    Every command handler and every unsolicited report keeps the bounds. *)

From Stdlib Require Import ZArith Lia String.
From stdpp Require Import base numbers list.
From S2P Require Import Prelude CLib BbState BbTx BbPdu BbSim BbCalls BbReg BbSms BbSimCmd BbGps BbAt BbRx BbTick.
From S2P Require Import BbTxFacts BbPduFacts BbWindow BbInv.
Local Open Scope Z_scope.

(** ** Channels and loops *)

Lemma ev_upd_ch ch f bb : (forall c, chan_wf c -> chan_wf (f c)) -> evolves bb (upd_ch ch f bb).
Proof.
  intros H. apply ev_upd_b_ch. intros [H1 H2]. unfold chans_wf, zlen in *.
  rewrite length_alter. split; [done|]. apply Forall_alter; [done|]. auto.
Qed.

Lemma ev_for_each n body bb :
  (forall i s, (i < n)%nat -> evolves s (body i s)) -> evolves bb (for_each n body bb).
Proof.
  intros H. apply for_each_ind; [reflexivity|]. intros i s Hi Hs.
  etransitivity; [exact Hs|apply H, Hi].
Qed.

Lemma ev_fold {A} (f : IosBbCore -> A -> IosBbCore) l bb :
  (forall s x, x ∈ l -> evolves s (f s x)) -> evolves bb (fold_left f l bb).
Proof.
  revert bb. induction l as [|x l IH]; intros bb H; simpl; [reflexivity|].
  etransitivity; [apply H; left|]. apply IH. intros s y Hy. apply H. by right.
Qed.

(** ** The card *)

Lemma ev_sim_save bb : evolves bb (sim_save bb).
Proof. unfold sim_save. ev. Qed.
#[export] Hint Resolve ev_sim_save : ev.

(** ** Calls *)

(** A change of a call that keeps its number and its identity. *)
Definition keeps_call (f : IosBbCall -> IosBbCall) : Prop :=
  forall c, (f c).(c_number) = c.(c_number) /\ (f c).(c_id) = c.(c_id) /\
            ((f c).(c_used) = true -> c.(c_used) = true) /\
            (-2 <= c.(c_next_stat) -> -2 <= (f c).(c_next_stat)).

Lemma alter_call_inv (f : IosBbCall -> IosBbCall) k (l : list IosBbCall) i c :
  keeps_call f -> alter f k l !! i = Some c ->
  exists c0, l !! i = Some c0 /\ c.(c_id) = c0.(c_id) /\ (c.(c_used) = true -> c0.(c_used) = true).
Proof.
  intros Hf H. destruct (decide (k = i)) as [->|Hn].
  - rewrite list_lookup_alter_eq in H. apply fmap_Some in H as (c0 & H & ->).
    exists c0. destruct (Hf c0) as (_ & H1 & H2 & _). auto.
  - rewrite list_lookup_alter_ne in H by done. by exists c.
Qed.

Lemma call_ids_alter f k l next : keeps_call f -> call_ids_ok l next -> call_ids_ok (alter f k l) next.
Proof.
  intros Hf [H1 H2]. split.
  - intros i c Hi Hu. apply (alter_call_inv f k l i c Hf) in Hi as (c0 & Hi & -> & Hc). eauto.
  - intros i j c d Hi Hj Hu Hv E.
    apply (alter_call_inv f k l i c Hf) in Hi as (c0 & Hi & E1 & Hc).
    apply (alter_call_inv f k l j d Hf) in Hj as (d0 & Hj & E2 & Hd).
    eapply H2; eauto. congruence.
Qed.

Lemma ev_upd_calls i f bb : keeps_call f -> evolves bb (upd_call i f bb).
Proof.
  intros Hf. apply ev_upd_call. intros []. constructor; simpl.
  - by rewrite length_alter.
  - apply Forall_alter; [done|]. intros c _ [H1 H2].
    destruct (Hf c) as (-> & _ & _ & H). auto.
  - done.
  - by apply call_ids_alter.
Qed.

#[export] Hint Extern 2 (evolves _ (upd_call _ _ _)) =>
  (apply ev_upd_calls; intros ?; simpl; split_and!; first [reflexivity|done|unfold IOS_BB_CALL_ALERTING, IOS_BB_CALL_ACTIVE in *; lia]) : ev.
#[export] Hint Extern 2 (evolves _ (upd_ch _ _ _)) =>
  (apply ev_upd_ch; intros ? []; constructor; simpl; first [assumption|lia]) : ev.

(** A new call takes the next identifier. *)
Lemma call_ids_new k c0 l next :
  c0.(c_id) = next -> call_ids_ok l next -> call_ids_ok (alter (fun _ => c0) k l) (next + 1).
Proof.
  intros E0 [H1 H2]. split.
  - intros i c Hi Hu. destruct (decide (k = i)) as [->|Hn].
    + rewrite list_lookup_alter_eq in Hi. apply fmap_Some in Hi as (? & _ & ->). lia.
    + rewrite list_lookup_alter_ne in Hi by done. specialize (H1 i c Hi Hu). lia.
  - intros i j c d Hi Hj Hu Hv E.
    destruct (decide (k = i)) as [->|Hn]; destruct (decide (i = j)) as [->|Hij]; try done.
    + rewrite list_lookup_alter_eq in Hi. apply fmap_Some in Hi as (? & _ & ->).
      rewrite list_lookup_alter_ne in Hj by done. specialize (H1 j d Hj Hv). lia.
    + rewrite list_lookup_alter_ne in Hi by done. destruct (decide (k = j)) as [->|Hn'].
      * rewrite list_lookup_alter_eq in Hj. apply fmap_Some in Hj as (? & _ & ->).
        specialize (H1 i c Hi Hu). lia.
      * rewrite list_lookup_alter_ne in Hj by done. eauto.
Qed.

Lemma ev_call_new mt number stat bb o bb' :
  call_new mt number stat bb = (o, bb') -> evolves bb bb'.
Proof.
  unfold call_new. intros H. destruct (free_slot bb); simplify_eq; [|reflexivity].
  match goal with |- evolves _ ?x => change x with (bb <| b_call := x.(b_call) |>) end.
  apply ev_upd_call. intros []. constructor; simpl.
  - by rewrite length_alter.
  - apply Forall_alter; [done|]. intros _ _ _. split; [apply (zlen_fit 32)|simpl]; lia.
  - done.
  - by apply call_ids_new.
Qed.

Lemma ev_emit_xcallstat id stat bb : evolves bb (emit_xcallstat id stat bb).
Proof. unfold emit_xcallstat. ev. Qed.
#[export] Hint Resolve ev_emit_xcallstat : ev.

Lemma ev_call_release i bb : evolves bb (call_release i bb).
Proof. unfold call_release. ev. Qed.
#[export] Hint Resolve ev_call_release : ev.

Lemma ev_call_progress i stat bb : evolves bb (call_progress i stat bb).
Proof. unfold call_progress. ev. Qed.
#[export] Hint Resolve ev_call_progress : ev.

Lemma ev_call_ring_urcs i bb : evolves bb (call_ring_urcs i bb).
Proof. unfold call_ring_urcs. ev. Qed.
#[export] Hint Resolve ev_call_ring_urcs : ev.

Lemma ev_ios_bb_incoming_call number bb : evolves bb (ios_bb_incoming_call number bb).2.
Proof.
  unfold ios_bb_incoming_call. destruct (_ || _ || _); [reflexivity|].
  destruct (call_new _ _ _ _) as [[i|] bb'] eqn:E; apply ev_call_new in E; simpl; [|done].
  etransitivity; [exact E|ev_last].
Qed.

Lemma ev_ios_bb_remote_answer bb : evolves bb (ios_bb_remote_answer bb).
Proof. unfold ios_bb_remote_answer. ev. Qed.

Lemma ev_ios_bb_remote_hangup bb : evolves bb (ios_bb_remote_hangup bb).
Proof. unfold ios_bb_remote_hangup. ev. Qed.

Lemma ev_release_where l bb : evolves bb (release_where l bb).
Proof. apply ev_for_each. intros i s _. ev. Qed.

Lemma ev_release_all bb : evolves bb (release_all bb).
Proof. apply ev_for_each. intros i s _. ev. Qed.

Lemma ev_hold_others i bb : evolves bb (hold_others i bb).
Proof. apply ev_for_each. intros j s _. ev. Qed.

Lemma ev_swap_calls bb : evolves bb (swap_calls bb).
Proof. apply ev_for_each. intros j s _. ev. Qed.

Lemma ev_join_held bb : evolves bb (join_held bb).
Proof. apply ev_for_each. intros j s _. ev. Qed.

#[export] Hint Resolve ev_release_where ev_release_all ev_hold_others ev_swap_calls ev_join_held : ev.

Lemma ev_chld_command ch arg bb : evolves bb (chld_command ch arg bb).
Proof. unfold chld_command. ev. Qed.

Lemma ev_dial_command ch num bb : evolves bb (dial_command ch num bb).
Proof.
  unfold dial_command. cbv zeta. destruct (_ || _ || _); [ev|].
  destruct (call_new _ _ _ _) as [[i|] bb'] eqn:E; apply ev_call_new in E;
    (etransitivity; [exact E|]); [|ev]. ev.
  all: intros []; constructor; simpl; try assumption; apply (zlen_fit 32); lia.
Qed.
#[export] Hint Resolve ev_chld_command ev_dial_command : ev.

(** ** Registration *)

Lemma ev_camp_update bb : evolves bb (camp_update bb).
Proof.
  unfold camp_update. ev.
  intros []. split; [|repeat split; simpl in *; auto].
  constructor; simpl in *; try assumption. apply (zlen_fit 7). lia.
Qed.

Lemma ev_emit_xsigstr bb : evolves bb (emit_xsigstr bb).
Proof. unfold emit_xsigstr. ev. Qed.

Lemma ev_reg_schedule bb : evolves bb (reg_schedule bb).
Proof. unfold reg_schedule. ev. Qed.

Lemma ev_nitz_report bb : evolves bb (nitz_report bb).
Proof. unfold nitz_report. ev. Qed.

Lemma ev_cgreg_line ch stat bb : evolves bb (cgreg_line ch stat bb).
Proof. unfold cgreg_line. ev. Qed.
#[export] Hint Resolve ev_camp_update ev_emit_xsigstr ev_reg_schedule ev_nitz_report ev_cgreg_line : ev.

Lemma ev_emit_xciev bb : evolves bb (emit_xciev bb).
Proof. unfold emit_xciev. ev. Qed.
#[export] Hint Resolve ev_emit_xciev : ev.

Lemma ev_reg_tick bb : evolves bb (reg_tick bb).
Proof. unfold reg_tick. ev. Qed.

Lemma ev_ios_bb_operator_changed bb : evolves bb (ios_bb_operator_changed bb).
Proof. unfold ios_bb_operator_changed. ev. Qed.

Lemma ev_ios_bb_changed bb : evolves bb (ios_bb_changed bb).
Proof. unfold ios_bb_changed. ev. Qed.
#[export] Hint Resolve ev_reg_tick : ev.

(** ** SIM lock commands *)

(** A card that is not blocked. *)
Lemma sim_evolves_open s s' :
  s'.(puk) = s.(puk) -> s'.(sim_file) = s.(sim_file) -> s.(pin_left) <> 0 \/ s.(puk_left) <> 0 ->
  sim_evolves s s'.
Proof. intros H1 H2 H. split_and!; [done|done|]. intros. lia. Qed.

Lemma ev_sim_check_pin ch p bb : evolves bb (sim_check_pin ch p bb).2.
Proof.
  unfold sim_check_pin. cbv zeta. destruct (pin_left (b_sim bb) =? 0) eqn:E0; [simpl; ev_last|].
  apply Z.eqb_neq in E0. destruct (streq p _); simpl.
  - etransitivity; [|ev_last]. apply ev_set_sim; [reflexivity|]. intros [].
    split; [constructor; simpl; unfold IOS_BB_PIN_TRIES; auto; lia|].
    by apply sim_evolves_open; [| |left].
  - etransitivity; [|ev_last]. etransitivity; [|ev_last].
    apply ev_set_sim; [by destruct (_ =? 0)|]. intros [].
    split; [destruct (_ =? 0); constructor; simpl; auto; lia|].
    destruct (_ =? 0); by apply sim_evolves_open; [| |left].
Qed.

Lemma ev_check_pin ch p bb r bb' : sim_check_pin ch p bb = (r, bb') -> evolves bb bb'.
Proof. intros H. pose proof (ev_sim_check_pin ch p bb) as E. by rewrite H in E. Qed.

Lemma sim_code_fit s : sim_code_ok s 4 = true -> sim_code_ok (fit 9 s) 4 = true.
Proof.
  intros H. rewrite fit_id; [done|]. unfold sim_code_ok in H.
  apply andb_true_iff in H as [H _]. apply andb_true_iff in H as [_ H]. lia.
Qed.

Lemma sim_save_sim bb : b_sim (sim_save bb) = b_sim bb.
Proof. unfold sim_save. by split_ifs; destruct (sim_file _). Qed.

Lemma check_pin_true ch p bb bb' :
  sim_check_pin ch p bb = (true, bb') -> bb'.(b_sim).(pin_left) = IOS_BB_PIN_TRIES.
Proof.
  unfold sim_check_pin. destruct (_ =? 0); [done|]. destruct (streq _ _); [|done].
  intros [= <-]. by rewrite sim_save_sim.
Qed.

Lemma ev_cpin_query ch bb : evolves bb (cpin_query ch bb).
Proof. unfold cpin_query. ev. Qed.

Lemma ev_cpin_unblock ch f n bb :
  bb.(b_sim).(puk_left) <> 0 -> evolves bb (cpin_unblock ch f n bb).
Proof.
  intros E. unfold cpin_unblock. cbv zeta.
  destruct (_ || _) eqn:C; [ev|]. apply orb_false_iff in C as [_ C]. apply negb_false_iff in C.
  destruct (streq _ _); (etransitivity; [|ev_last]); (etransitivity; [|ev_last]);
    (apply ev_set_sim; [reflexivity|]); intros []; (split; [|by apply sim_evolves_open; [| |right]]).
  - constructor; simpl; try assumption;
      unfold IOS_BB_PIN_TRIES, IOS_BB_PUK_TRIES; try lia. by apply sim_code_fit.
  - constructor; simpl; try assumption; lia.
Qed.

Lemma ev_cpin_set ch arg bb : evolves bb (cpin_set ch arg bb).
Proof.
  unfold cpin_set. destruct (at_fields arg 2) as [f n]. cbv zeta.
  match goal with |- evolves _ (if _ then reg_schedule ?x else _) => assert (H : evolves bb x); [|generalize dependent x] end.
  - ev_step; [ev|]. apply ev_if; intros E0; [ev|]. apply Z.eqb_neq in E0.
    ev_step; [by apply ev_cpin_unblock|]. ev_step; [ev|].
    destruct (sim_check_pin _ _ _) as [[] bb'] eqn:E; apply ev_check_pin in E; [|done].
    etransitivity; [exact E|ev_last].
  - intros x H. etransitivity; [exact H|]. ev.
Qed.

Lemma ev_clck_set ch arg bb : evolves bb (clck_set ch arg bb).
Proof.
  unfold clck_set. destruct (at_fields arg 3) as [f n]. cbv zeta.
  repeat (ev_step; [solve [ev]|]).
  destruct (sim_check_pin _ _ _) as [[] bb'] eqn:E; pose proof (ev_check_pin _ _ _ _ _ E) as Ev; [|done].
  pose proof (check_pin_true _ _ _ _ E) as L. etransitivity; [exact Ev|].
  etransitivity; [|ev_last]. etransitivity; [|ev_last]. apply ev_upd_sim. intros [].
  split; [by constructor|]. apply sim_evolves_open; [done|done|left]. by rewrite L.
Qed.

Lemma ev_cpwd_set ch arg bb : evolves bb (cpwd_set ch arg bb).
Proof.
  unfold cpwd_set. destruct (at_fields arg 3) as [f n]. cbv zeta.
  ev_step; [ev|]. destruct (_ || _ || _) eqn:C; [ev|].
  apply orb_false_iff in C as [C _]. apply orb_false_iff in C as [_ C]. apply negb_false_iff in C.
  destruct (sim_check_pin _ _ _) as [[] bb'] eqn:E; pose proof (ev_check_pin _ _ _ _ _ E) as Ev; [|done].
  pose proof (check_pin_true _ _ _ _ E) as L. etransitivity; [exact Ev|].
  etransitivity; [|ev_last]. etransitivity; [|ev_last]. apply ev_upd_sim. intros [].
  split; [constructor; simpl; try assumption; by apply sim_code_fit|].
  apply sim_evolves_open; [done|done|left]. by rewrite L.
Qed.
#[export] Hint Resolve ev_cpin_query ev_cpin_set ev_clck_set ev_cpwd_set : ev.

(** ** Command groups *)

(** Whatever a group answers comes from [bb]. *)
Definition evolves_opt (bb : IosBbCore) (o : option IosBbCore) : Prop :=
  match o with Some bb' => evolves bb bb' | None => True end.

Lemma evo_some bb x : evolves bb x -> evolves_opt bb (Some x).
Proof. done. Qed.

Lemma evo_none bb : evolves_opt bb None.
Proof. done. Qed.

Lemma evo_on bb c v next : evolves bb v -> evolves_opt bb next -> evolves_opt bb (on c v next).
Proof. unfold on. by destruct c. Qed.

Lemma evo_on_arg bb cmd s k next :
  (forall arg, evolves bb (k arg)) -> evolves_opt bb next -> evolves_opt bb (on_arg cmd s k next).
Proof. unfold on_arg. intros H1 H2. destruct (arg_after _ _); [apply H1|done]. Qed.

Lemma evo_or_else bb o next : evolves_opt bb o -> evolves_opt bb next -> evolves_opt bb (or_else o next).
Proof. by destruct o. Qed.

Ltac evo :=
  repeat first [apply evo_none|apply evo_on; [try (solve [ev])|]
               |apply evo_on_arg; [intros ?; try (solve [ev])|]].

Lemma evo_sim_command ch cmd bb : evolves_opt bb (sim_command ch cmd bb).
Proof. unfold sim_command. repeat case_match; first [apply evo_none|apply evo_some; ev]. Qed.

Lemma ev_radio_nvram_block ch block bb : evolves bb (radio_nvram_block ch block bb).
Proof. unfold radio_nvram_block. ev. Qed.

Lemma ev_line_ok ch s bb : evolves bb (line_ok ch s bb).
Proof. unfold line_ok. ev. Qed.

Lemma ev_at_learn ch cmd bb : chan_ix ch -> evolves bb (at_learn ch cmd bb).
Proof. intros H. unfold at_learn. ev. Qed.
#[export] Hint Resolve ev_radio_nvram_block ev_line_ok ev_at_learn : ev.

Lemma ev_at_vibrate ch arg bb : evolves bb (at_vibrate ch arg bb).
Proof. unfold at_vibrate. ev. Qed.

Lemma ev_at_temperature ch arg bb : chan_ix ch -> evolves bb (at_temperature ch arg bb).
Proof.
  intros H. unfold at_temperature. cbv zeta. etransitivity; [|ev_last].
  match goal with |- evolves _ ?x => change x with (bb <| b_drv := x.(b_drv) |>) end.
  apply ev_upd_drv. intros [H1 H2]. unfold drv_wf. simpl. split; [done|].
  destruct (0 <? _) eqn:E; [lia|done].
Qed.

Lemma ev_at_crsm ch arg bb : evolves bb (at_crsm ch arg bb).
Proof. unfold at_crsm. ev. Qed.
#[export] Hint Resolve ev_at_vibrate ev_at_temperature ev_at_crsm : ev.

Lemma evo_at_plus_drv ch cmd bb : chan_ix ch -> evolves_opt bb (at_plus_drv ch cmd bb).
Proof. intros H. unfold at_plus_drv. evo. Qed.

Lemma evo_at_plus_ident ch cmd bb : evolves_opt bb (at_plus_ident ch cmd bb).
Proof.
  unfold at_plus_ident. evo.
  pose proof (evo_sim_command ch cmd bb) as H. destruct (sim_command ch cmd bb); [done|]. evo.
  ev. intros _. by vm_compute.
Qed.

Lemma ev_creg_zero bb : evolves bb (creg_zero bb).
Proof. unfold creg_zero. ev. Qed.
#[export] Hint Resolve ev_creg_zero : ev.

Lemma ev_at_cfun ch arg bb : evolves bb (at_cfun ch arg bb).
Proof.
  unfold at_cfun. cbv zeta. etransitivity; [apply ev_at_ok|]. apply ev_if; intros E; [|reflexivity].
  etransitivity; [apply (ev_upd_reg (upd cfun (fun _ => atoi arg)))|].
  { intros (H1 & H2 & H3). refine (conj H1 (conj _ H3)). simpl.
    apply andb_true_iff in E as [E _]. rewrite !orb_true_iff, !Z.eqb_eq in E. tauto. }
  ev.
Qed.

Lemma zlen_until_nul l : zlen (until_nul l) <= zlen l.
Proof.
  induction l as [|x l IH]; [done|]. simpl. destruct (_ =? _); rewrite ?zlen_cons, ?zlen_nil;
    pose proof (zlen_nonneg l); lia.
Qed.

Lemma ev_at_cops ch arg bb : evolves bb (at_cops ch arg bb).
Proof.
  unfold at_cops. cbv zeta. ev_step; [ev|]. ev_step; [ev|]. ev_step; [ev|]. ev_step; [|ev].
  etransitivity; [|ev_last]. ev_step; [|ev]. etransitivity; [apply ev_at_ok|].
  apply ev_upd_plmn. apply (zlen_fit 7). lia.
Qed.

Lemma ev_at_cops_query ch bb : evolves bb (at_cops_query ch bb).
Proof. unfold at_cops_query. ev. Qed.
#[export] Hint Resolve ev_at_cfun ev_at_cops ev_at_cops_query : ev.

Lemma evo_at_plus_radio ch cmd bb : evolves_opt bb (at_plus_radio ch cmd bb).
Proof. unfold at_plus_radio. evo. Qed.

Lemma ev_at_ccfc ch arg bb : evolves bb (at_ccfc ch arg bb).
Proof. unfold at_ccfc. ev. Qed.
#[export] Hint Resolve ev_at_ccfc : ev.

Lemma evo_at_plus_info ch cmd bb : evolves_opt bb (at_plus_info ch cmd bb).
Proof. unfold at_plus_info. evo. Qed.

Lemma ev_at_cmgr ch arg bb : evolves bb (at_cmgr ch arg bb).
Proof. unfold at_cmgr. ev. Qed.
#[export] Hint Resolve ev_at_cmgr : ev.

Lemma evo_at_plus_sms ch cmd bb : chan_ix ch -> evolves_opt bb (at_plus_sms ch cmd bb).
Proof. intros H. unfold at_plus_sms. evo. Qed.

Lemma evo_at_plus_call ch cmd bb : evolves_opt bb (at_plus_call ch cmd bb).
Proof. unfold at_plus_call. evo. Qed.

Lemma ev_cgact_drop cid i bb : evolves bb (cgact_drop cid i bb).
Proof. unfold cgact_drop. ev. Qed.

Lemma ev_at_cgact ch arg bb : evolves bb (at_cgact ch arg bb).
Proof.
  unfold at_cgact. cbv zeta. ev_step; [|ev].
  etransitivity; [|apply ev_for_each; intros; apply ev_cgact_drop]. ev.
Qed.

Lemma ev_at_cgdata ch arg bb : evolves bb (at_cgdata ch arg bb).
Proof. unfold at_cgdata. ev. Qed.
#[export] Hint Resolve ev_at_cgact ev_at_cgdata : ev.

Lemma gps_command_wf now ch cmd g g' :
  chan_ix ch -> ios_bb_gps_command now ch cmd g = Some g' -> gps_wf g'.
Proof.
  unfold ios_bb_gps_command, chan_ix, gps_wf, IOS_BB_MAX_CH. intros Hc H.
  destruct (g_present g); [|done]. cbn [negb] in H. destruct (streq _ _); simplify_eq; [simpl; lia|].
  destruct (starts_with _ _); simplify_eq. destruct (after_commas _ _); simpl; [|lia].
  destruct (0 <? _) eqn:E; lia.
Qed.

Lemma evo_at_plus_data ch cmd bb : chan_ix ch -> evolves_opt bb (at_plus_data ch cmd bb).
Proof.
  intros H. unfold at_plus_data. evo.
  destruct (ios_bb_gps_command _ _ _ _) eqn:E; [|done]. apply evo_some.
  etransitivity; [|ev_last]. apply ev_upd_gps. intros _. by eapply gps_command_wf.
Qed.

Lemma ev_at_plus ch cmd bb : chan_ix ch -> evolves bb (at_plus ch cmd bb).
Proof.
  intros H. unfold at_plus. cbv zeta. etransitivity; [by apply (ev_at_learn ch cmd)|].
  generalize (at_learn ch cmd bb). clear bb. intros bb.
  match goal with |- evolves _ (default _ ?o) => assert (E : evolves_opt bb o) end.
  { repeat (apply evo_or_else; [first [by apply evo_at_plus_drv|apply evo_at_plus_ident
      |apply evo_at_plus_radio|apply evo_at_plus_info|by apply evo_at_plus_sms|apply evo_at_plus_call]|]).
    by apply evo_at_plus_data. }
  match goal with |- evolves _ (default _ ?o) => destruct o end; [exact E|apply ev_at_ok].
Qed.
#[export] Hint Resolve ev_at_plus : ev.

Lemma ev_at_answer ch bb : evolves bb (at_answer ch bb).
Proof. unfold at_answer. ev. Qed.
#[export] Hint Resolve ev_at_answer : ev.

Lemma ev_at_command ch line bb : chan_ix ch -> evolves bb (at_command ch line bb).
Proof.
  intros H. unfold at_command. etransitivity; [|ev_last].
  unfold at_command_line. ev.
Qed.
#[export] Hint Resolve ev_at_command : ev.
