(* ===== verification/BbInvRun.v ===== *)
(** * The invariant of the whole core

    The receive paths, the tick and the calls of the device keep the bounds; the
    theorems over sequences of calls follow. *)

From Stdlib Require Import ZArith Lia String.
From stdpp Require Import base numbers list.
From S2P Require Import Prelude CLib BbState BbTx BbPdu BbSim BbCalls BbReg BbSms BbSimCmd BbGps BbAt BbRx BbTick.
From S2P Require Import BbTxFacts BbPduFacts BbWindow BbInv BbInvCmd.
Local Open Scope Z_scope.

(** ** Sizes of decoded messages *)

Lemma zlen_unpack_loop n inp i esc out max r :
  unpack_loop n inp i esc out max = Some r -> zlen out <= max - 1 -> zlen r <= max - 1.
Proof.
  assert (M : forallb (fun e : bytes => zlen e <=? 4) gsm7_main = true) by (vm_compute; reflexivity).
  rewrite forallb_forall in M.
  assert (X : forall v, zlen (ext_text gsm7_ext v) <= 4).
  { intros v. unfold gsm7_ext. cbn [ext_text].
    repeat match goal with |- context [if ?c then _ else _] => destruct c; [by vm_compute|] end.
    by vm_compute. }
  revert i esc out. induction n as [|n IH]; intros i esc out; cbn [unpack_loop]; [intros; by simplify_eq|].
  destruct (_ <? _) eqn:L; [|intros; by simplify_eq]. apply Z.ltb_lt in L.
  destruct (read_septet _ _ _ _ _) as [v|]; [|done]. cbn [mbind option_bind].
  destruct esc; [|destruct (v =? 27)]; intros H Ho; eapply IH; try exact H; [| done|];
    rewrite zlen_app.
  - specialize (X v). lia.
  - destruct (gsm7_main !! Z.to_nat v) as [e|] eqn:E; simpl; [|change (zlen []) with 0; lia].
    apply list_elem_of_lookup_2, list_elem_of_In, M, Z.leb_le in E. lia.
Qed.

Lemma zlen_ucs2be_loop n inp out max :
  (length inp <= n)%nat -> zlen out <= max - 1 -> zlen (ucs2be_loop inp out max) <= max - 1.
Proof.
  revert inp out. induction n as [|n IH]; intros [|h [|l inp]] out Hn Ho; simpl in *; try done; try lia.
  destruct (_ <? _) eqn:L; [|done]. apply Z.ltb_lt in L. apply IH; [lia|].
  pose proof (utf8_unit_len (Z.lor (Z.shiftl h 8) l)). rewrite zlen_app. lia.
Qed.

Lemma zlen_semi_loop inp out max : zlen out <= max - 1 -> zlen (semi_loop inp out max) <= max - 1.
Proof.
  revert out. induction inp as [|b inp IH]; intros out Ho; simpl; [done|].
  destruct (_ <? _) eqn:L; [|done]. apply Z.ltb_lt in L. apply IH.
  destruct (_ <? 10), (_ <? 10); rewrite ?zlen_app, ?zlen_cons; change (zlen (@nil Z)) with 0; lia.
Qed.

Lemma zlen_submit_text p pos udl udoct dcs t :
  submit_text p pos udl udoct dcs = Some t -> zlen t <= 511.
Proof.
  unfold submit_text. destruct (_ =? 0); [|destruct (_ =? 1)].
  - intros H. apply zlen_unpack_loop in H; [lia|]. by vm_compute.
  - destruct (_ <=? _); [|done]. intros [= <-]. rewrite zlen_ztake. lia.
  - destruct (_ <=? _); [|done]. intros [= <-]. apply (zlen_ucs2be_loop _ _ [] 512 (le_n _)). by vm_compute.
Qed.

(** ** Messages *)

Lemma ev_sms_parse_submit p bb bb' : sms_parse_submit p bb = Some bb' -> evolves bb bb'.
Proof.
  unfold sms_parse_submit. cbv zeta. intros H.
  repeat match goal with
  | H : (if ?c then Some _ else _) = Some _ |- _ => destruct c; [simplify_eq; reflexivity|]
  | H : (zget ?p ?i ≫= _) = Some _ |- _ => destruct (zget p i); [simpl in H|discriminate H]
  end.

  destruct (submit_text _ _ _ _ _) as [t|] eqn:T; [|done]. simpl in H. simplify_eq.
  apply zlen_submit_text in T.
  match goal with |- evolves _ ?x => change x with (bb <| b_sms := x.(b_sms) |>) end.
  apply ev_upd_sms. intros []. constructor; simpl; try done. by apply zlen_semi_loop.
Qed.

Lemma ev_cmgs_prompt_commit ch send bb : evolves bb (cmgs_prompt_commit ch send bb).
Proof.
  unfold cmgs_prompt_commit. cbv zeta. ev_step; [ev|].
  do 3 (etransitivity; [|ev_last]).
  match goal with |- evolves _ (default _ (sms_parse_submit ?p ?b)) =>
    transitivity b; [|destruct (sms_parse_submit p b) eqn:E] end.
  - ev.
  - by apply ev_sms_parse_submit in E.
  - reflexivity.
Qed.
#[export] Hint Resolve ev_cmgs_prompt_commit : ev.

Lemma ev_ios_bb_incoming_sms number text bb : evolves bb (ios_bb_incoming_sms number text bb).2.
Proof.
  unfold ios_bb_incoming_sms. cbv zeta. destruct (_ || _ || _ || _); [reflexivity|].
  destruct (sms_build_deliver _ _ _ _) as [[[pdu ?] tpdu]|]; [|reflexivity]. simpl.
  etransitivity; [|ev_last]. etransitivity; [|ev_last]. apply ev_upd_sms. intros [].
  constructor; simpl; try assumption; unfold zlen in *; [by rewrite length_alter|].
  apply Forall_alter; [done|]. intros _ _ _. simpl.
  split; [apply (zlen_fit 32)|apply (zlen_fit 400)]; lia.
Qed.

(** ** Packet data *)

Lemma data_log_nil bb : bb <| b_env; data_log ::= fun l => l ++ [] |> = bb.
Proof.
  destruct bb, b_env. cbv [upd upd_b_env upd_data_log]. simpl. by rewrite app_nil_r.
Qed.

Lemma data_log_app a b bb :
  bb <| b_env; data_log ::= fun l => l ++ a |> <| b_env; data_log ::= fun l => l ++ b |> =
  bb <| b_env; data_log ::= fun l => l ++ (a ++ b) |>.
Proof.
  destruct bb, b_env. cbv [upd upd_b_env upd_data_log]. simpl. by rewrite app_assoc.
Qed.

Lemma data_out_bytes_eq p bb :
  data_out_bytes p bb =
  bb <| b_env; data_log ::= fun l => l ++ (if bb.(b_data).(data_out) then [p] else []) |>.
Proof.
  unfold data_out_bytes. destruct (data_out _); [done|]. by rewrite data_log_nil.
Qed.

(** The inner loop leaves room in the buffer. *)
Lemma ip_drain_room fuel bb :
  zlen bb.(b_data).(ip_rx) <= IP_RX_SIZE -> (length bb.(b_data).(ip_rx) < fuel)%nat ->
  exists new q', ip_drain fuel bb = bb <| b_env; data_log ::= fun l => l ++ new |> <| b_data; ip_rx := q' |> /\
    zlen q' < IP_RX_SIZE.
Proof.
  unfold IP_RX_SIZE. revert bb. induction fuel as [|fuel IH]; intros bb Hz Hf; [lia|].
  assert (stay : bb = bb <| b_env; data_log ::= fun l => l ++ [] |> <| b_data; ip_rx := ip_rx (b_data bb) |>).
  { rewrite data_log_nil. by destruct bb, b_data. }
  cbn [ip_drain]. cbv zeta. unfold ip_next, IP_RX_SIZE.
  destruct (Z.leb_spec 20 (zlen (ip_rx (b_data bb)))) as [H20|H20];
    [|exists [], (ip_rx (b_data bb)); split; [exact stay|lia]].
  destruct (_ || _ || _) eqn:B.
  { exists [], []. split; [by rewrite data_log_nil|by vm_compute]. }
  apply orb_false_iff in B as [B B2]. apply orb_false_iff in B as [_ B1].
  destruct (Z.ltb_spec (zlen (ip_rx (b_data bb))) (Z.lor (Z.shiftl (rd (ip_rx (b_data bb)) 2) 8) (rd (ip_rx (b_data bb)) 3)));
    [exists [], (ip_rx (b_data bb)); split; [exact stay|lia]|].
  rewrite data_out_bytes_eq.
  match goal with |- context [ip_drain fuel ?x] => destruct (IH x) as (new & q' & E & H') end.
  - simpl. rewrite zlen_zdrop. lia.
  - simpl. pose proof (zlen_zdrop (Z.lor (Z.shiftl (rd (ip_rx (b_data bb)) 2) 8) (rd (ip_rx (b_data bb)) 3))
      (ip_rx (b_data bb))) as L. unfold zlen in *. lia.
  - rewrite E. eexists (_ ++ new), q'. split; [|done]. rewrite <- data_log_app. reflexivity.
Qed.

Lemma ev_data_chan_input data bb : evolves bb (data_chan_input data bb).
Proof.
  unfold data_chan_input. generalize (length data). intros fuel. revert data bb.
  induction fuel as [|fuel IH]; intros [|x data] bb; cbn [data_chan_loop]; try reflexivity. cbv zeta.
  set (n := Z.min _ _). etransitivity; [|apply IH]. apply ev_intro. intros W.
  pose proof (w_data _ W) as D. unfold data_wf in D.
  set (bb1 := bb <| b_data; ip_rx ::= _ |>).
  destruct (ip_drain_room (S (length (ip_rx (b_data bb1)))) bb1) as (new & q' & E & H); [|lia|].
  { simpl. rewrite zlen_app, zlen_ztake. lia. }
  rewrite E. unfold bb1. etransitivity; [apply (ev_upd_env (upd data_log (fun l => l ++ new)))|].
  - done.
  - by eexists.
  - match goal with |- evolves ?a ?x => change x with (a <| b_data := x.(b_data) |>) end.
    apply ev_upd_data. intros _. exact H.
Qed.
#[export] Hint Resolve ev_data_chan_input : ev.

Lemma ev_ios_bb_data_input pkt bb : evolves bb (ios_bb_data_input pkt bb).2.
Proof.
  unfold ios_bb_data_input. destruct (first_from _ _ _); simpl; [|reflexivity].
  apply ev_fold. intros. apply ev_mx_send.
Qed.

(** ** AT lines *)

Lemma rd_wr_other l i j (v : Z) : 0 <= i -> i < j -> rd (wr l i v) j = rd l j.
Proof. intros H1 H2. unfold rd, wr. f_equal. apply list_lookup_insert_ne. lia. Qed.

Lemma rd_wr_same l i : 0 <= i < zlen l -> rd (wr l i 0) i = 0.
Proof. intros H. unfold rd, wr, zlen in *. rewrite list_lookup_insert_eq; [done|lia]. Qed.

Lemma is_bytes_wr l i v : is_bytes l -> is_byte v -> is_bytes (wr l i v).
Proof. intros. by apply Forall_insert. Qed.

Lemma push_line_wf b c : chan_wf c -> chan_wf (push_line b c).
Proof.
  intros []. unfold push_line. destruct (_ <? _) eqn:L; [|done]. apply Z.ltb_lt in L.
  constructor; simpl; [by rewrite zlen_wr|lia|]. rewrite rd_wr_other; [done|lia|lia].
Qed.

Lemma end_line_wf c : chan_wf c -> chan_wf (c <| ch_line ::= fun l => wr l c.(ch_len) 0 |>).
Proof.
  intros []. constructor; simpl; [by rewrite zlen_wr|lia|].
  destruct (decide (ch_len c = 599)) as [->|]; [apply rd_wr_same; lia|].
  rewrite rd_wr_other; [done|lia|lia].
Qed.

Lemma ev_at_chan_byte ch b bb : chan_ix ch -> evolves bb (at_chan_byte ch bb b).
Proof.
  intros H. unfold at_chan_byte. cbv zeta.
  ev_step; [ev; apply ev_upd_ch, push_line_wf|].
  ev_step; [|ev_step; [ev|apply ev_upd_ch, push_line_wf]].
  ev_step; [|ev]. etransitivity; [|ev_last].
  match goal with |- evolves _ (if _ then at_command _ _ ?x else _) => transitivity x end.
  - apply ev_upd_ch, end_line_wf.
  - ev.
Qed.

Lemma ev_at_chan_input ch data bb : chan_ix ch -> evolves bb (at_chan_input ch data bb).
Proof.
  intros H. unfold at_chan_input. ev_step; [ev|]. apply ev_fold. intros. by apply ev_at_chan_byte.
Qed.

Lemma ev_at_chan_input_mux ch bb : chan_ix ch -> evolves bb (at_chan_input_mux ch bb).
Proof.
  intros H. unfold at_chan_input_mux. cbv zeta. ev_step; [ev|].
  apply ev_fold. intros. by apply ev_at_chan_byte.
Qed.
#[export] Hint Resolve ev_at_chan_input ev_at_chan_input_mux : ev.

(** ** The multiplexer *)

Lemma ev_mx_control data bb : evolves bb (mx_control data bb).
Proof. unfold mx_control. ev. Qed.
#[export] Hint Resolve ev_mx_control : ev.

Lemma ev_mx_rx_frame addr ctrl bb : 0 <= addr -> evolves bb (mx_rx_frame addr ctrl bb).
Proof.
  intros H. apply Z.shiftr_nonneg with (n := 2) in H. unfold mx_rx_frame. cbv zeta.
  do 3 (ev_step; [solve [ev]|]). ev_step; [|ev]. ev_step; [ev|].
  apply ev_if; intros E; [|ev]. apply andb_true_iff in E as [E _]. apply Z.ltb_lt in E.
  by apply ev_at_chan_input_mux.
Qed.
#[export] Hint Resolve ev_mx_rx_frame : ev.

Lemma ev_on_rx f bb :
  (forall m, zlen m.(m_buf) <= MX_BUF_SIZE /\ 0 <= m.(m_addr) ->
             zlen (f m).(m_buf) <= MX_BUF_SIZE /\ 0 <= (f m).(m_addr)) ->
  evolves bb (on_rx f bb).
Proof. intros H. apply ev_upd_mux. intros W. apply H, W. Qed.

Lemma addr_byte_wf c m :
  is_byte c -> zlen m.(m_buf) <= MX_BUF_SIZE /\ 0 <= m.(m_addr) ->
  zlen (mx_addr_byte c m).(m_buf) <= MX_BUF_SIZE /\ 0 <= (mx_addr_byte c m).(m_addr).
Proof. intros Hc [H1 H2]. unfold mx_addr_byte, is_byte in *. destruct (_ =? _); simpl; lia. Qed.

Lemma data_byte_wf c m :
  zlen m.(m_buf) <= MX_BUF_SIZE /\ 0 <= m.(m_addr) ->
  zlen (mx_data_byte c m).(m_buf) <= MX_BUF_SIZE /\ 0 <= (mx_data_byte c m).(m_addr).
Proof.
  intros [H1 H2]. unfold mx_data_byte. destruct (zlen (m_buf m) <? _) eqn:L; cbv zeta.
  - apply Z.ltb_lt in L. split_ifs; simpl; rewrite zlen_app, zlen_cons; change (zlen (@nil Z)) with 0; lia.
  - split_ifs; simpl; lia.
Qed.

Lemma ev_mx_byte_switch c bb : is_byte c -> evolves bb (mx_byte_switch bb c).
Proof.
  intros Hc. unfold mx_byte_switch. cbv zeta. destruct (m_state _).
  - ev_step; [|apply ev_on_rx; intros m Hm; apply addr_byte_wf; [done|exact Hm]].
    etransitivity; [|apply ev_on_rx; intros m Hm; exact Hm]. ev.
  - apply ev_on_rx. intros m Hm. by apply addr_byte_wf.
  - apply ev_on_rx. intros m Hm. exact Hm.
  - apply ev_on_rx. intros m [H1 H2]. destruct (Z.testbit c 0); simpl; [|done]. by split.
  - apply ev_on_rx. intros m [H1 H2]. by split.
  - apply ev_on_rx. intros m Hm. by apply data_byte_wf.
  - etransitivity; [|apply ev_on_rx; intros m Hm; exact Hm].
    apply ev_intro. intros W. destruct (w_mux _ W) as [_ H]. ev.
Qed.

Lemma ev_mx_byte c bb : is_byte c -> evolves bb (mx_byte bb c).
Proof.
  intros Hc. unfold mx_byte. cbv zeta. etransitivity; [by apply (ev_mx_byte_switch c)|]. ev.
  intros _. by vm_compute.
Qed.

Lemma ev_mx_input buf bb : is_bytes buf -> evolves bb (mx_input buf bb).
Proof.
  intros H. apply ev_fold. intros s c Hc. apply ev_mx_byte.
  unfold is_bytes in H. rewrite Forall_forall in H. auto.
Qed.
#[export] Hint Resolve ev_mx_input : ev.

(** ** The H5 receiver *)

Lemma ev_h5_rx_payload data bb : is_bytes data -> evolves bb (h5_rx_payload data bb).
Proof.
  intros H. unfold h5_rx_payload. ev_step; [ev|]. apply ev_at_chan_input. by vm_compute.
Qed.

Lemma ev_h5_ack ack bb : evolves bb (h5_ack ack bb).
Proof.
  unfold h5_ack. destruct (h5_unacked _) as [|p u]; [reflexivity|]. cbv zeta. ev_step; [|ev].
  etransitivity; [|ev_last]. apply ev_upd_link. intros [].
  constructor; simpl; try assumption; unfold zdrop; [rewrite length_drop; lia|by apply Forall_drop].
Qed.

Lemma ev_h5_link p len bb : evolves bb (h5_link p len bb).
Proof. unfold h5_link. ev. Qed.
#[export] Hint Resolve ev_h5_rx_payload ev_h5_ack ev_h5_link : ev.

Lemma ev_h5_rx_pkt p n bb : is_bytes p -> evolves bb (h5_rx_pkt p n bb).
Proof.
  intros H. unfold h5_rx_pkt. cbv zeta. ev_step; [ev|].
  etransitivity; [apply (ev_h5_ack (Z.land (rd p 0 ≫ 3) 7))|].
  generalize (h5_ack (Z.land (rd p 0 ≫ 3) 7) bb). intros b. do 4 (ev_step; [solve [ev]|]).
  ev_step; [|ev]. etransitivity; [|apply ev_h5_rx_payload; by apply is_bytes_take, is_bytes_drop].
  apply ev_upd_link. intros []. constructor; simpl; try assumption. apply seq_range.
Qed.

Lemma ev_h5_deliver bb : evolves bb (h5_deliver bb).
Proof. apply ev_intro. intros W. apply ev_h5_rx_pkt, W. Qed.
#[export] Hint Resolve ev_h5_deliver : ev.

Lemma ev_h5_rxlen0 bb : evolves bb (bb <| b_link; h5_rxlen := 0 |>).
Proof. apply ev_upd_link. intros []. constructor; simpl; try assumption. by vm_compute. Qed.
#[export] Hint Resolve ev_h5_rxlen0 : ev.

Lemma ev_h5_push c bb : is_byte c -> evolves bb (h5_push c bb).
Proof.
  intros Hc. unfold h5_push. apply ev_if; intros E.
  - apply Z.ltb_lt in E.
    match goal with |- evolves _ ?x => change x with (bb <| b_link := x.(b_link) |>) end.
    apply ev_upd_link. intros []. constructor; simpl; try assumption.
    + by rewrite zlen_wr.
    + by apply is_bytes_wr.
    + lia.
  - etransitivity; [apply ev_h5_rxlen0|]. ev.
Qed.
#[export] Hint Resolve ev_h5_push : ev.

Lemma ev_h5_frame_byte c bb : is_byte c -> evolves bb (h5_frame_byte bb c).
Proof.
  intros Hc. assert (is_byte 0xc0 /\ is_byte 0xdb) as [? ?] by (unfold is_byte; lia).
  unfold h5_frame_byte. ev.
Qed.
#[export] Hint Resolve ev_h5_frame_byte : ev.

Lemma ev_h5_byte c bb : is_byte c -> evolves bb (h5_byte bb c).
Proof. intros Hc. unfold h5_byte. ev. Qed.

Lemma ev_h5_input buf bb : is_bytes buf -> evolves bb (h5_input buf bb).
Proof.
  intros H. apply ev_fold. intros s c Hc. apply ev_h5_byte.
  unfold is_bytes in H. rewrite Forall_forall in H. auto.
Qed.

Lemma ev_ios_bb_input buf bb : is_bytes buf -> evolves bb (ios_bb_input buf bb).
Proof.
  intros H. unfold ios_bb_input. cbv zeta. ev_step; [ev|].
  match goal with |- evolves _ (if _ then h5_send_ack ?x else _) => transitivity x; [|ev] end.
  ev_step; [ev|]. ev_step; [|by apply ev_h5_input].
  assert (Ht : is_bytes (drop (length (before_c0 buf)) buf)) by by apply is_bytes_drop.
  destruct (drop _ _) as [|x t].
  - ev_step; [ev|]. apply ev_at_chan_input. by vm_compute.
  - etransitivity; [|by apply ev_h5_input]. etransitivity; [|ev_last].
    ev_step; [ev|]. apply ev_at_chan_input. by vm_compute.
Qed.

(** ** The tick *)

Lemma ev_tick_reg_check now bb : evolves bb (tick_reg_check now bb).
Proof. unfold tick_reg_check. ev. Qed.

Lemma ev_tick_reg now bb : evolves bb (tick_reg now bb).
Proof. unfold tick_reg. ev. Qed.

Lemma ev_tick_temp now bb : evolves bb (tick_temp now bb).
Proof.
  unfold tick_temp. cbv zeta. apply ev_if; intros E; [|reflexivity].
  apply andb_true_iff in E as [E _]. apply negb_true_iff, Z.eqb_neq in E.

  match goal with |- evolves _ (upd b_drv _ ?x) =>
    assert (D : b_drv x = b_drv bb); [|transitivity x] end.
  - destruct (_ || _); [|done]. cbn [fold_left]. by rewrite !at_line_drv.
  - ev_step; [|reflexivity]. apply ev_fold. intros. apply ev_at_line.
  - apply ev_upd_drv. rewrite D. intros [H1 H2]. split; [exact H1|]. intros _. exact (H2 E).
Qed.

Lemma ev_tick_xsim now bb : evolves bb (tick_xsim now bb).
Proof. unfold tick_xsim. ev. Qed.

Lemma ev_tick_call now i bb : evolves bb (tick_call now i bb).
Proof. unfold tick_call. ev. Qed.

Lemma ev_tick_calls now bb : evolves bb (tick_calls now bb).
Proof. apply ev_for_each. intros. apply ev_tick_call. Qed.

Lemma ev_tick_h5 now bb : evolves bb (tick_h5 now bb).
Proof. unfold tick_h5. ev. Qed.

Lemma gps_poll_wf now g : gps_wf g -> gps_wf (ios_bb_gps_poll now g).1.
Proof. intros H. unfold ios_bb_gps_poll. destruct (_ || _ || _); [done|]. by destruct (g_fix _). Qed.

Lemma ev_tick_gps now bb : evolves bb (tick_gps now bb).
Proof.
  unfold tick_gps. pose proof (gps_poll_wf now (b_gps bb)) as H.
  destruct (ios_bb_gps_poll now (b_gps bb)) as [g r]. cbv zeta.
  transitivity (bb <| b_gps := g |>); [by apply (ev_upd_gps (fun _ => g))|].
  destruct r as [[ch l]|]; ev.
Qed.

Lemma ev_ios_bb_tick now bb : evolves bb (ios_bb_tick now bb).
Proof.
  unfold ios_bb_tick. cbv zeta.
  transitivity (bb <| b_env; now_ms := now |>); [ev|]. ev_step; [ev|].
  etransitivity; [|apply ev_tick_gps]. etransitivity; [|apply ev_tick_h5].
  etransitivity; [|apply ev_tick_calls]. etransitivity; [|apply ev_tick_xsim].
  etransitivity; [|apply ev_tick_temp]. etransitivity; [|apply ev_tick_reg].
  etransitivity; [|apply ev_tick_reg_check]. apply ev_camp_update.
Qed.

(** ** The device's calls *)

(** What the device does with the core: bytes from the host, time, changed
    controls, the network's side of calls, messages and packets, reset. *)
Inductive op :=
| OpInput (buf : bytes)
| OpTick (now : Z)
| OpControls (c : Ctl)
| OpOperator (c : Ctl)
| OpIncomingCall (number : bytes)
| OpRemoteAnswer
| OpRemoteHangup
| OpIncomingSms (number text : bytes)
| OpDataInput (pkt : bytes)
| OpDataOut (on : bool)
| OpGps (present fix_ok : bool) (text : bytes)
| OpReset.

Definition run_op (bb : IosBbCore) (o : op) : IosBbCore :=
  match o with
  | OpInput buf => ios_bb_input buf bb
  | OpTick now => ios_bb_tick now bb
  | OpControls c => ios_bb_changed (bb <| b_ctl := c |>)
  | OpOperator c => ios_bb_operator_changed (bb <| b_ctl := c |>)
  | OpIncomingCall number => (ios_bb_incoming_call number bb).2
  | OpRemoteAnswer => ios_bb_remote_answer bb
  | OpRemoteHangup => ios_bb_remote_hangup bb
  | OpIncomingSms number text => (ios_bb_incoming_sms number text bb).2
  | OpDataInput pkt => (ios_bb_data_input pkt bb).2
  | OpDataOut on => bb <| b_data; data_out := on |>
  | OpGps present fix_ok text =>
      bb <| b_gps; g_present := present |> <| b_gps; g_fix := fix_ok |> <| b_gps; g_text := text |>
  | OpReset => ios_bb_reset bb
  end.

(** Octets are octets, and a network code has at most six digits. *)
Definition op_ok (o : op) : Prop :=
  match o with
  | OpInput buf => is_bytes buf
  | OpControls c | OpOperator c => zlen c.(plmn) <= 6
  | _ => True
  end.

(** A card with no tries left. *)
Definition blocked (s : Sim) : Prop := s.(pin_left) = 0 /\ s.(puk_left) = 0.

Lemma set_ctl_wf c bb : zlen c.(plmn) <= 6 -> bb_wf bb -> bb_wf (bb <| b_ctl := c |>).
Proof. intros H []. by constructor. Qed.

Lemma link0_wf : link_wf link0.
Proof.
  constructor; try (by vm_compute).
  - apply Forall_replicate. unfold is_byte. lia.
  - simpl. lia.
  - by exists [].
Qed.

Lemma chan0_wf : chan_wf chan0.
Proof. constructor; by vm_compute. Qed.

Lemma chans0_wf :
  chans_wf (alter (fun c => c <| ch_open := true |>) 0%nat (replicate (Z.to_nat IOS_BB_MAX_CH) chan0)).
Proof.
  split; [unfold zlen; by rewrite length_alter|].
  apply Forall_alter; [apply Forall_replicate, chan0_wf|]. intros c _ []. by constructor.
Qed.

Lemma reset_wf bb : sim_wf bb.(b_sim) -> zlen bb.(b_ctl).(plmn) <= 6 -> bb_wf (ios_bb_reset bb).
Proof.
  intros [] H. constructor.
  - by constructor.
  - apply link0_wf.
  - by vm_compute.
  - apply chans0_wf.
  - constructor; by vm_compute.
  - split_and!; try (by vm_compute). by right; left.
  - split; [by vm_compute|done].
  - constructor; [done|by repeat constructor|by vm_compute|].
    split; intros i; intros; do 4 (destruct i as [|i]; simpl in *; simplify_eq).
  - constructor; try (by vm_compute). by repeat constructor.
  - by vm_compute.
  - split; [by vm_compute|]. simpl. lia.
  - done.
Qed.

(** Every call but a reset is a step of the order, from the state with the new
    controls when it sets them. *)
Lemma run_op_evolves o bb :
  op_ok o -> o <> OpReset -> bb_wf bb ->
  exists a, bb_wf a /\ a.(b_sim) = bb.(b_sim) /\ evolves a (run_op bb o).
Proof.
  intros Ho Hr W.
  assert (same : forall b, evolves bb b -> exists a, bb_wf a /\ a.(b_sim) = bb.(b_sim) /\ evolves a b)
    by (intros b H; by exists bb).
  destruct o; cbn [run_op op_ok] in *.
  - apply same, ev_ios_bb_input, Ho.
  - apply same, ev_ios_bb_tick.
  - exists (bb <| b_ctl := c |>). split_and!; [by apply set_ctl_wf|done|apply ev_ios_bb_changed].
  - exists (bb <| b_ctl := c |>). split_and!; [by apply set_ctl_wf|done|apply ev_ios_bb_operator_changed].
  - apply same, ev_ios_bb_incoming_call.
  - apply same, ev_ios_bb_remote_answer.
  - apply same, ev_ios_bb_remote_hangup.
  - apply same, ev_ios_bb_incoming_sms.
  - apply same, ev_ios_bb_data_input.
  - apply same. ev.
  - apply same. ev.
  - done.
Qed.

Lemma op_reset_dec o : {o = OpReset} + {o <> OpReset}.
Proof. destruct o; (by left) || (by right). Qed.

Lemma run_op_wf o bb : op_ok o -> bb_wf bb -> bb_wf (run_op bb o).
Proof.
  intros Ho W. destruct (op_reset_dec o) as [->|Hr].
  - apply reset_wf; apply W.
  - destruct (run_op_evolves o bb Ho Hr W) as (a & Wa & _ & E). exact (ev_wf _ _ (E Wa)).
Qed.

Lemma run_op_sim o bb :
  op_ok o -> bb_wf bb -> blocked bb.(b_sim) ->
  let s := bb.(b_sim) in let s' := (run_op bb o).(b_sim) in
  blocked s' /\ s'.(pin_on) = s.(pin_on) /\ s'.(pin) = s.(pin) /\ s'.(puk) = s.(puk).
Proof.
  intros Ho W B. cbv zeta. destruct (op_reset_dec o) as [->|Hr]; [split_and!; first [apply B|done]|].
  destruct (run_op_evolves o bb Ho Hr W) as (a & Wa & S & E).
  destruct (ev_sim _ _ (E Wa)) as (H1 & H2 & H3). rewrite S in *. destruct B as [B1 B2].
  destruct (H3 B1 B2) as (? & ? & ? & ? & ?). unfold blocked. auto 10.
Qed.

(** ** Theorems *)

(** C1. Memory safety of the core as a whole: from any state within bounds
    (a reset establishes them, [reset_wf]), whatever sequence of octets, ticks,
    control changes, network events and resets the device performs, every
    buffer stays within its size, the transmit queue stays a sequence of whole
    records, the window holds at most seven packets, line buffers keep their
    terminator, the tries counters stay in range, and every channel number kept
    for later is one of the sixteen. *)
Theorem core_bounds ops bb :
  Forall op_ok ops -> bb_wf bb -> bb_wf (fold_left run_op ops bb).
Proof.
  intros H. revert bb. induction H as [|o ops Ho _ IH]; intros bb W; simpl; [done|].
  by apply IH, run_op_wf.
Qed.

(** C3. A blocked card stays blocked: once both the PIN's and the PUK's tries
    are used up, no sequence of events, a modem reset included, gives a try
    back, changes the PIN or the PUK or unlocks the card; while the card is in, no
    call service is possible and the modem never registers. *)
Theorem blocked_for_good ops bb :
  Forall op_ok ops -> bb_wf bb -> blocked bb.(b_sim) ->
  let bb' := fold_left run_op ops bb in
  blocked bb'.(b_sim) /\ bb'.(b_sim).(pin) = bb.(b_sim).(pin) /\
  bb'.(b_sim).(puk) = bb.(b_sim).(puk) /\ bb'.(b_sim).(pin_on) = bb.(b_sim).(pin_on) /\
  (bb'.(b_ctl).(sim_present) = true ->
   sim_locked bb' = true /\ service_ok bb' = false /\ reg_stat bb' <> 1).
Proof.
  intros H. revert bb. induction H as [|o ops Ho _ IH]; intros bb W B; cbv zeta.
  - simpl. split_and!; try done; try apply B. intros P. destruct B as [B _].
    assert (L : sim_locked bb = true) by (unfold sim_locked; by rewrite P, B).
    unfold service_ok, reg_stat. rewrite L, andb_false_r, orb_true_r. by destruct (negb _).
  - destruct (run_op_sim o bb Ho W B) as (B' & E1 & E2 & E3). cbv zeta in *.
    destruct (IH (run_op bb o)) as (H1 & H2 & H3 & H4 & H5); [by apply run_op_wf|done|].
    cbv zeta in *. cbn [fold_left]. split_and!; try done; congruence.
Qed.

Definition ex_blocked : IosBbCore :=
  ex_core <| b_sim; pin_left := 0 |> <| b_sim; puk_left := 0 |>.

(** The right PUK, a reset and a PIN change on the blocked card. *)
Definition ex_ops : list op :=
  [OpInput (str "AT+CPIN=" ++ dq ++ str "12345678" ++ dq ++ str ",1234" ++ [13]); OpTick 2000; OpReset;
   OpInput (str "AT+CPWD=SC,1234,4321" ++ [13]); OpIncomingCall (str "5551234")].

Lemma ex_ops_ok : Forall op_ok ex_ops.
Proof. repeat constructor; by vm_compute. Qed.

Lemma ex_core_wf : bb_wf ex_core.
Proof. apply reset_wf; [constructor|]; by vm_compute. Qed.

Lemma ex_blocked_wf : bb_wf ex_blocked.
Proof.
  destruct ex_core_wf. destruct w_sim. constructor; try assumption.
  constructor; try assumption; by vm_compute.
Qed.

Lemma core_bounds_witness : bb_wf (fold_left run_op ex_ops ex_core).
Proof. apply (core_bounds ex_ops ex_core ex_ops_ok ex_core_wf). Defined.

Lemma blocked_for_good_witness :
  let bb' := fold_left run_op ex_ops ex_blocked in
  blocked bb'.(b_sim) /\ reg_stat bb' <> 1.
Proof.
  destruct (blocked_for_good ex_ops ex_blocked ex_ops_ok ex_blocked_wf (conj eq_refl eq_refl))
    as (H1 & _ & _ & _ & H2).
  split; [exact H1|]. apply H2. vm_compute. reflexivity.
Defined.
