(* ===== verification/BbCallFacts.v ===== *)
(** * Facts about calls

    What the call commands do to the call table, as a reference function on the
    list of slots. *)

From Stdlib Require Import ZArith Lia String.
From stdpp Require Import base numbers list.
From S2P Require Import Prelude CLib BbState BbTx BbPdu BbSim BbCalls BbReg BbSms BbSimCmd BbGps BbAt BbRx BbTick.
From S2P Require Import BbTxFacts.
Local Open Scope Z_scope.

Definition table (bb : IosBbCore) : list IosBbCall := bb.(b_call).(calls).

(** ** Elementary changes *)

Definition released (c : IosBbCall) : IosBbCall :=
  c <| c_stat := IOS_BB_CALL_RELEASED |> <| c_next_stat := -1 |> <| c_due_ms := 0 |> <| c_used := false |>.

Definition progressed (stat : Z) (c : IosBbCall) : IosBbCall :=
  c <| c_stat := stat |> <| c_next_stat := -1 |> <| c_due_ms := 0 |>.

Lemma emit_xcallstat_call id stat bb : b_call (emit_xcallstat id stat bb) = b_call bb.
Proof. unfold emit_xcallstat. destruct (is_open _ _); [apply at_line_call|done]. Qed.

Lemma call_release_table i bb : table (call_release i bb) = alter released i (table bb).
Proof.
  unfold call_release, table. cbv zeta. destruct (_ && _ && _); simpl;
    rewrite ?at_line_call, emit_xcallstat_call; simpl; by rewrite alter_alter.
Qed.

Lemma call_progress_table i stat bb : table (call_progress i stat bb) = alter (progressed stat) i (table bb).
Proof.
  unfold call_progress, table. cbv zeta. rewrite emit_xcallstat_call. simpl.
  destruct (_ && _ && _ && _); by rewrite ?at_line_call.
Qed.

(** A loop over the slots that changes each slot on its own. *)
Lemma for_each_table n (body : nat -> IosBbCore -> IosBbCore) (h : nat -> IosBbCall -> IosBbCall) bb j :
  (forall i s, table (body i s) = alter (h i) i (table s)) ->
  table (for_each n body bb) !! j = if Nat.ltb j n then h j <$> table bb !! j else table bb !! j.
Proof.
  intros H. unfold for_each.
  assert (G : forall k m s, table (fold_left (fun s i => body i s) (seq k m) s) !! j =
    if Nat.leb k j && Nat.ltb j (k + m) then h j <$> table s !! j else table s !! j).
  { intros k m. revert k. induction m as [|m IH]; intros k s; simpl.
    - destruct (Nat.leb_spec k j), (Nat.ltb_spec j (k + 0)); simpl; done || lia.
    - rewrite IH, H.
      destruct (Nat.leb_spec (S k) j), (Nat.ltb_spec j (S k + m)), (Nat.leb_spec k j),
        (Nat.ltb_spec j (k + S m)); simpl; try lia; try (rewrite list_lookup_alter_ne by lia; done).
      assert (k = j) as -> by lia. by rewrite list_lookup_alter_eq. }
  rewrite G. by destruct (Nat.leb_spec 0 j); [|lia].
Qed.

(** ** The reference *)

Definition when (p : IosBbCall -> bool) (f : IosBbCall -> IosBbCall) (c : IosBbCall) : IosBbCall :=
  if p c then f c else c.

Definition is_ringing : IosBbCall -> bool := stat_in [IOS_BB_CALL_INCOMING; IOS_BB_CALL_WAITING].

(** Active and held calls change places. *)
Definition swapped (c : IosBbCall) : IosBbCall :=
  if stat_in [IOS_BB_CALL_ACTIVE] c then progressed IOS_BB_CALL_HELD c
  else when (stat_in [IOS_BB_CALL_HELD]) (progressed IOS_BB_CALL_ACTIVE) c.

(** Call [i] is answered and the active calls are held. *)
Definition answered (i j : nat) (c : IosBbCall) : IosBbCall :=
  if Nat.eqb j i then progressed IOS_BB_CALL_ACTIVE c
  else when (stat_in [IOS_BB_CALL_ACTIVE]) (progressed IOS_BB_CALL_HELD) c.

(** 3GPP TS 22.030 "hold" operations on the slots: what +CHLD=[what] does to
    slot [j], given the first ringing slot and the slot the identifier names. *)
Definition chld_ref (what : bytes) (ring byid : option nat) (j : nat) : IosBbCall -> IosBbCall :=
  match what with
  | 48 :: _ => when (stat_in [IOS_BB_CALL_HELD; IOS_BB_CALL_INCOMING; IOS_BB_CALL_WAITING]) released
  | 49 :: [] => when (stat_in [IOS_BB_CALL_ACTIVE; IOS_BB_CALL_DIALING; IOS_BB_CALL_ALERTING]) released
  | 49 :: _ => if decide (byid = Some j) then released else id
  | 50 :: _ => match ring with Some i => answered i j | None => swapped end
  | 51 :: _ => when (stat_in [IOS_BB_CALL_HELD]) (progressed IOS_BB_CALL_ACTIVE)
  | _ => id
  end.

Lemma alter_when (p : IosBbCall -> bool) f i (l : list IosBbCall) :
  (if p (default call0 (l !! i)) then alter f i l else l) = alter (when p f) i l.
Proof.
  revert i. induction l as [|x l IH]; intros [|i]; try (simpl; by destruct (p call0)).
  - simpl. unfold when. by destruct (p x).
  - change (alter (when p f) (S i) (x :: l)) with (x :: alter (when p f) i l). rewrite <- IH.
    change ((x :: l) !! S i) with (l !! i). by destruct (p _).
Qed.

Lemma table_if (b : bool) x y : table (if b then x else y) = if b then table x else table y.
Proof. by destruct b. Qed.

Lemma at_ok_call ch bb : b_call (at_ok ch bb) = b_call bb.
Proof. apply at_line_call. Qed.

Lemma release_where_table l bb j :
  table (release_where l bb) !! j =
  if Nat.ltb j IOS_BB_MAX_CALLS then when (stat_in l) released <$> table bb !! j else table bb !! j.
Proof.
  apply (for_each_table _ _ (fun _ => when (stat_in l) released)). intros i s.
  rewrite table_if, call_release_table. apply (alter_when (stat_in l)).
Qed.

Lemma release_all_table bb j :
  table (release_all bb) !! j =
  if Nat.ltb j IOS_BB_MAX_CALLS then when c_used released <$> table bb !! j else table bb !! j.
Proof.
  apply (for_each_table _ _ (fun _ => when c_used released)). intros i s.
  rewrite table_if, call_release_table. apply (alter_when c_used).
Qed.

Lemma join_held_table bb j :
  table (join_held bb) !! j =
  if Nat.ltb j IOS_BB_MAX_CALLS
  then when (stat_in [IOS_BB_CALL_HELD]) (progressed IOS_BB_CALL_ACTIVE) <$> table bb !! j else table bb !! j.
Proof.
  apply (for_each_table _ _ (fun _ => when (stat_in [IOS_BB_CALL_HELD]) (progressed IOS_BB_CALL_ACTIVE))).
  intros i s. rewrite table_if, call_progress_table. apply (alter_when (stat_in [IOS_BB_CALL_HELD])).
Qed.

Lemma swap_calls_table bb j :
  table (swap_calls bb) !! j =
  if Nat.ltb j IOS_BB_MAX_CALLS then swapped <$> table bb !! j else table bb !! j.
Proof.
  apply (for_each_table _ _ (fun _ => swapped)). intros i s.
  rewrite !table_if, !call_progress_table. unfold get_call. change (calls (b_call s)) with (table s).
  generalize (table s). clear s. intros l. revert i.
  induction l as [|x l IH]; intros [|i]; try done.
  - simpl. unfold swapped, when. by destruct (stat_in [IOS_BB_CALL_ACTIVE] x), (stat_in [IOS_BB_CALL_HELD] x).
  - change (alter swapped (S i) (x :: l)) with (x :: alter swapped i l). rewrite <- IH.
    change ((x :: l) !! S i) with (l !! i).
    by split_ifs.
Qed.

Lemma hold_others_table k bb j :
  table (hold_others k bb) !! j =
  if Nat.ltb j IOS_BB_MAX_CALLS
  then (if Nat.eqb j k then id
        else when (stat_in [IOS_BB_CALL_ACTIVE]) (progressed IOS_BB_CALL_HELD)) <$> table bb !! j
  else table bb !! j.
Proof.
  apply (for_each_table _ _ (fun j => if Nat.eqb j k then id
    else when (stat_in [IOS_BB_CALL_ACTIVE]) (progressed IOS_BB_CALL_HELD))). intros i s.
  rewrite table_if, call_progress_table. destruct (Nat.eqb i k); simpl.
  - generalize (table s). intros l. revert i. induction l as [|x l IH]; intros [|i]; try done.
    exact (f_equal (cons x) (IH i)).
  - apply (alter_when (stat_in [IOS_BB_CALL_ACTIVE])).
Qed.

(** ** Theorems *)

(** Only the first four slots exist. *)
Definition four (bb : IosBbCore) : Prop := length (table bb) = IOS_BB_MAX_CALLS.

Lemma slot_ltb bb j c : four bb -> table bb !! j = Some c -> Nat.ltb j IOS_BB_MAX_CALLS = true.
Proof. unfold four. intros H E. apply lookup_lt_Some in E. apply Nat.ltb_lt. lia. Qed.

Lemma chld_at_ok_call_by_id ch id bb : call_by_id id (at_ok ch bb) = call_by_id id bb.
Proof. unfold call_by_id, get_call. by rewrite at_ok_call. Qed.

Lemma chld_at_ok_ringing ch bb : first_ringing (at_ok ch bb) = first_ringing bb.
Proof. unfold first_ringing, get_call. by rewrite at_ok_call. Qed.

(** The characters +CHLD distinguishes. *)
Lemma chld_cases (w : Z) :
  w = 48 \/ w = 49 \/ w = 50 \/ w = 51 \/
  forall A (a b c d e : A), match w with 48 => a | 49 => b | 50 => c | 51 => d | _ => e end = e.
Proof.
  destruct w as [|p|p]; auto 10.
  do 6 (destruct p as [p|p|]; auto 10).
Qed.

Lemma chld_table ch c0 arg bb j c :
  four bb -> table bb !! j = Some c ->
  let what := fit 8 (c0 :: arg) in
  table (chld_command ch (Some (c0 :: arg)) bb) !! j =
  Some (chld_ref what (first_ringing bb) (call_by_id (atoi (tail what)) bb) j c).
Proof.
  intros H4 Hj. pose proof (slot_ltb _ _ _ H4 Hj) as Hl. cbv zeta.
  assert (Ht : table (at_ok ch bb) = table bb) by (unfold table; by rewrite at_ok_call).
  unfold chld_command, chld_ref. cbv zeta.
  destruct (fit 8 (c0 :: arg)) as [|w rest]; [by rewrite Ht|].
  rewrite chld_at_ok_ringing, <- Ht in *. cbn [tail].
  destruct (chld_cases w) as [->|[->|[->|[->|E]]]].
  - by rewrite release_where_table, Hl, Hj.
  - destruct rest as [|r rest]; [by rewrite release_where_table, Hl, Hj|].
    rewrite chld_at_ok_call_by_id. destruct (call_by_id _ bb) as [i|]; [|by destruct (decide _)].
    rewrite call_release_table. destruct (decide (Some i = Some j)) as [E|E].
    + simplify_eq. by rewrite list_lookup_alter_eq, Hj.
    + rewrite list_lookup_alter_ne by congruence. done.
  - destruct (first_ringing bb) as [i|]; [|by rewrite swap_calls_table, Hl, Hj].
    rewrite call_progress_table. unfold answered. destruct (Nat.eqb_spec j i) as [->|Hn].
    + rewrite list_lookup_alter_eq, hold_others_table, Hl, Nat.eqb_refl, Hj. done.
    + rewrite list_lookup_alter_ne, hold_others_table, Hl, Hj by done.
      by rewrite (proj2 (Nat.eqb_neq j i) Hn).
  - by rewrite join_held_table, Hl, Hj.
  - by rewrite !E.
Qed.

(** C11. +CHLD implements the call-hold operations: every slot ends as the
    reference says.  0 releases held and ringing calls; 1 releases the active
    and outgoing ones; 1<id> releases the call of that identifier only; 2
    answers a ringing call and holds the active ones or, when nothing rings, swaps
    active and held calls; 3 joins the held calls; any other argument changes no
    call. *)
Theorem chld_refines ch c0 arg bb j c :
  four bb -> table bb !! j = Some c ->
  let what := fit 8 (c0 :: arg) in
  table (chld_command ch (Some (c0 :: arg)) bb) !! j =
  Some (chld_ref what (first_ringing bb) (call_by_id (atoi (tail what)) bb) j c).
Proof. apply chld_table. Qed.

Definition ex_call (id stat : Z) : IosBbCall := mkCall true true id stat (-1) 0 0 false (str "5551234").

(** One active, one held and one waiting call. *)
Definition ex_three : IosBbCore :=
  ex_core <| b_call; calls := [ex_call 1 IOS_BB_CALL_ACTIVE; ex_call 2 IOS_BB_CALL_HELD;
                               ex_call 3 IOS_BB_CALL_WAITING; call0] |>.

Lemma chld_refines_witness :
  table (chld_command 1 (Some (str "2")) ex_three) !! 0%nat =
    Some (progressed IOS_BB_CALL_HELD (ex_call 1 IOS_BB_CALL_ACTIVE)) /\
  table (chld_command 1 (Some (str "13")) ex_three) !! 2%nat =
    Some (released (ex_call 3 IOS_BB_CALL_WAITING)).
Proof.
  split.
  - exact (chld_refines 1 50 [] ex_three 0 (ex_call 1 IOS_BB_CALL_ACTIVE) eq_refl eq_refl).
  - exact (chld_refines 1 49 [51] ex_three 2 (ex_call 3 IOS_BB_CALL_WAITING) eq_refl eq_refl).
Defined.

(** Answering a waiting call with +CHLD=2 leaves exactly one active call:
    the first ringing slot becomes active, and no other slot in use is active. *)
Theorem chld_answer_one_active ch arg bb i j c :
  four bb -> first_ringing bb = Some i -> table bb !! j = Some c ->
  exists c', table (chld_command ch (Some (50 :: arg)) bb) !! j = Some c' /\
    c'.(c_used) = c.(c_used) /\ c'.(c_id) = c.(c_id) /\
    (j = i -> stat_in [IOS_BB_CALL_ACTIVE] c' = true) /\
    (j <> i -> stat_in [IOS_BB_CALL_ACTIVE] c' = false).
Proof.
  intros H4 Hr Hj. pose proof (chld_table ch 50 arg bb j c H4 Hj) as E. cbv zeta in E.
  rewrite Hr in E. eexists. split; [exact E|].
  change (fit 8 (50 :: arg)) with (50 :: ztake 6 arg). cbn [chld_ref]. unfold answered.
  apply first_from_spec in Hr as (_ & Hi & _).
  destruct (Nat.eqb_spec j i) as [->|Hn].
  - unfold get_call in Hi. change (calls (b_call bb)) with (table bb) in Hi. rewrite Hj in Hi.
    split_and!; try done. intros _. unfold stat_in in *. apply andb_true_iff in Hi as [Hi _].
    simpl in *. by rewrite Hi.
  - unfold when. destruct (stat_in _ c) eqn:A; split_and!; try done; intros _.
    unfold stat_in. simpl. apply andb_false_r.
Qed.

Lemma chld_answer_one_active_witness :
  exists c', table (chld_command 1 (Some (str "2")) ex_three) !! 2%nat = Some c' /\
    c'.(c_used) = true /\ c'.(c_id) = 3 /\
    (2%nat = 2%nat -> stat_in [IOS_BB_CALL_ACTIVE] c' = true) /\
    (2%nat <> 2%nat -> stat_in [IOS_BB_CALL_ACTIVE] c' = false).
Proof.
  exact (chld_answer_one_active 1 [] ex_three 2 2 (ex_call 3 IOS_BB_CALL_WAITING)
           eq_refl eq_refl eq_refl).
Defined.

(** ** Radio off *)

Lemma call_release_reg i bb : b_reg (call_release i bb) = b_reg bb.
Proof.
  unfold call_release, emit_xcallstat. cbv zeta. simpl.
  destruct (_ && _ && _); simpl; rewrite ?at_line_reg; destruct (is_open _ _); by rewrite ?at_line_reg.
Qed.

Lemma release_all_reg bb : b_reg (release_all bb) = b_reg bb.
Proof.
  unfold release_all. apply (for_each_ind (fun s => b_reg s = b_reg bb)); [done|].
  intros i s _ Hs. destruct (c_used _); [by rewrite call_release_reg|done].
Qed.

Lemma creg_zero_frame bb :
  b_call (creg_zero bb) = b_call bb /\ cfun (b_reg (creg_zero bb)) = cfun (b_reg bb).
Proof.
  unfold creg_zero. destruct (_ && _); [|done]. simpl. by rewrite at_line_call, at_line_reg.
Qed.

(** Turning the radio off with +CFUN=0 or +CFUN=4 drops every call,
    cancels a pending registration report and leaves the modem unregistered and
    without service. *)
Theorem radio_off_drops_calls ch arg bb :
  four bb -> (atoi arg = 0 \/ atoi arg = 4) -> bb.(b_reg).(cfun) <> atoi arg ->
  let bb' := at_cfun ch arg bb in
  (forall j c, table bb' !! j = Some c -> c.(c_used) = false) /\
  bb'.(b_reg).(cfun) = atoi arg /\ bb'.(b_reg).(reg_step) = 0 /\
  reg_stat bb' = 0 /\ service_ok bb' = false.
Proof.
  intros H4 Ha Hn. cbv zeta.
  set (b1 := (at_ok ch bb) <| b_reg; cfun := atoi arg |>).
  assert (E : at_cfun ch arg bb = (creg_zero (release_all b1)) <| b_reg; reg_step := 0 |>).
  { unfold at_cfun. cbv zeta. unfold at_ok at 1. rewrite at_line_reg.
    rewrite (proj2 (Z.eqb_neq (atoi arg) (cfun (b_reg bb)))) by congruence.
    unfold b1. destruct Ha as [Ea|Ea]; rewrite Ea; reflexivity. }
  assert (F : cfun (b_reg (at_cfun ch arg bb)) = atoi arg).
  { rewrite E. change (cfun (b_reg (creg_zero (release_all b1))) = atoi arg).
    rewrite (proj2 (creg_zero_frame _)), release_all_reg. reflexivity. }
  split_and!.
  - intros j c Hj. rewrite E in Hj.
    change (table (creg_zero (release_all b1)) !! j = Some c) in Hj.
    unfold table in Hj. rewrite (proj1 (creg_zero_frame _)) in Hj.
    change (table (release_all b1) !! j = Some c) in Hj. rewrite release_all_table in Hj.
    assert (T : table b1 = table bb) by (unfold table, b1; simpl; by rewrite at_ok_call).
    rewrite T in Hj. destruct (table bb !! j) as [c'|] eqn:Ej.
    + rewrite (slot_ltb bb j c' H4 Ej) in Hj. simpl in Hj. injection Hj as <-.
      unfold when. by destruct (c_used c') eqn:U.
    + by destruct (Nat.ltb _ _).
  - exact F.
  - rewrite E. reflexivity.
  - unfold reg_stat. rewrite F. by destruct Ha as [-> | ->].
  - unfold service_ok, radio_ok. rewrite F. by destruct Ha as [-> | ->].
Qed.

Lemma radio_off_drops_calls_witness :
  let bb' := at_cfun 1 (str "4") ex_three in
  (forall j c, table bb' !! j = Some c -> c.(c_used) = false) /\
  bb'.(b_reg).(cfun) = 4 /\ bb'.(b_reg).(reg_step) = 0 /\ reg_stat bb' = 0 /\ service_ok bb' = false.
Proof.
  apply (radio_off_drops_calls 1 (str "4") ex_three); [reflexivity|right; reflexivity|discriminate].
Defined.

(** ** New calls *)

Lemma free_slot_lookup bb i :
  free_slot bb = Some i -> four bb -> exists c, table bb !! i = Some c /\ c.(c_used) = false.
Proof.
  intros H H4. apply first_from_spec in H as ([_ Hi] & Hu & _). unfold four in H4.
  destruct (table bb !! i) as [c|] eqn:E; [|apply lookup_ge_None in E; simpl in Hi; lia].
  exists c. split; [done|]. unfold get_call in Hu. change (calls (b_call bb)) with (table bb) in Hu.
  rewrite E in Hu. by apply negb_true_iff in Hu.
Qed.

Lemma insert_as_alter (l : list IosBbCall) i c : alter (fun _ => c) i l = <[i := c]> l.
Proof. revert i. induction l as [|x l IH]; intros [|i]; try done. exact (f_equal (cons x) (IH i)). Qed.

(** The slot of an incoming call. *)
Definition incoming (bb : IosBbCore) (number : bytes) : IosBbCall :=
  mkCall true true bb.(b_call).(next_call_id) IOS_BB_CALL_INCOMING (-2)
         (bb.(b_env).(now_ms) + 3000) 1 false (fit 32 (intl_number number)).

Lemma call_ring_urcs_table i bb :
  table (call_ring_urcs i bb) =
  alter (fun c => c <| c_rings := 1 |> <| c_next_stat := -2 |>
                    <| c_due_ms := bb.(b_env).(now_ms) + 3000 |>) i (table bb).
Proof.
  assert (X : forall b, tx_only bb b ->
    table (upd_call i (fun c => c <| c_rings := 1 |> <| c_next_stat := -2 |>
                               <| c_due_ms := b.(b_env).(now_ms) + 3000 |>) b) =
    alter (fun c => c <| c_rings := 1 |> <| c_next_stat := -2 |>
                      <| c_due_ms := bb.(b_env).(now_ms) + 3000 |>) i (table bb)).
  { intros b H. unfold table. simpl. by rewrite (tx_call _ _ H), (tx_now _ _ H). }
  unfold call_ring_urcs. cbv zeta. apply X. etransitivity; [|apply at_line_tx].
  match goal with |- tx_only _ (if _ then at_line _ _ ?y else _) => assert (tx_only bb y) as H end.
  - etransitivity; [|apply at_line_tx]. unfold emit_xcallstat.
    destruct (is_open _ _); [apply at_line_tx|reflexivity].
  - destruct (existsb _ _); [|done]. etransitivity; [exact H|apply at_line_tx].
Qed.

(** An incoming call is refused without any effect when the phone has not
    opened its call channel, there is no service, the number is empty or no
    slot is free; otherwise the first free slot rings under a fresh identifier,
    its next ring due three seconds later, and no other slot changes. *)
Theorem incoming_call_spec number bb :
  four bb ->
  let ready := is_open bb.(b_at).(call_ch) bb && service_ok bb && negb (bool_decide (number = [])) in
  match free_slot bb with
  | Some i =>
      if ready then
        (ios_bb_incoming_call number bb).1 = true /\
        table (ios_bb_incoming_call number bb).2 = <[i := incoming bb number]> (table bb) /\
        (exists c, table bb !! i = Some c /\ c.(c_used) = false)
      else ios_bb_incoming_call number bb = (false, bb)
  | None => ios_bb_incoming_call number bb = (false, bb)
  end.
Proof.
  intros H4. cbv zeta. unfold ios_bb_incoming_call.
  assert (N : match number with [] => true | _ :: _ => false end = bool_decide (number = []))
    by (by destruct number).
  rewrite N. unfold call_new. destruct (is_open _ _), (service_ok bb), (bool_decide _);
    cbn [negb orb andb]; destruct (free_slot bb) as [i|] eqn:F; try done.
  split_and!; [done| |by apply free_slot_lookup]. cbn [snd].
  rewrite call_ring_urcs_table. unfold table at 1. simpl.
  rewrite alter_alter. apply (insert_as_alter _ i (incoming bb number)).
Qed.

(** The call channel is open; the card is locked, then unlocked. *)
Definition ex_locked : IosBbCore := ex_core <| b_ch ::= alter (fun c => c <| ch_open := true |>) 1%nat |>.
Definition ex_ready : IosBbCore := ex_locked <| b_sim; pin_ok := true |>.

Lemma incoming_call_spec_witness :
  let bb := ex_ready in
  (ios_bb_incoming_call (str "5551234") bb).1 = true /\
  table (ios_bb_incoming_call (str "5551234") bb).2 = <[0%nat := incoming bb (str "5551234")]> (table bb) /\
  (exists c, table bb !! 0%nat = Some c /\ c.(c_used) = false).
Proof. exact (incoming_call_spec (str "5551234") ex_ready eq_refl). Defined.

(** ** Dialling *)

Lemma zlen_dial_number s n : 0 <= n <= 31 -> zlen (dial_number s n) <= 31 - n.
Proof.
  revert n. induction s as [|c s IH]; intros n Hn; simpl; [change (zlen []) with 0; lia|].
  destruct (n <? 31) eqn:L; [|change (zlen []) with 0; lia]. apply Z.ltb_lt in L.
  destruct (c =? 59); [change (zlen []) with 0; lia|]. destruct (negb _).
  - rewrite zlen_cons. specialize (IH (n + 1)). lia.
  - by apply IH.
Qed.

(** The slot of an outgoing call. *)
Definition outgoing (bb : IosBbCore) (number : bytes) : IosBbCall :=
  mkCall true false bb.(b_call).(next_call_id) IOS_BB_CALL_DIALING IOS_BB_CALL_ALERTING
         (bb.(b_env).(now_ms) + 2000) 0 (ios_bb_is_emergency_number number) number.

(** The rest of [dial_command] once a slot is taken. *)
Lemma dial_slot ch n bb i :
  zlen n <= 31 ->
  let em := ios_bb_is_emergency_number n in
  let c := mkCall true false bb.(b_call).(next_call_id) IOS_BB_CALL_DIALING (-1) 0 0 false (fit 32 n) in
  let bb1 := (upd_call i (fun _ => c) bb) <| b_call; next_call_id ::= fun n => n + 1 |> in
  let bb2 := bb1 <| b_call; last_dialed := fit 32 n |> in
  let bb3 := upd_call i (fun c => c <| c_emergency := em |>) bb2 in
  let bb4 := at_ok ch bb3 in
  let bb5 := if em && bb4.(b_at).(xemc_on)
             then at_line bb4.(b_at).(call_ch) (str "+XEMC: 1") bb4 else bb4 in
  let bb6 := emit_xcallstat (get_call i bb5).(c_id) IOS_BB_CALL_DIALING bb5 in
  table (upd_call i (fun c => c <| c_next_stat := IOS_BB_CALL_ALERTING |>
                                <| c_due_ms := bb6.(b_env).(now_ms) + 2000 |>) bb6) =
  <[i := outgoing bb n]> (table bb).
Proof.
  intros Hz. cbv zeta. set (em := ios_bb_is_emergency_number n).
  set (bb3 := upd_call i (fun c => c <| c_emergency := em |>) _).
  assert (X : forall b, tx_only bb3 b ->
    table (upd_call i (fun c => c <| c_next_stat := IOS_BB_CALL_ALERTING |>
                                  <| c_due_ms := b.(b_env).(now_ms) + 2000 |>) b) =
    <[i := outgoing bb n]> (table bb)).
  { intros b H. unfold table. simpl. rewrite (tx_call _ _ H), (tx_now _ _ H). simpl.
    rewrite !alter_alter. rewrite fit_id by lia. apply (insert_as_alter _ i (outgoing bb n)). }
  apply X. unfold emit_xcallstat.
  match goal with |- tx_only _ (if _ then at_line _ _ ?y else _) => assert (tx_only bb3 y) as H end.
  - destruct (_ && _); [etransitivity; [|apply at_line_tx]|]; apply at_line_tx.
  - destruct (is_open _ _); [|done]. etransitivity; [exact H|apply at_line_tx].
Qed.

(** A dial command is answered ERROR with no other effect when the number
    is empty, the call channel is closed, the radio is not in service, every
    slot is taken, or the card is locked and the number is not an emergency one;
    otherwise the first free slot dials it under a fresh identifier, alerting
    due two seconds later.  A locked card thus lets emergency calls out and no
    others. *)
Theorem dial_spec ch num bb :
  four bb ->
  let number := dial_number num 0 in
  let allowed := radio_ok bb && (ios_bb_is_emergency_number number || negb (sim_locked bb)) in
  let ready := negb (bool_decide (number = [])) && is_open bb.(b_at).(call_ch) bb && allowed in
  match free_slot bb with
  | Some i =>
      if ready then
        table (dial_command ch num bb) = <[i := outgoing bb number]> (table bb) /\
        (exists c, table bb !! i = Some c /\ c.(c_used) = false)
      else dial_command ch num bb = at_error ch bb
  | None => dial_command ch num bb = at_error ch bb
  end.
Proof.
  intros H4. cbv zeta. unfold dial_command. cbv zeta.
  pose proof (zlen_dial_number num 0) as Hz. revert Hz. generalize (dial_number num 0). intros n Hz.
  assert (N : match n with [] => true | _ :: _ => false end = bool_decide (n = [])) by (by destruct n).
  rewrite N. unfold service_ok, call_new. destruct (free_slot bb) as [i|] eqn:F; cbv beta iota zeta.
  - assert (L : zlen n <= 31) by lia. pose proof (dial_slot ch n bb i L) as S. cbv zeta in S.
    match type of S with table ?t = _ => revert S; generalize t end. intros t S.
    pose proof (free_slot_lookup bb i F H4).
    by destruct (is_open _ _), (radio_ok bb), (sim_locked bb), (ios_bb_is_emergency_number n),
      (bool_decide (n = [])).
  - by destruct (_ || _).
Qed.

Lemma dial_spec_witness :
  let bb := ex_locked in
  sim_locked bb = true /\
  table (dial_command 1 (str "112;") bb) = <[0%nat := outgoing bb (str "112")]> (table bb) /\
  dial_command 1 (str "5551234;") bb = at_error 1 bb.
Proof.
  split; [reflexivity|]. split.
  - exact (proj1 (dial_spec 1 (str "112;") ex_locked eq_refl)).
  - exact (dial_spec 1 (str "5551234;") ex_locked eq_refl).
Defined.
