(* ===== verification/BbSimFacts.v ===== *)
(** * Facts about the SIM card

    The card file is read back as it was written, and the tries counters bound
    the number of guesses. *)

From Stdlib Require Import ZArith Lia String.
From stdpp Require Import base numbers list.
From S2P Require Import Prelude CLib BbState BbTx BbSim BbCalls BbReg BbSimCmd.
From S2P Require Import BbTick BbTxFacts BbInv.
Local Open Scope Z_scope.

(** ** The card file *)

Lemma code_ok_spec s min :
  sim_code_ok s min = true <-> min <= zlen s <= 8 /\ all_digits s = true.
Proof. unfold sim_code_ok. rewrite !andb_true_iff, !Z.leb_le. tauto. Qed.

Lemma digit_not_space c : is_digit c = true -> is_space c = false.
Proof. rewrite is_digit_spec. unfold is_space. lia. Qed.

(** A [%s] conversion takes a run of digits up to the white space after it. *)
Lemma read_word_digits w p c rest :
  all_digits p = true -> (length p <= w)%nat -> is_space c = true ->
  read_word w (p ++ c :: rest) = (p, c :: rest).
Proof.
  intros Hp Hw Hc. revert w Hw. induction p as [|d p IH]; intros [|w] Hw; simpl in *; try lia; try done.
  - by rewrite Hc.
  - apply andb_true_iff in Hp as [Hd Hp]. by rewrite (digit_not_space d Hd), (IH Hp w) by lia.
Qed.

Lemma scan_s_digits p c rest :
  all_digits p = true -> 1 <= zlen p <= 8 -> is_space c = true ->
  scan_s 15 ([32] ++ p ++ [c] ++ rest) = ScanOk p ([c] ++ rest).
Proof.
  intros Hp Hl Hc. unfold scan_s. destruct p as [|d p]; [unfold zlen in Hl; simpl in Hl; lia|].
  change ([c] ++ rest) with (c :: rest).
  assert (Hs : skip_space ([32] ++ (d :: p) ++ c :: rest) = (d :: p) ++ c :: rest).
  { simpl in *. apply andb_true_iff in Hp as [Hd _]. by rewrite (digit_not_space d Hd). }
  rewrite Hs, read_word_digits; [done|done| |done]. unfold zlen in Hl. lia.
Qed.

(** A [%d] conversion of a small number. *)
Lemma scan_d_small n c rest :
  0 <= n <= 10 -> is_digit c = false -> scan_d ([32] ++ fmt_d n ++ [c] ++ rest) = ScanOk n ([c] ++ rest).
Proof.
  intros Hn Hc.
  assert (Hin : In n [0; 1; 2; 3; 4; 5; 6; 7; 8; 9; 10]) by (simpl; lia).
  unfold scan_d. simpl in Hin.
  repeat (destruct Hin as [<-|Hin]; [simpl; rewrite Hc; reflexivity|]). done.
Qed.

Lemma scan_d_skip s : scan_d (skip_space ([32] ++ s)) = scan_d ([32] ++ s).
Proof.
  unfold scan_d. assert (H : forall s, skip_space (skip_space s) = skip_space s).
  { induction s0 as [|c s0 IH]; [done|]. simpl. destruct (is_space c) eqn:E; [done|].
    simpl. by rewrite E. }
  by rewrite H.
Qed.

(** The first line of the file. *)
Lemma scan_card_text s rest :
  sim_wf s ->
  scan_card (str "sim-pin " ++ fmt_d (b2z s.(pin_on)) ++ [32] ++ s.(pin) ++ [32] ++ s.(puk) ++ [32] ++
             fmt_d s.(pin_left) ++ [32] ++ fmt_d s.(puk_left) ++ [10] ++ rest) =
  ScanOk (mkCardLine (b2z s.(pin_on)) s.(pin) s.(puk) s.(pin_left) s.(puk_left)) ([10] ++ rest).
Proof.
  intros [Hp0 Hk0 Hpin Hpuk _]. apply code_ok_spec in Hpin as [Hp1 Hp2]. apply code_ok_spec in Hpuk as [Hk1 Hk2].
  unfold IOS_BB_PIN_TRIES, IOS_BB_PUK_TRIES in *. unfold scan_card.
  match goal with |- context [scan_lit _ (str "sim-pin " ++ ?x)] =>
    change (scan_lit (str "sim-pin") (str "sim-pin " ++ x)) with (@ScanOk unit tt ([32] ++ x)) end.
  cbn [scan_bind]. rewrite scan_d_skip.
  rewrite (scan_d_small (b2z (pin_on s))) by (done || by destruct (pin_on s)). cbn [scan_bind].
  rewrite scan_s_digits by (done || lia). cbn [scan_bind].
  rewrite scan_s_digits by (done || lia). cbn [scan_bind].
  rewrite scan_d_small by (done || lia). cbn [scan_bind].
  rewrite scan_d_small by (done || lia). cbn [scan_bind]. done.
Qed.

(** The location line. *)
Lemma read_digit_run_all w p c rest :
  all_digits p = true -> (length p <= w)%nat -> is_digit c = false ->
  read_digit_run w (p ++ c :: rest) = (p, c :: rest).
Proof.
  intros Hp Hw Hc. revert w Hw. induction p as [|d p IH]; intros [|w] Hw; simpl in *; try lia; try done.
  - by rewrite Hc.
  - apply andb_true_iff in Hp as [Hd Hp]. by rewrite Hd, (IH Hp w) by lia.
Qed.

(** The network that a stored one is read back as: its digits after leading
    white space, when there are five of them. *)
Fixpoint digit_head (s : bytes) : bytes :=
  match s with
  | c :: t => if is_digit c then c :: digit_head t else []
  | [] => []
  end.

Definition plmn_back (l : bytes) : bytes :=
  let d := digit_head (skip_space l) in if 5 <=? zlen d then d else [].

Lemma digit_head_all l : all_digits l = true -> digit_head l = l.
Proof.
  induction l as [|c l IH]; [done|]. simpl. intros H. apply andb_true_iff in H as [-> H]. by rewrite IH.
Qed.

Lemma digit_head_run w l : (length l <= w)%nat -> (read_digit_run w (l ++ [10])).1 = digit_head l.
Proof.
  revert w. induction l as [|c l IH]; intros [|w] Hw; simpl in *; try lia; try done.
  destruct (is_digit c); [|done]. rewrite <- (IH w) by lia. by destruct (read_digit_run w (l ++ [10])).
Qed.

Lemma skip_space_end l : skip_space (l ++ [10]) = match skip_space l with [] => [] | _ => skip_space l ++ [10] end.
Proof. induction l as [|c l IH]; [done|]. simpl. by destruct (is_space c). Qed.

Lemma skip_space_length l : (length (skip_space l) <= length l)%nat.
Proof. induction l as [|c l IH]; simpl; [lia|]. destruct (is_space c); simpl; lia. Qed.

Lemma digit_head_length l : (length (digit_head l) <= length l)%nat.
Proof. induction l as [|c l IH]; simpl; [lia|]. destruct (is_digit c); simpl; lia. Qed.

Lemma load_loci_text l s :
  zlen l <= 6 -> s.(loci_plmn) = [] ->
  load_loci ([10] ++ match l with [] => [] | _ :: _ => str "loci " ++ l ++ [10] end) s = s <| loci_plmn := plmn_back l |>.
Proof.
  intros Hl Hs. assert (E0 : s <| loci_plmn := [] |> = s) by (destruct s; simpl in *; by subst).
  destruct l as [|c l]; [exact (eq_sym E0)|]. set (k := c :: l) in *. clearbody k.
  pose proof (skip_space_length k). pose proof (digit_head_length (skip_space k)).
  unfold load_loci, scan_loci. change (scan_lit (str "loci") _) with (@ScanOk unit tt ([32] ++ k ++ [10])).
  cbn [scan_bind]. change (skip_space ([32] ++ k ++ [10])) with (skip_space (k ++ [10])). unfold plmn_back. cbv zeta.
  rewrite skip_space_end. destruct (skip_space k) as [|d t] eqn:E; [exact (eq_sym E0)|]. rewrite <- E in *. clear E.
  unfold scan_digits. pose proof (digit_head_run 6 (skip_space k) ltac:(unfold zlen in *; lia)) as R.
  destruct (read_digit_run 6 (skip_space k ++ [10])) as [x r]. simpl in R. subst x.
  destruct (digit_head (skip_space k)) as [|d' t'] eqn:E; [exact (eq_sym E0)|].
  destruct (5 <=? _); [|done]. by rewrite fit_id by (unfold zlen in *; lia).
Qed.

(** The checks of the first line accept what was written. *)
Lemma load_card_line_ok s s0 :
  sim_wf s ->
  load_card_line (mkCardLine (b2z s.(pin_on)) s.(pin) s.(puk) s.(pin_left) s.(puk_left)) s0 =
  mkSim s.(pin_on) s.(pin) s.(puk) s.(pin_left) s.(puk_left) s0.(sim_file) s0.(pin_ok) s0.(loci_plmn).
Proof.
  intros [Hp0 Hk0 Hpin Hpuk _]. unfold load_card_line, card_line_ok. cbn [cl_pin cl_puk cl_pin_left cl_puk_left cl_on].
  rewrite Hpin, Hpuk. apply code_ok_spec in Hpin as [Hp _]. apply code_ok_spec in Hpuk as [Hk _].
  rewrite !(proj2 (Z.leb_le _ _)) by lia. rewrite !fit_id by lia. by destruct (pin_on s).
Qed.

(** C10. The card file keeps the card: from every state of the card that keeps the
    core's invariant (a PIN of four to eight digits, a PUK of eight, tries in range
    and a last network of at most six octets), with the file writable, loading the
    file [sim_save] wrote, in any later process with any other state, gives back the
    PIN, the PUK, both tries counters, whether the lock is on, and the last network
    if there is none or it has five or six digits; of any other text only its
    leading digits come back, and none if they are fewer than five.  The path and
    the unlocked flag are the process's own. *)
Theorem sim_card_roundtrip bb bb2 :
  sim_wf bb.(b_sim) -> bb.(b_sim).(sim_file) <> [] -> bb.(b_env).(card_writable) = true ->
  bb2.(b_sim).(sim_file) <> [] -> bb2.(b_env).(card_file) = (sim_save bb).(b_env).(card_file) ->
  let stored := bb.(b_sim).(loci_plmn) in
  (sim_load bb2).(b_sim) =
    bb.(b_sim) <| sim_file := bb2.(b_sim).(sim_file) |> <| pin_ok := bb2.(b_sim).(pin_ok) |>
               <| loci_plmn := plmn_back stored |> /\
  (stored = [] \/ 5 <= zlen stored /\ all_digits stored = true -> plmn_back stored = stored).
Proof.
  intros Hc Hf Hw Hf2 E. cbv zeta. split.
  - assert (S : card_file (b_env (sim_save bb)) = Some (card_text (b_sim bb))).
    { unfold sim_save. destruct (sim_file (b_sim bb)); [done|]. by rewrite Hw. }
    rewrite S in E. unfold sim_load. cbv zeta.
    change (sim_file (b_sim (bb2 <| b_sim ::= new_card |>))) with (sim_file (b_sim bb2)).
    change (card_file (b_env (bb2 <| b_sim ::= new_card |>))) with (card_file (b_env bb2)).
    rewrite E. destruct (sim_file (b_sim bb2)) as [|x f] eqn:F; [done|].
    unfold card_text. rewrite (scan_card_text _ _ Hc).
    match goal with |- b_sim (upd b_sim ?g ?b) = _ => change (g (b_sim b) = (b_sim bb)
      <| sim_file := x :: f |> <| pin_ok := pin_ok (b_sim bb2) |> <| loci_plmn := plmn_back (loci_plmn (b_sim bb)) |>) end.
    cbv beta. change (b_sim (bb2 <| b_sim ::= new_card |>)) with (new_card (b_sim bb2)).
    rewrite (load_card_line_ok (b_sim bb) (new_card (b_sim bb2)) Hc).
    rewrite load_loci_text; [|apply Hc|done].
    unfold new_card. rewrite F. by destruct (b_sim bb).
  - intros [->|[Hl Hd]]; [done|]. unfold plmn_back.
    assert (Es : skip_space (loci_plmn (b_sim bb)) = loci_plmn (b_sim bb)).
    { destruct (loci_plmn (b_sim bb)) as [|d l]; [done|]. simpl in *. apply andb_true_iff in Hd as [Hd _].
      by rewrite (digit_not_space d Hd). }
    rewrite Es, digit_head_all by done. cbv zeta. by rewrite (proj2 (Z.leb_le _ _) Hl).
Qed.

Definition ex_saved : IosBbCore := sim_save (ex_core <| b_sim; pin_left := 1 |> <| b_sim; puk_left := 7 |>).

Lemma sim_card_roundtrip_witness :
  let bb2 := ex_saved <| b_sim ::= new_card |> in
  (sim_load bb2).(b_sim) =
  (ex_core <| b_sim; pin_left := 1 |> <| b_sim; puk_left := 7 |>).(b_sim)
    <| sim_file := bb2.(b_sim).(sim_file) |> <| pin_ok := bb2.(b_sim).(pin_ok) |>.
Proof.
  destruct (sim_card_roundtrip (ex_core <| b_sim; pin_left := 1 |> <| b_sim; puk_left := 7 |>) (ex_saved <| b_sim ::= new_card |>))
    as [E P].
  - constructor; by vm_compute.
  - discriminate.
  - reflexivity.
  - discriminate.
  - reflexivity.
  - cbv zeta. rewrite E, P; [reflexivity|]. right. by vm_compute.
Defined.

(** A network stored with three digits only, which +COPS=1,2 can do, is lost. *)
Lemma plmn_short_lost : plmn_back (str "310") = [].
Proof. reflexivity. Qed.

(** ** Guesses *)

(** The code of a +CPIN entry, and whether the entry has the form that unblocks:
    a second field with a new PIN. *)
Definition entered (arg : bytes) : bytes := field (at_fields arg 2).1 0.
Definition puk_form (arg : bytes) : bool :=
  (2 <=? (at_fields arg 2).2) && sim_code_ok (field (at_fields arg 2).1 1) 4.

(** The entry makes the card compare a code: any entry while the PIN is asked
    for, one in the unblocking form while the PUK is. *)
Definition tests_code (s : Sim) (arg : bytes) : bool :=
  negb (s.(puk_left) =? 0) && (negb (s.(pin_left) =? 0) || puk_form arg).

(** The entry has the code that is asked for. *)
Definition right_code (s : Sim) (arg : bytes) : bool :=
  tests_code s arg && streq (entered arg) (if s.(pin_left) =? 0 then s.(puk) else s.(pin)).

(** Tries left in all. *)
Definition tries (s : Sim) : Z := s.(pin_left) + s.(puk_left).

Lemma sim_save_frame bb : b_sim (sim_save bb) = b_sim bb /\ b_ctl (sim_save bb) = b_ctl bb.
Proof. unfold sim_save. destruct (sim_file _); [done|]. by destruct (card_writable _). Qed.

Lemma cme_error_sim ch e bb : b_sim (cme_error ch e bb) = b_sim bb.
Proof. apply at_line_sim. Qed.

Lemma cme_error_ctl ch e bb : b_ctl (cme_error ch e bb) = b_ctl bb.
Proof. apply at_line_ctl. Qed.

(** A locked card whose counters are in use. *)
Record guessing (bb : IosBbCore) : Prop := mkGuessing {
  gu_present : bb.(b_ctl).(sim_present) = true;
  gu_locked : sim_locked bb = true;
  gu_pin : 0 <= bb.(b_sim).(pin_left);
  gu_puk : 0 <= bb.(b_sim).(puk_left);
  gu_order : bb.(b_sim).(puk_left) = 0 -> bb.(b_sim).(pin_left) = 0
}.

(** What a wrong entry leaves of the card. *)
Definition guessed (s : Sim) (arg : bytes) : Sim :=
  if negb (tests_code s arg) then s
  else if s.(pin_left) =? 0 then s <| puk_left ::= fun n => n - 1 |>
  else
    let s := s <| pin_left ::= fun n => n - 1 |> in
    if s.(pin_left) =? 0 then s <| pin_ok := false |> else s.

(** None of the entries has the code that is asked for when it is made; the
    number of those that make the card compare. *)
Fixpoint missed (s : Sim) (args : list bytes) : bool :=
  match args with
  | [] => true
  | arg :: args => negb (right_code s arg) && missed (guessed s arg) args
  end.

Fixpoint tested (s : Sim) (args : list bytes) : Z :=
  match args with
  | [] => 0
  | arg :: args => b2z (tests_code s arg) + tested (guessed s arg) args
  end.

Lemma sim_of bb bb' ch e : bb' = cme_error ch e bb -> b_sim bb' = b_sim bb /\ b_ctl bb' = b_ctl bb.
Proof. intros ->. by rewrite cme_error_sim, cme_error_ctl. Qed.

Lemma wrong_guess ch arg bb :
  guessing bb -> right_code bb.(b_sim) arg = false ->
  (cpin_set ch arg bb).(b_sim) = guessed bb.(b_sim) arg /\ (cpin_set ch arg bb).(b_ctl) = bb.(b_ctl).
Proof.
  intros [P L Hp Hk Ho] W. unfold right_code, tests_code, entered, puk_form in W. unfold guessed, tests_code, puk_form, cpin_set.
  destruct (at_fields arg 2) as [f n]. cbn [fst snd] in *. cbv zeta. rewrite P, L. cbn [negb andb].
  match goal with |- b_sim (if _ then reg_schedule ?x else _) = ?g /\ _ =>
    assert (H : b_sim x = g /\ b_ctl x = b_ctl bb) end.
  { destruct (puk_left (b_sim bb) =? 0); [by apply (sim_of bb _ ch 13)|]. cbn [negb andb] in *.
    destruct (pin_left (b_sim bb) =? 0) eqn:E0; cbn [negb orb andb] in *.
    - unfold cpin_unblock.
      destruct (Z.ltb_spec n 2).
      { rewrite (proj2 (Z.leb_gt 2 n)) by lia. by apply (sim_of bb _ ch 3). }
      rewrite (proj2 (Z.leb_le 2 n)) in * by lia. cbn [andb orb] in *.
      destruct (sim_code_ok (field f 1) 4); cbn [negb andb] in *; [|by apply (sim_of bb _ ch 3)].
      rewrite W, cme_error_sim, cme_error_ctl, (proj1 (sim_save_frame _)), (proj2 (sim_save_frame _)). done.
    - unfold sim_check_pin. rewrite E0, W. cbv zeta iota beta.
      rewrite cme_error_sim, cme_error_ctl, (proj1 (sim_save_frame _)), (proj2 (sim_save_frame _)).
      change (pin_left (b_sim (bb <| b_sim; pin_left ::= fun n => n - 1 |>))) with (pin_left (b_sim bb) - 1).
      change (pin_left ((b_sim bb) <| pin_left ::= fun n => n - 1 |>)) with (pin_left (b_sim bb) - 1).
      destruct (pin_left (b_sim bb) - 1 =? 0); split; reflexivity. }
  match goal with |- b_sim (if ?c then reg_schedule ?x else _) = _ /\ _ => destruct c; [|exact H]; generalize dependent x end.
  intros x H. unfold reg_schedule. by destruct (negb (cfun (b_reg x) =? 1)).
Qed.

Lemma guessed_guessing s arg :
  0 <= s.(pin_left) -> 0 <= s.(puk_left) -> (s.(puk_left) = 0 -> s.(pin_left) = 0) ->
  let s' := guessed s arg in
  0 <= s'.(pin_left) /\ 0 <= s'.(puk_left) /\ (s'.(puk_left) = 0 -> s'.(pin_left) = 0) /\
  s'.(pin_on) = s.(pin_on) /\ (s'.(pin_ok) = false \/ s'.(pin_ok) = s.(pin_ok)) /\
  (s.(pin_left) = 0 -> s'.(pin_left) = 0) /\ tries s' = tries s - b2z (tests_code s arg).
Proof.
  intros Hp Hk Ho. cbv zeta. unfold guessed, tries.
  destruct (tests_code s arg) eqn:T; cbn [negb b2z]; [|split_and!; auto; lia].
  unfold tests_code in T. apply andb_true_iff in T as [T _]. apply negb_true_iff, Z.eqb_neq in T.
  destruct (Z.eqb_spec (pin_left s) 0); [simpl; split_and!; auto; lia|]. cbv zeta.
  change (pin_left (s <| pin_left ::= fun n => n - 1 |>)) with (pin_left s - 1).
  destruct (Z.eqb_spec (pin_left s - 1) 0); simpl; split_and!; auto; lia.
Qed.

Lemma guess_step ch arg bb :
  guessing bb -> right_code bb.(b_sim) arg = false ->
  let bb' := cpin_set ch arg bb in
  guessing bb' /\ bb'.(b_sim) = guessed bb.(b_sim) arg /\
  tries bb'.(b_sim) = tries bb.(b_sim) - b2z (tests_code bb.(b_sim) arg).
Proof.
  intros G W. cbv zeta. destruct (wrong_guess ch arg bb G W) as [E1 E2]. destruct G as [P L Hp Hk Ho].
  destruct (guessed_guessing (b_sim bb) arg Hp Hk Ho) as (H1 & H2 & H3 & H6 & H7 & H8 & H9).
  cbv zeta in *. rewrite <- E1 in *. split_and!; [|done|done].
  constructor; try done; [congruence|]. unfold sim_locked in *. cbv zeta in *. rewrite E2, P in *.
  rewrite H6. simpl in *. apply orb_true_iff in L as [L|L].
  - apply Z.eqb_eq in L. by rewrite (H8 L).
  - apply andb_true_iff in L as [-> L]. apply negb_true_iff in L.
    destruct H7 as [-> | ->]; rewrite ?L; by rewrite orb_true_r.
Qed.

(** C9. The tries counters bound guessing: on a locked card (its counters not
    negative, the PUK's used up only after the PIN's), let +CPIN be given any
    arguments on any channels, none of them the code asked for at that time.  Then
    the card stays locked; every entry while the PIN is asked for, and every entry
    with a well-formed new PIN while the PUK is, uses up exactly one try, while the
    others use up none; so no more codes are ever compared than the two counters
    allow, and when both are used up the card is blocked. *)
Theorem guesses_bounded chargs bb :
  guessing bb -> missed bb.(b_sim) (snd <$> chargs) = true ->
  let bb' := fold_left (fun bb a => cpin_set a.1 a.2 bb) chargs bb in
  sim_locked bb' = true /\
  tries bb'.(b_sim) = tries bb.(b_sim) - tested bb.(b_sim) (snd <$> chargs) /\
  tested bb.(b_sim) (snd <$> chargs) <= tries bb.(b_sim) /\
  (tested bb.(b_sim) (snd <$> chargs) = tries bb.(b_sim) -> ios_bb_sim_lock bb' = "blocked"%string).
Proof.
  intros G. revert bb G. induction chargs as [|[ch arg] l IH]; intros bb G W; cbv zeta.
  - pose proof G as [P L Hp Hk Ho]. simpl. unfold tries.
    split_and!; [done|lia|lia|]. intros H. unfold ios_bb_sim_lock. cbv zeta.
    by rewrite (proj2 (Z.eqb_eq (puk_left (b_sim bb)) 0)) by lia.
  - cbn [fmap list_fmap snd missed tested fold_left fst] in *. apply andb_true_iff in W as [Wa Wl]. apply negb_true_iff in Wa.
    destruct (guess_step ch arg bb G Wa) as (G' & E & T). cbv zeta in *. rewrite <- E in *.
    destruct (IH (cpin_set ch arg bb) G' Wl) as (H1 & H2 & H3 & H4). cbv zeta in *.
    split_and!; [done|lia|lia|]. intros H'. apply H4. lia.
Qed.

(** Three wrong PINs, one of them with a second field, an entry without a new
    PIN, and ten wrong PUKs. *)
Definition ex_guesses : list (Z * bytes) :=
  [(1, str "9999"); (2, str "0000,1111"); (1, str "4321"); (1, str "12345678")] ++ replicate 10 (1, str "87654321,1111").

Lemma guesses_bounded_witness :
  let bb' := fold_left (fun bb a => cpin_set a.1 a.2 bb) ex_guesses ex_core in
  sim_locked bb' = true /\ tries bb'.(b_sim) = 0 /\ ios_bb_sim_lock bb' = "blocked"%string.
Proof.
  destruct (guesses_bounded ex_guesses ex_core) as (H1 & H2 & _ & H4).
  - constructor; by vm_compute.
  - vm_compute. reflexivity.
  - cbv zeta. split; [exact H1|]. split; [|apply H4; vm_compute; reflexivity]. rewrite H2. vm_compute. reflexivity.
Defined.
