(* ===== verification/BbTickFacts.v ===== *)
(** * Facts about time

    The vibration motor's edges, the deadlines after a tick, and the scripted
    course of a call. *)

From Stdlib Require Import ZArith Lia String.
From stdpp Require Import base numbers list.
From S2P Require Import Prelude CLib BbState BbTx BbPdu BbSim BbCalls BbReg BbSms BbSimCmd BbGps BbAt BbRx BbTick.
From S2P Require Import BbTxFacts BbWindow BbInv BbInvCmd BbInvRun BbCallFacts.
Local Open Scope Z_scope.

(** ** The vibration motor *)

Definition at_time (t : Z) (bb : IosBbCore) : IosBbCore := bb <| b_env; now_ms := t |>.

Lemma rem_pos t p : 0 <= t -> 0 < p -> Z.rem t p = t mod p.
Proof. intros. apply Z.rem_mod_nonneg; lia. Qed.

Lemma mod_within p q t : 0 < p -> q * p <= t < q * p + p -> t mod p = t - q * p.
Proof. intros Hp H. symmetry. apply (Z.mod_unique_pos t p q (t - q * p)); nia. Qed.

(** One cycle of the repeating pattern. *)
Lemma vib_cycle P on u :
  0 < P -> 0 < on -> 0 <= u ->
  let e := if Z.rem u P <? on then u - Z.rem u P + on else u - Z.rem u P + P in
  u < e /\ (forall v, u <= v < e -> (Z.rem v P <? on) = (Z.rem u P <? on)) /\
  (on < P -> (Z.rem e P <? on) = negb (Z.rem u P <? on)).
Proof.
  intros HP Hon Hu. cbv zeta. rewrite (rem_pos u P) by lia.
  pose proof (Z.mod_pos_bound u P HP) as Hr. pose proof (Z.div_mod u P ltac:(lia)) as Hd.
  rewrite (Z.mul_comm P) in Hd. set (q := u / P) in *. set (r := u mod P) in *.
  assert (0 <= q) by (apply Z.div_pos; lia).
  destruct (Z.ltb_spec r on) as [L|L].
  - split_and!; [lia| |].
    + intros v Hv. rewrite rem_pos by lia. apply Z.ltb_lt.
      destruct (Z_lt_le_dec P on); [pose proof (Z.mod_pos_bound v P HP); lia|].
      rewrite (mod_within P q v) by lia. lia.
    + intros H'. rewrite rem_pos by lia. rewrite (mod_within P q) by lia. apply Z.ltb_ge. lia.
  - split_and!; [lia| |].
    + intros v Hv. rewrite rem_pos by lia. rewrite (mod_within P q v) by lia. apply Z.ltb_ge. lia.
    + intros _. rewrite rem_pos by lia. rewrite (mod_within P (q + 1)) by lia. apply Z.ltb_lt. lia.
Qed.

(** The deadline given for the vibration motor is exact: it lies in the
    future, the motor does not change before it and, unless the pattern leaves no
    pause, it changes at it; when there is no deadline the motor never changes
    again.  The device can therefore sleep until the deadline and miss no edge. *)
Theorem vib_edge_exact bb :
  let d := bb.(b_drv) in
  let now := bb.(b_env).(now_ms) in
  let on t := ios_bb_vibrating (at_time t bb) in
  let e := vib_next_edge bb in
  bb.(b_at).(off) = false -> 0 <= d.(vib_start_ms) <= now ->
  if e =? 0 then forall t, now <= t -> on t = on now
  else now < e /\ (forall t, now <= t < e -> on t = on now) /\
       (d.(vib_mode) = 1 \/ d.(vib_on_ms) < d.(vib_period_ms) -> on e = negb (on now)).
Proof.
  cbv zeta. intros Hoff Hs.
  unfold vib_next_edge, ios_bb_vibrating. cbv zeta. simpl. rewrite Hoff. cbn [orb].
  set (d := b_drv bb) in *. set (now := now_ms (b_env bb)) in *.
  destruct (Z.leb_spec (vib_on_ms d) 0) as [H0|H0]; cbn [orb].
  { rewrite Z.eqb_refl. intros t Ht. by rewrite !orb_true_r. }
  assert (B : forall t, now <= t -> (t - vib_start_ms d <? 0) = false) by (intros; apply Z.ltb_ge; lia).
  rewrite (B now) by lia. cbn [orb].
  destruct (Z.eqb_spec (vib_mode d) 1) as [M1|M1].
  - destruct (Z.ltb_spec (now - vib_start_ms d) (vib_on_ms d)).
    + rewrite (proj2 (Z.eqb_neq _ 0)) by lia. split_and!; [lia| |].
      * intros t Ht. rewrite B by lia. cbn [orb]. apply Z.ltb_lt. lia.
      * intros _. rewrite B by lia. cbn [orb negb]. apply Z.ltb_ge. lia.
    + rewrite Z.eqb_refl. intros t Ht. rewrite B by lia. cbn [orb]. apply Z.ltb_ge. lia.
  - destruct (Z.eqb_spec (vib_mode d) 2) as [M2|M2]; cbn [andb].
    2: { rewrite Z.eqb_refl. intros t Ht. by rewrite B by lia. }
    destruct (Z.ltb_spec 0 (vib_period_ms d)) as [HP|HP]; cbn [andb].
    2: { rewrite Z.eqb_refl. intros t Ht. by rewrite B by lia. }
    destruct (vib_cycle (vib_period_ms d) (vib_on_ms d) (now - vib_start_ms d)) as (C1 & C2 & C3);
      [lia..|]. cbv zeta in *.
    set (e := if Z.rem (now - vib_start_ms d) (vib_period_ms d) <? vib_on_ms d then _ else _) in *.
    rewrite (proj2 (Z.eqb_neq _ 0)) by lia. split_and!; [lia| |].
    + intros t Ht. rewrite B by lia. apply C2. lia.
    + intros [H|H]; [done|]. rewrite B by lia. cbn [orb].
      replace (vib_start_ms d + e - vib_start_ms d) with e by lia. by apply C3.
Qed.

(** 400 ms on, 600 ms off, since one second. *)
Definition ex_vib : IosBbCore :=
  (at_time 1100 ex_core) <| b_drv; vib_mode := 2 |> <| b_drv; vib_period_ms := 1000 |>
    <| b_drv; vib_on_ms := 400 |> <| b_drv; vib_start_ms := 1000 |>.

Lemma vib_edge_exact_witness :
  vib_next_edge ex_vib = 1400 /\ ios_bb_vibrating ex_vib = true /\
  ios_bb_vibrating (at_time 1399 ex_vib) = ios_bb_vibrating (at_time 1100 ex_vib) /\
  ios_bb_vibrating (at_time 1400 ex_vib) = negb (ios_bb_vibrating (at_time 1100 ex_vib)).
Proof.
  destruct (vib_edge_exact ex_vib) as (_ & H1 & H2); [reflexivity|vm_compute; split; discriminate|].
  split; [reflexivity|]. split; [reflexivity|]. split.
  - apply (H1 1399). split; discriminate || reflexivity.
  - apply H2. right. reflexivity.
Defined.

(** ** Frames of the parts of the tick *)

(** What the registration part of a tick leaves alone. *)
Definition view_reg (bb : IosBbCore) :=
  (bb.(b_at), bb.(b_ctl), bb.(b_ch), bb.(b_env).(now_ms), bb.(b_drv), bb.(b_call), bb.(b_gps)).

(** What the other reports leave alone. *)
Definition view_temp (bb : IosBbCore) :=
  (bb.(b_at), bb.(b_ctl), bb.(b_ch), bb.(b_env).(now_ms), bb.(b_reg), bb.(b_call), bb.(b_gps)).

Definition view_call (bb : IosBbCore) :=
  (bb.(b_at), bb.(b_ctl), bb.(b_ch), bb.(b_env).(now_ms), bb.(b_reg), bb.(b_drv), bb.(b_gps)).

Lemma view_reg_inv a b :
  view_reg a = view_reg b -> now_ms (b_env a) = now_ms (b_env b) /\ b_drv a = b_drv b.
Proof. intros E. by injection E. Qed.

Lemma view_temp_inv a b :
  view_temp a = view_temp b -> now_ms (b_env a) = now_ms (b_env b) /\ b_reg a = b_reg b.
Proof. intros E. by injection E. Qed.

Lemma view_call_inv a b :
  view_call a = view_call b ->
  now_ms (b_env a) = now_ms (b_env b) /\ b_reg a = b_reg b /\ b_drv a = b_drv b /\
  b_at a = b_at b /\ b_ctl a = b_ctl b.
Proof. intros E. by injection E. Qed.

(** Settings and calls seen through the views. *)
Definition same_calls (a b : IosBbCore) : Prop := b_at a = b_at b /\ b_ctl a = b_ctl b /\ b_call a = b_call b.

Lemma view_reg_calls a b : view_reg a = view_reg b -> same_calls a b.
Proof. intros E. unfold same_calls. by injection E. Qed.

Lemma view_temp_calls a b : view_temp a = view_temp b -> same_calls a b.
Proof. intros E. unfold same_calls. by injection E. Qed.

Class TxView {B} (v : IosBbCore -> B) : Prop := tx_view a b : tx_only a b -> v b = v a.

#[export] Instance view_reg_tx : TxView view_reg.
Proof. intros a b H. pose proof (tx_now _ _ H). destruct H. unfold view_reg. congruence. Qed.

#[export] Instance view_temp_tx : TxView view_temp.
Proof. intros a b H. pose proof (tx_now _ _ H). destruct H. unfold view_temp. congruence. Qed.

#[export] Instance view_call_tx : TxView view_call.
Proof. intros a b H. pose proof (tx_now _ _ H). destruct H. unfold view_call. congruence. Qed.

Create HintDb txs discriminated.
#[export] Hint Constants Opaque : txs.
#[export] Hint Resolve at_line_tx chan_write_tx h5_send_pkt_tx h5_retransmit_tx upd_link_tx : txs.

Ltac tx_step :=
  lazymatch goal with
  | |- tx_only ?x ?x => reflexivity
  | |- tx_only _ (if ?c then _ else _) => destruct c
  | |- tx_only _ (match ?c with _ => _ end) => destruct c
  | |- tx_only _ _ => etransitivity; [|solve [eauto 2 with txs]]
  end.

Ltac txs := cbv zeta; repeat tx_step.

Lemma emit_xsigstr_tx bb : tx_only bb (emit_xsigstr bb).
Proof. unfold emit_xsigstr. txs. Qed.

Lemma nitz_report_tx bb : tx_only bb (nitz_report bb).
Proof. unfold nitz_report. txs. Qed.

Lemma cgreg_line_tx ch stat bb : tx_only bb (cgreg_line ch stat bb).
Proof. unfold cgreg_line. txs. Qed.

Lemma emit_xcallstat_tx id stat bb : tx_only bb (emit_xcallstat id stat bb).
Proof. unfold emit_xcallstat. txs. Qed.

#[export] Hint Resolve emit_xsigstr_tx nitz_report_tx cgreg_line_tx emit_xcallstat_tx : txs.

Create Rewrite HintDb views.

(** The value of a view after a state transformer. *)
Ltac view_step :=
  lazymatch goal with
  | |- ?v ?x = ?v ?x => reflexivity
  | |- _ (if ?c then _ else _) = _ => destruct c
  | |- _ (match ?c with _ => _ end) = _ => destruct c
  | |- ?v (upd _ _ ?x) = ?r => change (v x = r)
  | |- ?v (upd_call _ _ ?x) = ?r => change (v x = r)
  | |- _ _ = _ => first [progress autorewrite with views|etransitivity; [solve [apply tx_view; eauto 2 with txs]|]]
  end.

Ltac views := cbv zeta; repeat view_step.


Lemma sim_save_view bb : view_reg (sim_save bb) = view_reg bb.
Proof. unfold sim_save. views. Qed.
#[export] Hint Rewrite sim_save_view : views.

Lemma camp_update_view bb : view_reg (camp_update bb) = view_reg bb.
Proof. unfold camp_update. views. Qed.

Lemma emit_xciev_view bb : view_reg (emit_xciev bb) = view_reg bb.
Proof. unfold emit_xciev. views. Qed.
#[export] Hint Rewrite camp_update_view emit_xciev_view : views.

Lemma tick_reg_check_view now bb : view_reg (tick_reg_check now bb) = view_reg bb.
Proof. unfold tick_reg_check, reg_schedule. views. Qed.

Lemma reg_tick_view bb : view_reg (reg_tick bb) = view_reg bb.
Proof. unfold reg_tick. views. Qed.
#[export] Hint Rewrite tick_reg_check_view reg_tick_view : views.

Lemma tick_reg_view now bb : view_reg (tick_reg now bb) = view_reg bb.
Proof. unfold tick_reg. views. Qed.
#[export] Hint Rewrite tick_reg_view : views.

Lemma tick_temp_view now bb : view_temp (tick_temp now bb) = view_temp bb.
Proof. unfold tick_temp. cbn [fold_left]. views. Qed.

Lemma tick_xsim_view now bb : view_reg (tick_xsim now bb) = view_reg bb.
Proof. unfold tick_xsim. views. Qed.

Lemma call_progress_view i stat bb : view_call (call_progress i stat bb) = view_call bb.
Proof. unfold call_progress. views. Qed.
#[export] Hint Rewrite call_progress_view : views.

Lemma tick_call_view now i bb : view_call (tick_call now i bb) = view_call bb.
Proof. unfold tick_call. views. Qed.

Lemma tick_calls_view now bb : view_call (tick_calls now bb) = view_call bb.
Proof.
  apply (for_each_ind (fun s => view_call s = view_call bb)); [done|].
  intros i s _ Hs. by rewrite tick_call_view.
Qed.

Lemma tick_h5_tx now bb : tx_only bb (tick_h5 now bb).
Proof. unfold tick_h5. txs. Qed.

(** ** Deadlines *)

(** Nothing is due at [now] or earlier. *)
Definition later (now t : Z) : Prop := t = 0 \/ now < t.

Lemma later_sooner now due t : later now due -> later now t -> later now (sooner due t).
Proof. unfold later, sooner. destruct (negb _ && _); auto. Qed.

Definition reg_later (now : Z) (r : Reg) : Prop := r.(reg_step) = 0 \/ now < r.(reg_due_ms).

Lemma reg_tick_later bb :
  0 <= bb.(b_reg).(reg_step) <= 2 -> reg_later bb.(b_env).(now_ms) (reg_tick bb).(b_reg).
Proof.
  intros H. unfold reg_tick, reg_later. cbv zeta.
  destruct (negb _); [by left|]. destruct (Z.eqb_spec (reg_step (b_reg bb)) 1) as [E1|E1].
  - destruct (_ =? 1); [right|by left].
    match goal with |- _ < reg_due_ms (b_reg (upd b_reg _ (upd b_reg _ ?x))) =>
      change (now_ms (b_env bb) < now_ms (b_env x) + 400) end.
    rewrite (tx_now _ _ (cgreg_line_tx _ _ _)). simpl. rewrite (tx_now _ _ (at_line_tx _ _ _)). lia.
  - destruct (Z.eqb_spec (reg_step (b_reg bb)) 2); [by left|left; lia].
Qed.

Lemma tick_reg_later now bb :
  bb.(b_env).(now_ms) = now -> 0 <= bb.(b_reg).(reg_step) <= 2 ->
  reg_later now (tick_reg now bb).(b_reg).
Proof.
  intros <- H. unfold tick_reg. destruct (_ && _) eqn:E; [by apply reg_tick_later|].
  unfold reg_later. destruct (Z.eqb_spec (reg_step (b_reg bb)) 0); [by left|right].
  simpl in E. apply Z.leb_gt in E. lia.
Qed.

Lemma tick_temp_later now bb : drv_wf bb.(b_drv) -> later now (tick_temp now bb).(b_drv).(temp_due_ms).
Proof.
  intros [_ H]. unfold tick_temp, later. cbv zeta.
  destruct (Z.eqb_spec (temp_due_ms (b_drv bb)) 0) as [E|E]; [by left|]. cbn [negb andb].
  destruct (Z.leb_spec (temp_due_ms (b_drv bb)) now); right; [|done].
  match goal with |- _ < temp_due_ms (b_drv (upd _ _ ?x)) =>
    change (now < now + temp_period_ms (b_drv bb)) end. specialize (H E). lia.
Qed.

Lemma tick_xsim_reg now bb :
  let r := (tick_xsim now bb).(b_reg) in
  later now r.(xsim_due_ms) /\ r.(reg_step) = bb.(b_reg).(reg_step) /\
  r.(reg_due_ms) = bb.(b_reg).(reg_due_ms).
Proof.
  cbv zeta. unfold tick_xsim, later. cbv zeta.
  destruct (Z.eqb_spec (xsim_due_ms (b_reg bb)) 0) as [E|E]; [by auto|]. cbn [negb andb].
  destruct (Z.leb_spec (xsim_due_ms (b_reg bb)) now); [|by auto].
  destruct (is_open _ _); simpl; rewrite ?at_line_reg; by auto.
Qed.

(** ** The script of a call *)

(** What a tick does to one slot, given the answer delay and the number of
    rings after which the phone answers by itself. *)
Definition tick_ref (now delay s0 : Z) (c : IosBbCall) : IosBbCall :=
  if negb c.(c_used) then c
  else if (c.(c_next_stat) =? -2) && (c.(c_due_ms) <=? now) then
    let c := c <| c_rings ::= fun n => n + 1 |> in
    if (0 <? s0) && (s0 <=? c.(c_rings)) then progressed IOS_BB_CALL_ACTIVE c
    else c <| c_due_ms := now + 3000 |>
  else if (0 <=? c.(c_next_stat)) && (c.(c_due_ms) <=? now) then
    if c.(c_next_stat) =? IOS_BB_CALL_ALERTING then
      let c := c <| c_stat := IOS_BB_CALL_ALERTING |> in
      if 0 <=? delay then
        c <| c_next_stat := IOS_BB_CALL_ACTIVE |>
          <| c_due_ms := now + (if negb (delay =? 0) then delay else 100) |>
      else c <| c_next_stat := -1 |>
    else if c.(c_next_stat) =? IOS_BB_CALL_ACTIVE then progressed IOS_BB_CALL_ACTIVE c
    else c <| c_next_stat := -1 |>
  else c.

Lemma alter_at (f : IosBbCall -> IosBbCall) i (l : list IosBbCall) c : l !! i = Some c -> alter f i l = <[i := f c]> l.
Proof.
  revert i. induction l as [|x l IH]; intros [|i] H; try done; [by injection H as ->|].
  exact (f_equal (cons x) (IH i H)).
Qed.

Lemma table_tx a b : tx_only a b -> table b = table a.
Proof. intros H. unfold table. by rewrite (tx_call _ _ H). Qed.

Lemma upd_call_table i f bb : table (upd_call i f bb) = alter f i (table bb).
Proof. reflexivity. Qed.

Lemma tick_call_table now i bb :
  table (tick_call now i bb) =
  alter (tick_ref now bb.(b_ctl).(answer_delay_ms) bb.(b_at).(s0)) i (table bb).
Proof.
  destruct (table bb !! i) as [c|] eqn:Ei.
  2: { unfold tick_call, get_call. change (calls (b_call bb)) with (table bb). rewrite Ei. simpl.
       symmetry. revert i Ei. generalize (table bb). intros l. clear.
       induction l as [|x l IH]; intros [|i] H; try done. exact (f_equal (cons x) (IH i H)). }
  assert (G : get_call i bb = c) by (unfold get_call; change (calls (b_call bb)) with (table bb); by rewrite Ei).
  rewrite (alter_at _ _ _ _ Ei). unfold tick_call, tick_ref. cbv zeta. rewrite G.
  destruct (negb (c_used c)); [symmetry; by apply list_insert_id|].
  destruct (_ && _).
  - set (bb1 := upd_call i (fun c => c <| c_rings ::= fun n => n + 1 |>) bb).
    set (bb2 := at_line _ _ bb1).
    assert (T : table bb2 = <[i := c <| c_rings ::= fun n => n + 1 |>]> (table bb)).
    { rewrite (table_tx bb1 bb2) by apply at_line_tx. by apply alter_at. }
    assert (G2 : get_call i bb2 = c <| c_rings ::= fun n => n + 1 |>).
    { unfold get_call. change (calls (b_call bb2)) with (table bb2). rewrite T.
      rewrite list_lookup_insert_eq; [done|]. by eapply lookup_lt_Some. }
    assert (A : b_at bb2 = b_at bb) by (unfold bb2; by rewrite at_line_at).
    rewrite G2, A. destruct (_ && _); [rewrite call_progress_table|rewrite upd_call_table];
      rewrite T, (alter_at _ i _ (c <| c_rings ::= fun n => n + 1 |>));
      try apply list_insert_insert_eq; apply list_lookup_insert_eq; by eapply lookup_lt_Some.
  - destruct (_ && _); [|symmetry; by apply list_insert_id].
    destruct (_ =? IOS_BB_CALL_ALERTING).
    + set (bb1 := upd_call i (fun c => c <| c_stat := IOS_BB_CALL_ALERTING |>) bb).
      set (bb2 := emit_xcallstat _ _ bb1).
      assert (X : tx_only bb1 bb2) by apply emit_xcallstat_tx.
      assert (T : table bb2 = alter (fun c => c <| c_stat := IOS_BB_CALL_ALERTING |>) i (table bb))
        by (by rewrite (table_tx _ _ X)).
      rewrite (tx_ctl _ _ X). change (b_ctl bb1) with (b_ctl bb).
      destruct (0 <=? _); rewrite upd_call_table, T, alter_alter, (alter_at _ _ _ _ Ei); done.
    + destruct (_ =? IOS_BB_CALL_ACTIVE); [rewrite call_progress_table|rewrite upd_call_table];
        by rewrite (alter_at _ _ _ _ Ei).
Qed.

(** All the slots. *)
Lemma tick_calls_table now bb j :
  table (tick_calls now bb) !! j =
  if Nat.ltb j IOS_BB_MAX_CALLS
  then tick_ref now bb.(b_ctl).(answer_delay_ms) bb.(b_at).(s0) <$> table bb !! j
  else table bb !! j.
Proof.
  set (h := tick_ref now (answer_delay_ms (b_ctl bb)) (s0 (b_at bb))).
  assert (G : forall n k s, view_call s = view_call bb ->
    table (fold_left (fun s i => tick_call now i s) (seq k n) s) !! j =
    if Nat.leb k j && Nat.ltb j (k + n) then h <$> table s !! j else table s !! j).
  { induction n as [|n IH]; intros k s Hs; simpl.
    - destruct (Nat.leb_spec k j), (Nat.ltb_spec j (k + 0)); simpl; done || lia.
    - rewrite IH by (by rewrite tick_call_view).
      assert (T : table (tick_call now k s) = alter h k (table s)).
      { rewrite tick_call_table. unfold h. by destruct (view_call_inv _ _ Hs) as (_ & _ & _ & -> & ->). }
      rewrite T.
      destruct (Nat.leb_spec (S k) j), (Nat.ltb_spec j (S k + n)), (Nat.leb_spec k j),
        (Nat.ltb_spec j (k + S n)); simpl; try lia; try (rewrite list_lookup_alter_ne by lia; done).
      assert (k = j) as -> by lia. by rewrite list_lookup_alter_eq. }
  unfold tick_calls, for_each. rewrite G by done. by destruct (Nat.leb_spec 0 j); [|lia].
Qed.

Lemma tick_ref_later now delay s0 c :
  -2 <= c.(c_next_stat) -> later now (call_due (tick_ref now delay s0 c)).
Proof.
  intros H. set (P := fun r : IosBbCall =>
    c_used r = false \/ c_next_stat r = -1 \/ now < c_due_ms r).
  assert (X : P (tick_ref now delay s0 c)).
  { unfold tick_ref. destruct (c_used c) eqn:U; cbn [negb]; [|by left].
    destruct (Z.leb_spec (c_due_ms c) now) as [L|L]; rewrite ?andb_true_r, ?andb_false_r;
      [|by right; right]. cbv zeta.
    destruct (Z.eqb_spec (c_next_stat c) (-2)).
    - destruct (_ && _); right; [by left|right; simpl; lia].
    - destruct (Z.leb_spec 0 (c_next_stat c)); [|right; left; lia].
      destruct (_ =? IOS_BB_CALL_ALERTING); [destruct (Z.leb_spec 0 delay)|destruct (_ =? IOS_BB_CALL_ACTIVE)];
        right; try (by left). right. simpl. destruct (Z.eqb_spec delay 0); simpl; lia. }
  unfold later, call_due. destruct X as [-> |[-> |X]]; [by left|by rewrite andb_false_r; left|].
  destruct (_ && _); auto.
Qed.

(** ** The link and the receiver *)

Definition link_later (now : Z) (l : Link) : Prop :=
  l.(h5_unacked) = [] \/ now < l.(h5_last_tx_ms) + H5_RETX_MS.

Lemma tick_h5_later now bb : link_later now (tick_h5 now bb).(b_link).
Proof.
  unfold tick_h5, link_later. destruct (h5_unacked (b_link bb)) eqn:U; [by left|].
  destruct (Z.leb_spec H5_RETX_MS (now - h5_last_tx_ms (b_link bb))); right; [|lia].
  match goal with |- _ < h5_last_tx_ms (b_link (upd _ _ _)) + _ => change (now < now + H5_RETX_MS) end.
  unfold H5_RETX_MS. lia.
Qed.

(** A transmission restarts the timer or leaves the window alone. *)
Lemma h5_pump_loop_later now n ds bb :
  bb.(b_env).(now_ms) = now -> bb.(b_link).(h5_txq) = records ds -> Forall small ds ->
  link_later now bb.(b_link) -> link_later now (h5_pump_loop n bb).(b_link).
Proof.
  revert ds bb. induction n as [|n IH]; intros ds bb Hn Hq Hs Hl; cbn [h5_pump_loop]; [done|]. cbv zeta.
  destruct (_ <? IOS_BB_H5_WINDOW); [|done].
  destruct ds as [|d ds]; [by rewrite Hq|]. inversion Hs as [|? ? Hd Hs']; subst.
  destruct (2 <=? _); [|done]. cbn [andb].
  assert (Hlen : Z.lor (rd (h5_txq (b_link bb)) 0) (Z.shiftl (rd (h5_txq (b_link bb)) 1) 8) = zlen d)
    by (rewrite Hq; by apply record_len).
  destruct (_ <? _); [done|]. rewrite Hlen, Hq, records_cons.
  destruct (record_body d (records ds)) as [-> ->].
  apply (IH ds); [|done|done|].
  - exact (tx_now _ _ (h5_send_one_unacked_tx d bb)).
  - right. unfold h5_send_one_unacked, h5_send_pkt. cbv zeta. rewrite (proj2 (Z.ltb_ge _ _) Hd).
    unfold H5_RETX_MS. simpl. lia.
Qed.

Lemma h5_stream_later now data bb :
  bb.(b_env).(now_ms) = now -> link_wf bb.(b_link) ->
  link_later now bb.(b_link) -> link_later now (h5_stream data bb).(b_link).
Proof.
  intros Hn W Hl. unfold h5_stream. destruct (off _); [done|]. destruct (negb _); [done|].
  assert (Hq : link_later now (b_link (h5_queue data bb))).
  { rewrite h5_queue_spec. by destruct (fits _ _). }
  destruct (negb _); [done|]. unfold h5_pump. destruct (h5_active _); [|done].
  assert (Q : exists ds, h5_txq (b_link (h5_queue data bb)) = records ds /\ Forall small ds).
  { rewrite h5_queue_spec. destruct (lw_txq _ W) as (ds & Eq & Hs). destruct (fits _ _); [|by exists ds].
    exists (ds ++ [cut data]). simpl. rewrite records_app, Eq. split.
    - f_equal. unfold records. simpl. by rewrite app_nil_r.
    - apply Forall_app. split; [done|]. repeat constructor. apply cut_small. }
  destruct Q as (ds & Q1 & Q2). apply (h5_pump_loop_later now 7 ds); [|done|done|done].
  by rewrite (tx_now _ _ (h5_queue_tx data bb)).
Qed.

Lemma tick_gps_later now bb :
  bb.(b_env).(now_ms) = now -> bb_wf bb -> link_later now bb.(b_link) ->
  let bb' := tick_gps now bb in
  link_later now bb'.(b_link) /\ later now (ios_bb_gps_next_due bb'.(b_gps)).
Proof.
  intros Hn W Hl. cbv zeta. unfold tick_gps.
  assert (D : later now (ios_bb_gps_next_due (ios_bb_gps_poll now (b_gps bb)).1)).
  { destruct (w_gps _ W) as [_ Hi]. unfold ios_bb_gps_poll, ios_bb_gps_next_due, later.
    destruct (Z.ltb_spec (g_ch (b_gps bb)) 0) as [L|L]; cbn [orb].
    { simpl. rewrite (proj2 (Z.leb_gt 0 _)) by lia. by left. }
    destruct (Z.eqb_spec (g_due_ms (b_gps bb)) 0) as [E|E]; cbn [orb]; [simpl; rewrite E; destruct (_ <=? _); by left|].
    destruct (Z.ltb_spec now (g_due_ms (b_gps bb))); cbn [orb]; [simpl; destruct (_ <=? _); auto|].
    cbv zeta. specialize (Hi L). destruct (negb _); simpl; rewrite (proj2 (Z.leb_le 0 _)) by lia; right; lia. }
  destruct (ios_bb_gps_poll now (b_gps bb)) as [g [[ch line]|]]; cbv zeta; [|done].
  destruct (is_open _ _); [|done]. split.
  - unfold chan_write. destruct (_ && _); [apply h5_stream_later|apply h5_stream_later]; done || apply W.
  - by rewrite (tx_gps _ _ (chan_write_tx _ _ _)).
Qed.

Lemma vib_later bb : later bb.(b_env).(now_ms) (vib_next_edge bb).
Proof.
  unfold vib_next_edge, later. cbv zeta. set (d := b_drv bb). set (now := now_ms (b_env bb)).
  destruct (Z.leb_spec (vib_on_ms d) 0) as [|H0]; [by left|].
  destruct (Z.ltb_spec (now - vib_start_ms d) 0); [by left|]. cbn [orb].
  destruct (_ =? 1); [destruct (_ <? _) eqn:L; [right; lia|by left]|].
  destruct (_ =? 2); [|by left]. destruct (Z.ltb_spec 0 (vib_period_ms d)); [|by left]. cbn [andb].
  destruct (vib_cycle (vib_period_ms d) (vib_on_ms d) (now - vib_start_ms d)) as (C1 & _); [lia..|].
  cbv zeta in C1. right. lia.
Qed.

(** ** Theorems *)

(** The calls after the last part that touches them. *)
Lemma next_due_later now bb :
  bb.(b_env).(now_ms) = now -> reg_later now bb.(b_reg) -> later now bb.(b_drv).(temp_due_ms) ->
  later now bb.(b_reg).(xsim_due_ms) ->
  (forall i, later now (call_due (get_call i bb))) -> link_later now bb.(b_link) ->
  later now (ios_bb_gps_next_due bb.(b_gps)) -> later now (ios_bb_next_due bb).
Proof.
  intros Hn Hr Ht Hx Hc Hl Hg. unfold ios_bb_next_due. destruct (off _); [by left|]. cbv zeta.
  apply later_sooner; [|done].
  assert (F : forall l due, later now due ->
    later now (fold_left (fun due i => sooner due (call_due (get_call i bb))) l due)).
  { induction l as [|i l IH]; intros due Hd; simpl; [done|]. apply IH. by apply later_sooner. }
  assert (D : later now (fold_left (fun due i => sooner due (call_due (get_call i bb)))
    (seq 0 IOS_BB_MAX_CALLS) (sooner (sooner (sooner
      (if (now_ms (b_env bb) <? camp_due_ms (b_reg bb)) &&
          (((if negb (reg_step (b_reg bb) =? 0) then reg_due_ms (b_reg bb) else 0) =? 0)
           || (camp_due_ms (b_reg bb) <? (if negb (reg_step (b_reg bb) =? 0) then reg_due_ms (b_reg bb) else 0)))
       then camp_due_ms (b_reg bb)
       else if negb (reg_step (b_reg bb) =? 0) then reg_due_ms (b_reg bb) else 0)
      (temp_due_ms (b_drv bb))) (xsim_due_ms (b_reg bb))) (vib_next_edge bb)))).
  { apply F. apply later_sooner; [|rewrite <- Hn; apply vib_later]. apply later_sooner; [|done].
    apply later_sooner; [|done]. rewrite Hn. destruct (Z.ltb_spec now (camp_due_ms (b_reg bb))) as [L|L]; cbn [andb].
    - destruct (_ || _); [by right|]. destruct Hr as [-> |Hr]; [by left|]. destruct (negb _); [by right|by left].
    - destruct Hr as [-> |Hr]; [by left|]. destruct (negb _); [by right|by left]. }
  match type of D with later now ?x => revert D; generalize x end. intros x D.
  destruct Hl as [-> |Hl]; [exact D|]. destruct (h5_unacked (b_link bb)); [exact D|].
  destruct (_ || _); [by right|exact D].
Qed.

(** The state after the registration, temperature and SIM parts. *)
Lemma tick_front_later now b0 :
  bb_wf b0 -> b0.(b_env).(now_ms) = now ->
  let b5 := tick_xsim now (tick_temp now (tick_reg now (tick_reg_check now (camp_update b0)))) in
  bb_wf b5 /\ b5.(b_env).(now_ms) = now /\ reg_later now b5.(b_reg) /\
  later now b5.(b_drv).(temp_due_ms) /\ later now b5.(b_reg).(xsim_due_ms).
Proof.
  intros W0 Hn. cbv zeta. set (b2 := tick_reg_check now (camp_update b0)).
  set (b3 := tick_reg now b2). set (b4 := tick_temp now b3).
  assert (W2 : bb_wf b2) by exact (ev_wf _ _ (ev_tick_reg_check now _ (ev_wf _ _ (ev_camp_update b0 W0)))).
  assert (W3 : bb_wf b3) by exact (ev_wf _ _ (ev_tick_reg now b2 W2)).
  assert (W4 : bb_wf b4) by exact (ev_wf _ _ (ev_tick_temp now b3 W3)).
  assert (N2 : now_ms (b_env b2) = now).
  { assert (E : view_reg b2 = view_reg b0) by (unfold b2; by rewrite tick_reg_check_view, camp_update_view).
    by rewrite (proj1 (view_reg_inv _ _ E)). }
  assert (R3 : reg_later now (b_reg b3)) by (apply tick_reg_later; [done|apply (w_reg _ W2)]).
  assert (N3 : now_ms (b_env b3) = now).
  { unfold b3. by rewrite (proj1 (view_reg_inv _ _ (tick_reg_view now b2))). }
  destruct (view_temp_inv _ _ (tick_temp_view now b3)) as [N4 R4]. fold b4 in N4, R4.
  destruct (view_reg_inv _ _ (tick_xsim_view now b4)) as [N5 D5].
  pose proof (tick_xsim_reg now b4) as X. cbv zeta in X. destruct X as (X1 & X2 & X3).
  refine (conj _ (conj _ (conj _ (conj _ _)))).
  - exact (ev_wf _ _ (ev_tick_xsim now b4 W4)).
  - by rewrite N5, N4.
  - unfold reg_later in *. by rewrite X2, X3, R4.
  - rewrite D5. apply tick_temp_later, (w_drv _ W3).
  - exact X1.
Qed.

Lemma get_call_table i bb : get_call i bb = default call0 (table bb !! i).
Proof. reflexivity. Qed.

Lemma get_call_same i a b : b_call a = b_call b -> get_call i a = get_call i b.
Proof. intros E. unfold get_call. by rewrite E. Qed.

Lemma tick_calls_later now bb i :
  calls_wf bb.(b_call) -> later now (call_due (get_call i (tick_calls now bb))).
Proof.
  intros W. rewrite get_call_table, tick_calls_table. destruct (table bb !! i) as [c|] eqn:E.
  - assert (L : Nat.ltb i IOS_BB_MAX_CALLS = true).
    { apply Nat.ltb_lt. rewrite <- (kw_size _ W). by eapply lookup_lt_Some. }
    rewrite L. simpl. apply tick_ref_later.
    exact (proj2 (proj1 (Forall_lookup _ _) (kw_each _ W) i c E)).
  - destruct (Nat.ltb _ _); by left.
Qed.

Lemma tick_gps_frame now bb :
  let bb' := tick_gps now bb in
  b_reg bb' = b_reg bb /\ b_drv bb' = b_drv bb /\ b_call bb' = b_call bb /\ now_ms (b_env bb') = now_ms (b_env bb).
Proof.
  cbv zeta. unfold tick_gps. destruct (ios_bb_gps_poll _ _) as [g [[ch line]|]]; [|done]. cbv zeta.
  destruct (is_open _ _); [|done].
  pose proof (chan_write_tx ch line (bb <| b_gps := g |>)) as X.
  by rewrite (tx_reg _ _ X), (tx_drv _ _ X), (tx_call _ _ X), (tx_now _ _ X).
Qed.

(** C13. A tick leaves nothing due: after [ios_bb_tick] at [now], the next
    deadline the core asks for is none or strictly later than [now].  The
    device re-arms its timer for that deadline, so the modem can never keep the
    emulator spinning. *)
Theorem tick_leaves_nothing_due now bb :
  bb_wf bb -> later now (ios_bb_next_due (ios_bb_tick now bb)).
Proof.
  intros W. unfold ios_bb_tick. cbv zeta. set (b0 := bb <| b_env; now_ms := now |>).
  destruct (off (b_at b0)) eqn:Hoff; [left; unfold ios_bb_next_due; by rewrite Hoff|].
  assert (W0 : bb_wf b0) by (destruct W; by constructor).
  destruct (tick_front_later now b0 W0 eq_refl) as (W5 & N5 & R5 & T5 & X5). cbv zeta in *.
  revert W5 N5 R5 T5 X5. generalize (tick_xsim now (tick_temp now (tick_reg now (tick_reg_check now (camp_update b0))))).
  intros b5 W5 N5 R5 T5 X5.
  pose proof (ev_wf _ _ (ev_tick_calls now b5 W5)) as W6.
  destruct (view_call_inv _ _ (tick_calls_view now b5)) as (N6 & R6 & D6 & _).
  pose proof (ev_wf _ _ (ev_tick_h5 now _ W6)) as W7. pose proof (tick_h5_tx now (tick_calls now b5)) as X7.
  destruct (tick_gps_later now (tick_h5 now (tick_calls now b5))) as [L8 G8];
    [by rewrite (tx_now _ _ X7), N6|done|apply tick_h5_later|]. cbv zeta in *.
  destruct (tick_gps_frame now (tick_h5 now (tick_calls now b5))) as (R8 & D8 & C8 & N8). cbv zeta in *.
  apply next_due_later; try done.
  - by rewrite N8, (tx_now _ _ X7), N6.
  - by rewrite R8, (tx_reg _ _ X7), R6.
  - by rewrite D8, (tx_drv _ _ X7), D6.
  - by rewrite R8, (tx_reg _ _ X7), R6.
  - intros i. rewrite (get_call_same i _ _ C8), (get_call_same i _ _ (tx_call _ _ X7)).
    apply tick_calls_later, (w_call _ W5).
Qed.

Lemma tick_leaves_nothing_due_witness :
  later 5000 (ios_bb_next_due (ios_bb_tick 5000 ex_core)).
Proof. apply (tick_leaves_nothing_due 5000 ex_core ex_core_wf). Defined.

(** ** A call to its end *)

Lemma tick_gps_calls now bb : same_calls (tick_gps now bb) bb.
Proof.
  unfold tick_gps, same_calls. destruct (ios_bb_gps_poll _ _) as [g [[ch line]|]]; [|done]. cbv zeta.
  destruct (is_open _ _); [|done].
  pose proof (chan_write_tx ch line (bb <| b_gps := g |>)) as X.
  by rewrite (tx_at _ _ X), (tx_ctl _ _ X), (tx_call _ _ X).
Qed.

Lemma same_calls_trans a b c : same_calls a b -> same_calls b c -> same_calls a c.
Proof. unfold same_calls. intuition congruence. Qed.

Lemma tick_calls_settings now bb :
  b_at (tick_calls now bb) = b_at bb /\ b_ctl (tick_calls now bb) = b_ctl bb.
Proof. destruct (view_call_inv _ _ (tick_calls_view now bb)) as (_ & _ & _ & H1 & H2). done. Qed.

Lemma tick_calls_length now bb : length (table (tick_calls now bb)) = length (table bb).
Proof.
  apply (for_each_ind (fun s => length (table s) = length (table bb))); [done|].
  intros i s _ Hs. by rewrite tick_call_table, length_alter.
Qed.

(** What a tick does to the call table and the settings its script uses. *)
Lemma tick_table now bb j c :
  four bb -> bb.(b_at).(off) = false -> table bb !! j = Some c ->
  let bb' := ios_bb_tick now bb in
  table bb' !! j = Some (tick_ref now bb.(b_ctl).(answer_delay_ms) bb.(b_at).(s0) c) /\
  b_at bb' = b_at bb /\ b_ctl bb' = b_ctl bb /\ four bb'.
Proof.
  intros H4 Hoff Hj. cbv zeta. unfold ios_bb_tick. cbv zeta.
  set (b0 := bb <| b_env; now_ms := now |>). change (off (b_at b0)) with (off (b_at bb)). rewrite Hoff.
  assert (S5 : same_calls (tick_xsim now (tick_temp now (tick_reg now (tick_reg_check now (camp_update b0))))) b0).
  { eapply same_calls_trans; [apply view_reg_calls, tick_xsim_view|].
    eapply same_calls_trans; [apply view_temp_calls, tick_temp_view|].
    apply view_reg_calls. by rewrite tick_reg_view, tick_reg_check_view, camp_update_view. }
  revert S5. generalize (tick_xsim now (tick_temp now (tick_reg now (tick_reg_check now (camp_update b0))))).
  intros b5 (A5 & C5 & T5).
  destruct (tick_gps_calls now (tick_h5 now (tick_calls now b5))) as (A8 & C8 & T8).
  pose proof (tick_h5_tx now (tick_calls now b5)) as X. destruct (tick_calls_settings now b5) as [A6 C6].
  assert (T : table (tick_gps now (tick_h5 now (tick_calls now b5))) = table (tick_calls now b5))
    by (unfold table; by rewrite T8, (tx_call _ _ X)).
  assert (T0 : table b5 = table bb) by (unfold table; by rewrite T5).
  split_and!.
  - rewrite T, tick_calls_table, T0, Hj, (slot_ltb bb j c H4 Hj), C5, A5. done.
  - by rewrite A8, (tx_at _ _ X), A6, A5.
  - by rewrite C8, (tx_ctl _ _ X), C6, C5.
  - unfold four in *. by rewrite T, tick_calls_length, T0.
Qed.

(** An outgoing call connects: once dialled, with an answer delay set, a
    tick at or after its due time makes it ringing at the far end, and a tick after
    the delay makes it active, whatever else the modem is doing. *)
Theorem call_connects bb j c t1 t2 :
  four bb -> bb.(b_at).(off) = false -> table bb !! j = Some c ->
  c.(c_used) = true -> c.(c_next_stat) = IOS_BB_CALL_ALERTING -> c.(c_due_ms) <= t1 ->
  0 < bb.(b_ctl).(answer_delay_ms) -> t1 + bb.(b_ctl).(answer_delay_ms) <= t2 ->
  let bb1 := ios_bb_tick t1 bb in
  let bb2 := ios_bb_tick t2 bb1 in
  (exists c1, table bb1 !! j = Some c1 /\ c1.(c_stat) = IOS_BB_CALL_ALERTING /\ c1.(c_id) = c.(c_id)) /\
  (exists c2, table bb2 !! j = Some c2 /\ c2.(c_stat) = IOS_BB_CALL_ACTIVE /\ c2.(c_id) = c.(c_id) /\
              c2.(c_used) = true /\ c2.(c_next_stat) = -1).
Proof.
  intros H4 Hoff Hj Hu Hn Hd Ha Ht. cbv zeta.
  destruct (tick_table t1 bb j c H4 Hoff Hj) as (T1 & A1 & C1 & F1). cbv zeta in *.
  set (bb1 := ios_bb_tick t1 bb) in *.
  assert (R : tick_ref t1 (answer_delay_ms (b_ctl bb)) (s0 (b_at bb)) c =
    c <| c_stat := IOS_BB_CALL_ALERTING |> <| c_next_stat := IOS_BB_CALL_ACTIVE |>
      <| c_due_ms := t1 + answer_delay_ms (b_ctl bb) |>).
  { unfold tick_ref. rewrite Hu, Hn. rewrite (proj2 (Z.leb_le (c_due_ms c) t1)) by lia. simpl.
    rewrite (proj2 (Z.leb_le 0 _)), (proj2 (Z.eqb_neq (answer_delay_ms (b_ctl bb)) 0)) by lia. done. }
  rewrite R in T1. split; [by eexists|].
  assert (Hoff1 : off (b_at bb1) = false) by (by rewrite A1).
  destruct (tick_table t2 bb1 j _ F1 Hoff1 T1) as (T2 & _). eexists. split; [exact T2|].
  unfold tick_ref. simpl. rewrite Hu. simpl.
  rewrite (proj2 (Z.leb_le _ t2)) by lia. done.
Qed.

Definition ex_dialled : IosBbCore := dial_command 1 (str "5551234;") ex_ready.

Lemma call_connects_witness :
  (exists c1, table (ios_bb_tick 3000 ex_dialled) !! 0%nat = Some c1 /\
     c1.(c_stat) = IOS_BB_CALL_ALERTING /\ c1.(c_id) = 1) /\
  (exists c2, table (ios_bb_tick 8000 (ios_bb_tick 3000 ex_dialled)) !! 0%nat = Some c2 /\
     c2.(c_stat) = IOS_BB_CALL_ACTIVE /\ c2.(c_id) = 1 /\ c2.(c_used) = true /\ c2.(c_next_stat) = -1).
Proof.
  apply (call_connects ex_dialled 0 (outgoing ex_ready (str "5551234")) 3000 8000);
    vm_compute; reflexivity || discriminate.
Defined.
