(* ===== verification/BbRegFacts.v ===== *)
(** * Facts about registration

    The registration script as an automaton on four fields, and the ticks after
    which a modem in coverage has reported its registration. *)

From Stdlib Require Import ZArith Lia String.
From stdpp Require Import base numbers list.
From S2P Require Import Prelude CLib BbState BbTx BbPdu BbSim BbCalls BbReg BbSms BbSimCmd BbGps BbAt BbRx BbTick.
From S2P Require Import BbTxFacts BbWindow BbInv BbPduFacts BbCallFacts BbTickFacts.
Local Open Scope Z_scope.

(** ** What was handed to the link

    The frames the H5 link holds: those in the window, then those in the queue. *)
Record holds (l : Link) (fs : list bytes) : Prop := mkHolds {
  ho_small : Forall small fs;
  ho_split : exists ds, l.(h5_txq) = records ds /\ fs = (p_data <$> l.(h5_unacked)) ++ ds
}.

Lemma holds_wf l : link_wf l -> exists fs, holds l fs.
Proof.
  intros W. destruct (lw_txq _ W) as (ds & E & Hs). exists ((p_data <$> h5_unacked l) ++ ds). split; [|by exists ds].
  apply Forall_app. split; [apply Forall_fmap, (lw_unacked _ W)|done].
Qed.

(** The queue is part of what the link holds. *)
Lemma holds_queue l fs : holds l fs -> zlen l.(h5_txq) <= zlen (records fs).
Proof.
  intros [_ (ds & -> & ->)]. rewrite records_app, zlen_app. pose proof (zlen_nonneg (records (p_data <$> h5_unacked l))). lia.
Qed.

(** What decides where a line goes, and the traces it leaves. *)
Definition line_view (bb : IosBbCore) := (bb.(b_link), bb.(b_env).(out_log), bb.(b_mux).(mux), bb.(b_at).(off)).

(** From [a] to [b] output is only added, without H5 to the log and with it to the
    frames the link holds. *)
Definition carries_view (a b : Link * list bytes * bool * bool) : Prop :=
  let '(la, oa, ma, fa) := a in
  let '(lb, ob, mb, fb) := b in
  forall fs, holds la fs ->
    mb = ma /\ fb = fa /\ lb.(h5) = la.(h5) /\ oa `prefix_of` ob /\ exists fs', holds lb (fs ++ fs').
Definition carries (a b : IosBbCore) : Prop := carries_view (line_view a) (line_view b).

#[export] Instance carries_preorder : PreOrder carries.
Proof.
  split.
  - intros a fs H. split_and!; try done. exists []. by rewrite app_nil_r.
  - intros a b c Hab Hbc fs H. destruct (Hab fs H) as (E1 & E2 & E3 & P & fs' & H').
    destruct (Hbc _ H') as (F1 & F2 & F3 & Q & fs2 & H2).
    split_and!; [congruence|congruence|congruence|by etransitivity|]. exists (fs' ++ fs2). by rewrite app_assoc.
Qed.

Lemma h5_pump_carries bb : carries bb (h5_pump bb).
Proof.
  unfold h5_pump. destruct (h5_active (b_link bb)) eqn:A; [|reflexivity]. intros fs [Hs (ds & Q & E)].
  assert (Hd : Forall small ds) by (rewrite E in Hs; by apply Forall_app in Hs as [_ Hs]).
  pose proof (h5_pump_spec ds bb Q Hd A) as P. unfold h5_pump in P. rewrite A in P. cbv zeta in P.
  destruct P as (P1 & P2 & _ & P4 & P5). pose proof (h5_pump_loop_tx 7 bb) as X.
  split_and!; [by rewrite (tx_mux _ _ X)|by rewrite (tx_at _ _ X)|apply P1|rewrite P5; by apply prefix_app_r|].
  exists []. rewrite app_nil_r. split; [done|]. exists (drop (room (b_link bb) ds) ds). split; [exact P4|].
  by rewrite P2, fmap_app, pkts_from_data, <- app_assoc, take_drop.
Qed.

(** Queueing adds the frame, or the queue has no room for it. *)
Lemma h5_queue_holds d bb fs : small d -> holds bb.(b_link) fs ->
  let l := (h5_queue d bb).(b_link) in
  holds l (fs ++ [d]) \/ holds l fs /\ H5_TXQ_SIZE < zlen (records fs) + 2 + zlen d.
Proof.
  intros Hd H. cbv zeta. assert (Ec : cut d = d) by (apply ztake_all; exact Hd). rewrite h5_queue_spec. unfold fits.
  rewrite Ec. destruct (Z.leb_spec (zlen (h5_txq (b_link bb)) + 2 + zlen d) H5_TXQ_SIZE).
  - left. destruct H as [Hs (ds & Q & E)]. split; [apply Forall_app; auto|]. exists (ds ++ [d]). split.
    + simpl. rewrite Q, records_app. f_equal. unfold records. simpl. by rewrite app_nil_r.
    + rewrite E, <- app_assoc. reflexivity.
  - right. split; [done|]. pose proof (holds_queue _ _ H). lia.
Qed.

Lemma h5_stream_carries d bb : carries bb (h5_stream d bb).
Proof.
  unfold h5_stream. destruct (off (b_at bb)); [reflexivity|]. destruct (negb _).
  { intros fs H. split_and!; try done; [by apply prefix_app_r|]. exists []. by rewrite app_nil_r. }
  assert (Q : carries bb (h5_queue d bb)).
  { intros fs H. pose proof (h5_queue_tx d bb) as X.
    assert (Eq : h5_queue d bb = h5_queue (cut d) bb).
    { rewrite !h5_queue_spec. unfold fits. assert (cut (cut d) = cut d) as -> by (apply ztake_all, cut_small). done. }
    split_and!; [by rewrite (tx_mux _ _ X)|by rewrite (tx_at _ _ X)| | |].
    - rewrite h5_queue_spec. by case_match.
    - rewrite h5_queue_spec. by case_match.
    - rewrite Eq. destruct (h5_queue_holds (cut d) bb fs (cut_small d) H) as [H'|[H' _]]; [by eexists|].
      exists []. by rewrite app_nil_r. }
  destruct (negb _); [done|]. etransitivity; [exact Q|apply h5_pump_carries].
Qed.

(** The octets a text becomes on its way to the link. *)
Definition line_octets (m : bool) (ch : Z) (s : bytes) : bytes :=
  if m && (0 <? ch) then [MX_FLAG] ++ mx_frame ch false MX_UIH s ++ [MX_FLAG] else s.

Lemma chan_write_octets ch s bb : chan_write ch s bb = h5_stream (line_octets bb.(b_mux).(mux) ch s) bb.
Proof. unfold chan_write, line_octets, mx_send, mx_emit. by destruct (_ && _). Qed.

Lemma chan_write_carries ch s bb : carries bb (chan_write ch s bb).
Proof. rewrite chan_write_octets. apply h5_stream_carries. Qed.

Lemma at_line_carries ch s bb : carries bb (at_line ch s bb).
Proof. apply chan_write_carries. Qed.

(** [d] is in what [b] has that [a] had not: without H5 it was put out; with H5
    it is among the frames added to those the link held, unless the link is full. *)
Definition said (d : bytes) (a b : IosBbCore) : Prop :=
  if a.(b_link).(h5) then
    forall fs, holds a.(b_link) fs ->
      exists fs', holds b.(b_link) (fs ++ fs') /\ (d ∈ fs' \/ H5_TXQ_SIZE < zlen (records (fs ++ fs')) + 2 + zlen d)
  else exists l1 l2, b.(b_env).(out_log) = a.(b_env).(out_log) ++ l1 ++ d :: l2.

Lemma zlen_records_app fs gs : zlen (records fs) <= zlen (records (fs ++ gs)).
Proof. rewrite records_app, zlen_app. pose proof (zlen_nonneg (records gs)). lia. Qed.

Lemma h5_stream_said d bb : small d -> bb.(b_at).(off) = false -> said d bb (h5_stream d bb).
Proof.
  intros Hd Ho. unfold said, h5_stream. rewrite Ho. destruct (h5 (b_link bb)) eqn:E; cbn [negb].
  2: { exists [], []. reflexivity. }
  intros fs H.
  assert (K : forall b, carries (h5_queue d bb) b ->
    exists fs', holds (b_link b) (fs ++ fs') /\ (d ∈ fs' \/ H5_TXQ_SIZE < zlen (records (fs ++ fs')) + 2 + zlen d)).
  { intros b C. destruct (h5_queue_holds d bb fs Hd H) as [H1|[H1 H2]];
      destruct (C _ H1) as (_ & _ & _ & _ & fs' & H3).
    - rewrite <- app_assoc in H3. eexists. split; [exact H3|]. left. apply elem_of_app. left. by apply list_elem_of_singleton.
    - eexists. split; [exact H3|]. right. pose proof (zlen_records_app fs fs'). lia. }
  destruct (negb _); apply K; [reflexivity|apply h5_pump_carries].
Qed.

Lemma said_later d a b c fs : holds b.(b_link) fs -> said d a b -> carries b c -> said d a c.
Proof.
  unfold said. intros H S C. destruct (h5 (b_link a)).
  - intros gs G. destruct (S gs G) as (fs' & H' & S'). destruct (C _ H') as (_ & _ & _ & _ & g' & H3).
    rewrite <- app_assoc in H3. eexists. split; [exact H3|].
    destruct S' as [S'|S']; [left; apply elem_of_app; by left|right]. rewrite app_assoc. pose proof (zlen_records_app (gs ++ fs') g'). lia.
  - destruct S as (l1 & l2 & E). destruct (C _ H) as (_ & _ & _ & [k P] & _). exists l1, (l2 ++ k).
    change (line_view c) with (b_link c, out_log (b_env c), mux (b_mux c), off (b_at c)) in *. rewrite P, E. by rewrite <- !app_assoc.
Qed.

Lemma said_earlier d a b c fs : holds a.(b_link) fs -> carries a b -> said d b c -> said d a c.
Proof.
  unfold said. intros H C S. destruct (C _ H) as (_ & _ & E & [k P] & _). rewrite E in S. destruct (h5 (b_link a)).
  - intros gs G. destruct (C _ G) as (_ & _ & _ & _ & g' & H'). destruct (S _ H') as (f' & H3 & S').
    rewrite <- app_assoc in H3, S'. exists (g' ++ f'). split; [exact H3|].
    destruct S' as [S'|S']; [left; apply elem_of_app; by right|by right].
  - destruct S as (l1 & l2 & S). exists (k ++ l1), l2. rewrite S, P. by rewrite <- !app_assoc.
Qed.

(** ** The parts of a tick only add output *)

Create HintDb carry discriminated.
#[export] Hint Constants Opaque : carry.
#[export] Hint Resolve at_line_carries chan_write_carries : carry.

Ltac carry_step :=
  lazymatch goal with
  | |- carries ?x ?x => reflexivity
  | |- carries _ (if ?c then _ else _) => destruct c
  | |- carries _ (match ?c with _ => _ end) => destruct c
  | |- carries ?a (upd _ _ ?x) => change (carries a x)
  | |- carries ?a (upd_call _ _ ?x) => change (carries a x)
  | |- carries _ _ => etransitivity; [|solve [eauto 2 with carry]]
  end.

Ltac carry := cbv zeta; repeat carry_step.

Lemma sim_save_carries bb : carries bb (sim_save bb).
Proof. unfold sim_save. carry. Qed.
#[export] Hint Resolve sim_save_carries : carry.

Lemma camp_update_carries bb : carries bb (camp_update bb).
Proof. unfold camp_update. carry. Qed.

Lemma emit_xsigstr_carries bb : carries bb (emit_xsigstr bb).
Proof. unfold emit_xsigstr. carry. Qed.
#[export] Hint Resolve emit_xsigstr_carries : carry.

Lemma emit_xciev_carries bb : carries bb (emit_xciev bb).
Proof. unfold emit_xciev. carry. Qed.

Lemma nitz_report_carries bb : carries bb (nitz_report bb).
Proof. unfold nitz_report. carry. Qed.

Lemma cgreg_line_carries ch stat bb : carries bb (cgreg_line ch stat bb).
Proof. unfold cgreg_line. carry. Qed.

Lemma emit_xcallstat_carries id stat bb : carries bb (emit_xcallstat id stat bb).
Proof. unfold emit_xcallstat. carry. Qed.
#[export] Hint Resolve emit_xciev_carries nitz_report_carries cgreg_line_carries emit_xcallstat_carries : carry.

Lemma call_progress_carries i stat bb : carries bb (call_progress i stat bb).
Proof. unfold call_progress. carry. Qed.
#[export] Hint Resolve call_progress_carries : carry.

Lemma reg_tick_carries bb : carries bb (reg_tick bb).
Proof. unfold reg_tick. carry. Qed.
#[export] Hint Resolve reg_tick_carries : carry.

Lemma tick_reg_check_carries now bb : carries bb (tick_reg_check now bb).
Proof. unfold tick_reg_check, reg_schedule. carry. Qed.

Lemma tick_reg_carries now bb : carries bb (tick_reg now bb).
Proof. unfold tick_reg. carry. Qed.

Lemma tick_temp_carries now bb : carries bb (tick_temp now bb).
Proof. unfold tick_temp. cbn [fold_left]. carry. Qed.

Lemma tick_xsim_carries now bb : carries bb (tick_xsim now bb).
Proof. unfold tick_xsim. carry. Qed.

Lemma tick_call_carries now i bb : carries bb (tick_call now i bb).
Proof. unfold tick_call. carry. Qed.

Lemma tick_calls_carries now bb : carries bb (tick_calls now bb).
Proof.
  apply (for_each_ind (fun s => carries bb s)); [reflexivity|].
  intros i s _ Hs. etransitivity; [exact Hs|apply tick_call_carries].
Qed.

Lemma tick_h5_carries now bb : carries bb (tick_h5 now bb).
Proof.
  unfold tick_h5. destruct (h5_unacked (b_link bb)) eqn:U; [reflexivity|]. destruct (_ <=? _); [|reflexivity].
  intros fs [Hs (ds & Q & E)].
  destruct (h5_retransmit_spec bb) as (R1 & R2 & _ & R4 & R5).
  { rewrite E in Hs. apply Forall_app in Hs as [Hs _]. exact (proj1 (Forall_fmap _ _ _) Hs). }
  pose proof (h5_retransmit_tx bb) as X. cbv zeta in *.
  split_and!; [exact (f_equal mux (tx_mux _ _ X))|exact (f_equal off (tx_at _ _ X))|apply R1| |].
  - exists (data_wire (b_link bb) <$> h5_unacked (b_link bb)). exact R5.
  - exists []. rewrite app_nil_r. split; [done|]. exists ds. split; [transitivity (h5_txq (b_link bb)); [exact R4|done]|].
    rewrite E. f_equal. f_equal. symmetry. exact R2.
Qed.

Lemma tick_gps_carries now bb : carries bb (tick_gps now bb).
Proof. unfold tick_gps. destruct (ios_bb_gps_poll _ _) as [g [[ch line]|]]; carry. Qed.

Lemma tick_rest_carries now bb :
  carries bb (tick_gps now (tick_h5 now (tick_calls now (tick_xsim now (tick_temp now bb))))).
Proof.
  etransitivity; [apply tick_temp_carries|]. etransitivity; [apply tick_xsim_carries|].
  etransitivity; [apply tick_calls_carries|]. etransitivity; [apply tick_h5_carries|]. apply tick_gps_carries.
Qed.

Lemma tick_carries now bb : carries bb (ios_bb_tick now bb).
Proof.
  assert (N : carries bb (bb <| b_env; now_ms := now |>)) by (change (carries bb bb); reflexivity).
  unfold ios_bb_tick. cbv zeta. destruct (off _); [exact N|].
  etransitivity; [|apply tick_rest_carries]. etransitivity; [|apply tick_reg_carries].
  etransitivity; [|apply tick_reg_check_carries]. etransitivity; [exact N|apply camp_update_carries].
Qed.

(** ** The report *)

Lemma zlen_digits_of fuel base n : zlen (digits_of fuel base n) <= Z.of_nat fuel.
Proof.
  revert n. induction fuel as [|fuel IH]; intros n; cbn [digits_of]; [done|].
  destruct (_ <? _); rewrite ?zlen_app; [change (zlen [digit_char n]) with 1; lia|].
  specialize (IH (n / base)). change (zlen [_]) with 1. lia.
Qed.

(** The line of a completed registration, and its octets on the report channel. *)
Definition creg_text (c : Ctl) : bytes := crlf ++ (str "+CREG: 1," ++ fmt_X c.(lac) ++ str "," ++ fmt_X c.(ci)) ++ crlf.
Definition creg_report (bb : IosBbCore) : bytes := line_octets bb.(b_mux).(mux) bb.(b_reg).(creg_ch) (creg_text bb.(b_ctl)).

Lemma creg_text_len c : zlen (creg_text c) <= 50.
Proof.
  unfold creg_text. rewrite !zlen_app. unfold fmt_X. pose proof (zlen_digits_of 16 16 (u32 (lac c))). pose proof (zlen_digits_of 16 16 (u32 (ci c))).
  change (zlen crlf) with 2. change (zlen (str "+CREG: 1,")) with 9. change (zlen (str ",")) with 1. lia.
Qed.

Lemma creg_report_small bb : small (creg_report bb).
Proof.
  pose proof (creg_text_len (b_ctl bb)). unfold creg_report, line_octets, small, H5_MAX_PAYLOAD. case_match; [|lia].
  rewrite !zlen_app. unfold mx_frame, mx_header. cbv zeta. rewrite !zlen_app. change (zlen [_; _]) with 2. change (zlen [_]) with 1.
  case_match; change (zlen [_; _]) with 2 || change (zlen [_]) with 1; lia.
Qed.

(** The step that reports puts the line out first. *)
Lemma reg_tick_said bb fs :
  holds bb.(b_link) fs -> bb.(b_at).(off) = false -> is_open bb.(b_reg).(creg_ch) bb = true -> bb.(b_reg).(reg_step) = 2 ->
  said (creg_report bb) bb (reg_tick bb).
Proof.
  intros H Ho O E. set (ch := creg_ch (b_reg bb)).
  set (b1 := at_line ch (str "+CREG: 1," ++ fmt_X bb.(b_ctl).(lac) ++ str "," ++ fmt_X bb.(b_ctl).(ci)) bb).
  assert (E1 : b1 = h5_stream (creg_report bb) bb).
  { unfold b1, at_line, chan_printf. fold (creg_text (b_ctl bb)). rewrite ztake_all by (pose proof (creg_text_len (b_ctl bb)); lia).
    apply chan_write_octets. }
  assert (C : carries b1 (reg_tick bb)).
  { unfold reg_tick. cbv zeta. rewrite O, E. change (2 =? 1) with false. change (2 =? 2) with true. cbn [negb].
    fold ch. fold b1. clearbody b1. carry. }
  destruct (at_line_carries ch (str "+CREG: 1," ++ fmt_X bb.(b_ctl).(lac) ++ str "," ++ fmt_X bb.(b_ctl).(ci)) bb fs H)
    as (_ & _ & _ & _ & fs' & H1).
  eapply said_later; [exact H1| |exact C]. change (said (creg_report bb) bb b1). rewrite E1. by apply h5_stream_said; [apply creg_report_small|].
Qed.

(** ** Frames *)

(** Everything that decides whether the modem can register. *)
Definition view_cover (bb : IosBbCore) :=
  (bb.(b_at).(off), bb.(b_ctl), bb.(b_ch), bb.(b_env).(now_ms),
   (bb.(b_sim).(pin_left), bb.(b_sim).(pin_on), bb.(b_sim).(pin_ok)),
   (bb.(b_reg).(cfun), bb.(b_reg).(cops_detached), bb.(b_reg).(creg_n), bb.(b_reg).(creg_ch))).

(** The script's own fields. *)
Definition script (bb : IosBbCore) : Z * Z * Z * Z :=
  let r := bb.(b_reg) in (r.(camp_due_ms), r.(reg_step), r.(reg_due_ms), r.(last_creg)).

Definition view_all (bb : IosBbCore) := (view_cover bb, script bb).

#[export] Instance view_cover_tx : TxView view_cover.
Proof.
  intros a b H. pose proof (tx_now _ _ H). destruct H. unfold view_cover.
  by rewrite tx_at, tx_ctl, tx_ch, tx_sim, tx_reg, H0.
Qed.

#[export] Instance view_all_tx : TxView view_all.
Proof.
  intros a b H. unfold view_all, script. by rewrite (view_cover_tx a b H), (tx_reg _ _ H).
Qed.

Lemma sim_save_cover bb : view_cover (sim_save bb) = view_cover bb.
Proof. unfold sim_save. views. Qed.
#[export] Hint Rewrite sim_save_cover : views.

Lemma camp_update_cover bb : view_cover (camp_update bb) = view_cover bb.
Proof. unfold camp_update. views. Qed.

Lemma emit_xciev_cover bb : view_cover (emit_xciev bb) = view_cover bb.
Proof. unfold emit_xciev. views. Qed.
#[export] Hint Rewrite camp_update_cover emit_xciev_cover : views.

Lemma tick_reg_check_cover now bb : view_cover (tick_reg_check now bb) = view_cover bb.
Proof. unfold tick_reg_check, reg_schedule. views. Qed.

Lemma tick_reg_cover now bb : view_cover (tick_reg now bb) = view_cover bb.
Proof. unfold tick_reg, reg_tick. views. Qed.

(** The rest of the tick. *)
Lemma tick_temp_all now bb : view_all (tick_temp now bb) = view_all bb.
Proof. unfold tick_temp. cbn [fold_left]. views. Qed.

Lemma tick_xsim_all now bb : view_all (tick_xsim now bb) = view_all bb.
Proof. unfold tick_xsim. views. Qed.

Lemma call_progress_all i stat bb : view_all (call_progress i stat bb) = view_all bb.
Proof. unfold call_progress. views. Qed.
#[export] Hint Rewrite call_progress_all : views.

Lemma tick_call_all now i bb : view_all (tick_call now i bb) = view_all bb.
Proof. unfold tick_call. views. Qed.

Lemma tick_calls_all now bb : view_all (tick_calls now bb) = view_all bb.
Proof.
  apply (for_each_ind (fun s => view_all s = view_all bb)); [done|].
  intros i s _ Hs. by rewrite tick_call_all.
Qed.

Lemma tick_gps_all now bb : view_all (tick_gps now bb) = view_all bb.
Proof.
  unfold tick_gps. destruct (ios_bb_gps_poll _ _) as [g [[ch line]|]]; [|done]. views.
Qed.

Lemma tick_rest now b3 :
  view_all (tick_gps now (tick_h5 now (tick_calls now (tick_xsim now (tick_temp now b3))))) = view_all b3.
Proof.
  rewrite tick_gps_all, (view_all_tx _ _ (tick_h5_tx _ _)), tick_calls_all, tick_xsim_all. apply tick_temp_all.
Qed.

(** ** The automaton *)

(** In coverage: on, the radio on, the card unlocked, the network there, and
    the phone listening for +CREG. *)
Record covered (bb : IosBbCore) : Prop := mkCovered {
  cv_on : bb.(b_at).(off) = false;
  cv_camp : camp_possible bb = true;
  cv_creg : 0 < bb.(b_reg).(creg_n);
  cv_open : is_open bb.(b_reg).(creg_ch) bb = true
}.

Lemma view_covered a b : view_cover a = view_cover b -> covered b -> covered a.
Proof.
  intros E. injection E as E1 E2 E3 E4 E5 E6 E7 E8 E9 E10 E11.
  intros []. constructor; unfold camp_possible, sim_locked, is_open, get_ch in *; cbv zeta in *; congruence.
Qed.

(** One tick at [now], [search] being the time a new search takes: the state of the
    search and the registration it stands for, and the step of the script that is
    due after a change was noticed. *)
Definition reg_front (now search : Z) (s : Z * Z * Z * Z) : Z * Z * Z * Z :=
  let '(camp, step, due, last) := s in
  let camp := if camp =? 0 then let d := now + search in d + b2z (d =? 0) else camp in
  let stat := if camp <=? now then 1 else 2 in
  let '(step, due) :=
    if (step =? 0) && negb (stat =? last) then
      if (stat =? 1) && (last =? 2) then (2, now) else (1, now + 300)
    else (step, due) in
  (camp, stat, step, due).

Definition reg_ref (now search : Z) (s : Z * Z * Z * Z) : Z * Z * Z * Z :=
  let last := s.2 in
  let '(camp, stat, step, due) := reg_front now search s in
  if negb (step =? 0) && (due <=? now) then
    if step =? 1 then
      if stat =? 1 then (camp, 2, now + 400, 2) else (camp, 0, due, stat)
    else if step =? 2 then (camp, 0, due, 1)
    else (camp, step, due, last)
  else (camp, step, due, last).

(** The tick reports the completed registration. *)
Definition reg_reports (now search : Z) (s : Z * Z * Z * Z) : bool :=
  let '(_, _, step, due) := reg_front now search s in (step =? 2) && (due <=? now).

Lemma camped_stat bb :
  covered bb -> bb.(b_reg).(camp_due_ms) <> 0 ->
  reg_stat bb = if bb.(b_reg).(camp_due_ms) <=? bb.(b_env).(now_ms) then 1 else 2.
Proof.
  intros [_ C _ _] Hd. unfold reg_stat, camped. rewrite C, (proj2 (Z.eqb_neq _ 0) Hd). cbn [andb negb].
  unfold camp_possible in C. apply andb_true_iff in C as [C _]. apply andb_true_iff in C as [C L].
  apply andb_true_iff in C as [C D]. rewrite C. apply negb_true_iff in L, D. rewrite L, D. done.
Qed.

#[export] Instance script_tx : TxView script.
Proof. intros a b H. unfold script. by rewrite (tx_reg _ _ H). Qed.

Lemma sim_save_script bb : script (sim_save bb) = script bb.
Proof. unfold sim_save. views. Qed.

Lemma emit_xciev_script bb : script (emit_xciev bb) = script bb.
Proof. unfold emit_xciev. views. Qed.

Lemma camp_update_script bb :
  covered bb ->
  let '(camp, step, due, last) := script bb in
  script (camp_update bb) =
  (if camp =? 0 then let d := bb.(b_env).(now_ms) + search_time bb in d + b2z (d =? 0) else camp,
   step, due, last).
Proof.
  intros [_ C _ _]. unfold camp_update, script. cbv zeta. rewrite C. cbn [negb].
  destruct (camp_due_ms (b_reg bb) =? 0); [done|]. destruct (_ && _); [|done].
  destruct (negb _); [|done]. exact (sim_save_script (bb <| b_reg; camp_noted := true |>
    <| b_sim; loci_plmn := fit 7 (plmn (b_ctl (bb <| b_reg; camp_noted := true |>))) |>)).
Qed.

(** The report of a completed registration. *)
Lemma reg_tick_done bb :
  is_open bb.(b_reg).(creg_ch) bb = true -> bb.(b_reg).(reg_step) = 2 ->
  script (reg_tick bb) = (bb.(b_reg).(camp_due_ms), 0, bb.(b_reg).(reg_due_ms), 1).
Proof.
  intros O E. unfold reg_tick. cbv zeta. rewrite O, E. cbn [negb].
  change (2 =? 1) with false. change (2 =? 2) with true. cbv iota.
  match goal with |- script (upd b_reg _ (emit_xciev ?x)) = _ => assert (R : script x =
    (camp_due_ms (b_reg bb), reg_step (b_reg bb), reg_due_ms (b_reg bb), 1)) end.
  - match goal with |- script ?x = ?v => transitivity (script ((at_line (creg_ch (b_reg bb))
      (str "+CREG: 1," ++ fmt_X bb.(b_ctl).(lac) ++ str "," ++ fmt_X bb.(b_ctl).(ci)) bb) <| b_reg; last_creg := 1 |>)) end.
    + views.
    + unfold script. simpl. by rewrite at_line_reg.
  - rewrite <- emit_xciev_script in R. revert R.
    match goal with |- script ?x = _ -> _ => generalize x end.
    intros y R. injection R as R1 R2 R3 R4. unfold script. simpl. by rewrite R1, R3, R4.
Qed.

Lemma reg_tick_script bb :
  covered bb -> 0 <= bb.(b_reg).(reg_step) <= 2 ->
  let '(camp, step, due, last) := script bb in
  script (reg_tick bb) =
  if step =? 1 then
    if reg_stat bb =? 1 then (camp, 2, bb.(b_env).(now_ms) + 400, 2) else (camp, 0, due, reg_stat bb)
  else if step =? 2 then (camp, 0, due, 1) else (camp, step, due, last).
Proof.
  intros [_ _ _ O] H. unfold script at 1. cbv zeta.
  destruct (Z.eqb_spec (reg_step (b_reg bb)) 1) as [E1|E1].
  - unfold reg_tick. cbv zeta. rewrite O, E1. cbn [negb]. change (1 =? 1) with true. cbv iota.
    destruct (reg_stat bb =? 1).
    + set (x := at_line _ _ bb). set (y := cgreg_line _ _ _).
      pose proof (cgreg_line_tx (creg_ch (b_reg bb)) 2 (x <| b_reg; last_creg := 2 |>)) as X. fold y in X.
      pose proof (tx_now _ _ X) as N. pose proof (tx_reg _ _ X) as R. simpl in N. unfold script. simpl.
      rewrite R, N. unfold x. simpl. rewrite at_line_reg. by rewrite (tx_now _ _ (at_line_tx _ _ _)).
    + set (x := at_line _ _ bb). unfold script. simpl.
      rewrite (tx_reg _ _ (cgreg_line_tx _ _ _)). unfold x. simpl. by rewrite at_line_reg.
  - destruct (Z.eqb_spec (reg_step (b_reg bb)) 2) as [E2|E2]; [by apply reg_tick_done|].
    assert (E0 : reg_step (b_reg bb) = 0) by lia. unfold reg_tick. cbv zeta.
    rewrite O, E0. unfold script. simpl. by rewrite E0.
Qed.

Lemma tick_reg_check_script now bb :
  covered bb -> bb.(b_env).(now_ms) = now ->
  let '(camp, step, due, last) := script bb in
  script (tick_reg_check now bb) =
  if (step =? 0) && negb (reg_stat bb =? last) then
    if (reg_stat bb =? 1) && (last =? 2) then (camp, 2, now, last) else (camp, 1, now + 300, last)
  else (camp, step, due, last).
Proof.
  intros [_ C N O] Hn. unfold tick_reg_check, script. cbv zeta.
  rewrite O, (proj2 (Z.ltb_lt 0 _) N), !andb_true_r. destruct (_ && _); [|done].
  destruct (_ && _); [done|]. unfold reg_schedule.
  unfold camp_possible in C. apply andb_true_iff in C as [C _]. apply andb_true_iff in C as [C _].
  apply andb_true_iff in C as [C _]. rewrite C. cbn [negb]. by rewrite <- Hn.
Qed.

Lemma view_now a b : view_cover a = view_cover b -> now_ms (b_env a) = now_ms (b_env b).
Proof. intros E. by injection E. Qed.

Lemma reg_check_range now bb :
  0 <= bb.(b_reg).(reg_step) <= 2 -> 0 <= (tick_reg_check now bb).(b_reg).(reg_step) <= 2.
Proof.
  intros H. unfold tick_reg_check, reg_schedule.
  destruct (_ && _ && _ && _); [|done]. destruct (_ && _); [simpl; lia|]. destruct (negb _); [done|simpl; lia].
Qed.

Lemma view_all_inv a b : view_all a = view_all b -> view_cover a = view_cover b /\ script a = script b.
Proof. intros E. exact (conj (f_equal fst E) (f_equal snd E)). Qed.

Lemma tick_reg_branch now bb :
  let '(camp, step, due, last) := script bb in
  script (tick_reg now bb) = if negb (step =? 0) && (due <=? now) then script (reg_tick bb) else script bb.
Proof. unfold tick_reg. cbn. by destruct (_ && _). Qed.

(** The first two parts of a tick. *)
Lemma tick_front now bb :
  covered bb ->
  let b0 := bb <| b_env; now_ms := now |> in
  let b2 := tick_reg_check now (camp_update b0) in
  view_cover b2 = view_cover b0 /\
  let '(camp, stat, step, due) := reg_front now (search_time bb) (script bb) in
  script b2 = (camp, step, due, (script bb).2) /\ reg_stat b2 = stat.
Proof.
  intros Cv b0. assert (C0 : covered b0) by (destruct Cv; by constructor).
  set (b1 := camp_update b0). set (b2 := tick_reg_check now b1).
  assert (V1 : view_cover b1 = view_cover b0) by apply camp_update_cover.
  assert (V2 : view_cover b2 = view_cover b0) by (unfold b2; by rewrite tick_reg_check_cover).
  split; [exact V2|]. pose proof (view_covered _ _ V1 C0) as C1. pose proof (view_covered _ _ V2 C0) as C2.
  assert (N1 : now_ms (b_env b1) = now) by exact (view_now _ _ V1).
  assert (N2 : now_ms (b_env b2) = now) by exact (view_now _ _ V2).
  pose proof (camp_update_script b0 C0) as S1. pose proof (tick_reg_check_script now b1 C1 N1) as S2.
  change (search_time bb) with (search_time b0). change (script bb) with (script b0). fold b1 in S1. fold b2 in S2.
  destruct (script b0) as [[[camp step] due] last] eqn:Es. change (now_ms (b_env b0)) with now in S1.
  set (camp' := if camp =? 0 then _ else _) in S1.
  assert (Hc : camp' <> 0).
  { unfold camp'. destruct (Z.eqb_spec camp 0); [|done]. cbv zeta.
    destruct (Z.eqb_spec (now + search_time b0) 0) as [E|E]; [rewrite E|]; unfold b2z; lia. }
  set (stat := if camp' <=? now then 1 else 2).
  assert (St : forall b, covered b -> now_ms (b_env b) = now -> (script b).1.1.1 = camp' -> reg_stat b = stat).
  { intros b Cb Nb Eb. change (camp_due_ms (b_reg b) = camp') in Eb.
    rewrite (camped_stat b Cb) by congruence. by rewrite Eb, Nb. }
  rewrite S1 in S2. rewrite (St b1 C1 N1) in S2 by (by rewrite S1).
  unfold reg_front. fold camp'. cbv zeta. fold stat.
  destruct ((step =? 0) && negb (stat =? last)); [destruct ((stat =? 1) && (last =? 2))|];
    (split; [exact S2|apply (St b2 C2 N2); by rewrite S2]).
Qed.

Lemma reg_front_range now se s : 0 <= s.1.1.2 <= 2 -> 0 <= (reg_front now se s).1.2 <= 2.
Proof.
  destruct s as [[[camp step] due] last]. cbn [fst snd]. intros H. unfold reg_front. cbv zeta.
  repeat match goal with |- context [if ?c then _ else _] => destruct c end; cbn; lia.
Qed.

(** Coverage is not the tick's business. *)
Lemma tick_cover now bb : bb.(b_at).(off) = false -> view_cover (ios_bb_tick now bb) = view_cover (bb <| b_env; now_ms := now |>).
Proof.
  intros Ho. unfold ios_bb_tick. cbv zeta. set (b0 := bb <| b_env; now_ms := now |>).
  change (off (b_at b0)) with (off (b_at bb)). rewrite Ho.
  rewrite (proj1 (view_all_inv _ _ (tick_rest now _))), tick_reg_cover, tick_reg_check_cover. apply camp_update_cover.
Qed.

(** The tick implements the automaton. *)
Lemma tick_script now bb :
  covered bb -> 0 <= bb.(b_reg).(reg_step) <= 2 ->
  script (ios_bb_tick now bb) = reg_ref now (search_time bb) (script bb) /\
  covered (ios_bb_tick now bb).
Proof.
  intros Cv Hs. pose proof (tick_cover now bb (cv_on _ Cv)) as V.
  assert (C0 : covered (bb <| b_env; now_ms := now |>)) by (destruct Cv; by constructor).
  split; [|exact (view_covered _ _ V C0)]. clear V. destruct (tick_front now bb Cv) as [V2 F]. cbv zeta in *.
  pose proof (reg_front_range now (search_time bb) (script bb) Hs) as R.
  unfold ios_bb_tick. cbv zeta. set (b0 := bb <| b_env; now_ms := now |>) in *. rewrite (cv_on _ C0).
  set (b2 := tick_reg_check now (camp_update b0)) in *. pose proof (view_covered _ _ V2 C0) as C2.
  assert (N2 : now_ms (b_env b2) = now) by exact (view_now _ _ V2).
  rewrite (proj2 (view_all_inv _ _ (tick_rest now (tick_reg now b2)))). unfold reg_ref.
  destruct (reg_front now (search_time bb) (script bb)) as [[[camp stat] step] due]. destruct F as [S2 St]. cbn [fst snd] in R.
  assert (H2 : 0 <= reg_step (b_reg b2) <= 2) by (change (reg_step (b_reg b2)) with (script b2).1.1.2; by rewrite S2).
  pose proof (reg_tick_script b2 C2 H2) as S3. pose proof (tick_reg_branch now b2) as S4.
  rewrite S2 in S3, S4. rewrite S4, S3, St, N2. by destruct (_ && _).
Qed.

(** A tick that reports. *)
Lemma tick_said now bb fs :
  covered bb -> holds bb.(b_link) fs -> reg_reports now (search_time bb) (script bb) = true ->
  said (creg_report bb) bb (ios_bb_tick now bb).
Proof.
  intros Cv H Hr. destruct (tick_front now bb Cv) as [V2 F]. cbv zeta in *.
  unfold ios_bb_tick. cbv zeta. set (b0 := bb <| b_env; now_ms := now |>) in *.
  assert (C0 : covered b0) by (destruct Cv; by constructor). rewrite (cv_on _ C0).
  assert (K : carries bb (tick_reg_check now (camp_update b0))).
  { transitivity b0; [change (carries bb bb); reflexivity|].
    etransitivity; [apply camp_update_carries|apply tick_reg_check_carries]. }
  set (b2 := tick_reg_check now (camp_update b0)) in *. pose proof (view_covered _ _ V2 C0) as C2.
  destruct (K fs H) as (Em & _ & _ & _ & fs2 & H2).
  assert (Er : creg_report bb = creg_report b2).
  { assert (b_ctl b2 = b_ctl bb /\ creg_ch (b_reg b2) = creg_ch (b_reg bb)) as [E1 E2] by (split; by injection V2).
    unfold creg_report. change (mux (b_mux b2) = mux (b_mux bb)) in Em. by rewrite E1, E2, Em. }
  unfold reg_reports in Hr. destruct (reg_front now (search_time bb) (script bb)) as [[[camp stat] step] due].
  destruct F as [S2 _]. apply andb_true_iff in Hr as [Hst Hd]. apply Z.eqb_eq in Hst. subst step.
  unfold script in S2. cbv zeta in S2. apply pair_equal_spec in S2 as [[[_ S2]%pair_equal_spec D2]%pair_equal_spec _].
  assert (T : tick_reg now b2 = reg_tick b2) by (unfold tick_reg; by rewrite S2, D2, Hd).
  eapply said_earlier; [exact H|exact K|]. rewrite T, Er.
  destruct (reg_tick_carries b2 _ H2) as (_ & _ & _ & _ & fs3 & H3).
  eapply said_later; [exact H3| |apply tick_rest_carries].
  eapply reg_tick_said; [exact H2|apply C2|apply C2|exact S2].
Qed.

(** The report is the same before and after a tick. *)
Lemma tick_report now bb fs : bb.(b_at).(off) = false -> holds bb.(b_link) fs ->
  creg_report (ios_bb_tick now bb) = creg_report bb.
Proof.
  intros Ho H. pose proof (tick_cover now bb Ho) as V. destruct (tick_carries now bb fs H) as (Em & _).
  change (mux (b_mux (ios_bb_tick now bb)) = mux (b_mux bb)) in Em.
  assert (b_ctl (ios_bb_tick now bb) = b_ctl bb /\ creg_ch (b_reg (ios_bb_tick now bb)) = creg_ch (b_reg bb)) as [E1 E2]
    by (split; by injection V).
  unfold creg_report. by rewrite E1, E2, Em.
Qed.

(** Comparisons the context decides. *)
Ltac zdecide_once :=
  match goal with
  | |- context [?a <=? ?b] => first [rewrite (proj2 (Z.leb_le a b)) by lia|rewrite (proj2 (Z.leb_gt a b)) by lia]
  | |- context [?a =? ?b] => first [rewrite (proj2 (Z.eqb_eq a b)) by lia|rewrite (proj2 (Z.eqb_neq a b)) by lia]
  end; cbn [negb andb b2z].
Ltac zdecide := repeat zdecide_once.

Lemma reg_ref_wait now search camp due :
  0 < camp <= now -> reg_ref now search (camp, 0, due, 1) = (camp, 0, due, 1).
Proof. intros H. unfold reg_ref, reg_front. zdecide. reflexivity. Qed.

(** The run of the automaton from the start of the search: it ends registered, and
    one of the last three ticks reported it. *)
Lemma reg_ref_run t0 t1 t2 t3 se s1 s2 s3 due last :
  0 < t0 -> 0 < se -> t0 + se <= t1 -> t1 + 400 <= t2 -> t2 + 400 <= t3 ->
  let r0 := reg_ref t0 se (0, 0, due, last) in
  let r1 := reg_ref t1 s1 r0 in
  let r2 := reg_ref t2 s2 r1 in
  (exists due', reg_ref t3 s3 r2 = (t0 + se, 0, due', 1)) /\
  (reg_reports t1 s1 r0 || reg_reports t2 s2 r1 || reg_reports t3 s3 r2) = true.
Proof.
  intros H0 Hs H1 H2 H3. cbv zeta. destruct (Z.eq_dec last 2) as [->|Hl].
  - assert (E0 : reg_ref t0 se (0, 0, due, 2) = (t0 + se, 0, due, 2)) by (unfold reg_ref, reg_front; cbv zeta; zdecide; rewrite Z.add_0_r; zdecide; reflexivity).
    assert (E1 : reg_ref t1 s1 (t0 + se, 0, due, 2) = (t0 + se, 0, t1, 1)) by (unfold reg_ref, reg_front; zdecide; reflexivity).
    assert (P1 : reg_reports t1 s1 (t0 + se, 0, due, 2) = true) by (unfold reg_reports, reg_front; zdecide; reflexivity).
    rewrite E0, E1, P1, !reg_ref_wait by lia. by split; [exists t1|].
  - assert (E0 : reg_ref t0 se (0, 0, due, last) = (t0 + se, 1, t0 + 300, last))
      by (unfold reg_ref, reg_front; cbv zeta; zdecide; rewrite Z.add_0_r; zdecide; reflexivity).
    rewrite E0. destruct (Z_le_gt_dec (t0 + 300) t1) as [Hd|Hd].
    + assert (E1 : reg_ref t1 s1 (t0 + se, 1, t0 + 300, last) = (t0 + se, 2, t1 + 400, 2))
        by (unfold reg_ref, reg_front; zdecide; reflexivity).
      assert (E2 : reg_ref t2 s2 (t0 + se, 2, t1 + 400, 2) = (t0 + se, 0, t1 + 400, 1))
        by (unfold reg_ref, reg_front; zdecide; reflexivity).
      assert (P2 : reg_reports t2 s2 (t0 + se, 2, t1 + 400, 2) = true) by (unfold reg_reports, reg_front; zdecide; reflexivity).
      rewrite E1, E2, P2, reg_ref_wait, orb_true_r by lia. by split; [exists (t1 + 400)|].
    + assert (E1 : reg_ref t1 s1 (t0 + se, 1, t0 + 300, last) = (t0 + se, 1, t0 + 300, last))
        by (unfold reg_ref, reg_front; zdecide; reflexivity).
      assert (E2 : reg_ref t2 s2 (t0 + se, 1, t0 + 300, last) = (t0 + se, 2, t2 + 400, 2))
        by (unfold reg_ref, reg_front; zdecide; reflexivity).
      assert (E3 : reg_ref t3 s3 (t0 + se, 2, t2 + 400, 2) = (t0 + se, 0, t2 + 400, 1))
        by (unfold reg_ref, reg_front; zdecide; reflexivity).
      assert (P3 : reg_reports t3 s3 (t0 + se, 2, t2 + 400, 2) = true) by (unfold reg_reports, reg_front; zdecide; reflexivity).
      rewrite E1, E2, E3, P3, orb_true_r. by split; [exists (t2 + 400)|].
Qed.

Lemma reg_ref_range now se camp step due last :
  0 <= step <= 2 ->
  let '(_, step', _, _) := reg_ref now se (camp, step, due, last) in 0 <= step' <= 2.
Proof.
  intros H. unfold reg_ref, reg_front. cbv zeta.
  repeat match goal with |- context [if ?c then _ else _] => destruct c end; lia.
Qed.

(** A tick seen from the script alone. *)
Lemma tick_script_step now bb :
  covered bb -> 0 <= (script bb).1.1.2 <= 2 ->
  script (ios_bb_tick now bb) = reg_ref now (search_time bb) (script bb) /\
  covered (ios_bb_tick now bb) /\ 0 <= (script (ios_bb_tick now bb)).1.1.2 <= 2.
Proof.
  intros Cv Hs. destruct (tick_script now bb Cv Hs) as [E C]. split_and!; try done; rewrite E.
  all: destruct (script bb) as [[[camp step] due] last];
    pose proof (reg_ref_range now (search_time bb) camp step due last Hs) as R;
    destruct (reg_ref _ _ _) as [[[? ?] ?] ?]; simpl in *; lia.
Qed.

(** A tick that reports, followed by others. *)
Lemma ticks_said d a b l fs : holds b.(b_link) fs -> said d a b -> said d a (fold_left (fun bb t => ios_bb_tick t bb) l b).
Proof.
  revert b fs. induction l as [|t l IH]; intros b fs H S; [done|]. cbn [fold_left].
  destruct (tick_carries t b fs H) as (_ & _ & _ & _ & fs' & H'). eapply IH; [exact H'|].
  eapply said_later; [exact H|exact S|apply tick_carries].
Qed.

(** C12. A modem in coverage registers and says so.  Let the modem be on, its radio
    on, its card unlocked, a network there, the phone listening for +CREG on an open
    channel, no search or report under way, and its link in the state every history
    leaves it in.  Then a tick starts the search, and with ticks after the search time
    and after the two report delays it ends registered, which is what the device shows
    as attached, and the line +CREG: 1 with the area and cell of the network went to
    the phone on that channel: without H5 it was put out after what was put out
    before; with H5 it is among the frames added to those the link holds until they
    are acknowledged, unless these leave no room for it in the queue. *)
Theorem registers bb t0 t1 t2 t3 due last :
  covered bb -> link_wf bb.(b_link) -> script bb = (0, 0, due, last) -> 0 < t0 -> 0 < search_time bb ->
  t0 + search_time bb <= t1 -> t1 + 400 <= t2 -> t2 + 400 <= t3 ->
  let bb' := fold_left (fun bb t => ios_bb_tick t bb) [t0; t1; t2; t3] bb in
  bb'.(b_reg).(last_creg) = 1 /\ bb'.(b_reg).(reg_step) = 0 /\ ios_bb_attached bb' = true /\
  said (creg_report bb) bb bb'.
Proof.
  intros Cv W E H0 Hs H1 H2 H3. cbv zeta. destruct (holds_wf _ W) as [f0 F0].
  set (b0 := ios_bb_tick t0 bb). set (b1 := ios_bb_tick t1 b0). set (b2 := ios_bb_tick t2 b1).
  destruct (tick_script_step t0 bb Cv) as (E0 & C0 & R0); [by rewrite E|].
  destruct (tick_script_step t1 b0 C0 R0) as (E1 & C1 & R1). destruct (tick_script_step t2 b1 C1 R1) as (E2 & C2 & R2).
  destruct (tick_script_step t3 b2 C2 R2) as (E3 & C3 & _).
  pose proof (tick_carries t0 bb) as K0. pose proof (tick_carries t1 b0) as K1. pose proof (tick_carries t2 b1) as K2.
  destruct (K0 _ F0) as (_ & _ & _ & _ & g1 & F1). destruct (K1 _ F1) as (_ & _ & _ & _ & g2 & F2).
  destruct (K2 _ F2) as (_ & _ & _ & _ & g3 & F3).
  pose proof (tick_report t0 bb _ (cv_on _ Cv) F0) as P0. pose proof (tick_report t1 b0 _ (cv_on _ C0) F1) as P1.
  pose proof (tick_report t2 b1 _ (cv_on _ C1) F2) as P2. fold b0 in P0, E0. fold b1 in P1, E1. fold b2 in P2, E2.
  destruct (reg_ref_run t0 t1 t2 t3 (search_time bb) (search_time b0) (search_time b1) (search_time b2) due last H0 Hs H1 H2 H3)
    as [(due' & E') Rp]. cbv zeta in E', Rp. rewrite E in E0. rewrite <- E0, <- E1, <- E2 in Rp, E'. rewrite E' in E3.
  assert (C01 : carries bb b1) by (etransitivity; [exact K0|exact K1]).
  assert (C02 : carries bb b2) by (etransitivity; [exact C01|exact K2]).
  assert (said (creg_report bb) bb (ios_bb_tick t3 b2)) as S.
  { apply orb_true_iff in Rp as [[Rp|Rp]%orb_true_iff|Rp].
    - eapply said_earlier; [exact F0|exact K0|]. apply (ticks_said _ _ b1 [t2; t3] _ F2). rewrite <- P0. by eapply tick_said.
    - eapply said_earlier; [exact F0|exact C01|]. apply (ticks_said _ _ b2 [t3] _ F3). rewrite <- P0, <- P1. by eapply tick_said.
    - eapply said_earlier; [exact F0|exact C02|]. rewrite <- P0, <- P1, <- P2. by eapply tick_said. }
  cbn [fold_left]. fold b0 b1 b2. revert E3 C3 S. generalize (ios_bb_tick t3 b2).
  intros b E3 C3 S. unfold script in E3. cbv zeta in E3. injection E3 as _ S3 _ L3.
  split_and!; [done|done| |done]. unfold ios_bb_attached. by rewrite (cv_on _ C3), L3.
Qed.

(** An unlocked modem whose phone enabled +CREG on channel 2. *)
Definition ex_covered : IosBbCore :=
  ex_ready <| b_ch ::= alter (fun c => c <| ch_open := true |>) 2%nat |> <| b_reg; creg_n := 1 |>.

Lemma registers_witness :
  let bb' := fold_left (fun bb t => ios_bb_tick t bb) [1000; 9000; 9500; 10000] ex_covered in
  bb'.(b_reg).(last_creg) = 1 /\ ios_bb_attached bb' = true /\
  exists l1 l2, bb'.(b_env).(out_log) = l1 ++ (crlf ++ str "+CREG: 1,1,1" ++ crlf) :: l2.
Proof.
  destruct (registers ex_covered 1000 9000 9500 10000 0 0) as (H1 & _ & H2 & l1 & l2 & H3).
  - constructor; vm_compute; reflexivity || discriminate.
  - constructor; try (vm_compute; (reflexivity || (split; discriminate || reflexivity))).
    + apply Forall_replicate. unfold is_byte. lia.
    + vm_compute. lia.
    + constructor.
    + exists []. by split.
    + vm_compute. discriminate.
  - vm_compute. reflexivity.
  - lia.
  - vm_compute. reflexivity.
  - vm_compute. discriminate.
  - lia.
  - lia.
  - cbv zeta. split; [exact H1|]. split; [exact H2|]. exists l1, l2. exact H3.
Defined.

(** A stale report: +CREG: 1 is sent four tenths of a second after the
    search was reported without looking at the state again.  When the phone
    detaches (+COPS=2) in between, the modem answers +CREG: 0, and the tick then
    reports +CREG: 1 although its own state is not registered. *)
Theorem creg_report_stale :
  let searching := ios_bb_tick 4500 (ios_bb_tick 1000 ex_covered) in
  let detached := at_command 2 (str "+cops=2") searching in
  let bb' := ios_bb_tick 5000 detached in
  reg_stat detached = 0 /\ detached.(b_reg).(last_creg) = 0 /\
  reg_stat bb' = 0 /\ bb'.(b_reg).(last_creg) = 1 /\ ios_bb_attached bb' = true.
Proof. vm_compute. split_and!; reflexivity. Qed.

Lemma hex_three a b c rest :
  is_byte a -> is_byte b -> is_byte c ->
  hex_nibbles (bytes_to_hex (a :: b :: c :: rest) ++ dq) 0 3 = [a; b; c].
Proof.
  intros Ha Hb Hc. rewrite !bytes_to_hex_cons. simpl app.
  destruct (nibbles_byte a Ha) as (A1 & A2 & A3), (nibbles_byte b Hb) as (B1 & B2 & B3),
    (nibbles_byte c Hc) as (C1 & C2 & C3).
  cbn [hex_nibbles]. change (0 <? 3) with true. change (0 + 1 <? 3) with true. change (0 + 1 + 1 <? 3) with true.
  cbv iota zeta. rewrite !hex_digit_hexdig_hi, !hex_digit_hexdig_lo by done.
  rewrite A1, A2, A3, B1, B2, B3, C1, C2, C3. repeat f_equal.
  by destruct (bytes_to_hex rest ++ dq).
Qed.

(** Manual network selection loses digits: +COPS=1,2 takes the network
    code as hexadecimal text, but decodes three octets of it only, so a five- or
    six-digit code is stored as its first three digits. *)
Theorem cops_manual_cut ch a b c rest bb :
  is_byte a -> is_byte b -> is_byte c -> a <> 0 -> b <> 0 -> c <> 0 ->
  (at_cops ch (str "1,2," ++ dq ++ bytes_to_hex (a :: b :: c :: rest) ++ dq) bb).(b_ctl).(plmn) = [a; b; c].
Proof.
  intros Ha Hb Hc Na Nb Nc. unfold at_cops. cbv zeta.
  rewrite !(proj2 (streq_false _ _)) by discriminate.
  change (starts_with (str "3,") _) with false. cbv iota.
  change (starts_with (str "1,2," ++ dq) _) with true. cbv iota.
  match goal with |- context [cops_manual_plmn ?d ?s] => assert (E : cops_manual_plmn d s = [a; b; c]) end.
  { unfold cops_manual_plmn. change (drop 5 (str "1,2," ++ dq ++ bytes_to_hex (a :: b :: c :: rest) ++ dq))
      with (bytes_to_hex (a :: b :: c :: rest) ++ dq).
    rewrite hex_three by done. exact (ztake_app_len [a; b; c] _). }
  rewrite E. change (rd [a; b; c] 0) with a. change (rd [a; b; c] 1) with b.
  rewrite (proj2 (Z.eqb_neq a 0)), (proj2 (Z.eqb_neq b 0)) by done. cbn [negb andb].
  rewrite until_nul_id by (by repeat constructor).
  unfold reg_schedule. by destruct (negb _).
Qed.

Lemma cops_manual_cut_witness :
  (at_cops 2 (str "1,2," ++ dq ++ bytes_to_hex (str "310410") ++ dq) ex_core).(b_ctl).(plmn) = str "310".
Proof. apply (cops_manual_cut 2 51 49 48 (str "410") ex_core); unfold is_byte; lia. Defined.
