(* ===== verification/BbLineFacts.v ===== *)
(** * Facts about command lines

    From the bytes of a channel to the command the interpreter sees, and the
    message lengths the phone is told. *)

From Stdlib Require Import ZArith Lia String.
From stdpp Require Import base numbers list.
From S2P Require Import Prelude CLib BbState BbTx BbPdu BbSim BbCalls BbReg BbSms BbSimCmd BbGps BbAt BbRx BbTick.
From S2P Require Import BbTxFacts BbPduFacts BbInv BbInvRun.
Local Open Scope Z_scope.

(** ** Line assembly *)

(** A character that is neither a line end nor NUL. *)
Definition text_byte (b : Z) : Prop := b <> 13 /\ b <> 10 /\ tolower b <> 0.

(** A channel between lines. *)
Record idle_line (c : IosBbAtChan) : Prop := mkIdleLine {
  il_wf : chan_wf c;
  il_len : c.(ch_len) = 0;
  il_prompt : c.(ch_sms_prompt) = false;
  il_data : c.(ch_data_cid) = 0
}.

(** The channel after the characters [s] of a line. *)
Definition filled (s : bytes) (c : IosBbAtChan) : IosBbAtChan :=
  c <| ch_line := s ++ zdrop (zlen s) c.(ch_line) |> <| ch_len := zlen s |>.

Lemma wr_after (s l : bytes) b :
  zlen s < zlen l -> wr (s ++ zdrop (zlen s) l) (zlen s) b = (s ++ [b]) ++ zdrop (zlen s + 1) l.
Proof.
  intros H. unfold wr, zlen, zdrop in *. rewrite !Nat2Z.id.
  rewrite insert_app_r_alt by lia. rewrite Nat.sub_diag, <- app_assoc. f_equal.
  replace (Z.to_nat (Z.of_nat (length s) + 1)) with (S (length s)) by lia.
  destruct (drop (length s) l) as [|x t] eqn:E.
  - apply (f_equal length) in E. rewrite length_drop in E. simpl in E. lia.
  - simpl. f_equal. apply (f_equal (drop 1)) in E. rewrite drop_drop in E.
    by rewrite Nat.add_1_r in E.
Qed.

Lemma filled_push s b c :
  chan_wf c -> zlen s < 599 -> push_line b (filled s c) = filled (s ++ [b]) c.
Proof.
  intros [W _ _] H. unfold push_line. change (ch_len (filled s c)) with (zlen s).
  rewrite (proj2 (Z.ltb_lt _ _) H).
  change ((filled s c) <| ch_line ::= fun l => wr l (zlen s) b |> <| ch_len ::= fun n => n + 1 |>)
    with (c <| ch_line := wr (s ++ zdrop (zlen s) (ch_line c)) (zlen s) b |> <| ch_len := zlen s + 1 |>).
  unfold filled. rewrite wr_after by lia. by rewrite zlen_app.
Qed.

(** The core with one channel replaced. *)
Definition with_ch (ch : Z) (c : IosBbAtChan) (bb : IosBbCore) : IosBbCore :=
  bb <| b_ch ::= <[Z.to_nat ch := c]> |>.

Section Channel.
Context (ch : Z) (bb : IosBbCore) (Hch : chan_ix ch) (Hbb : chans_wf bb.(b_ch)).

Lemma ch_in_range : (Z.to_nat ch < length (b_ch bb))%nat.
Proof using Hch Hbb. destruct Hbb as [H _]. unfold zlen, chan_ix, IOS_BB_MAX_CH in *. lia. Qed.

Lemma get_with_ch c : get_ch ch (with_ch ch c bb) = c.
Proof using Hch Hbb.
  unfold get_ch, with_ch. simpl. rewrite list_lookup_insert_eq; [done|apply ch_in_range].
Qed.

Lemma upd_with_ch f c : upd_ch ch f (with_ch ch c bb) = with_ch ch (f c) bb.
Proof using Hch Hbb.
  assert (E : alter f (Z.to_nat ch) (<[Z.to_nat ch := c]> (b_ch bb)) = <[Z.to_nat ch := f c]> (b_ch bb)).
  { pose proof ch_in_range as H. revert H. generalize (Z.to_nat ch). generalize (b_ch bb).
    clear. induction l as [|x l IH]; intros [|n] H; simpl in H; try lia; [done|].
    apply (f_equal (cons x)), IH. lia. }
  exact (f_equal (fun l => bb <| b_ch := l |>) E).
Qed.

Lemma with_ch_with c d : with_ch ch d (with_ch ch c bb) = with_ch ch d bb.
Proof using.
  assert (E : <[Z.to_nat ch := d]> (<[Z.to_nat ch := c]> (b_ch bb)) = <[Z.to_nat ch := d]> (b_ch bb))
    by apply list_insert_insert_eq.
  exact (f_equal (fun l => bb <| b_ch := l |>) E).
Qed.

Lemma with_get_ch : with_ch ch (get_ch ch bb) bb = bb.
Proof using Hch Hbb.
  destruct (lookup_lt_is_Some_2 _ _ ch_in_range) as [c Hc].
  assert (E : <[Z.to_nat ch := get_ch ch bb]> (b_ch bb) = b_ch bb).
  { unfold get_ch. rewrite Hc. by apply list_insert_id. }
  transitivity (bb <| b_ch := b_ch bb |>); [exact (f_equal (fun l => bb <| b_ch := l |>) E)|by destruct bb].
Qed.

(** A text character goes to the end of the line. *)
Lemma text_byte_step p b c :
  idle_line c -> zlen p < 599 -> text_byte b ->
  at_chan_byte ch (with_ch ch (filled p c) bb) b = with_ch ch (filled (p ++ [tolower b]) c) bb.
Proof using Hch Hbb.
  intros [W _ Hp _] Hl (H13 & H10 & _). unfold at_chan_byte. cbv zeta. rewrite get_with_ch.
  change (ch_sms_prompt (filled p c)) with (ch_sms_prompt c). rewrite Hp.
  rewrite (proj2 (Z.eqb_neq b 13) H13), (proj2 (Z.eqb_neq b 10) H10).
  by rewrite upd_with_ch, filled_push.
Qed.

Lemma text_steps s p c :
  idle_line c -> zlen p + zlen s <= 599 -> Forall text_byte s ->
  fold_left (at_chan_byte ch) s (with_ch ch (filled p c) bb) = with_ch ch (filled (p ++ (tolower <$> s)) c) bb.
Proof using Hch Hbb.
  intros Hc Hl Hs. revert p Hl. induction Hs as [|b s Hb _ IH]; intros p Hl; simpl; [by rewrite app_nil_r|].
  rewrite zlen_cons in Hl. pose proof (zlen_nonneg s).
  rewrite text_byte_step by (done || lia). rewrite IH; [by rewrite <- app_assoc|].
  rewrite zlen_app, zlen_cons. change (zlen (@nil Z)) with 0. lia.
Qed.
End Channel.

(** The channel as the interpreter finds it: the line and its terminator. *)
Definition ended (s : bytes) (c : IosBbAtChan) : IosBbAtChan :=
  c <| ch_line := s ++ 0 :: zdrop (zlen s + 1) c.(ch_line) |> <| ch_len := zlen s |>.

Lemma ended_filled s c :
  chan_wf c -> zlen s <= 599 ->
  (filled s c) <| ch_line ::= fun l => wr l (zlen s) 0 |> = ended s c.
Proof.
  intros [W _ _] H.
  change (c <| ch_line := wr (s ++ zdrop (zlen s) (ch_line c)) (zlen s) 0 |> <| ch_len := zlen s |> = ended s c).
  unfold ended. rewrite wr_after by lia. by rewrite <- app_assoc.
Qed.

Lemma letter_text b v : tolower b = v -> 97 <= v -> text_byte b.
Proof.
  intros E H. unfold text_byte. split_and!; [| |lia]; intros ->; vm_compute in E; lia.
Qed.

Lemma filled_nil c : c.(ch_len) = 0 -> filled [] c = c.
Proof. destruct c. simpl. by intros ->. Qed.

(** Command lines reach the interpreter whole: on an idle channel the bytes
    of a line that starts with AT in any case and ends with CR run the
    interpreter exactly once, on the text after AT folded to lower case, and
    leave the channel idle for the next line. *)
Theorem at_line_dispatch ch a t s bb :
  chan_ix ch -> chans_wf bb.(b_ch) -> idle_line (get_ch ch bb) ->
  tolower a = 97 -> tolower t = 116 -> zlen s <= 597 -> Forall text_byte s ->
  let line := [97; 116] ++ (tolower <$> s) in
  at_chan_input ch ([a; t] ++ s ++ [13]) bb =
  upd_ch ch (fun c => c <| ch_len := 0 |>)
    (at_command ch (tolower <$> s) (with_ch ch (ended line (get_ch ch bb)) bb)).
Proof.
  intros Hch Hbb Hi Ha Ht Hl Hs. cbv zeta. pose proof Hi as [W L P D].
  unfold at_chan_input. rewrite D. cbn [negb]. change (0 =? 0) with true. cbn [negb].
  assert (E1 : fold_left (at_chan_byte ch) ([a; t] ++ s) bb =
    with_ch ch (filled ([97; 116] ++ (tolower <$> s)) (get_ch ch bb)) bb).
  { transitivity (fold_left (at_chan_byte ch) ([a; t] ++ s) (with_ch ch (filled [] (get_ch ch bb)) bb)).
    - by rewrite (filled_nil _ L), with_get_ch.
    - rewrite text_steps; try done.
      + rewrite fmap_app. simpl. by rewrite Ha, Ht.
      + rewrite zlen_app. change (zlen [a; t]) with 2. change (zlen (@nil Z)) with 0. lia.
      + constructor; [by apply (letter_text _ 97)|]. constructor; [by apply (letter_text _ 116)|done]. }
  rewrite (app_assoc [a; t]), fold_left_app, E1. cbn [fold_left]. unfold at_chan_byte. cbv zeta.
  rewrite get_with_ch by done.
  set (line := [97; 116] ++ (tolower <$> s)) in *. set (c := get_ch ch bb) in *.
  assert (Hz : zlen line = 2 + zlen s) by (unfold line, zlen; rewrite length_app, length_fmap; simpl; lia).
  pose proof (zlen_nonneg s).
  change (ch_sms_prompt (filled line c)) with (ch_sms_prompt c).
  change (ch_len (filled line c)) with (zlen line). rewrite P. change (13 =? 13) with true. cbv iota.
  rewrite (proj2 (Z.eqb_neq (zlen line) 0)) by lia. cbn [negb].
  rewrite upd_with_ch by done. change (ch_len (filled line c)) with (zlen line).
  rewrite ended_filled by (done || lia). rewrite get_with_ch by done.
  rewrite (proj2 (Z.leb_le 2 (zlen line))) by lia.
  change (rd (ch_line (ended line c)) 0) with 97. change (rd (ch_line (ended line c)) 1) with 116.
  cbn [andb]. change (97 =? 97) with true. change (116 =? 116) with true. cbn [andb].
  f_equal. f_equal. unfold cstr.
  change (drop 2 (ch_line (ended line c))) with ((tolower <$> s) ++ 0 :: zdrop (zlen line + 1) (ch_line c)).
  apply until_nul_stop. apply Forall_fmap. eapply Forall_impl; [exact Hs|]. by intros b (_ & _ & Hb).
Qed.

Lemma at_line_dispatch_witness :
  at_chan_input 1 ([65; 84] ++ str "+CPIN?" ++ [13]) ex_core =
  upd_ch 1 (fun c => c <| ch_len := 0 |>)
    (at_command 1 (str "+cpin?") (with_ch 1 (ended (str "at+cpin?") (get_ch 1 ex_core)) ex_core)).
Proof.
  apply (at_line_dispatch 1 65 84 (str "+CPIN?") ex_core).
  - split; discriminate || reflexivity.
  - exact chans0_wf.
  - constructor; [exact chan0_wf|reflexivity|reflexivity|reflexivity].
  - reflexivity.
  - reflexivity.
  - discriminate.
  - repeat constructor; discriminate.
Defined.

(** ** Message lengths *)

Lemma zlen_sca_octets sca :
  all_digits sca = true -> zlen sca <= 20 ->
  zlen (sca_octets sca) = match sca with [] => 1 | _ :: _ => 1 + 1 + (zlen sca + 1) / 2 end.
Proof.
  intros Hd Hl. destruct sca as [|c t]; [done|]. unfold sca_octets.
  rewrite !zlen_cons. rewrite zlen_digits_to_semi by (done || lia). rewrite !zlen_cons. lia.
Qed.

(** What the builder returns is consistent. *)
Lemma build_deliver_sizes bb number text pdu n tpdu :
  sms_build_deliver bb number text 400 = Some (pdu, n, tpdu) ->
  zlen pdu = 2 * n /\ n < 200 /\ tpdu = n - zlen (sca_octets bb.(b_ctl).(sca)) /\ 0 <= tpdu.
Proof.
  unfold sms_build_deliver. destruct (20 <? _); [done|].
  destruct (deliver_octets bb number text) as [oct|] eqn:O; [|done]. cbn [mbind option_bind].
  destruct (400 <? _) eqn:L; [done|]. intros [= <- <- <-]. apply Z.ltb_ge in L.
  split_and!; [apply zlen_bytes_to_hex|lia|done|].
  unfold deliver_octets in O. cbv zeta in O. destruct (deliver_ud text) as [ud|]; [|done].
  injection O as <-. rewrite !zlen_app. pose proof (zlen_nonneg ud).
  repeat match goal with |- context [zlen ?l] => lazymatch goal with H : 0 <= zlen l |- _ => fail | _ => pose proof (zlen_nonneg l) end end.
  lia.
Qed.

(** The phone is told the right length: after a message is accepted,
    reading it back with +CMGR under its index gives the stored PDU with the
    octet count of the message without its service centre address, the count
    the delivery itself announced. *)
Theorem cmgr_length number text bb bb' pdu n tpdu ch arg :
  smss_wf bb.(b_sms) -> all_digits bb.(b_ctl).(sca) = true -> zlen bb.(b_ctl).(sca) <= 20 ->
  sms_build_deliver bb (skip_plus number) text 400 = Some (pdu, n, tpdu) ->
  ios_bb_incoming_sms number text bb = (true, bb') ->
  atoi arg = bb.(b_sms).(store_next) mod IOS_BB_SMS_STORE + 1 ->
  at_cmgr ch arg bb' = line_ok ch (str "+CMGR: 1,," ++ fmt_u tpdu ++ crlf ++ crlf ++ pdu) bb'.
Proof.
  intros W Hd Hl B I Ha. destruct (build_deliver_sizes _ _ _ _ _ _ B) as (S1 & S2 & S3 & S4).
  unfold ios_bb_incoming_sms in I. destruct (_ || _ || _ || _); [done|]. cbv zeta in I. rewrite B in I.
  injection I as <-. set (slot := store_next (b_sms bb) mod IOS_BB_SMS_STORE) in *.
  pose proof (Z.mod_pos_bound (store_next (b_sms bb)) IOS_BB_SMS_STORE eq_refl) as Hs. fold slot in Hs.
  set (m := mkSms true (fit 32 (skip_plus number)) (fit 400 pdu)).
  set (b1 := bb <| b_sms; store ::= alter (fun _ => m) (Z.to_nat slot) |>
                <| b_sms; store_next ::= fun n => u32 (n + 1) |>).
  match goal with |- at_cmgr ch arg ?b = _ => assert (X : tx_only b1 b) by apply at_line_tx; generalize dependent b end.
  intros b X. unfold at_cmgr. cbv zeta. rewrite Ha.
  replace (slot + 1 - 1) with slot by lia. rewrite Z.rem_small by lia.
  rewrite (tx_sms _ _ X), (tx_ctl _ _ X). change (b_ctl b1) with (b_ctl bb).
  change (store (b_sms b1)) with (alter (fun _ => m) (Z.to_nat slot) (store (b_sms bb))).
  destruct (lookup_lt_is_Some_2 (store (b_sms bb)) (Z.to_nat slot)) as [m0 Hm].
  { pose proof (mw_store _ W). unfold zlen, IOS_BB_SMS_STORE in *. lia. }
  rewrite list_lookup_alter_eq, Hm. rewrite (proj2 (Z.leb_le 1 _)) by lia.
  change (default sms0 ((fun _ => m) <$> Some m0)) with m. change (s_used m) with true. cbn [andb].
  assert (Ep : s_pdu m = pdu) by (apply fit_id; lia).
  rewrite Ep. rewrite S1. replace (2 * n / 2) with n by (symmetry; rewrite Z.mul_comm; by apply Z.div_mul).
  pose proof (zlen_sca_octets _ Hd Hl) as Z1.
  rewrite <- Z1, <- S3. pose proof (zlen_nonneg (sca_octets (sca (b_ctl bb)))).
  unfold u32. by rewrite Z.mod_small by lia.
Qed.

Definition ex_sms_ready : IosBbCore :=
  ex_core <| b_ch ::= alter (fun c => c <| ch_open := true |>) 3%nat |> <| b_sim; pin_ok := true |>.

Definition ex_built : bytes * Z * Z :=
  Eval vm_compute in default ([], 0, 0) (sms_build_deliver ex_sms_ready (str "15551234") (str "Hello") 400).

Lemma cmgr_length_witness :
  let bb' := (ios_bb_incoming_sms (str "+15551234") (str "Hello") ex_sms_ready).2 in
  at_cmgr 3 (str "1") bb' =
  line_ok 3 (str "+CMGR: 1,," ++ fmt_u ex_built.2 ++ crlf ++ crlf ++ ex_built.1.1) bb'.
Proof.
  apply (cmgr_length (str "+15551234") (str "Hello") ex_sms_ready _ ex_built.1.1 ex_built.1.2 ex_built.2).
  - constructor; [by vm_compute|by repeat constructor|by vm_compute|by vm_compute].
  - reflexivity.
  - vm_compute. discriminate.
  - vm_compute. reflexivity.
  - vm_compute. reflexivity.
  - reflexivity.
Defined.
