(* ===== verification/BbIfxFacts.v ===== *)
(** * Facts about the SPI framing

    No byte of the queue is lost, duplicated or reordered by transfers, and a
    transfer that did not take place can be undone. *)

From Stdlib Require Import ZArith Lia String.
From stdpp Require Import base numbers list.
From S2P Require Import Prelude CLib BbIfx.
Local Open Scope Z_scope.

(** Bounds the initialisation establishes and every operation keeps. *)
Record ifx_wf (x : IosBbIfx) : Prop := mkIfxWf {
  xw_max : 0 < x.(x_max_data) <= 0xffe;
  xw_txq : zlen x.(x_txq) <= IFX_TXQ_SIZE
}.

(** The length field of a frame, and the payload its reader takes. *)
Definition ifx_len (f : bytes) : Z := Z.lor (rd f 0) (Z.shiftl (Z.land (rd f 1) 0xf) 8).
Definition ifx_payload (f : bytes) : bytes := ztake (ifx_len f) (zdrop IOS_BB_IFX_HDR f).

(** The flag bits above the length do not disturb it. *)
Lemma ifx_len_field len m1 m2 m3 rest :
  0 <= len < 4096 -> Z.land m1 0xf = Z.land (u8 (Z.shiftr len 8)) 0xf ->
  ifx_len (u8 len :: m1 :: m2 :: m3 :: rest) = len.
Proof.
  intros Hl Hm. unfold ifx_len. change (rd (u8 len :: _) 0) with (u8 len).
  change (rd (u8 len :: m1 :: _) 1) with m1. rewrite Hm. unfold u8.
  change 256 with (2 ^ 8). rewrite <- !Z.land_ones by lia.
  apply Z.bits_inj'. intros k Hk. change 15 with (Z.ones 4).
  rewrite Z.lor_spec, Z.shiftl_spec, !Z.land_spec by lia.
  destruct (Z.ltb_spec k 8).
  - rewrite (Z.testbit_neg_r _ (k - 8)) by lia. rewrite Z.ones_spec_low by lia.
    by rewrite andb_true_r, orb_false_r.
  - rewrite Z.ones_spec_high by lia. rewrite Z.shiftr_spec by lia.
    replace (k - 8 + 8) with k by lia. rewrite andb_false_r. cbn [orb].
    destruct (Z.ltb_spec k 12).
    + by rewrite !Z.ones_spec_low, !andb_true_r by lia.
    + rewrite (Z.ones_spec_high 4), andb_false_r by lia. symmetry.
      apply Z.bits_above_log2; [lia|]. destruct (Z.eq_dec len 0) as [->|]; [simpl; lia|].
      apply Z.log2_lt_pow2; [lia|]. apply Z.lt_le_trans with (2 ^ 12); [lia|].
      apply Z.pow_le_mono_r; lia.
Qed.

(** The two flag bits the modem may set. *)
Lemma flag_land m f : (f = IFX_MORE \/ f = IFX_V2_CREDIT_REQ) -> Z.land (Z.lor m f) 0xf = Z.land m 0xf.
Proof. intros [->| ->]; rewrite Z.land_lor_distr_l, Z.lor_0_r; done. Qed.

(** How much a transfer of [n] bytes carries. *)
Definition ifx_out (n : Z) (x : IosBbIfx) : Z :=
  Z.min (ifx_can_send x) (Z.min x.(x_max_data) (n - IOS_BB_IFX_HDR)).

Lemma ifx_out_range n x : ifx_wf x -> 4 <= n -> 0 <= ifx_out n x <= zlen x.(x_txq) /\ ifx_out n x <= x.(x_max_data).
Proof.
  intros [] Hn. unfold ifx_out, ifx_can_send, IOS_BB_IFX_HDR. pose proof (zlen_nonneg (x_txq x)).
  destruct (_ && _); lia.
Qed.

(** The frame carries the head of the queue, and the queue keeps the rest. *)
Lemma ifx_tx_spec n x f x' :
  ifx_wf x -> 4 <= n -> ifx_tx n x = (f, x') ->
  zlen f = n /\ ifx_len f = ifx_out n x /\ ifx_payload f = ztake (ifx_out n x) x.(x_txq) /\
  x'.(x_txq) = zdrop (ifx_out n x) x.(x_txq) /\
  x'.(x_version) = x.(x_version) /\ x'.(x_max_data) = x.(x_max_data) /\
  x'.(x_credits_in) = x.(x_credits_in) - b2z ((x.(x_version) =? 2) && negb (ifx_out n x =? 0)).
Proof.
  intros W Hn E. pose proof (ifx_out_range n x W Hn) as [[R1 R2] R3]. destruct W as [[_ Wm] Wq].
  unfold ifx_tx in E. unfold IOS_BB_IFX_HDR at 1 in E. rewrite (proj2 (Z.ltb_ge n 4)) in E by lia. cbv zeta in E.
  fold (ifx_out n x) in E. set (out := ifx_out n x) in *.
  set (m1 := if (x_version x =? 2) && (out =? 0) && negb (zlen (x_txq x) =? 0) then _ else _) in E.
  assert (Hm : Z.land m1 0xf = Z.land (u8 (Z.shiftr out 8)) 0xf).
  { unfold m1. destruct (_ && _ && _); [rewrite flag_land by auto|]; destruct (_ <? _); try done;
      by rewrite flag_land by auto. }
  clearbody m1.
  assert (Hq : forall (b : bool) g, x_txq (if b then x <| x_credits_in ::= g |> else x) = x_txq x) by (by intros []).
  injection E as <- <-. rewrite !Hq.
  match goal with |- context [u8 out :: m1 :: ?a :: ?b :: ?c] => generalize a, b; set (t := c) end.
  intros m2 m3.
  assert (Z1 : zlen (ztake out (x_txq x)) = out) by (rewrite zlen_ztake; lia).
  assert (L : ifx_len (u8 out :: m1 :: m2 :: m3 :: t) = out) by (apply ifx_len_field; [lia|done]).
  assert (P : ifx_payload (u8 out :: m1 :: m2 :: m3 :: t) = ztake out (x_txq x)).
  { unfold ifx_payload. rewrite L. change (zdrop IOS_BB_IFX_HDR (u8 out :: m1 :: m2 :: m3 :: t)) with t.
    unfold t. rewrite <- Z1 at 1. apply ztake_app_len. }
  split_and!; try done.
  - unfold t. rewrite !zlen_cons, zlen_app, Z1. unfold zlen at 1, IOS_BB_IFX_HDR. rewrite length_replicate.
    unfold ifx_out, IOS_BB_IFX_HDR in out. lia.
  - simpl. by rewrite Hq.
  - simpl. by destruct (_ && _).
  - simpl. by destruct (_ && _).
  - simpl. destruct (_ && _); simpl; lia.
Qed.

Lemma ifx_tx_wf n x f x' : ifx_wf x -> 4 <= n -> ifx_tx n x = (f, x') -> ifx_wf x'.
Proof.
  intros W Hn E. destruct (ifx_tx_spec n x f x' W Hn E) as (_ & _ & _ & Q & V & M & _).
  destruct W. constructor; [by rewrite M|].
  pose proof (zlen_nonneg (x_txq x)). rewrite Q, zlen_zdrop. unfold IFX_TXQ_SIZE in *. lia.
Qed.

(** A transfer can be undone: handing a frame that never went out back to
    [ios_bb_ifx_unsent] restores the queue byte for byte and, with credits, the
    credit the frame had used. *)
Theorem ifx_unsent_restores n x f x' :
  ifx_wf x -> 4 <= n -> ifx_tx n x = (f, x') ->
  (ios_bb_ifx_unsent f x').(x_txq) = x.(x_txq) /\
  (ios_bb_ifx_unsent f x').(x_credits_in) = x.(x_credits_in).
Proof.
  intros W Hn E. destruct (ifx_tx_spec n x f x' W Hn E) as (_ & L & P & Q & V & M & C).
  pose proof (ifx_out_range n x W Hn) as [[R1 R2] R3]. destruct W as [Wm Wq].
  unfold ios_bb_ifx_unsent. fold (ifx_len f). rewrite L.
  assert (P' : ztake (ifx_out n x) (zdrop IOS_BB_IFX_HDR f) = ztake (ifx_out n x) (x_txq x)).
  { rewrite <- L at 1. exact P. }
  destruct (Z.eqb_spec (ifx_out n x) 0) as [E0|E0]; cbn [orb].
  - rewrite Q, C, E0. cbn [negb]. rewrite andb_false_r. simpl. split; [done|lia].
  - rewrite M, (proj2 (Z.ltb_ge _ (ifx_out n x))), (proj2 (Z.ltb_ge IFX_TXQ_SIZE _))
      by (rewrite ?Q, ?zlen_zdrop; lia). cbn [orb]. cbv zeta.
    rewrite P'. cbn [negb] in C. rewrite andb_true_r in C. simpl. rewrite V.
    destruct (x_version x =? 2); simpl in *; (split; [rewrite Q; apply take_drop|rewrite C; lia]).
Qed.

Definition ex_ifx : IosBbIfx := ios_bb_ifx_queue (str "AT+CSQ") (ios_bb_ifx_init 1 0x7fe).

Lemma ifx_unsent_restores_witness :
  let '(f, x') := ifx_tx 8 ex_ifx in
  (ios_bb_ifx_unsent f x').(x_txq) = ex_ifx.(x_txq) /\
  (ios_bb_ifx_unsent f x').(x_credits_in) = ex_ifx.(x_credits_in).
Proof.
  apply (ifx_unsent_restores 8 ex_ifx (ifx_tx 8 ex_ifx).1 (ifx_tx 8 ex_ifx).2);
    [constructor; vm_compute; (split; discriminate || reflexivity) || discriminate|discriminate|reflexivity].
Defined.

(** ** A sequence of transfers *)

(** Both directions; a transfer has room for the header. *)
Fixpoint ifx_run (ts : list (option bytes * Z)) (x : IosBbIfx) : list bytes * IosBbIfx :=
  match ts with
  | [] => ([], x)
  | (mosi, n) :: ts =>
      let '(_, f, x) := ios_bb_ifx_xfer mosi true n x in
      let '(fs, x) := ifx_run ts x in (f :: fs, x)
  end.

Lemma ifx_rx_frame mosi x :
  let x' := (ifx_rx mosi x).2 in
  x'.(x_txq) = x.(x_txq) /\ x'.(x_version) = x.(x_version) /\ x'.(x_max_data) = x.(x_max_data).
Proof.
  cbv zeta. unfold ifx_rx. destruct (_ <=? _); [|done]. cbv zeta.
  destruct (_ && _); simpl; destruct (_ =? 2); try done;
    repeat match goal with |- context [if ?c then _ else _] => destruct c end; done.
Qed.

(** Frames to carry the whole queue: each carries at least one byte. *)
Lemma ifx_step mosi n x f r x' :
  ifx_wf x -> 4 <= n -> ios_bb_ifx_xfer mosi true n x = (r, f, x') ->
  ifx_wf x' /\ x'.(x_version) = x.(x_version) /\ x.(x_txq) = ifx_payload f ++ x'.(x_txq) /\
  (x.(x_version) = 1 -> 5 <= n -> x.(x_txq) <> [] -> 1 <= zlen (ifx_payload f)).
Proof.
  intros W Hn E. unfold ios_bb_ifx_xfer in E.
  assert (exists x1, ifx_wf x1 /\ x_txq x1 = x_txq x /\ x_version x1 = x_version x /\ ifx_tx n x1 = (f, x'))
    as (x1 & W1 & Q1 & V1 & E1).
  { destruct mosi as [m|].
    - pose proof (ifx_rx_frame (ztake n m) x) as (H1 & H2 & H3). cbv zeta in *.
      destruct (ifx_rx _ x) as [rx x1]. simpl in *. destruct (ifx_tx n x1) as [f1 x2] eqn:T.
      injection E as _ <- <-. exists x1. split_and!; try done. destruct W. constructor; congruence.
    - destruct (ifx_tx n x) as [f1 x2] eqn:T. injection E as _ <- <-. by exists x. }
  destruct (ifx_tx_spec n x1 f x' W1 Hn E1) as (_ & L & P & Q & V & M & _). rewrite Q1 in *.
  split_and!.
  - exact (ifx_tx_wf n x1 f x' W1 Hn E1).
  - congruence.
  - rewrite P, Q. symmetry. apply take_drop.
  - intros Hv H5 Hne. rewrite P, zlen_ztake. rewrite <- V1 in Hv. destruct W1 as [Wm _].
    unfold ifx_out, ifx_can_send, IOS_BB_IFX_HDR. rewrite Hv, Q1. simpl.
    destruct (x_txq x) as [|b q]; [done|]. rewrite zlen_cons. pose proof (zlen_nonneg q). lia.
Qed.

(** The SPI link carries the queue: over any sequence of transfers, whatever
    the other side sends, the payloads read from the frames followed by what is
    still queued are exactly the bytes queued at the start, in order; with
    version 1 every transfer with room for a payload moves at least one byte, so
    as many transfers as bytes empty the queue. *)
Theorem ifx_conservation ts x :
  ifx_wf x -> Forall (fun t => 4 <= t.2) ts ->
  let '(fs, x') := ifx_run ts x in
  concat (ifx_payload <$> fs) ++ x'.(x_txq) = x.(x_txq) /\
  (x.(x_version) = 1 -> Forall (fun t => 5 <= t.2) ts -> (length x.(x_txq) <= length ts)%nat ->
   x'.(x_txq) = []).
Proof.
  revert x. induction ts as [|[mosi n] ts IH]; intros x W Ht; cbn [ifx_run].
  - split; [done|]. intros _ _ H. destruct (x_txq x); [done|simpl in H; lia].
  - inversion Ht as [|? ? Hn Ht']; subst. simpl in Hn.
    destruct (ios_bb_ifx_xfer mosi true n x) as [[r f] x1] eqn:E.
    destruct (ifx_step mosi n x f r x1 W Hn E) as (W1 & V1 & Q & G).
    specialize (IH x1 W1 Ht'). destruct (ifx_run ts x1) as [fs x2]. destruct IH as [I1 I2]. split.
    + rewrite fmap_cons. cbn [concat]. rewrite <- app_assoc, I1. by symmetry.
    + intros Hv Hf Hl. inversion Hf as [|? ? H5 Hf']; subst. simpl in H5.
      apply I2; [congruence|done|].
      destruct (decide (x_txq x = [])) as [Z0|Hne].
      * rewrite Z0 in Q. symmetry in Q. apply app_eq_nil in Q as [_ ->]. simpl. lia.
      * specialize (G Hv H5 Hne). rewrite Q in Hl. rewrite length_app in Hl. unfold zlen in G.
        simpl in Hl. lia.
Qed.

Lemma ifx_conservation_witness :
  let '(fs, x') := ifx_run (replicate 6 (None, 5)) ex_ifx in
  concat (ifx_payload <$> fs) ++ x'.(x_txq) = ex_ifx.(x_txq) /\
  (ex_ifx.(x_version) = 1 -> Forall (fun t : option bytes * Z => 5 <= t.2) (replicate 6 (None, 5)) ->
   (length ex_ifx.(x_txq) <= length (replicate 6 (@None bytes, 5)))%nat -> x'.(x_txq) = []).
Proof.
  apply (ifx_conservation (replicate 6 (None, 5)) ex_ifx).
  - constructor; vm_compute; (split; discriminate || reflexivity) || discriminate.
  - apply Forall_replicate. discriminate.
Defined.
