(* ===== verification/HwLib.v ===== *)
(** * What the device models share

    Words of 32 bits and their bytes, guest physical memory as the devices read
    it, and the guards of [src/include/hw/arm/ipod_touch_guard.h].  The host is
    little-endian, as the devices that read their own arrays of words as bytes
    assume. *)

From Stdlib Require Import ZArith Lia.
From stdpp Require Import base numbers list.
From S2P Require Import Prelude CLib.
Local Open Scope Z_scope.

(** ** Words and bytes *)

Definition is_u32 (x : Z) : Prop := 0 <= x < 4294967296.

Definition not32 (x : Z) : Z := Z.lxor x 0xffffffff.

Definition le32 (w : Z) : bytes :=
  [u8 w; u8 (Z.shiftr w 8); u8 (Z.shiftr w 16); u8 (Z.shiftr w 24)].

Definition be32 (w : Z) : bytes :=
  [u8 (Z.shiftr w 24); u8 (Z.shiftr w 16); u8 (Z.shiftr w 8); u8 w].

(** [ldl_le_p] and the big-endian load, as sums of shifted bytes. *)
Definition ld_le32 (l : bytes) (i : Z) : Z :=
  rd l i + 256 * rd l (i + 1) + 65536 * rd l (i + 2) + 16777216 * rd l (i + 3).

Definition ld_be32 (l : bytes) (i : Z) : Z :=
  Z.lor (Z.lor (Z.lor (Z.shiftl (rd l i) 24) (Z.shiftl (rd l (i + 1)) 16))
               (Z.shiftl (rd l (i + 2)) 8)) (rd l (i + 3)).

Definition bswap32 (w : Z) : Z := ld_be32 (le32 w) 0.

(** [stl_le_p (buf + i) w] *)
Definition st_le32 (buf : bytes) (i w : Z) : bytes := blit buf (Z.to_nat i) (le32 w).

(** Bits of a register *)
Definition flagged (v mask : Z) : bool := negb (Z.land v mask =? 0).

(** Bytes of a word, the first one lowest. *)
Fixpoint le_word (l : bytes) : Z :=
  match l with
  | [] => 0
  | b :: l => Z.lor b (Z.shiftl (le_word l) 8)
  end.

(** Guest physical memory is a function from addresses to bytes;
    [cpu_physical_memory_read]. *)
Definition phys_read (phys : Z -> Z) (addr n : Z) : bytes :=
  (fun i => phys (addr + Z.of_nat i)) <$> seq 0 (Z.to_nat n).

(** [cpu_physical_memory_write] *)
Definition phys_write (phys : Z -> Z) (addr : Z) (l : bytes) : Z -> Z :=
  fun x => if (addr <=? x) && (x <? addr + zlen l) then rd l (x - addr) else phys x.

(** ** Guards *)

Definition it_guard_size (n max : Z) : Z := if max <? n then max else n.

Definition it_guard_idx (idx n : Z) : Z :=
  if n =? 0 then 0 else if n <=? idx then n - 1 else idx.

Definition it_guard_range (off len size : Z) : bool :=
  negb ((size <? off) || (size - off <? len)).

(** ** Lemmas *)

Lemma it_guard_size_range n max : 0 <= n -> 0 <= max -> 0 <= it_guard_size n max <= Z.min n max.
Proof. unfold it_guard_size. intros. destruct (Z.ltb_spec max n); lia. Qed.

(** A disjunction of numbers without a common bit is their sum. *)
Lemma lor_add a b : Z.land a b = 0 -> Z.lor a b = a + b.
Proof. intros H. rewrite <- (Z.lxor_lor _ _ H). symmetry. by apply Z.add_nocarry_lxor. Qed.

(** High part shifted over a low part that fits below it. *)
Lemma lor_shiftl_add hi lo n : 0 <= n -> 0 <= lo < 2 ^ n -> Z.lor (Z.shiftl hi n) lo = hi * 2 ^ n + lo.
Proof.
  intros Hn Hl. rewrite lor_add; [by rewrite Z.shiftl_mul_pow2|].
  apply Z.bits_inj'. intros k Hk. rewrite Z.land_spec, Z.bits_0.
  destruct (Z.ltb_spec k n); [by rewrite Z.shiftl_spec_low|].
  rewrite <- (Z.mod_small lo (2 ^ n)), Z.mod_pow2_bits_high by lia. apply andb_false_r.
Qed.

Lemma u8_shiftr w n : 0 <= n -> u8 (Z.shiftr w n) = w / 2 ^ n mod 256.
Proof. intros. unfold u8. by rewrite Z.shiftr_div_pow2. Qed.

Lemma ld_be32_4 a b c d : is_byte a -> is_byte b -> is_byte c -> is_byte d ->
  ld_be32 [a; b; c; d] 0 = a * 16777216 + b * 65536 + c * 256 + d.
Proof.
  unfold is_byte. intros Ha Hb Hc Hd.
  change (ld_be32 [a; b; c; d] 0) with
    (Z.lor (Z.lor (Z.lor (Z.shiftl a 24) (Z.shiftl b 16)) (Z.shiftl c 8)) d).
  assert (E : Z.lor (Z.lor (Z.shiftl a 24) (Z.shiftl b 16)) (Z.shiftl c 8) =
              Z.shiftl (Z.lor (Z.shiftl (Z.lor (Z.shiftl a 8) b) 8) c) 8).
  { rewrite !Z.shiftl_lor, !Z.shiftl_shiftl by lia. reflexivity. }
  rewrite E, !lor_shiftl_add by (change (2 ^ 8) with 256; lia). change (2 ^ 8) with 256. lia.
Qed.

Lemma le32_bytes w : is_bytes (le32 w).
Proof. repeat constructor; apply u8_is_byte. Qed.

Lemma be32_bytes w : is_bytes (be32 w).
Proof. repeat constructor; apply u8_is_byte. Qed.

(** The four bytes of a word make the word. *)
Lemma u32_split w : is_u32 w ->
  w = w / 2 ^ 24 mod 256 * 16777216 + w / 2 ^ 16 mod 256 * 65536 + w / 2 ^ 8 mod 256 * 256 + w mod 256.
Proof. unfold is_u32. intros H. change (2 ^ 24) with 16777216. change (2 ^ 16) with 65536. change (2 ^ 8) with 256.
  Z.div_mod_to_equations. lia. Qed.

Lemma ld_be32_be32 w : is_u32 w -> ld_be32 (be32 w) 0 = w.
Proof.
  intros H. unfold be32. rewrite ld_be32_4 by apply u8_is_byte. rewrite !u8_shiftr by lia. symmetry. by apply u32_split.
Qed.

Lemma le32_bswap32 w : is_u32 w -> le32 (bswap32 w) = be32 w.
Proof.
  intros H. unfold bswap32, le32, be32. rewrite ld_be32_4 by apply u8_is_byte. rewrite !u8_shiftr by lia.
  unfold u8, is_u32 in *. change (2 ^ 24) with 16777216. change (2 ^ 16) with 65536. change (2 ^ 8) with 256.
  f_equal; [|f_equal; [|f_equal; [|f_equal]]]; Z.div_mod_to_equations; lia.
Qed.

Lemma bswap32_u32 w : is_u32 (bswap32 w).
Proof.
  unfold bswap32, le32. rewrite ld_be32_4 by apply u8_is_byte.
  pose proof (u8_is_byte w). pose proof (u8_is_byte (Z.shiftr w 8)).
  pose proof (u8_is_byte (Z.shiftr w 16)). pose proof (u8_is_byte (Z.shiftr w 24)).
  unfold is_u32, is_byte in *. lia.
Qed.

Lemma u32_is_u32 x : is_u32 (u32 x).
Proof. unfold is_u32, u32. apply Z.mod_pos_bound. lia. Qed.

Lemma u32_id x : is_u32 x -> u32 x = x.
Proof. intros H. unfold u32. by apply Z.mod_small. Qed.

Lemma length_phys_read phys addr n : length (phys_read phys addr n) = Z.to_nat n.
Proof. unfold phys_read. by rewrite length_fmap, length_seq. Qed.

#[export] Hint Resolve le32_bytes be32_bytes bswap32_u32 u32_is_u32 : bb.

(** Storing over the middle of a buffer. *)
Lemma blit_mid (a x y b : bytes) : length x = length y -> blit (a ++ x ++ b) (length a) y = a ++ y ++ b.
Proof.
  revert a x. induction y as [|c y IH]; intros a [|d x] H; try discriminate; [done|].
  cbn [blit]. rewrite insert_app_r_alt, Nat.sub_diag by lia. cbn [app insert list_insert].
  specialize (IH (a ++ [c]) x ltac:(simpl in H; lia)). rewrite length_app in IH. simpl in IH.
  rewrite Nat.add_1_r, <- !app_assoc in IH. exact IH.
Qed.

(** [memcpy] as a splice, and what it leaves alone. *)
Lemma blit_splice (buf src : bytes) off : (off + length src <= length buf)%nat ->
  blit buf off src = take off buf ++ src ++ drop (off + length src) buf.
Proof.
  intros H. assert (E : length (take off buf) = off) by (rewrite length_take; lia).
  pose proof (blit_mid (take off buf) (take (length src) (drop off buf)) src (drop (off + length src) buf)) as M.
  rewrite E, <- drop_drop, !take_drop in M. rewrite drop_drop in M. apply M.
  rewrite length_take, length_drop. lia.
Qed.

Lemma lookup_blit_out (buf src : bytes) off j : (j < off \/ off + length src <= j)%nat ->
  blit buf off src !! j = buf !! j.
Proof.
  revert buf off. induction src as [|b t IH]; intros buf off H; [done|]. cbn [blit]. simpl in H.
  rewrite IH by lia. apply list_lookup_insert_ne. lia.
Qed.

Lemma slice_blit_out (buf src : bytes) off k n : (k + n <= off \/ off + length src <= k)%nat ->
  take n (drop k (blit buf off src)) = take n (drop k buf).
Proof.
  intros H. apply list_eq. intros j. destruct (decide (j < n)%nat) as [Hj|Hj].
  - rewrite !lookup_take_lt, !lookup_drop by done. apply lookup_blit_out. lia.
  - by rewrite !lookup_take_ge by lia.
Qed.

Lemma slice_blit_in (buf src : bytes) off : (off + length src <= length buf)%nat ->
  take (length src) (drop off (blit buf off src)) = src.
Proof.
  intros H. rewrite blit_splice, drop_app_ge by (rewrite ?length_take; lia).
  rewrite length_take, (Nat.min_l off) by lia. rewrite Nat.sub_diag. cbn [drop]. apply take_app_length.
Qed.

Lemma is_bytes_blit (buf src : bytes) off : is_bytes buf -> is_bytes src -> is_bytes (blit buf off src).
Proof.
  intros Hb Hs. revert buf off Hb. induction Hs as [|b t Hb' Ht IH]; intros buf off Hb; [done|]. cbn [blit].
  apply IH. by apply Forall_insert.
Qed.

(** Bitwise operations stay within the width. *)
Lemma is_u32_bits x : is_u32 x <-> 0 <= x /\ forall n, 32 <= n -> Z.testbit x n = false.
Proof.
  unfold is_u32. change 4294967296 with (2 ^ 32). split.
  - intros H. split; [lia|]. intros n Hn. rewrite <- (Z.mod_small x (2 ^ 32)) by lia.
    by apply Z.mod_pow2_bits_high.
  - intros [H0 H]. split; [done|]. destruct (Z.eq_dec x 0) as [->|]; [lia|].
    apply Z.log2_lt_pow2; [lia|]. destruct (Z.lt_ge_cases (Z.log2 x) 32) as [|Hge]; [done|].
    specialize (H _ Hge). rewrite Z.bit_log2 in H by lia. discriminate.
Qed.

Lemma lxor_u32 x y : is_u32 x -> is_u32 y -> is_u32 (Z.lxor x y).
Proof.
  rewrite !is_u32_bits. intros [Hx Bx] [Hy By]. split; [by apply Z.lxor_nonneg|].
  intros n Hn. by rewrite Z.lxor_spec, Bx, By.
Qed.

Lemma u32_lor x y : is_u32 x -> is_u32 y -> is_u32 (Z.lor x y).
Proof.
  rewrite !is_u32_bits. intros [H1 H2] [H3 H4]. split; [by apply Z.lor_nonneg|]. intros n Hn.
  rewrite Z.lor_spec, H2, H4 by done. done.
Qed.

Lemma u32_land_l x y : is_u32 x -> is_u32 (Z.land x y).
Proof.
  rewrite !is_u32_bits. intros [H1 H2]. split; [apply Z.land_nonneg; tauto|]. intros n Hn. by rewrite Z.land_spec, H2.
Qed.

Lemma u32_ldiff x y : is_u32 x -> is_u32 (Z.ldiff x y).
Proof.
  rewrite !is_u32_bits. intros [H1 H2]. split; [apply Z.ldiff_nonneg; tauto|]. intros n Hn. by rewrite Z.ldiff_spec, H2.
Qed.

Lemma u32_bit b : 0 <= b < 32 -> is_u32 (Z.shiftl 1 b).
Proof.
  intros H. rewrite Z.shiftl_1_l. unfold is_u32. split; [apply Z.pow_nonneg; lia|].
  change 4294967296 with (2 ^ 32). apply Z.pow_lt_mono_r; lia.
Qed.

(** A register file after the write of one register. *)
Lemma rd_wr_at (l : list Z) i j v :
  0 <= i < zlen l -> 0 <= j -> rd (wr l i v) j = if j =? i then v else rd l j.
Proof.
  intros Hi Hj. unfold rd, wr, zlen in *. destruct (Z.eqb_spec j i) as [->|Hne].
  - by rewrite list_lookup_insert_eq by lia.
  - by rewrite list_lookup_insert_ne by lia.
Qed.

Create HintDb words.
#[export] Hint Resolve u32_lor u32_land_l u32_ldiff lxor_u32 u32_is_u32 : words.

Lemma phys_read_lookup f a n i : (i < Z.to_nat n)%nat -> (phys_read f a n : list Z) !! i = Some (f (a + Z.of_nat i)).
Proof. intros H. unfold phys_read. by rewrite list_lookup_fmap, lookup_seq_lt. Qed.

Lemma phys_read_ext f g a n : (forall x, a <= x < a + n -> f x = g x) -> phys_read f a n = phys_read g a n.
Proof.
  intros H. unfold phys_read. apply list_fmap_ext. intros i x Hx. apply lookup_seq in Hx as [-> Hx]. apply H. lia.
Qed.

Lemma phys_read_written f a l : phys_read (phys_write f a l) a (zlen l) = l.
Proof.
  apply list_eq. intros i. destruct (decide (i < length l)%nat) as [Hi|Hi].
  - rewrite phys_read_lookup by (unfold zlen; lia). unfold phys_write.
    rewrite (proj2 (Z.leb_le _ _)), (proj2 (Z.ltb_lt _ _)) by (unfold zlen; lia). cbn [andb]. unfold rd.
    replace (Z.to_nat (a + Z.of_nat i - a)) with i by lia. by destruct (lookup_lt_is_Some_2 l i Hi) as [v ->].
  - rewrite !lookup_ge_None_2; [done|lia|]. rewrite length_phys_read. unfold zlen. lia.
Qed.

Lemma phys_read_other f a l b n : b + n <= a \/ a + zlen l <= b -> phys_read (phys_write f a l) b n = phys_read f b n.
Proof.
  intros H. apply phys_read_ext. intros x Hx. unfold phys_write. destruct (_ && _) eqn:E; [|done]. bool_hyps. lia.
Qed.

(** ** Bits and bytes of a word *)

Lemma flagged_bit v k : 0 <= k -> flagged v (2 ^ k) = Z.testbit v k.
Proof.
  intros H. unfold flagged. destruct (Z.testbit v k) eqn:E.
  - destruct (Z.eqb_spec (Z.land v (2 ^ k)) 0) as [Z|]; [|done].
    assert (Z.testbit (Z.land v (2 ^ k)) k = true) as T by (by rewrite Z.land_spec, E, Z.pow2_bits_true).
    by rewrite Z, Z.bits_0 in T.
  - assert (Z.land v (2 ^ k) = 0) as ->; [|done]. apply Z.bits_inj'. intros n Hn.
    rewrite Z.land_spec, Z.pow2_bits_eqb, Z.bits_0 by lia. destruct (Z.eqb_spec k n) as [->|]; [by rewrite E|]. by rewrite andb_false_r.
Qed.

Lemma flagged_lor v a b : flagged v (Z.lor a b) = flagged v a || flagged v b.
Proof.
  unfold flagged. rewrite Z.land_lor_distr_r. destruct (Z.eqb_spec (Z.land v a) 0) as [E|Ha]; cbn [negb orb]; [by rewrite E, Z.lor_0_l|].
  apply negb_true_iff, Z.eqb_neq. intros E. apply Ha. by apply Z.lor_eq_0_iff in E as [? _].
Qed.

Lemma le32_le_word b : zlen b = 4 -> is_bytes b -> le32 (le_word b) = b.
Proof.
  intros Hb Bb. destruct b as [|x0 [|x1 [|x2 [|x3 [|]]]]]; try (unfold zlen in Hb; cbn in Hb; lia).
  unfold is_bytes in Bb. rewrite !Forall_cons in Bb. destruct Bb as (B0 & B1 & B2 & B3 & _).
  assert (W : le_word [x0; x1; x2; x3] = x0 + 256 * (x1 + 256 * (x2 + 256 * x3))).
  { assert (S : forall x y, is_byte x -> Z.lor x (Z.shiftl y 8) = x + 256 * y).
    { intros x y Hx. rewrite Z.lor_comm, lor_shiftl_add by (unfold is_byte in *; lia). lia. }
    cbn [le_word]. rewrite Z.shiftl_0_l, Z.lor_0_r. by rewrite !S by done. }
  rewrite W. unfold le32, is_byte in *. rewrite !u8_shiftr by lia. unfold u8. change (2 ^ 8) with 256. change (2 ^ 16) with 65536.
  change (2 ^ 24) with 16777216. repeat f_equal; Z.div_mod_to_equations; lia.
Qed.

(** ** Lists by index *)

Lemma rd_lookup (l : bytes) j : 0 <= j < zlen l -> l !! Z.to_nat j = Some (rd l j).
Proof. intros H. unfold rd. destruct (lookup_lt_is_Some_2 l (Z.to_nat j)) as [v E]; [unfold zlen in H; lia|]. by rewrite E. Qed.

(** Two lists of the same length that agree at every index. *)
Lemma list_eq_rd (l k : bytes) : zlen l = zlen k -> (forall j, 0 <= j < zlen l -> rd l j = rd k j) -> l = k.
Proof.
  intros Hl H. apply list_eq. intros i. destruct (decide (Z.of_nat i < zlen l)).
  - rewrite <- (Nat2Z.id i), !rd_lookup by lia. by rewrite H by lia.
  - rewrite !lookup_ge_None_2; [done|unfold zlen in *; lia..].
Qed.

Lemma rd_app (l k : bytes) j : 0 <= j -> rd (l ++ k) j = if j <? zlen l then rd l j else rd k (j - zlen l).
Proof.
  intros H. unfold rd, zlen. destruct (Z.ltb_spec j (Z.of_nat (length l))).
  - by rewrite lookup_app_l by lia.
  - rewrite lookup_app_r by lia. do 2 f_equal. lia.
Qed.

Lemma rd_ztake n (l : bytes) j : 0 <= j < n -> rd (ztake n l) j = rd l j.
Proof. intros H. unfold rd, ztake. by rewrite lookup_take_lt by lia. Qed.

Lemma rd_zdrop n (l : bytes) j : 0 <= n -> 0 <= j -> rd (zdrop n l) j = rd l (n + j).
Proof. intros. unfold rd, zdrop. rewrite lookup_drop. do 2 f_equal. lia. Qed.

Lemma rd_blit (buf src : bytes) off j : 0 <= off -> 0 <= j -> off + zlen src <= zlen buf ->
  rd (blit buf (Z.to_nat off) src) j = if (off <=? j) && (j <? off + zlen src) then rd src (j - off) else rd buf j.
Proof.
  intros Ho Hj Hl. rewrite blit_splice by (unfold zlen in Hl; lia).
  change (take (Z.to_nat off) buf) with (ztake off buf).
  replace (drop (Z.to_nat off + length src) buf) with (zdrop (off + zlen src) buf) by (unfold zdrop; f_equal; unfold zlen; lia).
  pose proof (zlen_nonneg src). rewrite rd_app, zlen_ztake by lia. rewrite Z.min_l, Z.max_r by lia.
  destruct (Z.leb_spec off j), (Z.ltb_spec j off); try lia; cbn [andb]; [|by rewrite rd_ztake by lia].
  rewrite rd_app by lia. destruct (Z.ltb_spec j (off + zlen src)), (Z.ltb_spec (j - off) (zlen src)); try lia.
  rewrite rd_zdrop by lia. f_equal. lia.
Qed.

Lemma ztake_split {A} n m (l : list A) : 0 <= n -> 0 <= m -> ztake n l ++ ztake m (zdrop n l) = ztake (n + m) l.
Proof. intros. unfold ztake, zdrop. rewrite Z2Nat.inj_add by lia. apply take_take_drop. Qed.

(** ** More on memory, masks and bits *)

Lemma zlen_phys_read m a n : 0 <= n -> zlen (phys_read m a n) = n.
Proof. intros H. unfold zlen. rewrite length_phys_read. lia. Qed.

Lemma phys_read_app f a n m : 0 <= n -> 0 <= m -> phys_read f a (n + m) = phys_read f a n ++ phys_read f (a + n) m.
Proof.
  intros Hn Hm. unfold phys_read. rewrite Z2Nat.inj_add, seq_app, fmap_app by lia. f_equal.
  rewrite Nat.add_0_l, <- (Nat.add_0_r (Z.to_nat n)), <- fmap_add_seq, <- list_fmap_compose.
  apply list_fmap_ext. intros i x _. unfold compose. f_equal. lia.
Qed.

Lemma flagged_set v m : m <> 0 -> flagged (Z.lor v m) m = true.
Proof.
  intros H. unfold flagged. assert (Z.land (Z.lor v m) m = m) as ->.
  { apply Z.bits_inj'. intros i _. rewrite Z.land_spec, Z.lor_spec. by destruct (Z.testbit v i), (Z.testbit m i). }
  by rewrite (proj2 (Z.eqb_neq _ _)).
Qed.

Lemma mask_bit (n i : Z) : 0 <= n -> 0 <= i -> Z.testbit (Z.ones n) i = (i <? n).
Proof.
  intros Hn Hi. destruct (Z.ltb_spec i n); [by apply Z.ones_spec_low|by apply Z.ones_spec_high].
Qed.

Lemma land_mask n x : 0 <= n -> 0 <= x < 2 ^ n -> Z.land x (Z.ones n) = x.
Proof. intros Hn Hx. rewrite Z.land_ones by done. by apply Z.mod_small. Qed.

Lemma phys_write_app m a p q x : phys_write (phys_write m a p) (a + zlen p) q x = phys_write m a (p ++ q) x.
Proof.
  unfold phys_write. rewrite zlen_app. pose proof (zlen_nonneg p). pose proof (zlen_nonneg q).
  destruct (Z.leb_spec a x), (Z.ltb_spec x (a + zlen p)), (Z.leb_spec (a + zlen p) x), (Z.ltb_spec x (a + zlen p + zlen q)),
    (Z.ltb_spec x (a + (zlen p + zlen q))); cbn [andb]; try lia; try done; rewrite rd_app by lia;
    destruct (Z.ltb_spec (x - a) (zlen p)); try lia; try done; f_equal; lia.
Qed.

Lemma phys_write_nil m a x : phys_write m a [] x = m x.
Proof. unfold phys_write. change (zlen (@nil Z)) with 0. destruct (Z.leb_spec a x), (Z.ltb_spec x (a + 0)); done || lia. Qed.

Lemma phys_write_ext m m' a p x : m x = m' x -> phys_write m a p x = phys_write m' a p x.
Proof. intros E. unfold phys_write. by rewrite E. Qed.

(** ** Words in a buffer *)

Lemma ld_le32_slice l k w : is_u32 w -> take 4 (drop k l) = le32 w -> ld_le32 l (Z.of_nat k) = w.
Proof.
  intros Hw E. assert (R : forall j, (j < 4)%nat -> rd l (Z.of_nat k + Z.of_nat j) = rd (le32 w) (Z.of_nat j)).
  { intros j Hj. rewrite <- E. unfold rd. rewrite Nat2Z.id, lookup_take_lt, lookup_drop by lia. f_equal. f_equal. lia. }
  pose proof (R 0%nat ltac:(lia)) as R0. pose proof (R 1%nat ltac:(lia)) as R1. pose proof (R 2%nat ltac:(lia)) as R2.
  pose proof (R 3%nat ltac:(lia)) as R3. rewrite Z.add_0_r in R0. unfold ld_le32.
  change (rd l (Z.of_nat k + 1) = u8 (Z.shiftr w 8)) in R1. change (rd l (Z.of_nat k + 2) = u8 (Z.shiftr w 16)) in R2.
  change (rd l (Z.of_nat k + 3) = u8 (Z.shiftr w 24)) in R3. change (rd l (Z.of_nat k) = u8 w) in R0. rewrite R0, R1, R2, R3.
  rewrite (u8_shiftr w 8), (u8_shiftr w 16), (u8_shiftr w 24) by lia. pose proof (u32_split w Hw). unfold u8. lia.
Qed.

Lemma length_concat_le32 ws : length (concat (le32 <$> ws)) = (4 * length ws)%nat.
Proof.
  induction ws as [|w ws IH]; [done|]. rewrite fmap_cons, concat_cons, length_app, IH.
  change (length (le32 w)) with 4%nat. cbn [length]. lia.
Qed.

Lemma zlen_replicate {A} n (x : A) : 0 <= n -> zlen (replicate (Z.to_nat n) x) = n.
Proof. intros H. unfold zlen. rewrite length_replicate. lia. Qed.

Lemma ld_le32_concat ws rest i w : ws !! i = Some w -> is_u32 w -> ld_le32 (concat (le32 <$> ws) ++ rest) (4 * Z.of_nat i) = w.
Proof.
  intros E Hw. replace (4 * Z.of_nat i) with (Z.of_nat (4 * i)) by lia. apply ld_le32_slice; [done|].
  rewrite <- (take_drop_middle ws i w E), fmap_app, concat_app, fmap_cons, concat_cons, <- !app_assoc.
  rewrite drop_app_ge; rewrite length_concat_le32, length_take; [|apply lookup_lt_Some in E; lia].
  apply lookup_lt_Some in E. replace (4 * i - 4 * (i `min` length ws))%nat with 0%nat by lia. done.
Qed.

Lemma is_bytes_concat_le32 ws : is_bytes (concat (le32 <$> ws)).
Proof. induction ws as [|w ws IH]; [by apply Forall_nil_2|]. rewrite fmap_cons, concat_cons. apply is_bytes_app. split; [apply le32_bytes|done]. Qed.
