(* ===== verification/Fifo8.v ===== *)
(** * Byte FIFOs

    [src/util/fifo8.c], the circular buffer of the device models.  An [assert]
    that fails ends the emulator: the operation is then [None].  [fifo_list] is
    the queue a buffer stands for, and [fifo8_refines] relates every sequence of
    operations to the same sequence on a bounded queue.  The two operations that
    return a pointer into the buffer show where the ring ends, so the queue keeps
    the position of its head. *)

From Stdlib Require Import ZArith Lia.
From stdpp Require Import base numbers list.
From S2P Require Import Prelude CLib HwLib.
Local Open Scope Z_scope.

Record Fifo8 := mkFifo8 {
  ff_data : bytes;
  ff_capacity : Z;
  ff_head : Z;
  ff_num : Z;
}.

(** ** Operations *)

Definition fifo8_reset (f : Fifo8) : Fifo8 := mkFifo8 (ff_data f) (ff_capacity f) 0 0.

(** [junk] is what the allocation holds. *)
Definition fifo8_create (junk : bytes) (capacity : Z) : Fifo8 := fifo8_reset (mkFifo8 junk capacity 0 0).

Definition fifo8_push (data : Z) (f : Fifo8) : option Fifo8 :=
  if ff_num f <? ff_capacity f then
    Some (mkFifo8 (wr (ff_data f) (u32 (ff_head f + ff_num f) mod ff_capacity f) data)
                  (ff_capacity f) (ff_head f) (u32 (ff_num f + 1)))
  else None.

Definition fifo8_push_all (data : bytes) (f : Fifo8) : option Fifo8 :=
  let num := zlen data in
  if u32 (ff_num f + num) <=? ff_capacity f then
    let start := u32 (ff_head f + ff_num f) mod ff_capacity f in
    let d := if u32 (start + num) <=? ff_capacity f then blit (ff_data f) (Z.to_nat start) data
             else let avail := u32 (ff_capacity f - start) in
                  blit (blit (ff_data f) (Z.to_nat start) (ztake avail data)) 0 (zdrop avail data) in
    Some (mkFifo8 d (ff_capacity f) (ff_head f) (u32 (ff_num f + num)))
  else None.

Definition fifo8_pop (f : Fifo8) : option (Z * Fifo8) :=
  if 0 <? ff_num f then
    Some (rd (ff_data f) (ff_head f),
          mkFifo8 (ff_data f) (ff_capacity f) (u32 (ff_head f + 1) mod ff_capacity f) (u32 (ff_num f - 1)))
  else None.

Definition fifo8_peek (f : Fifo8) : option Z :=
  if 0 <? ff_num f then Some (rd (ff_data f) (ff_head f)) else None.

(** The bytes the returned pointer and [*numptr] delimit. *)
Definition fifo8_peekpop_bufptr (max skip : Z) (do_pop : bool) (f : Fifo8) : option (bytes * Fifo8) :=
  if (0 <? max) && (max <=? ff_num f) && (skip <=? ff_num f) then
    let head := u32 (ff_head f + skip) mod ff_capacity f in
    let num := Z.min (u32 (ff_capacity f - head)) max in
    Some (ztake num (zdrop head (ff_data f)),
          if do_pop then mkFifo8 (ff_data f) (ff_capacity f) (u32 (head + num) mod ff_capacity f) (u32 (ff_num f - num))
          else f)
  else None.

Definition fifo8_peek_bufptr (max : Z) (f : Fifo8) : option (bytes * Fifo8) := fifo8_peekpop_bufptr max 0 false f.
Definition fifo8_pop_bufptr (max : Z) (f : Fifo8) : option (bytes * Fifo8) := fifo8_peekpop_bufptr max 0 true f.

(** The bytes that reach [dest]. *)
Definition fifo8_peekpop_buf (destlen : Z) (do_pop : bool) (f : Fifo8) : option (bytes * Fifo8) :=
  if destlen =? 0 then Some ([], f)
  else
    '(b1, f) ← fifo8_peekpop_bufptr destlen 0 do_pop f;
    let len := Z.min (destlen - zlen b1) (ff_num f) in
    if len =? 0 then Some (b1, f)
    else '(b2, f) ← fifo8_peekpop_bufptr len (if do_pop then 0 else zlen b1) do_pop f; Some (b1 ++ b2, f).

Definition fifo8_pop_buf (destlen : Z) (f : Fifo8) : option (bytes * Fifo8) := fifo8_peekpop_buf destlen true f.
Definition fifo8_peek_buf (destlen : Z) (f : Fifo8) : option (bytes * Fifo8) := fifo8_peekpop_buf destlen false f.

Definition fifo8_drop (len : Z) (f : Fifo8) : option Fifo8 :=
  '(b, f) ← fifo8_pop_buf len f; if len - zlen b =? 0 then Some f else None.

Definition fifo8_is_empty (f : Fifo8) : bool := ff_num f =? 0.
Definition fifo8_is_full (f : Fifo8) : bool := ff_num f =? ff_capacity f.
Definition fifo8_num_free (f : Fifo8) : Z := u32 (ff_capacity f - ff_num f).
Definition fifo8_num_used (f : Fifo8) : Z := ff_num f.

(** Loading [vmstate_fifo8]: the buffer has the capacity of the FIFO it is
    loaded into; head and number are taken as they come. *)
Definition fifo8_load (stream f : Fifo8) : Fifo8 :=
  mkFifo8 (ff_data stream) (ff_capacity f) (ff_head stream) (ff_num stream).

(** ** The queue *)

Definition fifo_list (f : Fifo8) : bytes :=
  (fun i => rd (ff_data f) ((ff_head f + Z.of_nat i) mod ff_capacity f)) <$> seq 0 (Z.to_nat (ff_num f)).

Record fifo_wf (f : Fifo8) : Prop := {
  fw_data : zlen (ff_data f) = ff_capacity f;
  fw_capacity : 0 < ff_capacity f < 2147483648;
  fw_head : 0 <= ff_head f < ff_capacity f;
  fw_num : 0 <= ff_num f <= ff_capacity f;
}.

Lemma ring_idx c h i : 0 <= h < c -> 0 <= i <= c -> (h + i) mod c = if h + i <? c then h + i else h + i - c.
Proof.
  intros Hh Hi. destruct (Z.ltb_spec (h + i) c); [apply Z.mod_small; lia|].
  rewrite <- (Z.mod_small (h + i - c) c) by lia. replace (h + i - c) with (h + i + (-1) * c) by lia. by rewrite Z.mod_add by lia.
Qed.

Lemma zlen_fifo_list f : 0 <= ff_num f -> zlen (fifo_list f) = ff_num f.
Proof. intros. unfold fifo_list, zlen. rewrite length_fmap, length_seq. lia. Qed.

Lemma fifo_list_lookup f i : (i < Z.to_nat (ff_num f))%nat ->
  (fifo_list f : list Z) !! i = Some (rd (ff_data f) ((ff_head f + Z.of_nat i) mod ff_capacity f)).
Proof. intros H. unfold fifo_list. rewrite list_lookup_fmap, lookup_seq_lt by done. done. Qed.

Lemma rd_fifo f j : 0 <= j < ff_num f -> rd (fifo_list f) j = rd (ff_data f) ((ff_head f + j) mod ff_capacity f).
Proof. intros H. unfold rd at 1. rewrite fifo_list_lookup by lia. simpl. by rewrite Z2Nat.id by lia. Qed.

(** ** One operation *)

Ltac fifo_ranges f W := pose proof (fw_data f W); pose proof (fw_capacity f W); pose proof (fw_head f W); pose proof (fw_num f W).
Ltac fifo_u32 := repeat match goal with |- context [u32 ?x] => rewrite (u32_id x) by (unfold is_u32; lia) end.

(** A position of the ring is an index of the buffer. *)
Lemma fifo_index f i : fifo_wf f -> 0 <= i <= ff_capacity f ->
  (ff_head f + i) mod ff_capacity f = if ff_head f + i <? ff_capacity f then ff_head f + i else ff_head f + i - ff_capacity f.
Proof. intros W Hi. fifo_ranges f W. apply ring_idx; lia. Qed.

(** The buffer after [l] was written at [start], around its end. *)
Lemma rd_ring_write (d l : bytes) c start i : zlen d = c -> 0 <= start < c -> zlen l <= c -> 0 <= i < c ->
  rd (if start + zlen l <=? c then blit d (Z.to_nat start) l
      else blit (blit d (Z.to_nat start) (ztake (c - start) l)) 0 (zdrop (c - start) l)) ((start + i) mod c) =
  if i <? zlen l then rd l i else rd d ((start + i) mod c).
Proof.
  intros Hd Hs Hl Hi. pose proof (zlen_nonneg l). rewrite ring_idx by lia. destruct (Z.leb_spec (start + zlen l) c).
  - rewrite rd_blit by (split_ifs; bool_hyps; lia). split_ifs; bool_hyps; try lia; try done; f_equal; lia.
  - change (blit ?b 0 ?l) with (blit b (Z.to_nat 0) l).
    assert (Hb : zlen (blit d (Z.to_nat start) (ztake (c - start) l)) = c) by (unfold zlen in *; by rewrite length_blit).
    rewrite !rd_blit by (rewrite ?Hb; autorewrite with zlen; split_ifs; bool_hyps; lia).
    autorewrite with zlen. rewrite (Z.min_l (Z.max 0 (c - start))) by lia.
    split_ifs; bool_hyps; try lia; try done; rewrite ?rd_ztake, ?rd_zdrop by lia; try done; f_equal; lia.
Qed.

(** Taking the first [k] bytes off. *)
Lemma fifo_advance f k : fifo_wf f -> 0 <= k <= ff_num f ->
  let f' := mkFifo8 (ff_data f) (ff_capacity f) ((ff_head f + k) mod ff_capacity f) (ff_num f - k) in
  fifo_wf f' /\ fifo_list f' = zdrop k (fifo_list f).
Proof.
  intros W Hk f'. fifo_ranges f W. assert (0 <= ff_num f') by (unfold f'; cbn; lia). split.
  - split; cbn; [done|lia|apply Z.mod_pos_bound; lia|lia].
  - apply list_eq_rd; rewrite ?zlen_zdrop, !zlen_fifo_list by lia; [unfold f'; cbn; lia|].
    intros j Hj. rewrite rd_zdrop, !rd_fifo by (unfold f' in *; cbn in *; lia). unfold f'. cbn.
    rewrite Zplus_mod_idemp_l. do 2 f_equal. lia.
Qed.

(** What a pointer into the buffer shows. *)
Lemma fifo_prefix f k n : fifo_wf f -> 0 <= k -> 0 <= n -> k + n <= ff_num f ->
  (ff_head f + k) mod ff_capacity f + n <= ff_capacity f ->
  ztake n (zdrop ((ff_head f + k) mod ff_capacity f) (ff_data f)) = ztake n (zdrop k (fifo_list f)).
Proof.
  intros W Hk Hn Hl Hc. fifo_ranges f W. pose proof (Z.mod_pos_bound (ff_head f + k) (ff_capacity f)).
  apply list_eq_rd; [rewrite !zlen_ztake, !zlen_zdrop, zlen_fifo_list by lia; lia|].
  intros j. rewrite zlen_ztake, zlen_zdrop by lia. intros Hj.
  rewrite !rd_ztake, !rd_zdrop, rd_fifo by lia. f_equal. rewrite Z.add_assoc, <- (Zplus_mod_idemp_l (_ + _)).
  symmetry. apply Z.mod_small. lia.
Qed.

Lemma fifo8_push_ok b f : fifo_wf f -> ff_num f < ff_capacity f ->
  exists f', fifo8_push b f = Some f' /\ fifo_wf f' /\ fifo_list f' = fifo_list f ++ [b] /\ ff_capacity f' = ff_capacity f.
Proof.
  intros W Hn. fifo_ranges f W. unfold fifo8_push. rewrite (proj2 (Z.ltb_lt _ _)) by lia. fifo_u32.
  eexists. split; [done|]. split; [split; cbn; rewrite ?zlen_wr; lia|]. split; [|done].
  apply list_eq_rd; rewrite ?zlen_app, !zlen_fifo_list by (cbn; lia); [done|]. cbn [ff_num]. intros j Hj.
  rewrite rd_fifo, rd_app, zlen_fifo_list by (cbn; lia). cbn [ff_data ff_head ff_capacity].
  rewrite rd_wr_at by (rewrite ?fw_data by done; apply Z.mod_pos_bound; lia).
  rewrite !fifo_index by (done || lia).
  destruct (Z.ltb_spec j (ff_num f)).
  - rewrite rd_fifo, fifo_index by (done || lia). rewrite (proj2 (Z.eqb_neq _ _)); [done|].
    destruct (Z.ltb_spec (ff_head f + j) (ff_capacity f)), (Z.ltb_spec (ff_head f + ff_num f) (ff_capacity f)); lia.
  - replace j with (ff_num f) by lia. rewrite Z.eqb_refl, Z.sub_diag. done.
Qed.

Lemma fifo8_push_all_ok l f : fifo_wf f -> ff_num f + zlen l <= ff_capacity f ->
  exists f', fifo8_push_all l f = Some f' /\ fifo_wf f' /\ fifo_list f' = fifo_list f ++ l /\ ff_capacity f' = ff_capacity f.
Proof.
  intros W Hn. fifo_ranges f W. pose proof (zlen_nonneg l).
  assert (Hm : 0 <= (ff_head f + ff_num f) mod ff_capacity f < ff_capacity f) by (apply Z.mod_pos_bound; lia).
  unfold fifo8_push_all. fifo_u32. rewrite (proj2 (Z.leb_le _ _)) by lia. cbv zeta. fifo_u32.
  eexists. split; [done|]. split; [split; cbn; try lia|split; [|done]].
  { unfold zlen. destruct (_ <=? _); rewrite !length_blit; apply fw_data, W. }
  apply list_eq_rd; rewrite ?zlen_app, !zlen_fifo_list by (cbn; lia); [done|]. cbn [ff_num]. intros j Hj.
  rewrite rd_fifo, rd_app, zlen_fifo_list by (cbn; lia). cbn [ff_data ff_head ff_capacity].
  set (start := (ff_head f + ff_num f) mod ff_capacity f) in *.
  assert (Ej : forall i,
    (ff_head f + j) mod ff_capacity f = (start + (j - ff_num f + i * ff_capacity f)) mod ff_capacity f).
  { intros i. unfold start. rewrite Zplus_mod_idemp_l.
    replace (ff_head f + ff_num f + (j - ff_num f + i * ff_capacity f)) with (ff_head f + j + i * ff_capacity f) by lia.
    by rewrite Z.mod_add by lia. }
  destruct (Z.ltb_spec j (ff_num f)).
  - rewrite (Ej 1), rd_ring_write, <- (Ej 1) by lia. rewrite rd_fifo by lia.
    by rewrite (proj2 (Z.ltb_ge _ _)) by lia.
  - rewrite (Ej 0), rd_ring_write by lia. rewrite (proj2 (Z.ltb_lt _ _)) by lia. f_equal. lia.
Qed.

Lemma fifo8_pop_ok f b q : fifo_wf f -> fifo_list f = b :: q ->
  exists f', fifo8_pop f = Some (b, f') /\ fifo_wf f' /\ fifo_list f' = q /\ ff_capacity f' = ff_capacity f.
Proof.
  intros W E. fifo_ranges f W. pose proof (zlen_fifo_list f ltac:(lia)) as El. rewrite E, zlen_cons in El. pose proof (zlen_nonneg q).
  destruct (fifo_advance f 1 W ltac:(lia)) as [W' L]. unfold fifo8_pop. rewrite (proj2 (Z.ltb_lt _ _)) by lia. fifo_u32.
  eexists. split; [|split; [exact W'|split; [by rewrite L, E|done]]]. do 2 f_equal.
  pose proof (rd_fifo f 0 ltac:(lia)) as R. rewrite Z.add_0_r, Z.mod_small, E in R by lia. by rewrite <- R.
Qed.

Lemma fifo8_peek_ok f b q : fifo_wf f -> fifo_list f = b :: q -> fifo8_peek f = Some b.
Proof.
  intros W E. destruct (fifo8_pop_ok f b q W E) as (f' & P & _). revert P. unfold fifo8_pop, fifo8_peek.
  destruct (0 <? ff_num f); [|done]. intros P. by simplify_eq.
Qed.

Lemma fifo_nil_num f : fifo_wf f -> fifo_list f = [] <-> ff_num f = 0.
Proof.
  intros W. fifo_ranges f W. rewrite <- (zlen_fifo_list f) by lia. split; [by intros ->|].
  destruct (fifo_list f) as [|b l]; [done|]. rewrite zlen_cons. pose proof (zlen_nonneg l). lia.
Qed.

(** A pointer into the buffer shows bytes from [skip] on, as many as were asked
    for unless the ring ends before. *)
Lemma fifo8_bufptr_ok f max skip p : fifo_wf f -> 0 < max -> 0 <= skip -> skip + max <= ff_num f ->
  let n := Z.min (ff_capacity f - (ff_head f + skip) mod ff_capacity f) max in
  0 < n <= max /\
  fifo8_peekpop_bufptr max skip p f = Some (ztake n (zdrop skip (fifo_list f)),
    if p then mkFifo8 (ff_data f) (ff_capacity f) ((ff_head f + (skip + n)) mod ff_capacity f) (ff_num f - n) else f).
Proof.
  intros W Hm Hs Hl n. fifo_ranges f W. pose proof (Z.mod_pos_bound (ff_head f + skip) (ff_capacity f) ltac:(lia)).
  split; [unfold n; lia|]. unfold fifo8_peekpop_bufptr. rewrite !(proj2 (Z.leb_le _ _)), (proj2 (Z.ltb_lt _ _)) by lia.
  cbn [andb]. cbv zeta. fifo_u32. fold n. rewrite fifo_prefix by (done || (unfold n; lia)).
  by rewrite Zplus_mod_idemp_l, Z.add_assoc.
Qed.

Lemma fifo8_pop_bufptr_ok f max : fifo_wf f -> 0 < max <= ff_num f ->
  let n := Z.min (ff_capacity f - ff_head f) max in
  exists f', 0 < n <= max /\ fifo8_pop_bufptr max f = Some (ztake n (fifo_list f), f') /\ fifo_wf f' /\
    fifo_list f' = zdrop n (fifo_list f) /\ ff_capacity f' = ff_capacity f.
Proof.
  intros W Hm n. fifo_ranges f W. destruct (fifo8_bufptr_ok f max 0 true W) as [Hn E]; [lia..|].
  rewrite Z.add_0_r, Z.mod_small in Hn, E by lia. fold n in Hn, E. rewrite Z.add_0_l in E.
  destruct (fifo_advance f n W ltac:(lia)) as [W' L]. eexists. split; [done|]. split; [exact E|]. done.
Qed.

Lemma fifo8_bufptr_refused f max skip p : ff_num f < max -> fifo8_peekpop_bufptr max skip p f = None.
Proof. intros H. unfold fifo8_peekpop_bufptr. by rewrite (proj2 (Z.leb_gt _ _)), andb_false_r by lia. Qed.

Lemma fifo8_peekpop_buf_ok f n p : fifo_wf f -> 0 <= n <= ff_num f ->
  exists f', fifo8_peekpop_buf n p f = Some (ztake n (fifo_list f), f') /\ fifo_wf f' /\
    fifo_list f' = (if p then zdrop n (fifo_list f) else fifo_list f) /\ ff_capacity f' = ff_capacity f /\
    ff_head f' = if p then (ff_head f + n) mod ff_capacity f else ff_head f.
Proof.
  intros W Hn. fifo_ranges f W. unfold fifo8_peekpop_buf. destruct (Z.eqb_spec n 0) as [->|Hz].
  { exists f. rewrite Z.add_0_r, Z.mod_small by lia. by destruct p. }
  destruct (fifo8_bufptr_ok f n 0 p W) as [Hm E]; [lia..|]. rewrite Z.add_0_r, Z.mod_small in Hm, E by lia.
  rewrite E. cbn [mbind option_bind]. set (m := Z.min (ff_capacity f - ff_head f) n) in *.
  change (zdrop 0 (fifo_list f)) with (fifo_list f) in *. rewrite Z.add_0_l.
  assert (Em : zlen (ztake m (fifo_list f)) = m) by (rewrite zlen_ztake, zlen_fifo_list by lia; lia).
  destruct (fifo_advance f m W ltac:(lia)) as [W' L].
  assert (Hd : m = n \/ m < n /\ m = ff_capacity f - ff_head f) by (unfold m; lia).
  rewrite Em. destruct Hd as [Hd|[Hlt Hd]].
  - rewrite Hd in *. rewrite Z.sub_diag, Z.min_l by (destruct p; cbn; lia). cbn [Z.eqb].
    eexists. split; [done|]. by destruct p.
  - rewrite (Z.min_l (n - m)) by (destruct p; cbn; lia). rewrite (proj2 (Z.eqb_neq _ _)) by lia.
    set (f1 := if p then _ else f). assert (W1 : fifo_wf f1) by (unfold f1; by destruct p).
    destruct (fifo8_bufptr_ok f1 (n - m) (if p then 0 else m) p W1) as [_ E1]; [lia|destruct p; lia|unfold f1; destruct p; cbn; lia|].
    rewrite E1. cbn [mbind option_bind].
    assert (Eq : (ff_head f1 + (if p then 0 else m)) mod ff_capacity f1 = 0).
    { unfold f1. destruct p; cbn; rewrite ?Z.add_0_r, Hd, ?Zmod_mod; replace (ff_head f + (ff_capacity f - ff_head f)) with (ff_capacity f) by lia;
        apply Z_mod_same_full. }
    assert (Ec : ff_capacity f1 = ff_capacity f) by (unfold f1; by destruct p).
    rewrite Eq, Ec, Z.sub_0_r, Z.min_r by lia.
    destruct (fifo_advance f n W ltac:(lia)) as [Wn Ln]. unfold f1. destruct p; cbn [ff_data ff_capacity ff_head ff_num].
    + rewrite L. change (zdrop 0 ?l) with l. rewrite ztake_split by lia. replace (m + (n - m)) with n by lia.
      rewrite Z.add_0_l, Zplus_mod_idemp_l. replace (ff_head f + m + (n - m)) with (ff_head f + n) by lia.
      replace (ff_num f - m - (n - m)) with (ff_num f - n) by lia. eexists. split; [done|]. done.
    + rewrite ztake_split by lia. replace (m + (n - m)) with n by lia. eexists. split; [done|]. done.
Qed.

(** ** Sequences of operations *)

Inductive FifoOp :=
| OpReset
| OpPush (b : Z)
| OpPushAll (l : bytes)
| OpPop
| OpPeek
| OpPopBuf (n : Z)
| OpPeekBuf (n : Z)
| OpPopPtr (max : Z)
| OpPeekPtr (max : Z)
| OpDrop (n : Z)
| OpIsEmpty
| OpIsFull
| OpNumFree
| OpNumUsed.

(** The bytes or the number an operation returns, and the FIFO after it. *)
Definition fifo_step (op : FifoOp) (f : Fifo8) : option (list Z * Fifo8) :=
  match op with
  | OpReset => Some ([], fifo8_reset f)
  | OpPush b => pair [] <$> fifo8_push b f
  | OpPushAll l => pair [] <$> fifo8_push_all l f
  | OpPop => (fun '(b, f) => ([b], f)) <$> fifo8_pop f
  | OpPeek => (fun b => ([b], f)) <$> fifo8_peek f
  | OpPopBuf n => fifo8_pop_buf n f
  | OpPeekBuf n => fifo8_peek_buf n f
  | OpPopPtr max => fifo8_pop_bufptr max f
  | OpPeekPtr max => fifo8_peek_bufptr max f
  | OpDrop n => pair [] <$> fifo8_drop n f
  | OpIsEmpty => Some ([b2z (fifo8_is_empty f)], f)
  | OpIsFull => Some ([b2z (fifo8_is_full f)], f)
  | OpNumFree => Some ([fifo8_num_free f], f)
  | OpNumUsed => Some ([fifo8_num_used f], f)
  end.

(** A queue: the bytes, and where in the ring the first of them is. *)
Record Queue := mkQueue { q_pos : Z; q_bytes : bytes }.

Definition fifo_queue (f : Fifo8) : Queue := mkQueue (ff_head f) (fifo_list f).

(** The queue without its first [n] bytes, in a ring of [cap]. *)
Definition queue_drop (cap n : Z) (q : Queue) : Queue :=
  mkQueue ((q_pos q + n) mod cap) (zdrop n (q_bytes q)).

(** The same operations on a queue that holds [cap] bytes. *)
Definition queue_step (cap : Z) (op : FifoOp) (q : Queue) : option (list Z * Queue) :=
  let l := q_bytes q in
  let push k := if zlen l + zlen k <=? cap then Some ([], mkQueue (q_pos q) (l ++ k)) else None in
  let upto max := if (0 <? max) && (max <=? zlen l) then Some (Z.min (cap - q_pos q) max) else None in
  match op with
  | OpReset => Some ([], mkQueue 0 [])
  | OpPush b => push [b]
  | OpPushAll k => push k
  | OpPop => match l with [] => None | b :: _ => Some ([b], queue_drop cap 1 q) end
  | OpPeek => match l with [] => None | b :: _ => Some ([b], q) end
  | OpPopBuf n => if n <=? zlen l then Some (ztake n l, queue_drop cap n q) else None
  | OpPeekBuf n => if n <=? zlen l then Some (ztake n l, q) else None
  | OpPopPtr max => (fun n => (ztake n l, queue_drop cap n q)) <$> upto max
  | OpPeekPtr max => (fun n => (ztake n l, q)) <$> upto max
  | OpDrop n => if n <=? zlen l then Some ([], queue_drop cap n q) else None
  | OpIsEmpty => Some ([b2z (zlen l =? 0)], q)
  | OpIsFull => Some ([b2z (zlen l =? cap)], q)
  | OpNumFree => Some ([cap - zlen l], q)
  | OpNumUsed => Some ([zlen l], q)
  end.

(** The arguments are of type [uint32_t], half of which is out of reach of a
    caller that holds the bytes. *)
Definition op_ok (op : FifoOp) : Prop :=
  match op with
  | OpPushAll l => zlen l < 2147483648
  | OpPopBuf n | OpPeekBuf n | OpPopPtr n | OpPeekPtr n | OpDrop n => is_u32 n
  | _ => True
  end.

Fixpoint run_ops {S} (step : FifoOp -> S -> option (list Z * S)) (ops : list FifoOp) (s : S) : option (list (list Z) * S) :=
  match ops with
  | [] => Some ([], s)
  | op :: ops => '(b, s) ← step op s; '(bs, s) ← run_ops step ops s; Some (b :: bs, s)
  end.

(** The outcomes of a step on the two sides. *)
Definition same_step (cap : Z) (a : option (list Z * Fifo8)) (b : option (list Z * Queue)) : Prop :=
  match a, b with
  | Some (o, f), Some (o', q) => o = o' /\ fifo_queue f = q /\ fifo_wf f /\ ff_capacity f = cap
  | None, None => True
  | _, _ => False
  end.

Lemma buf_step f n p : fifo_wf f -> 0 <= n ->
  same_step (ff_capacity f) (fifo8_peekpop_buf n p f)
    (if n <=? zlen (fifo_list f)
     then Some (ztake n (fifo_list f), if p then queue_drop (ff_capacity f) n (fifo_queue f) else fifo_queue f) else None).
Proof.
  intros W Hn. fifo_ranges f W. rewrite zlen_fifo_list by lia. destruct (Z.leb_spec n (ff_num f)).
  - destruct (fifo8_peekpop_buf_ok f n p W ltac:(lia)) as (f' & -> & W' & L & C & P). split_and!; try done.
    unfold fifo_queue, queue_drop. rewrite L, P. by destruct p.
  - unfold fifo8_peekpop_buf. rewrite (proj2 (Z.eqb_neq _ _)) by lia. by rewrite fifo8_bufptr_refused by lia.
Qed.

Lemma ptr_step f max p : fifo_wf f -> 0 <= max ->
  same_step (ff_capacity f) (fifo8_peekpop_bufptr max 0 p f)
    ((fun n => (ztake n (fifo_list f), if p then queue_drop (ff_capacity f) n (fifo_queue f) else fifo_queue f)) <$>
     (if (0 <? max) && (max <=? zlen (fifo_list f)) then Some (Z.min (ff_capacity f - ff_head f) max) else None)).
Proof.
  intros W Hm. fifo_ranges f W. rewrite zlen_fifo_list by lia.
  destruct (Z.ltb_spec 0 max); [|unfold fifo8_peekpop_bufptr; by rewrite (proj2 (Z.ltb_ge _ _)) by lia].
  destruct (Z.leb_spec max (ff_num f)); [|by rewrite fifo8_bufptr_refused by lia]. cbn [andb fmap option_fmap option_map].
  destruct (fifo8_bufptr_ok f max 0 p W) as [Hn E]; [lia..|]. rewrite Z.add_0_r, Z.mod_small in Hn, E by lia.
  rewrite E, Z.add_0_l. change (zdrop 0 (fifo_list f)) with (fifo_list f).
  destruct (fifo_advance f (Z.min (ff_capacity f - ff_head f) max) W ltac:(lia)) as [W' L].
  destruct p; split_and!; try done. unfold fifo_queue, queue_drop. cbn [ff_head q_pos q_bytes]. by rewrite L.
Qed.

Lemma push_step f l a : fifo_wf f ->
  (ff_num f + zlen l <= ff_capacity f -> exists f', a = Some f' /\ fifo_wf f' /\ fifo_list f' = fifo_list f ++ l /\
     ff_capacity f' = ff_capacity f) ->
  (ff_capacity f < ff_num f + zlen l -> a = None) -> (forall f', a = Some f' -> ff_head f' = ff_head f) ->
  same_step (ff_capacity f) (pair [] <$> a)
    (if zlen (fifo_list f) + zlen l <=? ff_capacity f then Some ([], mkQueue (ff_head f) (fifo_list f ++ l)) else None).
Proof.
  intros W Hok Hno Hh. fifo_ranges f W. rewrite zlen_fifo_list by lia.
  destruct (Z.leb_spec (ff_num f + zlen l) (ff_capacity f)) as [Hl|Hl]; [|by rewrite (Hno Hl)].
  destruct (Hok Hl) as (f' & E & W' & L & C). pose proof (Hh f' E) as P. rewrite E. split_and!; try done.
  unfold fifo_queue. by rewrite L, P.
Qed.

Lemma step_refines f op : fifo_wf f -> op_ok op ->
  same_step (ff_capacity f) (fifo_step op f) (queue_step (ff_capacity f) op (fifo_queue f)).
Proof.
  intros W Ho. fifo_ranges f W. pose proof (zlen_fifo_list f ltac:(lia)) as El.
  destruct op as [|b|l| | |n|n|n|n|n| | | |]; cbn [fifo_step queue_step op_ok q_pos q_bytes fifo_queue] in *; unfold is_u32 in *.
  - repeat split; cbn; lia.
  - apply push_step; [done|change (zlen [b]) with 1; intros; apply fifo8_push_ok; [done|lia]|..]; unfold fifo8_push.
    + change (zlen [b]) with 1. intros. by rewrite (proj2 (Z.ltb_ge _ _)) by lia.
    + intros f' E. case_match; by simplify_eq.
  - pose proof (zlen_nonneg l). apply push_step; [done|intros; by apply fifo8_push_all_ok|..]; unfold fifo8_push_all.
    + intros. fifo_u32. by rewrite (proj2 (Z.leb_gt _ _)) by lia.
    + intros f' E. case_match; by simplify_eq.
  - destruct (fifo_list f) as [|b q] eqn:E.
    + apply fifo_nil_num in E; [|done]. unfold fifo8_pop. by rewrite E.
    + destruct (fifo8_pop_ok f b q W E) as (f' & P & ? & L & ?). rewrite P. split_and!; try done.
      unfold fifo_queue, queue_drop. cbn [q_pos q_bytes]. rewrite L, E. f_equal. revert P. unfold fifo8_pop.
      case_match; [|done]. intros P. simplify_eq. cbn. by fifo_u32.
  - destruct (fifo_list f) as [|b q] eqn:E.
    + apply fifo_nil_num in E; [|done]. unfold fifo8_peek. by rewrite E.
    + by rewrite (fifo8_peek_ok f b q W E).
  - exact (buf_step f n true W ltac:(lia)).
  - exact (buf_step f n false W ltac:(lia)).
  - exact (ptr_step f n true W ltac:(lia)).
  - exact (ptr_step f n false W ltac:(lia)).
  - pose proof (buf_step f n true W ltac:(lia)) as S. revert S. unfold fifo8_drop, fifo8_pop_buf.
    destruct (Z.leb_spec n (zlen (fifo_list f))); destruct (fifo8_peekpop_buf n true f) as [[o f']|]; try done.
    intros (-> & Q & W' & C). cbn [mbind option_bind]. by rewrite zlen_ztake, Z.max_r, Z.min_l, Z.sub_diag by lia.
  - by rewrite El.
  - by rewrite El.
  - unfold fifo8_num_free. fifo_u32. by rewrite El.
  - by rewrite El.
Qed.

Lemma run_refines ops f : fifo_wf f -> Forall op_ok ops ->
  prod_map id fifo_queue <$> run_ops fifo_step ops f = run_ops (queue_step (ff_capacity f)) ops (fifo_queue f).
Proof.
  intros W H. revert f W. induction H as [|op ops Ho _ IH]; intros f W; [done|]. cbn [run_ops].
  pose proof (step_refines f op W Ho) as S. destruct (fifo_step op f) as [[o f']|], (queue_step _ op _) as [[o' q]|]; try done.
  destruct S as (<- & <- & W' & C). cbn [mbind option_bind]. rewrite <- C, <- (IH f' W').
  by destruct (run_ops fifo_step ops f') as [[os f2]|].
Qed.

(** C32. The circular buffer is a bounded queue: from its creation with a capacity
    below 2^31, every sequence of its operations (pushes of fewer than 2^31 bytes,
    pops, peeks, the block and pointer forms, drops, resets and the queries) returns
    what the same sequence returns on a queue of that capacity, and holds the
    queue's content at the end.  The pointer forms return the requested bytes up to
    the end of the ring, where the queue's head position says it is.  An assertion
    fails exactly when the queue would be overfilled, more bytes are asked for than
    it holds, or a pointer to no bytes is asked for. *)
Theorem fifo8_refines junk cap ops : 0 < cap < 2147483648 -> zlen junk = cap -> Forall op_ok ops ->
  prod_map id fifo_queue <$> run_ops fifo_step ops (fifo8_create junk cap) = run_ops (queue_step cap) ops (mkQueue 0 []).
Proof.
  intros Hc Hj Ho. apply (run_refines ops (fifo8_create junk cap)); [|done]. split; cbn; lia.
Qed.

Lemma fifo8_refines_witness :
  let ops := [OpPushAll [1; 2; 3]; OpPop; OpPush 4; OpPush 5; OpIsFull; OpPeekBuf 4; OpPopPtr 4; OpNumUsed; OpDrop 1; OpPush 6; OpPeek] in
  prod_map id fifo_queue <$> run_ops fifo_step ops (fifo8_create [0; 0; 0; 0] 4) = run_ops (queue_step 4) ops (mkQueue 0 []) /\
  run_ops (queue_step 4) ops (mkQueue 0 []) =
    Some ([[]; [1]; []; []; [1]; [2; 3; 4; 5]; [2; 3; 4]; [1]; []; []; [6]], mkQueue 1 [6]).
Proof.
  split; [|reflexivity]. refine (fifo8_refines _ _ _ _ _ _); [lia|reflexivity|]. repeat constructor; cbn; lia.
Defined.
