(* ===== verification/Spi.v ===== *)
(** * The SPI controller and its bus

    [src/hw/arm/ipod_touch_spi.c] with [src/include/hw/arm/ipod_touch_spi.h], and
    of [src/hw/ssi/ssi.c] the chip select and the transfer.  The controller is
    the same on all the machines; what is on its bus is a type [D] with the
    operations of class [SsiClass].  A failed assertion of the FIFO code ends the
    emulator and is [None]. *)

From Stdlib Require Import ZArith Lia.
From stdpp Require Import base numbers list.
From S2P Require Import Prelude CLib HwLib Fifo8.
Local Open Scope Z_scope.

(** ** The bus *)

Inductive SSICSMode := SSI_CS_NONE | SSI_CS_LOW | SSI_CS_HIGH.

(** What a peripheral's class provides. *)
Class SsiClass (D : Type) := {
  cs_polarity : SSICSMode;
  ssc_transfer : Z -> D -> Z * D;
  ssc_set_cs : bool -> D -> D;
}.

Record SSIPeripheral (D : Type) := mkSsi { ssi_cs : bool; ssi_dev : D }.
Arguments mkSsi {D}.
Arguments ssi_cs {D}.
Arguments ssi_dev {D}.

Section Bus.
Context {D : Type} `{SsiClass D}.

Definition ssi_cs_default (cs : bool) (p : SSIPeripheral D) : SSIPeripheral D :=
  mkSsi cs (if eqb (ssi_cs p) cs then ssi_dev p else ssc_set_cs cs (ssi_dev p)).

Definition ssi_transfer_raw_default (val : Z) (p : SSIPeripheral D) : Z * SSIPeripheral D :=
  if match cs_polarity with SSI_CS_HIGH => ssi_cs p | SSI_CS_LOW => negb (ssi_cs p) | SSI_CS_NONE => true end then
    let '(r, d) := ssc_transfer val (ssi_dev p) in (r, mkSsi (ssi_cs p) d)
  else (0, p).

(** Every peripheral of the bus sees the byte; the answers are combined. *)
Fixpoint ssi_transfer (val : Z) (bus : list (SSIPeripheral D)) : Z * list (SSIPeripheral D) :=
  match bus with
  | [] => (0, [])
  | p :: bus =>
      let '(r, p) := ssi_transfer_raw_default val p in
      let '(r', bus) := ssi_transfer val bus in
      (Z.lor r r', p :: bus)
  end.

End Bus.

(** ** Registers *)

Definition R_CTRL : Z := 0x000.
Definition R_CTRL_RUN : Z := 0x1.
Definition R_CTRL_TX_RESET : Z := 0x4.
Definition R_CTRL_RX_RESET : Z := 0x8.
Definition R_CFG : Z := 0x004.
Definition R_CFG_AGD : Z := 0x1.
Definition R_CFG_IE_RXREADY : Z := 0x80.
Definition R_CFG_IE_TXEMPTY : Z := 0x100.
Definition R_CFG_IE_COMPLETE : Z := 0x200000.
Definition R_STATUS : Z := 0x008.
Definition R_STATUS_RXREADY : Z := 0x1.
Definition R_STATUS_TXEMPTY : Z := 0x2.
Definition R_STATUS_RXOVERFLOW : Z := 0x8.
Definition R_STATUS_COMPLETE : Z := 0x400000.
Definition R_STATUS_TXFIFO_SHIFT : Z := 6.
Definition R_STATUS_RXFIFO_SHIFT : Z := 11.
Definition R_PIN : Z := 0x00c.
Definition R_PIN_CS : Z := 0x2.
Definition R_TXDATA : Z := 0x010.
Definition R_RXDATA : Z := 0x020.
Definition R_RXCNT : Z := 0x034.
Definition R_TXCNT : Z := 0x04c.
Definition R_FIFO_TX_DEPTH : Z := 50000.
Definition R_FIFO_RX_DEPTH : Z := 16.
Definition SPI_MMIO_SIZE : Z := 0x100.

Definition R_CFG_WORD_SIZE (x : Z) : Z := Z.land (Z.shiftr x 15) 0x3.

(** [sp_irq] is the level of the interrupt line, [sp_last_irq] the
    controller's idea of it; [sp_bus] is what is on the bus. *)
Record IPodTouchSPIState (D : Type) := mkSpi {
  sp_irq : Z;
  sp_last_irq : Z;
  sp_regs : list Z;
  sp_s5l8900 : bool;
  sp_rx : Fifo8;
  sp_tx : Fifo8;
  sp_bus : list (SSIPeripheral D);
}.
Arguments mkSpi {D}.
Arguments sp_irq {D}.
Arguments sp_last_irq {D}.
Arguments sp_regs {D}.
Arguments sp_s5l8900 {D}.
Arguments sp_rx {D}.
Arguments sp_tx {D}.
Arguments sp_bus {D}.

#[global] Instance upd_sp_irq {D} : Upd (@sp_irq D) := fun f r =>
  mkSpi (f (sp_irq r)) (sp_last_irq r) (sp_regs r) (sp_s5l8900 r) (sp_rx r) (sp_tx r) (sp_bus r).
#[global] Instance upd_sp_last_irq {D} : Upd (@sp_last_irq D) := fun f r =>
  mkSpi (sp_irq r) (f (sp_last_irq r)) (sp_regs r) (sp_s5l8900 r) (sp_rx r) (sp_tx r) (sp_bus r).
#[global] Instance upd_sp_regs {D} : Upd (@sp_regs D) := fun f r =>
  mkSpi (sp_irq r) (sp_last_irq r) (f (sp_regs r)) (sp_s5l8900 r) (sp_rx r) (sp_tx r) (sp_bus r).
#[global] Instance upd_sp_rx {D} : Upd (@sp_rx D) := fun f r =>
  mkSpi (sp_irq r) (sp_last_irq r) (sp_regs r) (sp_s5l8900 r) (f (sp_rx r)) (sp_tx r) (sp_bus r).
#[global] Instance upd_sp_tx {D} : Upd (@sp_tx D) := fun f r =>
  mkSpi (sp_irq r) (sp_last_irq r) (sp_regs r) (sp_s5l8900 r) (sp_rx r) (f (sp_tx r)) (sp_bus r).
#[global] Instance upd_sp_bus {D} : Upd (@sp_bus D) := fun f r =>
  mkSpi (sp_irq r) (sp_last_irq r) (sp_regs r) (sp_s5l8900 r) (sp_rx r) (sp_tx r) (f (sp_bus r)).

(** [REG(s, addr)] *)
Definition sp_reg {D} (s : IPodTouchSPIState D) (addr : Z) : Z := rd (sp_regs s) (Z.shiftr addr 2).
Definition sp_set {D} (addr val : Z) (s : IPodTouchSPIState D) : IPodTouchSPIState D :=
  s <| sp_regs ::= fun l => wr l (Z.shiftr addr 2) val |>.
Definition sp_or {D} (addr bits : Z) (s : IPodTouchSPIState D) : IPodTouchSPIState D :=
  sp_set addr (Z.lor (sp_reg s addr) bits) s.

Section Spi.
Context {D : Type} `{SsiClass D}.
Abbreviation State := (IPodTouchSPIState D).

Definition apple_spi_word_size (s : State) : Z :=
  let x := R_CFG_WORD_SIZE (sp_reg s R_CFG) in if x =? 0 then 1 else if x =? 1 then 2 else if x =? 2 then 4 else 1.

Definition apple_spi_update_xfer_tx (s : State) : State :=
  if fifo8_is_empty (sp_tx s) then sp_or R_STATUS R_STATUS_TXEMPTY s else s.

Definition apple_spi_update_xfer_rx (s : State) : State :=
  if fifo8_is_empty (sp_rx s) then s else sp_or R_STATUS R_STATUS_RXREADY s.

(** The status bits that are enabled as interrupts. *)
Definition spi_irq_mask (s : State) : Z :=
  let on ie bit := if flagged (sp_reg s R_CFG) ie then bit else 0 in
  Z.lor (Z.lor (on R_CFG_IE_RXREADY R_STATUS_RXREADY) (on R_CFG_IE_TXEMPTY R_STATUS_TXEMPTY))
        (on R_CFG_IE_COMPLETE R_STATUS_COMPLETE).

Definition apple_spi_update_irq (s : State) : State :=
  let irq := b2z (flagged (sp_reg s R_STATUS) (spi_irq_mask s)) in
  if irq =? sp_last_irq s then s else s <| sp_last_irq := irq |> <| sp_irq := irq |>.

(** The pin register is kept, and selects no peripheral. *)
Definition apple_spi_cs_set (level : bool) (s : State) : State :=
  sp_set R_PIN (if level then Z.lor (sp_reg s R_PIN) R_PIN_CS else Z.ldiff (sp_reg s R_PIN) R_PIN_CS) s.

(** ** The transfer *)

(** The bus sees a byte. *)
Definition spi_clock (val : Z) (s : State) : Z * State :=
  let '(r, bus) := ssi_transfer val (sp_bus s) in (r, s <| sp_bus := bus |>).

(** An answer goes to the receive FIFO and is counted. *)
Definition spi_receive (rx : Z) (s : State) : option State :=
  f ← fifo8_push (u8 rx) (sp_rx s);
  let s := s <| sp_rx := f |> in
  Some (apple_spi_update_xfer_rx (sp_set R_RXCNT (sp_reg s R_RXCNT - 1) s)).

(** A turn of the loop that sends. *)
Definition spi_send (s : State) : option State :=
  '(tx, f) ← fifo8_pop (sp_tx s);
  let '(rx, s) := spi_clock tx (s <| sp_tx := f |>) in
  let s := if sp_reg s R_TXCNT =? 0 then s else sp_set R_TXCNT (sp_reg s R_TXCNT - 1) s in
  let s := apple_spi_update_xfer_tx s in
  if 0 <? sp_reg s R_RXCNT then
    if fifo8_is_full (sp_rx s) then Some (sp_or R_STATUS R_STATUS_RXOVERFLOW s) else spi_receive rx s
  else Some s.

Fixpoint spi_send_loop (fuel : nat) (drain_tx : bool) (s : State) : option State :=
  match fuel with
  | O => Some s
  | S fuel =>
      if (negb (sp_reg s R_TXCNT =? 0) || drain_tx) && negb (fifo8_is_empty (sp_tx s)) then
        s ← spi_send s; spi_send_loop fuel drain_tx s
      else Some s
  end.

(** The loop that clocks sentinel bytes for what is still to be received. *)
Fixpoint spi_fetch_loop (fuel : nat) (s : State) : option State :=
  match fuel with
  | O => Some s
  | S fuel =>
      if negb (fifo8_is_full (sp_rx s)) && (0 <? sp_reg s R_RXCNT) && flagged (sp_reg s R_CFG) R_CFG_AGD then
        let '(rx, s) := spi_clock 0xff s in s ← spi_receive rx s; spi_fetch_loop fuel s
      else Some s
  end.

(** A byte leaves the transmit FIFO, or enters the receive FIFO, in every turn. *)
Definition apple_spi_run (s : State) : option State :=
  if negb (flagged (sp_reg s R_CTRL) R_CTRL_RUN) then Some s
  else
    let drain_tx := sp_s5l8900 s && negb (fifo8_is_empty (sp_tx s)) in
    if (sp_reg s R_RXCNT =? 0) && (sp_reg s R_TXCNT =? 0) && negb drain_tx then Some s
    else
      s ← spi_send_loop (Z.to_nat (ff_num (sp_tx s))) drain_tx (apple_spi_update_xfer_tx s);
      s ← spi_fetch_loop (Z.to_nat (fifo8_num_free (sp_rx s))) s;
      Some (if (sp_reg s R_RXCNT =? 0) && (sp_reg s R_TXCNT =? 0) then sp_or R_STATUS R_STATUS_COMPLETE s else s).

Definition spi_run_if (run : bool) (s : State) : option State := if run then apple_spi_run s else Some s.

(** ** The register window *)

(** A word from the receive FIFO: [memcpy] leaves the upper bytes of the
    register's value where the FIFO gives fewer. *)
Definition spi_read_rxdata (s : State) : option (Z * bool * State) :=
  let r := sp_reg s R_RXDATA in
  if fifo8_is_empty (sp_rx s) then Some (0, true, s)
  else
    '(b, f) ← fifo8_pop_bufptr (apple_spi_word_size s) (sp_rx s);
    Some (le_word (b ++ zdrop (zlen b) (le32 r)), fifo8_is_empty f, s <| sp_rx := f |>).

Definition spi_read_status (s : State) : Z :=
  let '(tx, rx) := if sp_s5l8900 s then (4, 8) else (R_STATUS_TXFIFO_SHIFT, R_STATUS_RXFIFO_SHIFT) in
  Z.lor (sp_reg s R_STATUS)
        (Z.lor (u32 (Z.shiftl (fifo8_num_used (sp_tx s)) tx)) (u32 (Z.shiftl (fifo8_num_used (sp_rx s)) rx))).

(** The value read, whether the controller runs, and the state. *)
Definition spi_read_switch (addr : Z) (s : State) : option (Z * bool * State) :=
  if addr =? R_RXDATA then spi_read_rxdata s
  else Some (if addr =? R_STATUS then spi_read_status s else sp_reg s addr, false, s).

Definition ipod_touch_spi_read (addr : Z) (s : State) : option (Z * State) :=
  '(r, run, s) ← spi_read_switch addr s;
  s ← spi_run_if run s;
  Some (r, apple_spi_update_irq s).

(** A word for the transmit FIFO; one that does not fit is dropped. *)
Definition spi_write_txdata (r : Z) (s : State) : option State :=
  let word_size := apple_spi_word_size s in
  if fifo8_is_full (sp_tx s) || (fifo8_num_free (sp_tx s) <? word_size) then Some s
  else f ← fifo8_push_all (ztake word_size (le32 r)) (sp_tx s); Some (s <| sp_tx := f |>).

(** The value the register takes, whether the controller runs, and the state. *)
Definition spi_write_switch (addr r : Z) (s : State) : option (Z * bool * State) :=
  if addr =? R_CTRL then
    let s := if flagged r R_CTRL_TX_RESET then s <| sp_tx ::= fifo8_reset |> else s in
    let s := if flagged r R_CTRL_RX_RESET then s <| sp_rx ::= fifo8_reset |> else s in
    Some (r, flagged r R_CTRL_RUN && (flagged (sp_reg s R_CFG) R_CFG_AGD || negb (fifo8_is_empty (sp_tx s))), s)
  else if addr =? R_STATUS then Some (Z.ldiff (sp_reg s addr) r, true, s)
  else if (R_TXDATA <=? addr) && (addr <=? R_TXDATA + 3) then s ← spi_write_txdata r s; Some (r, false, s)
  else if addr =? R_CFG then Some (r, true, s)
  else Some (r, false, s).

Definition ipod_touch_spi_write (addr data : Z) (s : State) : option State :=
  '(r, run, s) ← spi_write_switch addr (u32 data) s;
  let s := sp_set addr r s in
  s ← spi_run_if run s;
  let s := if (addr =? R_STATUS) && negb (sp_s5l8900 s) then apple_spi_update_xfer_rx (apple_spi_update_xfer_tx s) else s in
  Some (apple_spi_update_irq s).

(** ** Reset, creation and snapshots *)

Definition ipod_touch_spi_reset (s : State) : State :=
  s <| sp_regs := replicate (Z.to_nat (SPI_MMIO_SIZE / 4)) 0 |> <| sp_tx ::= fifo8_reset |> <| sp_rx ::= fifo8_reset |>
    <| sp_last_irq := 0 |> <| sp_irq := 0 |>.

(** The FIFOs of [ipod_touch_spi_realize], over what their allocations hold, and
    a zeroed register file; [bus] is the peripheral it creates, if any. *)
Definition ipod_touch_spi_realize (s5l8900 : bool) (tx_junk rx_junk : bytes) (tx_fifo_depth : Z)
    (bus : list (SSIPeripheral D)) : State :=
  mkSpi 0 0 (replicate (Z.to_nat (SPI_MMIO_SIZE / 4)) 0) s5l8900
    (fifo8_create rx_junk R_FIFO_RX_DEPTH) (fifo8_create tx_junk tx_fifo_depth) bus.

(** The loaded fields over a realized controller; [None] when the load is
    refused. *)
Definition fifo_loaded_ok (f : Fifo8) : bool := (ff_head f <? ff_capacity f) && (ff_num f <=? ff_capacity f).

Definition ipod_touch_spi_post_load (s : State) : option State :=
  if fifo_loaded_ok (sp_rx s) && fifo_loaded_ok (sp_tx s) then Some (s <| sp_irq := sp_last_irq s |>) else None.

Definition spi_load (stream s : State) : option State :=
  ipod_touch_spi_post_load
    (s <| sp_last_irq := sp_last_irq stream |> <| sp_regs := sp_regs stream |>
       <| sp_rx ::= fifo8_load (sp_rx stream) |> <| sp_tx ::= fifo8_load (sp_tx stream) |>).

End Spi.
