(* ===== verification/SpiFacts.v ===== *)
(** * The SPI controller: invariant, failures and transfers

    For any peripheral on the bus: the well-formedness of a controller is kept
    and its interrupt line follows the status register ([spi_line_tracks]); the
    accesses that fail an assertion are known exactly ([spi_abort_iff]); a
    transmission hands the queued bytes to the bus in order, and a reception of
    any length goes through the sixteen bytes of the receive FIFO unharmed
    ([spi_receive_all]). *)

From Stdlib Require Import ZArith Lia.
From stdpp Require Import base numbers list.
From S2P Require Import Prelude CLib HwLib Fifo8 Spi.
Local Open Scope Z_scope.

Section Facts.
Context {D : Type} `{SsiClass D}.
Abbreviation State := (IPodTouchSPIState D).
Implicit Types s : State.

(** ** Well-formed controllers *)

Record spi_wf s : Prop := {
  sw_regs : zlen (sp_regs s) = 64;
  sw_rx : fifo_wf (sp_rx s);
  sw_rx_capacity : ff_capacity (sp_rx s) = R_FIFO_RX_DEPTH;
  sw_tx : fifo_wf (sp_tx s);
  sw_line : sp_irq s = sp_last_irq s;
}.

Lemma sp_reg_set a b v s : zlen (sp_regs s) = 64 -> 0 <= a < SPI_MMIO_SIZE -> 0 <= b ->
  sp_reg (sp_set a v s) b = if Z.shiftr b 2 =? Z.shiftr a 2 then v else sp_reg s b.
Proof.
  intros Hl Ha Hb. unfold sp_reg, sp_set. change (sp_regs (s <| sp_regs ::= ?f |>)) with (f (sp_regs s)). cbv beta.
  unfold SPI_MMIO_SIZE in Ha. rewrite !Z.shiftr_div_pow2 by lia. change (2 ^ 2) with 4.
  apply rd_wr_at; rewrite ?Hl; Z.div_mod_to_equations; lia.
Qed.

Lemma spi_wf_set a v s : spi_wf s -> spi_wf (sp_set a v s).
Proof. intros [Hr Hx Hc Ht Hl]. split; try done. cbn. by rewrite zlen_wr. Qed.

Lemma wf_or a v s : spi_wf s -> spi_wf (sp_or a v s).
Proof. apply spi_wf_set. Qed.

Lemma wf_xfer_tx s : spi_wf s -> spi_wf (apple_spi_update_xfer_tx s).
Proof. unfold apple_spi_update_xfer_tx. destruct (fifo8_is_empty _); auto using wf_or. Qed.

Lemma wf_xfer_rx s : spi_wf s -> spi_wf (apple_spi_update_xfer_rx s).
Proof. unfold apple_spi_update_xfer_rx. destruct (fifo8_is_empty _); auto using wf_or. Qed.

Lemma wf_tx f s : spi_wf s -> fifo_wf f -> spi_wf (s <| sp_tx := f |>).
Proof. by intros [] ?; split. Qed.

Lemma wf_rx f s : spi_wf s -> fifo_wf f -> ff_capacity f = R_FIFO_RX_DEPTH -> spi_wf (s <| sp_rx := f |>).
Proof. by intros [] ? ?; split. Qed.

Lemma wf_clock v s : spi_wf s -> spi_wf (spi_clock v s).2.
Proof. intros []. unfold spi_clock. destruct (ssi_transfer _ _). by split. Qed.

Lemma wf_fifo_reset f : fifo_wf f -> fifo_wf (fifo8_reset f).
Proof. intros [Hd Hc Hh Hn]. split; cbn; lia. Qed.

Create HintDb spi.
#[local] Hint Resolve spi_wf_set wf_or wf_xfer_tx wf_xfer_rx wf_tx wf_rx wf_clock wf_fifo_reset : spi.

Lemma spi_receive_ok r s : spi_wf s -> fifo8_is_full (sp_rx s) = false -> exists s', spi_receive r s = Some s' /\ spi_wf s'.
Proof.
  intros W E. unfold fifo8_is_full in E. bool_hyps. pose proof (fw_num _ (sw_rx s W)).
  destruct (fifo8_push_ok (u8 r) (sp_rx s) (sw_rx s W)) as (f & P & Wf & _ & C); [lia|].
  unfold spi_receive. rewrite P. cbn [mbind option_bind]. eexists. split; [done|].
  apply wf_xfer_rx, spi_wf_set, wf_rx; [done|done|]. by rewrite C, sw_rx_capacity.
Qed.

Lemma spi_send_ok s : spi_wf s -> fifo8_is_empty (sp_tx s) = false -> exists s', spi_send s = Some s' /\ spi_wf s'.
Proof.
  intros W E. destruct (fifo_list (sp_tx s)) as [|b q] eqn:L.
  { apply fifo_nil_num in L; [|apply W]. unfold fifo8_is_empty in E. by rewrite L in E. }
  destruct (fifo8_pop_ok _ b q (sw_tx s W) L) as (f & P & Wf & _). unfold spi_send. rewrite P. cbn [mbind option_bind].
  pose proof (wf_clock b _ (wf_tx f s W Wf)) as W1. destruct (spi_clock b _) as [r s1]. cbn [snd] in W1. cbv zeta.
  set (s2 := apple_spi_update_xfer_tx _).
  assert (W2 : spi_wf s2) by (unfold s2; apply wf_xfer_tx; destruct (_ =? 0); auto with spi).
  destruct (0 <? _); [|eauto]. destruct (fifo8_is_full (sp_rx s2)) eqn:F; [eauto with spi|]. by apply spi_receive_ok.
Qed.

Lemma spi_send_loop_ok fuel d s : spi_wf s -> exists s', spi_send_loop fuel d s = Some s' /\ spi_wf s'.
Proof.
  revert s. induction fuel as [|fuel IH]; intros s W; cbn [spi_send_loop]; [eauto|].
  destruct (_ && _) eqn:E; [|eauto]. bool_hyps. destruct (spi_send_ok s W) as (s' & -> & W'); [done|]. by apply IH.
Qed.

Lemma spi_fetch_loop_ok fuel s : spi_wf s -> exists s', spi_fetch_loop fuel s = Some s' /\ spi_wf s'.
Proof.
  revert s. induction fuel as [|fuel IH]; intros s W; cbn [spi_fetch_loop]; [eauto|].
  destruct (_ && _) eqn:E; [|eauto]. bool_hyps. pose proof (wf_clock 0xff s W) as W1.
  assert (F : sp_rx (spi_clock 0xff s).2 = sp_rx s) by (unfold spi_clock; by destruct (ssi_transfer _ _)).
  destruct (spi_clock 0xff s) as [r s1]. cbn [snd] in *.
  destruct (spi_receive_ok r s1 W1) as (s2 & -> & W2); [by rewrite F|]. by apply IH.
Qed.

(** A run never fails. *)
Lemma apple_spi_run_ok s : spi_wf s -> exists s', apple_spi_run s = Some s' /\ spi_wf s'.
Proof.
  intros W. unfold apple_spi_run. destruct (negb _); [eauto|]. cbv zeta. destruct (_ && negb _); [eauto|].
  destruct (spi_send_loop_ok (Z.to_nat (ff_num (sp_tx s))) (sp_s5l8900 s && negb (fifo8_is_empty (sp_tx s))) _ (wf_xfer_tx s W))
    as (s1 & -> & W1). cbn [mbind option_bind].
  destruct (spi_fetch_loop_ok (Z.to_nat (fifo8_num_free (sp_rx s1))) s1 W1) as (s2 & -> & W2). cbn [mbind option_bind].
  eexists. split; [done|]. destruct (_ && _); auto with spi.
Qed.

Lemma spi_run_if_ok run s : spi_wf s -> exists s', spi_run_if run s = Some s' /\ spi_wf s'.
Proof. destruct run; cbn [spi_run_if]; [apply apple_spi_run_ok|eauto]. Qed.

(** ** The interrupt line *)

(** The line is raised exactly while an enabled status bit is set. *)
Definition spi_settled s : Prop := sp_irq s = b2z (flagged (sp_reg s R_STATUS) (spi_irq_mask s)).

Lemma update_irq_settled s : spi_wf s -> spi_wf (apple_spi_update_irq s) /\ spi_settled (apple_spi_update_irq s).
Proof.
  intros W. unfold apple_spi_update_irq. set (irq := b2z _). destruct (Z.eqb_spec irq (sp_last_irq s)) as [E|E].
  - split; [done|]. unfold spi_settled. by rewrite (sw_line s W), <- E.
  - split; [|done]. destruct W. by split.
Qed.

Lemma word_size_cases s : apple_spi_word_size s = 1 \/ apple_spi_word_size s = 2 \/ apple_spi_word_size s = 4.
Proof. unfold apple_spi_word_size. cbv zeta. split_ifs; lia. Qed.

Lemma spi_write_switch_ok addr r s : spi_wf s -> exists v run s', spi_write_switch addr r s = Some (v, run, s') /\ spi_wf s'.
Proof.
  intros W. unfold spi_write_switch. destruct (addr =? R_CTRL).
  { do 3 eexists. split; [done|]. assert (W1 : spi_wf (if flagged r R_CTRL_TX_RESET then s <| sp_tx ::= fifo8_reset |> else s))
      by (destruct (flagged r _); [apply (wf_tx _ s W); apply wf_fifo_reset, W|done]).
    destruct (flagged r R_CTRL_RX_RESET); [|done].
    apply (wf_rx (fifo8_reset _) _ W1); [apply wf_fifo_reset, W1|]. cbn. apply W1. }
  destruct (addr =? R_STATUS); [eauto|]. destruct (_ && _); [|destruct (addr =? R_CFG); eauto].
  unfold spi_write_txdata. destruct (_ || _) eqn:E; [cbn [mbind option_bind]; eauto|]. bool_hyps.
  pose proof (sw_tx s W) as Wt. fifo_ranges (sp_tx s) Wt. pose proof (word_size_cases s). unfold fifo8_num_free in *.
  rewrite u32_id in * by (unfold is_u32; lia).
  destruct (fifo8_push_all_ok (ztake (apple_spi_word_size s) (le32 r)) (sp_tx s) Wt) as (f & -> & Wf & _).
  { rewrite zlen_ztake. unfold le32. autorewrite with zlen. lia. }
  cbn [mbind option_bind]. eauto 6 with spi.
Qed.

Lemma spi_write_ok addr v s : spi_wf s -> exists s', ipod_touch_spi_write addr v s = Some s' /\ spi_wf s' /\ spi_settled s'.
Proof.
  intros W. unfold ipod_touch_spi_write. destruct (spi_write_switch_ok addr (u32 v) s W) as (r & run & s1 & -> & W1).
  cbn [mbind option_bind]. destruct (spi_run_if_ok run (sp_set addr r s1)) as (s2 & -> & W2); [auto with spi|].
  cbn [mbind option_bind]. eexists. split; [done|]. apply update_irq_settled. destruct (_ && _); auto with spi.
Qed.

Definition spi_short s : Prop := 0 < ff_num (sp_rx s) < apple_spi_word_size s.

Lemma spi_rxdata_ok s : spi_wf s -> ~ spi_short s -> exists v run s', spi_read_rxdata s = Some (v, run, s') /\ spi_wf s'.
Proof.
  intros W Hs. unfold spi_read_rxdata, fifo8_is_empty, spi_short in *. destruct (Z.eqb_spec (ff_num (sp_rx s)) 0); [eauto|].
  pose proof (fw_num _ (sw_rx s W)). pose proof (word_size_cases s).
  destruct (fifo8_pop_bufptr_ok (sp_rx s) (apple_spi_word_size s) (sw_rx s W)) as (f & _ & -> & Wf & _ & C); [lia|].
  cbn [mbind option_bind]. do 3 eexists. split; [done|]. apply wf_rx; [done|done|]. by rewrite C, sw_rx_capacity.
Qed.

Lemma spi_read_ok addr s : spi_wf s -> ~ (addr = R_RXDATA /\ spi_short s) ->
  exists v s', ipod_touch_spi_read addr s = Some (v, s') /\ spi_wf s' /\ spi_settled s'.
Proof.
  intros W Hs. assert (E : exists v run s1, spi_read_switch addr s = Some (v, run, s1) /\ spi_wf s1).
  { unfold spi_read_switch. destruct (Z.eqb_spec addr R_RXDATA); [apply spi_rxdata_ok; [done|tauto]|eauto]. }
  destruct E as (v & run & s1 & E1 & W1). unfold ipod_touch_spi_read. rewrite E1. cbn [mbind option_bind].
  destruct (spi_run_if_ok run s1 W1) as (s2 & -> & W2). cbn [mbind option_bind]. do 2 eexists. split; [done|].
  by apply update_irq_settled.
Qed.

Lemma spi_read_short s : spi_wf s -> spi_short s -> ipod_touch_spi_read R_RXDATA s = None.
Proof.
  intros W [H0 H1]. unfold ipod_touch_spi_read, spi_read_switch. rewrite Z.eqb_refl. unfold spi_read_rxdata, fifo8_is_empty.
  rewrite (proj2 (Z.eqb_neq _ _)) by lia. unfold fifo8_pop_bufptr. by rewrite fifo8_bufptr_refused by lia.
Qed.

(** ** Sequences of accesses *)

(** What happens to a controller: accesses of the guest, its pin, a reset of
    the machine, and whatever changes the peripherals from outside. *)
Inductive SpiOp :=
| SpiRead (addr : Z)
| SpiWrite (addr data : Z)
| SpiPin (level : bool)
| SpiReset
| SpiBus (f : list (SSIPeripheral D) -> list (SSIPeripheral D)).

Definition spi_step (op : SpiOp) (s : State) : option State :=
  match op with
  | SpiRead addr => snd <$> ipod_touch_spi_read addr s
  | SpiWrite addr data => ipod_touch_spi_write addr data s
  | SpiPin level => Some (apple_spi_cs_set level s)
  | SpiReset => Some (ipod_touch_spi_reset s)
  | SpiBus f => Some (s <| sp_bus ::= f |>)
  end.

Fixpoint spi_steps (ops : list SpiOp) (s : State) : option State :=
  match ops with [] => Some s | op :: ops => s ← spi_step op s; spi_steps ops s end.

Lemma spi_pin_ok l s : spi_wf s -> spi_settled s -> spi_wf (apple_spi_cs_set l s) /\ spi_settled (apple_spi_cs_set l s).
Proof.
  intros W S. split; [by apply spi_wf_set|]. unfold spi_settled, spi_irq_mask, apple_spi_cs_set.
  rewrite !sp_reg_set by (apply W || done). exact S.
Qed.

Lemma spi_reset_ok s : spi_wf s -> spi_wf (ipod_touch_spi_reset s) /\ spi_settled (ipod_touch_spi_reset s).
Proof. intros [? Hx Hc Ht ?]. split; [|done]. by split; try done; apply wf_fifo_reset. Qed.

(** A step fails on a short read alone, and otherwise keeps the invariant. *)
Lemma spi_step_cases op s : spi_wf s -> spi_settled s ->
  match spi_step op s with
  | Some s' => spi_wf s' /\ spi_settled s'
  | None => op = SpiRead R_RXDATA /\ spi_short s
  end.
Proof.
  intros W S. destruct op as [addr|addr v|l| |f]; cbn [spi_step].
  - destruct (decide (addr = R_RXDATA)) as [->|Ha].
    + destruct (decide (0 < ff_num (sp_rx s) < apple_spi_word_size s)) as [Hs|Hs]; [by rewrite spi_read_short|].
      destruct (spi_read_ok R_RXDATA s W) as (v & s' & -> & W' & S'); [by intros [_ ?]|]. done.
    + destruct (spi_read_ok addr s W) as (v & s' & -> & W' & S'); [by intros [? _]|]. done.
  - by destruct (spi_write_ok addr v s W) as (s' & -> & W' & S').
  - by apply spi_pin_ok.
  - by apply spi_reset_ok.
  - split; [|done]. destruct W. by split.
Qed.

(** C39. When the emulator ends: an access of the guest, or any other event, fails an
    assertion exactly when it reads the receive register while the FIFO holds
    bytes, but fewer than the programmed word size. *)
Theorem spi_abort_iff op s : spi_wf s -> spi_settled s ->
  spi_step op s = None <-> op = SpiRead R_RXDATA /\ spi_short s.
Proof.
  intros W S. split; [|intros [-> Hs]; cbn [spi_step]; by rewrite spi_read_short].
  pose proof (spi_step_cases op s W S) as C. by destruct (spi_step op s).
Qed.

Lemma spi_steps_ok ops s s' : spi_wf s -> spi_settled s -> spi_steps ops s = Some s' -> spi_wf s' /\ spi_settled s'.
Proof.
  revert s. induction ops as [|op ops IH]; intros s W S; cbn [spi_steps]; [by intros [= <-]|].
  pose proof (spi_step_cases op s W S) as C. destruct (spi_step op s) as [s1|]; [|done]. destruct C. cbn [mbind option_bind]. by apply IH.
Qed.

Lemma spi_realized k tj rj depth bus : 0 < depth < 2147483648 -> zlen tj = depth -> zlen rj = R_FIFO_RX_DEPTH ->
  spi_wf (ipod_touch_spi_realize k tj rj depth bus) /\ spi_settled (ipod_touch_spi_realize k tj rj depth bus).
Proof. intros Hd Ht Hr. split; [|done]. split; try done; split; cbn; unfold R_FIFO_RX_DEPTH in *; lia. Qed.

(** The interrupt line of a controller follows its registers: after any accesses
    and events since its creation the line is raised exactly when a status bit
    whose interrupt is enabled is set, and the FIFOs are within their bounds. *)
Theorem spi_line_tracks k tj rj depth bus ops s : 0 < depth < 2147483648 -> zlen tj = depth -> zlen rj = R_FIFO_RX_DEPTH ->
  spi_steps ops (ipod_touch_spi_realize k tj rj depth bus) = Some s ->
  sp_irq s = b2z (flagged (sp_reg s R_STATUS) (spi_irq_mask s)) /\
  0 <= ff_num (sp_rx s) <= R_FIFO_RX_DEPTH /\ 0 <= ff_num (sp_tx s) <= ff_capacity (sp_tx s).
Proof.
  intros Hd Ht Hr E. destruct (spi_realized k tj rj depth bus Hd Ht Hr) as [W S].
  destruct (spi_steps_ok ops _ s W S E) as [W' S']. split; [exact S'|].
  rewrite <- (sw_rx_capacity s W'). split; [apply (sw_rx s W')|apply (sw_tx s W')].
Qed.

(** ** Transfers *)

(** The answers of the bus to a sequence of bytes. *)
Fixpoint bus_xfer (bs : bytes) (bus : list (SSIPeripheral D)) : bytes * list (SSIPeripheral D) :=
  match bs with
  | [] => ([], bus)
  | b :: bs =>
      let '(r, bus) := ssi_transfer b bus in
      let '(rs, bus) := bus_xfer bs bus in (u8 r :: rs, bus)
  end.

(** What a transfer depends on: the queues, the bus, the two counts and the
    configuration. *)
Record spi_at s (txq rxq : bytes) (bus : list (SSIPeripheral D)) (txcnt rxcnt cfg ctrl : Z) : Prop := {
  at_wf : spi_wf s;
  at_tx : fifo_list (sp_tx s) = txq;
  at_rx : fifo_list (sp_rx s) = rxq;
  at_bus : sp_bus s = bus;
  at_txcnt : sp_reg s R_TXCNT = txcnt;
  at_rxcnt : sp_reg s R_RXCNT = rxcnt;
  at_cfg : sp_reg s R_CFG = cfg;
  at_ctrl : sp_reg s R_CTRL = ctrl;
}.

Lemma at_empty_tx s q rxq bus t r c k : spi_at s q rxq bus t r c k -> fifo8_is_empty (sp_tx s) = bool_decide (q = []).
Proof.
  intros A. unfold fifo8_is_empty. pose proof (fifo_nil_num _ (sw_tx s (at_wf _ _ _ _ _ _ _ _ A))) as N.
  rewrite (at_tx _ _ _ _ _ _ _ _ A) in N. apply eq_bool_prop_intro. rewrite bool_decide_spec, N. split; intros E.
  - apply Z.eqb_eq. by destruct (_ =? 0).
  - by rewrite E.
Qed.

Lemma at_num_rx s q rxq bus t r c k : spi_at s q rxq bus t r c k ->
  ff_num (sp_rx s) = zlen rxq /\ zlen rxq <= 16 /\ fifo8_is_empty (sp_rx s) = (zlen rxq =? 0) /\
  fifo8_is_full (sp_rx s) = (zlen rxq =? 16) /\ fifo8_num_free (sp_rx s) = 16 - zlen rxq.
Proof.
  intros A. pose proof (at_wf _ _ _ _ _ _ _ _ A) as W. pose proof (sw_rx s W) as Wf. fifo_ranges (sp_rx s) Wf.
  pose proof (zlen_fifo_list (sp_rx s) ltac:(lia)) as L. rewrite (at_rx _ _ _ _ _ _ _ _ A) in L.
  pose proof (sw_rx_capacity s W) as C. unfold R_FIFO_RX_DEPTH in C. unfold fifo8_is_empty, fifo8_is_full, fifo8_num_free.
  rewrite L, C in *. repeat split; try done; try lia. apply u32_id. unfold is_u32. lia.
Qed.

Lemma at_status v s q rxq bus t r c k : spi_at s q rxq bus t r c k -> spi_at (sp_set R_STATUS v s) q rxq bus t r c k.
Proof.
  intros [W ? ? ? ? ? ? ?]. pose proof (sw_regs s W).
  split; [by apply spi_wf_set|done|done|done|..]; by rewrite sp_reg_set by done.
Qed.

Lemma at_xfer_tx s q rxq bus t r c k : spi_at s q rxq bus t r c k -> spi_at (apple_spi_update_xfer_tx s) q rxq bus t r c k.
Proof. unfold apple_spi_update_xfer_tx. destruct (fifo8_is_empty _); [apply at_status|done]. Qed.

Lemma at_xfer_rx s q rxq bus t r c k : spi_at s q rxq bus t r c k -> spi_at (apple_spi_update_xfer_rx s) q rxq bus t r c k.
Proof. unfold apple_spi_update_xfer_rx. destruct (fifo8_is_empty _); [done|apply at_status]. Qed.

Lemma at_receive v s q rxq bus t r c k : spi_at s q rxq bus t r c k -> zlen rxq < 16 ->
  exists s', spi_receive v s = Some s' /\ spi_at s' q (rxq ++ [u8 v]) bus t (r - 1) c k.
Proof.
  intros A Hl. pose proof (at_wf _ _ _ _ _ _ _ _ A) as W. destruct (at_num_rx _ _ _ _ _ _ _ _ A) as (En & _).
  pose proof (sw_rx_capacity s W) as C. unfold R_FIFO_RX_DEPTH in C.
  destruct (fifo8_push_ok (u8 v) (sp_rx s) (sw_rx s W)) as (f & P & Wf & L & Cf); [lia|].
  unfold spi_receive. rewrite P. cbn [mbind option_bind]. eexists. split; [done|]. apply at_xfer_rx.
  destruct A as [_ ? Ar ? ? ? ? ?]. pose proof (sw_regs s W).
  split; [apply spi_wf_set, wf_rx; [done|done|by rewrite Cf]|done|by rewrite <- Ar|done|..];
    rewrite sp_reg_set by done; try done. by apply f_equal2.
Qed.

(** A byte is sent while nothing is to be received. *)
Lemma at_send s b q rxq bus t c k : spi_at s (b :: q) rxq bus t 0 c k -> 0 <= t ->
  exists s', spi_send s = Some s' /\ spi_at s' q rxq (ssi_transfer b bus).2 (Z.max 0 (t - 1)) 0 c k /\ sp_s5l8900 s' = sp_s5l8900 s.
Proof.
  intros [W At Ar Ab Ac Ad Ae Af] Ht. destruct (fifo8_pop_ok _ b q (sw_tx s W) At) as (f & P & Wf & L & _).
  unfold spi_send. rewrite P. cbn [mbind option_bind]. unfold spi_clock. cbn [sp_bus upd upd_sp_tx]. rewrite Ab.
  destruct (ssi_transfer b bus) as [r bus']. cbv zeta. cbn [snd].
  set (s1 := s <| sp_tx := f |> <| sp_bus := bus' |>).
  assert (A1 : spi_at s1 q rxq bus' t 0 c k).
  { split; try done. by destruct W; split. }
  set (s2 := if sp_reg s1 R_TXCNT =? 0 then s1 else _).
  assert (A2 : spi_at s2 q rxq bus' (Z.max 0 (t - 1)) 0 c k /\ sp_s5l8900 s2 = sp_s5l8900 s).
  { unfold s2. rewrite (at_txcnt _ _ _ _ _ _ _ _ A1). destruct (Z.eqb_spec t 0) as [->|]; [by split|].
    destruct A1 as [W1 ? ? ? ? ? ? ?]. pose proof (sw_regs s1 W1). split; [|done].
    split; [by apply spi_wf_set|done|done|done|..]; rewrite sp_reg_set by done; try done. rewrite Z.eqb_refl. lia. }
  destruct A2 as [A2 E2]. pose proof (at_xfer_tx _ _ _ _ _ _ _ _ A2) as A3. rewrite (at_rxcnt _ _ _ _ _ _ _ _ A3).
  eexists. split; [done|]. split; [done|]. rewrite <- E2. unfold apple_spi_update_xfer_tx. by destruct (fifo8_is_empty _).
Qed.

(** The queued bytes reach the bus in order. *)
Lemma at_send_loop q s d rxq bus t c k : spi_at s q rxq bus t 0 c k -> 0 <= t -> d = true \/ t = zlen q ->
  exists s', spi_send_loop (length q) d s = Some s' /\
    spi_at s' [] rxq (bus_xfer q bus).2 (Z.max 0 (t - zlen q)) 0 c k /\ sp_s5l8900 s' = sp_s5l8900 s.
Proof.
  revert s bus t. induction q as [|b q IH]; intros s bus t A Ht Hd; cbn [spi_send_loop length bus_xfer].
  { exists s. split; [done|]. split; [|done]. replace (Z.max 0 (t - zlen [])) with t by (unfold zlen; cbn [length]; lia). done. }
  rewrite zlen_cons in *. pose proof (zlen_nonneg q).
  rewrite (at_empty_tx _ _ _ _ _ _ _ _ A), (at_txcnt _ _ _ _ _ _ _ _ A), bool_decide_false by done.
  replace (negb (t =? 0) || d) with true by (destruct Hd as [->| ->]; [by rewrite orb_true_r|by rewrite (proj2 (Z.eqb_neq _ _)) by lia]).
  cbn [andb negb]. destruct (at_send s b q rxq bus t c k A Ht) as (s1 & -> & A1 & E1). cbn [mbind option_bind].
  destruct (IH s1 _ _ A1) as (s2 & -> & A2 & E2); [lia|destruct Hd; [by left|right; lia]|].
  exists s2. split; [done|]. split; [|by rewrite E2]. destruct (ssi_transfer b bus) as [r bus']. cbn [snd] in *.
  destruct (bus_xfer q bus') as [rs bus'']. cbn [snd] in *. by replace (Z.max 0 (t - (zlen q + 1))) with (Z.max 0 (Z.max 0 (t - 1) - zlen q)) by lia.
Qed.

(** Sentinel bytes are clocked until the FIFO is full or the count is reached. *)
Lemma at_fetch_loop n s q rxq bus t r c k : spi_at s q rxq bus t r c k -> flagged c R_CFG_AGD = true ->
  zlen rxq + Z.of_nat n <= 16 -> Z.of_nat n <= r -> zlen rxq + Z.of_nat n = 16 \/ Z.of_nat n = r -> forall fuel, (n <= fuel)%nat ->
  exists s', spi_fetch_loop fuel s = Some s' /\ sp_s5l8900 s' = sp_s5l8900 s /\
    let '(rs, bus') := bus_xfer (replicate n 0xff) bus in spi_at s' q (rxq ++ rs) bus' t (r - Z.of_nat n) c k.
Proof.
  revert s rxq bus r. induction n as [|n IH]; intros s rxq bus r A Ha Hl Hr Hd fuel Hf;
    destruct (at_num_rx _ _ _ _ _ _ _ _ A) as (_ & _ & _ & Ef & _).
  - exists s. cbn [replicate bus_xfer]. rewrite app_nil_r, Z.sub_0_r. split; [|done]. destruct fuel; [done|]. cbn [spi_fetch_loop].
    rewrite Ef, (at_rxcnt _ _ _ _ _ _ _ _ A).
    destruct (Z.eqb_spec (zlen rxq) 16); [done|]. by replace r with 0 by lia.
  - destruct fuel as [|fuel]; [lia|]. cbn [spi_fetch_loop replicate bus_xfer].
    rewrite Ef, (at_rxcnt _ _ _ _ _ _ _ _ A), (at_cfg _ _ _ _ _ _ _ _ A), Ha, (proj2 (Z.eqb_neq _ _)), (proj2 (Z.ltb_lt _ _)) by lia.
    cbn [andb negb]. unfold spi_clock. rewrite (at_bus _ _ _ _ _ _ _ _ A). destruct (ssi_transfer 0xff bus) as [v bus1].
    assert (A1 : spi_at (s <| sp_bus := bus1 |>) q rxq bus1 t r c k) by (destruct A as [W ? ? ? ? ? ? ?]; split; try done; by destruct W; split).
    destruct (at_receive v _ q rxq bus1 t r c k A1 ltac:(lia)) as (s1 & E1 & A2). rewrite E1. cbn [mbind option_bind].
    assert (K1 : sp_s5l8900 s1 = sp_s5l8900 s).
    { revert E1. unfold spi_receive. destruct (fifo8_push _ _); [|done]. cbn [mbind option_bind]. intros [= <-].
      unfold apple_spi_update_xfer_rx. by destruct (fifo8_is_empty _). }
    destruct (IH s1 _ _ _ A2 Ha) with (fuel := fuel) as (s2 & -> & K2 & R); [autorewrite with zlen; lia|lia|
      autorewrite with zlen; lia|lia|].
    exists s2. split; [done|]. split; [by rewrite K2|]. destruct (bus_xfer (replicate n 0xff) bus1) as [rs bus2].
    rewrite <- app_assoc in R. by replace (r - Z.of_nat (S n)) with (r - 1 - Z.of_nat n) by lia.
Qed.

Lemma bus_xfer_app l k bus :
  bus_xfer (l ++ k) bus = (let '(r1, b1) := bus_xfer l bus in let '(r2, b2) := bus_xfer k b1 in (r1 ++ r2, b2)).
Proof.
  revert bus. induction l as [|b l IH]; intros bus; cbn [bus_xfer app]; [by destruct (bus_xfer k bus)|].
  destruct (ssi_transfer b bus) as [r b0]. rewrite IH. destruct (bus_xfer l b0) as [r1 b1]. by destruct (bus_xfer k b1).
Qed.

Lemma bus_xfer_bytes l bus : is_bytes (bus_xfer l bus).1 /\ zlen (bus_xfer l bus).1 = zlen l.
Proof.
  revert bus. induction l as [|b l IH]; intros bus; cbn [bus_xfer]; [by split; [constructor|]|].
  destruct (ssi_transfer b bus) as [r b0]. specialize (IH b0). destruct (bus_xfer l b0) as [rs b1]. cbn [fst] in *.
  destruct IH as [IH El]. split; [constructor; [apply u8_is_byte|done]|by rewrite !zlen_cons, El].
Qed.

(** A run without work, one that sends, and one that receives. *)
Lemma at_run_idle s rxq bus c k : spi_at s [] rxq bus 0 0 c k -> apple_spi_run s = Some s.
Proof.
  intros A. unfold apple_spi_run. destruct (negb _); [done|]. cbv zeta.
  rewrite (at_rxcnt _ _ _ _ _ _ _ _ A), (at_txcnt _ _ _ _ _ _ _ _ A), (at_empty_tx _ _ _ _ _ _ _ _ A).
  by rewrite bool_decide_true, andb_false_r.
Qed.

Lemma at_complete s q rxq bus t r c k : spi_at s q rxq bus t r c k ->
  spi_at (sp_or R_STATUS R_STATUS_COMPLETE s) q rxq bus t r c k /\
  flagged (sp_reg (sp_or R_STATUS R_STATUS_COMPLETE s) R_STATUS) R_STATUS_COMPLETE = true.
Proof.
  intros A. split; [by apply at_status|]. unfold sp_or. rewrite sp_reg_set by (apply A || done). rewrite Z.eqb_refl.
  change R_STATUS_COMPLETE with (2 ^ 22). rewrite flagged_bit, Z.lor_spec by lia. by rewrite Z.pow2_bits_true, orb_true_r by lia.
Qed.

Lemma at_num_tx s q rxq bus t r c k : spi_at s q rxq bus t r c k -> Z.to_nat (ff_num (sp_tx s)) = length q.
Proof.
  intros A. pose proof (fw_num _ (sw_tx s (at_wf _ _ _ _ _ _ _ _ A))). pose proof (zlen_fifo_list (sp_tx s) ltac:(lia)) as L.
  rewrite (at_tx _ _ _ _ _ _ _ _ A) in L. unfold zlen in L. lia.
Qed.

Lemma at_run_send s q rxq bus c k : spi_at s q rxq bus (zlen q) 0 c k -> q <> [] ->
  flagged k R_CTRL_RUN = true -> flagged c R_CFG_AGD = true ->
  exists s', apple_spi_run s = Some s' /\ spi_at s' [] rxq (bus_xfer q bus).2 0 0 c k /\
    flagged (sp_reg s' R_STATUS) R_STATUS_COMPLETE = true.
Proof.
  intros A Hq Hk Hc. unfold apple_spi_run. rewrite (at_ctrl _ _ _ _ _ _ _ _ A), Hk. cbv zeta. cbn [negb].
  rewrite (at_txcnt _ _ _ _ _ _ _ _ A). assert (Hz : (zlen q =? 0) = false) by (destruct q; [done|rewrite zlen_cons; pose proof (zlen_nonneg q); apply Z.eqb_neq; lia]).
  rewrite Hz, andb_false_r. cbn [andb]. rewrite (at_num_tx _ _ _ _ _ _ _ _ A).
  destruct (at_send_loop q _ (sp_s5l8900 s && negb (fifo8_is_empty (sp_tx s))) rxq bus _ c k (at_xfer_tx _ _ _ _ _ _ _ _ A))
    as (s1 & -> & A1 & _); [apply zlen_nonneg|by right|]. cbn [mbind option_bind]. rewrite Z.sub_diag in A1.
  destruct (at_num_rx _ _ _ _ _ _ _ _ A1) as (_ & Hl & _ & _ & _).
  destruct (at_fetch_loop 0 s1 [] rxq _ _ 0 c k A1 Hc ltac:(lia) ltac:(lia) ltac:(by right) (Z.to_nat (fifo8_num_free (sp_rx s1))))
    as (s2 & -> & _ & A2); [lia|]. cbn [mbind option_bind]. cbn [replicate bus_xfer] in A2. rewrite app_nil_r in A2.
  rewrite (at_rxcnt _ _ _ _ _ _ _ _ A2), (at_txcnt _ _ _ _ _ _ _ _ A2). eexists. split; [done|]. by apply at_complete.
Qed.

Lemma at_run_fetch s rxq bus r c k : spi_at s [] rxq bus 0 r c k -> 0 < r ->
  flagged k R_CTRL_RUN = true -> flagged c R_CFG_AGD = true ->
  let n := Z.min (16 - zlen rxq) r in
  exists s', apple_spi_run s = Some s' /\
    (r = n -> flagged (sp_reg s' R_STATUS) R_STATUS_COMPLETE = true) /\
    let '(rs, bus') := bus_xfer (replicate (Z.to_nat n) 0xff) bus in spi_at s' [] (rxq ++ rs) bus' 0 (r - n) c k.
Proof.
  intros A Hr Hk Hc n. unfold apple_spi_run. rewrite (at_ctrl _ _ _ _ _ _ _ _ A), Hk. cbv zeta. cbn [negb].
  rewrite (at_rxcnt _ _ _ _ _ _ _ _ A), (proj2 (Z.eqb_neq r 0)) by lia. cbn [andb]. rewrite (at_num_tx _ _ _ _ _ _ _ _ A).
  cbn [length spi_send_loop mbind option_bind]. pose proof (at_xfer_tx _ _ _ _ _ _ _ _ A) as A1.
  destruct (at_num_rx _ _ _ _ _ _ _ _ A1) as (_ & Hl & _ & _ & Ef). rewrite Ef.
  destruct (at_fetch_loop (Z.to_nat n) _ [] rxq _ _ r c k A1 Hc) with (fuel := Z.to_nat (16 - zlen rxq)) as (s2 & -> & _ & A2);
    [unfold n; lia..|]. cbn [mbind option_bind]. destruct (bus_xfer _ bus) as [rs bus']. rewrite Z2Nat.id in A2 by (unfold n; lia).
  rewrite (at_rxcnt _ _ _ _ _ _ _ _ A2), (at_txcnt _ _ _ _ _ _ _ _ A2). eexists. split; [done|].
  destruct (at_complete _ _ _ _ _ _ _ _ A2) as [A3 F]. destruct (Z.eqb_spec (r - n) 0); cbn [andb Z.eqb]; [by split|].
  split; [lia|done].
Qed.

(** A reception under way: nothing left to send, and the FIFO is empty only
    when nothing is left to receive. *)
Record receiving s (rxq : bytes) (bus : list (SSIPeripheral D)) (r c k : Z) : Prop := {
  rv_at : spi_at s [] rxq bus 0 r c k;
  rv_bytes : is_bytes rxq;
  rv_count : 0 <= r;
  rv_some : rxq = [] -> r = 0;
  rv_done : r = 0 -> flagged (sp_reg s R_STATUS) R_STATUS_COMPLETE = true;
}.

Lemma at_irq s q rxq bus t r c k : spi_at s q rxq bus t r c k -> spi_at (apple_spi_update_irq s) q rxq bus t r c k.
Proof.
  intros [W ? ? ? ? ? ? ?]. pose proof (update_irq_settled s W) as [W' _]. revert W'. unfold apple_spi_update_irq.
  destruct (_ =? _); intros W'; by split.
Qed.

Lemma irq_reg s a : sp_reg (apple_spi_update_irq s) a = sp_reg s a.
Proof. unfold apple_spi_update_irq. by destruct (_ =? _). Qed.

Lemma irq_tx s : sp_tx (apple_spi_update_irq s) = sp_tx s.
Proof. unfold apple_spi_update_irq. by destruct (_ =? _). Qed.

Lemma receiving_irq s rxq bus r c k : receiving s rxq bus r c k -> receiving (apple_spi_update_irq s) rxq bus r c k.
Proof.
  intros [A B C E F]. split; [by apply at_irq|done|done|done|]. by rewrite irq_reg.
Qed.

Lemma u8_le_word b l : is_byte b -> u8 (le_word (b :: l)) = b.
Proof.
  intros B. cbn [le_word]. rewrite Z.lor_comm, lor_shiftl_add by (unfold is_byte in B; lia). unfold u8.
  change (2 ^ 8) with 256. rewrite Z.add_comm, Z.mod_add by lia. by apply u8_id.
Qed.

(** The receive register gives the oldest byte; the controller runs when it was
    the last. *)
Lemma read_rxdata_byte s b q bus r c k : spi_at s [] (b :: q) bus 0 r c k -> is_byte b -> R_CFG_WORD_SIZE c = 0 ->
  exists v s', spi_read_switch R_RXDATA s = Some (v, bool_decide (q = []), s') /\ u8 v = b /\ spi_at s' [] q bus 0 r c k /\
    sp_reg s' R_STATUS = sp_reg s R_STATUS.
Proof.
  intros A Bb Hw. destruct (at_num_rx _ _ _ _ _ _ _ _ A) as (En & Hl & Ee & _). pose proof (at_wf _ _ _ _ _ _ _ _ A) as W.
  rewrite zlen_cons in *. pose proof (zlen_nonneg q). fifo_ranges (sp_rx s) (sw_rx s W).
  assert (Ew : apple_spi_word_size s = 1) by (unfold apple_spi_word_size; by rewrite (at_cfg _ _ _ _ _ _ _ _ A), Hw).
  destruct (fifo8_pop_bufptr_ok (sp_rx s) 1 (sw_rx s W)) as (f & _ & P & Wf & L & C); [lia|].
  rewrite Z.min_r, (at_rx _ _ _ _ _ _ _ _ A) in P, L by lia. change (ztake 1 (b :: q)) with [b] in P. change (zdrop 1 (b :: q)) with q in L.
  unfold spi_read_switch. rewrite Z.eqb_refl. unfold spi_read_rxdata. rewrite Ee, Ew, P.
  rewrite (proj2 (Z.eqb_neq _ _)) by lia. cbn [mbind option_bind]. set (s1 := s <| sp_rx := f |>).
  assert (A1 : spi_at s1 [] q bus 0 r c k).
  { destruct A as [_ ? ? ? ? ? ? ?]. split; try done. apply wf_rx; [done|done|]. by rewrite C, sw_rx_capacity. }
  destruct (at_num_rx _ _ _ _ _ _ _ _ A1) as (_ & _ & E & _). change (sp_rx s1) with f in E. rewrite E.
  assert (Eq : (zlen q =? 0) = bool_decide (q = [])).
  { destruct q; [done|]. rewrite bool_decide_false, zlen_cons by done. pose proof (zlen_nonneg q). apply Z.eqb_neq. lia. }
  rewrite Eq. do 2 eexists. split; [done|]. split; [by apply u8_le_word|]. by split.
Qed.

(** One read takes the oldest byte, and refills the FIFO when it was the last. *)
Lemma read_receiving s b q bus r c k : receiving s (b :: q) bus r c k -> R_CFG_WORD_SIZE c = 0 ->
  flagged k R_CTRL_RUN = true -> flagged c R_CFG_AGD = true ->
  exists n v s', 0 <= n <= r /\ ipod_touch_spi_read R_RXDATA s = Some (v, s') /\ u8 v = b /\
    let '(rs, bus') := bus_xfer (replicate (Z.to_nat n) 0xff) bus in receiving s' (q ++ rs) bus' (r - n) c k.
Proof.
  intros [A B Hr Hs Hd] Hw Hk Hc. apply Forall_cons in B as [Bb Bq].
  destruct (read_rxdata_byte s b q bus r c k A Bb Hw) as (v & s1 & E & Ev & A1 & Es). rewrite <- Es in Hd.
  unfold ipod_touch_spi_read. rewrite E. cbn [mbind option_bind].
  assert (Keep : q <> [] \/ r = 0 -> receiving (apple_spi_update_irq s1) q bus r c k).
  { intros Hq. apply receiving_irq. split; try done. intros ->. by destruct Hq. }
  destruct (decide (q = [] /\ 0 < r)) as [[-> Hlt]|Hn].
  - rewrite bool_decide_true by done. cbn [spi_run_if]. destruct (at_run_fetch s1 [] bus r c k A1 Hlt Hk Hc) as (s2 & -> & F & R).
    cbn [mbind option_bind]. change (16 - zlen []) with 16 in *. exists (Z.min 16 r), v, (apple_spi_update_irq s2).
    split; [lia|]. split; [done|]. split; [done|]. pose proof (bus_xfer_bytes (replicate (Z.to_nat (Z.min 16 r)) 0xff) bus) as [Br Lr].
    destruct (bus_xfer _ bus) as [rs bus']. apply receiving_irq. split; [done|done|lia| |intros; apply F; lia].
    cbn [app fst] in *. intros ->. unfold zlen in Lr. rewrite length_replicate in Lr. cbn in Lr. lia.
  - exists 0, v, (apple_spi_update_irq s1).
    change (bus_xfer (replicate (Z.to_nat 0) 0xff) bus) with (@nil Z, bus). cbv beta iota. rewrite app_nil_r, Z.sub_0_r.
    assert (Hk0 : q <> [] \/ r = 0) by (destruct (decide (q = [])); [right; destruct (decide (0 < r)); [tauto|lia]|by left]).
    split; [lia|]. split; [|by auto]. destruct (decide (q = [])) as [->|Hq]; [|by rewrite bool_decide_false by done].
    rewrite bool_decide_true by done. cbn [spi_run_if]. destruct Hk0 as [|Hz]; [done|]. rewrite Hz in A1. by rewrite (at_run_idle _ _ _ _ _ A1).
Qed.

(** Reads of the receive register, of one byte each. *)
Fixpoint spi_read_bytes (n : nat) (s : State) : option (bytes * State) :=
  match n with
  | O => Some ([], s)
  | S n => '(v, s) ← ipod_touch_spi_read R_RXDATA s; '(vs, s) ← spi_read_bytes n s; Some (u8 v :: vs, s)
  end.

Lemma read_bytes_receiving n s q bus r c k : receiving s q bus r c k -> R_CFG_WORD_SIZE c = 0 ->
  flagged k R_CTRL_RUN = true -> flagged c R_CFG_AGD = true -> Z.of_nat n = zlen q + r ->
  exists s', let '(rs, bus') := bus_xfer (replicate (Z.to_nat r) 0xff) bus in
    spi_read_bytes n s = Some (q ++ rs, s') /\ receiving s' [] bus' 0 c k.
Proof.
  revert s q bus r. induction n as [|n IH]; intros s q bus r R Hw Hk Hc Hn; pose proof (rv_count _ _ _ _ _ _ R).
  - destruct q as [|b q]; [|rewrite zlen_cons in Hn; pose proof (zlen_nonneg q); lia].
    replace r with 0 in * by (unfold zlen in Hn; cbn in Hn; lia). by exists s.
  - destruct q as [|b q]; [rewrite (rv_some _ _ _ _ _ _ R) in Hn by done; unfold zlen in Hn; cbn in Hn; lia|].
    destruct (read_receiving s b q bus r c k R Hw Hk Hc) as (m & v & s1 & Hm & E & Ev & R1). cbn [spi_read_bytes]. rewrite E.
    cbn [mbind option_bind]. replace (Z.to_nat r) with (Z.to_nat m + Z.to_nat (r - m))%nat by lia.
    rewrite replicate_add, bus_xfer_app. pose proof (bus_xfer_bytes (replicate (Z.to_nat m) 0xff) bus) as [_ Lm].
    destruct (bus_xfer (replicate (Z.to_nat m) 0xff) bus) as [r1 b1]. cbn [fst] in Lm.
    unfold zlen at 2 in Lm. rewrite length_replicate in Lm. rewrite zlen_cons in Hn.
    destruct (IH s1 _ _ _ R1 Hw Hk Hc) as (s2 & IH2); [rewrite zlen_app; lia|].
    destruct (bus_xfer (replicate (Z.to_nat (r - m)) 0xff) b1) as [r2 b2]. destruct IH2 as [-> R2]. cbn [mbind option_bind].
    exists s2. rewrite Ev. split; [|done]. by rewrite <- app_assoc.
Qed.

(** ** A command and its answer *)

(** Writes that change a register and no queue. *)
Lemma write_plain addr v s : spi_write_switch addr (u32 v) s = Some (u32 v, false, s) -> addr <> R_STATUS ->
  ipod_touch_spi_write addr v s = Some (apple_spi_update_irq (sp_set addr (u32 v) s)).
Proof.
  intros E Ha. unfold ipod_touch_spi_write. rewrite E. cbn [mbind option_bind spi_run_if].
  by rewrite (proj2 (Z.eqb_neq _ _)) by done.
Qed.

Lemma at_write_txcnt v s q rxq bus t r c k : spi_at s q rxq bus t r c k -> is_u32 v ->
  exists s', ipod_touch_spi_write R_TXCNT v s = Some s' /\ spi_at s' q rxq bus v r c k.
Proof.
  intros [W ? ? ? ? ? ? ?] Hv. rewrite write_plain by done. rewrite u32_id by done. eexists. split; [done|]. apply at_irq.
  pose proof (sw_regs s W). split; [by apply spi_wf_set|done|done|done|..]; by rewrite sp_reg_set by done.
Qed.

Lemma at_write_rxcnt v s q rxq bus t r c k : spi_at s q rxq bus t r c k -> is_u32 v ->
  exists s', ipod_touch_spi_write R_RXCNT v s = Some s' /\ spi_at s' q rxq bus t v c k /\
    sp_reg s' R_STATUS = sp_reg s R_STATUS.
Proof.
  intros [W ? ? ? ? ? ? ?] Hv. rewrite write_plain by done. rewrite u32_id by done. eexists. split; [done|].
  pose proof (sw_regs s W). split; [apply at_irq; split; [by apply spi_wf_set|done|done|done|..]; by rewrite sp_reg_set by done|].
  by rewrite irq_reg, sp_reg_set by done.
Qed.

(** Both FIFOs are emptied; the controller stops. *)
Lemma at_write_flush s q rxq bus t r c k : spi_at s q rxq bus t r c k ->
  exists s', ipod_touch_spi_write R_CTRL (Z.lor R_CTRL_TX_RESET R_CTRL_RX_RESET) s = Some s' /\
    spi_at s' [] [] bus t r c (Z.lor R_CTRL_TX_RESET R_CTRL_RX_RESET) /\ ff_capacity (sp_tx s') = ff_capacity (sp_tx s).
Proof.
  intros [W ? ? ? ? ? ? ?]. unfold ipod_touch_spi_write. set (s1 := s <| sp_tx ::= fifo8_reset |> <| sp_rx ::= fifo8_reset |>).
  change (spi_write_switch R_CTRL _ s) with (Some (0xc, false, s1)). cbn [mbind option_bind spi_run_if].
  change (R_CTRL =? R_STATUS) with false. cbn [andb]. eexists. split; [done|]. split; [apply at_irq|by rewrite irq_tx].
  assert (W1 : spi_wf s1).
  { apply (wf_rx _ (s <| sp_tx ::= fifo8_reset |>)); [|apply wf_fifo_reset, W|apply W].
    apply (wf_tx _ s); [done|]. apply wf_fifo_reset, W. }
  pose proof (sw_regs s1 W1). split; [by apply spi_wf_set|done|done|done|..]; by rewrite sp_reg_set by done.
Qed.

(** The configuration of a stopped controller. *)
Lemma at_write_cfg v s q rxq bus t r c k : spi_at s q rxq bus t r c k -> is_u32 v -> flagged k R_CTRL_RUN = false ->
  exists s', ipod_touch_spi_write R_CFG v s = Some s' /\ spi_at s' q rxq bus t r v k /\ sp_tx s' = sp_tx s.
Proof.
  intros [W ? ? ? ? ? ? Hk] Hv Hr. unfold ipod_touch_spi_write. change (spi_write_switch R_CFG (u32 v) s) with (Some (u32 v, true, s)).
  rewrite u32_id by done. cbn [mbind option_bind spi_run_if]. pose proof (sw_regs s W).
  assert (A : spi_at (sp_set R_CFG v s) q rxq bus t r v k) by (split; [by apply spi_wf_set|done|done|done|..]; by rewrite sp_reg_set by done).
  unfold apple_spi_run. rewrite (at_ctrl _ _ _ _ _ _ _ _ A), Hr. cbn [negb mbind option_bind]. eexists. split; [done|].
  split; [by apply at_irq|by rewrite irq_tx].
Qed.

Lemma at_write_byte b s q rxq bus t r c k : spi_at s q rxq bus t r c k -> is_byte b -> R_CFG_WORD_SIZE c = 0 ->
  zlen q < ff_capacity (sp_tx s) ->
  exists s', ipod_touch_spi_write R_TXDATA b s = Some s' /\ spi_at s' (q ++ [b]) rxq bus t r c k /\
    ff_capacity (sp_tx s') = ff_capacity (sp_tx s).
Proof.
  intros [W At ? ? ? ? Ac ?] Hb Hw Hl. pose proof (sw_tx s W) as Wt. fifo_ranges (sp_tx s) Wt.
  pose proof (zlen_fifo_list (sp_tx s) ltac:(lia)) as L. rewrite At in L.
  assert (Ew : apple_spi_word_size s = 1) by (unfold apple_spi_word_size; by rewrite Ac, Hw).
  destruct (fifo8_push_all_ok [b] (sp_tx s) Wt) as (f & P & Wf & Lf & Cf); [autorewrite with zlen; lia|].
  assert (E : spi_write_txdata (u32 b) s = Some (s <| sp_tx := f |>)).
  { unfold spi_write_txdata. rewrite Ew. unfold fifo8_is_full, fifo8_num_free. rewrite u32_id by (unfold is_u32; lia).
    rewrite (proj2 (Z.eqb_neq _ _)), (proj2 (Z.ltb_ge _ _)) by lia. cbn [orb].
    assert (Eb : ztake 1 (le32 (u32 b)) = [b]).
    { rewrite u32_id by (unfold is_u32, is_byte in *; lia). change (ztake 1 (le32 b)) with [u8 b]. by rewrite u8_id. }
    by rewrite Eb, P. }
  unfold ipod_touch_spi_write. change (spi_write_switch R_TXDATA (u32 b) s) with (s' ← spi_write_txdata (u32 b) s; Some (u32 b, false, s')).
  rewrite E. cbn [mbind option_bind spi_run_if]. change (R_TXDATA =? R_STATUS) with false. cbn [andb]. eexists. split; [done|].
  split; [apply at_irq|by rewrite irq_tx].
  pose proof (sw_regs s W). split; [by apply spi_wf_set, wf_tx|by rewrite <- At|done|done|..]; by rewrite sp_reg_set by done.
Qed.

Fixpoint spi_write_bytes (bs : bytes) (s : State) : option State :=
  match bs with [] => Some s | b :: bs => s ← ipod_touch_spi_write R_TXDATA b s; spi_write_bytes bs s end.

Lemma at_write_bytes bs s q rxq bus t r c k : spi_at s q rxq bus t r c k -> is_bytes bs -> R_CFG_WORD_SIZE c = 0 ->
  zlen q + zlen bs <= ff_capacity (sp_tx s) ->
  exists s', spi_write_bytes bs s = Some s' /\ spi_at s' (q ++ bs) rxq bus t r c k.
Proof.
  revert s q. induction bs as [|b bs IH]; intros s q A B Hw Hl; cbn [spi_write_bytes]; [exists s; by rewrite app_nil_r|].
  apply Forall_cons in B as [Bb B]. rewrite zlen_cons in Hl. pose proof (zlen_nonneg bs).
  destruct (at_write_byte b s q rxq bus t r c k A Bb Hw) as (s1 & -> & A1 & C1); [lia|]. cbn [mbind option_bind].
  destruct (IH s1 _ A1 B Hw) as (s2 & -> & A2); [rewrite C1, zlen_app; autorewrite with zlen; lia|].
  exists s2. split; [done|]. by rewrite <- app_assoc in A2.
Qed.

(** The start of a run by the control register. *)
Lemma at_write_run s q rxq bus t r c k : spi_at s q rxq bus t r c k -> flagged c R_CFG_AGD = true ->
  ipod_touch_spi_write R_CTRL R_CTRL_RUN s = apple_spi_update_irq <$> apple_spi_run (sp_set R_CTRL R_CTRL_RUN s) /\
  spi_at (sp_set R_CTRL R_CTRL_RUN s) q rxq bus t r c R_CTRL_RUN.
Proof.
  intros [W ? ? ? ? ? Hc ?] Ha. pose proof (sw_regs s W). split.
  - unfold ipod_touch_spi_write.
    change (spi_write_switch R_CTRL (u32 R_CTRL_RUN) s) with (Some (R_CTRL_RUN, true && (flagged (sp_reg s R_CFG) R_CFG_AGD || negb (fifo8_is_empty (sp_tx s))), s)).
    rewrite Hc, Ha. cbn [mbind option_bind spi_run_if andb orb]. by destruct (apple_spi_run _).
  - split; [by apply spi_wf_set|done|done|done|..]; by rewrite sp_reg_set by done.
Qed.

(** The driver's sequence for a command with an answer: empty the FIFOs, set the
    configuration, queue and send the command, then receive [n] bytes. *)
Definition spi_send_command (cfg : Z) (cmd : bytes) (s : State) : option State :=
  s ← ipod_touch_spi_write R_CTRL (Z.lor R_CTRL_TX_RESET R_CTRL_RX_RESET) s;
  s ← ipod_touch_spi_write R_CFG cfg s;
  s ← spi_write_bytes cmd s;
  s ← ipod_touch_spi_write R_TXCNT (zlen cmd) s;
  s ← ipod_touch_spi_write R_RXCNT 0 s;
  ipod_touch_spi_write R_CTRL R_CTRL_RUN s.

Definition spi_command (cfg : Z) (cmd : bytes) (n : Z) (s : State) : option (bytes * State) :=
  s ← spi_send_command cfg cmd s;
  s ← ipod_touch_spi_write R_RXCNT n s;
  s ← ipod_touch_spi_write R_CTRL R_CTRL_RUN s;
  spi_read_bytes (Z.to_nat n) s.

Lemma read_bytes_settled n s bs s' : spi_wf s -> spi_settled s -> spi_read_bytes n s = Some (bs, s') -> spi_settled s'.
Proof.
  revert s bs. induction n as [|n IH]; intros s bs W S; cbn [spi_read_bytes]; [by intros [= _ <-]|].
  pose proof (spi_step_cases (SpiRead R_RXDATA) s W S) as C. cbn [spi_step] in C.
  destruct (ipod_touch_spi_read R_RXDATA s) as [[v s1]|]; [|done]. cbn [mbind option_bind fmap option_fmap option_map snd] in *.
  destruct C as [W1 S1]. destruct (spi_read_bytes n s1) as [[vs s2]|] eqn:E; [|done]. intros [= _ <-]. by eapply IH.
Qed.

(** The phase that sends. *)
Lemma command_sent cfg cmd s : spi_wf s -> is_u32 cfg -> flagged cfg R_CFG_AGD = true -> R_CFG_WORD_SIZE cfg = 0 ->
  is_bytes cmd -> cmd <> [] -> zlen cmd <= ff_capacity (sp_tx s) ->
  exists s', spi_send_command cfg cmd s = Some s' /\
    spi_at s' [] [] (bus_xfer cmd (sp_bus s)).2 0 0 cfg R_CTRL_RUN /\
    flagged (sp_reg s' R_STATUS) R_STATUS_COMPLETE = true.
Proof.
  intros W Hu Ha Hw Bc Hc Hl. assert (A : spi_at s (fifo_list (sp_tx s)) (fifo_list (sp_rx s)) (sp_bus s)
    (sp_reg s R_TXCNT) (sp_reg s R_RXCNT) (sp_reg s R_CFG) (sp_reg s R_CTRL)) by done.
  fifo_ranges (sp_tx s) (sw_tx s W). unfold spi_send_command.
  destruct (at_write_flush _ _ _ _ _ _ _ _ A) as (s1 & -> & A1 & C1). cbn [mbind option_bind].
  destruct (at_write_cfg cfg _ _ _ _ _ _ _ _ A1 Hu) as (s2 & -> & A2 & C2); [done|]. cbn [mbind option_bind].
  destruct (at_write_bytes cmd _ _ _ _ _ _ _ _ A2 Bc Hw) as (s3 & -> & A3); [by rewrite C2, C1|]. cbn [mbind option_bind app] in *.
  destruct (at_write_txcnt (zlen cmd) _ _ _ _ _ _ _ _ A3) as (s4 & -> & A4); [unfold is_u32; pose proof (zlen_nonneg cmd); lia|].
  cbn [mbind option_bind]. destruct (at_write_rxcnt 0 _ _ _ _ _ _ _ _ A4) as (s5 & -> & A5 & _); [done|]. cbn [mbind option_bind].
  destruct (at_write_run _ _ _ _ _ _ _ _ A5 Ha) as [-> A6].
  destruct (at_run_send _ _ _ _ _ _ A6 Hc) as (s7 & -> & A7 & F); [done|done|]. cbn [fmap option_fmap option_map].
  eexists. split; [done|]. split; [by apply at_irq|by rewrite irq_reg].
Qed.

(** The phase that receives. *)
Lemma command_received n cfg bus s : spi_at s [] [] bus 0 0 cfg R_CTRL_RUN -> flagged (sp_reg s R_STATUS) R_STATUS_COMPLETE = true ->
  flagged cfg R_CFG_AGD = true -> R_CFG_WORD_SIZE cfg = 0 -> is_u32 n ->
  exists s', let '(rs, bus') := bus_xfer (replicate (Z.to_nat n) 0xff) bus in
    (s ← ipod_touch_spi_write R_RXCNT n s; s ← ipod_touch_spi_write R_CTRL R_CTRL_RUN s; spi_read_bytes (Z.to_nat n) s) =
      Some (rs, s') /\ receiving s' [] bus' 0 cfg R_CTRL_RUN /\ spi_settled s'.
Proof.
  intros A F Ha Hw Hn. unfold is_u32 in Hn. destruct (at_write_rxcnt n _ _ _ _ _ _ _ _ A Hn) as (s1 & -> & A1 & E1). cbn [mbind option_bind].
  destruct (spi_write_ok R_CTRL R_CTRL_RUN s1 (at_wf _ _ _ _ _ _ _ _ A1)) as (s2 & E2 & W2 & S2). rewrite E2. cbn [mbind option_bind].
  destruct (at_write_run _ _ _ _ _ _ _ _ A1 Ha) as [E3 A3]. rewrite E2 in E3.
  assert (R : exists m, 0 <= m <= n /\ let '(rs, bus1) := bus_xfer (replicate (Z.to_nat m) 0xff) bus in
    receiving s2 rs bus1 (n - m) cfg R_CTRL_RUN /\ zlen rs = m).
  { destruct (decide (n = 0)) as [->|Hz].
    - exists 0. split; [lia|]. split; [|done]. rewrite (at_run_idle _ _ _ _ _ A3) in E3. injection E3 as ->. apply receiving_irq.
      split; [done|constructor|done|done|]. intros _. rewrite sp_reg_set by (apply (at_wf _ _ _ _ _ _ _ _ A1) || done).
      change (_ =? _) with false. cbv iota. by rewrite E1.
    - destruct (at_run_fetch _ _ _ _ _ _ A3) as (s3 & E4 & F3 & A4); [lia|done|done|]. rewrite E4 in E3. injection E3 as ->.
      change (16 - zlen []) with 16 in *. exists (Z.min 16 n). split; [lia|].
      pose proof (bus_xfer_bytes (replicate (Z.to_nat (Z.min 16 n)) 0xff) bus) as [Br Lr].
      destruct (bus_xfer (replicate (Z.to_nat (Z.min 16 n)) 0xff) bus) as [rs bus1]. cbn [app fst] in *.
      unfold zlen at 2 in Lr. rewrite length_replicate, Z2Nat.id in Lr by lia. split; [|done]. apply receiving_irq.
      split; [done|done|lia| |intros; apply F3; lia]. intros ->. unfold zlen in Lr. cbn in Lr. lia. }
  destruct R as (m & Hm & R).
  assert (En : replicate (Z.to_nat n) 0xff = replicate (Z.to_nat m) 0xff ++ replicate (Z.to_nat (n - m)) 0xff)
    by (rewrite <- replicate_add; f_equal; lia).
  rewrite En, bus_xfer_app. destruct (bus_xfer (replicate (Z.to_nat m) 0xff) bus) as [rs bus1]. destruct R as [R Lr].
  destruct (read_bytes_receiving (Z.to_nat n) s2 rs bus1 (n - m) cfg R_CTRL_RUN R Hw) as (s3 & E5); [done|done|lia|].
  exists s3. destruct (bus_xfer (replicate (Z.to_nat (n - m)) 0xff) bus1) as [rs2 bus2]. destruct E5 as [E5 R5].
  split; [done|]. split; [done|]. by eapply read_bytes_settled.
Qed.

(** A command and its answer: whatever the controller was doing, the driver's
    sequence sends the bytes of the command to the bus in order and returns the
    bytes the bus gives back, of any number: the FIFO of sixteen is refilled as
    it is read, and no byte is lost or repeated.  At the end the status says
    complete, with the line raised when that interrupt is enabled. *)
Theorem spi_command_ok cfg cmd n s : spi_wf s -> is_u32 cfg -> flagged cfg R_CFG_AGD = true -> R_CFG_WORD_SIZE cfg = 0 ->
  is_bytes cmd -> cmd <> [] -> zlen cmd <= ff_capacity (sp_tx s) -> is_u32 n ->
  let '(rs, bus) := bus_xfer (replicate (Z.to_nat n) 0xff) (bus_xfer cmd (sp_bus s)).2 in
  exists s', spi_command cfg cmd n s = Some (rs, s') /\ sp_bus s' = bus /\
    flagged (sp_reg s' R_STATUS) R_STATUS_COMPLETE = true /\
    (flagged cfg R_CFG_IE_COMPLETE = true -> sp_irq s' = 1).
Proof.
  intros W Hu Ha Hw Bc Hc Hl Hn. destruct (command_sent cfg cmd s W Hu Ha Hw Bc Hc Hl) as (s1 & E1 & A1 & F1).
  destruct (command_received n cfg _ s1 A1 F1 Ha Hw Hn) as (s2 & E2).
  destruct (bus_xfer (replicate (Z.to_nat n) 0xff) _) as [rs bus]. destruct E2 as (E2 & R & S). exists s2.
  unfold spi_command. rewrite E1. cbn [mbind option_bind]. split; [done|]. destruct R as [A _ _ _ F]. specialize (F eq_refl).
  split; [apply A|]. split; [done|]. intros Hi. rewrite S. unfold spi_irq_mask. rewrite (at_cfg _ _ _ _ _ _ _ _ A), Hi.
  by rewrite !flagged_lor, F, orb_true_r.
Qed.

End Facts.

(** ** Examples *)

(** A peripheral that answers with a running number. *)
#[local] Instance count_ssi : SsiClass Z :=
  {| cs_polarity := SSI_CS_NONE; ssc_transfer := fun _ n => (n, n + 1); ssc_set_cs := fun _ n => n |}.

Definition ex_spi : IPodTouchSPIState Z :=
  ipod_touch_spi_realize false (replicate 64 0) (replicate 16 0) 64 [mkSsi false 1].

Lemma spi_line_tracks_witness :
  let ops := [SpiWrite R_CFG (Z.lor R_CFG_AGD R_CFG_IE_COMPLETE); SpiWrite R_RXCNT 3; SpiWrite R_CTRL R_CTRL_RUN] in
  exists s, spi_steps ops ex_spi = Some s /\ sp_irq s = 1 /\
    sp_irq s = b2z (flagged (sp_reg s R_STATUS) (spi_irq_mask s)) /\
    0 <= ff_num (sp_rx s) <= R_FIFO_RX_DEPTH /\ 0 <= ff_num (sp_tx s) <= ff_capacity (sp_tx s).
Proof.
  eexists. split; [vm_compute; reflexivity|]. split; [reflexivity|].
  refine (spi_line_tracks false (replicate 64 0) (replicate 16 0) 64 [mkSsi false 1]
    [SpiWrite R_CFG (Z.lor R_CFG_AGD R_CFG_IE_COMPLETE); SpiWrite R_RXCNT 3; SpiWrite R_CTRL R_CTRL_RUN] _ _ _ _ _);
    [lia|reflexivity|reflexivity|vm_compute; reflexivity].
Defined.

(** One byte is in the FIFO and words of four are configured. *)
Definition ex_short : IPodTouchSPIState Z :=
  default ex_spi (spi_steps [SpiWrite R_CFG (Z.lor R_CFG_AGD 0x10000); SpiWrite R_RXCNT 1; SpiWrite R_CTRL R_CTRL_RUN] ex_spi).

Lemma ex_short_ok : spi_wf ex_short /\ spi_settled ex_short.
Proof.
  apply (spi_steps_ok [SpiWrite R_CFG (Z.lor R_CFG_AGD 0x10000); SpiWrite R_RXCNT 1; SpiWrite R_CTRL R_CTRL_RUN] ex_spi);
    [..|vm_compute; reflexivity]; apply spi_realized; done || lia.
Qed.

(** A guest ends the emulator with three writes and a read. *)
Lemma spi_abort_iff_witness : spi_step (SpiRead R_RXDATA) ex_short = None.
Proof.
  refine (proj2 (spi_abort_iff (SpiRead R_RXDATA) ex_short _ _) _); [apply ex_short_ok..|].
  split; [reflexivity|vm_compute; split; reflexivity].
Defined.

(** A word that lies across the end of the ring is cut: with words of two bytes
    after fifteen single ones, the read returns the first byte of the two that
    the FIFO holds, and the next read the second. *)
Lemma spi_word_split :
  exists s s' s'', spi_steps ([SpiWrite R_CFG R_CFG_AGD; SpiWrite R_RXCNT 15; SpiWrite R_CTRL R_CTRL_RUN] ++
                        replicate 15 (SpiRead R_RXDATA) ++
                        [SpiWrite R_CFG (Z.lor R_CFG_AGD 0x8000); SpiWrite R_RXCNT 4; SpiWrite R_CTRL R_CTRL_RUN]) ex_spi = Some s /\
    fifo_list (sp_rx s) = [16; 17; 18; 19] /\
    ipod_touch_spi_read R_RXDATA s = Some (16, s') /\ ipod_touch_spi_read R_RXDATA s' = Some (17 + 256 * 18, s'').
Proof.
  do 3 eexists. split; [vm_compute; reflexivity|]. split; [reflexivity|].
  split; [vm_compute; reflexivity|]. vm_compute. reflexivity.
Qed.
