(* ===== verification/Dart.v ===== *)
(** * The address translation units and the transfers through them

    [src/hw/arm/s5l8920_dart.c], [src/hw/arm/s5l8930_dart.c], and the loops of the
    devices that move data through them a page at a time: the scaler
    ([src/hw/arm/ipod_touch_scaler.c]), the panel ([src/hw/arm/ipod_touch_lcd.c]),
    the display pipe ([src/hw/arm/s5l8930_display.c]), the camera's processor
    ([src/hw/arm/s5l8930_isp.c]) and the picture decoder
    ([src/hw/arm/s5l8920_jpeg.c]).

    A translation is a function from a bus address of 32 bits to a [hwaddr] of
    64; the value of all ones means that there is none.  The page tables are in
    guest memory, so that a transfer may change them: memory is an argument of
    every translation. *)

From Stdlib Require Import ZArith Lia.
From stdpp Require Import base numbers list.
From S2P Require Import Prelude CLib HwLib.
Local Open Scope Z_scope.

(** [(hwaddr)-1], and [-1] as a number of 32 bits *)
Definition NO_ADDR : Z := 2 ^ 64 - 1.
Definition ALL_ONES32 : Z := 2 ^ 32 - 1.

(** [address_space_ldl_le] *)
Definition ldl_le (mem : Z -> Z) (addr : Z) : Z := ld_le32 (phys_read mem addr 4) 0.

(** ** The S5L8920's unit *)

Definition DART_CMD : Z := 0x00.
Definition DART_DATA20 : Z := 0x04.
Definition DART_STE : Z := 0x08.
Definition DART_CONFIG : Z := 0x0c.
Definition DART_ERROR : Z := 0x10.
Definition DART_SIZE : Z := 0x1000.
Definition DART_CONFIG_ENABLE : Z := 0x80000000.
Definition DART_WINDOW : Z := 0x3c000000.
Definition DART_SEGS : Z := 16.
Definition DART_SEG_SHIFT : Z := 22.
Definition DART_DRAM : Z := 0x40000000.
Definition DART_PA_MASK : Z := 0x0ffff000.

Record S5L8920DartState := mkDart20 { d20_regs : list Z; d20_ste : list Z }.

#[global] Instance upd_d20_regs : Upd d20_regs := fun f r => mkDart20 (f (d20_regs r)) (d20_ste r).
#[global] Instance upd_d20_ste : Upd d20_ste := fun f r => mkDart20 (d20_regs r) (f (d20_ste r)).

(** The last line of the C function is a conditional between an unsigned number
    of 32 bits and [-1]: the result for an invalid entry has 32 ones. *)
Definition s5l8920_dart_xlate (mem : Z -> Z) (s : S5L8920DartState) (va sid : Z) : Z :=
  let off := u32 (va - DART_WINDOW) in
  if negb (flagged (rd (d20_regs s) (DART_CONFIG / 4)) DART_CONFIG_ENABLE) || (va <? DART_WINDOW) then va
  else if u32 (Z.shiftl DART_SEGS DART_SEG_SHIFT) <=? off then NO_ADDR
  else
    let ste := rd (d20_ste s) (Z.shiftr off DART_SEG_SHIFT) in
    if Z.land ste 1 =? 0 then NO_ADDR
    else
      let pte := ldl_le mem (u32 (DART_DRAM + Z.land ste DART_PA_MASK + Z.land (Z.shiftr off 12) 0x3ff * 4)) in
      if Z.land pte 1 =? 0 then ALL_ONES32 else u32 (DART_DRAM + Z.land pte DART_PA_MASK + Z.land va 0xfff).

Definition dart20_read (addr : Z) (s : S5L8920DartState) : Z := rd (d20_regs s) (addr / 4).

Definition dart20_write (addr val : Z) (s : S5L8920DartState) : S5L8920DartState :=
  let set v := upd d20_regs (fun l => wr l (addr / 4) v) in
  if addr =? DART_CMD then
    let s := if Z.land val 0xf =? 1 then
               s <| d20_regs ::= fun l => wr l (DART_DATA20 / 4)
                      (rd (d20_ste s) (Z.land (Z.shiftr val DART_SEG_SHIFT) (DART_SEGS - 1))) |>
             else s in
    set (u32 val) s
  else if addr =? DART_STE then
    set (u32 val) (s <| d20_ste ::= fun l => wr l (Z.land (Z.shiftr val 8) (DART_SEGS - 1)) (u32 val) |>)
  else if addr =? DART_ERROR then set (Z.ldiff (rd (d20_regs s) (addr / 4)) val) s
  else set (u32 val) s.

Definition s5l8920_dart_reset : S5L8920DartState :=
  mkDart20 (replicate (Z.to_nat (DART_SIZE / 4)) 0) (replicate (Z.to_nat DART_SEGS) 0).

(** ** The S5L8930's unit *)

Definition DART_TLB_OP : Z := 0x00.
Definition DART_DATA : Z := 0x08.
Definition DART_ERROR_STATUS : Z := 0x10.
Definition S5L8930_DART_SIZE : Z := 0x2000.
Definition S5L8930_DART_SIDS : Z := 4.
Definition S5L8930_DART_SEGS : Z := 64.

Record S5L8930Dart := mkDart30 { d30_regs : list Z; d30_ste : list (list Z) }.

#[global] Instance upd_d30_regs : Upd d30_regs := fun f r => mkDart30 (f (d30_regs r)) (d30_ste r).
#[global] Instance upd_d30_ste : Upd d30_ste := fun f r => mkDart30 (d30_regs r) (f (d30_ste r)).

(** [d->ste[sid][seg]] *)
Definition ste_at (d : S5L8930Dart) (sid seg : Z) : Z := rd (default [] (d30_ste d !! Z.to_nat sid)) seg.

Definition dart30_read (addr : Z) (d : S5L8930Dart) : Z :=
  if addr =? DART_TLB_OP then 0 else rd (d30_regs d) (addr / 4).

Definition dart30_write (addr val : Z) (d : S5L8930Dart) : S5L8930Dart :=
  let sid := Z.land (Z.shiftr val 8) 0xf in
  let seg := Z.land (Z.shiftr val 22) 0x3f in
  let set a v := upd d30_regs (fun l => wr l (a / 4) v) in
  if addr =? DART_TLB_OP then
    if S5L8930_DART_SIDS <=? sid then d
    else if Z.land val 0xf =? 5 then
      d <| d30_ste ::= alter (fun l => wr l seg (rd (d30_regs d) (DART_DATA / 4))) (Z.to_nat sid) |>
    else if Z.land val 0xf =? 4 then set DART_DATA (ste_at d sid seg) d
    else d
  else if addr =? DART_ERROR_STATUS then set addr (Z.ldiff (rd (d30_regs d) (addr / 4)) val) d
  else set addr (u32 val) d.

Definition s5l8930_dart_xlate (mem : Z -> Z) (d : S5L8930Dart) (sid va : Z) : Z :=
  if S5L8930_DART_SIDS <=? sid then NO_ADDR
  else
    let ste := Z.ldiff (ste_at d sid (Z.shiftr va 22 mod S5L8930_DART_SEGS)) 0xfff in
    if ste =? 0 then va
    else
      let pte := ldl_le mem (u32 (ste + Z.land (Z.shiftr va 12) 0x3ff * 4)) in
      if Z.land pte 1 =? 0 then NO_ADDR else Z.lor (Z.ldiff pte 0xfff) (Z.land va 0xfff).

Definition s5l8930_dart_reset : S5L8930Dart :=
  mkDart30 (replicate (Z.to_nat (S5L8930_DART_SIZE / 4)) 0)
           (replicate (Z.to_nat S5L8930_DART_SIDS) (replicate (Z.to_nat S5L8930_DART_SEGS) 0)).

(** The display's own stream, and those of its other clients. *)
Definition dart_xlate (mem : Z -> Z) (d : S5L8930Dart) (va : Z) : Z := s5l8930_dart_xlate mem d 0 va.
Definition s5l8930_dart2_xlate (mem : Z -> Z) (d : S5L8930Dart) (va sid : Z) : Z :=
  s5l8930_dart_xlate mem d (if sid <? S5L8930_DART_SIDS then sid else 0) va.

(** ** Transfers *)

(** [MIN(len, 0x1000 - (va & 0xfff))] *)
Definition page_part (va len : Z) : Z := Z.min len (0x1000 - Z.land va 0xfff).

(** Turns a loop over the pages of [len] bytes takes at most. *)
Definition pages (len : Z) : nat := Z.to_nat (len / 0x1000 + 2).

(** A translation as the devices hold it, a function pointer with its argument. *)
Abbreviation translation := ((Z -> Z) -> Z -> Z).

Section Transfers.
Variable xlate : translation.

(** What was read before the first page without a translation, and whether
    there was none. *)
Fixpoint read_bus_loop (fuel : nat) (mem : Z -> Z) (va len : Z) : bool * bytes :=
  match fuel with
  | O => (true, [])
  | S fuel =>
      if len =? 0 then (true, [])
      else
        let n := page_part va len in
        let pa := xlate mem va in
        if pa =? NO_ADDR then (false, [])
        else let '(ok, rest) := read_bus_loop fuel mem (u32 (va + n)) (len - n) in (ok, phys_read mem pa n ++ rest)
  end.

Fixpoint write_bus_loop (fuel : nat) (va : Z) (buf : bytes) (mem : Z -> Z) : bool * (Z -> Z) :=
  match fuel with
  | O => (true, mem)
  | S fuel =>
      if zlen buf =? 0 then (true, mem)
      else
        let n := page_part va (zlen buf) in
        let pa := xlate mem va in
        if pa =? NO_ADDR then (false, mem)
        else write_bus_loop fuel (u32 (va + n)) (zdrop n buf) (phys_write mem pa (ztake n buf))
  end.

(** A page without a translation reads as black. *)
Fixpoint fb_read_loop (fuel : nat) (mem : Z -> Z) (va len : Z) : bytes :=
  match fuel with
  | O => []
  | S fuel =>
      if len =? 0 then []
      else
        let n := page_part va len in
        let pa := xlate mem va in
        (if pa =? NO_ADDR then replicate (Z.to_nat n) 0 else phys_read mem pa n) ++
        fb_read_loop fuel mem (u32 (va + n)) (len - n)
  end.

Fixpoint lcd_read_loop (fuel : nat) (mem : Z -> Z) (addr off len : Z) : bytes :=
  match fuel with
  | O => []
  | S fuel =>
      if off <? len then
        let va := u32 (addr + off) in
        let n := Z.min (0x1000 - Z.land va 0xfff) (len - off) in
        let pa := xlate mem va in
        (if pa =? NO_ADDR then replicate (Z.to_nat n) 0 else phys_read mem pa n) ++ lcd_read_loop fuel mem addr (off + n) len
      else []
  end.

(** A page without a translation is left out. *)
Fixpoint isp_write_loop (fuel : nat) (va : Z) (buf : bytes) (mem : Z -> Z) : Z -> Z :=
  match fuel with
  | O => mem
  | S fuel =>
      if zlen buf =? 0 then mem
      else
        let n := page_part va (zlen buf) in
        let pa := xlate mem va in
        isp_write_loop fuel (u32 (va + n)) (zdrop n buf) (if pa =? NO_ADDR then mem else phys_write mem pa (ztake n buf))
  end.

(** Whether a page of the frame is not where contiguous pages would put it. *)
Fixpoint gather_loop (fuel : nat) (mem : Z -> Z) (va pa off size : Z) : bool :=
  match fuel with
  | O => false
  | S fuel =>
      if off <? size then
        if xlate mem (u32 (va + off)) =? pa + off then gather_loop fuel mem va pa (off + 0x1000) size else true
      else false
  end.

End Transfers.

(** The scaler, without a unit or with the one it was given. *)
Definition scaler_pa (xlate : option translation) (mem : Z -> Z) (va : Z) : Z :=
  match xlate with Some f => f mem va | None => va end.

Definition scaler_read_bus (xlate : option translation) (mem : Z -> Z) (va len : Z) : bool * bytes :=
  read_bus_loop (scaler_pa xlate) (pages len) mem va len.

Definition scaler_write_bus (xlate : option translation) (va : Z) (buf : bytes) (mem : Z -> Z) : bool * (Z -> Z) :=
  write_bus_loop (scaler_pa xlate) (pages (zlen buf)) va buf mem.

(** The picture decoder's transfer, in its two directions. *)
Definition jpeg_pa (xlate : option translation) (mem : Z -> Z) (va : Z) : Z :=
  match xlate with Some f => f mem va | None => va end.

Definition jpeg_dma_in (xlate : option translation) (mem : Z -> Z) (va len : Z) : bool * bytes :=
  read_bus_loop (jpeg_pa xlate) (pages len) mem va len.

Definition jpeg_dma_out (xlate : option translation) (va : Z) (buf : bytes) (mem : Z -> Z) : bool * (Z -> Z) :=
  write_bus_loop (jpeg_pa xlate) (pages (zlen buf)) va buf mem.

(** The display pipe reads through its own unit, the camera's processor writes
    as stream one of the other unit. *)
Definition fb_read (d : S5L8930Dart) (mem : Z -> Z) (va len : Z) : bytes :=
  fb_read_loop (fun mem => dart_xlate mem d) (pages len) mem va len.

Definition ISP_DART_SID : Z := 1.

Definition isp_dma_write (dart : option S5L8930Dart) (va : Z) (buf : bytes) (mem : Z -> Z) : Z -> Z :=
  isp_write_loop (fun mem va => match dart with Some d => s5l8930_dart_xlate mem d ISP_DART_SID va | None => va end)
    (pages (zlen buf)) va buf mem.

Definition lcd_bus_read (xlate : option translation) (mem : Z -> Z) (addr len : Z) : bytes :=
  match xlate with
  | None => phys_read mem addr len
  | Some f => lcd_read_loop f (pages len) mem addr 0 len
  end.

(** The panel's frame: the base it is scanned out from, and the two fields that
    say whether it is gathered a page at a time instead, and from where.  [win2]
    is the register at 0x78. *)
Definition lcd_scanout_base (xlate : option translation) (s5l8900 : bool) (win2 w1_framebuffer_base pw ph : Z)
    (gather : bool) (scanout_va : Z) (mem : Z -> Z) : Z * bool * Z :=
  if s5l8900 && (w1_framebuffer_base =? 0) then (win2, gather, scanout_va)
  else
    match xlate with
    | Some f =>
        let va := w1_framebuffer_base in
        let pa := f mem va in
        let size := u32 (pw * ph * 4) in
        let gather := (pa =? NO_ADDR) || gather_loop f (pages size) mem va pa (0x1000 - Z.land va 0xfff) size in
        (if gather then va else u32 pa, gather, va)
    | None => (w1_framebuffer_base, gather, scanout_va)
    end.
