(* ===== verification/DartFacts.v ===== *)
(** * Transfers through the translation units

    A transfer goes through its unit once a page; the theorems compare it with a
    translation of every byte.  What they need of a unit is that it moves pages
    as a whole ([linear_on]), which both units do ([dart30_linear],
    [dart20_linear]) except where the S5L8920's meets an invalid entry
    ([dart20_invalid_entry]). *)

From Stdlib Require Import ZArith Lia.
From stdpp Require Import base numbers list.
From S2P Require Import Prelude CLib HwLib Dart.
Local Open Scope Z_scope.

(** ** Pages *)

Lemma land_fff x : Z.land x 0xfff = x mod 4096.
Proof. change 0xfff with (Z.ones 12). by rewrite Z.land_ones by lia. Qed.

Lemma ldiff_fff x : Z.ldiff x 0xfff = x - x mod 4096.
Proof.
  change 0xfff with (Z.ones 12). rewrite Z.ldiff_ones_r, Z.shiftl_mul_pow2, Z.shiftr_div_pow2 by lia. change (2 ^ 12) with 4096.
  Z.div_mod_to_equations; lia.
Qed.

Lemma u32_add_idemp a b : u32 (u32 a + b) = u32 (a + b).
Proof. unfold u32. apply Zplus_mod_idemp_l. Qed.

Lemma u32_page a : u32 a mod 4096 = a mod 4096.
Proof.
  unfold u32. pose proof (Z.div_mod a 4294967296 ltac:(lia)) as E. rewrite E at 2.
  replace (4294967296 * (a / 4294967296)) with (a / 4294967296 * 1048576 * 4096) by lia. by rewrite Z.add_comm, Z.mod_add by lia.
Qed.

Lemma page_part_spec va len : page_part va len = Z.min len (4096 - va mod 4096).
Proof. unfold page_part. by rewrite land_fff. Qed.

Section Bytewise.
Variable xlate : translation.
Implicit Types mem : Z -> Z.

(** The byte at a bus address, if it has a translation. *)
Definition bus_byte mem (va : Z) : option Z :=
  let pa := xlate mem va in if pa =? NO_ADDR then None else Some (mem pa).

Definition bus_bytes mem (va len : Z) : list (option Z) :=
  (fun i => bus_byte mem (u32 (va + Z.of_nat i))) <$> seq 0 (Z.to_nat len).

(** Within a page, the translation of an address decides those after it. *)
Definition linear_on mem (va len : Z) : Prop :=
  forall i j, 0 <= i -> 0 <= j -> i + j < len -> (va + i) mod 4096 + j < 4096 ->
    let pa := xlate mem (u32 (va + i)) in
    (pa = NO_ADDR /\ xlate mem (u32 (va + i + j)) = NO_ADDR) \/
    (xlate mem (u32 (va + i + j)) = pa + j /\ pa < NO_ADDR /\ pa + j < NO_ADDR).

Lemma linear_tail mem va len n : linear_on mem va len -> 0 <= n -> linear_on mem (u32 (va + n)) (len - n).
Proof.
  intros L Hn i j Hi Hj Hl Hp. specialize (L (n + i) j). rewrite !Z.add_assoc in L.
  rewrite <- (Z.add_assoc (u32 (va + n))), !u32_add_idemp, Z.add_assoc.
  rewrite <- Zplus_mod_idemp_l, u32_page, Zplus_mod_idemp_l in Hp. apply L; lia.
Qed.

Lemma bus_bytes_split mem va n m : 0 <= n -> 0 <= m -> bus_bytes mem va (n + m) = bus_bytes mem va n ++ bus_bytes mem (u32 (va + n)) m.
Proof.
  intros Hn Hm. unfold bus_bytes. rewrite Z2Nat.inj_add by lia. rewrite seq_app, fmap_app. f_equal. cbn [Nat.add].
  replace (seq (Z.to_nat n) (Z.to_nat m)) with (Nat.add (Z.to_nat n) <$> seq 0 (Z.to_nat m)) by (rewrite fmap_add_seq; f_equal; lia).
  rewrite <- list_fmap_compose. apply list_fmap_ext. intros i x _. unfold compose.
  rewrite u32_add_idemp. do 2 f_equal. lia.
Qed.

(** One page. *)
Lemma bus_bytes_page mem va len : linear_on mem va len -> 0 <= len -> va mod 4096 + len <= 4096 ->
  bus_bytes mem va len = if xlate mem (u32 va) =? NO_ADDR then replicate (Z.to_nat len) None
                         else Some <$> phys_read mem (xlate mem (u32 va)) len.
Proof.
  intros L Hl Hp. assert (E : forall i, (i < Z.to_nat len)%nat -> bus_byte mem (u32 (va + Z.of_nat i)) =
    if xlate mem (u32 va) =? NO_ADDR then None else Some (mem (xlate mem (u32 va) + Z.of_nat i))).
  { intros i Hi. specialize (L 0 (Z.of_nat i)). rewrite Z.add_0_r in L. specialize (L ltac:(lia) ltac:(lia) ltac:(lia) ltac:(lia)).
    unfold bus_byte. cbv zeta in *. destruct L as [[-> ->]|(-> & Hn & Hm)]; [done|].
    by rewrite !(proj2 (Z.eqb_neq _ _)) by lia. }
  unfold bus_bytes, phys_read. apply list_eq. intros i. rewrite list_lookup_fmap. destruct (decide (i < Z.to_nat len)%nat) as [Hi|Hi].
  - rewrite lookup_seq_lt by done. cbn [fmap option_fmap option_map Nat.add]. rewrite E by done. destruct (_ =? _).
    + by rewrite lookup_replicate_2.
    + rewrite !list_lookup_fmap, lookup_seq_lt by done. done.
  - rewrite lookup_seq_ge by lia. cbn. symmetry. apply lookup_ge_None_2. destruct (_ =? _); rewrite ?length_replicate, ?length_fmap, ?length_seq; lia.
Qed.

(** ** Reads *)

(** The loops shorten the range by a page, or by its rest, in every turn. *)
Definition enough (fuel : nat) (va len : Z) : Prop := len <= 4096 * Z.of_nat fuel - va mod 4096.

Lemma enough_pages va len : 0 <= len -> enough (pages len) va len.
Proof. intros H. unfold enough, pages. pose proof (Z.mod_pos_bound va 4096). change 0x1000 with 4096. Z.div_mod_to_equations; lia. Qed.

Lemma enough_next fuel va len : 0 <= len -> enough (S fuel) va len ->
  0 <= page_part va len <= len /\ va mod 4096 + page_part va len <= 4096 /\ (0 < len -> 0 < page_part va len) /\
  (len - page_part va len = 0 \/ enough fuel (u32 (va + page_part va len)) (len - page_part va len)).
Proof.
  intros Hl He. unfold enough in *. rewrite page_part_spec. pose proof (Z.mod_pos_bound va 4096 ltac:(lia)) as Hm.
  split; [lia|]. split; [lia|]. split; [lia|]. destruct (decide (len <= 4096 - va mod 4096)); [left; lia|right].
  rewrite u32_page, Z.min_r by lia. replace (va + (4096 - va mod 4096)) with (0 + (va / 4096 + 1) * 4096) by (Z.div_mod_to_equations; lia).
  rewrite Z.mod_add by lia. change (0 mod 4096) with 0. lia.
Qed.

Lemma fb_read_loop_0 fuel mem va : fb_read_loop xlate fuel mem va 0 = [].
Proof. by destruct fuel. Qed.

Lemma fb_read_loop_spec fuel mem va len : linear_on mem va len -> is_u32 va -> 0 <= len -> enough fuel va len ->
  fb_read_loop xlate fuel mem va len = default 0 <$> bus_bytes mem va len.
Proof.
  revert va len. induction fuel as [|fuel IH]; intros va len L Hv Hl He.
  { unfold enough in He. pose proof (Z.mod_pos_bound va 4096). by replace len with 0 by lia. }
  cbn [fb_read_loop]. destruct (Z.eqb_spec len 0) as [->|Hz]; [done|]. cbv zeta.
  destruct (enough_next fuel va len Hl He) as (Hn & Hp & H0 & Hr). set (n := page_part va len) in *.
  replace len with (n + (len - n)) at 2 by lia. rewrite bus_bytes_split by lia. rewrite fmap_app. f_equal.
  - rewrite bus_bytes_page, (u32_id va) by (done || lia || (intros i j ? ? ? ?; apply L; lia)). destruct (_ =? _).
    + by rewrite fmap_replicate.
    + rewrite <- list_fmap_compose. symmetry. rewrite <- (list_fmap_id (phys_read _ _ _)) at 2. by apply list_fmap_ext.
  - destruct Hr as [->|Hr]; [by rewrite fb_read_loop_0|]. apply IH; [apply linear_tail; [done|lia]|apply u32_is_u32|lia|done].
Qed.

Lemma lcd_read_loop_fb fuel mem addr off len : 0 <= off <= len ->
  lcd_read_loop xlate fuel mem addr off len = fb_read_loop xlate fuel mem (u32 (addr + off)) (len - off).
Proof.
  revert off. induction fuel as [|fuel IH]; intros off Ho; cbn [lcd_read_loop fb_read_loop]; [done|].
  destruct (Z.ltb_spec off len), (Z.eqb_spec (len - off) 0); try lia; [|done]. cbv zeta. rewrite (Z.min_comm (0x1000 - _)).
  change (Z.min (len - off) (0x1000 - Z.land (u32 (addr + off)) 0xfff)) with (page_part (u32 (addr + off)) (len - off)).
  set (k := page_part _ _). assert (0 <= k <= len - off).
  { unfold k. rewrite page_part_spec. pose proof (Z.mod_pos_bound (u32 (addr + off)) 4096). lia. }
  rewrite IH by lia. rewrite u32_add_idemp. do 2 f_equal; [f_equal|]; lia.
Qed.

(** A read that stops: the bytes before the first one without a translation. *)
Lemma read_bus_loop_spec fuel mem va len : linear_on mem va len -> is_u32 va -> 0 <= len -> enough fuel va len ->
  let '(ok, bs) := read_bus_loop xlate fuel mem va len in
  exists rest, bus_bytes mem va len = (Some <$> bs) ++ rest /\ (if ok then rest = [] else head rest = Some None).
Proof.
  revert va len. induction fuel as [|fuel IH]; intros va len L Hv Hl He.
  { unfold enough in He. pose proof (Z.mod_pos_bound va 4096). replace len with 0 by lia. by exists []. }
  cbn [read_bus_loop]. destruct (Z.eqb_spec len 0) as [->|Hz]; [by exists []|]. cbv zeta.
  destruct (enough_next fuel va len Hl He) as (Hn & Hp & H0 & Hr). set (n := page_part va len) in *.
  assert (E : bus_bytes mem va len = bus_bytes mem va n ++ bus_bytes mem (u32 (va + n)) (len - n))
    by (rewrite <- bus_bytes_split by lia; f_equal; lia).
  rewrite (bus_bytes_page mem va n), (u32_id va) in E by (done || lia || (intros i j ? ? ? ?; apply L; lia)).
  destruct (xlate mem va =? NO_ADDR).
  - rewrite E. eexists. split; [done|]. replace (Z.to_nat n) with (S (Z.to_nat (n - 1))) by lia. done.
  - assert (IH' : let '(ok, bs) := read_bus_loop xlate fuel mem (u32 (va + n)) (len - n) in
      exists rest, bus_bytes mem (u32 (va + n)) (len - n) = (Some <$> bs) ++ rest /\ (if ok then rest = [] else head rest = Some None)).
    { destruct Hr as [->|Hr]; [destruct fuel; by exists []|].
      apply IH; [apply linear_tail; [done|lia]|apply u32_is_u32|lia|done]. }
    destruct (read_bus_loop _ _ _ _ _) as [ok bs]. destruct IH' as (rest & E' & Hrest). exists rest. rewrite E, E', fmap_app, app_assoc. done.
Qed.

(** ** Contiguous frames *)

Lemma gather_loop_pages fuel mem va pa off size : gather_loop xlate fuel mem va pa off size = false ->
  0 <= off -> size <= off + 4096 * Z.of_nat fuel ->
  forall k, 0 <= k -> off + 4096 * k < size -> xlate mem (u32 (va + (off + 4096 * k))) = pa + (off + 4096 * k).
Proof.
  revert off. induction fuel as [|fuel IH]; intros off G Ho Hf k Hk Hs; [lia|]. cbn [gather_loop] in G.
  rewrite (proj2 (Z.ltb_lt _ _)) in G by lia. destruct (Z.eqb_spec (xlate mem (u32 (va + off))) (pa + off)) as [E|]; [|done].
  destruct (decide (k = 0)) as [->|Hz]; [by rewrite Z.mul_0_r, Z.add_0_r|].
  specialize (IH (off + 4096) G ltac:(lia) ltac:(lia) (k - 1) ltac:(lia) ltac:(lia)).
  by replace (off + 4096 + 4096 * (k - 1)) with (off + 4096 * k) in IH by lia.
Qed.

Lemma linear_step mem va len k j : linear_on mem va len -> 0 <= k -> 0 <= j -> k + j < len -> (va + k) mod 4096 + j < 4096 ->
  xlate mem (u32 (va + k)) <> NO_ADDR -> xlate mem (u32 (va + (k + j))) = xlate mem (u32 (va + k)) + j.
Proof.
  intros L Hk Hj Hl Hp Hn. destruct (L k j Hk Hj Hl Hp) as [[? _]|[E _]]; [done|]. by rewrite Z.add_assoc.
Qed.

(** Where the loop finds no page out of place, every byte is in place. *)
Lemma contiguous mem va size i : linear_on mem va size -> is_u32 va -> xlate mem va + size <= NO_ADDR ->
  gather_loop xlate (pages size) mem va (xlate mem va) (0x1000 - Z.land va 0xfff) size = false -> 0 <= i < size ->
  xlate mem (u32 (va + i)) = xlate mem va + i.
Proof.
  intros L Hv Hn G Hi. rewrite land_fff in G. change 0x1000 with 4096 in G.
  set (off := 4096 - va mod 4096) in *. pose proof (Z.mod_pos_bound va 4096 ltac:(lia)).
  destruct (decide (i < off)) as [Hlt|Hge].
  - pose proof (linear_step mem va size 0 i L) as E. rewrite Z.add_0_r, Z.add_0_l, (u32_id va) in E by done.
    apply E; unfold off in *; lia.
  - pose proof (Z.div_mod (i - off) 4096 ltac:(lia)) as Ei. pose proof (Z.mod_pos_bound (i - off) 4096 ltac:(lia)) as Hj.
    pose proof (Z.div_pos (i - off) 4096 ltac:(lia) ltac:(lia)) as Hk.
    set (k := (i - off) / 4096) in *. set (j := (i - off) mod 4096) in *.
    assert (Ek : xlate mem (u32 (va + (off + 4096 * k))) = xlate mem va + (off + 4096 * k)).
    { apply (gather_loop_pages (pages size) mem va (xlate mem va) off size G); try lia. unfold pages. change 0x1000 with 4096.
      assert (0 < off) as Hoff by (unfold off; lia). clear -Hi Hoff. Z.div_mod_to_equations; lia. }
    replace i with (off + 4096 * k + j) by lia. rewrite (linear_step mem va size _ _ L); rewrite ?Ek; try lia.
    replace (va + (off + 4096 * k)) with (0 + (va / 4096 + 1 + k) * 4096) by (unfold off; clear; Z.div_mod_to_equations; lia).
    rewrite Z.mod_add by lia. change (0 mod 4096) with 0. lia.
Qed.

(** A frame found contiguous is read the same from its base. *)
Lemma contiguous_read mem va size : linear_on mem va size -> is_u32 va -> 0 <= size -> xlate mem va + size <= NO_ADDR ->
  gather_loop xlate (pages size) mem va (xlate mem va) (0x1000 - Z.land va 0xfff) size = false ->
  lcd_bus_read (Some xlate) mem va size = phys_read mem (xlate mem va) size.
Proof.
  intros L Hv Hs Hn G. unfold lcd_bus_read. rewrite lcd_read_loop_fb, Z.add_0_r, Z.sub_0_r, (u32_id va) by (done || lia).
  rewrite fb_read_loop_spec by (done || by apply enough_pages). unfold bus_bytes, phys_read. rewrite <- list_fmap_compose.
  apply list_fmap_ext. intros i x Hx. apply lookup_seq in Hx as [-> Hx]. unfold compose, bus_byte. cbn [Nat.add].
  rewrite (contiguous mem va size (Z.of_nat i)) by (done || lia). by rewrite (proj2 (Z.eqb_neq _ _)) by lia.
Qed.

(** ** Writes *)

Section Write.
Variables (mem : Z -> Z) (va : Z) (buf : bytes).

(** Where the bytes go. *)
Definition target (i : Z) : Z := xlate mem (u32 (va + i)).

Hypothesis Hv : is_u32 va.
Hypothesis linear : linear_on mem va (zlen buf).
Hypothesis mapped : forall i, 0 <= i < zlen buf -> target i <> NO_ADDR.
Hypothesis apart : forall i j, 0 <= i < zlen buf -> 0 <= j < zlen buf -> target i = target j -> i = j.
Hypothesis stable : forall mem', (forall x, (forall i, 0 <= i < zlen buf -> target i <> x) -> mem' x = mem x) ->
  forall i, 0 <= i < zlen buf -> xlate mem' (u32 (va + i)) = target i.

(** The first [k] bytes are written. *)
Definition written (k : Z) (m : Z -> Z) : Prop :=
  (forall i, 0 <= i < k -> m (target i) = rd buf i) /\
  (forall x, (forall i, 0 <= i < zlen buf -> target i <> x) -> m x = mem x).

Lemma write_page k n m : written k m -> 0 <= k -> 0 < n -> k + n <= zlen buf -> (va + k) mod 4096 + n <= 4096 ->
  written (k + n) (phys_write m (target k) (ztake n (zdrop k buf))).
Proof.
  intros [Wd Wo] Hk Hn Hl Hp. assert (Hz : zlen (ztake n (zdrop k buf)) = n) by (autorewrite with zlen; lia).
  assert (T : forall j, 0 <= j < n -> target (k + j) = target k + j).
  { intros j Hj. apply (linear_step mem va (zlen buf) k j linear); try lia. apply mapped. lia. }
  split.
  - intros i Hi. unfold phys_write. rewrite Hz. destruct (decide (i < k)) as [Hik|Hik].
    + destruct (_ && _) eqn:E; [|apply Wd; lia]. bool_hyps. exfalso.
      assert (i = k + (target i - target k)); [|lia]. apply apart; try lia. rewrite T by lia. lia.
    + replace i with (k + (i - k)) by lia. rewrite T by lia. rewrite (proj2 (Z.leb_le _ _)), (proj2 (Z.ltb_lt _ _)) by lia. cbn [andb].
      rewrite rd_ztake, rd_zdrop by lia. f_equal. lia.
  - intros x Hx. unfold phys_write. rewrite Hz. destruct (_ && _) eqn:E; [|by apply Wo]. bool_hyps. exfalso.
    apply (Hx (k + (x - target k))); [lia|]. rewrite T by lia. lia.
Qed.

Lemma write_bus_loop_spec fuel k m : written k m -> 0 <= k <= zlen buf -> enough fuel (u32 (va + k)) (zlen buf - k) ->
  exists m', write_bus_loop xlate fuel (u32 (va + k)) (zdrop k buf) m = (true, m') /\ written (zlen buf) m'.
Proof.
  revert k m. induction fuel as [|fuel IH]; intros k m W Hk He.
  { unfold enough in He. pose proof (Z.mod_pos_bound (u32 (va + k)) 4096). exists m. split; [done|]. by replace (zlen buf) with k by lia. }
  assert (Hz : zlen (zdrop k buf) = zlen buf - k) by (autorewrite with zlen; lia). cbn [write_bus_loop]. rewrite Hz.
  destruct (Z.eqb_spec (zlen buf - k) 0) as [Hd|Hd]; [exists m; split; [done|by replace (zlen buf) with k by lia]|]. cbv zeta.
  destruct (enough_next fuel (u32 (va + k)) (zlen buf - k) ltac:(lia) He) as (Hn & Hp & H0 & Hr). set (n := page_part _ _) in *.
  rewrite (stable m (proj2 W)) by lia. rewrite (proj2 (Z.eqb_neq _ _)) by (apply mapped; lia).
  rewrite u32_page in Hp. assert (W' := write_page k n m W ltac:(lia) ltac:(lia) ltac:(lia) Hp).
  rewrite u32_add_idemp, <- Z.add_assoc. replace (zdrop n (zdrop k buf)) with (zdrop (k + n) buf)
    by (unfold zdrop; rewrite drop_drop; f_equal; lia).
  destruct Hr as [Hr|Hr].
  - assert (En : zdrop (k + n) buf = []).
    { pose proof (zlen_zdrop (k + n) buf) as Lz. unfold zlen at 1 in Lz. apply length_zero_iff_nil. lia. }
    exists (phys_write m (target k) (ztake n (zdrop k buf))). replace (zlen buf) with (k + n) by lia. split; [|done].
    rewrite En. by destruct fuel.
  - apply IH; [done|lia|]. rewrite u32_add_idemp, <- Z.add_assoc in Hr. by replace (zlen buf - (k + n)) with (zlen buf - k - n) by lia.
Qed.

(** The same bytes are there for a reader whose translation leads to them. *)
Lemma written_read m xl vb : written (zlen buf) m ->
  (forall i, 0 <= i < zlen buf -> xl m (u32 (vb + i)) = target i) ->
  (fun i => let pa := xl m (u32 (vb + Z.of_nat i)) in if pa =? NO_ADDR then None else Some (m pa)) <$> seq 0 (Z.to_nat (zlen buf)) =
  Some <$> (buf : list Z).
Proof.
  intros [Wd _] E. apply list_eq. intros i. rewrite !list_lookup_fmap. destruct (decide (i < length buf)%nat) as [Hi|Hi].
  - rewrite lookup_seq_lt by (unfold zlen; lia). cbn [fmap option_fmap option_map Nat.add]. cbv zeta.
    rewrite E by (unfold zlen; lia). rewrite (proj2 (Z.eqb_neq _ _)) by (apply mapped; unfold zlen; lia).
    rewrite Wd by (unfold zlen; lia). unfold rd. rewrite Nat2Z.id. by destruct (lookup_lt_is_Some_2 buf i Hi) as [v ->].
  - rewrite lookup_seq_ge by (unfold zlen; lia). by rewrite lookup_ge_None_2 by lia.
Qed.

Lemma write_bus_spec : exists m, write_bus_loop xlate (pages (zlen buf)) va buf mem = (true, m) /\ written (zlen buf) m.
Proof.
  pose proof (zlen_nonneg buf). destruct (write_bus_loop_spec (pages (zlen buf)) 0 mem) as (m & E & W).
  - split; [intros; lia|done].
  - lia.
  - rewrite Z.add_0_r, (u32_id va), Z.sub_0_r by done. by apply enough_pages.
  - rewrite Z.add_0_r, (u32_id va) in E by done. eauto.
Qed.

End Write.

(** A range without gaps is read whole. *)
Lemma read_bus_all mem va len (bs : bytes) : linear_on mem va len -> is_u32 va -> 0 <= len ->
  bus_bytes mem va len = Some <$> bs -> read_bus_loop xlate (pages len) mem va len = (true, bs).
Proof.
  intros L Hv Hl E. pose proof (read_bus_loop_spec (pages len) mem va len L Hv Hl (enough_pages va len Hl)) as S.
  destruct (read_bus_loop _ _ _ _ _) as [ok r]. destruct S as (rest & E' & Hr). rewrite E in E'.
  assert (Forall is_Some ((Some <$> r) ++ rest)) as F.
  { rewrite <- E'. apply Forall_fmap, Forall_true. intros x. by eexists. }
  destruct ok.
  - subst. rewrite app_nil_r in E'. by apply (inj (fmap (M:=list) Some)) in E' as ->.
  - exfalso. apply Forall_app in F as [_ F]. destruct rest as [|o rest]; [done|]. cbn in Hr. injection Hr as ->.
    apply Forall_cons in F as [[x ?] _]. done.
Qed.

End Bytewise.

(** ** The units *)

Lemma same_page a j : 0 <= a -> 0 <= j -> a mod 4096 + j < 4096 ->
  (a + j) / 4096 = a / 4096 /\ (a + j) / 4194304 = a / 4194304 /\ (a + j) mod 4096 = a mod 4096 + j /\
  (a < 4294967296 -> a + j < 4294967296).
Proof. intros. repeat split; intros; Z.div_mod_to_equations; lia. Qed.

(** A page lies on one side of a limit that is a multiple of its size. *)
Lemma page_below a j c : 0 <= j -> a mod 4096 + j < 4096 -> (a + j <? 4096 * c) = (a <? 4096 * c).
Proof.
  intros Hj Hp. destruct (Z.ltb_spec a (4096 * c)), (Z.ltb_spec (a + j) (4096 * c)); try lia; try done.
  exfalso. Z.div_mod_to_equations; lia.
Qed.

Lemma ldl_le_u32 mem a : (forall x, is_byte (mem x)) -> is_u32 (ldl_le mem a).
Proof.
  intros B. unfold ldl_le, ld_le32, is_u32.
  assert (R : forall i, is_byte (rd (phys_read mem a 4) i)).
  { intros i. apply rd_is_byte. unfold phys_read. apply Forall_fmap, Forall_true. intros x. apply B. }
  pose proof (R 0). pose proof (R (0 + 1)). pose proof (R (0 + 2)). pose proof (R (0 + 3)). unfold is_byte in *. lia.
Qed.

Lemma ldl_le_ext mem mem' a : (forall b, 0 <= b < 4 -> mem' (a + b) = mem (a + b)) -> ldl_le mem' a = ldl_le mem a.
Proof. intros E. unfold ldl_le. f_equal. apply phys_read_ext. intros x Hx. replace x with (a + (x - a)) by lia. apply E. lia. Qed.

Lemma pte_address pte va : Z.lor (Z.ldiff pte 0xfff) (Z.land va 0xfff) = pte - pte mod 4096 + va mod 4096.
Proof.
  rewrite lor_add, ldiff_fff, land_fff; [done|]. apply Z.bits_inj'. intros n Hn.
  rewrite Z.land_spec, Z.ldiff_spec, Z.land_spec, Z.bits_0. destruct (Z.testbit 0xfff n); by rewrite ?andb_false_r.
Qed.

Lemma dart30_linear d sid mem va len : (forall x, is_byte (mem x)) ->
  linear_on (fun mem => s5l8930_dart_xlate mem d sid) mem va len.
Proof.
  intros B i j Hi Hj Hl Hp pa. unfold pa. clear pa. rewrite <- (u32_add_idemp (va + i) j). rewrite <- u32_page in Hp.
  pose proof (u32_is_u32 (va + i)) as Ha. set (a := u32 (va + i)) in *. unfold is_u32 in Ha.
  destruct (same_page a j) as (E1 & E2 & E3 & E4); [lia..|]. rewrite (u32_id (a + j)) by (unfold is_u32; lia).
  unfold s5l8930_dart_xlate. destruct (_ <=? sid); [by left|]. cbv zeta. rewrite !Z.shiftr_div_pow2 by lia.
  change (2 ^ 22) with 4194304. change (2 ^ 12) with 4096. rewrite E1, E2. set (ste := Z.ldiff _ _).
  destruct (ste =? 0); [right; unfold NO_ADDR; lia|].
  set (pte := ldl_le _ _). assert (Hpte : is_u32 pte) by by apply ldl_le_u32. destruct (Z.land pte 1 =? 0); [by left|]. right.
  rewrite !pte_address, E3. unfold is_u32, NO_ADDR in *. pose proof (Z.mod_pos_bound pte 4096). pose proof (Z.mod_pos_bound a 4096).
  lia.
Qed.

Lemma pa_mask v : 0 <= Z.land v DART_PA_MASK < 268435456.
Proof.
  change DART_PA_MASK with (Z.ldiff (Z.ones 28) 0xfff).
  assert (E : Z.land v (Z.ldiff (Z.ones 28) 0xfff) = Z.ldiff (Z.land v (Z.ones 28)) 0xfff).
  { apply Z.bits_inj'. intros n Hn. rewrite Z.land_spec, !Z.ldiff_spec, Z.land_spec. by rewrite andb_assoc. }
  rewrite E, ldiff_fff, Z.land_ones by lia. pose proof (Z.mod_pos_bound v (2 ^ 28) ltac:(lia)) as Hv. change (2 ^ 28) with 268435456 in *.
  set (w := v mod 268435456) in *. pose proof (Z.mod_pos_bound w 4096). pose proof (Z.mod_le w 4096). lia.
Qed.

(** The older unit: an entry that is invalid gives the address of 32 ones for
    every offset; elsewhere it moves pages. *)
Lemma dart20_linear s sid mem va len : (forall i, 0 <= i < len -> s5l8920_dart_xlate mem s (u32 (va + i)) sid <> ALL_ONES32) ->
  linear_on (fun mem va => s5l8920_dart_xlate mem s va sid) mem va len.
Proof.
  intros Hv i j Hi Hj Hl Hp pa. specialize (Hv i ltac:(lia)). unfold pa. clear pa.
  rewrite <- (u32_add_idemp (va + i) j). rewrite <- u32_page in Hp.
  pose proof (u32_is_u32 (va + i)) as Ha. set (a := u32 (va + i)) in *. unfold is_u32 in Ha.
  destruct (same_page a j) as (_ & _ & E3 & E4); [lia..|]. rewrite (u32_id (a + j)) by (unfold is_u32; lia).
  revert Hv. unfold s5l8920_dart_xlate. cbv zeta. destruct (negb _); cbn [orb]; [intros _; right; unfold NO_ADDR; lia|].
  assert (Ew : (a + j <? DART_WINDOW) = (a <? DART_WINDOW)) by (apply (page_below a j 245760); lia).
  rewrite Ew. destruct (Z.ltb_spec a DART_WINDOW) as [_|Hw]; [intros _; right; unfold NO_ADDR; lia|].
  unfold DART_WINDOW in *. rewrite !(u32_id (_ - _)) by (unfold is_u32; lia). replace (a + j - 0x3c000000) with (a - 0x3c000000 + j) by lia.
  assert (Ho : (a - 0x3c000000) mod 4096 + j < 4096).
  { replace (a - 0x3c000000) with (a + (-245760) * 4096) by lia. by rewrite Z.mod_add by lia. }
  destruct (same_page (a - 0x3c000000) j) as (F1 & F2 & _); [lia..|].
  change (u32 (Z.shiftl DART_SEGS DART_SEG_SHIFT)) with 67108864. change DART_SEG_SHIFT with 22.
  assert (El : (67108864 <=? a - 0x3c000000 + j) = (67108864 <=? a - 0x3c000000))
    by (rewrite !Z.leb_antisym; f_equal; apply (page_below _ j 16384); lia).
  rewrite El. destruct (67108864 <=? a - 0x3c000000); [intros _; left; split; reflexivity|]. rewrite !Z.shiftr_div_pow2 by lia.
  change (2 ^ 22) with 4194304. change (2 ^ 12) with 4096. rewrite F1, F2. destruct (_ =? 0); [intros _; by left|].
  set (pte := ldl_le _ _). destruct (Z.land pte 1 =? 0); [done|]. intros _. right. rewrite !land_fff, E3. pose proof (pa_mask pte).
  pose proof (Z.mod_pos_bound a 4096). unfold DART_DRAM, NO_ADDR. rewrite !u32_id by (unfold is_u32; lia). lia.
Qed.

(** An invalid entry in a valid table of the older unit is not reported: the
    translation is the address of 32 ones instead of "none", and the scaler's
    read goes on, successful, with what is there. *)
Theorem dart20_invalid_entry s sid mem va :
  flagged (rd (d20_regs s) (DART_CONFIG / 4)) DART_CONFIG_ENABLE = true ->
  DART_WINDOW <= va < DART_WINDOW + 67108864 ->
  let ste := rd (d20_ste s) ((va - DART_WINDOW) / 4194304) in
  Z.land ste 1 <> 0 ->
  Z.land (ldl_le mem (DART_DRAM + Z.land ste DART_PA_MASK + (va - DART_WINDOW) / 4096 mod 1024 * 4)) 1 = 0 ->
  s5l8920_dart_xlate mem s va sid = ALL_ONES32 /\ ALL_ONES32 <> NO_ADDR /\
  scaler_read_bus (Some (fun mem va => s5l8920_dart_xlate mem s va sid)) mem va 1 = (true, [mem ALL_ONES32]).
Proof.
  intros He Hw ste Hs Hp. assert (X : s5l8920_dart_xlate mem s va sid = ALL_ONES32).
  { unfold s5l8920_dart_xlate. rewrite He. unfold DART_WINDOW in *. rewrite (proj2 (Z.ltb_ge _ _)) by lia. cbn [negb orb]. cbv zeta.
    rewrite !(u32_id (va - _)) by (unfold is_u32; lia). change (u32 (Z.shiftl DART_SEGS DART_SEG_SHIFT)) with 67108864.
    rewrite (proj2 (Z.leb_gt _ _)) by lia. change DART_SEG_SHIFT with 22. rewrite !Z.shiftr_div_pow2 by lia.
    change (2 ^ 22) with 4194304. change (2 ^ 12) with 4096. fold ste. rewrite (proj2 (Z.eqb_neq _ _)) by done.
    change 0x3ff with (Z.ones 10). rewrite Z.land_ones by lia. change (2 ^ 10) with 1024. pose proof (pa_mask ste).
    pose proof (Z.mod_pos_bound ((va - 0x3c000000) / 4096) 1024). rewrite (u32_id (DART_DRAM + _ + _)) by (unfold is_u32, DART_DRAM; lia).
    by rewrite Hp. }
  split; [done|]. split; [done|]. unfold scaler_read_bus. change (pages 1) with 2%nat. cbn [read_bus_loop Z.eqb]. cbv zeta.
  unfold scaler_pa. rewrite X. change (ALL_ONES32 =? NO_ADDR) with false. cbv iota.
  assert (En : page_part va 1 = 1) by (rewrite page_part_spec; pose proof (Z.mod_pos_bound va 4096); lia). by rewrite En.
Qed.

(** ** Programming a segment, and two clients of a unit *)

(** The driver's two writes that set a segment's table. *)
Definition dart30_set_segment (sid seg table : Z) (d : S5L8930Dart) : S5L8930Dart :=
  dart30_write DART_TLB_OP (seg * 4194304 + sid * 256 + 5) (dart30_write DART_DATA table d).

Record dart30_wf (d : S5L8930Dart) : Prop := {
  dw_regs : zlen (d30_regs d) = 2048;
  dw_sids : zlen (d30_ste d) = 4;
  dw_segs : Forall (fun l => zlen l = 64) (d30_ste d);
}.

Lemma segment_op seg sid : 0 <= seg < 64 -> 0 <= sid < 4 ->
  let op := seg * 4194304 + sid * 256 + 5 in
  Z.land (Z.shiftr op 8) 0xf = sid /\ Z.land (Z.shiftr op 22) 0x3f = seg /\ Z.land op 0xf = 5.
Proof.
  intros Hs Hd op. unfold op. change 0xf with (Z.ones 4). change 0x3f with (Z.ones 6). rewrite !Z.land_ones, !Z.shiftr_div_pow2 by lia.
  change (2 ^ 8) with 256. change (2 ^ 22) with 4194304. change (2 ^ 4) with 16. change (2 ^ 6) with 64.
  repeat split; Z.div_mod_to_equations; lia.
Qed.

(** The two writes set that segment's table and no other. *)
Lemma dart30_segment sid seg table d sid' seg' : dart30_wf d -> 0 <= sid < 4 -> 0 <= seg < 64 -> is_u32 table ->
  0 <= sid' -> 0 <= seg' ->
  ste_at (dart30_set_segment sid seg table d) sid' seg' =
  if (sid' =? sid) && (seg' =? seg) then table else ste_at d sid' seg'.
Proof.
  intros [Wr Ws Wg] Hd Hs Ht Hd' Hs'. unfold dart30_set_segment. set (d1 := dart30_write DART_DATA table d).
  destruct (segment_op seg sid Hs Hd) as (E1 & E2 & E3). cbv zeta in *.
  unfold dart30_write at 1. cbv zeta. rewrite E1, E2, E3, Z.eqb_refl. rewrite (proj2 (Z.leb_gt _ _)) by (unfold S5L8930_DART_SIDS; lia).
  change (5 =? 5) with true. cbv iota.
  assert (Et : rd (d30_regs d1) (DART_DATA / 4) = table).
  { change (d30_regs d1) with (wr (d30_regs d) (DART_DATA / 4) (u32 table)). rewrite rd_wr_at by (rewrite ?Wr; done).
    by rewrite Z.eqb_refl, u32_id. }
  rewrite Et. unfold ste_at. change (d30_ste (?x <| d30_ste ::= ?f |>)) with (f (d30_ste x)). cbv beta. change (d30_ste d1) with (d30_ste d).
  destruct (Z.eqb_spec sid' sid) as [->|Hne]; cbn [andb]; [|by rewrite list_lookup_alter_ne by lia].
  rewrite list_lookup_alter_eq. destruct (lookup_lt_is_Some_2 (d30_ste d) (Z.to_nat sid)) as [l El]; [unfold zlen in Ws; lia|].
  rewrite El. cbn [fmap option_fmap option_map from_option]. unfold id. rewrite Forall_lookup in Wg. by rewrite rd_wr_at by (rewrite ?(Wg _ _ El); lia).
Qed.

(** Where a stream's entry for an address is in memory, when its segment has a
    table. *)
Definition pte_at (d : S5L8930Dart) (sid va : Z) : option Z :=
  let ste := Z.ldiff (ste_at d sid (Z.shiftr va 22 mod S5L8930_DART_SEGS)) 0xfff in
  if ste =? 0 then None else Some (u32 (ste + Z.land (Z.shiftr va 12) 0x3ff * 4)).

(** A translation depends on its entry alone. *)
Lemma dart30_stable d sid mem mem' va :
  (forall a b, pte_at d sid va = Some a -> 0 <= b < 4 -> mem' (a + b) = mem (a + b)) ->
  s5l8930_dart_xlate mem' d sid va = s5l8930_dart_xlate mem d sid va.
Proof.
  intros E. unfold s5l8930_dart_xlate, pte_at in *. cbv zeta in *. destruct (_ <=? sid); [done|].
  destruct (_ =? 0); [done|]. rewrite (ldl_le_ext mem mem'); [done|]. intros b Hb. by apply E.
Qed.

Lemma phys_write_bytes mem a l : (forall x, is_byte (mem x)) -> is_bytes l -> forall x, is_byte (phys_write mem a l x).
Proof. intros B Bl x. unfold phys_write. destruct (_ && _); [by apply rd_is_byte|apply B]. Qed.

Lemma write_bus_loop_bytes xl fuel va buf mem : (forall x, is_byte (mem x)) -> is_bytes buf ->
  forall x, is_byte ((write_bus_loop xl fuel va buf mem).2 x).
Proof.
  revert va buf mem. induction fuel as [|fuel IH]; intros va buf mem B Bb x; cbn [write_bus_loop]; [apply B|].
  destruct (_ =? 0); [apply B|]. cbv zeta. destruct (_ =? _); [apply B|].
  apply IH; [apply phys_write_bytes; [done|by apply is_bytes_take]|by apply is_bytes_drop].
Qed.

Lemma fb_read_all d mem va (bs : bytes) : (forall x, is_byte (mem x)) -> is_u32 va ->
  bus_bytes (fun mem => dart_xlate mem d) mem va (zlen bs) = Some <$> bs -> fb_read d mem va (zlen bs) = bs.
Proof.
  intros B Hv E. pose proof (zlen_nonneg bs). unfold fb_read.
  rewrite fb_read_loop_spec; [|by apply (dart30_linear d 0)|done|done|by apply enough_pages].
  rewrite E, <- list_fmap_compose. rewrite <- (list_fmap_id bs) at 2. by apply list_fmap_ext.
Qed.

(** C31. A transfer the scaler writes and the display shows, one contiguous range of
    addresses (the scaler makes one for each row): the scaler writes through its
    stream of the display's unit, a page at a time, and the display reads through
    stream 0.  If both streams lead to the same bytes of memory, which are
    distinct and hold no entry that either stream uses, then the display reads
    the bytes as they were written, so does the scaler, and no other byte of
    memory changed. *)
Theorem dart30_scaled_frame d sid va vb buf mem :
  let scaler m va := s5l8930_dart2_xlate m d va sid in
  let there i := scaler mem (u32 (va + i)) in
  let len := zlen buf in
  (forall x, is_byte (mem x)) -> is_bytes buf -> 0 <= sid < S5L8930_DART_SIDS -> is_u32 va -> is_u32 vb ->
  (forall i, 0 <= i < len -> there i <> NO_ADDR /\ dart_xlate mem d (u32 (vb + i)) = there i) ->
  (forall i j, 0 <= i < len -> 0 <= j < len -> there i = there j -> i = j) ->
  (forall i j a b, 0 <= i < len -> 0 <= j < len -> 0 <= b < 4 ->
     pte_at d sid (u32 (va + i)) = Some a \/ pte_at d 0 (u32 (vb + i)) = Some a -> there j <> a + b) ->
  exists mem', scaler_write_bus (Some scaler) va buf mem = (true, mem') /\
    fb_read d mem' vb len = buf /\
    scaler_read_bus (Some scaler) mem' va len = (true, buf) /\
    (forall x, (forall i, 0 <= i < len -> there i <> x) -> mem' x = mem x).
Proof.
  intros scaler there len B Bb Hsid Hva Hvb Hm Ha Ht.
  assert (Es : forall m x, scaler m x = s5l8930_dart_xlate m d sid x).
  { intros m x. unfold scaler, s5l8930_dart2_xlate. by rewrite (proj2 (Z.ltb_lt _ _)) by lia. }
  assert (Lin : forall m v n, (forall x, is_byte (m x)) -> linear_on scaler m v n).
  { intros m v n Bm i j. rewrite !Es. by apply dart30_linear. }
  assert (S1 : forall m, (forall x, (forall i, 0 <= i < len -> there i <> x) -> m x = mem x) ->
    forall i, 0 <= i < len -> scaler m (u32 (va + i)) = there i).
  { intros m E i Hi. unfold there. rewrite !Es. apply dart30_stable. intros a b Hp Hb. apply E. intros j Hj. by apply (Ht i j); auto. }
  assert (S2 : forall m, (forall x, (forall i, 0 <= i < len -> there i <> x) -> m x = mem x) ->
    forall i, 0 <= i < len -> dart_xlate m d (u32 (vb + i)) = there i).
  { intros m E i Hi. rewrite <- (proj2 (Hm i Hi)). apply dart30_stable. intros a b Hp Hb. apply E. intros j Hj. by apply (Ht i j); auto. }
  destruct (write_bus_spec scaler mem va buf Hva (Lin _ _ _ B) (fun i Hi => proj1 (Hm i Hi)) Ha S1) as (m & E & W).
  exists m. split; [exact E|].
  assert (Bm : forall x, is_byte (m x)) by (intros x; pose proof (write_bus_loop_bytes scaler (pages len) va buf mem B Bb x) as Bx; fold len in E; by rewrite E in Bx).
  pose proof (written_read scaler mem va buf (fun i Hi => proj1 (Hm i Hi)) m) as R.
  split; [apply fb_read_all; [done|done|exact (R (fun m => dart_xlate m d) vb W (S2 m (proj2 W)))]|].
  split; [|apply W]. apply read_bus_all; [by apply Lin|done|apply zlen_nonneg|exact (R scaler va W (S1 m (proj2 W)))].
Qed.

Lemma dart20_invalid_entry_witness :
  let s := mkDart20 [0; 0; 0; DART_CONFIG_ENABLE] [1] in
  let mem (_ : Z) := 0 in
  s5l8920_dart_xlate mem s 0x3c001000 0 = ALL_ONES32 /\ ALL_ONES32 <> NO_ADDR /\
  scaler_read_bus (Some (fun mem va => s5l8920_dart_xlate mem s va 0)) mem 0x3c001000 1 = (true, [0]).
Proof.
  refine (dart20_invalid_entry (mkDart20 [0; 0; 0; DART_CONFIG_ENABLE] [1]) 0 (fun _ => 0) 0x3c001000 _ _ _ _).
  - reflexivity.
  - vm_compute. split; [discriminate|reflexivity].
  - discriminate.
  - reflexivity.
Defined.

(** Two streams whose tables put the same two pages, out of order, at different
    bus addresses. *)
Definition ex_mem : Z -> Z :=
  phys_write (phys_write (fun _ => 0) 0x5040 (le32 0x8001 ++ le32 0x7001)) 0x6080 (le32 0x8001 ++ le32 0x7001).
Definition ex_dart : S5L8930Dart := dart30_set_segment 2 0 0x5000 (dart30_set_segment 0 0 0x6000 s5l8930_dart_reset).

Lemma dart30_scaled_frame_witness :
  let scaler m va := s5l8930_dart2_xlate m ex_dart va 2 in
  exists mem', scaler_write_bus (Some scaler) 0x10ffe [1; 2; 3] ex_mem = (true, mem') /\
    fb_read ex_dart mem' 0x20ffe 3 = [1; 2; 3] /\
    scaler_read_bus (Some scaler) mem' 0x10ffe 3 = (true, [1; 2; 3]) /\
    (forall x, (forall i, 0 <= i < 3 -> scaler ex_mem (u32 (0x10ffe + i)) <> x) -> mem' x = ex_mem x).
Proof.
  assert (C : forall i, 0 <= i < 3 -> i = 0 \/ i = 1 \/ i = 2) by lia.
  refine (dart30_scaled_frame ex_dart 2 0x10ffe 0x20ffe [1; 2; 3] ex_mem _ _ _ _ _ _ _ _).
  - intros x. apply phys_write_bytes; [apply phys_write_bytes; [done|]|]; apply is_bytes_app; split; apply le32_bytes.
  - repeat constructor; vm_compute; discriminate || reflexivity.
  - vm_compute. split; [discriminate|reflexivity].
  - vm_compute. split; [discriminate|reflexivity].
  - vm_compute. split; [discriminate|reflexivity].
  - intros i Hi. destruct (C i Hi) as [->|[->| ->]]; vm_compute; split; discriminate || reflexivity.
  - intros i j Hi Hj. destruct (C i Hi) as [->|[->| ->]], (C j Hj) as [->|[->| ->]]; vm_compute; discriminate || reflexivity.
  - intros i j a b Hi Hj Hb. destruct (C i Hi) as [->|[->| ->]], (C j Hj) as [->|[->| ->]];
      intros [E|E]; vm_compute in E; injection E as <-;
      match goal with |- ?l <> _ => let v := eval vm_compute in l in replace l with v by (vm_compute; reflexivity) end; lia.
Defined.
