(* ===== verification/Fmc.v ===== *)
(** * NAND image store and flash controller

    [src/hw/arm/nand-image.c] keeps the chips of a NAND flash in one file each,
    every record stored as its difference from the blank record;
    [src/hw/arm/s5l8900_fmc.c] is the controller of the iPod touch 1G, whose pages
    are in such a store or in a directory of page files under a writable overlay.

    A chip's file is a function from offsets to bytes.  A call of the host that can
    fail and changes something takes its outcome from a schedule, which succeeds
    when it has run out; a failed write leaves anything in its range.  A page file
    that exists can be read. *)

From Stdlib Require Import ZArith Lia String.
From stdpp Require Import base numbers list gmap.
From S2P Require Import Prelude CLib HwLib.
Local Open Scope Z_scope.

(** ** Outcomes of the host's calls *)

Inductive Host := HOk | HFail (errno : positive) (found : bytes).

Definition EINVAL : Z := 22.

(** ** The image store *)

Record NANDImageGeometry := mkGeo {
  geo_chips : Z;
  geo_page_bytes : Z;
  geo_spare_bytes : Z;
  geo_pages_per_block : Z;
  geo_blocks_per_chip : Z
}.

#[global] Instance geo_eq_dec : EqDecision NANDImageGeometry.
Proof. solve_decision. Defined.

(** [ni_unreadable] has the errors of the reads that fail, [ni_failed] is the latch
    [nand_image_failed]. *)
Record NANDImage := mkImage {
  ni_chip : Z -> Z -> Z;
  ni_unreadable : Z -> Z -> option positive;
  ni_geo : NANDImageGeometry;
  ni_stride : Z;
  ni_blank : bytes;
  ni_failed : bool
}.

Definition eta_image (r : NANDImage) : NANDImage :=
  mkImage (ni_chip r) (ni_unreadable r) (ni_geo r) (ni_stride r) (ni_blank r) (ni_failed r).
#[global] Instance upd_ni_chip : Upd ni_chip := ltac:(derive_upd eta_image ni_chip).
#[global] Instance upd_ni_failed : Upd ni_failed := ltac:(derive_upd eta_image ni_failed).

Definition nand_image_blank (name : option bytes) (page_bytes spare_bytes : Z) : option bytes :=
  if bool_decide (name = Some (str "ff")) then Some (replicate (Z.to_nat (page_bytes + spare_bytes)) 0xff)
  else if bool_decide (name = Some (str "n72-generated")) && (12 <=? spare_bytes) then
    Some (st_le32 (replicate (Z.to_nat (page_bytes + spare_bytes)) 0) (page_bytes + 8) 0x00ff00ff)
  else None.

(** What [geometry.json] says; the numbers are in the order of the model's. *)
Record Store := mkStore { st_format : option bytes; st_geometry : option NANDImageGeometry; st_blank : option bytes }.

Definition NAND_IMAGE_FORMAT : bytes := str "nand-xor-blank-v2".
Definition NAND_IMAGE_MAX_CHIPS : Z := 8.

Definition nand_image_is_store (g : option Store) : bool :=
  match g with Some g => bool_decide (st_format g = Some NAND_IMAGE_FORMAT) | None => false end.

(** [files] has the chips' files that could be opened. *)
Definition nand_image_open (g : option Store) (files : Z -> option (Z -> Z)) (unreadable : Z -> Z -> option positive)
  (geo : NANDImageGeometry) : option NANDImage :=
  match g with
  | None => None
  | Some g =>
      if negb (bool_decide (st_format g = Some NAND_IMAGE_FORMAT)) then None
      else if negb (bool_decide (st_geometry g = Some geo)) then None
      else if NAND_IMAGE_MAX_CHIPS <? geo_chips geo then None
      else
        match nand_image_blank (st_blank g) (geo_page_bytes geo) (geo_spare_bytes geo) with
        | None => None
        | Some blank =>
            if forallb (fun i => bool_decide (is_Some (files i))) (seqZ 0 (geo_chips geo)) then
              Some (mkImage (fun i => default (fun _ => 0) (files i)) unreadable geo (geo_page_bytes geo + geo_spare_bytes geo) blank false)
            else None
        end
  end.

Definition nand_image_bad (n : NANDImage) (chip page : Z) : bool :=
  (geo_chips (ni_geo n) <=? chip) || (geo_blocks_per_chip (ni_geo n) <=? page / geo_pages_per_block (ni_geo n)).

Definition nand_image_xor (n : NANDImage) (l : bytes) : bytes := zip_with Z.lxor l (ni_blank n).

(** An error, or the record. *)
Definition nand_image_read (n : NANDImage) (chip page : Z) : Z + bytes :=
  if nand_image_bad n chip page then inl (- EINVAL)
  else
    match ni_unreadable n chip page with
    | Some errno => inl (Zneg errno)
    | None => inr (nand_image_xor n (phys_read (ni_chip n chip) (page * ni_stride n) (ni_stride n)))
    end.

Definition set_chip (chip : Z) (f : Z -> Z) (n : NANDImage) : NANDImage :=
  n <| ni_chip ::= fun c i => if i =? chip then f else c i |>.

Definition nand_image_write (ans : Host) (chip page : Z) (record : bytes) (n : NANDImage) : Z * NANDImage :=
  if nand_image_bad n chip page then (- EINVAL, n)
  else
    let put l := set_chip chip (phys_write (ni_chip n chip) (page * ni_stride n) l) n in
    match ans with
    | HOk => (0, put (nand_image_xor n record))
    | HFail errno found => (Zneg errno, (put (ztake (ni_stride n) found)) <| ni_failed := true |>)
    end.

Definition nand_image_erase (ans : Host) (chip block : Z) (n : NANDImage) : Z * NANDImage :=
  let ppb := geo_pages_per_block (ni_geo n) in
  let first := block * ppb in
  if (0xffffffff <? first) || nand_image_bad n chip first then (- EINVAL, n)
  else
    let size := ppb * ni_stride n in
    let put l := set_chip chip (phys_write (ni_chip n chip) (first * ni_stride n) l) n in
    match ans with
    | HOk => (0, put (replicate (Z.to_nat size) 0))
    | HFail errno found => (Zneg errno, (put (ztake size found)) <| ni_failed := true |>)
    end.

(** The flush of every chip when the machine stops. *)
Definition nand_image_vm_state (running : bool) (answers : Z -> Host) (n : NANDImage) : NANDImage :=
  if running then n
  else n <| ni_failed ::= fun b => b || existsb (fun i => match answers i with HOk => false | HFail _ _ => true end) (seqZ 0 (geo_chips (ni_geo n))) |>.

(** ** The controller *)

Definition FMC_NUM_BANKS : Z := 8.
Definition FMC_BYTES_PER_PAGE : Z := 2048.
Definition FMC_BYTES_PER_SPARE : Z := 64.
Definition FMC_META_BYTES : Z := 12.
Definition FMC_PAGES_PER_BLOCK : Z := 128.
Definition FMC_BLOCKS_PER_BANK : Z := 4096.
Definition FMC_PROGRAM_PAD : Z := 16.
Definition FMC_CHIP_ID : Z := 0xA514D3AD.
Definition FMC_MAX_LIST : Z := 512.
Definition FMC_FMCTRL0 : Z := 0x0.
Definition FMC_FMCTRL1 : Z := 0x4.
Definition FMC_CMD : Z := 0x8.
Definition FMC_FMADDR0 : Z := 0xC.
Definition FMC_FMADDR1 : Z := 0x10.
Definition FMC_FMANUM : Z := 0x2C.
Definition FMC_FMDNUM : Z := 0x30.
Definition FMC_FMCSTAT : Z := 0x48.
Definition FMC_FMFIFO : Z := 0x80.
Definition FMC_RSCTRL : Z := 0x100.
Definition FMC_CMD_ID : Z := 0x90.
Definition FMC_CMD_READ : Z := 0x30.
Definition FMC_CMD_READSTATUS : Z := 0x70.

(** The writable directory: page files by bank and page, markers of erased blocks
    by bank and block. *)
Record Overlay := mkOverlay { ov_pages : gmap (Z * Z) bytes; ov_erased : gset (Z * Z) }.

Definition eta_overlay (r : Overlay) : Overlay := mkOverlay (ov_pages r) (ov_erased r).
#[global] Instance upd_ov_pages : Upd ov_pages := ltac:(derive_upd eta_overlay ov_pages).
#[global] Instance upd_ov_erased : Upd ov_erased := ltac:(derive_upd eta_overlay ov_erased).

(** [fm_prog_spares] is the array of metadata blocks as one string, [fm_base] the
    files of the read-only directory, [fm_host] the outcomes of the host's calls. *)
Record S5L8900FMCState := mkFmc {
  fm_fmctrl0 : Z;
  fm_fmctrl1 : Z;
  fm_fmaddr0 : Z;
  fm_fmaddr1 : Z;
  fm_fmanum : Z;
  fm_fmdnum : Z;
  fm_rsctrl : Z;
  fm_cmd : Z;
  fm_reading_spare : bool;
  fm_page_buffer : bytes;
  fm_page_spare_buffer : bytes;
  fm_buffered_bank : Z;
  fm_buffered_page : Z;
  fm_reading_multiple_pages : bool;
  fm_cur_bank_reading : Z;
  fm_banks_to_read : list Z;
  fm_pages_to_read : list Z;
  fm_is_writing : bool;
  fm_prog_count : Z;
  fm_prog_index : Z;
  fm_prog_pad : Z;
  fm_prog_spares : bytes;
  fm_base : option (gmap (Z * Z) bytes);
  fm_overlay : option Overlay;
  fm_banks : Z;
  fm_image : option NANDImage;
  fm_host : list Host
}.

Definition eta_fmc (r : S5L8900FMCState) : S5L8900FMCState :=
  mkFmc (fm_fmctrl0 r) (fm_fmctrl1 r) (fm_fmaddr0 r) (fm_fmaddr1 r) (fm_fmanum r) (fm_fmdnum r) (fm_rsctrl r)
    (fm_cmd r) (fm_reading_spare r) (fm_page_buffer r) (fm_page_spare_buffer r) (fm_buffered_bank r)
    (fm_buffered_page r) (fm_reading_multiple_pages r) (fm_cur_bank_reading r) (fm_banks_to_read r)
    (fm_pages_to_read r) (fm_is_writing r) (fm_prog_count r) (fm_prog_index r) (fm_prog_pad r) (fm_prog_spares r)
    (fm_base r) (fm_overlay r) (fm_banks r) (fm_image r) (fm_host r).
#[global] Instance upd_fm_fmctrl0 : Upd fm_fmctrl0 := ltac:(derive_upd eta_fmc fm_fmctrl0).
#[global] Instance upd_fm_fmctrl1 : Upd fm_fmctrl1 := ltac:(derive_upd eta_fmc fm_fmctrl1).
#[global] Instance upd_fm_fmaddr0 : Upd fm_fmaddr0 := ltac:(derive_upd eta_fmc fm_fmaddr0).
#[global] Instance upd_fm_fmaddr1 : Upd fm_fmaddr1 := ltac:(derive_upd eta_fmc fm_fmaddr1).
#[global] Instance upd_fm_fmanum : Upd fm_fmanum := ltac:(derive_upd eta_fmc fm_fmanum).
#[global] Instance upd_fm_fmdnum : Upd fm_fmdnum := ltac:(derive_upd eta_fmc fm_fmdnum).
#[global] Instance upd_fm_rsctrl : Upd fm_rsctrl := ltac:(derive_upd eta_fmc fm_rsctrl).
#[global] Instance upd_fm_cmd : Upd fm_cmd := ltac:(derive_upd eta_fmc fm_cmd).
#[global] Instance upd_fm_reading_spare : Upd fm_reading_spare := ltac:(derive_upd eta_fmc fm_reading_spare).
#[global] Instance upd_fm_page_buffer : Upd fm_page_buffer := ltac:(derive_upd eta_fmc fm_page_buffer).
#[global] Instance upd_fm_page_spare_buffer : Upd fm_page_spare_buffer := ltac:(derive_upd eta_fmc fm_page_spare_buffer).
#[global] Instance upd_fm_buffered_bank : Upd fm_buffered_bank := ltac:(derive_upd eta_fmc fm_buffered_bank).
#[global] Instance upd_fm_buffered_page : Upd fm_buffered_page := ltac:(derive_upd eta_fmc fm_buffered_page).
#[global] Instance upd_fm_reading_multiple_pages : Upd fm_reading_multiple_pages := ltac:(derive_upd eta_fmc fm_reading_multiple_pages).
#[global] Instance upd_fm_cur_bank_reading : Upd fm_cur_bank_reading := ltac:(derive_upd eta_fmc fm_cur_bank_reading).
#[global] Instance upd_fm_banks_to_read : Upd fm_banks_to_read := ltac:(derive_upd eta_fmc fm_banks_to_read).
#[global] Instance upd_fm_pages_to_read : Upd fm_pages_to_read := ltac:(derive_upd eta_fmc fm_pages_to_read).
#[global] Instance upd_fm_is_writing : Upd fm_is_writing := ltac:(derive_upd eta_fmc fm_is_writing).
#[global] Instance upd_fm_prog_count : Upd fm_prog_count := ltac:(derive_upd eta_fmc fm_prog_count).
#[global] Instance upd_fm_prog_index : Upd fm_prog_index := ltac:(derive_upd eta_fmc fm_prog_index).
#[global] Instance upd_fm_prog_pad : Upd fm_prog_pad := ltac:(derive_upd eta_fmc fm_prog_pad).
#[global] Instance upd_fm_prog_spares : Upd fm_prog_spares := ltac:(derive_upd eta_fmc fm_prog_spares).
#[global] Instance upd_fm_base : Upd fm_base := ltac:(derive_upd eta_fmc fm_base).
#[global] Instance upd_fm_overlay : Upd fm_overlay := ltac:(derive_upd eta_fmc fm_overlay).
#[global] Instance upd_fm_image : Upd fm_image := ltac:(derive_upd eta_fmc fm_image).
#[global] Instance upd_fm_host : Upd fm_host := ltac:(derive_upd eta_fmc fm_host).

Abbreviation FmcS := S5L8900FMCState.

Definition next_host (s : FmcS) : Host * FmcS :=
  match fm_host s with
  | [] => (HOk, s)
  | a :: l => (a, s <| fm_host := l |>)
  end.

(** The lowest selected bank, or -1. *)
Definition fmc_active_bank (s : FmcS) : Z :=
  let bank_bitmap := Z.land (Z.shiftr (fm_fmctrl0 s) 1) 0xff in
  default (-1) (head (filter (fun bank => flagged bank_bitmap (Z.shiftl 1 bank) = true) (seqZ 0 FMC_NUM_BANKS))).

Definition s5l8900_fmc_set_bank (bank : Z) (s : FmcS) : FmcS :=
  let s := s <| fm_fmctrl0 ::= fun v => Z.ldiff v (Z.shiftl 0xff 1) |> in
  if bank <? FMC_NUM_BANKS then s <| fm_fmctrl0 ::= fun v => Z.lor v (Z.shiftl 1 (bank + 1)) |> else s.

(** ** The page store *)

(** The two reads of a page file; a short one leaves the end of the buffers. *)
Definition fmc_read_file (file : option bytes) (data spare : bytes) : option (bytes * bytes) :=
  match file with
  | None => None
  | Some f =>
      let d := ztake FMC_BYTES_PER_PAGE f in
      let p := ztake FMC_BYTES_PER_SPARE (zdrop FMC_BYTES_PER_PAGE f) in
      Some (d ++ zdrop (zlen d) data, p ++ zdrop (zlen p) spare)
  end.

Definition fmc_all_ones (b : bytes) : bool := forallb (fun x => x =? 0xff) b.

Definition s5l8900_fmc_page_erased (data spare : bytes) : bool := fmc_all_ones data && fmc_all_ones spare.

Definition fmc_erased_page : bytes * bytes :=
  (replicate (Z.to_nat FMC_BYTES_PER_PAGE) 0xff, replicate (Z.to_nat FMC_BYTES_PER_SPARE) 0xff).

(** What the page and the spare hold afterwards, from what was in the buffers. *)
Definition s5l8900_fmc_load_page (s : FmcS) (bank page : Z) (data spare : bytes) : bytes * bytes :=
  match fm_image s with
  | Some n =>
      match nand_image_read n bank page with
      | inl _ => fmc_erased_page
      | inr record => (ztake FMC_BYTES_PER_PAGE record, ztake FMC_BYTES_PER_SPARE (zdrop FMC_BYTES_PER_PAGE record))
      end
  | None =>
      let from_base :=
        match fm_base s with
        | Some files => default fmc_erased_page (fmc_read_file (files !! (bank, page)) data spare)
        | None => fmc_erased_page
        end in
      match fm_overlay s with
      | Some o =>
          match fmc_read_file (ov_pages o !! (bank, page)) data spare with
          | Some r => r
          | None => if bool_decide ((bank, page / FMC_PAGES_PER_BLOCK) ∈ ov_erased o) then fmc_erased_page else from_base
          end
      | None => from_base
      end
  end.

Section Stack.

(** What the page and the spare that a function keeps on its stack hold at first. *)
Variable stack : bytes * bytes.

(** The write of a page file: the directory, the file, its content. *)
Definition write_page_file (bank page : Z) (content : bytes) (o : Overlay) (s : FmcS) : bool * FmcS :=
  let put l s := s <| fm_overlay := Some (o <| ov_pages ::= fun m => <[(bank, page) := l]> m |>) |> in
  match next_host s with
  | (HFail _ _, s) => (false, s)
  | (HOk, s) =>
      match next_host s with
      | (HFail _ _, s) => (false, s)
      | (HOk, s) =>
          match next_host s with
          | (HFail _ found, s) => (false, put found s)
          | (HOk, s) => (true, put content s)
          end
      end
  end.

Definition fmc_program_page (bank page : Z) (data spare : bytes) (s : FmcS) : bool * FmcS :=
  let s := s <| fm_buffered_page := -1 |> in
  let '(cell, cell_spare) := s5l8900_fmc_load_page s bank page stack.1 stack.2 in
  let record := zip_with Z.land cell data ++ zip_with Z.land cell_spare spare in
  match fm_image s, fm_overlay s with
  | None, None => (true, s)
  | Some n, _ =>
      let '(ans, s) := next_host s in
      let '(result, n) := nand_image_write ans bank page record n in
      (result =? 0, s <| fm_image := Some n |>)
  | None, Some o => write_page_file bank page record o s
  end.

(** The files of a block's pages go, until one cannot be removed. *)
Fixpoint erase_pages (fuel : nat) (bank p last : Z) (o : Overlay) (s : FmcS) : bool * Overlay * FmcS :=
  match fuel with
  | O => (true, o, s)
  | Datatypes.S fuel =>
      if p <? last then
        match ov_pages o !! (bank, p) with
        | None => erase_pages fuel bank (u32 (p + 1)) last o s
        | Some _ =>
            match next_host s with
            | (HOk, s) => erase_pages fuel bank (u32 (p + 1)) last (o <| ov_pages ::= delete (bank, p) |>) s
            | (HFail _ _, s) => (false, o, s)
            end
        end
      else (true, o, s)
  end.

Definition erase_overlay (bank block : Z) (o : Overlay) (s : FmcS) : bool * FmcS :=
  match next_host s with
  | (HFail _ _, s) => (false, s)
  | (HOk, s) =>
      let '(ok, o, s) := erase_pages (Z.to_nat FMC_PAGES_PER_BLOCK) bank (u32 (block * FMC_PAGES_PER_BLOCK))
                           (u32 ((block + 1) * FMC_PAGES_PER_BLOCK)) o s in
      let s := s <| fm_overlay := Some o |> in
      if ok then
        match next_host s with
        | (HFail _ _, s) => (false, s)
        | (HOk, s) => (true, s <| fm_overlay := Some (o <| ov_erased ::= fun m => {[ (bank, block) ]} ∪ m |>) |>)
        end
      else (false, s)
  end.

Definition s5l8900_fmc_erase_block (bank block : Z) (s : FmcS) : bool * FmcS :=
  let s := s <| fm_buffered_page := -1 |> in
  match fm_image s, fm_overlay s with
  | Some n, _ =>
      let '(ans, s) := next_host s in
      let '(result, n) := nand_image_erase ans bank block n in
      (result =? 0, s <| fm_image := Some n |>)
  | None, None => (true, s)
  | None, Some o => erase_overlay bank block o s
  end.

Definition s5l8900_fmc_start_program (count : Z) (s : FmcS) : FmcS :=
  s <| fm_reading_multiple_pages := false |> <| fm_prog_count := count |> <| fm_prog_index := 0 |> <| fm_prog_pad := 0 |>
    <| fm_fmdnum := FMC_BYTES_PER_PAGE |> <| fm_is_writing := 0 <? count |>.

Definition s5l8900_fmc_buffer_page (page : Z) (s : FmcS) : FmcS :=
  let bank := fmc_active_bank s in
  if bank <? 0 then s
  else if negb (bank =? fm_buffered_bank s) || negb (s32 page =? fm_buffered_page s) then
    let '(data, spare) := s5l8900_fmc_load_page s bank page (fm_page_buffer s) (fm_page_spare_buffer s) in
    s <| fm_page_buffer := data |> <| fm_page_spare_buffer := spare |> <| fm_buffered_page := s32 page |> <| fm_buffered_bank := bank |>
  else s.

(** ** Registers *)

Definition fmc_id (s : FmcS) : Z :=
  let bank := fmc_active_bank s in if (0 <=? bank) && (bank <? s32 (fm_banks s)) then FMC_CHIP_ID else 0.

(** The word of a queued page; [None] is an access past the end of the list. *)
Definition pop_listed (s : FmcS) : option (Z * FmcS) :=
  let page_offset := fm_fmdnum s mod FMC_BYTES_PER_PAGE in
  let page_offset := if page_offset =? 0 then FMC_BYTES_PER_PAGE else page_offset in
  let word s := ld_le32 (fm_page_buffer s) (4 * ((FMC_BYTES_PER_PAGE - page_offset) / 4)) in
  if 0 <=? fm_cur_bank_reading s then
    match zget (fm_pages_to_read s) (fm_cur_bank_reading s) with
    | None => None
    | Some page => let s := s5l8900_fmc_buffer_page page s in Some (word s, s)
    end
  else Some (word s, s).

Definition pop_single (s : FmcS) : Z * FmcS :=
  let page := Z.lor (u32 (Z.shiftl (fm_fmaddr1 s) 16)) (Z.shiftr (fm_fmaddr0 s) 16) in
  let s := s5l8900_fmc_buffer_page page s in
  let '(size, buffer) := if fm_reading_spare s then (FMC_BYTES_PER_SPARE, fm_page_spare_buffer s) else (FMC_BYTES_PER_PAGE, fm_page_buffer s) in
  let i := u32 (size - fm_fmdnum s - 1) / 4 in
  (if i <? size / 4 then ld_le32 buffer (4 * i) else 0, s).

Definition next_word (s : FmcS) : FmcS := s <| fm_fmdnum ::= fun n => u32 (n - 4) |>.

Definition fmc_fifo_pop (s : FmcS) : option (Z * FmcS) :=
  if fm_cmd s =? FMC_CMD_ID then Some (fmc_id s, s)
  else if fm_cmd s =? FMC_CMD_READSTATUS then Some (Z.shiftl 1 6, s)
  else if fm_reading_multiple_pages s then
    let fresh := fm_fmdnum s mod FMC_BYTES_PER_PAGE =? 0 in
    let s := if fresh then s <| fm_cur_bank_reading ::= fun c => c + 1 |> else s in
    if fresh && (FMC_MAX_LIST <=? fm_cur_bank_reading s) then Some (0, s)
    else
      let s := if fresh then s5l8900_fmc_set_bank (rd (fm_banks_to_read s) (fm_cur_bank_reading s)) s else s in
      match pop_listed s with
      | None => None
      | Some (v, s) => Some (v, next_word s)
      end
  else let '(v, s) := pop_single s in Some (v, next_word s).

Definition s5l8900_fmc_read (addr : Z) (s : FmcS) : option (Z * FmcS) :=
  if addr =? FMC_FMCTRL0 then Some (fm_fmctrl0 s, s)
  else if addr =? FMC_FMFIFO then fmc_fifo_pop s
  else if addr =? FMC_FMCSTAT then Some (0x1FFE, s)
  else if addr =? FMC_RSCTRL then Some (fm_rsctrl s, s)
  else Some (0, s).

(** The page buffer is full: the page is programmed. *)
Definition page_streamed (s : FmcS) : FmcS :=
  let i := fm_prog_index s in
  let s := s <| fm_prog_index := i + 1 |> in
  let meta := ztake FMC_META_BYTES (zdrop (FMC_META_BYTES * i) (fm_prog_spares s)) in
  let spare := blit (replicate (Z.to_nat FMC_BYTES_PER_SPARE) 0xff) 0 meta in
  let '(_, s) := fmc_program_page (rd (fm_banks_to_read s) i) (rd (fm_pages_to_read s) i) (fm_page_buffer s) spare s in
  s <| fm_fmdnum := FMC_BYTES_PER_PAGE |> <| fm_prog_pad := FMC_PROGRAM_PAD |>.

Definition fmc_fifo_push (val : Z) (s : FmcS) : FmcS :=
  if negb (fm_is_writing s) then s
  else if negb (fm_prog_pad s =? 0) then
    let s := s <| fm_prog_pad ::= fun n => u32 (n - 4) |> in
    if (fm_prog_pad s =? 0) && (fm_prog_index s =? fm_prog_count s) then s <| fm_is_writing := false |> else s
  else if (fm_fmdnum s =? 0) || (FMC_BYTES_PER_PAGE <? fm_fmdnum s) || negb (Z.land (fm_fmdnum s) 3 =? 0)
          || (Z.min (fm_prog_count s) FMC_MAX_LIST <=? fm_prog_index s) then s <| fm_is_writing := false |>
  else
    let s := s <| fm_page_buffer ::= fun b => st_le32 b (4 * ((FMC_BYTES_PER_PAGE - fm_fmdnum s) / 4)) val |> in
    let s := s <| fm_fmdnum ::= fun n => n - 4 |> in
    if fm_fmdnum s =? 0 then page_streamed s else s.

(** An access is of four bytes at most. *)
Definition s5l8900_fmc_write (addr val : Z) (s : FmcS) : FmcS :=
  if addr =? FMC_FMCTRL0 then s <| fm_fmctrl0 := val |>
  else if addr =? FMC_FMCTRL1 then s <| fm_fmctrl1 := val |>
  else if addr =? FMC_FMADDR0 then s <| fm_fmaddr0 := val |>
  else if addr =? FMC_FMADDR1 then s <| fm_fmaddr1 := val |>
  else if addr =? FMC_FMANUM then s <| fm_fmanum := val |>
  else if addr =? FMC_CMD then s <| fm_cmd := val |>
  else if addr =? FMC_FMDNUM then s <| fm_reading_spare := val =? FMC_BYTES_PER_SPARE - 1 |> <| fm_fmdnum := val |>
  else if addr =? FMC_FMFIFO then fmc_fifo_push val s
  else if addr =? FMC_RSCTRL then s <| fm_rsctrl := val |>
  else s.

End Stack.

(** ** Realize and reset *)

Definition fmc_geo (banks : Z) : NANDImageGeometry :=
  mkGeo banks FMC_BYTES_PER_PAGE FMC_BYTES_PER_SPARE FMC_PAGES_PER_BLOCK FMC_BLOCKS_PER_BANK.

(** [store] is what the directory of the [nand] property has; false is an error. *)
Definition s5l8900_fmc_realize (store : option Store) (files : Z -> option (Z -> Z)) (unreadable : Z -> Z -> option positive) (s : FmcS)
  : bool * FmcS :=
  if bool_decide (fm_base s = None) || negb (nand_image_is_store store) then (true, s)
  else if bool_decide (is_Some (fm_overlay s)) then (false, s)
  else
    let image := nand_image_open store files unreadable (fmc_geo (fm_banks s)) in
    (bool_decide (is_Some image), s <| fm_image := image |>).

Definition s5l8900_fmc_reset (s : FmcS) : FmcS :=
  s <| fm_fmctrl0 := 0 |> <| fm_fmctrl1 := 0 |> <| fm_fmaddr0 := 0 |> <| fm_fmaddr1 := 0 |> <| fm_fmanum := 0 |> <| fm_fmdnum := 0 |>
    <| fm_rsctrl := 0 |> <| fm_cmd := 0 |> <| fm_reading_spare := false |> <| fm_reading_multiple_pages := false |>
    <| fm_is_writing := false |> <| fm_prog_count := 0 |> <| fm_prog_index := 0 |> <| fm_prog_pad := 0 |>
    <| fm_cur_bank_reading := -1 |> <| fm_buffered_page := -1 |> <| fm_buffered_bank := -1 |>.
