(* ===== verification/Adm.v ===== *)
(** * The DMA front end of the flash controller

    [src/hw/arm/s5l8900_adm.c]: the flash driver puts a command block into guest
    memory and starts the front end, which queues the pages on the controller and
    exchanges their metadata with memory; and the error-correction block of
    [src/hw/arm/s5l8900_nand_ecc.c].  The memory the front end reaches is guest
    memory. *)

From Stdlib Require Import ZArith Lia.
From stdpp Require Import base numbers list.
From S2P Require Import Prelude CLib HwLib Fmc.
Local Open Scope Z_scope.

Definition ADM_CTRL : Z := 0x0.
Definition ADM_CTRL2 : Z := 0x4.
Definition ADM_CODE_SEC_ADDR : Z := 0x50.
Definition ADM_DATA1_SEC_ADDR : Z := 0x84.
Definition ADM_DATA2_SEC_ADDR : Z := 0x88.
Definition ADM_DATA3_SEC_ADDR : Z := 0x8C.
Definition ADM_RESULT : Z := 0x30.
Definition ADM_STATUS_CLEAN : Z := 0xFE.
Definition ADM_TF_V17 : Z := 0x1104.
Definition ADM_TF_V14 : Z := 0x824.
Definition ADM_CMD_OFFSET : Z := 0x24.
Definition ADM_CMD_NPAGES : Z := 0x28.
Definition ADM_CMD_CE : Z := 0x34.
Definition ADM_CMD_BANKS : Z := 0x44.
Definition ADM_CMD_READ_SEQ : Z := 0x200.
Definition ADM_CMD_READ : Z := 0x300.
Definition ADM_CMD_WRITE_SEQ : Z := 0x400.
Definition ADM_CMD_WRITE : Z := 0x500.
Definition ADM_CMD_ERASE : Z := 0x600.

(** ** The state *)

(** [am_irq] is the level of the interrupt line. *)
Record S5L8900ADMState := mkAdm {
  am_irq : bool;
  am_code_sec_addr : Z;
  am_data1_sec_addr : Z;
  am_data2_sec_addr : Z;
  am_data3_sec_addr : Z;
  am_result : list Z;
  am_tf : Z
}.

Definition eta_adm (r : S5L8900ADMState) : S5L8900ADMState :=
  mkAdm (am_irq r) (am_code_sec_addr r) (am_data1_sec_addr r) (am_data2_sec_addr r) (am_data3_sec_addr r) (am_result r) (am_tf r).
#[global] Instance upd_am_irq : Upd am_irq := ltac:(derive_upd eta_adm am_irq).
#[global] Instance upd_am_code_sec_addr : Upd am_code_sec_addr := ltac:(derive_upd eta_adm am_code_sec_addr).
#[global] Instance upd_am_data1_sec_addr : Upd am_data1_sec_addr := ltac:(derive_upd eta_adm am_data1_sec_addr).
#[global] Instance upd_am_data2_sec_addr : Upd am_data2_sec_addr := ltac:(derive_upd eta_adm am_data2_sec_addr).
#[global] Instance upd_am_data3_sec_addr : Upd am_data3_sec_addr := ltac:(derive_upd eta_adm am_data3_sec_addr).
#[global] Instance upd_am_result : Upd am_result := ltac:(derive_upd eta_adm am_result).
#[global] Instance upd_am_tf : Upd am_tf := ltac:(derive_upd eta_adm am_tf).

(** The front end with the controller the board connects, and guest memory. *)
Record Flash := mkFlash { fl_adm : S5L8900ADMState; fl_fmc : option S5L8900FMCState; fl_mem : Z -> Z }.

Definition eta_flash (r : Flash) : Flash := mkFlash (fl_adm r) (fl_fmc r) (fl_mem r).
#[global] Instance upd_fl_adm : Upd fl_adm := ltac:(derive_upd eta_flash fl_adm).
#[global] Instance upd_fl_fmc : Upd fl_fmc := ltac:(derive_upd eta_flash fl_fmc).
#[global] Instance upd_fl_mem : Upd fl_mem := ltac:(derive_upd eta_flash fl_mem).

(** ** The command block *)

Definition adm_read_be32 (mem : Z -> Z) (addr : Z) : Z := ld_be32 (phys_read mem addr 4) 0.
Definition adm_read_be16 (mem : Z -> Z) (addr : Z) : Z := Z.lor (Z.shiftl (mem addr) 8) (mem (addr + 1)).
Definition adm_read_u8 (mem : Z -> Z) (addr : Z) : Z := mem addr.

(** Whether the three section addresses follow the word at [o]. *)
Definition tf_at (s : S5L8900ADMState) (buf : bytes) (o : Z) : bool :=
  (ld_be32 buf (o + 4) =? am_data1_sec_addr s) && (ld_be32 buf (o + 8) =? am_data2_sec_addr s) && (ld_be32 buf (o + 12) =? am_data3_sec_addr s).

Definition tf_offsets : list Z := (fun i => 4 * i) <$> seqZ 0 2045.

Definition adm_find_tf (mem : Z -> Z) (s : S5L8900ADMState) : Z * S5L8900ADMState :=
  if negb (am_tf s =? 0) then (am_tf s, s)
  else
    let buf := phys_read mem (am_data2_sec_addr s) 0x2000 in
    match List.find (tf_at s buf) tf_offsets with
    | Some o => (o, s <| am_tf := o |>)
    | None => (ADM_TF_V17, s)
    end.

Definition adm_pages_off (s : S5L8900ADMState) : Z := ADM_CMD_BANKS + (if am_tf s =? ADM_TF_V14 then 0x400 else 0x200).

(** The first entries of an array are replaced. *)
Definition over {A} (new l : list A) : list A := new ++ zdrop (zlen new) l.

(** The lists of a command that goes over all banks, row after row. *)
Definition queue_rows (page nb n : Z) (f : S5L8900FMCState) : S5L8900FMCState :=
  f <| fm_pages_to_read ::= over ((fun i => u32 (page + i / nb)) <$> seqZ 0 n) |>
    <| fm_banks_to_read ::= over ((fun i => i mod nb) <$> seqZ 0 n) |>.

(** The lists of a scattered read. *)
Definition queue_list (mem : Z -> Z) (cmdblk pages n : Z) (f : S5L8900FMCState) : S5L8900FMCState :=
  f <| fm_pages_to_read ::= over ((fun i => adm_read_be32 mem (cmdblk + pages + 4 * i)) <$> seqZ 0 n) |>
    <| fm_banks_to_read ::= over ((fun i => adm_read_u8 mem (cmdblk + ADM_CMD_BANKS + i)) <$> seqZ 0 n) |>.

Section Stack.
Variable stack : bytes * bytes.

(** The spares of the queued pages, from the [i]-th on; a page that is read into
    the buffers keeps the end of the one before if its file is short. *)
Fixpoint report_loop (k : nat) (i : Z) (buffers : bytes * bytes) (data3 : Z) (f : S5L8900FMCState) (mem : Z -> Z) : Z -> Z :=
  match k with
  | O => mem
  | S k =>
      let buffers := s5l8900_fmc_load_page f (rd (fm_banks_to_read f) i) (rd (fm_pages_to_read f) i) buffers.1 buffers.2 in
      report_loop k (i + 1) buffers data3 f (phys_write mem (u32 (data3 + i * 0xC)) (ztake 0xC buffers.2))
  end.

Definition adm_report_spares (n data3 : Z) (f : S5L8900FMCState) (mem : Z -> Z) : Z -> Z :=
  report_loop (Z.to_nat n) 0 stack data3 f mem.

(** A read of several pages starts. *)
Definition start_reading (n : Z) (f : S5L8900FMCState) : S5L8900FMCState :=
  f <| fm_reading_multiple_pages := true |> <| fm_fmdnum := n * FMC_BYTES_PER_PAGE |> <| fm_cur_bank_reading := -1 |>.

(** A read of one page: the controller is left as the driver would program it, the
    whole spare goes to the third section, and a clean page is reported. *)
Definition read_single (bank page : Z) (s : S5L8900ADMState) (f : S5L8900FMCState) (mem : Z -> Z) : Flash :=
  let f := s5l8900_fmc_set_bank bank (f <| fm_reading_multiple_pages := false |>) in
  let f := f <| fm_fmdnum := FMC_BYTES_PER_PAGE - 1 |> <| fm_reading_spare := false |> <| fm_fmaddr0 := u32 (Z.shiftl page 16) |>
             <| fm_fmaddr1 := Z.land (Z.shiftr page 16) 0xff |> <| fm_cmd := FMC_CMD_READ |> in
  let f := s5l8900_fmc_buffer_page page f in
  let mem := phys_write mem (am_data3_sec_addr s) (fm_page_spare_buffer f) in
  let s := if s5l8900_fmc_page_erased (fm_page_buffer f) (fm_page_spare_buffer f) then s <| am_result ::= fun r => wr r 2 ADM_STATUS_CLEAN |> else s in
  mkFlash s (Some f) mem.

Definition adm_command (cmd num_pages cmdblk pages : Z) (s : S5L8900ADMState) (f : S5L8900FMCState) (mem : Z -> Z) : Flash :=
  let page := adm_read_be32 mem (cmdblk + pages) in
  let bank := adm_read_u8 mem (cmdblk + ADM_CMD_BANKS) in
  let data3 := am_data3_sec_addr s in
  let nb := fm_banks f in
  if cmd =? ADM_CMD_READ_SEQ then
    let f := start_reading num_pages (queue_rows page nb (num_pages / nb * nb) f) in
    mkFlash s (Some f) (adm_report_spares num_pages data3 f mem)
  else if cmd =? ADM_CMD_READ then
    if num_pages =? 1 then read_single bank page s f mem
    else if 1 <? num_pages then
      let f := start_reading num_pages (queue_list mem cmdblk pages num_pages f) in
      mkFlash s (Some f) (adm_report_spares num_pages data3 f mem)
    else mkFlash s (Some f) mem
  else if cmd =? ADM_CMD_WRITE_SEQ then
    let n := num_pages - num_pages mod nb in
    let f := queue_rows page nb n f in
    let f := f <| fm_prog_spares ::= over (phys_read mem data3 (n * FMC_META_BYTES)) |> in
    mkFlash s (Some (s5l8900_fmc_start_program n f)) mem
  else if cmd =? ADM_CMD_WRITE then
    let f := f <| fm_banks_to_read ::= over [bank] |> <| fm_pages_to_read ::= over [page] |>
               <| fm_prog_spares ::= over (phys_read mem data3 FMC_META_BYTES) |> in
    mkFlash s (Some (s5l8900_fmc_start_program 1 f)) mem
  else if cmd =? ADM_CMD_ERASE then
    let ce := adm_read_u8 mem (cmdblk + ADM_CMD_CE) in
    if ce <? FMC_NUM_BANKS then mkFlash s (Some (s5l8900_fmc_erase_block ce (page / FMC_PAGES_PER_BLOCK) f).2) mem
    else mkFlash s (Some f) mem
  else mkFlash s (Some f) mem.

Definition adm_run_command (w : Flash) : Flash :=
  let mem := fl_mem w in
  let '(tf, s) := adm_find_tf mem (fl_adm w) in
  let cmdblk := u32 (am_data2_sec_addr s + tf) in
  let pages := adm_pages_off s in
  let cmd := ld_le32 (phys_read mem (cmdblk + ADM_CMD_OFFSET) 4) 0 in
  let num_pages := adm_read_be16 mem (cmdblk + ADM_CMD_NPAGES) in
  match fl_fmc w with
  | None => w <| fl_adm := s |>
  | Some f =>
      let num_pages := if FMC_MAX_LIST <? num_pages then FMC_MAX_LIST else num_pages in
      adm_command cmd num_pages cmdblk pages (s <| am_result := [0; 0; 0; 0] |>) f mem
  end.

(** ** Registers *)

Definition s5l8900_adm_read (offset : Z) (s : S5L8900ADMState) : Z :=
  if offset =? ADM_CTRL then 0x2
  else if offset =? ADM_CTRL2 then 0x10
  else if (ADM_RESULT <=? offset) && (offset <=? ADM_RESULT + 0xC) then rd (am_result s) ((offset - ADM_RESULT) / 4)
  else 0.

(** Start-up: the firmware's report and the identifications of the banks. *)
Definition adm_startup (w : Flash) : Flash :=
  let id i := match fl_fmc w with Some f => if i <? s32 (fm_banks f) then FMC_CHIP_ID else 0 | None => 0 end in
  w <| fl_mem ::= fun mem =>
    phys_write (phys_write mem (am_data2_sec_addr (fl_adm w)) (le32 0x50)) (am_data3_sec_addr (fl_adm w)) (mjoin ((fun i => le32 (id i)) <$> seqZ 0 8)) |>.

Definition s5l8900_adm_write (offset value : Z) (w : Flash) : Flash :=
  if offset =? ADM_CTRL then if value =? 0x3 then adm_startup w else w
  else if offset =? ADM_CTRL2 then
    let w := if value =? 0x2 then (adm_run_command w) <| fl_adm; am_irq := true |> else w in
    if Z.land value 0x2 =? 0 then w <| fl_adm; am_irq := false |> else w
  else if offset =? ADM_CODE_SEC_ADDR then w <| fl_adm; am_code_sec_addr := value |>
  else if offset =? ADM_DATA1_SEC_ADDR then w <| fl_adm; am_data1_sec_addr := value |>
  else if offset =? ADM_DATA2_SEC_ADDR then w <| fl_adm ::= fun s => s <| am_data2_sec_addr := value |> <| am_tf := 0 |> |>
  else if offset =? ADM_DATA3_SEC_ADDR then w <| fl_adm; am_data3_sec_addr := value |>
  else w.

End Stack.

Definition s5l8900_adm_reset (s : S5L8900ADMState) : S5L8900ADMState :=
  s <| am_code_sec_addr := 0 |> <| am_data1_sec_addr := 0 |> <| am_data2_sec_addr := 0 |> <| am_data3_sec_addr := 0 |>
    <| am_tf := 0 |> <| am_irq := false |>.

(** ** The error-correction block *)

Definition NANDECC_DATA : Z := 0x4.
Definition NANDECC_ECC : Z := 0x8.
Definition NANDECC_START : Z := 0xC.
Definition NANDECC_SETUP : Z := 0x14.
Definition NANDECC_CLEARINT : Z := 0x40.

Record S5L8900NandECCState := mkEcc { ec_irq : bool; ec_data_addr : Z; ec_ecc_addr : Z; ec_setup : Z }.

Definition s5l8900_nand_ecc_read (addr : Z) (s : S5L8900NandECCState) : Z :=
  if addr =? NANDECC_DATA then ec_data_addr s
  else if addr =? NANDECC_ECC then ec_ecc_addr s
  else if addr =? NANDECC_SETUP then ec_setup s
  else 0.

Definition s5l8900_nand_ecc_write (addr val : Z) (s : S5L8900NandECCState) : S5L8900NandECCState :=
  if addr =? NANDECC_DATA then mkEcc (ec_irq s) val (ec_ecc_addr s) (ec_setup s)
  else if addr =? NANDECC_ECC then mkEcc (ec_irq s) (ec_data_addr s) val (ec_setup s)
  else if addr =? NANDECC_SETUP then mkEcc (ec_irq s) (ec_data_addr s) (ec_ecc_addr s) val
  else if addr =? NANDECC_START then mkEcc true (ec_data_addr s) (ec_ecc_addr s) (ec_setup s)
  else if addr =? NANDECC_CLEARINT then mkEcc false (ec_data_addr s) (ec_ecc_addr s) (ec_setup s)
  else s.

Definition s5l8900_nand_ecc_reset (s : S5L8900NandECCState) : S5L8900NandECCState := mkEcc false 0 0 0.
