(* ===== verification/NandFacts.v ===== *)
(** * The flash of the iPod touch 1G

    Whatever keeps the pages, an image or files, the controller's store is an array
    of records that programming can only clear bits of and that an erase sets, a
    block at a time ([nand_store_refines]).  Through the front end and the FIFO, a
    row of pages that was written is what is read ([nand_row_roundtrip]). *)

From Stdlib Require Import ZArith Lia String.
From stdpp Require Import base numbers list gmap.
From S2P Require Import Prelude CLib HwLib Fmc Adm.
Local Open Scope Z_scope.

(** ** The pages as the guest sees them *)

Definition RECORD : Z := FMC_BYTES_PER_PAGE + FMC_BYTES_PER_SPARE.

Definition record (l : bytes) : Prop := zlen l = RECORD /\ is_bytes l.

Definition erased_record : bytes := replicate (Z.to_nat RECORD) 0xff.

Definition flash (f : S5L8900FMCState) (bank page : Z) : bytes :=
  let '(data, spare) := s5l8900_fmc_load_page f bank page [] [] in data ++ spare.

Definition image_ok (banks : Z) (n : NANDImage) : Prop :=
  ni_geo n = fmc_geo banks /\ ni_stride n = RECORD /\ ni_blank n = erased_record /\
  (forall c x, is_byte (ni_chip n c x)) /\ (forall c p, ni_unreadable n c p = None).

Definition files_ok (m : gmap (Z * Z) bytes) : Prop := map_Forall (fun _ l => record l) m.

(** A store that can be written; all its records are whole. *)
Definition store_ok (f : S5L8900FMCState) : Prop :=
  1 <= fm_banks f <= FMC_NUM_BANKS /\
  match fm_image f with
  | Some n => image_ok (fm_banks f) n
  | None => exists o, fm_overlay f = Some o /\ files_ok (ov_pages o) /\ (forall m, fm_base f = Some m -> files_ok m)
  end.

(** A page of one of the chips. *)
Definition valid (f : S5L8900FMCState) (bank page : Z) : Prop :=
  0 <= bank < fm_banks f /\ 0 <= page < FMC_PAGES_PER_BLOCK * FMC_BLOCKS_PER_BANK.

Lemma record_erased : record erased_record.
Proof. split; [by vm_compute|]. apply Forall_replicate. unfold is_byte. lia. Qed.

Lemma erased_page_spec : fmc_erased_page = (ztake FMC_BYTES_PER_PAGE erased_record, zdrop FMC_BYTES_PER_PAGE erased_record).
Proof. by vm_compute. Qed.

Lemma halves l : record l -> ztake FMC_BYTES_PER_PAGE l ++ ztake FMC_BYTES_PER_SPARE (zdrop FMC_BYTES_PER_PAGE l) = l.
Proof. intros [H _]. rewrite ztake_split by (by vm_compute). by apply ztake_all; rewrite H. Qed.

Lemma second_half l : record l -> ztake FMC_BYTES_PER_SPARE (zdrop FMC_BYTES_PER_PAGE l) = zdrop FMC_BYTES_PER_PAGE l.
Proof. intros [H _]. apply ztake_all. rewrite zlen_zdrop, H. by vm_compute. Qed.

(** What a load gives does not depend on the buffers. *)
Definition loads (r : bytes * bytes) (l : bytes) : Prop :=
  r = (ztake FMC_BYTES_PER_PAGE l, zdrop FMC_BYTES_PER_PAGE l).

Lemma loads_app r l : loads r l -> r.1 ++ r.2 = l.
Proof. intros ->. apply ztake_zdrop. Qed.

Definition buffers_ok (b : bytes * bytes) : Prop := zlen b.1 <= FMC_BYTES_PER_PAGE /\ zlen b.2 <= FMC_BYTES_PER_SPARE.

Lemma zdrop_all {A} n (l : list A) : zlen l <= n -> zdrop n l = [].
Proof. intros H. unfold zdrop, zlen in *. apply drop_ge. lia. Qed.

Lemma read_file_loads l d q : record l -> buffers_ok (d, q) -> exists r, fmc_read_file (Some l) d q = Some r /\ loads r l.
Proof.
  intros R [Hd Hq]. pose proof (proj1 R) as H. change RECORD with 2112 in H. unfold fmc_read_file. eexists. split; [done|]. unfold loads.
  rewrite (second_half l R). cbn [fst snd] in *. unfold FMC_BYTES_PER_PAGE, FMC_BYTES_PER_SPARE in *.
  rewrite (zdrop_all _ d), (zdrop_all _ q), !app_nil_r; [done|rewrite zlen_zdrop; lia|rewrite zlen_ztake; lia].
Qed.

Lemma xor_xor (l k : bytes) : length l = length k -> zip_with Z.lxor (zip_with Z.lxor l k) k = l.
Proof.
  revert k. induction l as [|x l IH]; intros [|y k] H; try done. cbn. f_equal; [|by apply IH; injection H].
  by rewrite Z.lxor_assoc, Z.lxor_nilpotent, Z.lxor_0_r.
Qed.

Lemma byte_lxor x y : is_byte x -> is_byte y -> is_byte (Z.lxor x y).
Proof.
  unfold is_byte. intros Hx Hy. split; [apply Z.lxor_nonneg; lia|]. destruct (Z.eqb_spec (Z.lxor x y) 0); [lia|].
  assert (0 <= Z.lxor x y) by (apply Z.lxor_nonneg; lia).
  assert (L : forall z, 0 <= z < 256 -> Z.log2 z <= 7) by (intros z Hz; apply (Z.log2_le_mono z 255); lia).
  pose proof (Z.log2_lxor x y ltac:(lia) ltac:(lia)). pose proof (L x Hx). pose proof (L y Hy).
  change 256 with (2 ^ 8). apply Z.log2_lt_pow2; lia.
Qed.

Lemma byte_land x y : is_byte x -> is_byte y -> is_byte (Z.land x y).
Proof.
  unfold is_byte. intros Hx Hy. assert (0 <= Z.land x y) by (apply Z.land_nonneg; lia). split; [done|].
  destruct (Z.eqb_spec (Z.land x y) 0); [lia|]. pose proof (Z.log2_land x y ltac:(lia) ltac:(lia)).
  assert (Z.log2 x <= 7) by (apply (Z.log2_le_mono x 255); lia). change 256 with (2 ^ 8). apply Z.log2_lt_pow2; lia.
Qed.

Lemma is_bytes_zip (g : Z -> Z -> Z) l k : (forall x y, is_byte x -> is_byte y -> is_byte (g x y)) ->
  is_bytes l -> is_bytes k -> is_bytes (zip_with g l k).
Proof.
  intros Hg Hl. revert k. induction Hl as [|x l Hx Hl IH]; intros [|y k] Hk; try (by apply Forall_nil_2).
  cbn. apply Forall_cons in Hk as [Hy Hk]. apply Forall_cons_2; [by apply Hg|by apply IH].
Qed.

Lemma record_zip (g : Z -> Z -> Z) l k : (forall x y, is_byte x -> is_byte y -> is_byte (g x y)) ->
  record l -> record k -> record (zip_with g l k).
Proof.
  intros Hg [H1 B1] [H2 B2]. split; [|by apply is_bytes_zip]. unfold zlen in *. rewrite length_zip_with. lia.
Qed.

Lemma is_bytes_phys_read g a n : (forall x, is_byte (g x)) -> is_bytes (phys_read g a n).
Proof. intros H. apply Forall_fmap, Forall_true. intros. apply H. Qed.

Lemma image_record banks n c p : image_ok banks n -> record (nand_image_xor n (phys_read (ni_chip n c) (p * ni_stride n) (ni_stride n))).
Proof.
  intros (_ & Hs & Hb & B & _). unfold nand_image_xor. rewrite Hs, Hb. apply record_zip; [apply byte_lxor| |apply record_erased].
  split; [by apply zlen_phys_read; vm_compute|]. by apply is_bytes_phys_read.
Qed.

(** A load gives a whole record, whatever the buffers held. *)
Lemma load_record f bank page b : store_ok f -> buffers_ok b ->
  exists l, record l /\ loads (s5l8900_fmc_load_page f bank page b.1 b.2) l /\ forall b', buffers_ok b' ->
    loads (s5l8900_fmc_load_page f bank page b'.1 b'.2) l.
Proof.
  intros [_ OK] Hb. unfold s5l8900_fmc_load_page. pose proof record_erased as RE. destruct (fm_image f) as [n|].
  - unfold nand_image_read. destruct (nand_image_bad n bank page); [exists erased_record; by rewrite erased_page_spec|].
    destruct (ni_unreadable n bank page); [exists erased_record; by rewrite erased_page_spec|].
    pose proof (image_record _ _ bank page OK) as R. eexists. split; [exact R|]. split; [|intros b' _]; unfold loads; by rewrite (second_half _ R).
  - destruct OK as (o & -> & Ho & Hm).
    assert (FB : exists l, record l /\ forall b', buffers_ok b' -> loads
      match fm_base f with Some files => default fmc_erased_page (fmc_read_file (files !! (bank, page)) b'.1 b'.2) | None => fmc_erased_page end l).
    { destruct (fm_base f) as [m|]; [|exists erased_record; by rewrite erased_page_spec].
      destruct (m !! (bank, page)) as [l|] eqn:E; [|exists erased_record; by rewrite erased_page_spec].
      pose proof (Hm m eq_refl _ _ E) as R. exists l. split; [done|]. intros [d q] B. cbn [fst snd]. by destruct (read_file_loads l d q R B) as (r & -> & L). }
    destruct FB as (lb & RB & FB). destruct (ov_pages o !! (bank, page)) as [l|] eqn:E.
    + pose proof (Ho _ _ E) as R. exists l. split; [done|].
      assert (X : forall b', buffers_ok b' -> exists r, fmc_read_file (Some l) b'.1 b'.2 = Some r /\ loads r l) by (intros [d q]; by apply read_file_loads).
      split; [by destruct (X b Hb) as (r & -> & L)|]. intros b' B'. by destruct (X b' B') as (r & -> & L).
    + destruct (bool_decide _); [exists erased_record; by rewrite erased_page_spec|]. exists lb. split; [done|]. split; [by apply FB|]. exact FB.
Qed.

Lemma load_flash f bank page d q : store_ok f -> zlen d <= FMC_BYTES_PER_PAGE -> zlen q <= FMC_BYTES_PER_SPARE ->
  loads (s5l8900_fmc_load_page f bank page d q) (flash f bank page) /\ record (flash f bank page).
Proof.
  intros OK Hd Hq. destruct (load_record f bank page ([], []) OK) as (l & R & L & A); [by vm_compute|].
  assert (flash f bank page = l) as ->.
  { unfold flash. cbn [fst snd] in L. rewrite L. apply ztake_zdrop. }
  split; [|done]. apply (A (d, q)). by split.
Qed.

Lemma flash_image f n bank page : fm_image f = Some n -> image_ok (fm_banks f) n ->
  flash f bank page = if nand_image_bad n bank page then erased_record
                      else nand_image_xor n (phys_read (ni_chip n bank) (page * ni_stride n) (ni_stride n)).
Proof.
  intros E OK. unfold flash, s5l8900_fmc_load_page, nand_image_read. rewrite E.
  destruct (nand_image_bad n bank page); [by rewrite erased_page_spec, ztake_zdrop|].
  assert (ni_unreadable n bank page = None) as -> by apply OK. by rewrite halves by (by eapply image_record).
Qed.

(** What a page without a file in the overlay reads as. *)
Definition below (f : S5L8900FMCState) (o : Overlay) (bank page : Z) : bytes :=
  if bool_decide ((bank, page / FMC_PAGES_PER_BLOCK) ∈ ov_erased o) then erased_record
  else default erased_record (m ← fm_base f; m !! (bank, page)).

Lemma read_file_flash l : record l -> exists r, fmc_read_file (Some l) [] [] = Some r /\ r.1 ++ r.2 = l.
Proof.
  intros R. destruct (read_file_loads l [] [] R) as (r & E & L); [by vm_compute|]. exists r. split; [done|by apply loads_app].
Qed.

Lemma flash_overlay f o bank page : fm_image f = None -> fm_overlay f = Some o -> files_ok (ov_pages o) ->
  (forall m, fm_base f = Some m -> files_ok m) ->
  flash f bank page = default (below f o bank page) (ov_pages o !! (bank, page)).
Proof.
  intros EI EO Ho Hm. unfold flash, s5l8900_fmc_load_page, below. rewrite EI, EO.
  assert (EE : (let '(d, q) := fmc_erased_page in d ++ q) = erased_record) by (by rewrite erased_page_spec, ztake_zdrop).
  destruct (ov_pages o !! (bank, page)) as [l|] eqn:E.
  - destruct (read_file_flash l (Ho _ _ E)) as ([d q] & -> & L). exact L.
  - cbn [fmc_read_file default]. destruct (bool_decide _); [exact EE|]. destruct (fm_base f) as [m|]; [|exact EE]. cbn [mbind option_bind].
    destruct (m !! (bank, page)) as [l|] eqn:E'; [|exact EE]. destruct (read_file_flash l (Hm m eq_refl _ _ E')) as ([d q] & -> & L). exact L.
Qed.

(** ** Programming and erasing *)

(** The host's calls succeed. *)
Definition calm (f : S5L8900FMCState) : Prop := fm_host f = [].

Lemma next_host_calm f : calm f -> next_host f = (HOk, f).
Proof. unfold calm, next_host. by intros ->. Qed.

(** Only the store and the number of the buffered page differ. *)
Definition restored (f f' : S5L8900FMCState) : Prop :=
  f' = f <| fm_buffered_page := -1 |> <| fm_image := fm_image f' |> <| fm_overlay := fm_overlay f' |>.

Definition stored (f f' : S5L8900FMCState) (ch : Z -> Z -> option bytes) : Prop :=
  restored f f' /\ store_ok f' /\ forall b p, 0 <= p -> flash f' b p = default (flash f b p) (ch b p).

Definition programmed (bank page : Z) (l : bytes) (b p : Z) : option bytes := if decide ((b, p) = (bank, page)) then Some l else None.

Definition block_erased (bank block : Z) (b p : Z) : option bytes :=
  if decide ((b, p / FMC_PAGES_PER_BLOCK) = (bank, block)) then Some erased_record else None.

Lemma not_bad f n bank page : ni_geo n = fmc_geo (fm_banks f) -> valid f bank page -> nand_image_bad n bank page = false.
Proof.
  intros G [Hb Hp]. unfold nand_image_bad. rewrite G. cbn. unfold FMC_PAGES_PER_BLOCK, FMC_BLOCKS_PER_BANK in *.
  rewrite (proj2 (Z.leb_gt _ _)) by lia. cbn [orb]. apply Z.leb_gt. apply Z.div_lt_upper_bound; lia.
Qed.

(** A chip's file after a write of [l] at the record [first]. *)
Lemma image_put f n bank first l (ch : Z -> Z -> option bytes) : fm_image f = Some n -> image_ok (fm_banks f) n -> is_bytes l ->
  (forall b p, 0 <= p -> ch b p = None -> b <> bank \/ p * RECORD + RECORD <= first * RECORD \/ first * RECORD + zlen l <= p * RECORD) ->
  (forall b p r, 0 <= p -> ch b p = Some r -> b = bank /\ nand_image_bad n b p = false /\
     phys_read (phys_write (ni_chip n bank) (first * RECORD) l) (p * RECORD) RECORD = zip_with Z.lxor r erased_record /\ record r) ->
  1 <= fm_banks f <= FMC_NUM_BANKS ->
  stored f (f <| fm_buffered_page := -1 |> <| fm_image := Some (set_chip bank (phys_write (ni_chip n bank) (first * ni_stride n) l) n) |>) ch.
Proof.
  intros E OK Bl Hout Hin Hb. pose proof OK as (G & Hs & Hk & Bc & Hu). set (n' := set_chip _ _ n).
  assert (OK' : image_ok (fm_banks f) n').
  { split; [done|]. split; [done|]. split; [done|]. split; [|exact Hu]. intros c x. cbn. destruct (c =? bank); [|apply Bc]. unfold phys_write. destruct (_ && _); [|apply Bc].
    by apply rd_is_byte. }
  split; [done|]. split; [split; [done|exact OK']|]. intros b p Hp. set (f' := f <| fm_buffered_page := -1 |> <| fm_image := Some n' |>).
  rewrite (flash_image f' n' b p eq_refl OK'), (flash_image f n b p E OK).
  change (nand_image_bad n' b p) with (nand_image_bad n b p). change (ni_stride n') with (ni_stride n). rewrite Hs.
  destruct (ch b p) as [r|] eqn:U.
  - destruct (Hin b p r Hp U) as (-> & -> & P & R). cbn. unfold nand_image_xor. cbn. rewrite Z.eqb_refl, Hs, P, Hk. apply xor_xor.
    destruct R as [R _]. pose proof (proj1 record_erased). unfold zlen in *. lia.
  - cbn [default]. destruct (nand_image_bad n b p); [done|]. unfold nand_image_xor. cbn. apply (f_equal (fun l => zip_with Z.lxor l _)). destruct (Z.eqb_spec b bank) as [->|]; [|done].
    rewrite Hs. apply phys_read_other. destruct (Hout bank p Hp U) as [|[|]]; [done|by left|by right].
Qed.

#[local] Opaque erased_record RECORD.

Lemma RECORD_eq : RECORD = 2112.
Proof. by vm_compute. Qed.

Lemma image_program f n bank page l : fm_image f = Some n -> store_ok f -> valid f bank page -> record l ->
  stored f (f <| fm_buffered_page := -1 |> <| fm_image := Some (nand_image_write HOk bank page l n).2 |>) (programmed bank page l) /\
  (nand_image_write HOk bank page l n).1 = 0.
Proof.
  intros E [Hb OK] V R. rewrite E in OK. pose proof OK as (G & Hs & Hk & _). pose proof (not_bad f n bank page G V) as NB.
  unfold nand_image_write. rewrite NB. cbn [fst snd]. split; [|done]. unfold nand_image_xor. rewrite Hk.
  pose proof (record_zip Z.lxor l _ byte_lxor R record_erased) as RX. pose proof RX as [LX BX]. apply image_put; try done.
  - intros b p Hp U. unfold programmed in U. destruct (decide _) as [|N]; [done|]. destruct (decide (b = bank)) as [->|]; [|by left]. right.
    assert (p <> page) by congruence. rewrite LX, RECORD_eq. lia.
  - intros b p r Hp U. unfold programmed in U. destruct (decide _) as [[= -> ->]|]; [|done]. injection U as <-. split; [done|]. split; [done|].
    split; [|done]. replace RECORD with (zlen (zip_with Z.lxor l erased_record)) at 3 by exact LX. apply phys_read_written.
Qed.

Lemma phys_read_const g a n v : 0 <= n -> (forall x, a <= x < a + n -> g x = v) -> phys_read g a n = replicate (Z.to_nat n) v.
Proof.
  intros Hn H. apply list_eq_rd; [by rewrite zlen_phys_read, zlen_replicate|]. rewrite zlen_phys_read by done. intros j Hj. unfold rd.
  rewrite phys_read_lookup by lia. rewrite lookup_replicate_2 by lia. cbn. apply H. lia.
Qed.

Lemma blank_zero : zip_with Z.lxor erased_record erased_record = replicate (Z.to_nat RECORD) 0.
Proof. by vm_compute. Qed.

Lemma zeroes n : 0 <= n -> zlen (replicate (Z.to_nat n) 0) = n /\ is_bytes (replicate (Z.to_nat n) 0) /\ forall i, rd (replicate (Z.to_nat n) 0) i = 0.
Proof.
  intros H. split; [by apply zlen_replicate|]. split; [apply Forall_replicate; unfold is_byte; lia|]. intros i. unfold rd.
  destruct (replicate _ 0 !! _) as [x|] eqn:E; [|done]. by apply lookup_replicate_1 in E as [-> _].
Qed.

Lemma image_erase f n bank block : fm_image f = Some n -> store_ok f -> 0 <= bank < fm_banks f -> 0 <= block < FMC_BLOCKS_PER_BANK ->
  stored f (f <| fm_buffered_page := -1 |> <| fm_image := Some (nand_image_erase HOk bank block n).2 |>) (block_erased bank block) /\
  (nand_image_erase HOk bank block n).1 = 0.
Proof.
  intros E [Hb OK] Vb Vk. rewrite E in OK. pose proof OK as (G & Hs & Hk & _). unfold FMC_BLOCKS_PER_BANK in Vk.
  assert (NB : forall p, 0 <= p -> p / FMC_PAGES_PER_BLOCK = block -> nand_image_bad n bank p = false).
  { intros p Hp Hd. apply (not_bad f); [done|]. split; [done|]. unfold FMC_PAGES_PER_BLOCK, FMC_BLOCKS_PER_BANK in *. Z.div_mod_to_equations. lia. }
  unfold nand_image_erase. rewrite G. cbn [geo_pages_per_block fmc_geo]. rewrite (NB (block * FMC_PAGES_PER_BLOCK))
    by (unfold FMC_PAGES_PER_BLOCK; lia || by rewrite Z.div_mul).
  rewrite (proj2 (Z.ltb_ge _ _)) by (unfold FMC_PAGES_PER_BLOCK; lia). cbn [orb fst snd]. split; [|done].
  destruct (zeroes (FMC_PAGES_PER_BLOCK * ni_stride n)) as (SZ & BZ & Z0); [rewrite Hs, RECORD_eq; unfold FMC_PAGES_PER_BLOCK; lia|].
  set (z := replicate _ 0) in *. clearbody z. rewrite Hs in SZ. apply (image_put f n bank (block * FMC_PAGES_PER_BLOCK) z); [done|done|done| | |done].
  - intros b p Hp U. unfold block_erased in U. destruct (decide _) as [|N]; [done|]. destruct (decide (b = bank)) as [->|]; [|by left]. right.
    rewrite SZ, RECORD_eq. unfold FMC_PAGES_PER_BLOCK in *. assert (p / 128 <> block) by congruence. Z.div_mod_to_equations. lia.
  - intros b p r Hp U. unfold block_erased in U. destruct (decide _) as [[= -> Hk']|]; [|done]. injection U as <-. split; [done|]. split; [by apply NB|].
    split; [|apply record_erased]. rewrite blank_zero. apply phys_read_const; [by rewrite RECORD_eq|]. intros x Hx. unfold phys_write. rewrite SZ.
    unfold FMC_PAGES_PER_BLOCK in *. rewrite RECORD_eq in *. rewrite (proj2 (Z.leb_le _ _)), (proj2 (Z.ltb_lt _ _)) by (Z.div_mod_to_equations; lia).
    cbn [andb]. apply Z0.
Qed.

(** A new overlay over the same base. *)
Lemma overlay_put f o o' (ch : Z -> Z -> option bytes) : fm_image f = None -> fm_overlay f = Some o -> store_ok f -> files_ok (ov_pages o') ->
  (forall b p, 0 <= p -> default (below f o' b p) (ov_pages o' !! (b, p)) = default (default (below f o b p) (ov_pages o !! (b, p))) (ch b p)) ->
  stored f (f <| fm_buffered_page := -1 |> <| fm_overlay := Some o' |>) ch.
Proof.
  intros EI EO [Hb OK] Ho' H. rewrite EI in OK. destruct OK as (o1 & E1 & Ho & Hm). assert (o1 = o) as -> by congruence.
  set (f' := f <| fm_buffered_page := -1 |> <| fm_overlay := Some o' |>). assert (EI' : fm_image f' = None) by exact EI.
  split; [unfold restored; rewrite EI'; by destruct f; cbn in EI; subst|]. split; [split; [exact Hb|rewrite EI'; by exists o']|]. intros b p Hp.
  rewrite (flash_overlay f' o' b p EI' eq_refl Ho' Hm), (flash_overlay f o b p EI EO Ho Hm). by apply H.
Qed.

Lemma overlay_program f o bank page l : fm_image f = None -> fm_overlay f = Some o -> store_ok f -> record l ->
  stored f (f <| fm_buffered_page := -1 |> <| fm_overlay := Some (o <| ov_pages ::= fun m => <[(bank, page) := l]> m |>) |>) (programmed bank page l).
Proof.
  intros EI EO OK R. apply (overlay_put f o); try done.
  - apply map_Forall_insert_2; [done|]. destruct OK as [_ OK]. rewrite EI in OK. destruct OK as (o1 & E1 & Ho & _). by assert (o1 = o) as -> by congruence.
  - intros b p _. unfold programmed. cbn. destruct (decide _) as [[= -> ->]|N]; [by rewrite lookup_insert_eq|]. by rewrite lookup_insert_ne by congruence.
Qed.

(** The loop removes the files of its pages and nothing else. *)
Lemma erase_pages_spec fuel bank p last o f : calm f -> 0 <= p -> last - p <= Z.of_nat fuel -> last < 4294967296 ->
  exists m, erase_pages fuel bank p last o f = (true, o <| ov_pages := m |>, f) /\
    forall b q, m !! (b, q) = if decide (b = bank /\ p <= q < last) then None else ov_pages o !! (b, q).
Proof.
  intros C. revert p o. induction fuel as [|fuel IH]; intros p o Hp Hf Hl.
  { exists (ov_pages o). split; [by destruct o|]. intros b q. destruct (decide _); [lia|done]. }
  cbn [erase_pages]. destruct (Z.ltb_spec p last) as [L|L].
  2:{ exists (ov_pages o). split; [by destruct o|]. intros b q. destruct (decide _); [lia|done]. }
  assert (U : u32 (p + 1) = p + 1) by (apply Z.mod_small; lia). rewrite U. destruct (ov_pages o !! (bank, p)) as [l|] eqn:E.
  - rewrite (next_host_calm f C). destruct (IH (p + 1) (o <| ov_pages ::= delete (bank, p) |>)) as (m & -> & H); [lia|lia|lia|].
    exists m. split; [done|]. intros b q. rewrite H. cbn. destruct (decide (b = bank /\ p + 1 <= q < last)), (decide (b = bank /\ p <= q < last)); try done; try lia.
    + assert (b = bank /\ q = p) as [-> ->] by lia. by rewrite lookup_delete_eq.
    + by rewrite lookup_delete_ne by (intros [= -> ->]; lia).
  - destruct (IH (p + 1) o) as (m & -> & H); [lia|lia|lia|]. exists m. split; [done|]. intros b q. rewrite H.
    destruct (decide (b = bank /\ p + 1 <= q < last)), (decide (b = bank /\ p <= q < last)); try done; try lia.
    assert (b = bank /\ q = p) as [-> ->] by lia. done.
Qed.

Lemma overlay_erase f o bank block : fm_image f = None -> fm_overlay f = Some o -> store_ok f -> calm f -> 0 <= block < FMC_BLOCKS_PER_BANK ->
  exists o', erase_overlay bank block o (f <| fm_buffered_page := -1 |>) = (true, f <| fm_buffered_page := -1 |> <| fm_overlay := Some o' |>) /\
    stored f (f <| fm_buffered_page := -1 |> <| fm_overlay := Some o' |>) (block_erased bank block).
Proof.
  intros EI EO OK C Hk. unfold FMC_BLOCKS_PER_BANK in Hk. unfold erase_overlay. rewrite next_host_calm by exact C. cbv beta iota.
  rewrite !u32_id by (unfold is_u32, FMC_PAGES_PER_BLOCK; lia).
  destruct (erase_pages_spec (Z.to_nat FMC_PAGES_PER_BLOCK) bank (block * FMC_PAGES_PER_BLOCK) ((block + 1) * FMC_PAGES_PER_BLOCK) o
    (f <| fm_buffered_page := -1 |>)) as (m & -> & H); [exact C|unfold FMC_PAGES_PER_BLOCK; lia..|].
  cbv beta iota zeta. rewrite next_host_calm by exact C. eexists. split; [done|]. apply (overlay_put f o); try done.
  - intros [b q] l E. cbn in E. rewrite H in E. destruct (decide _); [done|]. destruct OK as [_ OK]. rewrite EI in OK.
    destruct OK as (o1 & E1 & Ho & _). assert (o1 = o) as -> by congruence. by apply (Ho (b, q)).
  - intros b p Hp. cbn. rewrite H. unfold block_erased, below, FMC_PAGES_PER_BLOCK. cbn [ov_erased upd upd_ov_erased upd_ov_pages].
    destruct (decide ((b, p / 128) = (bank, block))) as [[= -> Hd]|N].
    + rewrite decide_True by (split; [done|Z.div_mod_to_equations; lia]). cbn. rewrite bool_decide_eq_true_2; [done|]. rewrite Hd. by apply elem_of_union_l, elem_of_singleton.
    + rewrite decide_False. 2:{ intros [-> Hq]. apply N. f_equal. symmetry. apply (Z.div_unique p 128 block (p - 128 * block)); lia. }
      cbn. assert (bool_decide ((b, p / 128) ∈ {[ (bank, block) ]} ∪ ov_erased o) = bool_decide ((b, p / 128) ∈ ov_erased o)) as ->; [|done].
      apply bool_decide_ext. rewrite elem_of_union, elem_of_singleton. tauto.
Qed.

Section Stack.
Variable stack : bytes * bytes.
Hypothesis stack_ok : buffers_ok stack.

(** What a page is after it was programmed. *)
Definition anded (f : S5L8900FMCState) (bank page : Z) (l : bytes) : bytes := zip_with Z.land (flash f bank page) l.

Lemma program_stored f bank page data spare : store_ok f -> calm f -> valid f bank page ->
  zlen data = FMC_BYTES_PER_PAGE -> record (data ++ spare) ->
  exists f', fmc_program_page stack bank page data spare f = (true, f') /\ stored f f' (programmed bank page (anded f bank page (data ++ spare))).
Proof.
  intros OK C V Hd R. unfold fmc_program_page. set (g := f <| fm_buffered_page := -1 |>). assert (Cg : calm g) by exact C.
  change (s5l8900_fmc_load_page g bank page stack.1 stack.2) with (s5l8900_fmc_load_page f bank page stack.1 stack.2).
  destruct (load_flash f bank page stack.1 stack.2 OK) as [L RF]; [apply stack_ok|apply stack_ok|]. rewrite L. cbv beta iota zeta.
  rewrite <- zip_with_app, ztake_zdrop. 2:{ destruct RF as [RF _]. rewrite RECORD_eq in RF. unfold zlen, ztake, FMC_BYTES_PER_PAGE in *. rewrite length_take. lia. }
  fold (anded f bank page (data ++ spare)). pose proof (record_zip Z.land _ _ byte_land RF R) as RA. fold (anded f bank page (data ++ spare)) in RA.
  set (l := anded f bank page (data ++ spare)) in *. clearbody l. change (fm_image g) with (fm_image f). change (fm_overlay g) with (fm_overlay f).
  destruct (fm_image f) as [n|] eqn:EI.
  - rewrite (next_host_calm g Cg). cbv beta iota. destruct (image_program f n bank page l EI OK V RA) as [S E]. destruct (nand_image_write _ _ _ _ _) as [r n'].
    cbn [fst snd] in *. subst r. eexists. split; [done|exact S].
  - pose proof OK as [_ OK']. rewrite EI in OK'. destruct OK' as (o & EO & _). rewrite EO. unfold write_page_file. repeat (rewrite (next_host_calm g Cg); cbv beta iota).
    eexists. split; [done|]. by apply overlay_program.
Qed.

Lemma erase_stored f bank block : store_ok f -> calm f -> 0 <= bank < fm_banks f -> 0 <= block < FMC_BLOCKS_PER_BANK ->
  exists f', s5l8900_fmc_erase_block bank block f = (true, f') /\ stored f f' (block_erased bank block).
Proof.
  intros OK C Vb Vk. unfold s5l8900_fmc_erase_block. set (g := f <| fm_buffered_page := -1 |>). assert (Cg : calm g) by exact C.
  change (fm_image g) with (fm_image f). change (fm_overlay g) with (fm_overlay f). destruct (fm_image f) as [n|] eqn:EI.
  - rewrite (next_host_calm g Cg). cbv beta iota. destruct (image_erase f n bank block EI OK Vb Vk) as [S E]. destruct (nand_image_erase _ _ _ _) as [r n'].
    cbn [fst snd] in *. subst r. eexists. split; [done|exact S].
  - pose proof OK as [_ OK']. rewrite EI in OK'. destruct OK' as (o & EO & _). rewrite EO. destruct (overlay_erase f o bank block EI EO OK C Vk) as (o' & E & S).
    exists (f <| fm_buffered_page := -1 |> <| fm_overlay := Some o' |>). by split.
Qed.

(** ** The abstract flash *)

Inductive FlashOp := Program (bank page : Z) (data spare : bytes) | Erase (bank block : Z).

Definition op_ok (f : S5L8900FMCState) (op : FlashOp) : Prop :=
  match op with
  | Program bank page data spare => valid f bank page /\ zlen data = FMC_BYTES_PER_PAGE /\ record (data ++ spare)
  | Erase bank block => 0 <= bank < fm_banks f /\ 0 <= block < FMC_BLOCKS_PER_BANK
  end.

(** Programming clears bits of one record, an erase sets those of a block. *)
Definition spec_op (v : Z -> Z -> bytes) (op : FlashOp) (b p : Z) : bytes :=
  match op with
  | Program bank page data spare => if decide ((b, p) = (bank, page)) then zip_with Z.land (v bank page) (data ++ spare) else v b p
  | Erase bank block => if decide ((b, p / FMC_PAGES_PER_BLOCK) = (bank, block)) then erased_record else v b p
  end.

Definition store_op (op : FlashOp) (f : S5L8900FMCState) : bool * S5L8900FMCState :=
  match op with
  | Program bank page data spare => fmc_program_page stack bank page data spare f
  | Erase bank block => s5l8900_fmc_erase_block bank block f
  end.

Fixpoint store_run (ops : list FlashOp) (f : S5L8900FMCState) : bool * S5L8900FMCState :=
  match ops with
  | [] => (true, f)
  | op :: ops => let '(ok, f) := store_op op f in let '(oks, f) := store_run ops f in (ok && oks, f)
  end.

Lemma spec_run_ext ops v v' : (forall b p, 0 <= p -> v b p = v' b p) -> Forall (fun op => match op with Program _ page _ _ => 0 <= page | Erase _ _ => True end) ops ->
  forall b p, 0 <= p -> fold_left spec_op ops v b p = fold_left spec_op ops v' b p.
Proof.
  intros H F. revert v v' H. induction F as [|op ops Hop F IH]; intros v v' H; [exact H|]. cbn [fold_left]. apply IH. intros b p Hp.
  destruct op as [bank page data spare|bank block]; cbn [spec_op]; destruct (decide _); try done; try by apply H. by rewrite H.
Qed.

Lemma op_stored op f : store_ok f -> calm f -> op_ok f op -> exists f', store_op op f = (true, f') /\ restored f f' /\ store_ok f' /\
  forall b p, 0 <= p -> flash f' b p = spec_op (flash f) op b p.
Proof.
  intros OK C. destruct op as [bank page data spare|bank block]; cbn [op_ok store_op spec_op].
  - intros (V & Hd & R). destruct (program_stored f bank page data spare OK C V Hd R) as (f' & E & RS & OK' & S). exists f'. split; [done|]. split; [done|].
    split; [done|]. intros b p Hp. rewrite S by done. unfold programmed. by destruct (decide _).
  - intros [Vb Vk]. destruct (erase_stored f bank block OK C Vb Vk) as (f' & E & RS & OK' & S). exists f'. split; [done|]. split; [done|]. split; [done|].
    intros b p Hp. rewrite S by done. unfold block_erased. by destruct (decide _).
Qed.

Lemma restored_calm f f' : restored f f' -> calm f -> calm f'.
Proof. by intros ->. Qed.

Lemma restored_op f f' op : restored f f' -> op_ok f op -> op_ok f' op.
Proof. by intros ->. Qed.

(** C24. As long as the calls of the host succeed, programs and erases of valid pages
    and blocks, in any order, succeed and leave in the store, an image or a
    directory with its overlay, what they leave in an array of records: a program
    keeps the bits that are set both before and in what is written, an erase sets
    the bits of its block, and nothing else changes.  The blank record of an
    image is all ones. *)
Theorem nand_store_refines ops f : store_ok f -> calm f -> Forall (op_ok f) ops ->
  let '(ok, f') := store_run ops f in
  ok = true /\ store_ok f' /\ forall b p, 0 <= p -> flash f' b p = fold_left spec_op ops (flash f) b p.
Proof.
  intros OK C F. revert f OK C F. induction ops as [|op ops IH]; intros f OK C F; [done|]. apply Forall_cons in F as [Ho F]. cbn [store_run fold_left].
  destruct (op_stored op f OK C Ho) as (f1 & -> & RS & OK1 & S). cbv beta iota.
  specialize (IH f1 OK1 (restored_calm _ _ RS C) (Forall_impl _ _ _ F (fun x => restored_op f f1 x RS))). destruct (store_run ops f1) as [ok f2].
  destruct IH as (-> & OK2 & H). split; [done|]. split; [done|]. intros b p Hp. rewrite H by done. apply spec_run_ext; [exact S| |done].
  apply (Forall_impl _ _ _ F). intros [bank page data spare|bank block]; cbn; [|done]. intros ([_ V] & _). lia.
Qed.

(** ** A program through the FIFO *)

Definition push_words (ws : list Z) (f : S5L8900FMCState) : S5L8900FMCState := fold_left (fun f w => fmc_fifo_push stack w f) ws f.

(** The controller waits for the [k]-th word of the [i]-th page. *)
Record taking (n i k : Z) (f : S5L8900FMCState) : Prop := {
  tk_writing : fm_is_writing f = true;
  tk_pad : fm_prog_pad f = 0;
  tk_count : fm_prog_count f = n;
  tk_index : fm_prog_index f = i;
  tk_range : 0 <= i < n /\ n <= FMC_MAX_LIST;
  tk_dnum : fm_fmdnum f = FMC_BYTES_PER_PAGE - 4 * k;
  tk_buffer : zlen (fm_page_buffer f) = FMC_BYTES_PER_PAGE
}.

Definition stuffed (k : Z) (l : bytes) (f : S5L8900FMCState) : S5L8900FMCState :=
  f <| fm_page_buffer ::= fun b => blit b (Z.to_nat (4 * k)) l |> <| fm_fmdnum ::= fun n => n - zlen l |>.

Lemma push_one n i k w f : taking n i k f -> 0 <= k < 512 ->
  fmc_fifo_push stack w f = let f := stuffed k (le32 w) f in if k =? 511 then page_streamed stack f else f.
Proof.
  intros [Hw Hp Hc Hi [Hr Hn] Hd Hb] Hk. unfold fmc_fifo_push. rewrite Hw, Hp, Hc, Hi, Hd. unfold FMC_MAX_LIST, FMC_BYTES_PER_PAGE in *. cbn [negb Z.eqb].
  rewrite (proj2 (Z.eqb_neq _ _)), (proj2 (Z.ltb_ge _ _)), (proj2 (Z.leb_gt _ _)) by lia.
  assert (Z.land (2048 - 4 * k) 3 = 0) as ->.
  { change 3 with (Z.ones 2). rewrite Z.land_ones by lia. change (2 ^ 2) with 4. Z.div_mod_to_equations. lia. }
  cbn [orb negb Z.eqb]. replace ((2048 - (2048 - 4 * k)) / 4) with k by (Z.div_mod_to_equations; lia). cbv zeta.
  change (f <| fm_page_buffer ::= fun b => st_le32 b (4 * k) w |> <| fm_fmdnum ::= fun n => n - 4 |>) with (stuffed k (le32 w) f).
  change (fm_fmdnum (stuffed k (le32 w) f)) with (fm_fmdnum f - 4). rewrite Hd.
  by destruct (Z.eqb_spec k 511), (Z.eqb_spec (2048 - 4 * k - 4) 0); try lia.
Qed.

Lemma stuffed_taking n i k w f : taking n i k f -> 0 <= k < 511 -> taking n i (k + 1) (stuffed k (le32 w) f).
Proof.
  intros [] Hk. split; try done.
  - change (fm_fmdnum f - 4 = FMC_BYTES_PER_PAGE - 4 * (k + 1)). lia.
  - change (zlen (blit (fm_page_buffer f) (Z.to_nat (4 * k)) (le32 w)) = FMC_BYTES_PER_PAGE). by rewrite zlen_blit.
Qed.

Lemma stuffed_nil k f : stuffed k [] f = f.
Proof. destruct f. unfold stuffed, upd, upd_fm_page_buffer, upd_fm_fmdnum. cbn -[zlen Z.sub Z.mul]. change (zlen (@nil Z)) with 0. by rewrite Z.sub_0_r. Qed.

Lemma stuffed_app k w l f : 0 <= k -> stuffed (k + 1) l (stuffed k (le32 w) f) = stuffed k (le32 w ++ l) f.
Proof.
  intros Hk. unfold stuffed, upd, upd_fm_page_buffer, upd_fm_fmdnum. cbn -[blit le32 zlen Z.sub Z.to_nat Z.mul]. f_equal.
  - rewrite zlen_app. change (zlen (le32 w)) with 4. lia.
  - unfold le32. cbn [blit app]. f_equal. lia.
Qed.

(** The first words of a page. *)
Lemma push_some n i ws : forall k f, taking n i k f -> 0 <= k -> k + zlen ws <= 511 ->
  push_words ws f = stuffed k (concat (le32 <$> ws)) f /\ taking n i (k + zlen ws) (push_words ws f).
Proof.
  induction ws as [|w ws IH]; intros k f T Hk Hl.
  { split; [|by rewrite zlen_nil, Z.add_0_r]. symmetry. apply stuffed_nil. }
  rewrite zlen_cons in Hl. pose proof (zlen_nonneg ws). unfold push_words in *. cbn [fold_left]. rewrite (push_one n i k w f T ltac:(lia)). cbv zeta.
  rewrite (proj2 (Z.eqb_neq k 511)) by lia. pose proof (stuffed_taking n i k w f T ltac:(lia)) as T1.
  destruct (IH (k + 1) _ T1 ltac:(lia) ltac:(lia)) as [E T2]. split; [|rewrite zlen_cons; by replace (k + (zlen ws + 1)) with (k + 1 + zlen ws) by lia].
  by rewrite E, fmap_cons, concat_cons, stuffed_app by lia.
Qed.

Lemma blit_both (buf a b : bytes) : length buf = (length a + length b)%nat -> blit (blit buf 0 a) (length a) b = a ++ b.
Proof.
  intros H. rewrite <- (take_drop (length a) buf). set (x := take (length a) buf). set (y := drop (length a) buf).
  assert (length x = length a) by (unfold x; rewrite length_take; lia). assert (length y = length b) by (unfold y; rewrite length_drop; lia).
  pose proof (blit_mid [] x a y) as E1. cbn [app length] in E1. rewrite E1 by done. pose proof (blit_mid a y b []) as E2. rewrite !app_nil_r in E2. by apply E2.
Qed.

(** What the controller keeps during a program. *)
Definition queue (f : S5L8900FMCState) :=
  (fm_banks_to_read f, fm_pages_to_read f, fm_prog_spares f, fm_banks f, fm_cmd f, fm_host f, fm_page_spare_buffer f).

(** What the store depends on. *)
Definition view (f : S5L8900FMCState) := (fm_image f, fm_overlay f, fm_base f, fm_banks f).

Lemma load_view f g bank page d q : view f = view g -> s5l8900_fmc_load_page f bank page d q = s5l8900_fmc_load_page g bank page d q.
Proof. intros [= E1 E2 E3 _]. unfold s5l8900_fmc_load_page. by rewrite E1, E2, E3. Qed.

Lemma flash_view f g bank page : view f = view g -> flash f bank page = flash g bank page.
Proof. intros E. unfold flash. by rewrite (load_view f g). Qed.

Lemma store_view f g : view f = view g -> store_ok f -> store_ok g.
Proof. intros [= E1 E2 E3 E4]. unfold store_ok. by rewrite E1, E2, E3, E4. Qed.

Definition meta_of (f : S5L8900FMCState) (i : Z) : bytes := ztake FMC_META_BYTES (zdrop (FMC_META_BYTES * i) (fm_prog_spares f)).
Definition spare_of (meta : bytes) : bytes := blit (replicate (Z.to_nat FMC_BYTES_PER_SPARE) 0xff) 0 meta.
Definition page_data (ws : list Z) : bytes := concat (le32 <$> ws).

(** The [i]-th queued page with its words. *)
Definition page_op (f : S5L8900FMCState) (i : Z) (ws : list Z) : FlashOp :=
  Program (rd (fm_banks_to_read f) i) (rd (fm_pages_to_read f) i) (page_data ws) (spare_of (meta_of f i)).

Record staged (n : Z) (f : S5L8900FMCState) : Prop := {
  sg_spares : is_bytes (fm_prog_spares f);
  sg_valid : forall i, 0 <= i < n -> valid f (rd (fm_banks_to_read f) i) (rd (fm_pages_to_read f) i)
}.

Lemma record_page ws meta : length ws = 512%nat -> is_bytes meta -> record (page_data ws ++ spare_of meta).
Proof.
  intros L B. split.
  - rewrite zlen_app, RECORD_eq. unfold zlen, spare_of, page_data. rewrite length_concat_le32, length_blit, length_replicate, L. done.
  - apply is_bytes_app. split; [apply is_bytes_concat_le32|]. apply is_bytes_blit; [|done]. apply Forall_replicate. unfold is_byte. lia.
Qed.

Lemma zlen_page ws : length ws = 512%nat -> zlen (page_data ws) = FMC_BYTES_PER_PAGE.
Proof. intros L. unfold zlen, page_data. by rewrite length_concat_le32, L. Qed.

Lemma op_ok_page n i ws f : staged n f -> 0 <= i < n -> length ws = 512%nat -> op_ok f (page_op f i ws).
Proof. intros [B V] Hi L. split; [by apply V|]. split; [by apply zlen_page|]. apply record_page; [done|]. apply is_bytes_take, is_bytes_drop, B. Qed.

(** The page was programmed; the pad follows. *)
Record padding (n i p : Z) (g : S5L8900FMCState) : Prop := {
  pd_writing : fm_is_writing g = true;
  pd_pad : fm_prog_pad g = p;
  pd_count : fm_prog_count g = n;
  pd_index : fm_prog_index g = i;
  pd_dnum : fm_fmdnum g = FMC_BYTES_PER_PAGE;
  pd_buffer : zlen (fm_page_buffer g) = FMC_BYTES_PER_PAGE
}.

Definition programs (f g : S5L8900FMCState) (ops : list FlashOp) : Prop :=
  queue g = queue f /\ store_ok g /\ fm_buffered_page g = -1 /\ forall b p, 0 <= p -> flash g b p = fold_left spec_op ops (flash f) b p.

Lemma page_streamed_ok n i ws f : fm_is_writing f = true -> fm_prog_count f = n -> fm_prog_index f = i -> 0 <= i < n ->
  fm_page_buffer f = page_data ws -> length ws = 512%nat -> store_ok f -> calm f -> staged n f ->
  padding n (i + 1) FMC_PROGRAM_PAD (page_streamed stack f) /\ programs f (page_streamed stack f) [page_op f i ws].
Proof.
  intros Hw Hc Hi Hr Hb L OK C G. unfold page_streamed. rewrite Hi. set (f1 := f <| fm_prog_index := i + 1 |>). cbv zeta.
  change (fm_banks_to_read f1) with (fm_banks_to_read f). change (fm_pages_to_read f1) with (fm_pages_to_read f).
  change (fm_page_buffer f1) with (fm_page_buffer f). change (fm_prog_spares f1) with (fm_prog_spares f). rewrite Hb.
  fold (meta_of f i). fold (spare_of (meta_of f i)).
  pose proof (op_ok_page n i ws f G Hr L) as O. destruct (op_stored (page_op f i ws) f1) as (g & E & RS & OKg & S); [exact OK|exact C|exact O|].
  cbn [store_op page_op] in E. rewrite E. cbv beta iota. set (h := g <| fm_fmdnum := FMC_BYTES_PER_PAGE |> <| fm_prog_pad := FMC_PROGRAM_PAD |>).
  unfold restored in RS. split.
  - split; try done; unfold h; rewrite RS; try done. change (zlen (fm_page_buffer f) = FMC_BYTES_PER_PAGE). rewrite Hb. by apply zlen_page.
  - split; [unfold h; by rewrite RS|]. split; [by apply (store_view g)|]. split; [unfold h; by rewrite RS|]. intros b p Hp.
    rewrite (flash_view h g b p eq_refl), S by done. done.
Qed.

Lemma push_words_app a b f : push_words (a ++ b) f = push_words b (push_words a f).
Proof. apply fold_left_app. Qed.

(** The 512 words of a page. *)
Lemma push_data n i ws f : taking n i 0 f -> length ws = 512%nat -> store_ok f -> calm f -> staged n f ->
  padding n (i + 1) FMC_PROGRAM_PAD (push_words ws f) /\ programs f (push_words ws f) [page_op f i ws].
Proof.
  intros T L OK C G. destruct (exists_last (l := ws)) as (front & w & ->); [by intros ->|]. rewrite length_app in L. cbn [length] in L.
  assert (Lf : zlen front = 511) by (unfold zlen; lia). destruct (push_some n i front 0 f T ltac:(lia) ltac:(lia)) as [E T']. rewrite Lf in T'.
  rewrite push_words_app. unfold push_words at 1 3. cbn [fold_left]. rewrite (push_one n i 511 w _ T' ltac:(lia)). cbv zeta. rewrite Z.eqb_refl, E.
  set (h := stuffed 511 (le32 w) (stuffed 0 (concat (le32 <$> front)) f)). assert (Hb : fm_page_buffer h = page_data (front ++ [w])).
  { change (fm_page_buffer h) with (blit (blit (fm_page_buffer f) 0 (concat (le32 <$> front))) (Z.to_nat (4 * 511)) (le32 w)).
    unfold page_data. rewrite fmap_app, concat_app. change (concat (le32 <$> [w])) with (le32 w ++ []). rewrite app_nil_r.
    replace (Z.to_nat (4 * 511)) with (length (concat (le32 <$> front))) by (rewrite length_concat_le32; unfold zlen in Lf; lia). apply blit_both.
    pose proof (tk_buffer _ _ _ _ T) as B. unfold zlen, FMC_BYTES_PER_PAGE in *. rewrite length_concat_le32. change (length (le32 w)) with 4%nat. lia. }
  assert (Lw : length (front ++ [w]) = 512%nat) by (rewrite length_app; cbn [length]; lia). destruct T as [Hw _ Hc Hi [Hr _] _ _].
  destruct (page_streamed_ok n i (front ++ [w]) h) as [P Q]; [exact Hw|exact Hc|exact Hi|exact Hr|exact Hb|exact Lw|exact OK|exact C|by destruct G|].
  split; [exact P|exact Q].
Qed.

Lemma pad_one n i p w g : padding n i p g -> 4 <= p <= 16 ->
  let g' := fmc_fifo_push stack w g in
  (queue g', view g', fm_buffered_page g') = (queue g, view g, fm_buffered_page g) /\
  if (p =? 4) && (i =? n) then fm_is_writing g' = false /\ zlen (fm_page_buffer g') = FMC_BYTES_PER_PAGE else padding n i (p - 4) g'.
Proof.
  intros [Hw Hp Hc Hi Hd Hb] R. unfold fmc_fifo_push. rewrite Hw, Hp. cbn [negb]. rewrite (proj2 (Z.eqb_neq p 0)) by lia. cbn [negb]. cbv zeta.
  set (h := g <| fm_prog_pad ::= fun n => u32 (n - 4) |>). assert (Ep : fm_prog_pad h = p - 4) by (change (u32 (fm_prog_pad g - 4) = p - 4); rewrite Hp; apply u32_id; unfold is_u32; lia).
  rewrite Ep. change (fm_prog_index h) with (fm_prog_index g). change (fm_prog_count h) with (fm_prog_count g). rewrite Hi, Hc.
  destruct (Z.eqb_spec p 4) as [->|N]; [change (4 - 4 =? 0) with true|rewrite (proj2 (Z.eqb_neq (p - 4) 0)) by lia]; cbn [andb].
  - destruct (i =? n); [by split|]. split; [done|]. by split.
  - split; [done|]. by split.
Qed.

Lemma push_pad n i ws g : padding n i FMC_PROGRAM_PAD g -> 0 <= i <= n -> n <= FMC_MAX_LIST -> length ws = 4%nat ->
  let g' := push_words ws g in
  (queue g', view g', fm_buffered_page g') = (queue g, view g, fm_buffered_page g) /\
  if i =? n then fm_is_writing g' = false /\ zlen (fm_page_buffer g') = FMC_BYTES_PER_PAGE else taking n i 0 g'.
Proof.
  intros P Hi Hn L. destruct ws as [|w1 [|w2 [|w3 [|w4 [|]]]]]; try done. cbv zeta. unfold push_words. cbn [fold_left]. unfold FMC_PROGRAM_PAD in P.
  destruct (pad_one _ _ _ w1 _ P ltac:(lia)) as [E1 P1]. set (g1 := fmc_fifo_push stack w1 g) in *. clearbody g1. cbn [Z.eqb Pos.eqb andb] in P1.
  destruct (pad_one _ _ _ w2 _ P1 ltac:(lia)) as [E2 P2]. set (g2 := fmc_fifo_push stack w2 g1) in *. clearbody g2. cbn [Z.eqb Z.sub Z.add Z.opp Z.pos_sub Pos.eqb andb] in P2.
  destruct (pad_one _ _ _ w3 _ P2 ltac:(lia)) as [E3 P3]. set (g3 := fmc_fifo_push stack w3 g2) in *. clearbody g3. cbn [Z.eqb Z.sub Z.add Z.opp Z.pos_sub Pos.eqb andb] in P3.
  destruct (pad_one _ _ _ w4 _ P3 ltac:(lia)) as [E4 P4]. set (g4 := fmc_fifo_push stack w4 g3) in *. clearbody g4.
  split; [congruence|]. change (16 - 4 - 4 - 4 =? 4) with true in P4. cbn [andb] in P4. destruct (Z.eqb_spec i n) as [|N]; [done|]. destruct P4. split; try done; lia.
Qed.

(** The words of a program: each page and a pad. *)
Definition stream (pad : list Z) (pages : list (list Z)) : list Z := concat ((fun ws => ws ++ pad) <$> pages).

Fixpoint page_ops (f : S5L8900FMCState) (i : Z) (pages : list (list Z)) : list FlashOp :=
  match pages with
  | [] => []
  | ws :: pages => page_op f i ws :: page_ops f (i + 1) pages
  end.

Lemma page_ops_queue f g i pages : queue g = queue f -> page_ops g i pages = page_ops f i pages.
Proof.
  intros [= E1 E2 E3 _ _ _ _]. revert i. induction pages as [|ws pages IH]; intros i; [done|]. cbn [page_ops]. unfold page_op, meta_of. by rewrite E1, E2, E3, IH.
Qed.

Lemma staged_queue n f g : queue g = queue f -> staged n f -> staged n g.
Proof. intros [= E1 E2 E3 E4 _ _ _] [B V]. split; [by rewrite E3|]. intros i Hi. specialize (V i Hi). unfold valid in *. by rewrite E1, E2, E4. Qed.

Definition op_page_nonneg (op : FlashOp) : Prop := match op with Program _ page _ _ => 0 <= page | Erase _ _ => True end.

Lemma page_ops_nonneg n f pages : staged n f -> forall i, 0 <= i -> i + zlen pages <= n -> Forall op_page_nonneg (page_ops f i pages).
Proof.
  intros G. induction pages as [|ws pages IH]; intros i Hi Hl; [by apply Forall_nil_2|]. rewrite zlen_cons in Hl. pose proof (zlen_nonneg pages). apply Forall_cons_2.
  - destruct (sg_valid n f G i ltac:(lia)) as [_ V]. cbn. lia.
  - apply IH; lia.
Qed.

Lemma programs_trans f g h op ops : programs f g [op] -> programs g h ops -> Forall op_page_nonneg ops -> programs f h (op :: ops).
Proof.
  intros (Q1 & _ & _ & F1) (Q2 & OK & B & F2) N. split; [congruence|]. split; [done|]. split; [done|]. intros b p Hp. rewrite F2 by done. cbn [fold_left].
  by apply spec_run_ext.
Qed.

Lemma push_pages n pad pages : length pad = 4%nat -> Forall (fun ws => length ws = 512%nat) pages -> pages <> [] ->
  forall i f, i + zlen pages = n -> taking n i 0 f -> store_ok f -> calm f -> staged n f ->
  let g := push_words (stream pad pages) f in
  fm_is_writing g = false /\ zlen (fm_page_buffer g) = FMC_BYTES_PER_PAGE /\ programs f g (page_ops f i pages).
Proof.
  intros Lp F. induction F as [|ws pages L F IH]; [done|]. intros _ i f Hn T OK C G. cbv zeta. rewrite zlen_cons in Hn. pose proof (zlen_nonneg pages).
  unfold stream. rewrite fmap_cons, concat_cons, !push_words_app. fold (stream pad pages). pose proof (tk_range _ _ _ _ T) as [Hi Hm].
  destruct (push_data n i ws f T L OK C G) as [P PR]. set (g0 := push_words ws f) in *. clearbody g0.
  destruct (push_pad n (i + 1) pad g0 P ltac:(lia) Hm Lp) as [E R]. set (g1 := push_words pad g0) in *. clearbody g1.
  apply pair_equal_spec in E as [[EQ EV]%pair_equal_spec EB].
  assert (PR1 : programs f g1 [page_op f i ws]).
  { destruct PR as (Q & OK0 & B & S). split; [congruence|]. split; [apply (store_view g0); congruence|]. split; [congruence|]. intros b p Hp.
    rewrite <- S by done. apply flash_view. congruence. }
  pose proof PR1 as (Q1 & OK1 & B1 & S1). cbn [page_ops].
  destruct pages as [|ws' pages]; [rewrite (proj2 (Z.eqb_eq _ _)) in R by (rewrite zlen_nil in Hn; lia); by destruct R|].
  rewrite (proj2 (Z.eqb_neq _ _)) in R by (rewrite zlen_cons in Hn; pose proof (zlen_nonneg pages); lia).
  assert (C1 : calm g1) by (injection Q1 as _ _ _ _ _ Eh _; unfold calm in *; congruence).
  destruct (IH ltac:(done) (i + 1) g1 ltac:(lia) R OK1 C1 (staged_queue n f g1 Q1 G)) as (W & Z & S). split; [done|]. split; [done|].
  rewrite (page_ops_queue f g1) in S by done. apply (programs_trans f g1); [done|done|]. apply (page_ops_nonneg n); [done|lia|lia].
Qed.

End Stack.

(** ** A read through the FIFO *)

Lemma set_bank_active b f : 0 <= b < FMC_NUM_BANKS -> fmc_active_bank (s5l8900_fmc_set_bank b f) = b.
Proof.
  intros Hb. unfold fmc_active_bank, s5l8900_fmc_set_bank. cbv zeta. rewrite (proj2 (Z.ltb_lt _ _)) by lia. unfold FMC_NUM_BANKS in Hb.
  set (v := fm_fmctrl0 _). assert (E : Z.land (Z.shiftr v 1) 0xff = 2 ^ b).
  { change v with (Z.lor (Z.ldiff (fm_fmctrl0 f) (Z.shiftl 0xff 1)) (Z.shiftl 1 (b + 1))). change (Z.shiftl 0xff 1) with (Z.shiftl (Z.ones 8) 1).
    change 0xff with (Z.ones 8). apply Z.bits_inj'. intros i Hi.
    rewrite Z.land_spec, Z.shiftr_spec, Z.lor_spec, Z.ldiff_spec, Z.shiftl_spec by lia. rewrite Z.shiftl_1_l, !Z.pow2_bits_eqb by lia.
    replace (i + 1 - 1) with i by lia. rewrite mask_bit by lia. destruct (Z.ltb_spec i 8); cbn [negb]; rewrite ?andb_false_r, ?andb_true_r; cbn [orb].
    - destruct (Z.eqb_spec (b + 1) (i + 1)), (Z.eqb_spec b i); lia || done.
    - symmetry. apply Z.eqb_neq. lia. }
  rewrite E. assert (b = 0 \/ b = 1 \/ b = 2 \/ b = 3 \/ b = 4 \/ b = 5 \/ b = 6 \/ b = 7) as H by lia.
  repeat destruct H as [->|H]; [by vm_compute..|]. subst. by vm_compute.
Qed.

(** A page that is said to be in the buffer is in the buffer. *)
Definition coherent (f : S5L8900FMCState) : Prop := forall b p, valid f b p -> fm_buffered_bank f = b -> fm_buffered_page f = p ->
  fm_page_buffer f = ztake FMC_BYTES_PER_PAGE (flash f b p).

Definition buffers_fit (f : S5L8900FMCState) : Prop := buffers_ok (fm_page_buffer f, fm_page_spare_buffer f).

(** What taking a page into the buffer leaves. *)
Definition seat (f : S5L8900FMCState) :=
  (view f, fm_fmctrl0 f, fm_fmdnum f, fm_reading_multiple_pages f, fm_cur_bank_reading f, fm_banks_to_read f, fm_pages_to_read f, fm_cmd f).

Lemma seat_spec f g : seat g = seat f ->
  view g = view f /\ fm_fmctrl0 g = fm_fmctrl0 f /\ fm_fmdnum g = fm_fmdnum f /\ fm_reading_multiple_pages g = fm_reading_multiple_pages f /\
  fm_cur_bank_reading g = fm_cur_bank_reading f /\ fm_banks_to_read g = fm_banks_to_read f /\ fm_pages_to_read g = fm_pages_to_read f /\ fm_cmd g = fm_cmd f.
Proof. intros [= ? ? ? ? ? ? ? ? ? ? ?]. unfold view. repeat split; congruence. Qed.

Lemma buffer_page_ok f b p : store_ok f -> coherent f -> buffers_fit f -> fmc_active_bank f = b -> valid f b p ->
  let g := s5l8900_fmc_buffer_page p f in
  seat g = seat f /\ fm_page_buffer g = ztake FMC_BYTES_PER_PAGE (flash f b p) /\ fm_buffered_bank g = b /\ fm_buffered_page g = p /\ coherent g /\ buffers_fit g.
Proof.
  intros OK Co Fit Ea V. pose proof V as [Vb Vp]. unfold FMC_PAGES_PER_BLOCK, FMC_BLOCKS_PER_BANK in Vp. unfold s5l8900_fmc_buffer_page. cbv zeta. rewrite Ea.
  rewrite (proj2 (Z.ltb_ge b 0)) by lia. rewrite (s32_id p) by lia. rewrite <- negb_andb. destruct (_ && _) eqn:E; cbn [negb].
  { bool_hyps. split; [done|]. split; [by apply Co|]. split; [done|]. by split. }
  destruct (load_flash f b p (fm_page_buffer f) (fm_page_spare_buffer f) OK) as [L [RL _]]; [apply Fit|apply Fit|]. rewrite L. cbv beta iota.
  set (g := f <| fm_page_buffer := _ |> <| fm_page_spare_buffer := _ |> <| fm_buffered_page := _ |> <| fm_buffered_bank := _ |>).
  split; [done|]. split; [done|]. split; [done|]. split; [done|]. split; [by intros b' p' _ <- <-|].
  rewrite RECORD_eq in RL. split; cbn; rewrite ?zlen_ztake, ?zlen_zdrop, RL; unfold FMC_BYTES_PER_PAGE, FMC_BYTES_PER_SPARE; lia.
Qed.

(** The next word is the [t]-th of a read of [n] queued pages. *)
Record reading (n t : Z) (f : S5L8900FMCState) : Prop := {
  rg_multi : fm_reading_multiple_pages f = true;
  rg_cmd : fm_cmd f <> FMC_CMD_ID /\ fm_cmd f <> FMC_CMD_READSTATUS;
  rg_pages : zlen (fm_pages_to_read f) = FMC_MAX_LIST;
  rg_dnum : fm_fmdnum f = n * FMC_BYTES_PER_PAGE - 4 * t;
  rg_cur : fm_cur_bank_reading f = if t mod 512 =? 0 then t / 512 - 1 else t / 512;
  rg_active : t mod 512 <> 0 -> fmc_active_bank f = rd (fm_banks_to_read f) (t / 512);
  rg_coherent : coherent f;
  rg_fit : buffers_fit f
}.

Definition listed (f : S5L8900FMCState) (i : Z) : bytes := flash f (rd (fm_banks_to_read f) i) (rd (fm_pages_to_read f) i).

(** The [t]-th word of the queued pages. *)
Definition word_at (f : S5L8900FMCState) (t : Z) : Z := ld_le32 (ztake FMC_BYTES_PER_PAGE (listed f (t / 512))) (4 * (t mod 512)).

Definition lists (f : S5L8900FMCState) := (view f, fm_banks_to_read f, fm_pages_to_read f).

Lemma listed_lists f g i : lists g = lists f -> listed g i = listed f i.
Proof. intros E. apply pair_equal_spec in E as [[Ev Eb]%pair_equal_spec Ep]. unfold listed. by rewrite Eb, Ep, (flash_view g f). Qed.

Lemma set_bank_frame b f : let g := s5l8900_fmc_set_bank b f in
  lists g = lists f /\ fm_cur_bank_reading g = fm_cur_bank_reading f /\ fm_fmdnum g = fm_fmdnum f /\
  fm_reading_multiple_pages g = fm_reading_multiple_pages f /\ fm_cmd g = fm_cmd f.
Proof. unfold s5l8900_fmc_set_bank. by destruct (b <? _). Qed.

(** The controller when the page of the word was selected. *)
Lemma pop_selected n t f : store_ok f -> reading n t f -> 0 <= t < 512 * n -> n <= FMC_MAX_LIST ->
  (forall i, 0 <= i < n -> valid f (rd (fm_banks_to_read f) i) (rd (fm_pages_to_read f) i)) ->
  exists f1, s5l8900_fmc_read FMC_FMFIFO f = match pop_listed f1 with None => None | Some (v, s) => Some (v, next_word s) end /\
    lists f1 = lists f /\ fm_cur_bank_reading f1 = t / 512 /\ fm_fmdnum f1 = fm_fmdnum f /\ fmc_active_bank f1 = rd (fm_banks_to_read f) (t / 512) /\
    fm_reading_multiple_pages f1 = true /\ fm_cmd f1 = fm_cmd f /\ coherent f1 /\ buffers_fit f1.
Proof.
  intros OK [Hm [C1 C2] Hp Hd Hc Ha Co Fit] Ht Hn V. change (s5l8900_fmc_read FMC_FMFIFO f) with (fmc_fifo_pop f). unfold fmc_fifo_pop.
  rewrite (proj2 (Z.eqb_neq _ _) C1), (proj2 (Z.eqb_neq _ _) C2), Hm. cbv zeta. unfold FMC_BYTES_PER_PAGE, FMC_MAX_LIST in *.
  assert (Ef : (fm_fmdnum f mod 2048 =? 0) = (t mod 512 =? 0)).
  { rewrite Hd. destruct (Z.eqb_spec (t mod 512) 0), (Z.eqb_spec ((n * 2048 - 4 * t) mod 2048) 0); try done; Z.div_mod_to_equations; lia. }
  rewrite Ef. assert (Hj : 0 <= t / 512 < n) by (Z.div_mod_to_equations; lia). destruct (Z.eqb_spec (t mod 512) 0) as [E0|N0]; cbn [andb].
  - set (h := f <| fm_cur_bank_reading ::= _ |>). assert (Ec : fm_cur_bank_reading h = t / 512) by (change (fm_cur_bank_reading f + 1 = t / 512); lia).
    rewrite Ec, (proj2 (Z.leb_gt _ _)) by lia. change (fm_banks_to_read h) with (fm_banks_to_read f). eexists. split; [done|].
    pose proof (proj1 OK) as Hb. unfold FMC_NUM_BANKS in Hb. destruct (V _ Hj) as [Vb _].
    destruct (set_bank_frame (rd (fm_banks_to_read f) (t / 512)) h) as (S1 & S2 & S3 & S4 & S5). split; [done|]. split; [congruence|]. split; [done|].
    split; [apply set_bank_active; unfold FMC_NUM_BANKS; lia|]. split; [rewrite S4; exact Hm|]. split; [exact S5|].
    unfold coherent, buffers_fit, s5l8900_fmc_set_bank. by destruct (_ <? _).
  - exists f. by rewrite Hc, Ha.
Qed.

Lemma pop_one n t f : store_ok f -> reading n t f -> 0 <= t < 512 * n -> n <= FMC_MAX_LIST ->
  (forall i, 0 <= i < n -> valid f (rd (fm_banks_to_read f) i) (rd (fm_pages_to_read f) i)) ->
  exists g, s5l8900_fmc_read FMC_FMFIFO f = Some (word_at f t, g) /\
    reading n (t + 1) g /\ lists g = lists f.
Proof.
  intros OK RG Ht Hn V. unfold word_at. destruct (pop_selected n t f OK RG Ht Hn V) as (f1 & -> & El & Ec & Ed & Ea & Em & Ek & Co & Fit).
  destruct RG as [_ Hk Hp Hd _ _ _ _]. apply pair_equal_spec in El as [[Ev Eb]%pair_equal_spec Ep]. assert (Hj : 0 <= t / 512 < n) by (Z.div_mod_to_equations; lia).
  specialize (V _ Hj). assert (V1 : valid f1 (rd (fm_banks_to_read f) (t / 512)) (rd (fm_pages_to_read f) (t / 512))).
  { destruct V as [V1 V2]. split; [|done]. assert (fm_banks f1 = fm_banks f) as -> by (by injection Ev). done. }
  destruct (buffer_page_ok f1 _ _ (store_view f f1 (eq_sym Ev) OK) Co Fit Ea V1) as (S & B & Bb & Bp & Co2 & Fit2). unfold pop_listed. rewrite Ec, Ep.
  rewrite (proj2 (Z.leb_le 0 (t / 512))) by lia. unfold zget. rewrite (proj2 (Z.ltb_ge (t / 512) 0)) by lia.
  rewrite (rd_lookup (fm_pages_to_read f)) by (rewrite Hp; unfold FMC_MAX_LIST in *; lia).
  set (g := s5l8900_fmc_buffer_page _ f1) in *. clearbody g. cbv beta iota zeta. destruct (seat_spec _ _ S) as (S1 & S2 & S3 & S4 & S5 & S6 & S7 & S8). clear S.
  eexists. split; [f_equal; f_equal|].
  - rewrite B. unfold listed. rewrite (flash_view f1 f) by done. f_equal. f_equal. rewrite Ed, Hd. unfold FMC_BYTES_PER_PAGE.
    destruct (Z.eqb_spec ((n * 2048 - 4 * t) mod 2048) 0); Z.div_mod_to_equations; lia.
  - assert (Hq : (t + 1) mod 512 <> 0 -> (t + 1) / 512 = t / 512) by (Z.div_mod_to_equations; lia). split; [|change (lists (next_word g)) with (lists g); unfold lists; congruence]. split; cbn.
    + congruence.
    + replace (fm_cmd g) with (fm_cmd f) by congruence. done.
    + congruence.
    + replace (fm_fmdnum g) with (fm_fmdnum f) by congruence. rewrite Hd. unfold FMC_BYTES_PER_PAGE, FMC_MAX_LIST in *. rewrite u32_id by (unfold is_u32; lia). lia.
    + replace (fm_cur_bank_reading g) with (t / 512) by congruence. destruct (Z.eqb_spec ((t + 1) mod 512) 0); Z.div_mod_to_equations; lia.
    + intros N. rewrite (Hq N). change (fmc_active_bank g = rd (fm_banks_to_read g) (t / 512)). replace (fm_banks_to_read g) with (fm_banks_to_read f) by congruence.
      rewrite <- Ea. unfold fmc_active_bank. by replace (fm_fmctrl0 g) with (fm_fmctrl0 f1) by congruence.
    + exact Co2.
    + exact Fit2.
Qed.

Fixpoint pops (k : nat) (f : S5L8900FMCState) : option (list Z * S5L8900FMCState) :=
  match k with
  | O => Some ([], f)
  | S k =>
      match s5l8900_fmc_read FMC_FMFIFO f with
      | None => None
      | Some (v, f) => match pops k f with None => None | Some (vs, f) => Some (v :: vs, f) end
      end
  end.

Lemma pops_spec n k : forall t f, store_ok f -> reading n t f -> 0 <= t -> t + Z.of_nat k <= 512 * n -> n <= FMC_MAX_LIST ->
  (forall i, 0 <= i < n -> valid f (rd (fm_banks_to_read f) i) (rd (fm_pages_to_read f) i)) ->
  exists g, pops k f = Some (word_at f <$> seqZ t (Z.of_nat k), g) /\ lists g = lists f.
Proof.
  induction k as [|k IH]; intros t f OK RG Ht Hl Hn V; [by exists f|]. cbn [pops].
  destruct (pop_one n t f OK RG ltac:(lia) Hn V) as (g & -> & RG' & El). pose proof El as El'. apply pair_equal_spec in El' as [[Ev Eb]%pair_equal_spec Ep].
  destruct (IH (t + 1) g) as (h & -> & Eh); [by apply (store_view f)|done|lia|lia|done| |].
  { intros i Hi. destruct (V i Hi) as [V1 V2]. rewrite Eb, Ep. split; [|done]. assert (fm_banks g = fm_banks f) as -> by (by injection Ev). done. }
  exists h. split; [|congruence]. rewrite (seqZ_cons t) by lia. replace (Z.pred (Z.of_nat (S k))) with (Z.of_nat k) by lia. change (Z.succ t) with (t + 1).
  rewrite fmap_cons. assert (word_at g <$> seqZ (t + 1) (Z.of_nat k) = word_at f <$> seqZ (t + 1) (Z.of_nat k)) as ->; [|done].
  apply list_fmap_ext. intros i x _. unfold word_at. by rewrite (listed_lists f g).
Qed.

Definition page_ok (ws : list Z) : Prop := length ws = 512%nat /\ Forall is_u32 ws.

Lemma words_concat (w : Z -> Z) pages : Forall page_ok pages -> forall j, 0 <= j ->
  (forall i ws k v, pages !! i = Some ws -> ws !! k = Some v -> w (512 * (j + Z.of_nat i) + Z.of_nat k) = v) ->
  w <$> seqZ (512 * j) (512 * zlen pages) = concat pages.
Proof.
  induction 1 as [|ws pages [L _] F IH]; intros j Hj H; [done|]. rewrite zlen_cons. pose proof (zlen_nonneg pages).
  replace (512 * (zlen pages + 1)) with (512 + 512 * zlen pages) by lia. rewrite seqZ_app, fmap_app by lia. cbn [concat]. f_equal.
  - apply list_eq. intros k. rewrite list_lookup_fmap. destruct (ws !! k) as [v|] eqn:E.
    + pose proof (lookup_lt_Some _ _ _ E). rewrite lookup_seqZ_lt by lia. cbn. f_equal. rewrite <- (H 0%nat ws k v eq_refl E). f_equal. lia.
    + apply lookup_ge_None in E. by rewrite lookup_seqZ_ge by lia.
  - replace (512 * j + 512) with (512 * (j + 1)) by lia. apply IH; [lia|]. intros i ws' k v E1 E2. rewrite <- (H (S i) ws' k v E1 E2). f_equal. lia.
Qed.

Lemma word_listed f pages : Forall page_ok pages ->
  (forall i ws, pages !! i = Some ws -> exists spare, listed f (Z.of_nat i) = page_data ws ++ spare) ->
  word_at f <$> seqZ 0 (512 * zlen pages) = concat pages.
Proof.
  intros F H. apply (words_concat (word_at f) pages F 0); [lia|]. intros i ws k v E1 E2. destruct (H i ws E1) as [spare E].
  destruct (Forall_lookup_1 _ _ _ _ F E1) as [L U]. pose proof (lookup_lt_Some _ _ _ E2). unfold word_at.
  replace ((512 * (0 + Z.of_nat i) + Z.of_nat k) / 512) with (Z.of_nat i) by (Z.div_mod_to_equations; lia).
  replace ((512 * (0 + Z.of_nat i) + Z.of_nat k) mod 512) with (Z.of_nat k) by (Z.div_mod_to_equations; lia).
  rewrite E, <- (zlen_page ws L), ztake_app_len. unfold page_data. rewrite <- (app_nil_r (concat _)). apply ld_le32_concat; [done|]. by apply (Forall_lookup_1 _ _ _ _ U E2).
Qed.

(** ** Rows of pages over all banks *)

Lemma zlen_over {A} (new l : list A) : zlen new <= zlen l -> zlen (over new l) = zlen l.
Proof. intros H. unfold over. rewrite zlen_app, zlen_zdrop. pose proof (zlen_nonneg new). lia. Qed.

Lemma rd_over new l i : 0 <= i < zlen new -> rd (over new l) i = rd new i.
Proof. intros H. unfold over. rewrite rd_app by lia. by rewrite (proj2 (Z.ltb_lt _ _)) by lia. Qed.

Lemma rd_seqZ (g : Z -> Z) n i : 0 <= i < n -> rd (g <$> seqZ 0 n) i = g i.
Proof. intros H. unfold rd. rewrite list_lookup_fmap, lookup_seqZ_lt by lia. cbn. f_equal. lia. Qed.

Lemma zlen_seqZ {A} (g : Z -> A) n : 0 <= n -> zlen (g <$> seqZ 0 n) = n.
Proof. intros H. unfold zlen. rewrite length_fmap, length_seqZ. lia. Qed.

(** The sizes of the controller's arrays. *)
Record fmc_wf (f : S5L8900FMCState) : Prop := {
  fw_page : zlen (fm_page_buffer f) = FMC_BYTES_PER_PAGE;
  fw_spare : zlen (fm_page_spare_buffer f) = FMC_BYTES_PER_SPARE;
  fw_banks : zlen (fm_banks_to_read f) = FMC_MAX_LIST;
  fw_pages : zlen (fm_pages_to_read f) = FMC_MAX_LIST;
  fw_spares : zlen (fm_prog_spares f) = FMC_MAX_LIST * FMC_META_BYTES /\ is_bytes (fm_prog_spares f)
}.

(** [n] pages from [page] on, whole rows inside the chips. *)
Record row_ok (nb page n : Z) : Prop := {
  ro_banks : 0 < nb;
  ro_count : 0 < n <= FMC_MAX_LIST;
  ro_whole : n mod nb = 0;
  ro_page : 0 <= page /\ page + n / nb <= FMC_PAGES_PER_BLOCK * FMC_BLOCKS_PER_BANK
}.

Lemma row_div nb page n i : row_ok nb page n -> 0 <= i < n -> 0 <= i mod nb < nb /\ 0 <= i / nb /\ page + i / nb < FMC_PAGES_PER_BLOCK * FMC_BLOCKS_PER_BANK.
Proof.
  intros [Hb _ Hw Hp] Hi. split; [by apply Z.mod_pos_bound|]. split; [apply Z.div_pos; lia|].
  assert (i / nb < n / nb); [|lia]. apply Z.div_lt_upper_bound; [done|]. rewrite <- Z_div_exact_2; lia.
Qed.

Lemma row_inj nb i j : 0 < nb -> i mod nb = j mod nb -> i / nb = j / nb -> i = j.
Proof. intros H E1 E2. rewrite (Z.div_mod i nb), (Z.div_mod j nb) by lia. by rewrite E1, E2. Qed.

Lemma queue_rows_spec page n f : fmc_wf f -> row_ok (fm_banks f) page n ->
  let g := queue_rows page (fm_banks f) n f in
  zlen (fm_banks_to_read g) = FMC_MAX_LIST /\ zlen (fm_pages_to_read g) = FMC_MAX_LIST /\
  forall i, 0 <= i < n -> rd (fm_banks_to_read g) i = i mod fm_banks f /\ rd (fm_pages_to_read g) i = page + i / fm_banks f.
Proof.
  intros [_ _ Wb Wp _] R. pose proof (ro_count _ _ _ R) as Hn. cbv zeta. unfold queue_rows.
  assert (L : forall g : Z -> Z, zlen (g <$> seqZ 0 n) = n) by (intros g; apply zlen_seqZ; lia).
  cbn [fm_banks_to_read fm_pages_to_read upd upd_fm_banks_to_read upd_fm_pages_to_read].
  split; [rewrite zlen_over; [done|]; rewrite L, Wb; lia|]. split; [rewrite zlen_over; [done|]; rewrite L, Wp; lia|].
  intros i Hi. destruct (row_div _ _ _ i R Hi) as (_ & H1 & H2). pose proof (ro_page _ _ _ R). unfold FMC_PAGES_PER_BLOCK, FMC_BLOCKS_PER_BANK in *.
  split; (rewrite rd_over by (rewrite L; lia)); rewrite rd_seqZ by lia; [done|]. apply u32_id. unfold is_u32. lia.
Qed.

(** ** What programs of different pages leave *)

Definition op_key (op : FlashOp) : Z * Z := match op with Program bank page _ _ => (bank, page) | Erase bank block => (bank, block) end.
Definition is_program (op : FlashOp) : Prop := match op with Program _ _ _ _ => True | Erase _ _ => False end.

Lemma fold_other ops v b p : Forall is_program ops -> (b, p) ∉ (op_key <$> ops) -> fold_left spec_op ops v b p = v b p.
Proof.
  intros F. revert v. induction F as [|op ops P F IH]; intros v H; [done|]. rewrite fmap_cons, not_elem_of_cons in H. destruct H as [N H].
  cbn [fold_left]. rewrite IH by done. destruct op as [bank page data spare|]; [|done]. cbn in *. by rewrite decide_False.
Qed.

Lemma fold_programmed ops i bank page data spare v : Forall is_program ops -> NoDup (op_key <$> ops) -> ops !! i = Some (Program bank page data spare) ->
  fold_left spec_op ops v bank page = zip_with Z.land (v bank page) (data ++ spare).
Proof.
  intros F. revert i v. induction F as [|op ops P F IH]; intros i v N E; [done|]. rewrite fmap_cons, NoDup_cons in N. destruct N as [N1 N2]. destruct i as [|i].
  - injection E as ->. cbn [fold_left]. rewrite fold_other; [|done|done]. cbn. by rewrite decide_True.
  - cbn [fold_left]. rewrite (IH i) by done. destruct op as [bank' page' data' spare'|]; [|done]. cbn. rewrite decide_False; [done|]. intros Ek. apply N1.
    change (op_key (Program bank' page' data' spare')) with (bank', page'). rewrite <- Ek.
    apply list_elem_of_fmap. exists (Program bank page data spare). split; [done|]. by eapply list_elem_of_lookup_2.
Qed.

Lemma page_op_key f i ws : op_key (page_op f i ws) = (rd (fm_banks_to_read f) i, rd (fm_pages_to_read f) i).
Proof. done. Qed.

Lemma page_ops_lookup f pages : forall i j, page_ops f i pages !! j = (fun ws => page_op f (i + Z.of_nat j) ws) <$> pages !! j.
Proof.
  induction pages as [|ws pages IH]; intros i [|j]; try done; cbn [page_ops lookup list_lookup fmap option_fmap option_map].
  - by rewrite Z.add_0_r.
  - rewrite IH. by replace (i + 1 + Z.of_nat j) with (i + Z.of_nat (S j)) by lia.
Qed.

Lemma page_ops_programs f pages i : Forall is_program (page_ops f i pages).
Proof. revert i. induction pages as [|ws pages IH]; intros i; [by apply Forall_nil_2|]. by apply Forall_cons_2. Qed.

Lemma land_erased l : record l -> zip_with Z.land erased_record l = l.
Proof.
  intros [H B]. change erased_record with (replicate (Z.to_nat RECORD) 0xff). rewrite <- H. unfold zlen. rewrite Nat2Z.id. clear H.
  induction B as [|x l Hx B IH]; [done|]. cbn [length replicate zip_with]. f_equal; [|done]. unfold is_byte in Hx.
  rewrite Z.land_comm. change 0xff with (Z.ones 8). by apply land_mask.
Qed.

(** ** Commands of the front end *)

(** The command block in guest memory asks for [cmd] on [n] pages from [page] on. *)
Definition posted (cmd n page : Z) (w : Flash) : Prop :=
  let '(tf, s) := adm_find_tf (fl_mem w) (fl_adm w) in
  let cmdblk := u32 (am_data2_sec_addr s + tf) in
  ld_le32 (phys_read (fl_mem w) (cmdblk + ADM_CMD_OFFSET) 4) 0 = cmd /\
  adm_read_be16 (fl_mem w) (cmdblk + ADM_CMD_NPAGES) = n /\
  adm_read_be32 (fl_mem w) (cmdblk + adm_pages_off s) = page.

Definition data3 (w : Flash) : Z := am_data3_sec_addr (fl_adm w).

Lemma find_tf_data3 mem s : am_data3_sec_addr (adm_find_tf mem s).2 = am_data3_sec_addr s.
Proof. unfold adm_find_tf. destruct (negb _); [done|]. by destruct (List.find _ _). Qed.

Section Commands.
Variable stack : bytes * bytes.
Hypothesis stack_ok : buffers_ok stack.

(** A started command leaves the section's address and raises the line. *)
Lemma start_command cmd n page w f : posted cmd n page w -> fl_fmc w = Some f -> n <= FMC_MAX_LIST ->
  exists cmdblk pages s, am_data3_sec_addr s = data3 w /\ adm_read_be32 (fl_mem w) (cmdblk + pages) = page /\
    s5l8900_adm_write stack ADM_CTRL2 2 w = (adm_command stack cmd n cmdblk pages s f (fl_mem w)) <| fl_adm; am_irq := true |>.
Proof.
  intros P Ef Hn. change (s5l8900_adm_write stack ADM_CTRL2 2 w) with ((adm_run_command stack w) <| fl_adm; am_irq := true |>).
  unfold adm_run_command, posted, data3 in *. pose proof (find_tf_data3 (fl_mem w) (fl_adm w)) as D. destruct (adm_find_tf (fl_mem w) (fl_adm w)) as [tf s].
  cbn [snd] in D. cbv zeta in *. destruct P as (-> & -> & Hp). rewrite Ef, (proj2 (Z.ltb_ge _ _)) by done.
  eexists _, _, _. split; [|split; [exact Hp|done]]. exact D.
Qed.

Definition write_queued (page n d3 : Z) (mem : Z -> Z) (f : S5L8900FMCState) : S5L8900FMCState :=
  s5l8900_fmc_start_program n ((queue_rows page (fm_banks f) n f) <| fm_prog_spares ::= over (phys_read mem d3 (n * FMC_META_BYTES)) |>).

Lemma write_seq page n w f : posted ADM_CMD_WRITE_SEQ n page w -> fl_fmc w = Some f -> row_ok (fm_banks f) page n ->
  let w1 := s5l8900_adm_write stack ADM_CTRL2 2 w in
  fl_fmc w1 = Some (write_queued page n (data3 w) (fl_mem w) f) /\ data3 w1 = data3 w /\ am_irq (fl_adm w1) = true.
Proof.
  intros P Ef [_ [_ Hn] Hw _]. destruct (start_command _ _ _ w f P Ef Hn) as (cb & pg & s & D & Hp & E). cbv zeta. rewrite E.
  unfold adm_command. cbv zeta. rewrite Hp, Hw, Z.sub_0_r, D. split; [done|]. split; [exact D|done].
Qed.

Lemma read_seq page n w f : posted ADM_CMD_READ_SEQ n page w -> fl_fmc w = Some f -> row_ok (fm_banks f) page n ->
  let w1 := s5l8900_adm_write stack ADM_CTRL2 2 w in
  let g := start_reading n (queue_rows page (fm_banks f) n f) in
  fl_fmc w1 = Some g /\ fl_mem w1 = adm_report_spares stack n (data3 w) g (fl_mem w) /\ am_irq (fl_adm w1) = true.
Proof.
  intros P Ef [Hb [_ Hn] Hw _]. destruct (start_command _ _ _ w f P Ef Hn) as (cb & pg & s & D & Hp & E). cbv zeta. rewrite E.
  unfold adm_command. cbv zeta. rewrite Hp, D. assert (n / fm_banks f * fm_banks f = n) as -> by (Z.div_mod_to_equations; lia). by split.
Qed.

(** The metadata of every queued page is in memory afterwards. *)
Lemma report_spec k : forall i b d3 f mem, store_ok f -> buffers_ok b -> 0 <= i -> 0 <= d3 -> d3 + 12 * (i + Z.of_nat k) <= 4294967296 ->
  (forall j, 0 <= j < i -> phys_read (report_loop k i b d3 f mem) (d3 + 12 * j) 12 = phys_read mem (d3 + 12 * j) 12) /\
  (forall j, i <= j < i + Z.of_nat k -> phys_read (report_loop k i b d3 f mem) (d3 + 12 * j) 12 = ztake 12 (zdrop FMC_BYTES_PER_PAGE (listed f j))).
Proof.
  induction k as [|k IH]; intros i b d3 f mem OK Hb Hi Hd Hl; [split; [done|intros; lia]|]. cbn [report_loop].
  destruct (load_flash f (rd (fm_banks_to_read f) i) (rd (fm_pages_to_read f) i) b.1 b.2 OK) as [L [RL _]]; [apply Hb|apply Hb|].
  rewrite L. cbn [fst snd]. fold (listed f i) in *. set (b' := (ztake FMC_BYTES_PER_PAGE (listed f i), zdrop FMC_BYTES_PER_PAGE (listed f i))).
  assert (Hb' : buffers_ok b').
  { rewrite RECORD_eq in RL. split; cbn; rewrite ?zlen_ztake, ?zlen_zdrop, RL; unfold FMC_BYTES_PER_PAGE, FMC_BYTES_PER_SPARE; lia. }
  rewrite (u32_id (d3 + i * 12)) by (unfold is_u32; lia). set (m := ztake 12 (zdrop FMC_BYTES_PER_PAGE (listed f i))).
  assert (Lm : zlen m = 12) by (unfold m; rewrite zlen_ztake, zlen_zdrop, RL, RECORD_eq; unfold FMC_BYTES_PER_PAGE; lia).
  destruct (IH (i + 1) b' d3 f (phys_write mem (d3 + i * 12) m) OK Hb' ltac:(lia) Hd ltac:(lia)) as [A B]. split.
  - intros j Hj. rewrite A by lia. apply phys_read_other. lia.
  - intros j Hj. destruct (Z.eq_dec j i) as [->|N]; [|apply B; lia]. rewrite A by lia. replace (d3 + 12 * i) with (d3 + i * 12) by lia.
    pose proof (phys_read_written mem (d3 + i * 12) m) as W. rewrite Lm in W. exact W.
Qed.

(** The words of a program, written to the FIFO. *)
Definition fifo_writes (ws : list Z) (w : Flash) : Flash :=
  w <| fl_fmc ::= fmap (fun f => fold_left (fun f v => s5l8900_fmc_write stack FMC_FMFIFO v f) ws f) |>.

Lemma queued_taking page n d3 mem f : fmc_wf f -> row_ok (fm_banks f) page n -> (forall x, is_byte (mem x)) ->
  let g := write_queued page n d3 mem f in
  taking n 0 0 g /\ staged n g /\ (forall i, 0 <= i < n -> meta_of g i = phys_read mem (d3 + 12 * i) 12).
Proof.
  intros W R Bm. pose proof (ro_count _ _ _ R) as Hn. destruct (queue_rows_spec page n f W R) as (_ & _ & Q). cbv zeta. pose proof W as [W1 _ _ _ [W5 W6]].
  assert (LX : zlen (phys_read mem d3 (n * FMC_META_BYTES)) = n * 12) by (apply zlen_phys_read; unfold FMC_META_BYTES; lia). split; [|split].
  - split; try done; [|lia]. cbn. apply Z.ltb_lt. lia.
  - split.
    + cbn. apply is_bytes_app. split; [by apply is_bytes_phys_read|by apply is_bytes_drop].
    + intros i Hi. destruct (Q i Hi) as [E1 E2]. destruct (row_div _ _ _ i R Hi) as (H1 & H2 & H3). pose proof (ro_page _ _ _ R).
      change (valid f (rd (fm_banks_to_read (queue_rows page (fm_banks f) n f)) i) (rd (fm_pages_to_read (queue_rows page (fm_banks f) n f)) i)).
      rewrite E1, E2. split; lia.
  - intros i Hi. change (ztake 12 (zdrop (12 * i) (over (phys_read mem d3 (n * FMC_META_BYTES)) (fm_prog_spares f))) = phys_read mem (d3 + 12 * i) 12).
    unfold over. rewrite zdrop_app_l by lia. rewrite ztake_app_l by (rewrite zlen_zdrop; lia).
    apply list_eq_rd; [rewrite zlen_ztake, zlen_zdrop, LX, zlen_phys_read; lia|]. rewrite zlen_ztake, zlen_zdrop, LX. intros j Hj.
    rewrite rd_ztake, rd_zdrop by lia. unfold rd. rewrite !phys_read_lookup by (unfold FMC_META_BYTES; lia). cbn. f_equal. lia.
Qed.

(** The state of the flash and of the controller when the rows were streamed. *)
Lemma row_streamed page n d3 mem f pad pages : fmc_wf f -> store_ok f -> calm f -> row_ok (fm_banks f) page n -> (forall x, is_byte (mem x)) ->
  length pad = 4%nat -> Forall page_ok pages -> zlen pages = n ->
  let g0 := write_queued page n d3 mem f in
  let g := push_words stack (stream pad pages) g0 in
  fmc_wf g /\ fm_buffered_page g = -1 /\ store_ok g /\ fm_banks g = fm_banks f /\ fm_cmd g = fm_cmd f /\ fm_is_writing g = false /\
  (forall b p, 0 <= p -> (forall i, 0 <= i < n -> (b, p) <> (i mod fm_banks f, page + i / fm_banks f)) -> flash g b p = flash f b p) /\
  (forall i ws, pages !! i = Some ws -> let j := Z.of_nat i in
     flash g (j mod fm_banks f) (page + j / fm_banks f) =
     zip_with Z.land (flash f (j mod fm_banks f) (page + j / fm_banks f)) (page_data ws ++ spare_of (phys_read mem (d3 + 12 * j) 12))).
Proof.
  intros W OK C R Bm Lp F Ln. destruct (queued_taking page n d3 mem f W R Bm) as (T & G & M). destruct (queue_rows_spec page n f W R) as (Q1 & Q2 & Q).
  cbv zeta. set (g0 := write_queued page n d3 mem f) in *. pose proof (ro_count _ _ _ R) as Hn.
  assert (Q' : forall i, 0 <= i < n -> rd (fm_banks_to_read g0) i = i mod fm_banks f /\ rd (fm_pages_to_read g0) i = page + i / fm_banks f) by exact Q.
  assert (F' : Forall (fun ws => length ws = 512%nat) pages) by (apply (Forall_impl _ _ _ F); by intros ws []).
  assert (Np : pages <> []) by (intros ->; rewrite zlen_nil in Ln; lia).
  assert (LS : zlen (fm_prog_spares g0) = FMC_MAX_LIST * FMC_META_BYTES).
  { change (zlen (over (phys_read mem d3 (n * FMC_META_BYTES)) (fm_prog_spares f)) = FMC_MAX_LIST * FMC_META_BYTES). pose proof (proj1 (fw_spares _ W)) as S5.
    unfold FMC_META_BYTES, FMC_MAX_LIST in *. rewrite zlen_over; [done|]. rewrite zlen_phys_read, S5; lia. }
  destruct (push_pages stack stack_ok n pad pages Lp F' Np 0 g0 ltac:(lia) T OK C G) as (Hw & Lb & Qe & OKg & Bp & Fl).
  set (g := push_words stack _ g0) in *. clearbody g. injection Qe as E1 E2 E3 E4 E5 _ E7. pose proof (fw_spare _ W) as S2.
  assert (Lo : forall i op, page_ops g0 0 pages !! i = Some op -> exists ws, pages !! i = Some ws /\ op = page_op g0 (Z.of_nat i) ws /\ 0 <= Z.of_nat i < n).
  { intros i op E. rewrite page_ops_lookup in E. apply fmap_Some in E as (ws & Ew & ->). exists ws. split; [done|]. split; [done|].
    apply lookup_lt_Some in Ew. unfold zlen in Ln. lia. }
  split; [split; [exact Lb|congruence|rewrite E1; exact Q1|rewrite E2; exact Q2|rewrite E3; split; [exact LS|apply G]]|]. split; [done|]. split; [done|]. split; [done|]. split; [done|]. split; [done|]. split.
  - intros b p Hp Hne. rewrite Fl by done. rewrite fold_other; [done|apply page_ops_programs|]. intros (op & Ek & He)%list_elem_of_fmap.
    apply list_elem_of_lookup in He as [i Hi]. destruct (Lo i op Hi) as (ws & _ & -> & Hr). destruct (Q' _ Hr) as [A B]. rewrite page_op_key, A, B in Ek. by apply (Hne _ Hr).
  - intros i ws E. assert (Hr : 0 <= Z.of_nat i < n) by (apply lookup_lt_Some in E; unfold zlen in Ln; lia). destruct (Q' _ Hr) as [A B].
    destruct (row_div _ _ _ _ R Hr) as (_ & Hd & _). pose proof (ro_page _ _ _ R) as Hp.
    rewrite Fl by lia. rewrite <- M by done. apply (fold_programmed _ i); [apply page_ops_programs| |].
    + apply NoDup_alt. intros i1 i2 [b p] H1 H2. rewrite list_lookup_fmap in H1, H2. apply fmap_Some in H1 as (op1 & O1 & K1). apply fmap_Some in H2 as (op2 & O2 & K2).
      destruct (Lo _ _ O1) as (ws1 & _ & -> & R1). destruct (Lo _ _ O2) as (ws2 & _ & -> & R2). destruct (Q' _ R1) as [A1 B1]. destruct (Q' _ R2) as [A2 B2].
      rewrite page_op_key, A1, B1 in K1. rewrite page_op_key, A2, B2 in K2. injection K1 as -> ->. injection K2 as K3 K4.
      apply Nat2Z.inj. apply (row_inj (fm_banks f)); [apply R|done|lia].
    + rewrite page_ops_lookup, E. cbn [fmap option_fmap option_map]. rewrite Z.add_0_l. unfold page_op. by rewrite A, B.
Qed.

Lemma reading_queued page n g : fmc_wf g -> row_ok (fm_banks g) page n -> fm_buffered_page g = -1 ->
  fm_cmd g <> FMC_CMD_ID /\ fm_cmd g <> FMC_CMD_READSTATUS -> reading n 0 (start_reading n (queue_rows page (fm_banks g) n g)).
Proof.
  intros W R B C. destruct (queue_rows_spec page n g W R) as (_ & Q2 & _). split; try done.
  - change (n * FMC_BYTES_PER_PAGE = n * FMC_BYTES_PER_PAGE - 4 * 0). lia.
  - intros b p [_ V] _ E. change (fm_buffered_page g = p) in E. lia.
  - destruct W. split; cbn; lia.
Qed.

Lemma meta_kept m : zlen m = 12 -> ztake 12 (spare_of m) = m.
Proof.
  intros L. unfold spare_of, zlen in *. rewrite blit_splice by (rewrite length_replicate; unfold FMC_BYTES_PER_SPARE; lia). unfold ztake.
  replace (Z.to_nat 12) with (length m) by lia. change (take (length m) (m ++ drop (0 + length m) (replicate (Z.to_nat FMC_BYTES_PER_SPARE) 255)) = m). apply take_app_length.
Qed.

(** C23. A row of pages over all banks that the driver programs, by a command block in
    guest memory and the words of every page followed by a pad, and then reads, by
    another command and the FIFO, comes back word for word if the pages were
    erased; the metadata it gave each page is where the read reports it, and every
    page outside the row is as it was.  The calls of the host succeed, and the
    command register was not left at the ID or the status command, which answer the
    FIFO themselves. *)
Theorem nand_row_roundtrip f w mem2 page n pad pages :
  fl_fmc w = Some f -> fmc_wf f -> store_ok f -> calm f -> fm_cmd f <> FMC_CMD_ID /\ fm_cmd f <> FMC_CMD_READSTATUS ->
  row_ok (fm_banks f) page n -> zlen pages = n -> Forall page_ok pages -> length pad = 4%nat ->
  (forall x, is_byte (fl_mem w x)) -> 0 <= data3 w -> data3 w + 12 * n <= 4294967296 ->
  (forall i, 0 <= i < n -> flash f (i mod fm_banks f) (page + i / fm_banks f) = erased_record) ->
  posted ADM_CMD_WRITE_SEQ n page w ->
  let w1 := fifo_writes (stream pad pages) (s5l8900_adm_write stack ADM_CTRL2 2 w) in
  let w2 := w1 <| fl_mem := mem2 |> in
  posted ADM_CMD_READ_SEQ n page w2 ->
  let w3 := s5l8900_adm_write stack ADM_CTRL2 2 w2 in
  exists f3 f4, fl_fmc w3 = Some f3 /\ pops (Z.to_nat (512 * n)) f3 = Some (concat pages, f4) /\
    (forall i, 0 <= i < n -> phys_read (fl_mem w3) (data3 w + 12 * i) 12 = phys_read (fl_mem w) (data3 w + 12 * i) 12) /\
    (forall b p, 0 <= p -> (forall i, 0 <= i < n -> (b, p) <> (i mod fm_banks f, page + i / fm_banks f)) -> flash f4 b p = flash f b p).
Proof.
  intros Ef W OK C Hc R Ln F Lp Bm D0 D1 Er P1. cbv zeta. intros P2. destruct (write_seq page n w f P1 Ef R) as (F1 & E3 & _).
  destruct (row_streamed page n (data3 w) (fl_mem w) f pad pages W OK C R Bm Lp F Ln) as (Wg & Bg & OKg & Nb & Ck & _ & Out & In).
  set (w1 := s5l8900_adm_write stack ADM_CTRL2 2 w) in *. clearbody w1. set (g := push_words stack (stream pad pages) _) in *.
  set (w2 := (fifo_writes _ w1) <| fl_mem := mem2 |>) in *. assert (F2 : fl_fmc w2 = Some g).
  { change (fl_fmc w2) with (push_words stack (stream pad pages) <$> fl_fmc w1). by rewrite F1. }
  assert (E2 : data3 w2 = data3 w) by exact E3. clearbody w2 g. rewrite <- Nb in R, Out, In. rewrite <- Ck in Hc.
  destruct (read_seq page n w2 g P2 F2 R) as (F3 & M3 & _). set (w3 := s5l8900_adm_write stack ADM_CTRL2 2 w2) in *. clearbody w3.
  pose proof (reading_queued page n g Wg R Bg Hc) as RG. destruct (queue_rows_spec page n g Wg R) as (_ & _ & Q).
  set (f3 := start_reading n _) in *. assert (V3 : view f3 = view g) by done.
  assert (Q3 : forall i, 0 <= i < n -> rd (fm_banks_to_read f3) i = i mod fm_banks g /\ rd (fm_pages_to_read f3) i = page + i / fm_banks g) by exact Q.
  assert (LI : forall i ws, pages !! i = Some ws -> listed f3 (Z.of_nat i) = page_data ws ++ spare_of (phys_read (fl_mem w) (data3 w + 12 * Z.of_nat i) 12)).
  { intros i ws E. assert (Hr : 0 <= Z.of_nat i < n) by (apply lookup_lt_Some in E; unfold zlen in Ln; lia). unfold listed. destruct (Q3 _ Hr) as [-> ->].
    rewrite (flash_view f3 g) by done. rewrite (In i ws E). rewrite Nb, Er by done. apply land_erased.
    destruct (Forall_lookup_1 _ _ _ _ F E) as [L _]. apply record_page; [done|]. by apply is_bytes_phys_read. }
  clearbody f3. pose proof (ro_count _ _ _ R) as Hn. destruct (pops_spec n (Z.to_nat (512 * n)) 0 f3) as (f4 & EP & EL); [by apply (store_view g)|done|lia|lia|lia| |].
  { intros i Hi. destruct (Q3 i Hi) as [-> ->]. destruct (row_div _ _ _ i R Hi) as (H1 & H2 & H3). pose proof (ro_page _ _ _ R) as Hp.
    assert (fm_banks f3 = fm_banks g) as Eb by (by injection V3). split; [by rewrite Eb|lia]. }
  exists f3, f4. split; [done|]. split.
  { rewrite EP, Z2Nat.id by lia. rewrite <- Ln. rewrite (word_listed f3 pages F); [done|]. intros i ws E. eexists. by apply LI. }
  split.
  - intros i Hi. rewrite M3, E2. unfold adm_report_spares.
    destruct (report_spec (Z.to_nat n) 0 stack (data3 w) f3 (fl_mem w2)) as [_ B]; [by apply (store_view g)|done|lia|lia|lia|]. rewrite B by lia.
    destruct (lookup_lt_is_Some_2 pages (Z.to_nat i)) as [ws E]; [unfold zlen in Ln; lia|]. specialize (LI _ ws E). rewrite Z2Nat.id in LI by lia. rewrite LI.
    destruct (Forall_lookup_1 _ _ _ _ F E) as [L _]. rewrite <- (zlen_page ws L), zdrop_app_len.
    apply meta_kept. by apply zlen_phys_read.
  - intros b p Hp Hne. apply pair_equal_spec in EL as [[Ev _]%pair_equal_spec _]. rewrite (flash_view f4 g) by congruence. apply Out; [done|]. by rewrite Nb.
Qed.

End Commands.

(** ** A concrete flash *)

(** One chip behind an empty overlay; the section addresses are set and the command
    block of firmware 17 asks for one page. *)
Definition example_fmc : S5L8900FMCState :=
  mkFmc 0 0 0 0 0 0 0 0 false (replicate 2048 0) (replicate 64 0) (-1) (-1) false (-1) (replicate 512 0) (replicate 512 0)
    false 0 0 0 (replicate 6144 0) None (Some (mkOverlay ∅ ∅)) 1 None [].

Definition example_mem (cmd : Z) (x : Z) : Z :=
  if x =? 0x11129 then cmd / 256 else if x =? 0x1112d then 1 else if x =? 0x1134b then 7
  else if (0x11104 <=? x) && (x <? 0x11400) then 0 else x mod 251.

Definition example_flash : Flash := mkFlash (mkAdm false 0 0 0x10000 0x20000 [0; 0; 0; 0] 0x1104) (Some example_fmc) (example_mem ADM_CMD_WRITE_SEQ).

Lemma example_store : store_ok example_fmc.
Proof. split; [by vm_compute|]. exists (mkOverlay ∅ ∅). split; [done|]. split; [apply map_Forall_empty|done]. Qed.

Lemma example_wf : fmc_wf example_fmc.
Proof. split; try (by vm_compute). split; [by vm_compute|]. apply Forall_replicate. unfold is_byte. lia. Qed.

Lemma example_bytes cmd x : 0 <= cmd < 65536 -> is_byte (example_mem cmd x).
Proof.
  intros H. unfold example_mem, is_byte. repeat (destruct (_ =? _); [Z.div_mod_to_equations; lia|]). destruct (_ && _); [lia|].
  pose proof (Z.mod_pos_bound x 251). lia.
Qed.

Lemma nand_row_roundtrip_witness : exists f3 f4,
  fl_fmc (s5l8900_adm_write ([], []) ADM_CTRL2 2 ((fifo_writes ([], []) (stream [0; 0; 0; 0] [seqZ 0 512]) (s5l8900_adm_write ([], []) ADM_CTRL2 2 example_flash))
    <| fl_mem := example_mem ADM_CMD_READ_SEQ |>)) = Some f3 /\ pops 512 f3 = Some (seqZ 0 512, f4).
Proof.
  destruct (nand_row_roundtrip ([], []) ltac:(by vm_compute) example_fmc example_flash (example_mem ADM_CMD_READ_SEQ) 7 1 [0; 0; 0; 0] [seqZ 0 512])
    as (f3 & f4 & E1 & E2 & _).
  - reflexivity.
  - exact example_wf.
  - exact example_store.
  - reflexivity.
  - by vm_compute.
  - by split; vm_compute.
  - reflexivity.
  - apply Forall_singleton. split; [by vm_compute|]. apply Forall_forall. intros x Hx%elem_of_seqZ. unfold is_u32. lia.
  - reflexivity.
  - intros x. by apply example_bytes.
  - by vm_compute.
  - by vm_compute.
  - intros i Hi. assert (i = 0) as -> by lia. by vm_compute.
  - by vm_compute.
  - by vm_compute.
  - exists f3, f4. split; [exact E1|exact E2].
Defined.

Lemma nand_store_refines_witness :
  let '(ok, f) := store_run ([], []) [Program 0 7 (replicate 2048 0xf0) (replicate 64 0xff); Program 0 7 (replicate 2048 0x3c) (replicate 64 0xff)] example_fmc in
  ok = true /\ ztake 2 (flash f 0 7) = [0x30; 0x30].
Proof.
  pose proof (nand_store_refines ([], []) ltac:(by vm_compute)
    [Program 0 7 (replicate 2048 0xf0) (replicate 64 0xff); Program 0 7 (replicate 2048 0x3c) (replicate 64 0xff)] example_fmc example_store eq_refl) as H.
  destruct (store_run _ _ _) as [ok f]. destruct H as (-> & _ & H).
  - repeat apply Forall_cons_2; [| |apply Forall_nil_2]; (split; [by split; vm_compute|]; split; [by vm_compute|]; split; [by vm_compute|]);
      apply is_bytes_app; split; apply Forall_replicate; unfold is_byte; lia.
  - split; [done|]. rewrite H by lia. by vm_compute.
Defined.

(** ** Accesses past the list *)

(** C38. A read of the FIFO goes past the end of the page list exactly when the
    command is neither ID nor status, which the read answers before it looks at the
    list, several pages are being read, the count of bytes the guest wrote is not at the start of
    a page, and the position in the list has passed its 512 entries: the position
    is checked only when it advances. *)
Theorem fmc_overrun_iff f : fmc_wf f ->
  s5l8900_fmc_read FMC_FMFIFO f = None <->
  fm_cmd f <> FMC_CMD_ID /\ fm_cmd f <> FMC_CMD_READSTATUS /\ fm_reading_multiple_pages f = true /\
  fm_fmdnum f mod FMC_BYTES_PER_PAGE <> 0 /\ FMC_MAX_LIST <= fm_cur_bank_reading f.
Proof.
  intros W. pose proof (fw_pages f W) as Wp. change (s5l8900_fmc_read FMC_FMFIFO f) with (fmc_fifo_pop f). unfold fmc_fifo_pop. cbv zeta.
  destruct (Z.eqb_spec (fm_cmd f) FMC_CMD_ID); [split; [done|tauto]|]. destruct (Z.eqb_spec (fm_cmd f) FMC_CMD_READSTATUS); [split; [done|tauto]|].
  destruct (fm_reading_multiple_pages f); [|destruct (pop_single f); split; [done|intros (_ & _ & [=] & _)]].
  assert (PL : forall g, fm_pages_to_read g = fm_pages_to_read f -> pop_listed g = None <-> FMC_MAX_LIST <= fm_cur_bank_reading g).
  { intros g Eg. unfold pop_listed, zget. rewrite Eg. destruct (Z.leb_spec 0 (fm_cur_bank_reading g)); [|unfold FMC_MAX_LIST; split; [done|lia]].
    rewrite (proj2 (Z.ltb_ge _ _)) by lia. unfold zlen in Wp. destruct (fm_pages_to_read f !! _) eqn:E.
    - apply lookup_lt_Some in E. split; [done|lia].
    - apply lookup_ge_None in E. split; [lia|done]. }
  assert (ST : forall g, match pop_listed g with None => None | Some (v, s) => Some (v, next_word s) end = None <-> pop_listed g = None)
    by (intros g; by destruct (pop_listed g) as [[]|]).
  destruct (Z.eqb_spec (fm_fmdnum f mod FMC_BYTES_PER_PAGE) 0) as [E0|N0]; cbn [andb]; [|rewrite ST, PL by done; tauto].
  set (h := f <| fm_cur_bank_reading ::= _ |>). destruct (Z.leb_spec FMC_MAX_LIST (fm_cur_bank_reading h)) as [L|L]; [split; [done|tauto]|].
  rewrite ST. set (b := rd _ _). destruct (set_bank_frame b h) as (S1 & S2 & _). rewrite PL.
  - rewrite S2. split; [lia|tauto].
  - by apply pair_equal_spec in S1 as [_ S1].
Qed.

(** The guest sets the count back to a page's start before every read. *)
Fixpoint restarts (k : nat) (f : S5L8900FMCState) : option S5L8900FMCState :=
  match k with
  | O => Some f
  | S k =>
      match s5l8900_fmc_read FMC_FMFIFO (s5l8900_fmc_write ([], []) FMC_FMDNUM FMC_BYTES_PER_PAGE f) with
      | None => None
      | Some (_, f) => restarts k f
      end
  end.

Definition example_run (cmd : Z) (w : Flash) : Flash := s5l8900_adm_write ([], []) ADM_CTRL2 2 (w <| fl_mem := example_mem cmd |>).

(** From a read of one page, 513 reads bring the position past the list; the next
    one, inside a page, is out of bounds. *)
Lemma fmc_overrun_iff_witness : exists f, (fl_fmc (example_run ADM_CMD_READ_SEQ example_flash) ≫= restarts 513) = Some f /\
  s5l8900_fmc_read FMC_FMFIFO (s5l8900_fmc_write ([], []) FMC_FMDNUM 2044 f) = None.
Proof.
  destruct (fl_fmc (example_run ADM_CMD_READ_SEQ example_flash) ≫= restarts 513) as [f|] eqn:E; [|vm_compute in E; discriminate E].
  exists f. split; [reflexivity|]. apply fmc_overrun_iff.
  - vm_compute in E. injection E as <-. split; try (by vm_compute). split; [by vm_compute|]. apply (Forall_replicate _ 6144). unfold is_byte. lia.
  - vm_compute in E. injection E as <-. by vm_compute.
Defined.

(** ** Two more observations *)

(** A program that was begun leaves its first words in the buffer of the page read
    before, and a read of that page, which is erased, gives them back. *)
Lemma fmc_stale_page :
  let w := fifo_writes ([], []) [0x12345678] (example_run ADM_CMD_WRITE (example_run ADM_CMD_READ example_flash)) in
  match fl_fmc (example_run ADM_CMD_READ w) with
  | Some f => fst <$> s5l8900_fmc_read FMC_FMFIFO f = Some 0x12345678 /\ flash f 0 7 = erased_record
  | None => False
  end.
Proof. vm_compute. split; reflexivity. Qed.

(** A store with the other machine's blank record opens, and what is programmed
    into one of its erased pages reads as zeros. *)
Lemma fmc_blank_lost :
  match nand_image_open (Some (mkStore (Some NAND_IMAGE_FORMAT) (Some (fmc_geo 1)) (Some (str "n72-generated")))) (fun _ => Some (fun _ => 0)) (fun _ _ => None) (fmc_geo 1) with
  | Some n =>
      let f := example_fmc <| fm_image := Some n |> in
      let '(ok, f) := fmc_program_page ([], []) 0 7 (replicate 2048 0x5a) (replicate 64 0xff) f in
      ok = true /\ ztake FMC_BYTES_PER_PAGE (flash f 0 7) = replicate 2048 0
  | None => False
  end.
Proof. vm_compute. split; reflexivity. Qed.
