(* ===== verification/TcpUsb.v ===== *)
(** * USB over TCP

    [src/hw/arm/ipod_touch_tcp_usb.c] with its header: the transport of the
    emulated USB device.  The host sends a header of five bytes, with a payload
    when the direction is out; the device answers with the header, its length
    replaced, and a payload when the direction is in.  Both ends of a connection
    run the same state machine over a non-blocking socket.

    The socket is a pair of streams and a schedule: each [read] or [write] takes
    its outcome from the schedule, so that a statement about all schedules covers
    every way the bytes can be cut. *)

From Stdlib Require Import ZArith Lia.
From stdpp Require Import base numbers list.
From S2P Require Import Prelude CLib HwLib.
Local Open Scope Z_scope.

(** ** The header *)

Definition HDR_SIZE : Z := 5.
Definition USB_DIR_IN : Z := 0x80.

(** [int16_t] *)
Definition s16 (x : Z) : Z := (x + 32768) mod 65536 - 32768.

(** The packed structure, by its bytes: address, endpoint, flags, length. *)
Definition hdr_ep (h : bytes) : Z := rd h 1.
Definition hdr_length (h : bytes) : Z := s16 (rd h 3 + 256 * rd h 4).
Definition set_length (v : Z) (h : bytes) : bytes := ztake 3 h ++ [u8 v; u8 (Z.shiftr v 8)].
Definition dir_in (h : bytes) : bool := flagged (hdr_ep h) USB_DIR_IN.

Definition tcp_usb_payload_len (h : bytes) : Z := if 0 <? hdr_length h then hdr_length h else 0.

(** ** The socket *)

(** What a system call meets: an error to be tried again, another error, or a
    transfer of at most [k] bytes. *)
Inductive Io := IoAgain | IoError | IoUpto (k : Z).

Inductive tcp_usb_io_result := TCP_USB_IO_OK | TCP_USB_IO_AGAIN | TCP_USB_IO_CLOSED.

(** Bytes that arrive, in order, whether the peer closes after them, bytes that
    were sent, and the outcomes to come. *)
Record Sock := mkSock { sk_in : bytes; sk_eof : bool; sk_out : bytes; sk_sched : list Io }.

Definition next_io (k : Sock) : Io * Sock :=
  match sk_sched k with
  | [] => (IoAgain, k)
  | io :: l => (io, mkSock (sk_in k) (sk_eof k) (sk_out k) l)
  end.

(** [read] and [tcp_usb_classify]: a result of zero is the end of the stream.
    A read of nothing returns zero. *)
Definition sock_read (want : Z) (k : Sock) : tcp_usb_io_result * bytes * Sock :=
  let '(io, k) := next_io k in
  match io with
  | IoAgain => (TCP_USB_IO_AGAIN, [], k)
  | IoError => (TCP_USB_IO_CLOSED, [], k)
  | IoUpto n =>
      if want =? 0 then (TCP_USB_IO_CLOSED, [], k)
      else if zlen (sk_in k) =? 0 then (if sk_eof k then TCP_USB_IO_CLOSED else TCP_USB_IO_AGAIN, [], k)
      else
        let n := Z.min (Z.max 1 n) (Z.min want (zlen (sk_in k))) in
        (TCP_USB_IO_OK, ztake n (sk_in k), mkSock (zdrop n (sk_in k)) (sk_eof k) (sk_out k) (sk_sched k))
  end.

(** [write] and its classification. *)
Definition sock_write (buf : bytes) (k : Sock) : tcp_usb_io_result * Z * Sock :=
  let '(io, k) := next_io k in
  match io with
  | IoAgain => (TCP_USB_IO_AGAIN, 0, k)
  | IoError => (TCP_USB_IO_CLOSED, 0, k)
  | IoUpto n =>
      if zlen buf =? 0 then (TCP_USB_IO_CLOSED, 0, k)
      else
        let n := Z.min (Z.max 1 n) (zlen buf) in
        (TCP_USB_IO_OK, n, mkSock (sk_in k) (sk_eof k) (sk_out k ++ ztake n buf) (sk_sched k))
  end.

(** ** The state *)

Inductive tcp_usb_state_enum :=
| tcp_usb_idle
| tcp_usb_read_request
| tcp_usb_write_response
| tcp_usb_write_request
| tcp_usb_read_response.

(** [tu_socket] tells whether there is a descriptor; [tu_handler] is what the
    main loop watches it for: nothing, reading, or reading and writing.  A null
    pointer is the empty list. *)
Record tcp_usb_state_t := mkTcp {
  tu_socket : bool;
  tu_closed : bool;
  tu_state : tcp_usb_state_enum;
  tu_header : bytes;
  tu_buffer : bytes;
  tu_amount_done : Z;
  tu_request_len : Z;
  tu_owns_packet : bool;
  tu_handler : option bool
}.

Definition eta_tcp (r : tcp_usb_state_t) : tcp_usb_state_t :=
  mkTcp (tu_socket r) (tu_closed r) (tu_state r) (tu_header r) (tu_buffer r) (tu_amount_done r) (tu_request_len r)
    (tu_owns_packet r) (tu_handler r).
#[global] Instance upd_tu_socket : Upd tu_socket := ltac:(derive_upd eta_tcp tu_socket).
#[global] Instance upd_tu_closed : Upd tu_closed := ltac:(derive_upd eta_tcp tu_closed).
#[global] Instance upd_tu_state : Upd tu_state := ltac:(derive_upd eta_tcp tu_state).
#[global] Instance upd_tu_header : Upd tu_header := ltac:(derive_upd eta_tcp tu_header).
#[global] Instance upd_tu_buffer : Upd tu_buffer := ltac:(derive_upd eta_tcp tu_buffer).
#[global] Instance upd_tu_amount_done : Upd tu_amount_done := ltac:(derive_upd eta_tcp tu_amount_done).
#[global] Instance upd_tu_request_len : Upd tu_request_len := ltac:(derive_upd eta_tcp tu_request_len).
#[global] Instance upd_tu_owns_packet : Upd tu_owns_packet := ltac:(derive_upd eta_tcp tu_owns_packet).
#[global] Instance upd_tu_handler : Upd tu_handler := ltac:(derive_upd eta_tcp tu_handler).

(** An end of a connection: its state, its socket, and what its callbacks act
    on. *)
Record End (D : Type) := mkEnd { e_tcp : tcp_usb_state_t; e_sock : Sock; e_dev : D }.
Arguments mkEnd {D}.
Arguments e_tcp {D}.
Arguments e_sock {D}.
Arguments e_dev {D}.
#[global] Instance upd_e_tcp {D} : Upd (@e_tcp D) := fun f w => mkEnd (f (e_tcp w)) (e_sock w) (e_dev w).
#[global] Instance upd_e_sock {D} : Upd (@e_sock D) := fun f w => mkEnd (e_tcp w) (f (e_sock w)) (e_dev w).
#[global] Instance upd_e_dev {D} : Upd (@e_dev D) := fun f w => mkEnd (e_tcp w) (e_sock w) (f (e_dev w)).

(** Zeroed memory. *)
Definition tcp_usb_zero : tcp_usb_state_t := mkTcp false false tcp_usb_idle [] [] 0 0 false None.

(** The length of the last request and the main loop's handler stay as they are. *)
Definition tcp_usb_init (s : tcp_usb_state_t) : tcp_usb_state_t :=
  s <| tu_socket := false |> <| tu_closed := true |> <| tu_state := tcp_usb_idle |> <| tu_amount_done := 0 |>
    <| tu_header := [] |> <| tu_buffer := [] |> <| tu_owns_packet := false |>.

Definition tcp_usb_free_packet (s : tcp_usb_state_t) : tcp_usb_state_t :=
  if tu_owns_packet s then s <| tu_header := [] |> <| tu_buffer := [] |> <| tu_owns_packet := false |> else s.

Definition tcp_usb_cleanup (s : tcp_usb_state_t) : tcp_usb_state_t :=
  let s := if tu_socket s then s <| tu_handler := None |> <| tu_socket := false |> else s in
  s <| tu_header := [] |> <| tu_buffer := [] |> <| tu_owns_packet := false |> <| tu_state := tcp_usb_idle |>.

(** The state after a connection was made. *)
Definition tcp_usb_connected (s : tcp_usb_state_t) : tcp_usb_state_t :=
  s <| tu_socket := true |> <| tu_closed := false |> <| tu_state := tcp_usb_idle |> <| tu_amount_done := 0 |>
    <| tu_handler := Some false |>.

Section Transport.
Context {D : Type}.

(** The callbacks.  [data_callback] is given the header and the buffer and may
    change both; its result is a length or a negative code. *)
Variable data_callback : option (bytes -> bytes -> D -> Z * bytes * bytes * D).
Variable closed_callback : option (D -> D).
Abbreviation W := (End D).

Definition tcp_usb_do_closed (w : W) : W :=
  if tu_closed (e_tcp w) then w
  else
    let w := w <| e_tcp ::= fun s => tcp_usb_free_packet (s <| tu_closed := true |>) |> in
    let w := if tu_socket (e_tcp w) then w <| e_tcp ::= upd tu_handler (fun _ => None) |> else w in
    match closed_callback with Some f => w <| e_dev ::= f |> | None => w end.

(** A step of the machine goes on, or the function returns. *)
Inductive Flow := Go (w : W) | Ret (w : W).

Definition and_then (f : Flow) (k : W -> Flow) : Flow := match f with Go w => k w | Ret w => Ret w end.

(** ** Partial transfers *)

(** What is missing of the header is read; the flag tells whether it was just
    completed. *)
Definition read_header (w : W) (fresh : W -> Flow) : Flow :=
  let s := e_tcp w in
  if tu_amount_done s <? HDR_SIZE then
    let '(res, b, k) := sock_read (HDR_SIZE - tu_amount_done s) (e_sock w) in
    let w := w <| e_sock := k |> in
    match res with
    | TCP_USB_IO_AGAIN => Ret w
    | TCP_USB_IO_CLOSED => Ret (tcp_usb_do_closed w)
    | TCP_USB_IO_OK =>
        let w := w <| e_tcp ::= fun s => s <| tu_header ::= fun h => blit h (Z.to_nat (tu_amount_done s)) b |>
                                          <| tu_amount_done ::= fun n => n + zlen b |> |> in
        if tu_amount_done (e_tcp w) <? HDR_SIZE then Ret w else fresh w
    end
  else Go w.

Definition read_payload (w : W) : Flow :=
  let s := e_tcp w in
  let len := tcp_usb_payload_len (tu_header s) in
  let got := tu_amount_done s - HDR_SIZE in
  let '(res, b, k) := sock_read (len - got) (e_sock w) in
  let w := w <| e_sock := k |> in
  match res with
  | TCP_USB_IO_AGAIN => Ret w
  | TCP_USB_IO_CLOSED => Ret (tcp_usb_do_closed w)
  | TCP_USB_IO_OK =>
      let w := w <| e_tcp ::= fun s => s <| tu_buffer ::= fun h => blit h (Z.to_nat got) b |>
                                        <| tu_amount_done ::= fun n => n + zlen b |> |> in
      if tu_amount_done (e_tcp w) <? HDR_SIZE + len then Ret w else Go w
  end.

Definition write_header (w : W) : Flow :=
  let s := e_tcp w in
  if tu_amount_done s <? HDR_SIZE then
    let '(res, n, k) := sock_write (zdrop (tu_amount_done s) (tu_header s)) (e_sock w) in
    let w := w <| e_sock := k |> in
    match res with
    | TCP_USB_IO_AGAIN => Ret w
    | TCP_USB_IO_CLOSED => Ret (tcp_usb_do_closed w)
    | TCP_USB_IO_OK =>
        let w := w <| e_tcp ::= upd tu_amount_done (fun m => m + n) |> in
        if tu_amount_done (e_tcp w) <? HDR_SIZE then Ret w else Go w
    end
  else Go w.

Definition write_payload (w : W) : Flow :=
  let s := e_tcp w in
  let len := tcp_usb_payload_len (tu_header s) in
  let sent := tu_amount_done s - HDR_SIZE in
  let '(res, n, k) := sock_write (ztake (len - sent) (zdrop sent (tu_buffer s))) (e_sock w) in
  let w := w <| e_sock := k |> in
  match res with
  | TCP_USB_IO_AGAIN => Ret w
  | TCP_USB_IO_CLOSED => Ret (tcp_usb_do_closed w)
  | TCP_USB_IO_OK =>
      let w := w <| e_tcp ::= upd tu_amount_done (fun m => m + n) |> in
      if tu_amount_done (e_tcp w) <? HDR_SIZE + len then Ret w else Go w
  end.

(** A payload is moved in one direction, when there is one. *)
Definition with_payload (dir : bool) (f : W -> Flow) (w : W) : Flow :=
  let h := tu_header (e_tcp w) in
  if eqb (dir_in h) dir && (0 <? tcp_usb_payload_len h) then f w else Go w.

(** ** The machine *)

Definition pump_write_response (w : W) : W :=
  match and_then (write_header w) (with_payload true write_payload) with
  | Ret w => w
  | Go w => w <| e_tcp ::= fun s => (tcp_usb_free_packet s) <| tu_state := tcp_usb_idle |> |>
  end.

(** The request is complete: the callback answers it. *)
Definition request_done (w : W) : W :=
  match data_callback with
  | None => w <| e_tcp ::= fun s => (tcp_usb_free_packet s) <| tu_state := tcp_usb_idle |> |>
  | Some cb =>
      let s := e_tcp w in
      let '(r, h, b, d) := cb (tu_header s) (tu_buffer s) (e_dev w) in
      pump_write_response
        (mkEnd (s <| tu_state := tcp_usb_write_response |> <| tu_amount_done := 0 |>
                  <| tu_header := set_length (s16 r) h |> <| tu_buffer := b |>) (e_sock w) d)
  end.

(** [g_malloc0] of the payload *)
Definition alloc_buffer (w : W) : W :=
  w <| e_tcp ::= fun s => s <| tu_buffer := replicate (Z.to_nat (tcp_usb_payload_len (tu_header s))) 0 |> |>.

Definition pump_read_request (w : W) : W :=
  match and_then (read_header w (fun w => Go (alloc_buffer w))) (with_payload false read_payload) with
  | Ret w => w
  | Go w => request_done w
  end.

Definition pump_idle (can_read : bool) (w : W) : W :=
  if can_read then
    pump_read_request (w <| e_tcp ::= fun s =>
      s <| tu_header := replicate (Z.to_nat HDR_SIZE) 0 |> <| tu_buffer := [] |> <| tu_owns_packet := true |>
        <| tu_amount_done := 0 |> <| tu_state := tcp_usb_read_request |> |>)
  else w.

(** The answer is complete: the callback sees it. *)
Definition response_done (w : W) : W :=
  let w := w <| e_tcp ::= upd tu_state (fun _ => tcp_usb_idle) |> in
  match data_callback with
  | None => w
  | Some cb =>
      let s := e_tcp w in
      let '(_, h, b, d) := cb (tu_header s) (tu_buffer s) (e_dev w) in
      mkEnd (s <| tu_header := h |> <| tu_buffer := b |>) (e_sock w) d
  end.

(** An answer longer than the caller's buffer closes the connection. *)
Definition check_response (w : W) : Flow :=
  let s := e_tcp w in
  if dir_in (tu_header s) && (tu_request_len s <? tcp_usb_payload_len (tu_header s)) then Ret (tcp_usb_do_closed w) else Go w.

Definition pump_read_response (w : W) : W :=
  match and_then (read_header w check_response) (with_payload true read_payload) with
  | Ret w => w
  | Go w => response_done w
  end.

Definition pump_write_request (w : W) : W :=
  match and_then (write_header w) (with_payload false write_payload) with
  | Ret w => w
  | Go w => pump_read_response (w <| e_tcp ::= fun s => s <| tu_state := tcp_usb_read_response |> <| tu_amount_done := 0 |> |>)
  end.

Definition tcp_usb_pump (can_read : bool) (w : W) : W :=
  if tu_closed (e_tcp w) then w
  else
    match tu_state (e_tcp w) with
    | tcp_usb_idle => pump_idle can_read w
    | tcp_usb_read_request => pump_read_request w
    | tcp_usb_write_response => pump_write_response w
    | tcp_usb_write_request => pump_write_request w
    | tcp_usb_read_response => pump_read_response w
    end.

(** Writing is watched only while there is something to write. *)
Definition want_write (s : tcp_usb_state_t) : bool :=
  match tu_state s with tcp_usb_write_request | tcp_usb_write_response => true | _ => false end.

Definition tcp_usb_callback (can_read : bool) (w : W) : W :=
  let w := tcp_usb_pump can_read w in
  if tu_closed (e_tcp w) || negb (tu_socket (e_tcp w)) then w
  else w <| e_tcp ::= fun s => s <| tu_handler := Some (want_write s) |> |>.

(** The result is zero, or the code [ENOTCONN] or [EBUSY], negated. *)
Definition tcp_usb_request (header data : bytes) (w : W) : Z * W :=
  let s := e_tcp w in
  if tu_closed s then (-107, w)
  else
    match tu_state s with
    | tcp_usb_idle =>
        (0, tcp_usb_callback false
              (w <| e_tcp := s <| tu_state := tcp_usb_write_request |> <| tu_amount_done := 0 |> <| tu_buffer := data |>
                               <| tu_header := header |> <| tu_request_len := tcp_usb_payload_len header |>
                               <| tu_owns_packet := false |> |>))
    | _ => (-16, w)
    end.

End Transport.
