(* ===== verification/TcpUsbFacts.v ===== *)
(** * USB over TCP: what the device answers

    The device's end of a connection is compared with a function on whole
    streams: [serve] cuts the input into requests and appends the answers.
    [tcp_usb_serves]: however the system calls cut the streams, what was sent is
    a prefix of that answer, and it is all of it once enough calls made
    progress.  [tcp_usb_payload_fits]: on both ends a payload stays inside its
    buffer. *)

From Stdlib Require Import ZArith Lia.
From stdpp Require Import base numbers list.
From S2P Require Import Prelude CLib HwLib TcpUsb.
Local Open Scope Z_scope.

(** ** System calls *)

(** No error is to come, and the peer does not close. *)
Definition calm (k : Sock) : Prop := Forall (fun io => exists n, io = IoUpto n) (sk_sched k) /\ sk_eof k = false.

Definition same_streams (k k' : Sock) : Prop :=
  sk_in k' = sk_in k /\ sk_out k' = sk_out k /\ sk_eof k' = sk_eof k /\ (calm k -> calm k').

Lemma calm_next k : calm k -> calm (next_io k).2.
Proof.
  intros C. unfold next_io. destruct (sk_sched k) as [|io l] eqn:E; [done|]. destruct C as [F C]. rewrite E in F.
  apply Forall_cons in F as [_ F]. by split.
Qed.

Lemma calm_io k : calm k -> (sk_sched k = [] /\ next_io k = (IoAgain, k)) \/ exists n, (next_io k).1 = IoUpto n.
Proof.
  unfold calm, next_io. intros [F _]. destruct (sk_sched k) as [|io l]; [by left|]. right. by apply Forall_cons in F as [F _].
Qed.

Lemma next_io_same k : same_streams k (next_io k).2.
Proof. pose proof (calm_next k). unfold same_streams, next_io in *. by destruct (sk_sched k). Qed.

Lemma sock_read_spec want k : 0 < want ->
  match sock_read want k with
  | (TCP_USB_IO_OK, b, k') =>
      0 < zlen b <= want /\ sk_in k = b ++ sk_in k' /\ sk_out k' = sk_out k /\ (calm k -> calm k')
  | (TCP_USB_IO_AGAIN, _, k') => same_streams k k' /\ (calm k -> sk_sched k = [] \/ sk_in k = [])
  | (TCP_USB_IO_CLOSED, _, k') => sk_out k' = sk_out k /\ ~ calm k
  end.
Proof.
  intros Hw. pose proof (next_io_same k) as S. pose proof (calm_io k) as C. unfold sock_read.
  destruct (next_io k) as [io k1]. cbn [fst snd] in *. destruct S as (Si & So & Se & Sc). destruct io as [| |n].
  - split; [done|]. intros H. left. destruct (C H) as [[? _]|[n ?]]; done.
  - split; [done|]. intros H. destruct (C H) as [[_ ?]|[n ?]]; done.
  - rewrite (proj2 (Z.eqb_neq _ _)) by lia. destruct (Z.eqb_spec (zlen (sk_in k1)) 0) as [Hz|Hz].
    + assert (sk_in k = []) as En by (rewrite <- Si; apply length_zero_iff_nil; unfold zlen in Hz; lia).
      assert (SS : same_streams k k1) by done.
      destruct (sk_eof k1) eqn:Ee; [split; [done|]|split; [done|by right]]. intros H. apply Sc in H as [_ ?]. congruence.
    + cbv beta iota zeta. cbn [sk_in sk_out]. pose proof (zlen_nonneg (sk_in k1)). rewrite zlen_ztake, ztake_zdrop.
      split; [lia|]. split; [by symmetry|]. split; [done|]. intros H'. by apply Sc in H'.
Qed.

Lemma sock_write_spec buf k : 0 < zlen buf ->
  match sock_write buf k with
  | (TCP_USB_IO_OK, n, k') =>
      0 < n <= zlen buf /\ sk_out k' = sk_out k ++ ztake n buf /\ sk_in k' = sk_in k /\ (calm k -> calm k')
  | (TCP_USB_IO_AGAIN, _, k') => same_streams k k' /\ (calm k -> sk_sched k = [])
  | (TCP_USB_IO_CLOSED, _, k') => sk_out k' = sk_out k /\ ~ calm k
  end.
Proof.
  intros Hw. pose proof (next_io_same k) as S. pose proof (calm_io k) as C. unfold sock_write.
  destruct (next_io k) as [io k1]. cbn [fst snd] in *. destruct S as (Si & So & Se & Sc). destruct io as [| |n].
  - split; [done|]. intros H. destruct (C H) as [[? _]|[n ?]]; done.
  - split; [done|]. intros H. destruct (C H) as [[_ ?]|[n ?]]; done.
  - rewrite (proj2 (Z.eqb_neq _ _)) by lia. cbv beta iota zeta. cbn [sk_in sk_out]. rewrite So.
    split; [lia|]. split; [done|]. split; [done|]. intros H'. by apply Sc in H'.
Qed.

Section Device.
Context {D : Type}.
Variable cb : bytes -> bytes -> D -> Z * bytes * bytes * D.
Variable closed_callback : option (D -> D).
Abbreviation W := (End D).
Implicit Types w : W.

(** A callback keeps the size of the header, and answers a request to send with
    at most what the buffer holds. *)
Hypothesis cb_ok : forall h b d r h' b' d', cb h b d = (r, h', b', d') ->
  zlen h = 5 -> zlen b = tcp_usb_payload_len h ->
  zlen h' = 5 /\ (dir_in h' = true -> tcp_usb_payload_len (set_length (s16 r) h') <= zlen b').

(** ** Streams *)

(** The first request of a stream: header, buffer and what follows. *)
Definition first_request (input : bytes) : option (bytes * bytes * bytes) :=
  if zlen input <? 5 then None
  else
    let h := ztake 5 input in
    let rest := zdrop 5 input in
    let len := tcp_usb_payload_len h in
    if negb (dir_in h) && (0 <? len) then
      if zlen rest <? len then None else Some (h, ztake len rest, zdrop len rest)
    else Some (h, replicate (Z.to_nat len) 0, rest).

(** The payload of an answer, and the whole of it. *)
Definition answer_payload (h b : bytes) : bytes := if dir_in h then ztake (tcp_usb_payload_len h) b else [].

Definition answer (h b : bytes) (d : D) : bytes * D :=
  let '(r, h', b', d') := cb h b d in
  let h' := set_length (s16 r) h' in
  (h' ++ answer_payload h' b', d').

Fixpoint serve (fuel : nat) (input : bytes) (d : D) : bytes * D :=
  match fuel with
  | O => ([], d)
  | S fuel =>
      match first_request input with
      | None => ([], d)
      | Some (h, b, rest) =>
          let '(out, d) := answer h b d in
          let '(outs, d) := serve fuel rest d in
          (out ++ outs, d)
      end
  end.

Lemma payload_len_nonneg h : 0 <= tcp_usb_payload_len h.
Proof. unfold tcp_usb_payload_len. destruct (Z.ltb_spec 0 (hdr_length h)); lia. Qed.

Lemma first_request_shorter input h b rest : first_request input = Some (h, b, rest) -> (length rest < length input)%nat.
Proof.
  unfold first_request. destruct (Z.ltb_spec (zlen input) 5); [done|]. cbv zeta. pose proof (payload_len_nonneg (ztake 5 input)).
  assert (Hr : zlen (zdrop 5 input) = zlen input - 5) by (autorewrite with zlen; lia).
  destruct (_ && _); [destruct (_ <? _); [done|]|]; intros [= <- <- <-]; [|unfold zlen in *; lia].
  pose proof (zlen_zdrop (tcp_usb_payload_len (ztake 5 input)) (zdrop 5 input)). unfold zlen in *. lia.
Qed.

(** Fuel beyond the length of the stream changes nothing. *)
Lemma serve_fuel n m input d : (length input <= n)%nat -> (length input <= m)%nat -> serve n input d = serve m input d.
Proof.
  revert m input d. induction n as [|n IH]; intros m input d Hn Hm.
  - destruct input; [|cbn in Hn; lia]. by destruct m.
  - destruct m as [|m]; [destruct input; [done|cbn in Hm; lia]|]. cbn [serve].
    destruct (first_request input) as [[[h b] rest]|] eqn:E; [|done]. apply first_request_shorter in E.
    destruct (answer h b d) as [out d1]. by rewrite (IH m rest d1) by lia.
Qed.

Definition serve_all (input : bytes) (d : D) : bytes * D := serve (length input) input d.

Lemma serve_all_step input d h b rest : first_request input = Some (h, b, rest) ->
  serve_all input d = let '(out, d1) := answer h b d in let '(outs, d2) := serve_all rest d1 in (out ++ outs, d2).
Proof.
  intros E. pose proof (first_request_shorter _ _ _ _ E) as L. unfold serve_all. destruct input as [|x l]; [cbn in L; lia|]. cbn [length serve].
  rewrite E. destruct (answer h b d) as [out d1]. cbn [length] in L. by rewrite (serve_fuel (length l) (length rest)) by lia.
Qed.

Lemma serve_all_none input d : first_request input = None -> serve_all input d = ([], d).
Proof. intros E. unfold serve_all. destruct input; [done|]. cbn [length serve]. by rewrite E. Qed.

(** ** What an end will still send *)

(** The bytes of the current request that were read. *)
Definition read_so_far (s : tcp_usb_state_t) : bytes :=
  if tu_amount_done s <? 5 then ztake (tu_amount_done s) (tu_header s)
  else tu_header s ++ ztake (tu_amount_done s - 5) (tu_buffer s).

Definition response (s : tcp_usb_state_t) : bytes := tu_header s ++ answer_payload (tu_header s) (tu_buffer s).

Definition future w : bytes * D :=
  let s := e_tcp w in
  let k := e_sock w in
  match tu_state s with
  | tcp_usb_read_request => serve_all (read_so_far s ++ sk_in k) (e_dev w)
  | tcp_usb_write_response =>
      let '(outs, d) := serve_all (sk_in k) (e_dev w) in (zdrop (tu_amount_done s) (response s) ++ outs, d)
  | _ => serve_all (sk_in k) (e_dev w)
  end.

(** The states between two calls. *)
Definition reading (s : tcp_usb_state_t) : Prop :=
  0 <= tu_amount_done s /\ zlen (tu_header s) = 5 /\
  (5 <= tu_amount_done s -> dir_in (tu_header s) = false /\ zlen (tu_buffer s) = tcp_usb_payload_len (tu_header s) /\
                            tu_amount_done s - 5 < tcp_usb_payload_len (tu_header s)).

Definition ready (s : tcp_usb_state_t) : Prop :=
  zlen (tu_header s) = 5 /\ (dir_in (tu_header s) = true -> tcp_usb_payload_len (tu_header s) <= zlen (tu_buffer s)).

Definition writing (s : tcp_usb_state_t) : Prop := 0 <= tu_amount_done s < zlen (response s) /\ ready s.

Definition device_inv w : Prop :=
  tu_closed (e_tcp w) = false /\
  match tu_state (e_tcp w) with
  | tcp_usb_idle => True
  | tcp_usb_read_request => reading (e_tcp w)
  | tcp_usb_write_response => writing (e_tcp w)
  | _ => False
  end.

(** What was sent and will be sent, and the device at the end. *)
Definition total w : bytes * D := (sk_out (e_sock w) ++ (future w).1, (future w).2).

(** [w'] sends in all what [w] does, and does not go back. *)
Definition kept w w' : Prop :=
  total w' = total w /\ zlen (sk_in (e_sock w')) <= zlen (sk_in (e_sock w)) /\
  zlen (sk_out (e_sock w)) <= zlen (sk_out (e_sock w')) /\ (calm (e_sock w) -> calm (e_sock w')).

Definition moved w w' : Prop :=
  zlen (sk_in (e_sock w')) < zlen (sk_in (e_sock w)) \/ zlen (sk_out (e_sock w)) < zlen (sk_out (e_sock w')).

(** A call closes the connection after an error, having sent nothing wrong, or
    keeps the invariant; it makes progress when it can. *)
Definition closed_ok w w' : Prop :=
  tu_closed (e_tcp w') = true /\ sk_out (e_sock w') `prefix_of` (total w).1 /\ ~ calm (e_sock w).

Definition pumped (can : Prop) w w' : Prop :=
  closed_ok w w' \/
  device_inv w' /\ kept w w' /\ (calm (e_sock w) -> sk_sched (e_sock w) <> [] -> can -> moved w w').

Lemma end_kept_trans w1 w2 w3 : kept w1 w2 -> kept w2 w3 -> kept w1 w3.
Proof. intros (T1 & I1 & O1 & C1) (T2 & I2 & O2 & C2). split; [congruence|]. split; [lia|]. split; [lia|auto]. Qed.

Lemma moved_kept w1 w2 w3 : moved w1 w2 -> kept w2 w3 -> moved w1 w3.
Proof. intros M (_ & I & O & _). unfold moved in *. lia. Qed.

(** A first part of a call that made progress. *)
Lemma kept_pumped (can : Prop) w w1 w2 : kept w w1 -> moved w w1 -> pumped False w1 w2 -> pumped can w w2.
Proof.
  intros K M [(C & P & N)|(I & K2 & _)].
  - left. destruct K as (T & _ & _ & Hc). split; [done|]. rewrite <- T. split; [done|]. auto.
  - right. split; [done|]. split; [by eapply end_kept_trans|]. intros _ _ _. by eapply moved_kept.
Qed.

Lemma pumped_impl (can can' : Prop) w w' : (can' -> can) -> pumped can w w' -> pumped can' w w'.
Proof. intros H [C|(I & K & M)]; [by left|right]. auto. Qed.

(** ** Sending *)

(** [w'] is [w] after [n] bytes more were sent. *)
Definition sent w w' (n : Z) (bs : bytes) : Prop :=
  e_tcp w' = (e_tcp w) <| tu_amount_done ::= fun m => m + n |> /\ e_dev w' = e_dev w /\
  sk_in (e_sock w') = sk_in (e_sock w) /\ sk_out (e_sock w') = sk_out (e_sock w) ++ bs /\
  (calm (e_sock w) -> calm (e_sock w')).

(** [w'] is [w] closed. *)
Definition closed_after w w' : Prop :=
  tu_closed (e_tcp w') = true /\ sk_out (e_sock w') = sk_out (e_sock w) /\ ~ calm (e_sock w).

Lemma do_closed_after w k : tu_closed (e_tcp w) = false -> sk_out k = sk_out (e_sock w) -> ~ calm (e_sock w) ->
  closed_after w (tcp_usb_do_closed closed_callback (w <| e_sock := k |>)).
Proof.
  intros Hc Hk Hn. unfold tcp_usb_do_closed. change (e_tcp (w <| e_sock := k |>)) with (e_tcp w). rewrite Hc.
  unfold closed_after, tcp_usb_free_packet. destruct w as [s k0 d]. cbn in *. destruct s as [so cl st h b a rl ow hd]. cbn in *.
  destruct ow, so, closed_callback; cbn; done.
Qed.

Lemma amount_add_0 (s : tcp_usb_state_t) : s <| tu_amount_done ::= fun m => m + 0 |> = s.
Proof. destruct s. unfold upd, upd_tu_amount_done. cbn. by rewrite Z.add_0_r. Qed.

Lemma sent_nothing w k : same_streams (e_sock w) k -> sent w (w <| e_sock := k |>) 0 [].
Proof. intros (H1 & H2 & H3 & H4). unfold sent. rewrite amount_add_0, app_nil_r. done. Qed.

(** What a call sends of a header or a payload, at most up to [stop]. *)
Lemma write_part w buf stop : tu_closed (e_tcp w) = false -> 0 < zlen buf -> tu_amount_done (e_tcp w) + zlen buf = stop ->
  match
    (let '(res, n, k) := sock_write buf (e_sock w) in
     let w := w <| e_sock := k |> in
     match res with
     | TCP_USB_IO_AGAIN => Ret w
     | TCP_USB_IO_CLOSED => Ret (tcp_usb_do_closed closed_callback w)
     | TCP_USB_IO_OK =>
         let w := w <| e_tcp ::= upd tu_amount_done (fun m => m + n) |> in
         if tu_amount_done (e_tcp w) <? stop then Ret w else Go w
     end)
  with
  | Ret w' => closed_after w w' \/
      (exists n, 0 <= n < zlen buf /\ sent w w' n (ztake n buf) /\ (calm (e_sock w) -> n = 0 -> sk_sched (e_sock w) = []))
  | Go w' => sent w w' (zlen buf) buf
  end.
Proof.
  intros Hc Hb Hs. pose proof (sock_write_spec buf (e_sock w) Hb) as S. destruct (sock_write _ _) as [[res n] k]. destruct res.
  - destruct S as (Hn & Ho & Hi & He). cbv zeta.
    change (tu_amount_done (e_tcp (w <| e_sock := k |> <| e_tcp ::= upd tu_amount_done (fun m => m + n) |>)))
      with (tu_amount_done (e_tcp w) + n).
    assert (S : sent w (w <| e_sock := k |> <| e_tcp ::= upd tu_amount_done (fun m => m + n) |>) n (ztake n buf)) by done.
    destruct (Z.ltb_spec (tu_amount_done (e_tcp w) + n) stop).
    + right. exists n. split; [lia|]. split; [done|]. lia.
    + assert (n = zlen buf) as -> by lia. by rewrite ztake_all in S by lia.
  - destruct S as (Hs' & Hr). right. exists 0. split; [lia|]. split; [by apply sent_nothing|]. auto.
  - destruct S as (Ho & Hn). left. by apply do_closed_after.
Qed.

Lemma write_header_spec w : tu_closed (e_tcp w) = false -> zlen (tu_header (e_tcp w)) = 5 -> 0 <= tu_amount_done (e_tcp w) < 5 ->
  let buf := zdrop (tu_amount_done (e_tcp w)) (tu_header (e_tcp w)) in
  match write_header closed_callback w with
  | Ret w' => closed_after w w' \/
      (exists n, 0 <= n < zlen buf /\ sent w w' n (ztake n buf) /\ (calm (e_sock w) -> n = 0 -> sk_sched (e_sock w) = []))
  | Go w' => sent w w' (zlen buf) buf
  end.
Proof.
  intros Hc Hh Ha buf. unfold write_header. unfold HDR_SIZE. rewrite (proj2 (Z.ltb_lt _ _)) by lia.
  apply write_part; [done|unfold buf; rewrite zlen_zdrop, Hh; lia|]. unfold buf. rewrite zlen_zdrop, Hh. lia.
Qed.

Lemma write_payload_spec w : tu_closed (e_tcp w) = false ->
  let len := tcp_usb_payload_len (tu_header (e_tcp w)) in
  let buf := zdrop (tu_amount_done (e_tcp w) - 5) (ztake len (tu_buffer (e_tcp w))) in
  len <= zlen (tu_buffer (e_tcp w)) -> 0 <= tu_amount_done (e_tcp w) - 5 < len ->
  match write_payload closed_callback w with
  | Ret w' => closed_after w w' \/
      (exists n, 0 <= n < zlen buf /\ sent w w' n (ztake n buf) /\ (calm (e_sock w) -> n = 0 -> sk_sched (e_sock w) = []))
  | Go w' => sent w w' (zlen buf) buf
  end.
Proof.
  intros Hc len buf Hl Ha. unfold write_payload. fold len. unfold HDR_SIZE.
  assert (E : ztake (len - (tu_amount_done (e_tcp w) - 5)) (zdrop (tu_amount_done (e_tcp w) - 5) (tu_buffer (e_tcp w))) = buf).
  { unfold buf, ztake, zdrop. rewrite skipn_firstn_comm. f_equal. lia. }
  assert (Z : zlen buf = len - (tu_amount_done (e_tcp w) - 5)) by (unfold buf; autorewrite with zlen; lia).
  rewrite E. apply write_part; [done|lia|lia].
Qed.

Lemma response_amount (s : tcp_usb_state_t) n : response (s <| tu_amount_done ::= fun m => m + n |>) = response s.
Proof. done. Qed.

Lemma amount_amount (s : tcp_usb_state_t) n : tu_amount_done (s <| tu_amount_done ::= fun m => m + n |>) = tu_amount_done s + n.
Proof. done. Qed.

Lemma zlen_response s : ready s -> zlen (response s) = 5 + if dir_in (tu_header s) then tcp_usb_payload_len (tu_header s) else 0.
Proof.
  intros [Hh Hb]. unfold response, answer_payload. pose proof (payload_len_nonneg (tu_header s)).
  destruct (dir_in _); autorewrite with zlen; rewrite Hh; [|done]. pose proof (Hb eq_refl). lia.
Qed.

(** [n] bytes of the answer are sent. *)
Definition wrote w n w' : Prop :=
  0 <= n /\ tu_amount_done (e_tcp w) + n <= zlen (response (e_tcp w)) /\
  sent w w' n (ztake n (zdrop (tu_amount_done (e_tcp w)) (response (e_tcp w)))).

Lemma wrote_kept w n w' : tu_state (e_tcp w) = tcp_usb_write_response -> 0 <= tu_amount_done (e_tcp w) -> wrote w n w' ->
  kept w w' /\ (0 < n -> moved w w').
Proof.
  intros Hs Ha (Hn & Hm & (Et & Ed & Ei & Eo & Ec)).
  assert (L : zlen (ztake n (zdrop (tu_amount_done (e_tcp w)) (response (e_tcp w)))) = n) by (autorewrite with zlen; lia).
  split; [split|].
  - unfold total, future. rewrite Et, Ed, Ei, Eo.
    change (tu_state ((e_tcp w) <| tu_amount_done ::= fun m => m + n |>)) with (tu_state (e_tcp w)). rewrite Hs.
    change (response ((e_tcp w) <| tu_amount_done ::= fun m => m + n |>)) with (response (e_tcp w)).
    change (tu_amount_done ((e_tcp w) <| tu_amount_done ::= fun m => m + n |>)) with (tu_amount_done (e_tcp w) + n).
    destruct (serve_all _ _) as [outs d]. cbn [fst snd]. rewrite <- app_assoc, (app_assoc (ztake _ _)), slice_zdrop by lia. done.
  - rewrite Ei, Eo, zlen_app, L. split; [lia|]. split; [lia|done].
  - intros Hp. right. rewrite Eo, zlen_app, L. lia.
Qed.

Lemma wrote_nothing w : tu_amount_done (e_tcp w) <= zlen (response (e_tcp w)) -> wrote w 0 w.
Proof. intros H. split; [lia|]. split; [lia|]. split; [by rewrite amount_add_0|]. rewrite app_nil_r. done. Qed.

Lemma wrote_tcp w n w' : wrote w n w' -> e_tcp w' = (e_tcp w) <| tu_amount_done ::= fun m => m + n |>.
Proof. by intros (_ & _ & E & _). Qed.

Lemma write_header_stage w : tu_closed (e_tcp w) = false -> ready (e_tcp w) -> 0 <= tu_amount_done (e_tcp w) < 5 ->
  match write_header closed_callback w with
  | Ret w' => closed_after w w' \/
      (exists n, wrote w n w' /\ n < 5 - tu_amount_done (e_tcp w) /\ (calm (e_sock w) -> n = 0 -> sk_sched (e_sock w) = []))
  | Go w' => wrote w (5 - tu_amount_done (e_tcp w)) w'
  end.
Proof.
  intros Hc Hr Ha. pose proof (zlen_response _ Hr) as L. destruct Hr as [Hh Hb]. pose proof (payload_len_nonneg (tu_header (e_tcp w))).
  pose proof (write_header_spec w Hc Hh Ha) as S. cbv zeta in S.
  assert (Lb : zlen (zdrop (tu_amount_done (e_tcp w)) (tu_header (e_tcp w))) = 5 - tu_amount_done (e_tcp w)) by (rewrite zlen_zdrop; lia).
  assert (E : forall n, n <= 5 - tu_amount_done (e_tcp w) -> ztake n (zdrop (tu_amount_done (e_tcp w)) (response (e_tcp w))) =
                        ztake n (zdrop (tu_amount_done (e_tcp w)) (tu_header (e_tcp w)))).
  { intros n Hn. unfold response. rewrite zdrop_app_l by lia. by rewrite ztake_app_l by lia. }
  assert (M : 5 <= zlen (response (e_tcp w))) by (rewrite L; destruct (dir_in _); lia).
  destruct (write_header _ w) as [w'|w'].
  - rewrite Lb in S. split; [lia|]. split; [lia|]. rewrite E, ztake_all by lia. done.
  - destruct S as [S|(n & Hn & S & Hq)]; [by left|right]. exists n. split; [|split; [lia|done]]. split; [lia|]. split; [lia|]. by rewrite E by lia.
Qed.

Lemma write_payload_stage w : tu_closed (e_tcp w) = false -> ready (e_tcp w) ->
  tu_amount_done (e_tcp w) = 5 \/ 5 <= tu_amount_done (e_tcp w) < zlen (response (e_tcp w)) ->
  match with_payload true (write_payload closed_callback) w with
  | Ret w' => closed_after w w' \/
      (exists n, wrote w n w' /\ tu_amount_done (e_tcp w) + n < zlen (response (e_tcp w)) /\
                 (calm (e_sock w) -> n = 0 -> sk_sched (e_sock w) = []))
  | Go w' => wrote w (zlen (response (e_tcp w)) - tu_amount_done (e_tcp w)) w'
  end.
Proof.
  intros Hc Hr Ha. pose proof (zlen_response _ Hr) as L. destruct Hr as [Hh Hb]. pose proof (payload_len_nonneg (tu_header (e_tcp w))).
  unfold with_payload. destruct (dir_in (tu_header (e_tcp w))) eqn:Hd; cbn [eqb andb].
  2: { replace (zlen (response (e_tcp w)) - tu_amount_done (e_tcp w)) with 0 by lia. apply wrote_nothing. lia. }
  destruct (Z.ltb_spec 0 (tcp_usb_payload_len (tu_header (e_tcp w)))) as [Hl|Hl].
  2: { replace (zlen (response (e_tcp w)) - tu_amount_done (e_tcp w)) with 0 by lia. apply wrote_nothing. lia. }
  pose proof (write_payload_spec w Hc (Hb eq_refl) ltac:(lia)) as S. cbv zeta in S.
  assert (E : zdrop (tu_amount_done (e_tcp w)) (response (e_tcp w)) =
              zdrop (tu_amount_done (e_tcp w) - 5) (ztake (tcp_usb_payload_len (tu_header (e_tcp w))) (tu_buffer (e_tcp w)))).
  { unfold response, answer_payload. rewrite Hd, zdrop_app_r by lia. by rewrite Hh. }
  rewrite <- E in S. assert (Lb : zlen (zdrop (tu_amount_done (e_tcp w)) (response (e_tcp w))) = zlen (response (e_tcp w)) - tu_amount_done (e_tcp w))
    by (rewrite zlen_zdrop; lia). rewrite Lb in S.
  destruct (write_payload _ w) as [w'|w'].
  - split; [lia|]. split; [lia|]. by rewrite ztake_all by lia.
  - destruct S as [S|(n & Hn & S & Hq)]; [by left|right]. exists n. split; [|split; [lia|done]]. split; [lia|]. split; [lia|done].
Qed.

Lemma closed_after_ok w w' : closed_after w w' -> closed_ok w w'.
Proof. intros (C & O & N). split; [done|]. rewrite O. split; [by eexists|done]. Qed.

(** A part of the answer is still to be sent. *)
Lemma wrote_pumped w n w' (can : Prop) : tu_closed (e_tcp w) = false -> tu_state (e_tcp w) = tcp_usb_write_response ->
  0 <= tu_amount_done (e_tcp w) -> ready (e_tcp w) ->
  wrote w n w' -> tu_amount_done (e_tcp w) + n < zlen (response (e_tcp w)) ->
  (calm (e_sock w) -> n = 0 -> sk_sched (e_sock w) = []) -> pumped can w w'.
Proof.
  intros Hc Hs Ha Hr Hw Hn Hq. destruct (wrote_kept w n w' Hs Ha Hw) as [K M]. pose proof (wrote_tcp _ _ _ Hw) as Et.
  right. split; [|split; [done|]].
  - unfold device_inv. rewrite Et. split; [done|].
    change (tu_state ((e_tcp w) <| tu_amount_done ::= fun m => m + n |>)) with (tu_state (e_tcp w)). rewrite Hs.
    destruct Hw as [Hn0 _]. split; [|done]. rewrite response_amount, amount_amount. lia.
  - intros C Hne _. apply M. destruct Hw as [Hn0 _]. destruct (decide (n = 0)); [exfalso; auto|lia].
Qed.

Definition answered w : W := w <| e_tcp ::= fun s => (tcp_usb_free_packet s) <| tu_state := tcp_usb_idle |> |>.

Lemma answered_ok w : tu_closed (e_tcp w) = false -> tu_state (e_tcp w) = tcp_usb_write_response ->
  tu_amount_done (e_tcp w) = zlen (response (e_tcp w)) -> device_inv (answered w) /\ kept w (answered w).
Proof.
  intros Hc Hs Ha. split; [|split; [|done]].
  - unfold device_inv, answered, tcp_usb_free_packet. destruct w as [s k d]. cbn in *. by destruct (tu_owns_packet s).
  - unfold total, future. rewrite Hs, Ha. change (tu_state (e_tcp (answered w))) with tcp_usb_idle.
    change (e_sock (answered w)) with (e_sock w). change (e_dev (answered w)) with (e_dev w).
    destruct (serve_all _ _) as [outs d]. rewrite <- (app_nil_r (response _)) at 2. by rewrite zdrop_app_len.
Qed.

Lemma write_rest w : tu_closed (e_tcp w) = false -> tu_state (e_tcp w) = tcp_usb_write_response -> ready (e_tcp w) ->
  tu_amount_done (e_tcp w) = 5 \/ 5 <= tu_amount_done (e_tcp w) < zlen (response (e_tcp w)) ->
  pumped (tu_amount_done (e_tcp w) < zlen (response (e_tcp w))) w
    (match with_payload true (write_payload closed_callback) w with Ret w => w | Go w => answered w end).
Proof.
  intros Hc Hs Hr Ha. pose proof (write_payload_stage w Hc Hr Ha) as S. destruct (with_payload _ _ w) as [w'|w'].
  - pose proof (wrote_tcp _ _ _ S) as Et. destruct (wrote_kept w _ w' Hs ltac:(lia) S) as [K M].
    destruct (answered_ok w') as [I K']; [by rewrite Et|by rewrite Et|rewrite Et, response_amount, amount_amount; lia|].
    right. split; [done|]. split; [by eapply end_kept_trans|]. intros _ _ Hl. apply (moved_kept _ w'); [apply M; lia|done].
  - destruct S as [S|(n & S & Hn & Hq)]; [left; by apply closed_after_ok|]. apply (wrote_pumped w n); try done; lia.
Qed.

Lemma pump_write_response_ok w : tu_closed (e_tcp w) = false -> tu_state (e_tcp w) = tcp_usb_write_response -> writing (e_tcp w) ->
  pumped True w (pump_write_response closed_callback w).
Proof.
  intros Hc Hs [Ha Hr]. unfold pump_write_response.
  change (fun w => w <| e_tcp ::= fun s => (tcp_usb_free_packet s) <| tu_state := tcp_usb_idle |> |>) with answered.
  destruct (Z.ltb_spec (tu_amount_done (e_tcp w)) 5) as [H5|H5].
  - pose proof (write_header_stage w Hc Hr ltac:(lia)) as S. destruct (write_header closed_callback w) as [w1|w1].
    + pose proof (wrote_tcp _ _ _ S) as Et. destruct (wrote_kept w _ w1 Hs ltac:(lia) S) as [K M].
      apply (kept_pumped _ w w1); [done|apply M; lia|]. cbn [and_then].
      assert (P : pumped (tu_amount_done (e_tcp w1) < zlen (response (e_tcp w1))) w1
        (match with_payload true (write_payload closed_callback) w1 with Ret w => w | Go w => answered w end)).
      { apply write_rest; rewrite Et; [done|done|done|left; cbn; lia]. }
      destruct P as [P|(I & K' & _)]; [by left|right]. done.
    + cbn [and_then]. destruct S as [S|(n & S & Hn & Hq)]; [left; by apply closed_after_ok|]. apply (wrote_pumped w n); try done; [lia|].
      pose proof (zlen_response _ Hr). pose proof (payload_len_nonneg (tu_header (e_tcp w))). destruct (dir_in _); lia.
  - assert (E : write_header closed_callback w = Go w) by (unfold write_header, HDR_SIZE; by rewrite (proj2 (Z.ltb_ge _ _)) by lia).
    rewrite E. cbn [and_then]. pose proof (write_rest w Hc Hs Hr ltac:(lia)) as [P|(I & K & M)]; [by left|right].
    split; [done|]. split; [done|]. intros C N _. apply M; [done|done|lia].
Qed.

(** ** Receiving *)

Lemma ztake_blit a (h b : bytes) : 0 <= a -> a + zlen b <= zlen h -> ztake (a + zlen b) (blit h (Z.to_nat a) b) = ztake a h ++ b.
Proof.
  intros Ha Hl. unfold zlen in *. rewrite blit_splice by lia. unfold ztake. rewrite app_assoc.
  rewrite take_app_le by (rewrite length_app, length_take; lia). apply take_ge. rewrite length_app, length_take. lia.
Qed.

(** The bytes [b] are taken from the stream. *)
Definition received w b w' : Prop :=
  sk_in (e_sock w) = b ++ sk_in (e_sock w') /\ sk_out (e_sock w') = sk_out (e_sock w) /\ e_dev w' = e_dev w /\
  (calm (e_sock w) -> calm (e_sock w')).

Definition header_filled (b : bytes) (s : tcp_usb_state_t) : tcp_usb_state_t :=
  s <| tu_header ::= fun h => blit h (Z.to_nat (tu_amount_done s)) b |> <| tu_amount_done ::= fun n => n + zlen b |>.

Definition payload_filled (b : bytes) (s : tcp_usb_state_t) : tcp_usb_state_t :=
  s <| tu_buffer ::= fun h => blit h (Z.to_nat (tu_amount_done s - 5)) b |> <| tu_amount_done ::= fun n => n + zlen b |>.

Definition got (fill : bytes -> tcp_usb_state_t -> tcp_usb_state_t) w b w' : Prop :=
  received w b w' /\ e_tcp w' = fill b (e_tcp w).

(** Nothing is read only when there is nothing, or no call may make progress. *)
Definition starved w (b : bytes) : Prop := calm (e_sock w) -> b = [] -> sk_sched (e_sock w) = [] \/ sk_in (e_sock w) = [].

Lemma filled_nothing (s : tcp_usb_state_t) : header_filled [] s = s /\ payload_filled [] s = s.
Proof.
  destruct s. unfold header_filled, payload_filled, upd, upd_tu_header, upd_tu_buffer, upd_tu_amount_done. cbn. by rewrite !Z.add_0_r.
Qed.

Lemma got_nothing fill w k : fill [] (e_tcp w) = e_tcp w -> same_streams (e_sock w) k -> got fill w [] (w <| e_sock := k |>).
Proof. intros F (Hi & Ho & _ & Hc). split; [|by rewrite F]. split; [by symmetry|]. done. Qed.

Lemma read_header_spec w fresh : tu_closed (e_tcp w) = false -> 0 <= tu_amount_done (e_tcp w) < 5 ->
  (exists w', read_header closed_callback w fresh = Ret w' /\
     (closed_after w w' \/ exists b, tu_amount_done (e_tcp w) + zlen b < 5 /\ got header_filled w b w' /\ starved w b)) \/
  (exists w' b, read_header closed_callback w fresh = fresh w' /\ tu_amount_done (e_tcp w) + zlen b = 5 /\ got header_filled w b w').
Proof.
  intros Hc Ha. unfold read_header. unfold HDR_SIZE. rewrite (proj2 (Z.ltb_lt _ _)) by lia.
  pose proof (sock_read_spec (5 - tu_amount_done (e_tcp w)) (e_sock w) ltac:(lia)) as S.
  destruct (sock_read _ _) as [[res b] k]. destruct res.
  - destruct S as (Hb & Hi & Ho & Hk). cbv zeta.
    assert (G : got header_filled w b (w <| e_sock := k |> <| e_tcp ::= header_filled b |>)) by done.
    change (fun s => s <| tu_header ::= _ |> <| tu_amount_done ::= _ |>) with (header_filled b).
    change (tu_amount_done (e_tcp (w <| e_sock := k |> <| e_tcp ::= header_filled b |>))) with (tu_amount_done (e_tcp w) + zlen b).
    destruct (Z.ltb_spec (tu_amount_done (e_tcp w) + zlen b) 5).
    + left. eexists. split; [done|]. right. exists b. split; [done|]. split; [done|]. intros _ ->. change (zlen (@nil Z)) with 0 in Hb. lia.
    + right. eexists _, b. split; [done|]. split; [lia|done].
  - destruct S as (Hs & Hr). left. eexists. split; [done|]. right. exists []. split; [rewrite zlen_nil; lia|].
    split; [by apply got_nothing; [apply filled_nothing|]|]. intros C _. auto.
  - destruct S as (Ho & Hn). left. eexists. split; [done|]. left. by apply do_closed_after.
Qed.

Lemma read_payload_spec w : tu_closed (e_tcp w) = false ->
  let len := tcp_usb_payload_len (tu_header (e_tcp w)) in
  0 <= tu_amount_done (e_tcp w) - 5 < len ->
  match read_payload closed_callback w with
  | Ret w' => closed_after w w' \/
      exists b, tu_amount_done (e_tcp w) - 5 + zlen b < len /\ got payload_filled w b w' /\ starved w b
  | Go w' => exists b, tu_amount_done (e_tcp w) - 5 + zlen b = len /\ got payload_filled w b w'
  end.
Proof.
  intros Hc len Ha. unfold read_payload. fold len. unfold HDR_SIZE.
  pose proof (sock_read_spec (len - (tu_amount_done (e_tcp w) - 5)) (e_sock w) ltac:(lia)) as S.
  destruct (sock_read _ _) as [[res b] k]. destruct res.
  - destruct S as (Hb & Hi & Ho & Hk). cbv zeta.
    assert (G : got payload_filled w b (w <| e_sock := k |> <| e_tcp ::= payload_filled b |>)) by done.
    match goal with |- context [tu_amount_done (e_tcp ?x) <? _] => change x with (w <| e_sock := k |> <| e_tcp ::= payload_filled b |>) end.
    destruct (Z.ltb_spec (tu_amount_done (e_tcp (w <| e_sock := k |> <| e_tcp ::= payload_filled b |>))) (5 + len)) as [H|H];
      change (tu_amount_done (e_tcp w) + zlen b < 5 + len) in H || change (5 + len <= tu_amount_done (e_tcp w) + zlen b) in H.
    + right. exists b. split; [lia|]. split; [done|]. intros _ ->. change (zlen (@nil Z)) with 0 in Hb. lia.
    + exists b. split; [lia|done].
  - destruct S as (Hs & Hr). right. exists []. split; [rewrite zlen_nil; lia|].
    split; [by apply got_nothing; [apply filled_nothing|]|]. intros C _. auto.
  - destruct S as (Ho & Hn). left. by apply do_closed_after.
Qed.

Lemma header_filled_so_far b s : zlen (tu_header s) = 5 -> 0 <= tu_amount_done s < 5 -> tu_amount_done s + zlen b <= 5 ->
  read_so_far (header_filled b s) = read_so_far s ++ b /\ zlen (tu_header (header_filled b s)) = 5.
Proof.
  intros Hh Ha Hb. assert (L : zlen (tu_header (header_filled b s)) = 5) by (unfold zlen; cbn; rewrite length_blit; done).
  split; [|done]. unfold read_so_far. rewrite (proj2 (Z.ltb_lt (tu_amount_done s) 5)) by lia. rewrite <- ztake_blit by lia.
  change (tu_amount_done (header_filled b s)) with (tu_amount_done s + zlen b).
  change (tu_header (header_filled b s)) with (blit (tu_header s) (Z.to_nat (tu_amount_done s)) b) in *.
  destruct (Z.ltb_spec (tu_amount_done s + zlen b) 5); [done|].
  replace (tu_amount_done s + zlen b - 5) with 0 by lia. rewrite app_nil_r. by rewrite ztake_all by lia.
Qed.

Lemma payload_filled_so_far b s : 5 <= tu_amount_done s -> tu_amount_done s - 5 + zlen b <= zlen (tu_buffer s) ->
  read_so_far (payload_filled b s) = read_so_far s ++ b /\ zlen (tu_buffer (payload_filled b s)) = zlen (tu_buffer s).
Proof.
  intros Ha Hb. pose proof (zlen_nonneg b). split; [|unfold zlen; cbn; by rewrite length_blit]. unfold read_so_far.
  rewrite (proj2 (Z.ltb_ge (tu_amount_done s) 5)) by lia.
  change (tu_amount_done (payload_filled b s)) with (tu_amount_done s + zlen b). rewrite (proj2 (Z.ltb_ge _ 5)) by lia.
  rewrite <- app_assoc, <- ztake_blit by lia. f_equal. f_equal. lia.
Qed.

Lemma received_kept w b w' : tu_state (e_tcp w) = tcp_usb_read_request -> tu_state (e_tcp w') = tcp_usb_read_request ->
  received w b w' -> read_so_far (e_tcp w') = read_so_far (e_tcp w) ++ b -> kept w w' /\ (b <> [] -> moved w w').
Proof.
  intros Hs Hs' (Hi & Ho & Hd & Hc) Hr. pose proof (zlen_nonneg b). split; [split|].
  - unfold total, future. by rewrite Hs, Hs', Hr, Ho, Hd, Hi, app_assoc.
  - rewrite Hi, Ho, zlen_app. split; [lia|]. split; [lia|done].
  - intros Hb. left. rewrite Hi, zlen_app. destruct b; [done|]. rewrite zlen_cons. pose proof (zlen_nonneg b). lia.
Qed.

(** A request is complete. *)
Definition complete (s : tcp_usb_state_t) : Prop :=
  zlen (tu_header s) = 5 /\ zlen (tu_buffer s) = tcp_usb_payload_len (tu_header s) /\
  (if negb (dir_in (tu_header s)) && (0 <? tcp_usb_payload_len (tu_header s))
   then tu_amount_done s = 5 + tcp_usb_payload_len (tu_header s)
   else tu_amount_done s = 5 /\ tu_buffer s = replicate (Z.to_nat (tcp_usb_payload_len (tu_header s))) 0).

Lemma complete_request s rest : complete s -> first_request (read_so_far s ++ rest) = Some (tu_header s, tu_buffer s, rest).
Proof.
  intros (Hh & Hb & Hp). pose proof (payload_len_nonneg (tu_header s)).
  assert (E : read_so_far s = tu_header s ++ ztake (tu_amount_done s - 5) (tu_buffer s)).
  { unfold read_so_far. rewrite (proj2 (Z.ltb_ge _ 5)); [done|]. destruct (_ && _); lia. }
  unfold first_request. rewrite E, <- app_assoc, zlen_app, Hh. rewrite (proj2 (Z.ltb_ge _ 5)) by (pose proof (zlen_nonneg (ztake (tu_amount_done s - 5) (tu_buffer s) ++ rest)); lia).
  rewrite <- Hh, ztake_app_len, zdrop_app_len. cbv zeta. destruct (_ && _).
  - rewrite ztake_all by lia. rewrite zlen_app, Hb, (proj2 (Z.ltb_ge _ _)) by (pose proof (zlen_nonneg rest); lia).
    by rewrite <- Hb, ztake_app_len, zdrop_app_len.
  - destruct Hp as [Ha Hz]. by rewrite <- Hz, Ha, Hh.
Qed.

(** Nothing is answered before. *)
Lemma reading_no_request s : reading s -> first_request (read_so_far s) = None.
Proof.
  intros (Ha & Hh & Hp). unfold read_so_far, first_request. destruct (Z.ltb_spec (tu_amount_done s) 5) as [H5|H5].
  - by rewrite (proj2 (Z.ltb_lt _ 5)) by (autorewrite with zlen; lia).
  - destruct (Hp H5) as (Hd & Hb & Hl). pose proof (zlen_nonneg (ztake (tu_amount_done s - 5) (tu_buffer s))).
    rewrite zlen_app, Hh, (proj2 (Z.ltb_ge _ 5)) by lia. rewrite <- Hh, ztake_app_len, zdrop_app_len. cbv zeta.
    rewrite Hd, (proj2 (Z.ltb_lt 0 _)) by lia. cbn [negb andb].
    by rewrite (proj2 (Z.ltb_lt _ (tcp_usb_payload_len _))) by (autorewrite with zlen; lia).
Qed.

(** A change of the state alone. *)
Lemma same_sock_pumped (can : Prop) w w1 w2 : e_sock w1 = e_sock w -> total w1 = total w -> pumped can w1 w2 -> pumped can w w2.
Proof.
  intros Es Et [(C & P & N)|(I & (T & K) & M)].
  - left. split; [done|]. rewrite <- Et, <- Es. done.
  - right. split; [done|]. unfold kept, moved in *. rewrite <- Es, <- Et. done.
Qed.

Lemma dir_in_set_length v h : zlen h = 5 -> dir_in (set_length v h) = dir_in h.
Proof. intros H. destruct h as [|h0 [|h1 h]]; done. Qed.

Lemma zlen_set_length v h : zlen h = 5 -> zlen (set_length v h) = 5.
Proof. intros H. unfold set_length. autorewrite with zlen. change (zlen [u8 v; u8 (Z.shiftr v 8)]) with 2. lia. Qed.

Lemma request_done_ok w (can : Prop) : tu_closed (e_tcp w) = false -> tu_state (e_tcp w) = tcp_usb_read_request -> complete (e_tcp w) ->
  pumped can w (request_done (Some cb) closed_callback w).
Proof.
  intros Hc Hs Hp. unfold request_done. destruct (cb _ _ _) as [[[r h] b] d] eqn:E.
  set (w1 := mkEnd _ _ _). destruct (cb_ok _ _ _ _ _ _ _ E (proj1 Hp) (proj1 (proj2 Hp))) as [Hh Hb]. pose proof (zlen_set_length (s16 r) h Hh) as Lh.
  assert (R : ready (e_tcp w1)) by (split; [done|cbn; intros Hd; apply Hb; by rewrite <- (dir_in_set_length (s16 r))]).
  apply (same_sock_pumped _ w w1); [done| |].
  - unfold total, future. rewrite Hs. change (tu_state (e_tcp w1)) with tcp_usb_write_response. cbn [e_sock e_dev w1].
    rewrite (serve_all_step _ _ _ _ _ (complete_request _ _ Hp)). unfold answer. rewrite E. by destruct (serve_all _ d) as [outs d2].
  - apply (pumped_impl True); [done|]. apply pump_write_response_ok; [done|done|]. split; [|done]. split; [done|].
    pose proof (zlen_response _ R) as L. pose proof (payload_len_nonneg (tu_header (e_tcp w1))).
    change (0 < zlen (response (e_tcp w1))). destruct (dir_in (tu_header (e_tcp w1))); lia.
Qed.

(** The header was read, and a part of the payload. *)
Definition reading_payload (s : tcp_usb_state_t) : Prop :=
  zlen (tu_header s) = 5 /\ zlen (tu_buffer s) = tcp_usb_payload_len (tu_header s) /\
  (tu_amount_done s = 5 /\ tu_buffer s = replicate (Z.to_nat (tcp_usb_payload_len (tu_header s))) 0 \/
   5 <= tu_amount_done s /\ dir_in (tu_header s) = false /\ tu_amount_done s - 5 < tcp_usb_payload_len (tu_header s)).

Lemma starved_moved w b w' : starved w b -> calm (e_sock w) -> sk_sched (e_sock w) <> [] -> sk_in (e_sock w) <> [] ->
  (b <> [] -> moved w w') -> moved w w'.
Proof. intros Hs C Hn Hi M. destruct b; [|by apply M]. destruct (Hs C eq_refl); done. Qed.

Lemma read_rest w : tu_closed (e_tcp w) = false -> tu_state (e_tcp w) = tcp_usb_read_request -> reading_payload (e_tcp w) ->
  pumped (sk_in (e_sock w) <> []) w
    (match with_payload false (read_payload closed_callback) w with Ret w => w | Go w => request_done (Some cb) closed_callback w end).
Proof.
  intros Hc Hs (Hh & Hb & Hp). unfold with_payload. pose proof (payload_len_nonneg (tu_header (e_tcp w))) as Hl.
  replace (eqb (dir_in (tu_header (e_tcp w))) false) with (negb (dir_in (tu_header (e_tcp w)))) by (by destruct (dir_in _)).
  destruct (negb _ && _) eqn:E; cycle 1.
  { apply request_done_ok; [done|done|]. split; [done|]. split; [done|]. rewrite E.
    destruct Hp as [Hp|(H5 & Hd & Hr)]; [done|]. rewrite Hd, (proj2 (Z.ltb_lt 0 _)) in E by lia. done. }
  apply andb_prop in E as [Hd E]. apply negb_true_iff in Hd. apply Z.ltb_lt in E.
  pose proof (read_payload_spec w Hc ltac:(cbv zeta; lia)) as S. cbv zeta in S. destruct (read_payload _ w) as [w'|w'].
  - destruct S as (b & Eb & R & Et). destruct (payload_filled_so_far b (e_tcp w)) as [Sf Sb]; [lia|lia|].
    rewrite <- Et in Sf, Sb. destruct (received_kept w b w') as [K M]; [done|by rewrite Et|done|done|].
    assert (b <> []) by (intros ->; change (zlen (@nil Z)) with 0 in Eb; lia).
    apply (kept_pumped _ w w'); [done|auto|]. apply request_done_ok; [by rewrite Et|by rewrite Et|].
    split; [by rewrite Et|]. split; [rewrite Sb, Et; done|]. rewrite Et. cbn. rewrite Hd, (proj2 (Z.ltb_lt 0 _)) by lia. cbn. lia.
  - destruct S as [S|(b & Eb & (R & Et) & St)]; [left; by apply closed_after_ok|].
    destruct (payload_filled_so_far b (e_tcp w)) as [Sf Sb]; [lia|lia|]. rewrite <- Et in Sf, Sb. pose proof (zlen_nonneg b).
    destruct (received_kept w b w') as [K M]; [done|by rewrite Et|done|done|].
    right. split; [|split; [done|]].
    + split; [by rewrite Et|]. replace (tu_state (e_tcp w')) with tcp_usb_read_request by (by rewrite Et).
      rewrite Et in *. split; [cbn; lia|]. split; [done|]. intros _. split; [done|]. split; [by rewrite Sb|]. cbn. lia.
    + intros C Hn Hi. by eapply starved_moved.
Qed.

Lemma pump_read_request_ok w : tu_closed (e_tcp w) = false -> tu_state (e_tcp w) = tcp_usb_read_request -> reading (e_tcp w) ->
  pumped (sk_in (e_sock w) <> []) w (pump_read_request (Some cb) closed_callback w).
Proof.
  intros Hc Hs (Ha & Hh & Hp). unfold pump_read_request. destruct (Z.ltb_spec (tu_amount_done (e_tcp w)) 5) as [H5|H5].
  - destruct (read_header_spec w (fun w => Go (alloc_buffer w)) Hc ltac:(lia))
      as [(w' & -> & [C|(b & Eb & (R & Et) & St)])|(w' & b & -> & Eb & R & Et)].
    + left. by apply closed_after_ok.
    + cbn [and_then]. destruct (header_filled_so_far b (e_tcp w)) as [Sf Sb]; [done|lia|lia|]. rewrite <- Et in Sf, Sb. pose proof (zlen_nonneg b).
      destruct (received_kept w b w') as [K M]; [done|by rewrite Et|done|done|].
      right. split; [|split; [done|]]; [|intros C Hn Hi; by eapply starved_moved].
      split; [by rewrite Et|]. replace (tu_state (e_tcp w')) with tcp_usb_read_request by (by rewrite Et).
      split; [rewrite Et; cbn; lia|]. split; [done|]. rewrite Et. cbn. lia.
    + destruct (header_filled_so_far b (e_tcp w)) as [Sf Sb]; [done|lia|lia|]. rewrite <- Et in Sf, Sb.
      assert (A : tu_amount_done (e_tcp w') = 5) by (rewrite Et; cbn; lia).
      assert (b <> []) by (intros ->; change (zlen (@nil Z)) with 0 in Eb; lia).
      destruct (received_kept w b (alloc_buffer w')) as [K M]; [done|cbn; by rewrite Et|done| |].
      { rewrite <- Sf. unfold read_so_far, alloc_buffer. cbn. by rewrite A. }
      apply (kept_pumped _ w (alloc_buffer w')); [done|auto|]. cbn [and_then].
      destruct (read_rest (alloc_buffer w')) as [P|(I & K' & _)]; [cbn; by rewrite Et|cbn; by rewrite Et| |by left|by right].
      split; [done|]. split; [|left; done]. unfold zlen. cbn. rewrite length_replicate.
      pose proof (payload_len_nonneg (tu_header (e_tcp w'))). lia.
  - assert (E : read_header closed_callback w (fun w => Go (alloc_buffer w)) = Go w)
      by (unfold read_header, HDR_SIZE; by rewrite (proj2 (Z.ltb_ge _ _)) by lia).
    rewrite E. cbn [and_then]. apply read_rest; [done|done|]. destruct (Hp H5) as (Hd & Hb & Hl). split; [done|]. split; [done|]. by right.
Qed.

(** ** A call *)

(** What is still to be read and sent. *)
Definition pending w : Z := zlen (sk_in (e_sock w)) + zlen (future w).1.

Lemma kept_pending w w' : kept w w' -> pending w' <= pending w /\ (moved w w' -> pending w' < pending w).
Proof.
  intros (T & I & O & _). assert (E : zlen (total w').1 = zlen (total w).1) by (by rewrite T). unfold total in E. cbn [fst] in E.
  rewrite !zlen_app in E. unfold pending, moved. lia.
Qed.

Lemma nothing_pending w : device_inv w -> tu_state (e_tcp w) <> tcp_usb_write_response -> sk_in (e_sock w) = [] -> future w = ([], e_dev w).
Proof.
  intros [_ I] Hs Hi. unfold future. rewrite Hi. destruct (tu_state (e_tcp w)); try done. rewrite app_nil_r.
  by apply serve_all_none, reading_no_request.
Qed.

(** A call is of use when the machine writes or may read. *)
Definition of_use (can_read : bool) w : bool := can_read || want_write (e_tcp w).

Lemma tcp_usb_pump_ok can_read w : device_inv w ->
  pumped (of_use can_read w = true /\ 0 < pending w) w (tcp_usb_pump (Some cb) closed_callback can_read w).
Proof.
  intros [Hc I]. assert (N : tu_state (e_tcp w) <> tcp_usb_write_response -> 0 < pending w -> sk_in (e_sock w) <> []).
  { intros Hs Hp Hi. unfold pending in Hp. rewrite (nothing_pending w) in Hp by done. rewrite Hi in Hp. by change (0 < 0) in Hp. }
  unfold tcp_usb_pump. rewrite Hc. unfold of_use, want_write in *. destruct (tu_state (e_tcp w)) eqn:Hs; try done.
  - unfold pump_idle. destruct can_read.
    + set (w1 := w <| e_tcp ::= _ |>). apply (same_sock_pumped _ w w1); [done| |].
      * unfold total, future. rewrite Hs. change (tu_state (e_tcp w1)) with tcp_usb_read_request. done.
      * eapply pumped_impl; [|by apply pump_read_request_ok]. intros [_ ?]. by apply N.
    + right. split; [by split; [|rewrite Hs]|]. split; [done|]. intros _ _ [? _]. done.
  - eapply pumped_impl; [|by apply pump_read_request_ok]. intros [_ ?]. by apply N.
  - eapply pumped_impl; [|by apply pump_write_response_ok]. done.
Qed.

Lemma tcp_usb_callback_ok can_read w : device_inv w ->
  pumped (of_use can_read w = true /\ 0 < pending w) w (tcp_usb_callback (Some cb) closed_callback can_read w).
Proof.
  intros I. pose proof (tcp_usb_pump_ok can_read w I) as P. unfold tcp_usb_callback. set (w1 := tcp_usb_pump _ _ _ _) in *.
  destruct (_ || _) eqn:E; [done|]. destruct P as [(C & _)|P]; [by rewrite C in E|right]. exact P.
Qed.

(** ** A run *)

(** The main loop calls back, for reading or for writing; the system calls made
    in the call meet the schedule. *)
Definition event w (e : bool * list Io) : W :=
  tcp_usb_callback (Some cb) closed_callback e.1
    (w <| e_sock ::= fun k => mkSock (sk_in k) (sk_eof k) (sk_out k) e.2 |>).

Definition run (es : list (bool * list Io)) w : W := fold_left event es w.

(** The calls of a run in which something could be read or written. *)
Definition useful (e : bool * list Io) w : bool := of_use e.1 w && match e.2 with [] => false | _ => true end.

Fixpoint chances (es : list (bool * list Io)) w : Z :=
  match es with
  | [] => 0
  | e :: es => (if useful e w then 1 else 0) + chances es (event w e)
  end.

Definition calm_event (e : bool * list Io) : Prop := Forall (fun io => exists n, io = IoUpto n) e.2.

(** The device's end of a new connection over which [input] arrives. *)
Definition start (input : bytes) (eof : bool) (d : D) : W :=
  mkEnd (tcp_usb_connected (tcp_usb_init tcp_usb_zero)) (mkSock input eof [] []) d.

Lemma event_ok w e : device_inv w ->
  closed_ok (w <| e_sock ::= fun k => mkSock (sk_in k) (sk_eof k) (sk_out k) e.2 |>) (event w e) \/
  device_inv (event w e) /\ total (event w e) = total w /\ pending (event w e) <= pending w /\
  (calm_event e -> sk_eof (e_sock w) = false -> sk_eof (e_sock (event w e)) = false) /\
  (calm_event e -> sk_eof (e_sock w) = false -> useful e w = true -> 0 < pending w -> pending (event w e) < pending w).
Proof.
  intros I. set (w1 := w <| e_sock ::= _ |>). assert (I1 : device_inv w1) by done.
  destruct (tcp_usb_callback_ok e.1 w1 I1) as [C|(I' & K & M)]; [by left|right]. split; [done|]. destruct (kept_pending _ _ K) as [L S].
  split; [by destruct K|]. split; [done|].
  split; [intros C F; by apply K|]. intros C F U P. apply andb_prop in U as [U N].
  apply S, M; [done| |done]. intros E. change (e.2 = []) in E. by rewrite E in N.
Qed.

Lemma closed_event w e : tu_closed (e_tcp w) = true ->
  tu_closed (e_tcp (event w e)) = true /\ sk_out (e_sock (event w e)) = sk_out (e_sock w).
Proof.
  intros C. unfold event, tcp_usb_callback, tcp_usb_pump. set (w1 := w <| e_sock ::= _ |>).
  change (tu_closed (e_tcp w1)) with (tu_closed (e_tcp w)). rewrite C. cbn. by rewrite C.
Qed.

Lemma run_safe es w T : device_inv w /\ total w = T \/ tu_closed (e_tcp w) = true /\ sk_out (e_sock w) `prefix_of` T.1 ->
  sk_out (e_sock (run es w)) `prefix_of` T.1.
Proof.
  revert w. induction es as [|e es IH]; intros w H.
  - destruct H as [[_ <-]|[_ H]]; [by eexists|done].
  - apply (IH (event w e)). destruct H as [[I E]|[C P]].
    + destruct (event_ok w e I) as [(C & P & _)|(I' & T' & _)]; [right|left; by rewrite T']. rewrite <- E. done.
    + right. destruct (closed_event w e C) as [C' E']. by rewrite E'.
Qed.

Lemma chances_nonneg es w : 0 <= chances es w.
Proof. revert w. induction es as [|e es IH]; intros w; cbn [chances]; [lia|]. specialize (IH (event w e)). destruct (useful e w); lia. Qed.

Lemma run_live es w : device_inv w -> sk_eof (e_sock w) = false -> Forall calm_event es ->
  device_inv (run es w) /\ total (run es w) = total w /\ pending (run es w) <= Z.max 0 (pending w - chances es w).
Proof.
  revert w. induction es as [|e es IH]; intros w I F C.
  - split; [done|]. split; [done|]. cbn [run fold_left chances]. lia.
  - apply Forall_cons in C as [Ce C]. destruct (event_ok w e I) as [(_ & _ & N)|(I' & T' & L & F' & M)]; [by destruct N|].
    destruct (IH (event w e) I' (F' Ce F) C) as (I2 & T2 & L2). split; [done|]. split; [by rewrite <- T'|].
    cbn [run fold_left chances]. change (fold_left event es (event w e)) with (run es (event w e)).
    pose proof (chances_nonneg es (event w e)).
    destruct (useful e w) eqn:U; [|lia]. unfold pending in *. destruct (decide (0 < zlen (sk_in (e_sock w)) + zlen (future w).1)); [|lia].
    specialize (M Ce F eq_refl ltac:(done)). lia.
Qed.

(** Everything is answered once there were enough calls. *)
Lemma run_done es w : device_inv w -> sk_eof (e_sock w) = false -> Forall calm_event es -> pending w <= chances es w ->
  sk_out (e_sock (run es w)) = (total w).1 /\ e_dev (run es w) = (total w).2.
Proof.
  intros I F C L. destruct (run_live es w I F C) as (I' & T' & P). rewrite <- T'. set (w' := run es w) in *. clearbody w'.
  assert (0 <= zlen (sk_in (e_sock w')) /\ 0 <= zlen (future w').1) as [? ?] by (split; apply zlen_nonneg). unfold pending in P at 1.
  assert (Ei : sk_in (e_sock w') = []) by (apply length_zero_iff_nil; unfold zlen in *; lia).
  assert (Eo : (future w').1 = []) by (apply length_zero_iff_nil; unfold zlen in *; lia).
  assert (Hs : tu_state (e_tcp w') <> tcp_usb_write_response).
  { intros Hs. destruct I' as [_ I']. rewrite Hs in I'. destruct I' as [W _]. unfold future in Eo. rewrite Hs in Eo.
    destruct (serve_all (sk_in (e_sock w')) _) as [outs d']. apply app_nil in Eo as [Eo _]. apply (f_equal zlen) in Eo.
    rewrite zlen_zdrop in Eo. change (zlen (@nil Z)) with 0 in Eo. lia. }
  unfold total. rewrite (nothing_pending w' I' Hs Ei). cbn [fst snd]. by rewrite app_nil_r.
Qed.

Lemma serves_stream input eof d es :
  let w := run es (start input eof d) in
  sk_out (e_sock w) `prefix_of` (serve_all input d).1 /\
  (eof = false -> Forall calm_event es -> zlen input + zlen (serve_all input d).1 <= chances es (start input eof d) ->
   sk_out (e_sock w) = (serve_all input d).1 /\ e_dev w = (serve_all input d).2).
Proof.
  cbv zeta. assert (I : device_inv (start input eof d)) by done.
  assert (T : total (start input eof d) = serve_all input d) by exact (eq_sym (surjective_pairing _)). rewrite <- T.
  split; [apply run_safe; by left|]. intros -> C L. apply run_done; [done|done|done|]. rewrite T in L. exact L.
Qed.

(** C27. However the system calls cut the two streams of an open connection that waits
    for a request, what the device's end sends after what it had sent is a prefix
    of the answers to the requests that arrive, in order, each with its header,
    its new length and its payload; and once as many calls could make progress as
    there are bytes to move, everything was answered and the device is in the
    state the requests leave. *)
Theorem tcp_usb_serves w es : tu_closed (e_tcp w) = false -> tu_state (e_tcp w) = tcp_usb_idle ->
  let '(answers, d) := serve_all (sk_in (e_sock w)) (e_dev w) in
  sk_out (e_sock (run es w)) `prefix_of` sk_out (e_sock w) ++ answers /\
  (sk_eof (e_sock w) = false -> Forall calm_event es -> zlen (sk_in (e_sock w)) + zlen answers <= chances es w ->
   sk_out (e_sock (run es w)) = sk_out (e_sock w) ++ answers /\ e_dev (run es w) = d).
Proof.
  intros C Hs. destruct (serve_all _ _) as [answers d] eqn:E. assert (I : device_inv w) by (split; [done|by rewrite Hs]).
  assert (Fu : future w = (answers, d)) by (unfold future; by rewrite Hs).
  assert (T : total w = (sk_out (e_sock w) ++ answers, d)) by (unfold total; by rewrite Fu).
  split; [change answers with (answers, d).1; apply (run_safe es w (_, d)); by left|]. intros F Ce L.
  destruct (run_done es w I F Ce) as [R1 R2]; [unfold pending; by rewrite Fu|]. by rewrite R1, R2, T.
Qed.

(** ** The host's end *)

(** A request is being written or its answer read: the caller's buffer holds what
    the header announces. *)
Definition requesting (s : tcp_usb_state_t) : Prop :=
  zlen (tu_header s) = 5 /\ 0 <= tu_amount_done s /\ tu_request_len s = tcp_usb_payload_len (tu_header s) /\ tu_request_len s <= zlen (tu_buffer s) /\
  (5 <= tu_amount_done s -> dir_in (tu_header s) = false /\ tu_amount_done s - 5 < tcp_usb_payload_len (tu_header s)).

Definition awaiting (s : tcp_usb_state_t) : Prop :=
  zlen (tu_header s) = 5 /\ 0 <= tu_amount_done s /\ tu_request_len s <= zlen (tu_buffer s) /\
  (5 <= tu_amount_done s -> dir_in (tu_header s) = true /\ tcp_usb_payload_len (tu_header s) <= tu_request_len s /\
                            tu_amount_done s - 5 < tcp_usb_payload_len (tu_header s)).

Definition end_inv w : Prop :=
  tu_closed (e_tcp w) = true \/
  tu_closed (e_tcp w) = false /\
  match tu_state (e_tcp w) with
  | tcp_usb_idle => True
  | tcp_usb_read_request => reading (e_tcp w)
  | tcp_usb_write_response => writing (e_tcp w)
  | tcp_usb_write_request => requesting (e_tcp w)
  | tcp_usb_read_response => awaiting (e_tcp w)
  end.

(** What the next read or write of a payload asks for is in the buffer. *)
Definition payload_fits w : Prop :=
  tu_closed (e_tcp w) = false -> tu_state (e_tcp w) <> tcp_usb_idle -> 5 <= tu_amount_done (e_tcp w) ->
  0 <= tu_amount_done (e_tcp w) - 5 < tcp_usb_payload_len (tu_header (e_tcp w)) /\
  tcp_usb_payload_len (tu_header (e_tcp w)) <= zlen (tu_buffer (e_tcp w)).

Lemma end_inv_fits w : end_inv w -> payload_fits w.
Proof.
  intros [C|[C I]] Hc Hs Ha; [congruence|]. destruct (tu_state (e_tcp w)); [done| | | |].
  - destruct I as (_ & _ & I). destruct (I Ha) as (_ & ? & ?). lia.
  - destruct I as (I & R). rewrite zlen_response in I by done. destruct R as [_ R]. destruct (dir_in _); [specialize (R eq_refl)|]; lia.
  - destruct I as (_ & _ & I1 & I2 & I). destruct (I Ha) as (_ & ?). lia.
  - destruct I as (_ & _ & I2 & I). destruct (I Ha) as (_ & ? & ?). lia.
Qed.

Lemma do_closed_closed w : tu_closed (e_tcp (tcp_usb_do_closed closed_callback w)) = true.
Proof.
  unfold tcp_usb_do_closed. destruct (tu_closed (e_tcp w)) eqn:E; [done|]. set (w1 := w <| e_tcp ::= _ |>).
  assert (C : tu_closed (e_tcp w1) = true) by (unfold w1, tcp_usb_free_packet; destruct w as [s k d]; cbn; by destruct (tu_owns_packet _)).
  clearbody w1. destruct (tu_socket _), closed_callback; done.
Qed.

Lemma response_done_inv w : tu_closed (e_tcp w) = false -> end_inv (response_done (Some cb) w).
Proof. intros C. right. unfold response_done. cbv zeta. destruct (cb _ _ _) as [[[r h] b] d]. done. Qed.

Lemma read_response_rest w : tu_closed (e_tcp w) = false -> tu_state (e_tcp w) = tcp_usb_read_response ->
  zlen (tu_header (e_tcp w)) = 5 -> 5 <= tu_amount_done (e_tcp w) -> tu_request_len (e_tcp w) <= zlen (tu_buffer (e_tcp w)) ->
  (dir_in (tu_header (e_tcp w)) = true -> tcp_usb_payload_len (tu_header (e_tcp w)) <= tu_request_len (e_tcp w)) ->
  (0 < tcp_usb_payload_len (tu_header (e_tcp w)) -> dir_in (tu_header (e_tcp w)) = true ->
   tu_amount_done (e_tcp w) - 5 < tcp_usb_payload_len (tu_header (e_tcp w))) ->
  end_inv (match with_payload true (read_payload closed_callback) w with Ret w => w | Go w => response_done (Some cb) w end).
Proof.
  intros Hc Hs Hh Ha Hr Hl Hp. unfold with_payload. cbv zeta. destruct (dir_in (tu_header (e_tcp w))) eqn:Ed; cbn [eqb andb]; [|by apply response_done_inv].
  destruct (Z.ltb_spec 0 (tcp_usb_payload_len (tu_header (e_tcp w)))) as [Hpos|]; [|by apply response_done_inv].
  specialize (Hl eq_refl). specialize (Hp Hpos eq_refl). pose proof (read_payload_spec w Hc ltac:(cbv zeta; lia)) as S. cbv zeta in S.
  destruct (read_payload _ w) as [w'|w'].
  - destruct S as (b & Eb & R & Et). apply response_done_inv. by rewrite Et.
  - destruct S as [(C & _)|(b & Eb & (R & Et) & _)]; [by left|right]. pose proof (zlen_nonneg b).
    destruct (payload_filled_so_far b (e_tcp w)) as [_ Sb]; [lia|lia|].
    rewrite Et. split; [done|]. change (tu_state (payload_filled b (e_tcp w))) with (tu_state (e_tcp w)). rewrite Hs.
    split; [done|]. split; [cbn; lia|]. rewrite Sb. split; [done|]. intros _. split; [done|]. split; [done|]. cbn. lia.
Qed.

Lemma pump_read_response_inv w : tu_closed (e_tcp w) = false -> tu_state (e_tcp w) = tcp_usb_read_response -> awaiting (e_tcp w) ->
  end_inv (pump_read_response (Some cb) closed_callback w).
Proof.
  intros Hc Hs (Hh & Ha & Hr & Hp). unfold pump_read_response. destruct (Z.ltb_spec (tu_amount_done (e_tcp w)) 5) as [H5|H5].
  - destruct (read_header_spec w (check_response closed_callback) Hc ltac:(lia))
      as [(w' & -> & [(C & _)|(b & Eb & (R & Et) & _)])|(w' & b & -> & Eb & R & Et)]; [by left| |].
    + cbn [and_then]. right. pose proof (zlen_nonneg b). destruct (header_filled_so_far b (e_tcp w)) as [_ Sb]; [done|lia|lia|].
      rewrite Et. split; [done|]. change (tu_state (header_filled b (e_tcp w))) with (tu_state (e_tcp w)). rewrite Hs.
      split; [done|]. split; [cbn; lia|]. split; [done|]. cbn. lia.
    + destruct (header_filled_so_far b (e_tcp w)) as [_ Sb]; [done|lia|lia|]. rewrite <- Et in Sb.
      assert (A : tu_amount_done (e_tcp w') = 5) by (rewrite Et; cbn; lia).
      unfold check_response. cbv zeta. destruct (dir_in (tu_header (e_tcp w'))) eqn:Ed; cbn [andb].
      * destruct (Z.ltb_spec (tu_request_len (e_tcp w')) (tcp_usb_payload_len (tu_header (e_tcp w')))) as [Hl|Hl].
        { left. apply do_closed_closed. }
        apply read_response_rest; try (by rewrite Et); try done; lia.
      * apply read_response_rest; try (by rewrite Et); try done; try lia. by rewrite Ed.
  - assert (E : read_header closed_callback w (check_response closed_callback) = Go w)
      by (unfold read_header, HDR_SIZE; by rewrite (proj2 (Z.ltb_ge _ _)) by lia).
    destruct (Hp H5) as (Hd & Hl & Hg). rewrite E. cbn [and_then]. by apply read_response_rest.
Qed.

(** The request is sent: the answer is awaited. *)
Lemma request_sent_inv w : tu_closed (e_tcp w) = false -> zlen (tu_header (e_tcp w)) = 5 -> tu_request_len (e_tcp w) <= zlen (tu_buffer (e_tcp w)) ->
  end_inv (pump_read_response (Some cb) closed_callback
    (w <| e_tcp ::= fun s => s <| tu_state := tcp_usb_read_response |> <| tu_amount_done := 0 |> |>)).
Proof. intros Hc Hh Hr. apply pump_read_response_inv; [done|done|]. split; [done|]. split; [done|]. split; [done|]. cbn. lia. Qed.

Lemma write_request_rest w : tu_closed (e_tcp w) = false -> tu_state (e_tcp w) = tcp_usb_write_request ->
  zlen (tu_header (e_tcp w)) = 5 -> 5 <= tu_amount_done (e_tcp w) ->
  tu_request_len (e_tcp w) = tcp_usb_payload_len (tu_header (e_tcp w)) -> tu_request_len (e_tcp w) <= zlen (tu_buffer (e_tcp w)) ->
  (0 < tcp_usb_payload_len (tu_header (e_tcp w)) -> dir_in (tu_header (e_tcp w)) = false ->
   tu_amount_done (e_tcp w) - 5 < tcp_usb_payload_len (tu_header (e_tcp w))) ->
  end_inv (match with_payload false (write_payload closed_callback) w with
           | Ret w => w
           | Go w => pump_read_response (Some cb) closed_callback
                       (w <| e_tcp ::= fun s => s <| tu_state := tcp_usb_read_response |> <| tu_amount_done := 0 |> |>)
           end).
Proof.
  intros Hc Hs Hh Ha Hq Hr Hp. unfold with_payload. cbv zeta.
  destruct (dir_in (tu_header (e_tcp w))) eqn:Ed; cbn [eqb andb]; [by apply request_sent_inv|].
  destruct (Z.ltb_spec 0 (tcp_usb_payload_len (tu_header (e_tcp w)))) as [Hpos|]; [|by apply request_sent_inv].
  specialize (Hp Hpos eq_refl). pose proof (write_payload_spec w Hc ltac:(lia) ltac:(lia)) as S. cbv zeta in S.
  destruct (write_payload _ w) as [w'|w'].
  - destruct S as (Et & _). by apply request_sent_inv; rewrite Et.
  - destruct S as [(C & _)|(n & Hn & (Et & _) & _)]; [by left|right]. rewrite zlen_zdrop, zlen_ztake in Hn.
    rewrite Et. split; [done|]. change (tu_state _) with (tu_state (e_tcp w)). rewrite Hs.
    split; [done|]. split; [cbn; lia|]. split; [done|]. split; [done|]. intros _. split; [done|]. cbn. lia.
Qed.

Lemma pump_write_request_inv w : tu_closed (e_tcp w) = false -> tu_state (e_tcp w) = tcp_usb_write_request -> requesting (e_tcp w) ->
  end_inv (pump_write_request (Some cb) closed_callback w).
Proof.
  intros Hc Hs (Hh & Ha & Hq & Hr & Hp). unfold pump_write_request. destruct (Z.ltb_spec (tu_amount_done (e_tcp w)) 5) as [H5|H5].
  - pose proof (write_header_spec w Hc Hh ltac:(lia)) as S. cbv zeta in S.
    assert (L : zlen (zdrop (tu_amount_done (e_tcp w)) (tu_header (e_tcp w))) = 5 - tu_amount_done (e_tcp w)) by (rewrite zlen_zdrop; lia). rewrite L in S.
    destruct (write_header closed_callback w) as [w1|w1]; cbn [and_then].
    + destruct S as (Et & _). assert (A : tu_amount_done (e_tcp w1) = 5) by (rewrite Et, amount_amount; lia).
      apply write_request_rest; try (by rewrite Et); lia.
    + destruct S as [(C & _)|(n & Hn & (Et & _) & _)]; [by left|right]. rewrite Et. split; [done|].
      change (tu_state _) with (tu_state (e_tcp w)). rewrite Hs. split; [done|]. rewrite amount_amount. split; [lia|]. split; [done|]. split; [done|]. lia.
  - assert (E : write_header closed_callback w = Go w) by (unfold write_header, HDR_SIZE; by rewrite (proj2 (Z.ltb_ge _ _)) by lia).
    destruct (Hp H5) as (Hd & Hg). rewrite E. cbn [and_then]. by apply write_request_rest.
Qed.

Lemma event_inv w e : end_inv w -> end_inv (event w e).
Proof.
  intros [C|[C I]]; [left; by apply closed_event|]. unfold event. set (w1 := w <| e_sock ::= _ |>). unfold tcp_usb_callback.
  enough (P : end_inv (tcp_usb_pump (Some cb) closed_callback e.1 w1)).
  { set (w2 := tcp_usb_pump _ _ _ _) in *. clearbody w2. destruct (_ || _); [done|]. exact P. }
  destruct (tu_state (e_tcp w)) eqn:Hs.
  4,5: unfold tcp_usb_pump; change (e_tcp w1) with (e_tcp w); rewrite C, Hs.
  4: by apply pump_write_request_inv. 4: by apply pump_read_response_inv.
  all: assert (I1 : device_inv w1) by (split; [done|]; change (e_tcp w1) with (e_tcp w); by rewrite Hs).
  all: destruct (tcp_usb_pump_ok e.1 w1 I1) as [(C' & _)|([C' I'] & _)]; [by left|right].
  all: split; [done|]; revert I'; by destruct (tu_state (e_tcp (tcp_usb_pump _ _ _ _))).
Qed.

(** The main loop calls back, or the owner of the connection makes a request with
    a header and a buffer at least as long as the header says. *)
Inductive action := Event (e : bool * list Io) | Request (header data : bytes).

Definition act w (a : action) : W :=
  match a with
  | Event e => event w e
  | Request header data => (tcp_usb_request (Some cb) closed_callback header data w).2
  end.

Definition action_ok (a : action) : Prop :=
  match a with Event _ => True | Request header data => zlen header = 5 /\ tcp_usb_payload_len header <= zlen data end.

Lemma act_inv w a : action_ok a -> end_inv w -> end_inv (act w a).
Proof.
  destruct a as [e|header data]; [intros _; apply event_inv|]. intros [Hh Hd] I. cbn [act]. unfold tcp_usb_request. cbv zeta.
  destruct (tu_closed (e_tcp w)) eqn:C; [by left|]. destruct (tu_state (e_tcp w)) eqn:Hs; try exact I.
  unfold tcp_usb_callback. cbn [snd]. set (w1 := w <| e_tcp := _ |>). enough (P : end_inv (tcp_usb_pump (Some cb) closed_callback false w1)).
  { set (w2 := tcp_usb_pump _ _ _ _) in *. clearbody w2. destruct (_ || _); [done|]. exact P. }
  unfold tcp_usb_pump. change (tu_closed (e_tcp w1)) with (tu_closed (e_tcp w)). rewrite C. change (tu_state (e_tcp w1)) with tcp_usb_write_request.
  apply pump_write_request_inv; [done|done|]. split; [done|]. split; [done|]. split; [done|]. split; [done|]. cbn. lia.
Qed.

(** C29. On both ends of a connection, whatever arrives and however the system calls
    cut the streams, a transfer of a payload stays inside its buffer: the buffer
    made for a request, the one the callback filled, or the one the caller of a
    request gave, also when the answer's header turns the direction round or
    announces more than was asked for. *)
Theorem tcp_usb_payload_fits w acts : tu_closed (e_tcp w) = false -> tu_state (e_tcp w) = tcp_usb_idle -> Forall action_ok acts ->
  payload_fits (fold_left act acts w).
Proof.
  intros C Hs F. apply end_inv_fits. assert (I : end_inv w) by (right; by rewrite Hs). clear C Hs. revert w I.
  induction F as [|a acts Ha F IH]; intros w I; [done|]. cbn [fold_left]. by apply IH, act_inv.
Qed.

End Device.

(** ** What happens to the device *)

Section Kept.
Context {D : Type}.
Variable cb : bytes -> bytes -> D -> Z * bytes * bytes * D.
Variable closed_callback : option (D -> D).

(** A property of the device that the callbacks keep. *)
Variable P : D -> Prop.
Hypothesis cb_keeps : forall h b d, P d -> P (cb h b d).2.
Hypothesis closed_keeps : forall f d, closed_callback = Some f -> P d -> P (f d).

Definition flow_end (f : @Flow D) : End D := match f with Go w | Ret w => w end.

Lemma do_closed_keeps (w : End D) : P (e_dev w) -> P (e_dev (tcp_usb_do_closed closed_callback w)).
Proof.
  intros H. unfold tcp_usb_do_closed. destruct (tu_closed (e_tcp w)); [done|]. destruct closed_callback as [f|] eqn:E.
  - destruct (tu_socket _); by apply closed_keeps.
  - by destruct (tu_socket _).
Qed.

Lemma write_header_keeps w : P (e_dev w) -> P (e_dev (flow_end (write_header closed_callback w))).
Proof.
  intros H. unfold write_header. destruct (_ <? _); [|done]. destruct (sock_write _ _) as [[res n] k]. destruct res; [|done|by apply do_closed_keeps].
  cbv zeta. by destruct (_ <? _).
Qed.

Lemma write_payload_keeps w : P (e_dev w) -> P (e_dev (flow_end (write_payload closed_callback w))).
Proof.
  intros H. unfold write_payload. cbv zeta. destruct (sock_write _ _) as [[res n] k]. destruct res; [|done|by apply do_closed_keeps]. by destruct (_ <? _).
Qed.

Lemma read_payload_keeps w : P (e_dev w) -> P (e_dev (flow_end (read_payload closed_callback w))).
Proof.
  intros H. unfold read_payload. cbv zeta. destruct (sock_read _ _) as [[res b] k]. destruct res; [|done|by apply do_closed_keeps]. by destruct (_ <? _).
Qed.

Lemma read_header_keeps w fresh : P (e_dev w) -> (forall w, P (e_dev w) -> P (e_dev (flow_end (fresh w)))) ->
  P (e_dev (flow_end (read_header closed_callback w fresh))).
Proof.
  intros H F. unfold read_header. destruct (_ <? _); [|done]. destruct (sock_read _ _) as [[res b] k]. destruct res; [|done|by apply do_closed_keeps].
  cbv zeta. destruct (_ <? _); [done|]. by apply F.
Qed.

Lemma then_keeps f dir g : P (e_dev (flow_end f)) -> (forall w, P (e_dev w) -> P (e_dev (flow_end (g w)))) ->
  P (e_dev (flow_end (and_then f (with_payload dir g)))).
Proof. intros H G. destruct f as [w|w]; [|done]. cbn [and_then]. unfold with_payload. cbv zeta. destruct (_ && _); [by apply G|done]. Qed.

Lemma pump_write_response_keeps w : P (e_dev w) -> P (e_dev (pump_write_response closed_callback w)).
Proof.
  intros H. unfold pump_write_response.
  pose proof (then_keeps _ true _ (write_header_keeps w H) write_payload_keeps) as K. by destruct (and_then _ _).
Qed.

Lemma request_done_keeps w : P (e_dev w) -> P (e_dev (request_done (Some cb) closed_callback w)).
Proof.
  intros H. unfold request_done. pose proof (cb_keeps (tu_header (e_tcp w)) (tu_buffer (e_tcp w)) _ H) as K.
  destruct (cb _ _ _) as [[[r h] b] d]. by apply pump_write_response_keeps.
Qed.

Lemma pump_read_request_keeps w : P (e_dev w) -> P (e_dev (pump_read_request (Some cb) closed_callback w)).
Proof.
  intros H. unfold pump_read_request.
  pose proof (then_keeps _ false _ (read_header_keeps w (fun w => Go (alloc_buffer w)) H (fun _ h => h)) read_payload_keeps) as K.
  destruct (and_then _ _); [by apply request_done_keeps|done].
Qed.

Lemma pump_read_response_keeps w : P (e_dev w) -> P (e_dev (pump_read_response (Some cb) closed_callback w)).
Proof.
  intros H. unfold pump_read_response.
  assert (C : forall w, P (e_dev w) -> P (e_dev (flow_end (check_response closed_callback w)))).
  { intros w' H'. unfold check_response. cbv zeta. destruct (_ && _); [by apply do_closed_keeps|done]. }
  pose proof (then_keeps _ true _ (read_header_keeps w _ H C) read_payload_keeps) as K. destruct (and_then _ _) as [w'|w']; [|done].
  unfold response_done. cbv zeta. cbn [flow_end] in K.
  pose proof (cb_keeps (tu_header (e_tcp w')) (tu_buffer (e_tcp w')) _ K) as K'. cbn in *. by destruct (cb _ _ _) as [[[r h] b] d].
Qed.

Lemma tcp_usb_callback_keeps can_read w : P (e_dev w) -> P (e_dev (tcp_usb_callback (Some cb) closed_callback can_read w)).
Proof.
  intros H. unfold tcp_usb_callback. set (w1 := tcp_usb_pump _ _ _ _). enough (H1 : P (e_dev w1)) by (by destruct (_ || _)).
  unfold w1, tcp_usb_pump. destruct (tu_closed _); [done|]. destruct (tu_state _).
  - unfold pump_idle. destruct can_read; [by apply pump_read_request_keeps|done].
  - by apply pump_read_request_keeps.
  - by apply pump_write_response_keeps.
  - unfold pump_write_request. pose proof (then_keeps _ false _ (write_header_keeps w H) write_payload_keeps) as K.
    destruct (and_then _ _); [by apply pump_read_response_keeps|done].
  - by apply pump_read_response_keeps.
Qed.

End Kept.
