(* ===== verification/UsbCore.v ===== *)
(** * USB device controller

    [src/hw/arm/ipod_touch_usb_otg.c]: the Synopsys OTG core in device mode, with
    its interrupt tree, its endpoints and the handler of a host transaction.  A
    transaction is a header of five bytes and a buffer; the data path is guest
    memory, read and written at the address the guest armed.

    Guest memory is a function of the physical address.  The trace output and the
    log of guest errors are left out. *)

From Stdlib Require Import ZArith Lia.
From stdpp Require Import base numbers list.
From S2P Require Import Prelude CLib HwLib TcpUsb.
Local Open Scope Z_scope.

(** ** Constants *)

Definition USB_NUM_ENDPOINTS : Z := 8.
Definition USB_NUM_FIFOS : Z := 16.

Definition GINTMSK_OTG : Z := 0x4.
Definition GINTMSK_GINNAKEFF : Z := 0x40.
Definition GINTMSK_GOUTNAKEFF : Z := 0x80.
Definition GINTMSK_RESET : Z := 0x1000.
Definition GINTMSK_ENUMDONE : Z := 0x2000.
Definition GINTMSK_INEP : Z := 0x40000.
Definition GINTMSK_OEP : Z := 0x80000.
Definition GINTMSK_CONIDSTSCHNG : Z := 0x10000000.
Definition GAHBCFG_MASKINT : Z := 0x1.
Definition DAINT_OUT_SHIFT : Z := 16.
Definition DAINT_IN_SHIFT : Z := 0.
Definition DCFG_DEVICEADDRMSK : Z := 0x7f0.
Definition DCFG_DEVICEADDR_SHIFT : Z := 4.
Definition DEPTSIZ_PKTCNT_MASK : Z := 0x3ff.
Definition DEPTSIZ_PKTCNT_SHIFT : Z := 19.
Definition DEPTSIZ_XFERSIZ_MASK : Z := 0x1ffff.
Definition USB_EPCON_ENABLE : Z := 0x80000000.
Definition USB_EPCON_DISABLE : Z := 0x40000000.
Definition USB_EPCON_SETNAK : Z := 0x8000000.
Definition USB_EPCON_CLEARNAK : Z := 0x4000000.
Definition USB_EPCON_STALL : Z := 0x200000.
Definition USB_EPCON_NAKSTS : Z := 0x20000.
Definition USB_EPCON_MPS_MASK : Z := 0x7ff.
Definition USB_EPINT_INEPNakEff : Z := 0x40.
Definition USB_EPINT_SetUp : Z := 0x8.
Definition USB_EPINT_EPDisbld : Z := 0x2.
Definition USB_EPINT_XferCompl : Z := 0x1.
Definition tcp_usb_setup : Z := 1.
Definition tcp_usb_reset : Z := 2.
Definition tcp_usb_enumdone : Z := 4.
Definition tcp_usb_hello : Z := 8.
Definition TCP_USB_EP_CONTROL : Z := 0x7f.
Definition TCP_USB_HELLO_MAGIC : Z := 0x42535554.
Definition TCP_USB_PROTOCOL_VERSION : Z := 1.
Definition TCP_USB_MAX_TRANSACTION : Z := 32767.
Definition USB_RET_NAK : Z := (-2).
Definition USB_RET_STALL : Z := (-3).

(** [hwaddr] *)
Definition u64 (x : Z) : Z := x mod 18446744073709551616.

(** ** The state *)

Record synopsys_usb_ep_state := mkEp {
  ue_control : Z;
  ue_tx_size : Z;
  ue_fifo : Z;
  ue_interrupt_status : Z;
  ue_dma_address : Z;
  ue_dma_buffer : Z
}.

Definition eta_ep (r : synopsys_usb_ep_state) : synopsys_usb_ep_state :=
  mkEp (ue_control r) (ue_tx_size r) (ue_fifo r) (ue_interrupt_status r) (ue_dma_address r) (ue_dma_buffer r).
#[global] Instance upd_ue_control : Upd ue_control := ltac:(derive_upd eta_ep ue_control).
#[global] Instance upd_ue_tx_size : Upd ue_tx_size := ltac:(derive_upd eta_ep ue_tx_size).
#[global] Instance upd_ue_fifo : Upd ue_fifo := ltac:(derive_upd eta_ep ue_fifo).
#[global] Instance upd_ue_interrupt_status : Upd ue_interrupt_status := ltac:(derive_upd eta_ep ue_interrupt_status).
#[global] Instance upd_ue_dma_address : Upd ue_dma_address := ltac:(derive_upd eta_ep ue_dma_address).
#[global] Instance upd_ue_dma_buffer : Upd ue_dma_buffer := ltac:(derive_upd eta_ep ue_dma_buffer).

(** [us_irq] is the level of the interrupt line.  A timer is its deadline when it
    is armed; the timer of the built-in host does not exist before the device is
    realized.  The transport's state is kept beside the core's. *)
Record synopsys_usb_state := mkUsbState {
  us_irq : bool;
  us_server_host : option bytes;
  us_server_port : Z;
  us_tcp_connected : bool;
  us_cable_attached : bool;
  us_tcp_retry_timer : option Z;
  us_builtin_host : bool;
  us_host_charge : bool;
  us_withhold_charge : bool;
  us_host_timer : option (option Z);
  us_host_phase : Z;
  us_host_cfg : Z;
  us_host_cfg_value : Z;
  us_host_ncfg : Z;
  us_host_ep_in : Z;
  us_host_ep_out : Z;
  us_host_greeted : bool;
  us_host_iserial : Z;
  us_host_got : Z;
  us_host_want : Z;
  us_host_deadline : Z;
  us_host_buf : bytes;
  us_pcgcctl : Z;
  us_phy_reset : bool;
  us_ghwcfg1 : Z;
  us_ghwcfg2 : Z;
  us_ghwcfg3 : Z;
  us_ghwcfg4 : Z;
  us_gahbcfg : Z;
  us_gusbcfg : Z;
  us_grxfsiz : Z;
  us_gnptxfsiz : Z;
  us_gotgctl : Z;
  us_gotgint : Z;
  us_grstctl : Z;
  us_gintmsk : Z;
  us_gintsts : Z;
  us_dptxfsiz : list Z;
  us_dctl : Z;
  us_dcfg : Z;
  us_dsts : Z;
  us_daintmsk : Z;
  us_daintsts : Z;
  us_diepmsk : Z;
  us_doepmsk : Z;
  us_in_eps : list synopsys_usb_ep_state;
  us_out_eps : list synopsys_usb_ep_state;
  us_fifos : bytes
}.

Definition eta_usb (r : synopsys_usb_state) : synopsys_usb_state :=
  mkUsbState (us_irq r) (us_server_host r) (us_server_port r) (us_tcp_connected r) (us_cable_attached r)
    (us_tcp_retry_timer r) (us_builtin_host r) (us_host_charge r) (us_withhold_charge r) (us_host_timer r)
    (us_host_phase r) (us_host_cfg r) (us_host_cfg_value r) (us_host_ncfg r) (us_host_ep_in r) (us_host_ep_out r)
    (us_host_greeted r) (us_host_iserial r) (us_host_got r) (us_host_want r) (us_host_deadline r) (us_host_buf r)
    (us_pcgcctl r) (us_phy_reset r) (us_ghwcfg1 r) (us_ghwcfg2 r) (us_ghwcfg3 r) (us_ghwcfg4 r) (us_gahbcfg r)
    (us_gusbcfg r) (us_grxfsiz r) (us_gnptxfsiz r) (us_gotgctl r) (us_gotgint r) (us_grstctl r) (us_gintmsk r)
    (us_gintsts r) (us_dptxfsiz r) (us_dctl r) (us_dcfg r) (us_dsts r) (us_daintmsk r) (us_daintsts r)
    (us_diepmsk r) (us_doepmsk r) (us_in_eps r) (us_out_eps r) (us_fifos r).
#[global] Instance upd_us_irq : Upd us_irq := ltac:(derive_upd eta_usb us_irq).
#[global] Instance upd_us_server_host : Upd us_server_host := ltac:(derive_upd eta_usb us_server_host).
#[global] Instance upd_us_server_port : Upd us_server_port := ltac:(derive_upd eta_usb us_server_port).
#[global] Instance upd_us_tcp_connected : Upd us_tcp_connected := ltac:(derive_upd eta_usb us_tcp_connected).
#[global] Instance upd_us_cable_attached : Upd us_cable_attached := ltac:(derive_upd eta_usb us_cable_attached).
#[global] Instance upd_us_tcp_retry_timer : Upd us_tcp_retry_timer := ltac:(derive_upd eta_usb us_tcp_retry_timer).
#[global] Instance upd_us_builtin_host : Upd us_builtin_host := ltac:(derive_upd eta_usb us_builtin_host).
#[global] Instance upd_us_host_charge : Upd us_host_charge := ltac:(derive_upd eta_usb us_host_charge).
#[global] Instance upd_us_withhold_charge : Upd us_withhold_charge := ltac:(derive_upd eta_usb us_withhold_charge).
#[global] Instance upd_us_host_timer : Upd us_host_timer := ltac:(derive_upd eta_usb us_host_timer).
#[global] Instance upd_us_host_phase : Upd us_host_phase := ltac:(derive_upd eta_usb us_host_phase).
#[global] Instance upd_us_host_cfg : Upd us_host_cfg := ltac:(derive_upd eta_usb us_host_cfg).
#[global] Instance upd_us_host_cfg_value : Upd us_host_cfg_value := ltac:(derive_upd eta_usb us_host_cfg_value).
#[global] Instance upd_us_host_ncfg : Upd us_host_ncfg := ltac:(derive_upd eta_usb us_host_ncfg).
#[global] Instance upd_us_host_ep_in : Upd us_host_ep_in := ltac:(derive_upd eta_usb us_host_ep_in).
#[global] Instance upd_us_host_ep_out : Upd us_host_ep_out := ltac:(derive_upd eta_usb us_host_ep_out).
#[global] Instance upd_us_host_greeted : Upd us_host_greeted := ltac:(derive_upd eta_usb us_host_greeted).
#[global] Instance upd_us_host_iserial : Upd us_host_iserial := ltac:(derive_upd eta_usb us_host_iserial).
#[global] Instance upd_us_host_got : Upd us_host_got := ltac:(derive_upd eta_usb us_host_got).
#[global] Instance upd_us_host_want : Upd us_host_want := ltac:(derive_upd eta_usb us_host_want).
#[global] Instance upd_us_host_deadline : Upd us_host_deadline := ltac:(derive_upd eta_usb us_host_deadline).
#[global] Instance upd_us_host_buf : Upd us_host_buf := ltac:(derive_upd eta_usb us_host_buf).
#[global] Instance upd_us_pcgcctl : Upd us_pcgcctl := ltac:(derive_upd eta_usb us_pcgcctl).
#[global] Instance upd_us_phy_reset : Upd us_phy_reset := ltac:(derive_upd eta_usb us_phy_reset).
#[global] Instance upd_us_ghwcfg1 : Upd us_ghwcfg1 := ltac:(derive_upd eta_usb us_ghwcfg1).
#[global] Instance upd_us_ghwcfg2 : Upd us_ghwcfg2 := ltac:(derive_upd eta_usb us_ghwcfg2).
#[global] Instance upd_us_ghwcfg3 : Upd us_ghwcfg3 := ltac:(derive_upd eta_usb us_ghwcfg3).
#[global] Instance upd_us_ghwcfg4 : Upd us_ghwcfg4 := ltac:(derive_upd eta_usb us_ghwcfg4).
#[global] Instance upd_us_gahbcfg : Upd us_gahbcfg := ltac:(derive_upd eta_usb us_gahbcfg).
#[global] Instance upd_us_gusbcfg : Upd us_gusbcfg := ltac:(derive_upd eta_usb us_gusbcfg).
#[global] Instance upd_us_grxfsiz : Upd us_grxfsiz := ltac:(derive_upd eta_usb us_grxfsiz).
#[global] Instance upd_us_gnptxfsiz : Upd us_gnptxfsiz := ltac:(derive_upd eta_usb us_gnptxfsiz).
#[global] Instance upd_us_gotgctl : Upd us_gotgctl := ltac:(derive_upd eta_usb us_gotgctl).
#[global] Instance upd_us_gotgint : Upd us_gotgint := ltac:(derive_upd eta_usb us_gotgint).
#[global] Instance upd_us_grstctl : Upd us_grstctl := ltac:(derive_upd eta_usb us_grstctl).
#[global] Instance upd_us_gintmsk : Upd us_gintmsk := ltac:(derive_upd eta_usb us_gintmsk).
#[global] Instance upd_us_gintsts : Upd us_gintsts := ltac:(derive_upd eta_usb us_gintsts).
#[global] Instance upd_us_dptxfsiz : Upd us_dptxfsiz := ltac:(derive_upd eta_usb us_dptxfsiz).
#[global] Instance upd_us_dctl : Upd us_dctl := ltac:(derive_upd eta_usb us_dctl).
#[global] Instance upd_us_dcfg : Upd us_dcfg := ltac:(derive_upd eta_usb us_dcfg).
#[global] Instance upd_us_dsts : Upd us_dsts := ltac:(derive_upd eta_usb us_dsts).
#[global] Instance upd_us_daintmsk : Upd us_daintmsk := ltac:(derive_upd eta_usb us_daintmsk).
#[global] Instance upd_us_daintsts : Upd us_daintsts := ltac:(derive_upd eta_usb us_daintsts).
#[global] Instance upd_us_diepmsk : Upd us_diepmsk := ltac:(derive_upd eta_usb us_diepmsk).
#[global] Instance upd_us_doepmsk : Upd us_doepmsk := ltac:(derive_upd eta_usb us_doepmsk).
#[global] Instance upd_us_in_eps : Upd us_in_eps := ltac:(derive_upd eta_usb us_in_eps).
#[global] Instance upd_us_out_eps : Upd us_out_eps := ltac:(derive_upd eta_usb us_out_eps).
#[global] Instance upd_us_fifos : Upd us_fifos := ltac:(derive_upd eta_usb us_fifos).

(** The core and guest memory. *)
Record Usb := mkUsb { u_core : synopsys_usb_state; u_mem : Z -> Z }.

Definition eta_u (r : Usb) : Usb := mkUsb (u_core r) (u_mem r).
#[global] Instance upd_u_core : Upd u_core := ltac:(derive_upd eta_u u_core).
#[global] Instance upd_u_mem : Upd u_mem := ltac:(derive_upd eta_u u_mem).

Definition ep_zero : synopsys_usb_ep_state := mkEp 0 0 0 0 0 0.

(** A new controller: its instance, with the configuration words of the machine. *)
Definition ipod_touch_init_usb_otg (hw1 hw2 hw3 hw4 : Z) : synopsys_usb_state :=
  mkUsbState false None 0 false true None false false false None 0 0 0 0 0 0 false 0 0 0 0 (replicate 1024 0) 0
    false hw1 hw2 hw3 hw4 0 0 0 0 0 0 0 0 0 (replicate 16 0) 0 0 0 0 0 0 0 (replicate 8 ep_zero)
    (replicate 8 ep_zero) (replicate 4352 0).

Definition in_ep (s : synopsys_usb_state) (i : Z) : synopsys_usb_ep_state := default ep_zero (us_in_eps s !! Z.to_nat i).
Definition out_ep (s : synopsys_usb_state) (i : Z) : synopsys_usb_ep_state := default ep_zero (us_out_eps s !! Z.to_nat i).

Definition set_in_ep (i : Z) (e : synopsys_usb_ep_state) (s : synopsys_usb_state) : synopsys_usb_state :=
  s <| us_in_eps ::= fun l => wr l i e |>.
Definition set_out_ep (i : Z) (e : synopsys_usb_ep_state) (s : synopsys_usb_state) : synopsys_usb_state :=
  s <| us_out_eps ::= fun l => wr l i e |>.

Definition clear (v mask : Z) : Z := Z.ldiff v mask.

(** ** Interrupts *)

(** What one endpoint pair contributes. *)
Definition ep_irq (s : synopsys_usb_state) (i : Z) : synopsys_usb_state :=
  let s :=
    if flagged (ue_interrupt_status (out_ep s i)) (us_doepmsk s) then
      let bit := Z.shiftl 1 (i + DAINT_OUT_SHIFT) in
      let s := s <| us_daintsts ::= fun v => Z.lor v bit |> in
      if flagged (us_daintmsk s) bit then s <| us_gintsts ::= fun v => Z.lor v GINTMSK_OEP |> else s
    else s in
  if flagged (ue_interrupt_status (in_ep s i)) (us_diepmsk s) then
    let bit := Z.shiftl 1 (i + DAINT_IN_SHIFT) in
    let s := s <| us_daintsts ::= fun v => Z.lor v bit |> in
    if flagged (us_daintmsk s) bit then s <| us_gintsts ::= fun v => Z.lor v GINTMSK_INEP |> else s
  else s.

(** The bits that follow from other registers. *)
Definition tree_mask : Z := Z.lor (Z.lor GINTMSK_OEP GINTMSK_INEP) GINTMSK_OTG.

(** The registers before the endpoints are looked at. *)
Definition irq_start (s : synopsys_usb_state) : synopsys_usb_state :=
  let s := s <| us_daintsts := 0 |> <| us_gintsts ::= fun v => clear v tree_mask |> in
  if us_gotgint s =? 0 then s else s <| us_gintsts ::= fun v => Z.lor v GINTMSK_OTG |>.

(** The core's interrupt line *)
Definition irq_level (s : synopsys_usb_state) : bool := flagged (us_gahbcfg s) GAHBCFG_MASKINT && flagged (us_gintmsk s) (us_gintsts s).

Definition synopsys_usb_update_irq (s : synopsys_usb_state) : synopsys_usb_state :=
  let s := fold_left ep_irq (seqZ 0 USB_NUM_ENDPOINTS) (irq_start s) in
  s <| us_irq := irq_level s |>.

(** ** Endpoint control *)

Definition synopsys_usb_update_ep (e : synopsys_usb_ep_state) : synopsys_usb_ep_state :=
  let e :=
    if flagged (ue_control e) USB_EPCON_SETNAK then
      e <| ue_control ::= fun v => clear (Z.lor v USB_EPCON_NAKSTS) USB_EPCON_SETNAK |>
        <| ue_interrupt_status ::= fun v => Z.lor v USB_EPINT_INEPNakEff |>
    else e in
  if flagged (ue_control e) USB_EPCON_DISABLE then
    e <| ue_interrupt_status ::= fun v => Z.lor v USB_EPINT_EPDisbld |>
      <| ue_control ::= fun v => clear v (Z.lor USB_EPCON_DISABLE USB_EPCON_ENABLE) |>
  else e.

Definition synopsys_usb_update_in_ep (e : synopsys_usb_ep_state) : synopsys_usb_ep_state :=
  synopsys_usb_update_ep
    (if flagged (ue_control e) USB_EPCON_CLEARNAK
     then e <| ue_control ::= fun v => clear v (Z.lor USB_EPCON_CLEARNAK USB_EPCON_NAKSTS) |> else e).

Definition synopsys_usb_update_out_ep (e : synopsys_usb_ep_state) : synopsys_usb_ep_state := synopsys_usb_update_ep e.

(** ** A host transaction *)

(** The two counts of a transfer-size register. *)
Definition xfersiz (v : Z) : Z := Z.land v DEPTSIZ_XFERSIZ_MASK.
Definition pktcnt (v : Z) : Z := Z.land (Z.shiftr v DEPTSIZ_PKTCNT_SHIFT) DEPTSIZ_PKTCNT_MASK.
Definition set_xfersiz (n v : Z) : Z := Z.lor (clear v DEPTSIZ_XFERSIZ_MASK) (Z.land n DEPTSIZ_XFERSIZ_MASK).
Definition set_pktcnt (n v : Z) : Z :=
  Z.lor (clear v (Z.shiftl DEPTSIZ_PKTCNT_MASK DEPTSIZ_PKTCNT_SHIFT)) (Z.shiftl n DEPTSIZ_PKTCNT_SHIFT).

(** The maximum packet size; endpoint zero has an enumeration of two bits. *)
Definition in_mps (ep control : Z) : Z :=
  if ep =? 0 then Z.shiftr 64 (Z.land control 3) else Z.land control USB_EPCON_MPS_MASK.

(** The packets a transfer of [amt] bytes takes off the count. *)
Definition in_packets (mps amt tx : Z) : Z :=
  if negb (mps =? 0) && negb (amt =? 0) then
    let sent := (amt + mps - 1) / mps in
    set_pktcnt (if sent <? pktcnt tx then pktcnt tx - sent else 0) tx
  else tx.

(** An armed IN endpoint answers with what it has, at most what is asked for:
    the result, the buffer and the endpoint. *)
Definition in_transfer (mem : Z -> Z) (ep hdr_len : Z) (b : bytes) (e : synopsys_usb_ep_state)
  : Z * bytes * synopsys_usb_ep_state :=
  let sz := xfersiz (ue_tx_size e) in
  let amt := Z.min sz hdr_len in
  let dma := ue_dma_address e in
  let no_dma := (0 <? amt) && (dma =? 0) in
  let amt := if no_dma then 0 else amt in
  let b := if 0 <? amt then blit b 0 (phys_read mem dma amt) else b in
  let e := if 0 <? amt then e <| ue_dma_address := u64 (dma + amt) |> else e in
  let remaining := sz - amt in
  let e := e <| ue_tx_size ::= fun v => in_packets (in_mps ep (ue_control e)) amt (set_xfersiz remaining v) |> in
  let e :=
    if (remaining =? 0) || no_dma then
      e <| ue_control ::= fun v => clear v USB_EPCON_ENABLE |>
        <| ue_interrupt_status ::= fun v => Z.lor v USB_EPINT_XferCompl |>
    else e in
  (amt, b, e).

Definition in_transaction (ep hdr_len : Z) (b : bytes) (u : Usb) : Z * bytes * Usb :=
  let e := in_ep (u_core u) ep in
  if flagged (ue_control e) USB_EPCON_STALL then
    (USB_RET_STALL, b, u <| u_core ::= set_in_ep ep (e <| ue_control ::= fun v => clear v USB_EPCON_STALL |>) |>)
  else if flagged (ue_control e) USB_EPCON_NAKSTS then (USB_RET_NAK, b, u)
  else if flagged (ue_control e) USB_EPCON_ENABLE then
    let '(r, b, e) := in_transfer (u_mem u) ep hdr_len b e in
    (r, b, u <| u_core ::= set_in_ep ep e |>)
  else (USB_RET_NAK, b, u).

(** The bytes of an OUT transaction go to memory. *)
Definition out_dma (amt : Z) (b : bytes) (e : synopsys_usb_ep_state) (mem : Z -> Z) : synopsys_usb_ep_state * (Z -> Z) :=
  if (0 <? amt) && negb (ue_dma_address e =? 0) then
    (e <| ue_dma_address ::= fun a => u64 (a + amt) |>, phys_write mem (ue_dma_address e) (ztake amt b))
  else (e, mem).

(** Full packets short of both counts leave the transfer armed. *)
Definition out_continues (ep flags amt mps : Z) (e : synopsys_usb_ep_state) : bool :=
  negb (ep =? 0) && negb (flagged flags tcp_usb_setup) && negb (mps =? 0) && negb (amt =? 0)
  && (amt mod mps =? 0) && (amt <? xfersiz (ue_tx_size e)) && (amt / mps <? pktcnt (ue_tx_size e)).

Definition out_continue (amt mps : Z) (e : synopsys_usb_ep_state) : synopsys_usb_ep_state :=
  e <| ue_control ::= fun v => Z.lor v USB_EPCON_ENABLE |>
    <| ue_tx_size ::= fun v => Z.lor (Z.lor (clear v (Z.lor DEPTSIZ_XFERSIZ_MASK (Z.shiftl DEPTSIZ_PKTCNT_MASK DEPTSIZ_PKTCNT_SHIFT)))
                                           (Z.land (xfersiz v - amt) DEPTSIZ_XFERSIZ_MASK))
                                     (Z.shiftl (pktcnt v - amt / mps) DEPTSIZ_PKTCNT_SHIFT) |>.

(** The transfer ends. *)
Definition out_retire (ep flags amt mps : Z) (e : synopsys_usb_ep_state) : synopsys_usb_ep_state :=
  let pkts := pktcnt (ue_tx_size e) in
  let e :=
    if flagged flags tcp_usb_setup then
      let e := e <| ue_interrupt_status ::= fun v => Z.lor v USB_EPINT_SetUp |> in
      if ep =? 0 then e <| ue_control ::= fun v => clear v USB_EPCON_STALL |> else e
    else e <| ue_interrupt_status ::= fun v => Z.lor v USB_EPINT_XferCompl |> in
  let e := e <| ue_tx_size ::= fun v => set_xfersiz (xfersiz v - amt) v |> in
  if negb (ep =? 0) && negb (mps =? 0) && negb (flagged flags tcp_usb_setup) then
    let used := Z.min pkts (Z.max 1 ((amt + mps - 1) / mps)) in
    e <| ue_tx_size ::= set_pktcnt (pkts - used) |>
  else e.

(** A SETUP packet makes endpoint zero refuse what was armed for an earlier
    request. *)
Definition setup_nak (ep flags : Z) (s : synopsys_usb_state) : synopsys_usb_state :=
  if flagged flags tcp_usb_setup && (ep =? 0) then
    set_in_ep 0 ((in_ep s 0) <| ue_control ::= fun v => Z.lor (clear v USB_EPCON_STALL) USB_EPCON_NAKSTS |>) s
  else s.

Definition out_transaction (ep flags hdr_len : Z) (b : bytes) (u : Usb) : Z * Usb :=
  let e := out_ep (u_core u) ep in
  if flagged (ue_control e) USB_EPCON_STALL then
    (USB_RET_STALL, u <| u_core ::= set_out_ep ep (e <| ue_control ::= fun v => clear v USB_EPCON_STALL |>) |>)
  else if flagged (ue_control e) USB_EPCON_ENABLE then
    let e := e <| ue_control ::= fun v => clear v USB_EPCON_ENABLE |> in
    let amt := Z.min (xfersiz (ue_tx_size e)) hdr_len in
    let '(e, mem) := out_dma amt b e (u_mem u) in
    let mps := Z.land (ue_control e) USB_EPCON_MPS_MASK in
    if out_continues ep flags amt mps e then
      (amt, mkUsb (set_out_ep ep (out_continue amt mps e) (u_core u)) mem)
    else (amt, mkUsb (setup_nak ep flags (set_out_ep ep (out_retire ep flags amt mps e) (u_core u))) mem)
  else (USB_RET_NAK, u).

(** [tcp_usb_hello_t], in memory *)
Definition hello : bytes :=
  le32 TCP_USB_HELLO_MAGIC ++ [TCP_USB_PROTOCOL_VERSION; 0; 0; 0] ++ le32 TCP_USB_MAX_TRANSACTION.

Definition hdr_flags (h : bytes) : Z := rd h 2.
Definition is_hello (h : bytes) : bool :=
  flagged (hdr_flags h) tcp_usb_hello && (Z.land (hdr_ep h) 0x7f =? TCP_USB_EP_CONTROL).

(** The vendor request that asks for a charge current. *)
Definition charge_request (ep hdr_len : Z) (h b : bytes) : bool :=
  (ep =? 0) && flagged (hdr_flags h) tcp_usb_setup && (2 <=? hdr_len) && (rd b 0 =? 0x40) && (rd b 1 =? 0x40).

Definition synopsys_usb_tcp_callback (h b : bytes) (u : Usb) : Z * bytes * bytes * Usb :=
  let s := u_core u in
  let h := wr h 0 (u8 (Z.shiftr (Z.land (us_dcfg s) DCFG_DEVICEADDRMSK) DCFG_DEVICEADDR_SHIFT)) in
  let flags := hdr_flags h in
  if us_phy_reset s && negb (is_hello h) then (USB_RET_NAK, h, b, u)
  else if flagged flags tcp_usb_reset then
    (0, h, b, u <| u_core ::= fun s => synopsys_usb_update_irq (s <| us_gintsts ::= fun v => Z.lor v GINTMSK_RESET |>) |>)
  else
    let u := if flagged flags tcp_usb_enumdone then u <| u_core ::= upd us_gintsts (fun v => Z.lor v GINTMSK_ENUMDONE) |> else u in
    let hdr_len := tcp_usb_payload_len h in
    let ep := Z.land (hdr_ep h) 0x7f in
    if is_hello h then
      if negb (dir_in h) || (hdr_len <? zlen hello) then (USB_RET_STALL, h, b, u)
      else (zlen hello, h, blit b 0 hello, u)
    else if USB_NUM_ENDPOINTS <=? ep then (USB_RET_STALL, h, b, u <| u_core ::= synopsys_usb_update_irq |>)
    else if us_withhold_charge s && charge_request ep hdr_len h b then (USB_RET_STALL, h, b, u)
    else if dir_in h then
      let '(r, b, u) := in_transaction ep hdr_len b u in
      (r, h, b, u <| u_core ::= synopsys_usb_update_irq |>)
    else
      let '(r, u) := out_transaction ep flags hdr_len b u in
      (r, h, b, u <| u_core ::= synopsys_usb_update_irq |>).
