(* ===== verification/UsbOutFacts.v ===== *)
(** * USB device controller: OUT transfers

    [usb_out_gathered]: full packets of an OUT transfer are gathered in guest
    memory, the transfer staying armed and silent, until a packet ends it. *)

From Stdlib Require Import ZArith Lia.
From stdpp Require Import base numbers list.
From S2P Require Import Prelude CLib HwLib TcpUsb TcpUsbFacts UsbCore UsbFacts.
Local Open Scope Z_scope.

Lemma out_ep_byte ep : 0 <= ep < 8 -> Z.land ep 0x7f = ep /\ flagged ep USB_DIR_IN = false.
Proof.
  intros H. assert (ep = 0 \/ ep = 1 \/ ep = 2 \/ ep = 3 \/ ep = 4 \/ ep = 5 \/ ep = 6 \/ ep = 7) as C by lia.
  by destruct C as [->|[->|[->|[->|[->|[->|[->| ->]]]]]]].
Qed.

(** What a data packet to an OUT endpoint does, with a working PHY. *)
Lemma packet_callback haddr ep len b u : 0 <= ep < 8 -> 0 <= len < 32768 -> us_phy_reset (u_core u) = false ->
  synopsys_usb_tcp_callback (usb_frame haddr ep 0 len) b u =
  let '(r, u') := out_transaction ep 0 len b u in
  (r, usb_frame (device_addr u) ep 0 len, b, u' <| u_core ::= synopsys_usb_update_irq |>).
Proof.
  intros He Hl Hp. destruct (out_ep_byte ep He) as [Ee Ed]. unfold synopsys_usb_tcp_callback. cbv zeta.
  change (wr (usb_frame haddr ep 0 len) 0 _) with (usb_frame (device_addr u) ep 0 len).
  rewrite Hp. cbn [andb]. set (h := usb_frame (device_addr u) ep 0 len).
  change (hdr_flags h) with 0. change (flagged 0 tcp_usb_reset) with false. change (flagged 0 tcp_usb_enumdone) with false.
  change (is_hello h) with false. cbv iota. change (hdr_ep h) with ep. rewrite Ee.
  rewrite (proj2 (Z.leb_gt USB_NUM_ENDPOINTS ep)) by (unfold USB_NUM_ENDPOINTS; lia).
  assert (C : charge_request ep (tcp_usb_payload_len h) h b = false)
    by (unfold charge_request; change (flagged (hdr_flags h) tcp_usb_setup) with false; by rewrite andb_false_r).
  rewrite C, andb_false_r. change (dir_in h) with (flagged ep USB_DIR_IN). rewrite Ed. unfold h at 1. by rewrite frame_payload_len by done.
Qed.

Lemma set_clear c k : 0 <= k -> flagged c (2 ^ k) = true -> Z.lor (clear c (2 ^ k)) (2 ^ k) = c.
Proof.
  intros Hk H. rewrite flagged_bit in H by done. apply Z.bits_inj'. intros i Hi. unfold clear.
  rewrite Z.lor_spec, Z.ldiff_spec, Z.pow2_bits_eqb by done. destruct (Z.eqb_spec k i) as [->|]; [by rewrite H|].
  by rewrite andb_true_r, orb_false_r.
Qed.

Lemma continued_counts n m v :
  Z.lor (Z.lor (clear v (Z.lor DEPTSIZ_XFERSIZ_MASK (Z.shiftl DEPTSIZ_PKTCNT_MASK DEPTSIZ_PKTCNT_SHIFT)))
               (Z.land n DEPTSIZ_XFERSIZ_MASK))
        (Z.shiftl m DEPTSIZ_PKTCNT_SHIFT) = set_pktcnt m (set_xfersiz n v).
Proof. unfold set_pktcnt, set_xfersiz, clear. bits. Qed.

(** ** An OUT transfer *)

(** An endpoint other than zero is armed for [sz] bytes in [pk] packets of at
    most [mps] bytes, to be stored from [a]; [ist] are its interrupts. *)
Record out_armed (ep mps a sz pk ist : Z) (u : Usb) : Prop := {
  oa_ep : 0 < ep < 8;
  oa_eps : zlen (us_out_eps (u_core u)) = 8;
  oa_phy : us_phy_reset (u_core u) = false;
  oa_stall : flagged (ue_control (out_ep (u_core u) ep)) USB_EPCON_STALL = false;
  oa_enable : flagged (ue_control (out_ep (u_core u) ep)) USB_EPCON_ENABLE = true;
  oa_mps : Z.land (ue_control (out_ep (u_core u) ep)) USB_EPCON_MPS_MASK = mps;
  oa_some : 0 < mps;
  oa_ist : ue_interrupt_status (out_ep (u_core u) ep) = ist;
  oa_size : xfersiz (ue_tx_size (out_ep (u_core u) ep)) = sz;
  oa_pkts : pktcnt (ue_tx_size (out_ep (u_core u) ep)) = pk;
  oa_dma : ue_dma_address (out_ep (u_core u) ep) = a;
  oa_pos : 0 < a;
  oa_fit : a + sz < 2 ^ 64
}.

(** The transfer has ended with [sz] bytes and [pk] packets to spare. *)
Record out_ended (ep sz pk ist : Z) (u : Usb) : Prop := {
  oe_enable : flagged (ue_control (out_ep (u_core u) ep)) USB_EPCON_ENABLE = false;
  oe_ist : ue_interrupt_status (out_ep (u_core u) ep) = Z.lor ist USB_EPINT_XferCompl;
  oe_size : xfersiz (ue_tx_size (out_ep (u_core u) ep)) = sz;
  oe_pkts : pktcnt (ue_tx_size (out_ep (u_core u) ep)) = pk
}.

(** A packet that leaves the transfer armed. *)
Definition full_packet (mps sz pk : Z) (p : bytes) : Prop :=
  0 < zlen p < 32768 /\ zlen p mod mps = 0 /\ zlen p < sz /\ zlen p / mps < pk.

(** A packet that fits and ends it: a short or an empty one, or one that uses up
    a count. *)
Definition last_packet (mps sz pk : Z) (p : bytes) : Prop :=
  zlen p < 32768 /\ zlen p <= sz /\ (zlen p = 0 \/ zlen p mod mps <> 0 \/ zlen p = sz \/ pk <= zlen p / mps).

Definition store (a : Z) (p : bytes) (mem : Z -> Z) : Z -> Z := if zlen p =? 0 then mem else phys_write mem a p.

(** What the packet does to the endpoint and to memory before the transfer goes
    on or ends. *)
Lemma out_dma_armed ep mps a sz pk ist u p : out_armed ep mps a sz pk ist u -> zlen p <= sz ->
  let e := (out_ep (u_core u) ep) <| ue_control ::= fun v => clear v USB_EPCON_ENABLE |> in
  out_dma (zlen p) p e (u_mem u) = (e <| ue_dma_address := a + zlen p |>, store a p (u_mem u)).
Proof.
  intros [] Hp e. unfold out_dma, store. pose proof (zlen_nonneg p).
  change (ue_dma_address e) with (ue_dma_address (out_ep (u_core u) ep)). rewrite oa_dma0. rewrite (proj2 (Z.eqb_neq a 0)) by lia.
  destruct (Z.ltb_spec 0 (zlen p)); cbn [andb negb].
  - rewrite (proj2 (Z.eqb_neq (zlen p) 0)) by lia. rewrite ztake_all by lia. f_equal.
    change (e <| ue_dma_address ::= fun x => u64 (x + zlen p) |>) with
      (e <| ue_dma_address := u64 (ue_dma_address (out_ep (u_core u) ep) + zlen p) |>).
    rewrite oa_dma0. unfold u64. by rewrite Z.mod_small by lia.
  - rewrite (proj2 (Z.eqb_eq (zlen p) 0)) by lia. f_equal. replace (a + zlen p) with (ue_dma_address (out_ep (u_core u) ep)) by lia.
    unfold e. by destruct (out_ep (u_core u) ep).
Qed.

Lemma mps_cleared c : Z.land (clear c USB_EPCON_ENABLE) USB_EPCON_MPS_MASK = Z.land c USB_EPCON_MPS_MASK.
Proof.
  unfold clear. apply Z.bits_inj'. intros i Hi. change USB_EPCON_ENABLE with (2 ^ 31). change USB_EPCON_MPS_MASK with (Z.ones 11).
  rewrite !Z.land_spec, Z.ldiff_spec, Z.pow2_bits_eqb, mask_bit by lia.
  destruct (Z.ltb_spec i 11); [|by rewrite !andb_false_r]. rewrite (proj2 (Z.eqb_neq 31 i)) by lia. by rewrite !andb_true_r.
Qed.

(** The endpoint between the copy and the decision. *)
Definition out_mid (a : Z) (e : synopsys_usb_ep_state) : synopsys_usb_ep_state :=
  e <| ue_control ::= fun v => clear v USB_EPCON_ENABLE |> <| ue_dma_address := a |>.

Lemma out_transaction_armed ep mps a sz pk ist u p : out_armed ep mps a sz pk ist u -> zlen p <= sz ->
  let e := out_mid (a + zlen p) (out_ep (u_core u) ep) in
  out_transaction ep 0 (zlen p) p u =
  (zlen p, mkUsb (set_out_ep ep
    (if negb (zlen p =? 0) && (zlen p mod mps =? 0) && (zlen p <? sz) && (zlen p / mps <? pk)
     then out_continue (zlen p) mps e else out_retire ep 0 (zlen p) mps e) (u_core u)) (store a p (u_mem u))).
Proof.
  intros A Hp e. unfold out_transaction. cbv zeta. rewrite (oa_stall _ _ _ _ _ _ _ A), (oa_enable _ _ _ _ _ _ _ A).
  change (xfersiz (ue_tx_size ((out_ep (u_core u) ep) <| ue_control ::= fun v => clear v USB_EPCON_ENABLE |>)))
    with (xfersiz (ue_tx_size (out_ep (u_core u) ep))). rewrite (oa_size _ _ _ _ _ _ _ A), Z.min_r by done.
  rewrite (out_dma_armed ep mps a sz pk ist u p A Hp). change (_ <| ue_dma_address := a + zlen p |>) with e.
  assert (M : Z.land (ue_control e) USB_EPCON_MPS_MASK = mps) by (rewrite <- (oa_mps _ _ _ _ _ _ _ A); apply mps_cleared). rewrite M.
  assert (C : out_continues ep 0 (zlen p) mps e = negb (zlen p =? 0) && (zlen p mod mps =? 0) && (zlen p <? sz) && (zlen p / mps <? pk)).
  { unfold out_continues. change (ue_tx_size e) with (ue_tx_size (out_ep (u_core u) ep)).
    rewrite (oa_size _ _ _ _ _ _ _ A), (oa_pkts _ _ _ _ _ _ _ A). pose proof (oa_ep _ _ _ _ _ _ _ A). pose proof (oa_some _ _ _ _ _ _ _ A).
    rewrite (proj2 (Z.eqb_neq ep 0)), (proj2 (Z.eqb_neq mps 0)) by lia. done. }
  rewrite C. by destruct (_ && _).
Qed.

(** The state that the answer to a packet leaves. *)
Definition stored ep e' a p (u : Usb) : Usb :=
  mkUsb (synopsys_usb_update_irq (set_out_ep ep e' (u_core u))) (store a p (u_mem u)).

Lemma out_ep_stored ep e' a p u : 0 <= ep < zlen (us_out_eps (u_core u)) -> out_ep (u_core (stored ep e' a p u)) ep = e'.
Proof. intros H. cbn [stored u_core]. by rewrite out_ep_update_irq, out_set_out_ep. Qed.

Lemma stored_frame ep e' a p u :
  us_phy_reset (u_core (stored ep e' a p u)) = us_phy_reset (u_core u) /\
  zlen (us_out_eps (u_core (stored ep e' a p u))) = zlen (us_out_eps (u_core u)) /\
  device_addr (stored ep e' a p u) = device_addr u.
Proof.
  unfold device_addr. cbn [stored u_core]. rewrite (update_irq_frame (set_out_ep ep e' (u_core u))).
  split; [done|]. split; [|done]. unfold set_out_ep, zlen, wr. cbn. by rewrite length_insert.
Qed.

Lemma full_packet_step haddr ep mps a sz pk ist u p : out_armed ep mps a sz pk ist u -> full_packet mps sz pk p ->
  exists u', synopsys_usb_tcp_callback (usb_frame haddr ep 0 (zlen p)) p u = (zlen p, usb_frame (device_addr u) ep 0 (zlen p), p, u') /\
    out_armed ep mps (a + zlen p) (sz - zlen p) (pk - zlen p / mps) ist u' /\
    u_mem u' = phys_write (u_mem u) a p /\ device_addr u' = device_addr u.
Proof.
  intros A (Hl & Hm & Hs & Hk). pose proof (out_transaction_armed ep mps a sz pk ist u p A ltac:(lia)) as T. cbv zeta in T.
  rewrite (proj2 (Z.eqb_neq (zlen p) 0)), (proj2 (Z.eqb_eq _ _) Hm), (proj2 (Z.ltb_lt _ _) Hs), (proj2 (Z.ltb_lt _ _) Hk) in T by lia.
  cbn [negb andb] in T. set (e' := out_continue _ _ _) in T. exists (stored ep e' a p u).
  pose proof (oa_ep _ _ _ _ _ _ _ A) as He. pose proof (oa_eps _ _ _ _ _ _ _ A) as Hes.
  rewrite packet_callback, T by (lia || apply A). split; [done|].
  destruct (stored_frame ep e' a p u) as (Fp & Fl & Fd). pose proof (out_ep_stored ep e' a p u ltac:(lia)) as Fe.
  assert (M : u_mem (stored ep e' a p u) = phys_write (u_mem u) a p).
  { cbn [stored u_mem]. unfold store. by rewrite (proj2 (Z.eqb_neq (zlen p) 0)) by lia. }
  assert (Ec : ue_control e' = ue_control (out_ep (u_core u) ep)) by (apply (set_clear _ 31); [lia|apply A]).
  assert (Et : ue_tx_size e' = set_pktcnt (pk - zlen p / mps) (set_xfersiz (sz - zlen p) (ue_tx_size (out_ep (u_core u) ep)))).
  { rewrite <- continued_counts. rewrite <- (oa_size _ _ _ _ _ _ _ A), <- (oa_pkts _ _ _ _ _ _ _ A). done. }
  pose proof (xfersiz_range (ue_tx_size (out_ep (u_core u) ep))) as Hx. rewrite (oa_size _ _ _ _ _ _ _ A) in Hx.
  pose proof (pktcnt_range (ue_tx_size (out_ep (u_core u) ep))) as Hpk. rewrite (oa_pkts _ _ _ _ _ _ _ A) in Hpk.
  assert (0 <= zlen p / mps) by (apply Z.div_pos; [lia|apply A]).
  split; [|done]. destruct A as [? ? ? ? ? ? ? ? ? ? ? ? Hfit]. split; rewrite ?Fp, ?Fl, ?Fe, ?Ec, ?Et; try done; try lia.
  - by rewrite xfersiz_set_pktcnt, xfersiz_set by lia.
  - by rewrite pktcnt_set by lia.
Qed.

(** The packets that the last one takes off the count. *)
Definition used (mps pk len : Z) : Z := Z.min pk (Z.max 1 ((len + mps - 1) / mps)).

Lemma last_packet_step haddr ep mps a sz pk ist u p : out_armed ep mps a sz pk ist u -> last_packet mps sz pk p ->
  exists u', synopsys_usb_tcp_callback (usb_frame haddr ep 0 (zlen p)) p u = (zlen p, usb_frame (device_addr u) ep 0 (zlen p), p, u') /\
    out_ended ep (sz - zlen p) (pk - used mps pk (zlen p)) ist u' /\ u_mem u' = store a p (u_mem u).
Proof.
  intros A (Hl & Hs & Hc). pose proof (out_transaction_armed ep mps a sz pk ist u p A ltac:(lia)) as T. cbv zeta in T.
  assert (C : negb (zlen p =? 0) && (zlen p mod mps =? 0) && (zlen p <? sz) && (zlen p / mps <? pk) = false).
  { destruct (Z.eqb_spec (zlen p) 0), (Z.eqb_spec (zlen p mod mps) 0), (Z.ltb_spec (zlen p) sz), (Z.ltb_spec (zlen p / mps) pk); try done; lia. }
  rewrite C in T. set (e' := out_retire _ _ _ _ _) in T. exists (stored ep e' a p u).
  pose proof (oa_ep _ _ _ _ _ _ _ A) as He. pose proof (oa_eps _ _ _ _ _ _ _ A) as Hes. pose proof (zlen_nonneg p) as Hp0.
  rewrite packet_callback, T by (lia || apply A). split; [done|]. split; [|done].
  pose proof (out_ep_stored ep e' a p u ltac:(lia)) as Fe.
  pose proof (xfersiz_range (ue_tx_size (out_ep (u_core u) ep))) as Hx. rewrite (oa_size _ _ _ _ _ _ _ A) in Hx.
  pose proof (pktcnt_range (ue_tx_size (out_ep (u_core u) ep))) as Hpk. rewrite (oa_pkts _ _ _ _ _ _ _ A) in Hpk.
  assert (Et : ue_tx_size e' = set_pktcnt (pk - used mps pk (zlen p)) (set_xfersiz (sz - zlen p) (ue_tx_size (out_ep (u_core u) ep))) /\
    ue_control e' = clear (ue_control (out_ep (u_core u) ep)) USB_EPCON_ENABLE /\ ue_interrupt_status e' = Z.lor ist USB_EPINT_XferCompl).
  { unfold e', out_retire. cbv zeta. change (flagged 0 tcp_usb_setup) with false. cbv iota. pose proof (oa_some _ _ _ _ _ _ _ A).
    rewrite (proj2 (Z.eqb_neq ep 0)), (proj2 (Z.eqb_neq mps 0)) by lia. cbn [negb andb].
    rewrite <- (oa_size _ _ _ _ _ _ _ A), <- (oa_pkts _ _ _ _ _ _ _ A), <- (oa_ist _ _ _ _ _ _ _ A). done. }
  destruct Et as (Et & Ec & Ei).
  assert (0 <= used mps pk (zlen p) <= pk) by (unfold used; lia).
  split; rewrite Fe, ?Et, ?Ec, ?Ei; [by apply flagged_cleared|done| |].
  - by rewrite xfersiz_set_pktcnt, xfersiz_set by lia.
  - by rewrite pktcnt_set by lia.
Qed.

(** ** A sequence of packets *)

Definition packet (haddr ep : Z) (p : bytes) : bytes := usb_frame haddr ep 0 (zlen p) ++ p.
Definition ack (addr ep : Z) (p : bytes) : bytes := usb_frame addr ep 0 (zlen p).

Fixpoint all_full (mps sz pk : Z) (ps : list bytes) : Prop :=
  match ps with
  | [] => True
  | p :: ps => full_packet mps sz pk p /\ all_full mps (sz - zlen p) (pk - zlen p / mps) ps
  end.

Definition packets_of (mps : Z) (ps : list bytes) : Z := foldr (fun p n => zlen p / mps + n) 0 ps.

Lemma packet_request haddr ep p rest : 0 <= ep < 8 -> zlen p < 32768 ->
  first_request (packet haddr ep p ++ rest) = Some (usb_frame haddr ep 0 (zlen p), p, rest).
Proof.
  intros He Hl. destruct (out_ep_byte ep He) as [_ Ed]. pose proof (zlen_nonneg p). pose proof (zlen_nonneg rest). unfold first_request, packet.
  rewrite <- app_assoc. set (h := usb_frame haddr ep 0 (zlen p)). rewrite zlen_app.
  assert (Eh : 5 = zlen h) by done. rewrite (proj2 (Z.ltb_ge _ _)) by (rewrite zlen_app; lia). cbv zeta.
  rewrite Eh, ztake_app_len, zdrop_app_len. assert (Ep : tcp_usb_payload_len h = zlen p) by (apply frame_payload_len; lia). rewrite Ep.
  change (dir_in h) with (flagged ep USB_DIR_IN). rewrite Ed. cbn [negb andb]. destruct (Z.ltb_spec 0 (zlen p)).
  - rewrite zlen_app, (proj2 (Z.ltb_ge _ _)) by lia. by rewrite ztake_app_len, zdrop_app_len.
  - assert (p = []) as -> by (apply length_zero_iff_nil; unfold zlen in *; lia). done.
Qed.

Lemma packet_answer haddr ep addr p u u' : 0 <= ep < 8 -> zlen p < 32768 ->
  synopsys_usb_tcp_callback (usb_frame haddr ep 0 (zlen p)) p u = (zlen p, usb_frame addr ep 0 (zlen p), p, u') ->
  answer synopsys_usb_tcp_callback (usb_frame haddr ep 0 (zlen p)) p u = (ack addr ep p, u').
Proof.
  intros He Hl E. unfold answer. rewrite E. pose proof (zlen_nonneg p). rewrite s16_small by lia. rewrite frame_set_length. unfold answer_payload.
  destruct (out_ep_byte ep He) as [_ Ed]. change (dir_in _) with (flagged ep USB_DIR_IN). rewrite Ed, app_nil_r. done.
Qed.

Lemma mjoin_cons (x : bytes) (l : list bytes) : mjoin (x :: l) = x ++ mjoin l.
Proof. done. Qed.

Lemma full_packets_served haddr ep mps ps rest : forall a sz pk ist u,
  out_armed ep mps a sz pk ist u -> all_full mps sz pk ps ->
  exists u1, serve_all synopsys_usb_tcp_callback (mjoin (packet haddr ep <$> ps) ++ rest) u =
      (let '(out, u2) := serve_all synopsys_usb_tcp_callback rest u1 in (mjoin (ack (device_addr u) ep <$> ps) ++ out, u2)) /\
    out_armed ep mps (a + zlen (mjoin ps)) (sz - zlen (mjoin ps)) (pk - packets_of mps ps) ist u1 /\
    device_addr u1 = device_addr u /\ forall x, u_mem u1 x = phys_write (u_mem u) a (mjoin ps) x.
Proof.
  induction ps as [|p ps IH]; intros a sz pk ist u A F.
  - exists u. split; [by destruct (serve_all _ _ _)|]. cbn. rewrite Z.add_0_r, !Z.sub_0_r. split; [done|]. split; [done|].
    intros x. by rewrite phys_write_nil.
  - destruct F as [Fp F]. destruct (full_packet_step haddr ep mps a sz pk ist u p A Fp) as (u1 & E & A1 & M1 & D1).
    destruct (IH _ _ _ _ _ A1 F) as (u2 & E2 & A2 & D2 & M2). exists u2.
    pose proof (oa_ep _ _ _ _ _ _ _ A) as He. destruct Fp as (Hl & _).
    rewrite !fmap_cons, !mjoin_cons, <- app_assoc.
    rewrite (serve_all_step _ _ _ _ _ _ (packet_request haddr ep p _ ltac:(lia) ltac:(lia))).
    rewrite (packet_answer haddr ep _ p _ _ ltac:(lia) ltac:(lia) E), E2, D1. split.
    { destruct (serve_all _ rest u2). by rewrite app_assoc. }
    rewrite zlen_app. split.
    { replace (a + (zlen p + zlen (mjoin ps))) with (a + zlen p + zlen (mjoin ps)) by lia.
      replace (sz - (zlen p + zlen (mjoin ps))) with (sz - zlen p - zlen (mjoin ps)) by lia.
      cbn [packets_of foldr]. fold (packets_of mps ps). by replace (pk - (zlen p / mps + packets_of mps ps)) with (pk - zlen p / mps - packets_of mps ps) by lia. }
    split; [by rewrite D2|]. intros x. rewrite M2, M1. apply phys_write_app.
Qed.

(** C26. Packets that fill whole maximum-size packets, short of the two counts of an
    armed OUT transfer, are acknowledged and stored one after the other in guest
    memory, and a last packet ends the transfer; however the system calls cut the
    streams, what was sent is a prefix of the acknowledgements, and when all
    packets were answered guest memory differs only by their bytes, from the armed
    address on, and the endpoint has one transfer-complete interrupt and what is
    left of its counts. *)
Theorem usb_out_gathered haddr ep mps a sz pk ist ps q eof u es :
  out_armed ep mps a sz pk ist u -> all_full mps sz pk ps ->
  last_packet mps (sz - zlen (mjoin ps)) (pk - packets_of mps ps) q ->
  let input := mjoin (packet haddr ep <$> ps) ++ packet haddr ep q in
  let acks := mjoin (ack (device_addr u) ep <$> ps) ++ ack (device_addr u) ep q in
  let w0 := start input eof u in
  let w := run synopsys_usb_tcp_callback None es w0 in
  sk_out (e_sock w) `prefix_of` acks /\
  (eof = false -> Forall calm_event es -> zlen input + zlen acks <= chances synopsys_usb_tcp_callback None es w0 ->
   sk_out (e_sock w) = acks /\
   (forall x, u_mem (e_dev w) x = phys_write (u_mem u) a (mjoin ps ++ q) x) /\
   out_ended ep (sz - zlen (mjoin ps) - zlen q)
     (pk - packets_of mps ps - used mps (pk - packets_of mps ps) (zlen q)) ist (e_dev w)).
Proof.
  intros A F L. cbv zeta.
  destruct (full_packets_served haddr ep mps ps (packet haddr ep q) a sz pk ist u A F) as (u1 & E & A1 & D1 & M1).
  destruct (last_packet_step haddr ep _ _ _ _ _ u1 q A1 L) as (u2 & E2 & O2 & M2). pose proof (oa_ep _ _ _ _ _ _ _ A) as He.
  assert (S : serve_all synopsys_usb_tcp_callback (packet haddr ep q) u1 = (ack (device_addr u) ep q, u2)).
  { rewrite <- (app_nil_r (packet haddr ep q)). rewrite (serve_all_step _ _ _ _ _ _ (packet_request haddr ep q [] ltac:(lia) ltac:(apply L))).
    rewrite (packet_answer haddr ep _ q _ _ ltac:(lia) ltac:(apply L) E2), D1. by rewrite serve_all_none, app_nil_r. }
  rewrite S in E. destruct (usb_serves (mjoin (packet haddr ep <$> ps) ++ packet haddr ep q) eof u es) as [P Q]. rewrite E in P, Q. split; [done|].
  intros Hf Hc Hn. destruct (Q Hf Hc Hn) as [Q1 Q2]. rewrite Q1, Q2. split; [done|]. cbn [snd]. split; [|done].
  intros x. rewrite M2. unfold store. destruct (Z.eqb_spec (zlen q) 0) as [Z0|_].
  - assert (q = []) as -> by (apply length_zero_iff_nil; unfold zlen in *; lia). by rewrite app_nil_r.
  - rewrite (phys_write_ext _ _ _ _ _ (M1 x)). apply phys_write_app.
Qed.

(** Endpoint two takes packets of four bytes; two full ones and a short one. *)
Definition example_out : Usb :=
  mkUsb (set_out_ep 2 (mkEp (USB_EPCON_ENABLE + 4) (Z.shiftl 10 19 + 100) 0 0 0x2000 0) (ipod_touch_init_usb_otg 0 0 0 0)) example_mem.

Lemma usb_out_gathered_witness :
  let input := mjoin (packet 0 2 <$> [[11; 12; 13; 14]; [15; 16; 17; 18]]) ++ packet 0 2 [19] in
  let w := run synopsys_usb_tcp_callback None example_events (start input false example_out) in
  sk_out (e_sock w) = [0; 2; 0; 4; 0; 0; 2; 0; 4; 0; 0; 2; 0; 1; 0] /\
  phys_read (u_mem (e_dev w)) 0x2000 10 = [11; 12; 13; 14; 15; 16; 17; 18; 19; 9] /\ out_ended 2 91 7 0 (e_dev w).
Proof.
  assert (A : out_armed 2 4 0x2000 100 10 0 example_out) by (split; try done; try (split; done)).
  destruct (usb_out_gathered 0 2 4 0x2000 100 10 0 [[11; 12; 13; 14]; [15; 16; 17; 18]] [19] false example_out example_events A) as [_ Q].
  - repeat split; vm_compute; done.
  - split; [done|]. split; [done|]. right. left. vm_compute. done.
  - destruct Q as (Q1 & Q2 & Q3); [done|apply Forall_replicate; repeat constructor; by eexists|vm_compute; done|].
    split; [exact Q1|]. split; [|exact Q3]. rewrite (phys_read_ext _ _ _ _ (fun x _ => Q2 x)). vm_compute. done.
Defined.
