(* ===== verification/UsbHost.v ===== *)
(** * USB device controller: the built-in host

    [src/hw/arm/ipod_touch_usb_otg.c]: without a host bridge the controller is
    enumerated and configured by a small host of its own, one transaction for each
    tick of a timer, through the same handler as the bridge's transactions.

    A tick happens at one time [now], in milliseconds. *)

From Stdlib Require Import ZArith Lia.
From stdpp Require Import base numbers list.
From S2P Require Import Prelude CLib HwLib TcpUsb UsbCore.
Local Open Scope Z_scope.

(** ** Phases *)

Definition HP_IDLE : Z := 0.
Definition HP_RESET : Z := 1.
Definition HP_ENUMDONE : Z := 2.
Definition HP_DEV_SETUP : Z := 3.
Definition HP_DEV_IN : Z := 4.
Definition HP_DEV_STATUS : Z := 5.
Definition HP_ADDR_SETUP : Z := 6.
Definition HP_ADDR_STATUS : Z := 7.
Definition HP_CFG_HDR_SETUP : Z := 8.
Definition HP_CFG_HDR_IN : Z := 9.
Definition HP_CFG_HDR_STATUS : Z := 10.
Definition HP_CFG_SETUP : Z := 11.
Definition HP_CFG_IN : Z := 12.
Definition HP_CFG_STATUS : Z := 13.
Definition HP_SETCFG_SETUP : Z := 14.
Definition HP_SETCFG_STATUS : Z := 15.
Definition HP_CHARGE_SETUP : Z := 16.
Definition HP_CHARGE_STATUS : Z := 17.
Definition HP_STR0_SETUP : Z := 18.
Definition HP_STR0_IN : Z := 19.
Definition HP_STR0_STATUS : Z := 20.
Definition HP_STRSER_SETUP : Z := 21.
Definition HP_STRSER_IN : Z := 22.
Definition HP_STRSER_STATUS : Z := 23.
Definition HP_POLL : Z := 24.
Definition HP_DONE : Z := 25.

Definition HOST_POLL_MS : Z := 5.
Definition HOST_RETRY_MS : Z := 1.
Definition HOST_TIMEOUT_MS : Z := 4000.
Definition HOST_RESTART_MS : Z := 3000.
Definition HOST_BUF_SIZE : Z := 1024.

(** ** Transactions *)

(** The result, the buffer and the controller. *)
Definition synopsys_host_xfer (ep flags len : Z) (buf : bytes) (u : Usb) : Z * bytes * Usb :=
  let '(r, _, b, u) := synopsys_usb_tcp_callback [0; u8 ep; u8 flags; u8 len; u8 (Z.shiftr len 8)] buf u in (r, b, u).

Definition synopsys_host_setup (type req val idx len : Z) (u : Usb) : Z * Usb :=
  let '(r, _, u) := synopsys_host_xfer 0 tcp_usb_setup 8
    [u8 type; u8 req; u8 val; u8 (Z.shiftr val 8); u8 idx; u8 (Z.shiftr idx 8); u8 len; u8 (Z.shiftr len 8)] u in (r, u).

(** A walk over the descriptors of a configuration: whether there is a mux
    interface, and the endpoints of the last one. *)
Fixpoint has_mux_loop (fuel : nat) (d : bytes) (n i : Z) (in_mux found : bool) (s : synopsys_usb_state) : bool * synopsys_usb_state :=
  match fuel with
  | O => (found, s)
  | S fuel =>
      if (i + 1 <? n) && (2 <=? rd d i) then
        let next := i + rd d i in
        if (rd d (i + 1) =? 4) && (i + 8 <? n) then
          let in_mux := (rd d (i + 5) =? 255) && (rd d (i + 6) =? 254) && (rd d (i + 7) =? 2) in
          has_mux_loop fuel d n next in_mux (found || in_mux) s
        else if (rd d (i + 1) =? 5) && (i + 3 <? n) && in_mux then
          let s := if flagged (rd d (i + 2)) USB_DIR_IN then s <| us_host_ep_in := rd d (i + 2) |>
                   else s <| us_host_ep_out := rd d (i + 2) |> in
          has_mux_loop fuel d n next in_mux found s
        else has_mux_loop fuel d n next in_mux found s
      else (found, s)
  end.

Definition synopsys_host_cfg_has_mux (d : bytes) (n : Z) (s : synopsys_usb_state) : bool * synopsys_usb_state :=
  has_mux_loop (Z.to_nat n) d n 0 false false s.

Definition timer_mod (t : Z) (s : synopsys_usb_state) : synopsys_usb_state := s <| us_host_timer := Some (Some t) |>.

Definition synopsys_host_go (now phase ms : Z) (s : synopsys_usb_state) : synopsys_usb_state :=
  timer_mod (now + ms) (s <| us_host_phase := phase |> <| us_host_deadline := now + HOST_TIMEOUT_MS |>).

(** ** A tick *)

(** The first switch returns, or gives the result of a transaction. *)
Inductive Tick := TReturn (u : Usb) | TResult (r : Z) (u : Usb).

Definition tick_setup (type req val idx len : Z) (after : synopsys_usb_state -> synopsys_usb_state) (u : Usb) : Tick :=
  let '(r, u) := synopsys_host_setup type req val idx len u in TResult r (u <| u_core ::= after |>).

Definition expect (want : Z) (s : synopsys_usb_state) : synopsys_usb_state := s <| us_host_got := 0 |> <| us_host_want := want |>.

(** A chunk of an answer, into the rest of the buffer. *)
Definition tick_in (now : Z) (u : Usb) : Tick :=
  let s := u_core u in
  let got := us_host_got s in
  let '(r, b, u) := synopsys_host_xfer USB_DIR_IN 0 (us_host_want s - got) (zdrop got (us_host_buf s)) u in
  let u := u <| u_core ::= upd us_host_buf (fun buf => ztake got buf ++ b) |> in
  let u := if 0 <? r then u <| u_core ::= upd us_host_got (fun g => g + r) |> else u in
  let s := u_core u in
  if (0 <? r) && (us_host_got s <? us_host_want s) && (r =? 64) then TReturn (u <| u_core ::= timer_mod (now + HOST_RETRY_MS) |>)
  else TResult (if (r =? USB_RET_STALL) && (HP_STR0_IN <=? us_host_phase s) then 0 else r) u.

Definition version_req : bytes := [0; 0; 0; 0; 0; 0; 0; 20; 0; 0; 0; 2; 0; 0; 0; 0; 0; 0; 0; 0].

Definition tick_greet (u : Usb) : Usb :=
  let s := u_core u in
  if us_host_greeted s then u
  else
    let '(r, _, u) := synopsys_host_xfer (if us_host_ep_out s =? 0 then 0x02 else us_host_ep_out s) 0 (zlen version_req) version_req u in
    if 0 <=? r then u <| u_core ::= upd us_host_greeted (fun _ => true) |> else u.

Definition tick_poll (now : Z) (u : Usb) : Usb :=
  let u := tick_greet u in
  let s := u_core u in
  let '(_, b, u) := synopsys_host_xfer (if us_host_ep_in s =? 0 then 0x81 else us_host_ep_in s) 0 HOST_BUF_SIZE (us_host_buf s) u in
  u <| u_core ::= fun s => timer_mod (now + HOST_POLL_MS) (s <| us_host_buf := b |> <| us_host_deadline := now + HOST_TIMEOUT_MS |>) |>.

Definition same (s : synopsys_usb_state) : synopsys_usb_state := s.

Definition tick_transaction (now : Z) (u : Usb) : Tick :=
  let s := u_core u in
  let ph := us_host_phase s in
  if ph =? HP_RESET then
    let u := u <| u_core := s <| us_host_greeted := false |> <| us_host_ep_in := 0 |> <| us_host_ep_out := 0 |> |> in
    let '(_, _, u) := synopsys_host_xfer 0 tcp_usb_reset 0 [] u in
    TReturn (u <| u_core ::= synopsys_host_go now HP_ENUMDONE 500 |>)
  else if ph =? HP_ENUMDONE then
    let '(_, _, u) := synopsys_host_xfer 0 tcp_usb_enumdone 0 [] u in
    TReturn (u <| u_core ::= synopsys_host_go now HP_DEV_SETUP 500 |>)
  else if ph =? HP_DEV_SETUP then tick_setup 0x80 6 0x0100 0 18 (expect 18) u
  else if ph =? HP_CFG_HDR_SETUP then tick_setup 0x80 6 (Z.lor 0x0200 (us_host_cfg s)) 0 9 (expect 9) u
  else if ph =? HP_CFG_SETUP then
    tick_setup 0x80 6 (Z.lor 0x0200 (us_host_cfg s)) 0 (us_host_want s) (upd us_host_got (fun _ => 0)) u
  else if ph =? HP_ADDR_SETUP then tick_setup 0x00 5 1 0 0 same u
  else if ph =? HP_SETCFG_SETUP then tick_setup 0x00 9 (us_host_cfg_value s) 0 0 same u
  else if ph =? HP_CHARGE_SETUP then tick_setup 0x40 0x40 500 1600 0 same u
  else if ph =? HP_STR0_SETUP then tick_setup 0x80 6 0x0300 0 255 (expect 255) u
  else if ph =? HP_STRSER_SETUP then tick_setup 0x80 6 (Z.lor 0x0300 (us_host_iserial s)) 0x0409 255 (expect 255) u
  else if ph =? HP_POLL then TReturn (tick_poll now u)
  else if (ph =? HP_DEV_IN) || (ph =? HP_CFG_HDR_IN) || (ph =? HP_CFG_IN) || (ph =? HP_STR0_IN) || (ph =? HP_STRSER_IN) then tick_in now u
  else if (ph =? HP_DEV_STATUS) || (ph =? HP_CFG_HDR_STATUS) || (ph =? HP_CFG_STATUS) || (ph =? HP_STR0_STATUS) || (ph =? HP_STRSER_STATUS)
  then let '(r, _, u) := synopsys_host_xfer 0 0 0 [] u in TResult r u
  else if (ph =? HP_ADDR_STATUS) || (ph =? HP_SETCFG_STATUS) || (ph =? HP_CHARGE_STATUS)
  then let '(r, _, u) := synopsys_host_xfer USB_DIR_IN 0 0 [] u in TResult r u
  else TReturn u.

(** The transaction was accepted: the phase that follows. *)
Definition tick_advance (now : Z) (s : synopsys_usb_state) : synopsys_usb_state :=
  let ph := us_host_phase s in
  let buf := us_host_buf s in
  let restart := synopsys_host_go now HP_RESET HOST_RESTART_MS in
  let next := synopsys_host_go now (ph + 1) HOST_RETRY_MS in
  if ph =? HP_DEV_IN then
    if (us_host_got s <? 18) || negb (rd buf 1 =? 1) then restart s
    else next (s <| us_host_ncfg := rd buf 17 |> <| us_host_iserial := rd buf 16 |> <| us_host_cfg := 0 |> <| us_host_cfg_value := -1 |>)
  else if ph =? HP_CFG_HDR_IN then
    let s := s <| us_host_want := Z.lor (rd buf 2) (Z.shiftl (rd buf 3) 8) |> in
    if (us_host_got s <? 9) || (us_host_want s <? 9) || (HOST_BUF_SIZE <? us_host_want s) then restart s else next s
  else if ph =? HP_CFG_IN then
    let '(take_it, s) := if us_host_cfg_value s <? 0 then (true, s) else synopsys_host_cfg_has_mux buf (us_host_got s) s in
    next (if take_it then s <| us_host_cfg_value := rd buf 5 |> else s)
  else if ph =? HP_CFG_STATUS then
    let s := s <| us_host_cfg ::= fun c => c + 1 |> in
    if us_host_cfg s <? us_host_ncfg s then
      let '(found, s) := synopsys_host_cfg_has_mux buf (us_host_got s) s in
      if found then next s else synopsys_host_go now HP_CFG_HDR_SETUP HOST_RETRY_MS s
    else next s
  else if ph =? HP_ADDR_STATUS then synopsys_host_go now HP_CFG_HDR_SETUP 100 s
  else if ph =? HP_SETCFG_STATUS then
    if us_host_charge s then next s else synopsys_host_go now HP_STR0_SETUP HOST_RETRY_MS s
  else if ph =? HP_STRSER_STATUS then synopsys_host_go now HP_POLL HOST_POLL_MS s
  else next s.

Definition synopsys_host_tick (now : Z) (u : Usb) : Usb :=
  let s := u_core u in
  if negb (us_builtin_host s) || negb (us_cable_attached s) || (us_host_phase s =? HP_IDLE) || (us_host_phase s =? HP_DONE) then u
  else if us_host_deadline s <? now then u <| u_core ::= synopsys_host_go now HP_RESET HOST_RESTART_MS |>
  else
    match tick_transaction now u with
    | TReturn u => u
    | TResult r u =>
        if r =? USB_RET_NAK then u <| u_core ::= timer_mod (now + HOST_RETRY_MS) |>
        else if r <? 0 then u <| u_core ::= synopsys_host_go now HP_RESET HOST_RESTART_MS |>
        else u <| u_core ::= tick_advance now |>
    end.

Definition synopsys_usb_host_rearm (now delay_ms : Z) (s : synopsys_usb_state) : synopsys_usb_state :=
  match us_host_timer s with
  | Some _ =>
      if negb (us_builtin_host s) then s
      else if negb (us_cable_attached s) then s <| us_host_phase := HP_IDLE |> <| us_host_timer := Some None |>
      else synopsys_host_go now HP_RESET delay_ms s
  | None => s
  end.
