(* ===== verification/UsbRegs.v ===== *)
(** * USB device controller: registers, reset and the link to the host

    [src/hw/arm/ipod_touch_usb_otg.c]: the register block of the core, its reset,
    and what dials and drops the connection to the host bridge.

    The controller with its connection is an end of the transport whose callback
    is the handler of a host transaction.  What a dial gives is a parameter: the
    socket of a new connection, or nothing; so is the environment variable that
    names the bridge. *)

From Stdlib Require Import ZArith Lia String.
From stdpp Require Import base numbers list.
From S2P Require Import Prelude CLib HwLib TcpUsb UsbCore UsbHost.
Local Open Scope Z_scope.

(** ** Registers *)

Definition GOTGCTL : Z := 0x0.
Definition GOTGINT : Z := 0x4.
Definition GAHBCFG : Z := 0x8.
Definition GUSBCFG : Z := 0xc.
Definition GRSTCTL : Z := 0x10.
Definition GINTSTS : Z := 0x14.
Definition GINTMSK : Z := 0x18.
Definition GRXFSIZ : Z := 0x24.
Definition GNPTXFSIZ : Z := 0x28.
Definition GNPTXFSTS : Z := 0x2c.
Definition GHWCFG1 : Z := 0x44.
Definition GHWCFG2 : Z := 0x48.
Definition GHWCFG3 : Z := 0x4c.
Definition GHWCFG4 : Z := 0x50.
Definition DIEPTXF (x : Z) : Z := 0x100 + 4 * x.
Definition DCFG : Z := 0x800.
Definition DCTL : Z := 0x804.
Definition DSTS : Z := 0x808.
Definition DIEPMSK : Z := 0x810.
Definition DOEPMSK : Z := 0x814.
Definition DAINTSTS : Z := 0x818.
Definition DAINTMSK : Z := 0x81c.
Definition USB_INREGS : Z := 0x900.
Definition USB_OUTREGS : Z := 0xb00.
Definition USB_EPREGS_SIZE : Z := 0x200.
Definition PCGCCTL : Z := 0xe00.
Definition USB_FIFO_START : Z := 0x1000.
Definition USB_FIFO_END : Z := USB_FIFO_START + 0x100 * (USB_NUM_FIFOS + 1).

Definition GOTGCTL_CONIDSTS : Z := 0x10000.
Definition GOTGCTL_SESSIONVALID : Z := 0xc0000.
Definition GRSTCTL_AHBIDLE : Z := 0x80000000.
Definition GRSTCTL_CORESOFTRESET : Z := 0x1.
Definition DCTL_CGOUTNAK : Z := 0x400.
Definition DCTL_SGOUTNAK : Z := 0x200.
Definition DCTL_CGNPINNAK : Z := 0x100.
Definition DCTL_SGNPINNAK : Z := 0x80.
Definition TCP_USB_RETRY_MS : Z := 3000.

(** [case a ... b] *)
Definition between (a b addr : Z) : bool := (a <=? addr) && (addr <=? b).

Definition ep_read (e : synopsys_usb_ep_state) (off : Z) : Z :=
  if off =? 0x00 then ue_control e
  else if off =? 0x08 then ue_interrupt_status e
  else if off =? 0x10 then ue_tx_size e
  else if off =? 0x14 then u32 (ue_dma_address e)
  else if off =? 0x1c then u32 (ue_dma_buffer e)
  else 0.

Definition synopsys_usb_in_ep_read (s : synopsys_usb_state) (ep off : Z) : Z :=
  if USB_NUM_ENDPOINTS <=? ep then 0 else ep_read (in_ep s ep) off.
Definition synopsys_usb_out_ep_read (s : synopsys_usb_state) (ep off : Z) : Z :=
  if USB_NUM_ENDPOINTS <=? ep then 0 else ep_read (out_ep s ep) off.

Definition synopsys_usb_read_reg (addr : Z) (s : synopsys_usb_state) : Z :=
  if addr =? PCGCCTL then us_pcgcctl s
  else if addr =? GOTGCTL then
    Z.lor (Z.lor (clear (us_gotgctl s) (Z.lor GOTGCTL_CONIDSTS GOTGCTL_SESSIONVALID)) GOTGCTL_CONIDSTS)
      (if us_cable_attached s then GOTGCTL_SESSIONVALID else 0)
  else if addr =? GOTGINT then us_gotgint s
  else if addr =? GRSTCTL then us_grstctl s
  else if addr =? GHWCFG1 then us_ghwcfg1 s
  else if addr =? GHWCFG2 then us_ghwcfg2 s
  else if addr =? GHWCFG3 then us_ghwcfg3 s
  else if addr =? GHWCFG4 then us_ghwcfg4 s
  else if addr =? GAHBCFG then us_gahbcfg s
  else if addr =? GUSBCFG then us_gusbcfg s
  else if addr =? GINTMSK then us_gintmsk s
  else if addr =? GINTSTS then us_gintsts s
  else if addr =? DIEPMSK then us_diepmsk s
  else if addr =? DOEPMSK then us_doepmsk s
  else if addr =? DAINTMSK then us_daintmsk s
  else if addr =? DAINTSTS then us_daintsts s
  else if addr =? DCTL then us_dctl s
  else if addr =? DCFG then us_dcfg s
  else if addr =? DSTS then us_dsts s
  else if addr =? GNPTXFSTS then 0xffffffff
  else if addr =? GRXFSIZ then us_grxfsiz s
  else if addr =? GNPTXFSIZ then us_gnptxfsiz s
  else if between (DIEPTXF 1) (DIEPTXF USB_NUM_FIFOS) addr then rd (us_dptxfsiz s) (Z.shiftr (addr - DIEPTXF 1) 2)
  else if between USB_INREGS (USB_INREGS + USB_EPREGS_SIZE - 4) addr then
    let a := addr - USB_INREGS in synopsys_usb_in_ep_read s (Z.shiftr a 5) (Z.land a 0x1f)
  else if between USB_OUTREGS (USB_OUTREGS + USB_EPREGS_SIZE - 4) addr then
    let a := addr - USB_OUTREGS in synopsys_usb_out_ep_read s (Z.shiftr a 5) (Z.land a 0x1f)
  else if between USB_FIFO_START (USB_FIFO_END - 4) addr then ld_le32 (us_fifos s) (addr - USB_FIFO_START)
  else 0.

Definition synopsys_usb_in_ep_write (ep off val : Z) (s : synopsys_usb_state) : synopsys_usb_state :=
  if USB_NUM_ENDPOINTS <=? ep then s
  else
    let e := in_ep s ep in
    if off =? 0x00 then
      set_in_ep ep (synopsys_usb_update_in_ep
        (e <| ue_control ::= fun c => Z.lor (clear val USB_EPCON_NAKSTS) (Z.land c USB_EPCON_NAKSTS) |>)) s
    else if off =? 0x08 then synopsys_usb_update_irq (set_in_ep ep (e <| ue_interrupt_status ::= fun v => clear v val |>) s)
    else if off =? 0x10 then set_in_ep ep (e <| ue_tx_size := val |>) s
    else if off =? 0x14 then set_in_ep ep (e <| ue_dma_address := val |>) s
    else if off =? 0x1c then set_in_ep ep (e <| ue_dma_buffer := val |>) s
    else s.

Definition synopsys_usb_out_ep_write (ep off val : Z) (s : synopsys_usb_state) : synopsys_usb_state :=
  if USB_NUM_ENDPOINTS <=? ep then s
  else
    let e := out_ep s ep in
    if off =? 0x00 then set_out_ep ep (synopsys_usb_update_out_ep (e <| ue_control := val |>)) s
    else if off =? 0x08 then synopsys_usb_update_irq (set_out_ep ep (e <| ue_interrupt_status ::= fun v => clear v val |>) s)
    else if off =? 0x10 then set_out_ep ep (e <| ue_tx_size := val |>) s
    else if off =? 0x14 then set_out_ep ep (e <| ue_dma_address := val |>) s
    else if off =? 0x1c then set_out_ep ep (e <| ue_dma_buffer := val |>) s
    else s.

(** A global NAK is asked for: its status bit is set. *)
Definition global_nak (val set eff : Z) (s : synopsys_usb_state) : Z * synopsys_usb_state :=
  if negb (Z.land val set =? Z.land (us_dctl s) set) && flagged val set
  then (clear val set, s <| us_gintsts ::= fun v => Z.lor v eff |>) else (val, s).

Definition write_dctl (val : Z) (s : synopsys_usb_state) : synopsys_usb_state :=
  let '(val, s) := global_nak val DCTL_SGNPINNAK GINTMSK_GINNAKEFF s in
  let '(val, s) := global_nak val DCTL_SGOUTNAK GINTMSK_GOUTNAKEFF s in
  let s := if flagged val DCTL_CGNPINNAK then s <| us_gintsts ::= fun v => clear v GINTMSK_GINNAKEFF |> else s in
  let s := if flagged val DCTL_CGOUTNAK then s <| us_gintsts ::= fun v => clear v GINTMSK_GOUTNAKEFF |> else s in
  synopsys_usb_update_irq (s <| us_dctl := clear val (Z.lor DCTL_CGNPINNAK DCTL_CGOUTNAK) |>).

(** ** The link to the host bridge *)

(** ["host:port"] or the path of a socket. *)
Definition synopsys_usb_set_tcp_addr (spec : option bytes) (s : synopsys_usb_state) : synopsys_usb_state :=
  match spec with
  | None | Some [] => s
  | Some (c :: _ as spec) =>
      if c =? 47 then s <| us_server_host := Some spec |> <| us_server_port := 0 |>
      else
        let '(dup, port) :=
          match strrchr 58 spec with
          | Some colon => (ztake (zlen spec - zlen colon) spec, u32 (atoi (zdrop 1 colon)))
          | None => (spec, 0)
          end in
        s <| us_server_port := if port =? 0 then 1235 else port |>
          <| us_server_host := Some (match dup with [] => str "127.0.0.1"%string | _ => dup end) |>
  end.

Section Link.

(** [tcp_usb_connect] and [getenv] *)
Variable dial : bytes -> Z -> option Sock.
Variable env : option bytes.

Abbreviation Link := (End Usb).
Abbreviation core w := (u_core (e_dev w)).

Definition on_core (f : synopsys_usb_state -> synopsys_usb_state) (w : Link) : Link := w <| e_dev ::= upd u_core f |>.

(** The connection is dropped. *)
Definition tcp_drop (w : Link) : Link :=
  if us_tcp_connected (core w) then on_core (upd us_tcp_connected (fun _ => false)) (w <| e_tcp ::= tcp_usb_cleanup |>) else w.

Definition synopsys_usb_tcp_start (w : Link) : Link :=
  let s := core w in
  if negb (us_cable_attached s) || (us_tcp_connected s && negb (tu_closed (e_tcp w))) then w
  else
    let w := match us_server_host s with None => on_core (synopsys_usb_set_tcp_addr env) w | Some _ => w end in
    match us_server_host (core w) with
    | None => w
    | Some host =>
        let w := (tcp_drop w) <| e_tcp ::= tcp_usb_init |> in
        match dial host (us_server_port (core w)) with
        | None => w
        | Some k =>
            on_core (upd us_tcp_connected (fun _ => true)) (w <| e_tcp ::= tcp_usb_connected |> <| e_sock := k |>)
        end
    end.

Definition core_soft_reset (now : Z) (w : Link) : Link :=
  let w := on_core (upd us_grstctl (fun _ => GRSTCTL_CORESOFTRESET)) w in
  let w := synopsys_usb_tcp_start w in
  let w := on_core (synopsys_usb_host_rearm now 2000) w in
  on_core (fun s => synopsys_usb_update_irq
    (s <| us_grstctl ::= fun v => Z.lor (clear v GRSTCTL_CORESOFTRESET) GRSTCTL_AHBIDLE |>
       <| us_gintsts ::= fun v => Z.lor v (Z.lor GINTMSK_RESET GINTMSK_CONIDSTSCHNG) |>)) w.

(** Registers that do not touch the link; the access is of four bytes at most. *)
Definition write_core (addr val : Z) (s : synopsys_usb_state) : synopsys_usb_state :=
  if addr =? PCGCCTL then synopsys_usb_update_irq (s <| us_pcgcctl := val |>)
  else if addr =? GOTGCTL then s <| us_gotgctl := val |>
  else if addr =? GOTGINT then synopsys_usb_update_irq (s <| us_gotgint ::= fun v => clear v val |>)
  else if addr =? GINTMSK then synopsys_usb_update_irq (s <| us_gintmsk := val |>)
  else if addr =? GINTSTS then synopsys_usb_update_irq (s <| us_gintsts ::= fun v => clear v val |>)
  else if addr =? DOEPMSK then synopsys_usb_update_irq (s <| us_doepmsk := val |>)
  else if addr =? DIEPMSK then synopsys_usb_update_irq (s <| us_diepmsk := val |>)
  else if addr =? DAINTMSK then synopsys_usb_update_irq (s <| us_daintmsk := val |>)
  else if addr =? DAINTSTS then synopsys_usb_update_irq (s <| us_daintsts ::= fun v => clear v val |>)
  else if addr =? GAHBCFG then synopsys_usb_update_irq (s <| us_gahbcfg := val |>)
  else if addr =? GUSBCFG then s <| us_gusbcfg := val |>
  else if addr =? DCTL then write_dctl val s
  else if addr =? DCFG then s <| us_dcfg := val |>
  else if addr =? GRXFSIZ then s <| us_grxfsiz := val |>
  else if addr =? GNPTXFSIZ then s <| us_gnptxfsiz := val |>
  else if between (DIEPTXF 1) (DIEPTXF USB_NUM_FIFOS) addr then
    s <| us_dptxfsiz ::= fun l => wr l (Z.shiftr (addr - DIEPTXF 1) 2) val |>
  else if between USB_INREGS (USB_INREGS + USB_EPREGS_SIZE - 4) addr then
    let a := addr - USB_INREGS in synopsys_usb_in_ep_write (Z.shiftr a 5) (Z.land a 0x1f) val s
  else if between USB_OUTREGS (USB_OUTREGS + USB_EPREGS_SIZE - 4) addr then
    let a := addr - USB_OUTREGS in synopsys_usb_out_ep_write (Z.shiftr a 5) (Z.land a 0x1f) val s
  else if between USB_FIFO_START (USB_FIFO_END - 4) addr then s <| us_fifos ::= fun f => st_le32 f (addr - USB_FIFO_START) val |>
  else s.

Definition synopsys_usb_write (now addr val : Z) (w : Link) : Link :=
  if addr =? GRSTCTL then
    if flagged val GRSTCTL_CORESOFTRESET then core_soft_reset now w
    else if val =? 0 then on_core (upd us_grstctl (fun _ => val)) w
    else w
  else on_core (write_core addr val) w.

(** ** Reset, cable and timers *)

Definition reset_ep (e : synopsys_usb_ep_state) : synopsys_usb_ep_state :=
  e <| ue_control := 0 |> <| ue_dma_address := 0 |> <| ue_fifo := 0 |> <| ue_tx_size := 0 |> <| ue_interrupt_status := 0 |>.

Definition reset_core (s : synopsys_usb_state) : synopsys_usb_state :=
  s <| us_pcgcctl := 3 |> <| us_gahbcfg := 0 |> <| us_gusbcfg := 0 |> <| us_dctl := 0 |> <| us_dcfg := 0 |> <| us_dsts := 0 |>
    <| us_gotgctl := 0 |> <| us_gotgint := 0 |> <| us_grstctl := GRSTCTL_AHBIDLE |> <| us_gintmsk := 0 |>
    <| us_gintsts := GINTMSK_CONIDSTSCHNG |> <| us_daintmsk := 0 |> <| us_daintsts := 0 |> <| us_diepmsk := 0 |>
    <| us_doepmsk := 0 |> <| us_grxfsiz := 0x100 |> <| us_gnptxfsiz := 0x1000100 |>
    <| us_dptxfsiz := (fun i => Z.lor (Z.shiftl (0x200 + 0x100 * i) 16) 0x100) <$> seqZ 0 USB_NUM_FIFOS |>
    <| us_in_eps ::= map reset_ep |> <| us_out_eps ::= map reset_ep |>.

Definition s5l8900_usb_otg_reset (w : Link) : Link := on_core synopsys_usb_update_irq (tcp_drop (on_core reset_core w)).

Definition synopsys_usb_phy_reset (level : bool) (w : Link) : Link := on_core (upd us_phy_reset (fun _ => level)) w.

Definition synopsys_usb_set_cable (now : Z) (attached : bool) (w : Link) : Link :=
  let w := on_core (upd us_cable_attached (fun _ => attached)) w in
  let w := if attached then synopsys_usb_tcp_start w else tcp_drop w in
  on_core (synopsys_usb_host_rearm now 2000) w.

Definition retry_timer_mod (now : Z) : Link -> Link := on_core (upd us_tcp_retry_timer (fun _ => Some (now + TCP_USB_RETRY_MS))).

Definition synopsys_usb_tcp_retry_tick (now : Z) (w : Link) : Link :=
  let w := if negb (us_tcp_connected (core w)) || tu_closed (e_tcp w) then synopsys_usb_tcp_start w else w in
  retry_timer_mod now w.

Definition s5l8900_usb_otg_realize (now : Z) (w : Link) : Link :=
  let w := synopsys_usb_tcp_start w in
  let w := retry_timer_mod now w in
  on_core (fun s => synopsys_usb_host_rearm now 2000 (s <| us_host_timer := Some None |>)) w.

(** A write's CNAK that an older stream stored is settled. *)
Definition settle_nak (e : synopsys_usb_ep_state) : synopsys_usb_ep_state :=
  if flagged (ue_control e) USB_EPCON_CLEARNAK
  then e <| ue_control ::= fun v => clear v (Z.lor USB_EPCON_CLEARNAK USB_EPCON_NAKSTS) |> else e.

Definition synopsys_usb_post_load (now : Z) (w : Link) : Link :=
  on_core (fun s => synopsys_usb_update_irq (s <| us_in_eps ::= map settle_nak |>)) (retry_timer_mod now (tcp_drop w)).

(** The main loop calls back for the socket. *)
Definition usb_socket_event (can_read : bool) (w : Link) : Link :=
  tcp_usb_callback (Some synopsys_usb_tcp_callback) None can_read w.

End Link.
