(* ===== verification/UsbInv.v ===== *)
(** * USB device controller: the built-in host stays in its buffer and runs on

    Whatever the guest answers, a transfer of the built-in host stays inside its
    buffer, and the timer is armed again by every tick, so that the enumeration
    neither overruns nor stalls; this and the sizes of the arrays hold in every
    state the controller reaches ([usb_reachable_wf]). *)

From Stdlib Require Import ZArith Lia.
From stdpp Require Import base numbers list relations.
From S2P Require Import Prelude CLib HwLib TcpUsb TcpUsbFacts UsbCore UsbFacts UsbHost UsbRegs.
Local Open Scope Z_scope.

Create HintDb usb.

(** ** What a transaction leaves of the host's part *)

Definition host_part (s : synopsys_usb_state) :=
  (us_builtin_host s, us_cable_attached s, us_host_timer s, us_host_phase s, us_host_deadline s, us_host_got s, us_host_want s, us_host_buf s).

Lemma host_part_irq s : host_part (synopsys_usb_update_irq s) = host_part s.
Proof. by rewrite (update_irq_frame s). Qed.

Lemma in_transaction_host ep len b u : host_part (u_core (in_transaction ep len b u).2) = host_part (u_core u).
Proof.
  unfold in_transaction. cbv zeta. destruct (flagged _ _); [done|]. destruct (flagged _ _); [done|]. destruct (flagged _ _); [|done].
  by destruct (in_transfer _ _ _ _ _) as [[r b'] e].
Qed.

Lemma out_transaction_host ep flags len b u : host_part (u_core (out_transaction ep flags len b u).2) = host_part (u_core u).
Proof.
  unfold out_transaction. cbv zeta. destruct (flagged _ _); [done|]. destruct (flagged _ _); [|done].
  destruct (out_dma _ _ _ _) as [e mem]. destruct (out_continues _ _ _ _ _); [done|]. cbn [snd u_core]. unfold setup_nak. by destruct (_ && _).
Qed.

Lemma callback_host h b u : host_part (u_core (synopsys_usb_tcp_callback h b u).2) = host_part (u_core u).
Proof.
  unfold synopsys_usb_tcp_callback. cbv zeta. set (h1 := wr h 0 _). clearbody h1.
  destruct (us_phy_reset _ && _); [done|]. destruct (flagged _ tcp_usb_reset); [exact (host_part_irq _)|].
  set (u1 := if flagged _ tcp_usb_enumdone then _ else _).
  assert (E : host_part (u_core u1) = host_part (u_core u)) by (unfold u1; by destruct (flagged _ _)). clearbody u1. rewrite <- E. clear E.
  destruct (is_hello h1); [by destruct (_ || _)|]. destruct (_ <=? _); [exact (host_part_irq _)|]. destruct (_ && _); [done|].
  destruct (dir_in h1).
  - pose proof (in_transaction_host (Z.land (hdr_ep h1) 0x7f) (tcp_usb_payload_len h1) b u1) as T.
    destruct (in_transaction _ _ _ _) as [[r b'] u2]. cbn [snd] in *. rewrite <- T. exact (host_part_irq _).
  - pose proof (out_transaction_host (Z.land (hdr_ep h1) 0x7f) (hdr_flags h1) (tcp_usb_payload_len h1) b u1) as T.
    destruct (out_transaction _ _ _ _ _) as [r u2]. cbn [snd] in *. rewrite <- T. exact (host_part_irq _).
Qed.

Lemma xfer_host ep flags len buf u : host_part (u_core (synopsys_host_xfer ep flags len buf u).2) = host_part (u_core u).
Proof.
  unfold synopsys_host_xfer. set (h := [0; _; _; _; _]). pose proof (callback_host h buf u) as H.
  by destruct (synopsys_usb_tcp_callback h buf u) as [[[r h'] b] u'].
Qed.

Lemma callback_buf h b u : zlen (synopsys_usb_tcp_callback h b u).1.2 = zlen b.
Proof.
  unfold synopsys_usb_tcp_callback. cbv zeta. set (h1 := wr h 0 _). clearbody h1.
  destruct (us_phy_reset _ && _); [done|]. destruct (flagged _ tcp_usb_reset); [done|].
  set (u1 := if flagged _ tcp_usb_enumdone then _ else _). clearbody u1. destruct (is_hello h1).
  { destruct (_ || _); [done|]. exact (zlen_blit b hello 0). }
  destruct (_ <=? _); [done|]. destruct (_ && _); [done|]. destruct (dir_in h1).
  - destruct (in_transaction _ _ _ _) as [[r b'] u2] eqn:T. apply in_transaction_bound in T as (_ & _ & T); [done|].
    apply payload_len_range.
  - by destruct (out_transaction _ _ _ _ _).
Qed.

Lemma xfer_buf ep flags len buf u : zlen (synopsys_host_xfer ep flags len buf u).1.2 = zlen buf.
Proof.
  unfold synopsys_host_xfer. set (h := [0; _; _; _; _]). pose proof (callback_buf h buf u) as H.
  by destruct (synopsys_usb_tcp_callback h buf u) as [[[r h'] b] u'].
Qed.

(** A read of endpoint zero gives at most what was asked for. *)
Lemma xfer_in_bound len buf u : 0 <= len < 32768 -> (synopsys_host_xfer USB_DIR_IN 0 len buf u).1.1 <= len.
Proof.
  intros Hl. unfold synopsys_host_xfer. change [0; u8 USB_DIR_IN; u8 0; u8 len; u8 (Z.shiftr len 8)] with (usb_frame 0 (0x80 + 0) 0 len).
  destruct (us_phy_reset (u_core u)) eqn:Ep.
  - unfold synopsys_usb_tcp_callback. cbv zeta. rewrite Ep. set (h := wr _ 0 _). change (is_hello h) with false. cbn [andb negb fst].
    unfold USB_RET_NAK. lia.
  - rewrite poll_callback by (done || lia). destruct (in_transaction _ _ _ _) as [[r b'] u2] eqn:T.
    apply in_transaction_bound in T as (T & _ & _); [done|lia].
Qed.

(** ** The walk over the descriptors *)

(** It looks at nothing beyond the bytes received. *)
Lemma has_mux_local d d' n fuel : (forall i, 0 <= i < n -> rd d i = rd d' i) ->
  forall i in_mux found s, 0 <= i -> has_mux_loop fuel d n i in_mux found s = has_mux_loop fuel d' n i in_mux found s.
Proof.
  intros E. induction fuel as [|fuel IH]; intros i in_mux found s Hi; [done|]. cbn [has_mux_loop].
  destruct (Z.ltb_spec (i + 1) n) as [H1|]; [|done]. cbn [andb]. rewrite <- (E i), <- (E (i + 1)) by lia.
  destruct (Z.leb_spec 2 (rd d i)) as [H2|]; [|done]. cbv zeta.
  destruct (Z.ltb_spec (i + 8) n) as [H8|H8].
  - rewrite <- (E (i + 5)), <- (E (i + 6)), <- (E (i + 7)), <- (E (i + 2)) by lia.
    repeat (destruct (_ && _); [apply IH; lia|]). apply IH. lia.
  - rewrite andb_false_r. destruct (Z.ltb_spec (i + 3) n) as [H3|H3].
    + rewrite <- (E (i + 2)) by lia. destruct (_ && _); apply IH; lia.
    + rewrite !andb_false_r. cbn [andb]. apply IH. lia.
Qed.

(** ** The invariant *)

Definition shape (s : synopsys_usb_state) := (zlen (us_in_eps s), zlen (us_out_eps s), zlen (us_dptxfsiz s), zlen (us_fifos s)).

Definition in_phase (ph : Z) : Prop := ph = HP_DEV_IN \/ ph = HP_CFG_HDR_IN \/ ph = HP_CFG_IN \/ ph = HP_STR0_IN \/ ph = HP_STRSER_IN.
Definition setup_phase (ph : Z) : Prop :=
  ph = HP_DEV_SETUP \/ ph = HP_CFG_HDR_SETUP \/ ph = HP_CFG_SETUP \/ ph = HP_STR0_SETUP \/ ph = HP_STRSER_SETUP.

(** The arrays have their sizes, and what the host has and expects fits its
    buffer. *)
Record usb_wf (s : synopsys_usb_state) : Prop := {
  uw_shape : shape s = (8, 8, 16, 4352);
  uw_buf : zlen (us_host_buf s) = HOST_BUF_SIZE;
  uw_phase : HP_IDLE <= us_host_phase s <= HP_POLL;
  uw_got : 0 <= us_host_got s <= HOST_BUF_SIZE;
  uw_in : in_phase (us_host_phase s) -> us_host_got s <= us_host_want s <= HOST_BUF_SIZE;
  uw_cfg : us_host_phase s = HP_CFG_HDR_STATUS \/ us_host_phase s = HP_CFG_SETUP -> 0 <= us_host_want s <= HOST_BUF_SIZE
}.

Lemma usb_wf_eq s s' : host_part s' = host_part s -> shape s' = shape s -> usb_wf s -> usb_wf s'.
Proof.
  intros H S [W1 W2 W3 W4 W5 W6]. unfold host_part in H. injection H as H1 H2 H3 H4 H5 H6 H7 H8.
  split; rewrite ?H4, ?H6, ?H7, ?H8, ?S; done.
Qed.

Lemma shape_irq s : shape (synopsys_usb_update_irq s) = shape s.
Proof. by rewrite (update_irq_frame s). Qed.

Lemma shape_set_in_ep i e s : shape (set_in_ep i e s) = shape s.
Proof. unfold shape, set_in_ep, wr, zlen. cbn. by rewrite length_insert. Qed.

Lemma shape_set_out_ep i e s : shape (set_out_ep i e s) = shape s.
Proof. unfold shape, set_out_ep, wr, zlen. cbn. by rewrite length_insert. Qed.

Lemma callback_shape h b u : shape (u_core (synopsys_usb_tcp_callback h b u).2) = shape (u_core u).
Proof.
  unfold synopsys_usb_tcp_callback. cbv zeta. set (h1 := wr h 0 _). clearbody h1.
  destruct (us_phy_reset _ && _); [done|]. destruct (flagged _ tcp_usb_reset); [exact (shape_irq _)|].
  set (u1 := if flagged _ tcp_usb_enumdone then _ else _).
  assert (E : shape (u_core u1) = shape (u_core u)) by (unfold u1; by destruct (flagged _ _)). clearbody u1. rewrite <- E. clear E.
  destruct (is_hello h1); [by destruct (_ || _)|]. destruct (_ <=? _); [exact (shape_irq _)|]. destruct (_ && _); [done|].
  destruct (dir_in h1).
  - destruct (in_transaction _ _ _ _) as [[r b'] u2] eqn:T. cbn [snd]. etransitivity; [exact (shape_irq _)|]. unfold in_transaction in T. cbv zeta in T.
    destruct (flagged _ _); [injection T as <- <- <-; apply shape_set_in_ep|]. destruct (flagged _ _); [by injection T as <- <- <-|].
    destruct (flagged _ _); [|by injection T as <- <- <-]. destruct (in_transfer _ _ _ _ _) as [[r1 b1] e]. injection T as <- <- <-. apply shape_set_in_ep.
  - destruct (out_transaction _ _ _ _ _) as [r u2] eqn:T. cbn [snd]. etransitivity; [exact (shape_irq _)|]. unfold out_transaction in T. cbv zeta in T.
    destruct (flagged _ _); [injection T as <- <-; apply shape_set_out_ep|]. destruct (flagged _ _); [|by injection T as <- <-].
    destruct (out_dma _ _ _ _) as [e mem]. destruct (out_continues _ _ _ _ _); injection T as <- <-; [apply shape_set_out_ep|].
    cbn [u_core]. unfold setup_nak. destruct (_ && _); rewrite ?shape_set_in_ep; apply shape_set_out_ep.
Qed.

Lemma xfer_shape ep flags len buf u : shape (u_core (synopsys_host_xfer ep flags len buf u).2) = shape (u_core u).
Proof.
  unfold synopsys_host_xfer. set (h := [0; _; _; _; _]). pose proof (callback_shape h buf u) as H.
  by destruct (synopsys_usb_tcp_callback h buf u) as [[[r h'] b] u'].
Qed.

Lemma callback_wf h b u : usb_wf (u_core u) -> usb_wf (u_core (synopsys_usb_tcp_callback h b u).2).
Proof. apply usb_wf_eq; [apply callback_host|apply callback_shape]. Qed.

Lemma xfer_wf ep flags len buf u : usb_wf (u_core u) -> usb_wf (u_core (synopsys_host_xfer ep flags len buf u).2).
Proof. apply usb_wf_eq; [apply xfer_host|apply xfer_shape]. Qed.

(** ** A tick *)

(** The timer is set for a time soon after [now]. *)
Definition rearmed (now : Z) (s : synopsys_usb_state) : Prop :=
  exists t, us_host_timer s = Some (Some t) /\ now < t <= now + HOST_RESTART_MS.

(** A phase with no more than the general requirements. *)
Definition free_phase (ph : Z) : Prop := HP_IDLE <= ph <= HP_POLL /\ ~ in_phase ph /\ ph <> HP_CFG_HDR_STATUS /\ ph <> HP_CFG_SETUP.

Lemma host_go_wf now ph ms s : usb_wf s -> free_phase ph -> usb_wf (synopsys_host_go now ph ms s).
Proof. intros [] (F1 & F2 & F3 & F4). split; try done. by intros [?|?]. Qed.

Lemma host_go_rearmed now ph ms s : 0 < ms <= HOST_RESTART_MS -> rearmed now (synopsys_host_go now ph ms s).
Proof. intros H. eexists. split; [done|lia]. Qed.

Lemma timer_mod_wf t s : usb_wf s -> usb_wf (timer_mod t s).
Proof. intros []. by split. Qed.

(** After a transaction that gave a result, and before the phase changes. *)
Definition between_phases (ph : Z) (s : synopsys_usb_state) : Prop :=
  usb_wf s /\ us_host_phase s = ph /\ ph < HP_POLL /\ (setup_phase ph -> us_host_got s <= us_host_want s <= HOST_BUF_SIZE).

Lemma tick_setup_between type req val idx len after u ph : us_host_phase (u_core u) = ph ->
  (forall s, host_part s = host_part (u_core u) -> shape s = shape (u_core u) -> between_phases ph (after s)) ->
  match tick_setup type req val idx len after u with TReturn _ => False | TResult _ u' => between_phases ph (u_core u') end.
Proof.
  intros Hp H. unfold tick_setup, synopsys_host_setup. set (pkt := [_; _; _; _; _; _; _; _]).
  pose proof (xfer_host 0 tcp_usb_setup 8 pkt u) as Hh. pose proof (xfer_shape 0 tcp_usb_setup 8 pkt u) as Hs.
  destruct (synopsys_host_xfer 0 tcp_usb_setup 8 pkt u) as [[r b] u1]. cbn [snd] in *. by apply H.
Qed.

Lemma expect_between want s ph : usb_wf s -> us_host_phase s = ph -> ph < HP_POLL -> 0 <= want <= HOST_BUF_SIZE ->
  between_phases ph (expect want s).
Proof. intros [] Hp Hl Hw. split; [split|]; try done; cbn; unfold HOST_BUF_SIZE in *; lia. Qed.

Lemma same_between s ph : usb_wf s -> us_host_phase s = ph -> ph < HP_POLL -> ~ setup_phase ph -> between_phases ph (same s).
Proof. intros W Hp Hl Hs. split; [done|]. split; [done|]. split; [done|]. by intros ?. Qed.

(** A chunk stays inside what is left of the buffer. *)
Lemma tick_in_between now u ph : usb_wf (u_core u) -> us_host_phase (u_core u) = ph -> in_phase ph ->
  match tick_in now u with TReturn u' => usb_wf (u_core u') /\ rearmed now (u_core u') | TResult _ u' => between_phases ph (u_core u') end.
Proof.
  intros W Hp Hi. unfold tick_in. cbv zeta. set (s := u_core u) in *. pose proof (uw_in _ W ltac:(by rewrite Hp)) as Hw.
  pose proof (uw_got _ W) as Hg. pose proof (uw_buf _ W) as Hbuf. unfold HOST_BUF_SIZE in *.
  set (len := us_host_want s - us_host_got s). set (buf := zdrop (us_host_got s) (us_host_buf s)).
  pose proof (xfer_in_bound len buf u ltac:(lia)) as Hr. pose proof (xfer_buf USB_DIR_IN 0 len buf u) as Hb.
  pose proof (xfer_host USB_DIR_IN 0 len buf u) as Hh. pose proof (xfer_shape USB_DIR_IN 0 len buf u) as Hs.
  destruct (synopsys_host_xfer USB_DIR_IN 0 len buf u) as [[r b] u1]. cbn [fst snd] in *.
  pose proof (usb_wf_eq _ _ Hh Hs W) as W1. unfold host_part in Hh. injection Hh as H1 H2 H3 H4 H5 H6 H7 H8. fold s in H4, H6, H7, H8.
  set (u2 := u1 <| u_core ::= _ |>).
  assert (B2 : zlen (us_host_buf (u_core u2)) = 1024).
  { cbn. rewrite zlen_app, Hb, H8. unfold buf. rewrite zlen_ztake, zlen_zdrop, Hbuf. lia. }
  assert (W2 : usb_wf (u_core u2)) by (destruct W1; by split).
  set (u3 := if 0 <? r then _ else _).
  assert (G : us_host_got (u_core u3) = us_host_got s + Z.max 0 r).
  { unfold u3. destruct (Z.ltb_spec 0 r); cbn; [|lia]. change (us_host_got (u_core u2)) with (us_host_got (u_core u1)). lia. }
  assert (P3 : us_host_phase (u_core u3) = ph /\ us_host_want (u_core u3) = us_host_want s).
  { unfold u3. destruct (0 <? r); cbn; rewrite <- Hp; done. }
  destruct P3 as [P3 Q3].
  assert (W3 : usb_wf (u_core u3)).
  { destruct W2. split; rewrite ?P3, ?Q3, ?G; try (unfold u3; by destruct (0 <? r)); unfold HOST_BUF_SIZE, in_phase in *; try lia.
    rewrite <- P3. unfold u3. by destruct (0 <? r). }
  clearbody u3. destruct (_ && _ && _).
  - split; [by apply timer_mod_wf|]. eexists. split; [done|]. unfold HOST_RETRY_MS, HOST_RESTART_MS. lia.
  - split; [done|]. split; [done|]. unfold in_phase, setup_phase, HP_DEV_IN, HP_CFG_HDR_IN, HP_CFG_IN, HP_STR0_IN, HP_STRSER_IN, HP_POLL,
      HP_DEV_SETUP, HP_CFG_HDR_SETUP, HP_CFG_SETUP, HP_STR0_SETUP, HP_STRSER_SETUP in *. lia.
Qed.

Ltac phases :=
  unfold free_phase, in_phase, setup_phase, HP_IDLE, HP_RESET, HP_ENUMDONE, HP_DEV_SETUP, HP_DEV_IN, HP_DEV_STATUS, HP_ADDR_SETUP,
    HP_ADDR_STATUS, HP_CFG_HDR_SETUP, HP_CFG_HDR_IN, HP_CFG_HDR_STATUS, HP_CFG_SETUP, HP_CFG_IN, HP_CFG_STATUS, HP_SETCFG_SETUP,
    HP_SETCFG_STATUS, HP_CHARGE_SETUP, HP_CHARGE_STATUS, HP_STR0_SETUP, HP_STR0_IN, HP_STR0_STATUS, HP_STRSER_SETUP, HP_STRSER_IN,
    HP_STRSER_STATUS, HP_POLL, HP_DONE in *; lia.

Lemma tick_poll_ok now u : usb_wf (u_core u) -> usb_wf (u_core (tick_poll now u)) /\ rearmed now (u_core (tick_poll now u)).
Proof.
  intros W. unfold tick_poll. cbv zeta. set (u1 := tick_greet u).
  assert (W1 : usb_wf (u_core u1)).
  { unfold u1, tick_greet. destruct (us_host_greeted _); [done|]. set (ep := if _ =? 0 then _ else _).
    pose proof (xfer_wf ep 0 (zlen version_req) version_req u W) as X. destruct (synopsys_host_xfer _ _ _ _ _) as [[r b] u2]. cbn [snd] in X.
    destruct (0 <=? r); [|done]. destruct X. by split. }
  clearbody u1. set (ep := if _ =? 0 then _ else _). pose proof (xfer_wf ep 0 HOST_BUF_SIZE (us_host_buf (u_core u1)) u1 W1) as X.
  pose proof (xfer_buf ep 0 HOST_BUF_SIZE (us_host_buf (u_core u1)) u1) as B.
  destruct (synopsys_host_xfer _ _ _ _ _) as [[r b] u2]. cbn [fst snd] in *. split.
  - destruct X. split; try done. cbn. rewrite B. apply W1.
  - eexists. split; [done|]. unfold HOST_POLL_MS, HOST_RESTART_MS. lia.
Qed.

Lemma plain_xfer_between ep flags u ph : usb_wf (u_core u) -> us_host_phase (u_core u) = ph -> ph < HP_POLL -> ~ setup_phase ph ->
  match (let '(r, _, u) := synopsys_host_xfer ep flags 0 [] u in TResult r u) with
  | TReturn _ => False
  | TResult _ u' => between_phases ph (u_core u')
  end.
Proof.
  intros W Hp Hl Hs. pose proof (xfer_wf ep flags 0 [] u W) as X. pose proof (xfer_host ep flags 0 [] u) as H.
  destruct (synopsys_host_xfer _ _ _ _ _) as [[r b] u2]. cbn [snd] in *. unfold host_part in H. injection H as _ _ _ H _ _ _ _.
  apply (same_between (u_core u2)); [done|by rewrite H|done|done].
Qed.

Lemma tick_transaction_ok now u : usb_wf (u_core u) -> HP_IDLE < us_host_phase (u_core u) ->
  match tick_transaction now u with
  | TReturn u' => usb_wf (u_core u') /\ rearmed now (u_core u')
  | TResult _ u' => between_phases (us_host_phase (u_core u)) (u_core u')
  end.
Proof.
  intros W Hpos. pose proof (uw_phase _ W) as Hr. remember (us_host_phase (u_core u)) as ph eqn:Hph. symmetry in Hph.
  assert (SB : forall s, host_part s = host_part (u_core u) -> shape s = shape (u_core u) -> usb_wf s /\ us_host_phase s = ph /\ us_host_want s = us_host_want (u_core u)).
  { intros s H S. split; [by apply (usb_wf_eq (u_core u))|]. unfold host_part in H. injection H as _ _ _ H _ _ H' _. by rewrite H, H'. }
  assert (ST : forall type req val idx len after, (forall s, usb_wf s -> us_host_phase s = ph -> us_host_want s = us_host_want (u_core u) -> between_phases ph (after s)) ->
    match tick_setup type req val idx len after u with TReturn u' => usb_wf (u_core u') /\ rearmed now (u_core u') | TResult _ u' => between_phases ph (u_core u') end).
  { intros type req val idx len after H. pose proof (tick_setup_between type req val idx len after u ph Hph) as T.
    destruct (tick_setup _ _ _ _ _ _ _); [exfalso|]; apply T; intros s H1 H2; destruct (SB s H1 H2) as (? & ? & ?); by apply H. }
  assert (PX : forall ep flags, ph < HP_POLL -> ~ setup_phase ph ->
    match (let '(r, _, u) := synopsys_host_xfer ep flags 0 [] u in TResult r u) with
    | TReturn u' => usb_wf (u_core u') /\ rearmed now (u_core u') | TResult _ u' => between_phases ph (u_core u') end).
  { intros ep flags H1 H2. pose proof (plain_xfer_between ep flags u ph W Hph H1 H2) as T. by destruct (synopsys_host_xfer _ _ _ _ _) as [[r b] u2]. }
  unfold tick_transaction. cbv zeta. rewrite Hph.
  destruct (Z.eqb_spec ph HP_RESET) as [E|N1].
  { set (u0 := u <| u_core := _ |>). assert (W0 : usb_wf (u_core u0)) by (destruct W; by split). pose proof (xfer_wf 0 tcp_usb_reset 0 [] u0 W0) as X.
    destruct (synopsys_host_xfer _ _ _ _ _) as [[r b] u2]. split; [apply host_go_wf; [done|phases]|apply host_go_rearmed; unfold HOST_RESTART_MS; lia]. }
  destruct (Z.eqb_spec ph HP_ENUMDONE) as [E|N2].
  { pose proof (xfer_wf 0 tcp_usb_enumdone 0 [] u W) as X. destruct (synopsys_host_xfer _ _ _ _ _) as [[r b] u2].
    split; [apply host_go_wf; [done|phases]|apply host_go_rearmed; unfold HOST_RESTART_MS; lia]. }
  destruct (Z.eqb_spec ph HP_DEV_SETUP); [apply ST; intros; apply expect_between; [done|done|phases|unfold HOST_BUF_SIZE; lia]|].
  destruct (Z.eqb_spec ph HP_CFG_HDR_SETUP); [apply ST; intros; apply expect_between; [done|done|phases|unfold HOST_BUF_SIZE; lia]|].
  destruct (Z.eqb_spec ph HP_CFG_SETUP) as [E|].
  { pose proof (uw_cfg _ W) as Hc. rewrite Hph in Hc. specialize (Hc (or_intror E)). apply ST. intros s Ws Ps Qs.
    destruct Ws. split; [split|]; try done; cbn; rewrite ?Qs; unfold HOST_BUF_SIZE in *; [lia|]. split; [done|]. split; [phases|lia]. }
  destruct (Z.eqb_spec ph HP_ADDR_SETUP); [apply ST; intros; apply same_between; (done || phases)|].
  destruct (Z.eqb_spec ph HP_SETCFG_SETUP); [apply ST; intros; apply same_between; (done || phases)|].
  destruct (Z.eqb_spec ph HP_CHARGE_SETUP); [apply ST; intros; apply same_between; (done || phases)|].
  destruct (Z.eqb_spec ph HP_STR0_SETUP); [apply ST; intros; apply expect_between; [done|done|phases|unfold HOST_BUF_SIZE; lia]|].
  destruct (Z.eqb_spec ph HP_STRSER_SETUP); [apply ST; intros; apply expect_between; [done|done|phases|unfold HOST_BUF_SIZE; lia]|].
  destruct (Z.eqb_spec ph HP_POLL); [by apply tick_poll_ok|].
  destruct ((ph =? HP_DEV_IN) || _ || _ || _ || _) eqn:E1; [apply tick_in_between; [done|done|repeat rewrite orb_true_iff in E1; repeat rewrite Z.eqb_eq in E1; unfold in_phase; tauto]|].
  destruct ((ph =? HP_DEV_STATUS) || _ || _ || _ || _) eqn:E2.
  { repeat rewrite orb_true_iff in E2. repeat rewrite Z.eqb_eq in E2. apply PX; phases. }
  destruct ((ph =? HP_ADDR_STATUS) || _ || _) eqn:E3.
  { repeat rewrite orb_true_iff in E3. repeat rewrite Z.eqb_eq in E3. apply PX; phases. }
  exfalso. repeat rewrite orb_false_iff in *. repeat rewrite Z.eqb_neq in *. phases.
Qed.

Lemma has_mux_frame fuel d n : forall i in_mux found s,
  host_part (has_mux_loop fuel d n i in_mux found s).2 = host_part s /\ shape (has_mux_loop fuel d n i in_mux found s).2 = shape s.
Proof.
  induction fuel as [|fuel IH]; intros i in_mux found s; [done|]. cbn [has_mux_loop]. destruct (_ && _); [|done]. cbv zeta.
  destruct (_ && _); [apply IH|]. destruct (_ && _); [|apply IH]. set (s1 := if flagged _ _ then _ else _).
  destruct (IH (i + rd d i) in_mux found s1) as [-> ->]. unfold s1. by destruct (flagged _ _).
Qed.

Lemma next_wf now ph s : usb_wf s -> HP_IDLE < ph < HP_POLL ->
  (setup_phase ph -> us_host_got s <= us_host_want s <= HOST_BUF_SIZE) ->
  (ph = HP_CFG_HDR_IN \/ ph = HP_CFG_HDR_STATUS -> 0 <= us_host_want s <= HOST_BUF_SIZE) ->
  usb_wf (synopsys_host_go now (ph + 1) HOST_RETRY_MS s).
Proof.
  intros [W1 W2 W3 W4 W5 W6] Hp Hs Hc. split; try done; cbn.
  - phases.
  - intros Hi. apply Hs. phases.
  - intros Hi. apply Hc. phases.
Qed.

(** The phase that follows is one of the host's, with what it needs. *)
Lemma tick_advance_ok now ph s : between_phases ph s -> HP_IDLE < ph -> usb_wf (tick_advance now s) /\ rearmed now (tick_advance now s).
Proof.
  intros (W & Hp & Hl & Hs) H0. unfold tick_advance. cbv zeta. rewrite Hp.
  assert (R : forall s, usb_wf s -> usb_wf (synopsys_host_go now HP_RESET HOST_RESTART_MS s) /\ rearmed now (synopsys_host_go now HP_RESET HOST_RESTART_MS s)).
  { intros s' W'. split; [apply host_go_wf; [done|phases]|apply host_go_rearmed; unfold HOST_RESTART_MS; lia]. }
  assert (G : forall q ms s, usb_wf s -> free_phase q -> 0 < ms <= HOST_RESTART_MS -> usb_wf (synopsys_host_go now q ms s) /\ rearmed now (synopsys_host_go now q ms s)).
  { intros q ms s' W' Hq Hms. split; [by apply host_go_wf|by apply host_go_rearmed]. }
  assert (N : forall s, usb_wf s -> (setup_phase ph -> us_host_got s <= us_host_want s <= HOST_BUF_SIZE) ->
    (ph = HP_CFG_HDR_IN \/ ph = HP_CFG_HDR_STATUS -> 0 <= us_host_want s <= HOST_BUF_SIZE) ->
    usb_wf (synopsys_host_go now (ph + 1) HOST_RETRY_MS s) /\ rearmed now (synopsys_host_go now (ph + 1) HOST_RETRY_MS s)).
  { intros s' W' A1 A2. split; [apply next_wf; [done|lia|done|done]|apply host_go_rearmed; unfold HOST_RETRY_MS, HOST_RESTART_MS; lia]. }
  assert (M : forall d n, usb_wf (synopsys_host_cfg_has_mux d n s).2).
  { intros d n. destruct (has_mux_frame (Z.to_nat n) d n 0 false false s) as [E1 E2]. by apply (usb_wf_eq s). }
  assert (HS : HOST_RETRY_MS = 1 /\ HOST_RESTART_MS = 3000 /\ HOST_POLL_MS = 5) by done.
  destruct (Z.eqb_spec ph HP_DEV_IN).
  { destruct (_ || _); [by apply R|]. apply N; [destruct W; by split|phases|phases]. }
  destruct (Z.eqb_spec ph HP_CFG_HDR_IN).
  { set (s1 := s <| us_host_want := _ |>).
    destruct ((us_host_got s1 <? 9) || (us_host_want s1 <? 9) || (HOST_BUF_SIZE <? us_host_want s1)) eqn:E.
    - split; [|apply host_go_rearmed; lia]. destruct W. split; try done; cbn; phases.
    - apply orb_false_iff in E as [E E3]. apply orb_false_iff in E as [E1 E2]. apply Z.ltb_ge in E1, E2, E3.
      split; [|apply host_go_rearmed; lia]. destruct W. split; try done; cbn [synopsys_host_go timer_mod upd]; [cbn; phases| |]; intros; cbn in *; [phases|]. unfold HOST_BUF_SIZE in *. lia. }
  destruct (Z.eqb_spec ph HP_CFG_IN).
  { set (p := if us_host_cfg_value s <? 0 then _ else _). assert (Wp : usb_wf p.2) by (unfold p; destruct (_ <? _); [done|apply M]).
    destruct p as [take_it s1]. cbn [snd] in Wp. apply N; [|phases|phases]. destruct take_it; [|done]. destruct Wp. by split. }
  destruct (Z.eqb_spec ph HP_CFG_STATUS).
  { set (s1 := s <| us_host_cfg ::= _ |>). assert (W1 : usb_wf s1) by (destruct W; by split).
    destruct (us_host_cfg s1 <? us_host_ncfg s1); [|apply N; [done|phases|phases]].
    destruct (has_mux_frame (Z.to_nat (us_host_got s1)) (us_host_buf s) (us_host_got s1) 0 false false s1) as [E1 E2].
    assert (W2 : usb_wf (synopsys_host_cfg_has_mux (us_host_buf s) (us_host_got s1) s1).2) by (by apply (usb_wf_eq s1)).
    destruct (synopsys_host_cfg_has_mux _ _ _) as [found s2]. destruct found; [apply N; [done|phases|phases]|apply G; [done|phases|lia]]. }
  destruct (Z.eqb_spec ph HP_ADDR_STATUS); [apply G; [done|phases|lia]|].
  destruct (Z.eqb_spec ph HP_SETCFG_STATUS); [destruct (us_host_charge s); [apply N; [done|phases|phases]|apply G; [done|phases|lia]]|].
  destruct (Z.eqb_spec ph HP_STRSER_STATUS); [apply G; [done|phases|lia]|].
  apply N; [done|done|]. intros [Hx|Hx]; [done|]. apply W. rewrite Hp. by left.
Qed.

Lemma host_tick_wf now u : usb_wf (u_core u) ->
  usb_wf (u_core (synopsys_host_tick now u)) /\
  (us_builtin_host (u_core u) = true -> us_cable_attached (u_core u) = true -> us_host_phase (u_core u) <> HP_IDLE ->
   rearmed now (u_core (synopsys_host_tick now u))).
Proof.
  intros W. pose proof (uw_phase _ W) as Hr. unfold synopsys_host_tick. cbv zeta. destruct (us_builtin_host _), (us_cable_attached _); try done. cbn [negb orb].
  destruct (Z.eqb_spec (us_host_phase (u_core u)) HP_IDLE); [done|]. destruct (Z.eqb_spec (us_host_phase (u_core u)) HP_DONE); [phases|]. cbn [orb].
  assert (HS : HOST_RETRY_MS = 1 /\ HOST_RESTART_MS = 3000) by done.
  destruct (_ <? now); [split; [apply host_go_wf; [done|phases]|intros _ _ _; apply host_go_rearmed; lia]|].
  pose proof (tick_transaction_ok now u W ltac:(phases)) as T. destruct (tick_transaction now u) as [u1|r u1]; [by destruct T|].
  destruct (r =? USB_RET_NAK); [split; [apply timer_mod_wf, T|intros _ _ _; eexists; split; [done|lia]]|].
  destruct (r <? 0); [split; [apply host_go_wf; [apply T|phases]|intros _ _ _; apply host_go_rearmed; lia]|].
  destruct (tick_advance_ok now _ _ T ltac:(phases)) as [A B]. by split.
Qed.

(** ** The configuration that is chosen *)

(** Once a configuration was chosen, only one with the mux interface replaces it:
    without one, the first stays. *)
Lemma host_cfg_chosen now s : us_host_phase s = HP_CFG_IN ->
  us_host_cfg_value (tick_advance now s) =
  if us_host_cfg_value s <? 0 then rd (us_host_buf s) 5
  else if (synopsys_host_cfg_has_mux (us_host_buf s) (us_host_got s) s).1 then rd (us_host_buf s) 5 else us_host_cfg_value s.
Proof.
  intros Hp. unfold tick_advance. cbv zeta. rewrite Hp. cbn [Z.eqb HP_CFG_IN HP_DEV_IN HP_CFG_HDR_IN Pos.eqb].
  destruct (us_host_cfg_value s <? 0); [done|]. 
  assert (V : forall fuel d n i in_mux found s, us_host_cfg_value (has_mux_loop fuel d n i in_mux found s).2 = us_host_cfg_value s).
  { induction fuel as [|fuel IH]; intros; [done|]. cbn [has_mux_loop]. destruct (_ && _); [|done]. cbv zeta. destruct (_ && _); [apply IH|].
    destruct (_ && _); [|apply IH]. rewrite IH. by destruct (flagged _ _). }
  specialize (V (Z.to_nat (us_host_got s)) (us_host_buf s) (us_host_got s) 0 false false s).
  change (has_mux_loop _ _ _ _ _ _ _) with (synopsys_host_cfg_has_mux (us_host_buf s) (us_host_got s) s) in V.
  destruct (synopsys_host_cfg_has_mux _ _ _) as [found s1]. by destruct found.
Qed.

(** A device with one configuration: the endpoints of its mux interface are not
    looked up. *)
Lemma host_single_cfg now s : us_host_ncfg s <= us_host_cfg s + 1 ->
  us_host_phase s = HP_CFG_IN /\ us_host_cfg_value s < 0 \/ us_host_phase s = HP_CFG_STATUS ->
  us_host_ep_in (tick_advance now s) = us_host_ep_in s /\ us_host_ep_out (tick_advance now s) = us_host_ep_out s.
Proof.
  intros Hn H. unfold tick_advance. cbv zeta. destruct H as [[-> Hv]| ->].
  - cbn [Z.eqb HP_CFG_IN HP_DEV_IN HP_CFG_HDR_IN Pos.eqb]. by rewrite (proj2 (Z.ltb_lt _ _) Hv).
  - cbn [Z.eqb HP_CFG_STATUS HP_CFG_IN HP_DEV_IN HP_CFG_HDR_IN Pos.eqb].
    change (us_host_cfg (s <| us_host_cfg ::= _ |>)) with (us_host_cfg s + 1).
    change (us_host_ncfg (s <| us_host_cfg ::= _ |>)) with (us_host_ncfg s). by rewrite (proj2 (Z.ltb_ge _ _) Hn).
Qed.

(** ** The steps of the machine

    The controller with its link moves by accesses of the guest, by timers, by the
    cable and by its socket.  [usb_reachable_wf]: in every state it can reach the
    arrays have their sizes and the built-in host's transfer fits its buffer, and
    its timer keeps it going. *)

Section Steps.
Variable dial : bytes -> Z -> option Sock.
Variable env : option bytes.
Abbreviation Link := (End Usb).
Abbreviation core w := (u_core (e_dev w)).

(** A load replaces the registers and the arrays, not the host's part; the guest
    and its devices may change memory; a call of the socket's handler meets any
    outcomes of its system calls. *)
Inductive usb_step : Link -> Link -> Prop :=
| step_write now addr val w : usb_step w (synopsys_usb_write dial env now addr val w)
| step_host now w : usb_step w (w <| e_dev ::= synopsys_host_tick now |>)
| step_retry now w : usb_step w (synopsys_usb_tcp_retry_tick dial env now w)
| step_cable now b w : usb_step w (synopsys_usb_set_cable dial env now b w)
| step_phy b w : usb_step w (synopsys_usb_phy_reset b w)
| step_reset w : usb_step w (s5l8900_usb_otg_reset w)
| step_load now s w : shape s = shape (core w) -> host_part s = host_part (core w) ->
    usb_step w (synopsys_usb_post_load now (on_core (fun _ => s) w))
| step_memory m w : usb_step w (w <| e_dev ::= upd u_mem (fun _ => m) |>)
| step_socket can_read sched w :
    usb_step w (usb_socket_event can_read (w <| e_sock ::= fun k => mkSock (sk_in k) (sk_eof k) (sk_out k) sched |>)).

(** ** What keeps the invariant *)

Lemma irq_wf s : usb_wf s -> usb_wf (synopsys_usb_update_irq s).
Proof. apply usb_wf_eq; [apply host_part_irq|apply shape_irq]. Qed.

Lemma set_in_ep_wf i e s : usb_wf s -> usb_wf (set_in_ep i e s).
Proof. apply usb_wf_eq; [done|apply shape_set_in_ep]. Qed.

Lemma set_out_ep_wf i e s : usb_wf s -> usb_wf (set_out_ep i e s).
Proof. apply usb_wf_eq; [done|apply shape_set_out_ep]. Qed.

Hint Resolve irq_wf set_in_ep_wf set_out_ep_wf : usb.

(** An update of other fields. *)
Ltac other := match goal with W : usb_wf ?s |- usb_wf _ => apply (usb_wf_eq s); [reflexivity|reflexivity|exact W] end.

Lemma in_ep_write_wf ep off val s : usb_wf s -> usb_wf (synopsys_usb_in_ep_write ep off val s).
Proof. intros W. unfold synopsys_usb_in_ep_write. cbv zeta. repeat (destruct (_ =? _) || destruct (_ <=? _)); auto with usb. Qed.

Lemma out_ep_write_wf ep off val s : usb_wf s -> usb_wf (synopsys_usb_out_ep_write ep off val s).
Proof. intros W. unfold synopsys_usb_out_ep_write. cbv zeta. repeat (destruct (_ =? _) || destruct (_ <=? _)); auto with usb. Qed.

Lemma write_dctl_wf val s : usb_wf s -> usb_wf (write_dctl val s).
Proof.
  intros W. unfold write_dctl, global_nak. destruct (_ && _); destruct (_ && _); cbv zeta; destruct (flagged _ _); destruct (flagged _ _); apply irq_wf; other.
Qed.

Lemma write_core_wf addr val s : usb_wf s -> usb_wf (write_core addr val s).
Proof.
  intros W. unfold write_core. cbv zeta.
  repeat (destruct (addr =? _); [first [other | apply irq_wf; other | by apply write_dctl_wf]|]).
  destruct (between _ _ _); [apply (usb_wf_eq s); [done| |done]; unfold shape, wr, zlen; cbn; by rewrite length_insert|].
  destruct (between _ _ _); [by apply in_ep_write_wf|]. destruct (between _ _ _); [by apply out_ep_write_wf|].
  destruct (between _ _ _); [|done]. apply (usb_wf_eq s); [done| |done]. unfold shape. f_equal. exact (zlen_blit _ _ _).
Qed.

Lemma rearm_wf now ms s : usb_wf s -> usb_wf (synopsys_usb_host_rearm now ms s).
Proof.
  intros W. unfold synopsys_usb_host_rearm. destruct (us_host_timer s); [|done]. destruct (negb _); [done|]. destruct (negb _); [|apply host_go_wf; [done|phases]].
  destruct W. split; try done; cbn; phases.
Qed.

Lemma tcp_drop_wf (w : Link) : usb_wf (core w) -> usb_wf (core (tcp_drop w)).
Proof. intros W. unfold tcp_drop. destruct (us_tcp_connected _); [other|done]. Qed.

Lemma set_tcp_addr_wf spec s : usb_wf s -> usb_wf (synopsys_usb_set_tcp_addr spec s).
Proof.
  intros W. unfold synopsys_usb_set_tcp_addr. destruct spec as [[|c l]|]; [done| |done]. destruct (c =? 47); [other|].
  destruct (strrchr _ _); cbv zeta; other.
Qed.

Lemma tcp_start_wf (w : Link) : usb_wf (core w) -> usb_wf (core (synopsys_usb_tcp_start dial env w)).
Proof.
  intros W. unfold synopsys_usb_tcp_start. cbv zeta. destruct (_ || _); [done|]. set (w1 := match us_server_host (core w) with Some _ => w | None => on_core _ w end).
  assert (W1 : usb_wf (core w1)) by (unfold w1; destruct (us_server_host _); [done|by apply set_tcp_addr_wf]). clearbody w1.
  destruct (us_server_host _); [|done]. pose proof (tcp_drop_wf w1 W1) as W2. destruct (dial _ _); [|done].
  apply (usb_wf_eq (core (tcp_drop w1))); done.
Qed.

Lemma map_shape s f g : shape (s <| us_in_eps ::= map f |> <| us_out_eps ::= map g |>) = shape s.
Proof. unfold shape, zlen. cbn. by rewrite !length_map. Qed.

Lemma write_wf now addr val (w : Link) : usb_wf (core w) -> usb_wf (core (synopsys_usb_write dial env now addr val w)).
Proof.
  intros W. unfold synopsys_usb_write. destruct (addr =? GRSTCTL); [|by apply write_core_wf].
  destruct (flagged _ _); [|destruct (val =? 0); [other|done]]. unfold core_soft_reset. cbv zeta.
  set (w1 := on_core (upd us_grstctl _) w). assert (W1 : usb_wf (core w1)) by other.
  pose proof (tcp_start_wf w1 W1) as W2. set (w2 := synopsys_usb_tcp_start dial env w1) in *. clearbody w2.
  pose proof (rearm_wf now 2000 _ W2) as W3. set (w3 := on_core (synopsys_usb_host_rearm now 2000) w2).
  change (synopsys_usb_host_rearm now 2000 (core w2)) with (core w3) in W3. clearbody w3. apply irq_wf. other.
Qed.

Lemma usb_reset_wf (w : Link) : usb_wf (core w) -> usb_wf (core (s5l8900_usb_otg_reset w)).
Proof.
  intros W. unfold s5l8900_usb_otg_reset. apply irq_wf, tcp_drop_wf. apply (usb_wf_eq (core w)); [done| |done].
  change (core (on_core reset_core w)) with (reset_core (core w)). pose proof (uw_shape _ W) as S. rewrite S. unfold shape in S.
  injection S as S1 S2 S3 S4. unfold shape.
  assert (E1 : zlen (us_in_eps (reset_core (core w))) = 8) by (rewrite <- S1; unfold zlen; f_equal; exact (length_map _ _)).
  assert (E2 : zlen (us_out_eps (reset_core (core w))) = 8) by (rewrite <- S2; unfold zlen; f_equal; exact (length_map _ _)).
  rewrite E1, E2. change (zlen (us_fifos (reset_core (core w)))) with (zlen (us_fifos (core w))). by rewrite S4.
Qed.

Lemma usb_step_wf w w' : usb_step w w' -> usb_wf (core w) -> usb_wf (core w').
Proof.
  intros S W. destruct S as [now addr val w|now w|now w|now b w|b w|w|now s w Hs Hh|m w|can_read sched w].
  - by apply write_wf.
  - by apply host_tick_wf.
  - unfold synopsys_usb_tcp_retry_tick. set (w1 := if _ || _ then _ else _).
    assert (W1 : usb_wf (core w1)) by (unfold w1; destruct (_ || _); [by apply tcp_start_wf|done]). clearbody w1. unfold retry_timer_mod. other.
  - unfold synopsys_usb_set_cable. cbv zeta. apply rearm_wf. set (w1 := on_core (upd us_cable_attached _) w).
    assert (W1 : usb_wf (core w1)) by (destruct W; by split). destruct b; [by apply tcp_start_wf|by apply tcp_drop_wf].
  - unfold synopsys_usb_phy_reset. other.
  - by apply usb_reset_wf.
  - assert (W1 : usb_wf (core (on_core (fun _ => s) w))) by (by apply (usb_wf_eq (core w))). set (w1 := on_core _ w) in *. clearbody w1.
    pose proof (tcp_drop_wf w1 W1) as W2. unfold synopsys_usb_post_load. apply irq_wf. set (w2 := tcp_drop w1) in *. clearbody w2.
    apply (usb_wf_eq (core w2)); [done| |done]. unfold shape, zlen. cbn. by rewrite length_map.
  - exact W.
  - unfold usb_socket_event. apply (tcp_usb_callback_keeps _ _ (fun d => usb_wf (u_core d))); [by intros; apply callback_wf|done|exact W].
Qed.

(** A controller that a machine has made and realized. *)
Definition usb_realized (hw1 hw2 hw3 hw4 : Z) (builtin charge withhold : bool) (host : option bytes) (port now : Z) (mem : Z -> Z) : Link :=
  s5l8900_usb_otg_realize dial env now
    (mkEnd (tcp_usb_init tcp_usb_zero) (mkSock [] false [] [])
       (mkUsb ((ipod_touch_init_usb_otg hw1 hw2 hw3 hw4) <| us_builtin_host := builtin |> <| us_host_charge := charge |>
                 <| us_withhold_charge := withhold |> <| us_server_host := host |> <| us_server_port := port |>) mem)).

Lemma realized_wf hw1 hw2 hw3 hw4 builtin charge withhold host port now mem :
  usb_wf (core (usb_realized hw1 hw2 hw3 hw4 builtin charge withhold host port now mem)).
Proof.
  unfold usb_realized, s5l8900_usb_otg_realize. cbv zeta. apply rearm_wf. set (w0 := mkEnd _ _ _).
  assert (W0 : usb_wf (core w0)) by (split; try done; cbn; phases). pose proof (tcp_start_wf w0 W0) as W1.
  set (w1 := synopsys_usb_tcp_start dial env w0) in *. clearbody w1. clear W0 w0. destruct W1. by split.
Qed.

(** C28. In every state that a realized controller reaches, by any accesses of the
    guest, timers, changes of the cable, resets, loads and traffic of the socket,
    the arrays of the core have their sizes; a chunk that the built-in host asks
    for fits what is left of its buffer of 1024 bytes; and while the built-in host
    is at work, a tick arms its timer again, at most three seconds later. *)
Theorem usb_reachable_wf hw1 hw2 hw3 hw4 builtin charge withhold host port t0 mem w :
  rtc usb_step (usb_realized hw1 hw2 hw3 hw4 builtin charge withhold host port t0 mem) w ->
  let s := core w in
  shape s = (8, 8, 16, 4352) /\
  (in_phase (us_host_phase s) -> 0 <= us_host_want s - us_host_got s <= zlen (zdrop (us_host_got s) (us_host_buf s))) /\
  (us_builtin_host s = true -> us_cable_attached s = true -> us_host_phase s <> HP_IDLE ->
   forall now, rearmed now (u_core (synopsys_host_tick now (e_dev w)))).
Proof.
  intros R. cbv zeta. assert (W : usb_wf (core w)).
  { pose proof (realized_wf hw1 hw2 hw3 hw4 builtin charge withhold host port t0 mem) as W0.
    set (w0 := usb_realized _ _ _ _ _ _ _ _ _ _ _) in *. clearbody w0. induction R as [|w1 w2 w3 S _ IH]; [done|]. by apply IH, (usb_step_wf w1). }
  split; [apply W|]. split.
  - intros Hi. pose proof (uw_in _ W Hi). pose proof (uw_got _ W). pose proof (uw_buf _ W) as Hb. unfold HOST_BUF_SIZE in *.
    rewrite zlen_zdrop, Hb. lia.
  - intros H1 H2 H3 now. by apply host_tick_wf.
Qed.

End Steps.

(** A built-in host, two ticks after its timer first fires. *)
Lemma usb_reachable_wf_witness :
  let w0 := usb_realized (fun _ _ => None) None 0 0 0 0 true false false None 0 0 example_mem in
  let w := w0 <| e_dev ::= synopsys_host_tick 2000 |> <| e_dev ::= synopsys_host_tick 2500 |> in
  us_host_phase (u_core (e_dev w)) = HP_DEV_SETUP /\ shape (u_core (e_dev w)) = (8, 8, 16, 4352).
Proof.
  cbv zeta. split; [vm_compute; reflexivity|]. apply (usb_reachable_wf (fun _ _ => None) None 0 0 0 0 true false false None 0 0 example_mem).
  eapply rtc_l; [apply step_host|]. eapply rtc_l; [apply step_host|]. apply rtc_refl.
Defined.
