(* ===== verification/UsbIrq.v ===== *)
(** * USB device controller: the interrupt tree

    [usb_line_settled]: the interrupt registers and the line are what the
    endpoints and the masks say after every access of the guest but a write to an
    endpoint's control register, and [usb_disable_unseen] what such a write
    leaves behind. *)

From Stdlib Require Import ZArith Lia.
From stdpp Require Import base numbers list.
From S2P Require Import Prelude CLib HwLib TcpUsb UsbCore UsbFacts UsbHost UsbRegs.
Local Open Scope Z_scope.

(** ** What the registers should be *)

Definition in_pending (s : synopsys_usb_state) (i : Z) : bool := flagged (ue_interrupt_status (in_ep s i)) (us_diepmsk s).
Definition out_pending (s : synopsys_usb_state) (i : Z) : bool := flagged (ue_interrupt_status (out_ep s i)) (us_doepmsk s).

Definition in_bit (i : Z) : Z := Z.shiftl 1 (i + DAINT_IN_SHIFT).
Definition out_bit (i : Z) : Z := Z.shiftl 1 (i + DAINT_OUT_SHIFT).

(** All endpoints with an unmasked interrupt. *)
Definition daint (eps : list Z) (s : synopsys_usb_state) : Z :=
  foldr (fun i v => Z.lor (Z.lor (if out_pending s i then out_bit i else 0) (if in_pending s i then in_bit i else 0)) v) 0 eps.

(** The two bits for endpoints that are not masked either. *)
Definition ep_bits (eps : list Z) (s : synopsys_usb_state) : Z :=
  Z.lor (if existsb (fun i => out_pending s i && flagged (us_daintmsk s) (out_bit i)) eps then GINTMSK_OEP else 0)
        (if existsb (fun i => in_pending s i && flagged (us_daintmsk s) (in_bit i)) eps then GINTMSK_INEP else 0).

Abbreviation endpoints := (seqZ 0 USB_NUM_ENDPOINTS).
Definition tree_bits (s : synopsys_usb_state) : Z := Z.lor (if us_gotgint s =? 0 then 0 else GINTMSK_OTG) (ep_bits endpoints s).

Definition settled (s : synopsys_usb_state) : Prop :=
  us_daintsts s = daint endpoints s /\ Z.land (us_gintsts s) tree_mask = tree_bits s /\ us_irq s = irq_level s.

(** ** An update settles them *)

Lemma same_view_inputs s s' : same_view s s' -> forall i,
  in_pending s' i = in_pending s i /\ out_pending s' i = out_pending s i /\ us_daintmsk s' = us_daintmsk s /\ us_gotgint s' = us_gotgint s.
Proof. intros E i. by rewrite E. Qed.

Lemma same_view_bits eps s s' : same_view s s' -> daint eps s' = daint eps s /\ ep_bits eps s' = ep_bits eps s.
Proof. intros E. by rewrite E. Qed.

Lemma if_lor (b : bool) (x y : Z) : (if b then Z.lor x y else x) = Z.lor x (if b then y else 0).
Proof. destruct b; [done|]. by rewrite Z.lor_0_r. Qed.

Lemma ep_irq_bits s i :
  us_daintsts (ep_irq s i) = Z.lor (us_daintsts s) (Z.lor (if out_pending s i then out_bit i else 0) (if in_pending s i then in_bit i else 0)) /\
  us_gintsts (ep_irq s i) = Z.lor (us_gintsts s) (ep_bits [i] s).
Proof.
  unfold ep_irq, ep_bits, out_pending, in_pending, out_bit, in_bit. cbv zeta. cbn [existsb]. rewrite !orb_false_r.
  destruct (flagged (ue_interrupt_status (out_ep s i)) (us_doepmsk s)); cbn [andb].
  - set (s1 := if flagged (us_daintmsk _) _ then _ else _).
    assert (V : same_view s s1 /\ us_daintsts s1 = Z.lor (us_daintsts s) (Z.shiftl 1 (i + DAINT_OUT_SHIFT)) /\
      us_gintsts s1 = Z.lor (us_gintsts s) (if flagged (us_daintmsk s) (Z.shiftl 1 (i + DAINT_OUT_SHIFT)) then GINTMSK_OEP else 0)).
    { unfold s1. change (us_daintmsk (s <| us_daintsts ::= _ |>)) with (us_daintmsk s).
      destruct (flagged (us_daintmsk s) _); (split; [done|]); (split; [done|]); [done|]. symmetry. apply Z.lor_0_r. }
    destruct V as (V & Vd & Vg). clearbody s1. destruct (same_view_inputs _ _ V i) as (_ & _ & Vm & _). unfold in_pending in *.
    replace (flagged (ue_interrupt_status (in_ep s1 i)) (us_diepmsk s1)) with (flagged (ue_interrupt_status (in_ep s i)) (us_diepmsk s)) by (by rewrite V).
    destruct (flagged (ue_interrupt_status (in_ep s i)) (us_diepmsk s)); cbn [andb].
    + change (us_daintmsk (s1 <| us_daintsts ::= _ |>)) with (us_daintmsk s1). rewrite Vm.
      destruct (flagged (us_daintmsk s) (Z.shiftl 1 (i + DAINT_IN_SHIFT))); cbn; rewrite ?Vd, ?Vg, ?Z.lor_0_r, ?Z.lor_assoc; done.
    + rewrite Vd, Vg, !Z.lor_0_r. done.
  - destruct (flagged (ue_interrupt_status (in_ep s i)) (us_diepmsk s)); cbn [andb].
    + change (us_daintmsk (s <| us_daintsts ::= _ |>)) with (us_daintmsk s).
      destruct (flagged (us_daintmsk s) (Z.shiftl 1 (i + DAINT_IN_SHIFT))); cbn; rewrite ?Z.lor_0_r; done.
    + by rewrite !Z.lor_0_r.
Qed.

Lemma ep_bits_cons i eps s : ep_bits (i :: eps) s = Z.lor (ep_bits [i] s) (ep_bits eps s).
Proof.
  unfold ep_bits. cbn [existsb]. rewrite !orb_false_r.
  set (a := out_pending s i && _). set (b := in_pending s i && _). set (x := existsb _ eps). set (y := existsb _ eps). by destruct a, b, x, y.
Qed.

Lemma daint_cons i eps s :
  daint (i :: eps) s = Z.lor (Z.lor (if out_pending s i then out_bit i else 0) (if in_pending s i then in_bit i else 0)) (daint eps s).
Proof. done. Qed.

Lemma ep_irqs_bits eps s :
  us_daintsts (fold_left ep_irq eps s) = Z.lor (us_daintsts s) (daint eps s) /\
  us_gintsts (fold_left ep_irq eps s) = Z.lor (us_gintsts s) (ep_bits eps s).
Proof.
  revert s. induction eps as [|i eps IH]; intros s; [cbn; by rewrite !Z.lor_0_r|]. cbn [fold_left].
  destruct (IH (ep_irq s i)) as [-> ->]. destruct (same_view_bits eps _ _ (ep_irq_frame s i)) as [-> ->].
  destruct (ep_irq_bits s i) as [-> ->]. rewrite (ep_bits_cons i eps), daint_cons. by rewrite !Z.lor_assoc.
Qed.

Lemma tree_bits_masked s : Z.land (tree_bits s) tree_mask = tree_bits s.
Proof.
  unfold tree_bits, ep_bits. destruct (us_gotgint s =? 0); set (x := existsb _ endpoints); set (y := existsb _ endpoints); by destruct x, y.
Qed.

Lemma irq_start_bits s : same_view s (irq_start s) /\ us_daintsts (irq_start s) = 0 /\
  us_gintsts (irq_start s) = Z.lor (clear (us_gintsts s) tree_mask) (if us_gotgint s =? 0 then 0 else GINTMSK_OTG).
Proof.
  unfold irq_start. cbv zeta. change (us_gotgint (s <| us_daintsts := 0 |> <| us_gintsts ::= _ |>)) with (us_gotgint s).
  destruct (us_gotgint s =? 0); (split; [done|]); (split; [done|]); [|done]. symmetry. apply Z.lor_0_r.
Qed.

Lemma update_irq_eq s :
  synopsys_usb_update_irq s = (fold_left ep_irq endpoints (irq_start s)) <| us_irq := irq_level (fold_left ep_irq endpoints (irq_start s)) |>.
Proof. reflexivity. Qed.

Lemma update_irq_bits s :
  us_daintsts (synopsys_usb_update_irq s) = daint endpoints s /\
  us_gintsts (synopsys_usb_update_irq s) = Z.lor (clear (us_gintsts s) tree_mask) (tree_bits s) /\
  us_irq (synopsys_usb_update_irq s) = irq_level (synopsys_usb_update_irq s).
Proof.
  rewrite update_irq_eq. destruct (irq_start_bits s) as (V & Vd & Vg). destruct (ep_irqs_bits endpoints (irq_start s)) as [Fd Fg].
  destruct (same_view_bits endpoints _ _ V) as [Bd Bg]. rewrite Vd, Bd in Fd. rewrite Vg, Bg in Fg.
  generalize dependent (fold_left ep_irq endpoints (irq_start s)). intros s2 Fd Fg. split; [exact Fd|]. split; [|done].
  transitivity (us_gintsts s2); [done|]. rewrite Fg. unfold tree_bits. by rewrite Z.lor_assoc.
Qed.

Lemma usb_irq_settled s : settled (synopsys_usb_update_irq s).
Proof.
  destruct (update_irq_bits s) as (D & G & L). pose proof (update_irq_frame s) as V.
  destruct (same_view_bits endpoints _ _ V) as [Bd Bg]. split; [by rewrite D, Bd|]. split; [|done].
  assert (T : tree_bits (synopsys_usb_update_irq s) = tree_bits s).
  { unfold tree_bits. destruct (same_view_inputs _ _ V 0) as (_ & _ & _ & ->). by rewrite Bg. }
  rewrite T, G, Z.land_lor_distr_l, tree_bits_masked. unfold clear. by rewrite Z.land_ldiff.
Qed.

(** ** Accesses of the guest *)

(** Endpoints with the same interrupts. *)
Definition same_ints (s s' : synopsys_usb_state) : Prop :=
  (forall i, ue_interrupt_status (in_ep s' i) = ue_interrupt_status (in_ep s i)) /\
  (forall i, ue_interrupt_status (out_ep s' i) = ue_interrupt_status (out_ep s i)).

Definition other_inputs (s : synopsys_usb_state) :=
  (us_daintsts s, us_gintsts s, us_irq s, us_gotgint s, us_gahbcfg s, us_gintmsk s, us_daintmsk s, us_diepmsk s, us_doepmsk s).

Lemma settled_eq s s' : other_inputs s' = other_inputs s -> same_ints s s' -> settled s -> settled s'.
Proof.
  unfold other_inputs. intros [= E1 E2 E3 E4 E5 E6 E7 E8 E9] [Hi Ho] (D & G & L).
  assert (P : forall i, in_pending s' i = in_pending s i /\ out_pending s' i = out_pending s i).
  { intros i. unfold in_pending, out_pending. by rewrite Hi, Ho, E8, E9. }
  assert (B : forall eps, daint eps s' = daint eps s /\ ep_bits eps s' = ep_bits eps s).
  { intros eps. induction eps as [|i eps [IHd IHb]]; [done|]. rewrite ep_bits_cons, (ep_bits_cons i eps s), IHb, !daint_cons, IHd.
    destruct (P i) as [Pi Po]. unfold ep_bits. cbn [existsb]. by rewrite Pi, Po, E7. }
  destruct (B endpoints) as [Bd Bg]. split; [by rewrite E1, Bd|]. split; [unfold tree_bits; by rewrite E2, E4, Bg|].
  unfold irq_level in *. by rewrite E3, E5, E6, E2.
Qed.

Lemma set_in_ep_ints i e s : ue_interrupt_status e = ue_interrupt_status (in_ep s i) -> same_ints s (set_in_ep i e s).
Proof.
  intros H. split; [|done]. intros j. unfold in_ep, set_in_ep, wr in *. cbn. destruct (decide (Z.to_nat i = Z.to_nat j)) as [E|E].
  - rewrite <- E. destruct (decide (Z.to_nat i < length (us_in_eps s))%nat); [by rewrite list_lookup_insert_eq|]. by rewrite list_insert_ge by lia.
  - by rewrite list_lookup_insert_ne.
Qed.

Lemma set_out_ep_ints i e s : ue_interrupt_status e = ue_interrupt_status (out_ep s i) -> same_ints s (set_out_ep i e s).
Proof.
  intros H. split; [done|]. intros j. unfold out_ep, set_out_ep, wr in *. cbn. destruct (decide (Z.to_nat i = Z.to_nat j)) as [E|E].
  - rewrite <- E. destruct (decide (Z.to_nat i < length (us_out_eps s))%nat); [by rewrite list_lookup_insert_eq|]. by rewrite list_insert_ge by lia.
  - by rewrite list_lookup_insert_ne.
Qed.

(** A control register of an endpoint *)
Definition ep_control (addr : Z) : bool :=
  (between USB_INREGS (USB_INREGS + USB_EPREGS_SIZE - 4) addr && (Z.land (addr - USB_INREGS) 0x1f =? 0)) ||
  (between USB_OUTREGS (USB_OUTREGS + USB_EPREGS_SIZE - 4) addr && (Z.land (addr - USB_OUTREGS) 0x1f =? 0)).

Lemma in_ep_write_settled ep off val s : off <> 0 -> settled s -> settled (synopsys_usb_in_ep_write ep off val s).
Proof.
  intros Ho S. unfold synopsys_usb_in_ep_write. cbv zeta. destruct (_ <=? _); [done|]. rewrite (proj2 (Z.eqb_neq off 0x00)) by done.
  destruct (off =? 0x08); [apply usb_irq_settled|].
  repeat (destruct (off =? _); [apply (settled_eq s); [done|by apply set_in_ep_ints|done]|]). done.
Qed.

Lemma out_ep_write_settled ep off val s : off <> 0 -> settled s -> settled (synopsys_usb_out_ep_write ep off val s).
Proof.
  intros Ho S. unfold synopsys_usb_out_ep_write. cbv zeta. destruct (_ <=? _); [done|]. rewrite (proj2 (Z.eqb_neq off 0x00)) by done.
  destruct (off =? 0x08); [apply usb_irq_settled|].
  repeat (destruct (off =? _); [apply (settled_eq s); [done|by apply set_out_ep_ints|done]|]). done.
Qed.

Lemma write_dctl_settled val s : settled (write_dctl val s).
Proof. unfold write_dctl. destruct (global_nak _ _ _ _) as [v1 s1]. destruct (global_nak _ _ _ _) as [v2 s2]. apply usb_irq_settled. Qed.

Lemma write_core_settled addr val s : ep_control addr = false -> settled s -> settled (write_core addr val s).
Proof.
  intros He S. unfold write_core. cbv zeta. unfold ep_control in He. apply orb_false_iff in He as [Hi Ho].
  repeat (destruct (addr =? _); [first [apply usb_irq_settled | apply write_dctl_settled | by apply (settled_eq s)]|]).
  destruct (between (DIEPTXF 1) _ _); [by apply (settled_eq s)|].
  destruct (between USB_INREGS _ _); [apply in_ep_write_settled; [by apply Z.eqb_neq|done]|].
  destruct (between USB_OUTREGS _ _); [apply out_ep_write_settled; [by apply Z.eqb_neq|done]|].
  destruct (between _ _ _); [by apply (settled_eq s)|done].
Qed.

(** A write of the guest to any register but an endpoint's control register,
    core soft reset with its dial of the host included, leaves the interrupt
    registers and the line as the endpoints' interrupts and the masks say: the
    endpoint summary, the three derived bits of the core's status and the level of
    the line. *)
Theorem usb_line_settled dial env now addr val (w : End Usb) : ep_control addr = false -> settled (u_core (e_dev w)) ->
  settled (u_core (e_dev (synopsys_usb_write dial env now addr val w))).
Proof.
  intros He S. unfold synopsys_usb_write. destruct (addr =? GRSTCTL); [|by apply write_core_settled].
  destruct (flagged _ _); [apply usb_irq_settled|]. destruct (val =? 0); [by apply (settled_eq (u_core (e_dev w)))|done].
Qed.

Definition example_link : End Usb := s5l8900_usb_otg_reset (mkEnd (tcp_usb_init tcp_usb_zero) (mkSock [] false [] []) example_in).

Lemma usb_line_settled_witness :
  us_irq (u_core (e_dev (synopsys_usb_write (fun _ _ => None) None 0 GAHBCFG 1
    (synopsys_usb_write (fun _ _ => None) None 0 GINTMSK 0x10000000 example_link)))) = true.
Proof.
  pose proof (usb_line_settled (fun _ _ => None) None 0 GAHBCFG 1
    (synopsys_usb_write (fun _ _ => None) None 0 GINTMSK 0x10000000 example_link) eq_refl) as H.
  destruct H as (_ & _ & ->); [apply (write_core_settled GINTMSK); [done|]; apply usb_irq_settled|]. vm_compute. reflexivity.
Defined.

Lemma flagged_common a b k : 0 <= k -> Z.testbit a k = true -> Z.testbit b k = true -> flagged a b = true.
Proof.
  intros Hk Ha Hb. apply negb_true_iff, Z.eqb_neq. intros E. apply (f_equal (fun z => Z.testbit z k)) in E.
  by rewrite Z.land_spec, Ha, Hb, Z.bits_0 in E.
Qed.

Lemma flagged_lor_l v m k : flagged v k = true -> flagged (Z.lor v m) k = true.
Proof.
  unfold flagged. rewrite !negb_true_iff, !Z.eqb_neq, Z.land_lor_distr_l. intros H E. apply H. apply Z.lor_eq_0_iff in E. by destruct E.
Qed.

Lemma update_in_ep_disable e : flagged (ue_control e) USB_EPCON_DISABLE = true ->
  flagged (ue_interrupt_status (synopsys_usb_update_in_ep e)) USB_EPINT_EPDisbld = true.
Proof.
  intros H. unfold synopsys_usb_update_in_ep. set (e1 := if flagged (ue_control e) USB_EPCON_CLEARNAK then _ else _).
  assert (H1 : flagged (ue_control e1) USB_EPCON_DISABLE = true).
  { unfold e1. destruct (flagged (ue_control e) USB_EPCON_CLEARNAK); [|done]. cbn. by rewrite flagged_clear. }
  clearbody e1. unfold synopsys_usb_update_ep. cbv zeta. set (e2 := if flagged (ue_control e1) USB_EPCON_SETNAK then _ else _).
  assert (H2 : flagged (ue_control e2) USB_EPCON_DISABLE = true).
  { unfold e2. destruct (flagged (ue_control e1) USB_EPCON_SETNAK); [|done]. cbn. rewrite flagged_clear by done. by apply flagged_lor_l. }
  clearbody e2. rewrite H2. by apply flagged_set.
Qed.

(** A write that disables an IN endpoint sets its interrupt, which the mask lets
    through, and leaves the summary, the status and the line as they were; the
    interrupt shows at the next update. *)
Theorem usb_disable_unseen ep val s : 0 <= ep < 8 -> zlen (us_in_eps s) = 8 ->
  flagged val USB_EPCON_DISABLE = true -> flagged (us_diepmsk s) USB_EPINT_EPDisbld = true ->
  let s' := synopsys_usb_in_ep_write ep 0x00 val s in
  in_pending s' ep = true /\ us_daintsts s' = us_daintsts s /\ us_gintsts s' = us_gintsts s /\ us_irq s' = us_irq s /\
  (flagged (us_daintmsk s) (in_bit ep) = true -> flagged (us_gintmsk s) GINTMSK_INEP = true -> flagged (us_gahbcfg s) GAHBCFG_MASKINT = true ->
   us_irq (synopsys_usb_update_irq s') = true).
Proof.
  intros He Hl Hv Hm. cbv zeta. unfold synopsys_usb_in_ep_write. cbv zeta.
  rewrite (proj2 (Z.leb_gt _ _)) by (unfold USB_NUM_ENDPOINTS; lia). cbn [Z.eqb].
  set (e' := synopsys_usb_update_in_ep _). assert (D : flagged (ue_interrupt_status e') USB_EPINT_EPDisbld = true).
  { apply update_in_ep_disable. cbn. apply flagged_lor_l. by rewrite flagged_clear. }
  clearbody e'. set (s' := set_in_ep ep e' s). assert (P : in_pending s' ep = true).
  { unfold in_pending, s'. rewrite in_set_in_ep by lia. change USB_EPINT_EPDisbld with (2 ^ 1) in *. rewrite flagged_bit in D, Hm by lia.
    apply (flagged_common _ _ 1); [lia|done|done]. }
  split; [done|]. split; [done|]. split; [done|]. split; [done|]. intros Ha Hg Hb. destruct (update_irq_bits s') as (_ & G & ->). unfold irq_level.
  replace (us_gahbcfg (synopsys_usb_update_irq s')) with (us_gahbcfg s) by (by rewrite (update_irq_frame s')).
  replace (us_gintmsk (synopsys_usb_update_irq s')) with (us_gintmsk s) by (by rewrite (update_irq_frame s')). rewrite Hb, G.
  assert (X : existsb (fun i => in_pending s' i && flagged (us_daintmsk s') (in_bit i)) endpoints = true).
  { apply existsb_exists. exists ep. split; [|by rewrite P]. apply list_elem_of_In, elem_of_seqZ. unfold USB_NUM_ENDPOINTS. lia. }
  unfold tree_bits, ep_bits. rewrite X. change GINTMSK_INEP with (2 ^ 18) in *. rewrite flagged_bit in Hg by lia.
  apply (flagged_common _ _ 18); [lia|done|]. by rewrite !Z.lor_spec, !orb_true_r.
Qed.
