(* ===== verification/Sha1.v ===== *)
(** * The SHA-1 engine of the S5L8720

    [src/include/hw/arm/sha1_compress.h] and [src/hw/arm/ipod_touch_sha1.c].
    The engine compresses blocks from its own buffer or from guest memory into
    a chaining state that the guest loads and reads; padding is the guest's. *)

From Stdlib Require Import ZArith Lia.
From stdpp Require Import base numbers list.
From S2P Require Import Prelude CLib HwLib.
Local Open Scope Z_scope.

(** ** [sha1_compress] *)

Definition SHA1_ROTL (x n : Z) : Z := Z.lor (u32 (Z.shiftl x n)) (Z.shiftr x (32 - n)).

(** [w[i]] from the entries before it. *)
Definition sha1_extend (w : list Z) (i : Z) : list Z :=
  w ++ [SHA1_ROTL (Z.lxor (Z.lxor (Z.lxor (rd w (i - 3)) (rd w (i - 8))) (rd w (i - 14))) (rd w (i - 16))) 1].

Definition sha1_schedule (block : bytes) : list Z :=
  let w := (fun i => ld_be32 block (4 * i)) <$> seqZ 0 16 in
  fold_left sha1_extend (seqZ 16 64) w.

Definition sha1_vars : Type := Z * Z * Z * Z * Z.

Definition sha1_round (w : list Z) (v : sha1_vars) (i : Z) : sha1_vars :=
  let '(a, b, c, d, e) := v in
  let '(f, k) :=
    if i <? 20 then (Z.lor (Z.land b c) (Z.land (not32 b) d), 0x5A827999)
    else if i <? 40 then (Z.lxor (Z.lxor b c) d, 0x6ED9EBA1)
    else if i <? 60 then (Z.lor (Z.lor (Z.land b c) (Z.land b d)) (Z.land c d), 0x8F1BBCDC)
    else (Z.lxor (Z.lxor b c) d, 0xCA62C1D6) in
  let t := u32 (SHA1_ROTL a 5 + f + e + k + rd w i) in
  (t, a, SHA1_ROTL b 30, c, d).

Definition sha1_compress (h : list Z) (block : bytes) : list Z :=
  let w := sha1_schedule block in
  let '(a, b, c, d, e) :=
    fold_left (sha1_round w) (seqZ 0 80) (rd h 0, rd h 1, rd h 2, rd h 3, rd h 4) in
  [u32 (rd h 0 + a); u32 (rd h 1 + b); u32 (rd h 2 + c); u32 (rd h 3 + d); u32 (rd h 4 + e)].

#[global] Arguments sha1_compress : simpl never.

(** ** The engine *)

Definition IT_SHA1_DMA_CHUNK : Z := 64 * 1024.
Definition IT_SHA1_MAX_JOB : Z := 512 * 1024 * 1024.

Definition SHA_CONFIG : Z := 0x0.
Definition SHA_RESET : Z := 0x4.
Definition SHA_INTSTATUS : Z := 0x8.
Definition SHA_INTENABLE : Z := 0xc.
Definition SHA_HASHOUT : Z := 0x20.
Definition SHA_HASHOUT_END : Z := 0x30.
Definition SHA_HWBUF : Z := 0x40.
Definition SHA_HWBUF_END : Z := 0x7c.
Definition SHA_MEMORY_MODE : Z := 0x80.
Definition SHA_MEMORY_START : Z := 0x84.
Definition SHA_INSIZE : Z := 0x8c.

Definition sha1_iv : list Z := [0x67452301; 0xefcdab89; 0x98badcfe; 0x10325476; 0xc3d2e1f0].

(** [struct IPodTouchSHA1State]; [sh_irq] is the level of the interrupt line. *)
Record IPodTouchSHA1State := mkSha1 {
  sh_last_hash : bytes;
  sh_last_hash_valid : bool;
  sh_config : Z;
  sh_memory_start : Z;
  sh_memory_mode : Z;
  sh_insize : Z;
  sh_state : list Z;
  sh_hw_buffer : list Z;
  sh_hw_buffer_dirty : bool;
  sh_int_enable : Z;
  sh_int_status : Z;
  sh_irq : bool
}.

Definition eta_sha1 (r : IPodTouchSHA1State) : IPodTouchSHA1State :=
  mkSha1 (sh_last_hash r) (sh_last_hash_valid r) (sh_config r) (sh_memory_start r) (sh_memory_mode r) (sh_insize r)
    (sh_state r) (sh_hw_buffer r) (sh_hw_buffer_dirty r) (sh_int_enable r) (sh_int_status r) (sh_irq r).
#[export] Instance upd_sh_last_hash : Upd sh_last_hash := ltac:(derive_upd eta_sha1 sh_last_hash).
#[export] Instance upd_sh_last_hash_valid : Upd sh_last_hash_valid := ltac:(derive_upd eta_sha1 sh_last_hash_valid).
#[export] Instance upd_sh_config : Upd sh_config := ltac:(derive_upd eta_sha1 sh_config).
#[export] Instance upd_sh_memory_start : Upd sh_memory_start := ltac:(derive_upd eta_sha1 sh_memory_start).
#[export] Instance upd_sh_memory_mode : Upd sh_memory_mode := ltac:(derive_upd eta_sha1 sh_memory_mode).
#[export] Instance upd_sh_insize : Upd sh_insize := ltac:(derive_upd eta_sha1 sh_insize).
#[export] Instance upd_sh_state : Upd sh_state := ltac:(derive_upd eta_sha1 sh_state).
#[export] Instance upd_sh_hw_buffer : Upd sh_hw_buffer := ltac:(derive_upd eta_sha1 sh_hw_buffer).
#[export] Instance upd_sh_hw_buffer_dirty : Upd sh_hw_buffer_dirty := ltac:(derive_upd eta_sha1 sh_hw_buffer_dirty).
#[export] Instance upd_sh_int_enable : Upd sh_int_enable := ltac:(derive_upd eta_sha1 sh_int_enable).
#[export] Instance upd_sh_int_status : Upd sh_int_status := ltac:(derive_upd eta_sha1 sh_int_status).
#[export] Instance upd_sh_irq : Upd sh_irq := ltac:(derive_upd eta_sha1 sh_irq).

(** What [g_new0] makes of the structure. *)
Definition sha1_zero : IPodTouchSHA1State :=
  mkSha1 (replicate 20 0) false 0 0 0 0 (replicate 5 0) (replicate 16 0) false 0 0 false.

Definition ipod_touch_sha1_last_hash (s : IPodTouchSHA1State) : option bytes :=
  if sh_last_hash_valid s then Some (sh_last_hash s) else None.

Definition sha1_publish (s : IPodTouchSHA1State) : IPodTouchSHA1State :=
  s <| sh_last_hash := concat ((fun i => be32 (rd (sh_state s) i)) <$> seqZ 0 5) |> <| sh_last_hash_valid := true |>.

Definition sha1_clear_irq (s : IPodTouchSHA1State) : IPodTouchSHA1State :=
  if negb (sh_int_status s =? 0) then s <| sh_int_status := 0 |> <| sh_irq := false |> else s.

Definition sha1_reset (s : IPodTouchSHA1State) : IPodTouchSHA1State :=
  sha1_clear_irq
    (s <| sh_last_hash_valid := false |> <| sh_last_hash := replicate 20 0 |> <| sh_config := 0 |>
       <| sh_memory_start := 0 |> <| sh_memory_mode := 0 |> <| sh_insize := 0 |> <| sh_state := sha1_iv |>
       <| sh_hw_buffer := replicate 16 0 |> <| sh_hw_buffer_dirty := false |>).

Definition sha1_block (buf : bytes) (i : Z) : bytes := ztake 0x40 (zdrop (i * 0x40) buf).

(** The batches of a memory-mode job; each turn takes at least one block, so
    [nblocks] turns are enough. *)
Fixpoint sha1_dma (fuel : nat) (phys : Z -> Z) (address nblocks : Z) (st : list Z) : list Z :=
  match fuel with
  | O => st
  | S fuel' =>
      if nblocks =? 0 then st
      else
        let batch := Z.min nblocks (IT_SHA1_DMA_CHUNK / 0x40) in
        let buf := phys_read phys address (batch * 0x40) in
        let st := fold_left (fun st i => sha1_compress st (sha1_block buf i)) (seqZ 0 batch) st in
        sha1_dma fuel' phys (address + batch * 0x40) (nblocks - batch) st
  end.

Definition sha1_run (phys : Z -> Z) (notify : bool) (s : IPodTouchSHA1State) : IPodTouchSHA1State :=
  let s := if sh_hw_buffer_dirty s then
             s <| sh_state := sha1_compress (sh_state s) (concat (le32 <$> sh_hw_buffer s)) |>
               <| sh_hw_buffer := replicate 16 0 |> <| sh_hw_buffer_dirty := false |>
           else s in
  let s := if negb (sh_memory_mode s =? 0) then
             let nblocks := it_guard_size (sh_insize s) IT_SHA1_MAX_JOB / 0x40 in
             s <| sh_state := sha1_dma (Z.to_nat nblocks) phys (sh_memory_start s) nblocks (sh_state s) |>
           else s in
  let s := sha1_publish s in
  if notify && negb (sh_int_enable s =? 0) then s <| sh_int_status := 1 |> <| sh_irq := true |> else s.

Definition ipod_touch_sha1_read (offset : Z) (s : IPodTouchSHA1State) : Z :=
  if offset =? SHA_CONFIG then sh_config s
  else if offset =? SHA_RESET then 0
  else if offset =? SHA_INTSTATUS then sh_int_status s
  else if offset =? SHA_INTENABLE then sh_int_enable s
  else if offset =? SHA_MEMORY_START then sh_memory_start s
  else if offset =? SHA_MEMORY_MODE then sh_memory_mode s
  else if offset =? SHA_INSIZE then sh_insize s
  else if (SHA_HASHOUT <=? offset) && (offset <=? SHA_HASHOUT_END) then
    bswap32 (rd (sh_state s) ((offset - SHA_HASHOUT) / 4))
  else if (SHA_HWBUF <=? offset) && (offset <=? SHA_HWBUF_END) then
    rd (sh_hw_buffer s) ((offset - SHA_HWBUF) / 4)
  else 0.

Definition ipod_touch_sha1_write (phys : Z -> Z) (offset value : Z) (s : IPodTouchSHA1State) : IPodTouchSHA1State :=
  if offset =? SHA_CONFIG then
    if Z.testbit value 1 then sha1_run phys (Z.testbit value 2) (sha1_clear_irq s)
    else s <| sh_config := u32 value |>
  else if offset =? SHA_RESET then sha1_reset s
  else if offset =? SHA_INTSTATUS then sha1_clear_irq s
  else if offset =? SHA_INTENABLE then
    let s := s <| sh_int_enable := u32 value |> in
    if value =? 0 then sha1_clear_irq s else s
  else if offset =? SHA_MEMORY_START then s <| sh_memory_start := u32 value |>
  else if offset =? SHA_MEMORY_MODE then s <| sh_memory_mode := u32 value |>
  else if offset =? SHA_INSIZE then s <| sh_insize := u32 value |>
  else if (SHA_HASHOUT <=? offset) && (offset <=? SHA_HASHOUT_END) then
    s <| sh_state ::= fun st => wr st ((offset - SHA_HASHOUT) / 4) (bswap32 (u32 value)) |>
  else if (SHA_HWBUF <=? offset) && (offset <=? SHA_HWBUF_END) then
    s <| sh_hw_buffer ::= fun b => wr b ((offset - SHA_HWBUF) / 4) (u32 value) |> <| sh_hw_buffer_dirty := true |>
  else s.

(** [ipod_touch_sha1_init] *)
Definition ipod_touch_sha1_init : IPodTouchSHA1State := sha1_reset sha1_zero.

(** The device's reset leaves the chaining state zero, unlike [sha1_reset]. *)
Definition ipod_touch_sha1_reset (s : IPodTouchSHA1State) : IPodTouchSHA1State :=
  s <| sh_last_hash_valid := false |> <| sh_last_hash := replicate 20 0 |> <| sh_config := 0 |>
    <| sh_memory_start := 0 |> <| sh_memory_mode := 0 |> <| sh_insize := 0 |> <| sh_state := replicate 5 0 |>
    <| sh_hw_buffer := replicate 16 0 |> <| sh_hw_buffer_dirty := false |> <| sh_int_enable := 0 |>
    <| sh_int_status := 0 |> <| sh_irq := false |>.
