(* ===== verification/Sha1A4.v ===== *)
(** * The SHA-1 engine of the S5L8930

    [src/hw/arm/s5l8930_sha1.c]: the same compression function behind a word
    FIFO that DMA channel 4 fills, and a block written word by word. *)

From Stdlib Require Import ZArith Lia.
From stdpp Require Import base numbers list.
From S2P Require Import Prelude CLib HwLib Sha1.
Local Open Scope Z_scope.

Definition SHA1_CMD : Z := 0x00.
Definition SHA1_RESET : Z := 0x04.
Definition SHA1_MODE : Z := 0x10.
Definition SHA1_HASH : Z := 0x20.
Definition SHA1_FIFO : Z := 0xA0.
Definition SHA1_DATA : Z := 0x40.
Definition CMD_START : Z := 0x2.
Definition CMD_CONTINUE : Z := 0x8.

(** [struct S5L8930SHA1State] *)
Record S5L8930SHA1State := mkA4 {
  a4_cmd : Z;
  a4_mode : Z;
  a4_h : list Z;
  a4_block : bytes;
  a4_fill : Z;
  a4_pio_words : Z
}.

Definition eta_a4 (r : S5L8930SHA1State) : S5L8930SHA1State :=
  mkA4 (a4_cmd r) (a4_mode r) (a4_h r) (a4_block r) (a4_fill r) (a4_pio_words r).
#[export] Instance upd_a4_cmd : Upd a4_cmd := ltac:(derive_upd eta_a4 a4_cmd).
#[export] Instance upd_a4_mode : Upd a4_mode := ltac:(derive_upd eta_a4 a4_mode).
#[export] Instance upd_a4_h : Upd a4_h := ltac:(derive_upd eta_a4 a4_h).
#[export] Instance upd_a4_block : Upd a4_block := ltac:(derive_upd eta_a4 a4_block).
#[export] Instance upd_a4_fill : Upd a4_fill := ltac:(derive_upd eta_a4 a4_fill).
#[export] Instance upd_a4_pio_words : Upd a4_pio_words := ltac:(derive_upd eta_a4 a4_pio_words).

Definition a4_zero : S5L8930SHA1State := mkA4 0 0 (replicate 5 0) (replicate 64 0) 0 0.

Definition sha1_init : list Z := [0x67452301; 0xEFCDAB89; 0x98BADCFE; 0x10325476; 0xC3D2E1F0].

Definition sha1_read (offset : Z) (s : S5L8930SHA1State) : Z :=
  if offset =? SHA1_CMD then Z.land (a4_cmd s) (not32 CMD_START)
  else if offset =? SHA1_MODE then a4_mode s
  else if (SHA1_HASH <=? offset) && (offset <=? SHA1_HASH + 16) then
    bswap32 (rd (a4_h s) (Z.shiftr (offset - SHA1_HASH) 2))
  else 0.

Definition sha1_write (offset value : Z) (s : S5L8930SHA1State) : S5L8930SHA1State :=
  let v := u32 value in
  if offset =? SHA1_CMD then
    let s := s <| a4_cmd := v |> in
    if Z.testbit v 1 then
      let s := if negb (Z.testbit v 3) then s <| a4_h := sha1_init |> else s in
      let s := s <| a4_fill := 0 |> in
      let s := if a4_pio_words s =? 0xffff then s <| a4_h ::= fun h => sha1_compress h (a4_block s) |> else s in
      s <| a4_pio_words := 0 |>
    else s
  else if (SHA1_DATA <=? offset) && (offset <=? SHA1_DATA + 0x3C) then
    s <| a4_block ::= fun b => st_le32 b (offset - SHA1_DATA) v |>
      <| a4_pio_words ::= fun p => Z.lor p (Z.shiftl 1 (Z.shiftr (offset - SHA1_DATA) 2)) |>
  else if offset =? SHA1_RESET then
    s <| a4_cmd := 0 |> <| a4_mode := 0 |> <| a4_fill := 0 |> <| a4_pio_words := 0 |> <| a4_h := sha1_init |>
  else if offset =? SHA1_MODE then s <| a4_mode := v |>
  else if (SHA1_HASH <=? offset) && (offset <=? SHA1_HASH + 16) then
    s <| a4_h ::= fun h => wr h (Z.shiftr (offset - SHA1_HASH) 2) (bswap32 v) |>
  else if offset =? SHA1_FIFO then
    let s := s <| a4_block ::= fun b => st_le32 b (a4_fill s) v |> in
    let s := s <| a4_fill ::= fun n => n + 4 |> in
    if a4_fill s =? 64 then
      s <| a4_h ::= fun h => sha1_compress h (a4_block s) |> <| a4_fill := 0 |>
    else s
  else s.

(** The device's reset; the words of a block already written are kept. *)
Definition s5l8930_sha1_reset (s : S5L8930SHA1State) : S5L8930SHA1State :=
  s <| a4_cmd := 0 |> <| a4_mode := 0 |> <| a4_fill := 0 |> <| a4_h := sha1_init |>.

(** What a snapshot must satisfy to be loaded. *)
Definition sha1_post_load (s : S5L8930SHA1State) : bool :=
  (a4_fill s <? 64) && (Z.land (a4_fill s) 3 =? 0).
