(* ===== verification/Sha1Facts.v ===== *)
(** * The SHA-1 engines compute SHA-1

    A definition of SHA-1 after FIPS 180-4, the equality of the compression
    function of the code with it, and what each engine leaves in its hash
    registers for a message that the guest padded. *)

From Stdlib Require Import ZArith Lia.
From stdpp Require Import base numbers list.
From S2P Require Import Prelude CLib HwLib Sha1 Sha1A4.
Local Open Scope Z_scope.

(** ** SHA-1 as the standard defines it *)

Definition rotl (n x : Z) : Z := x * 2 ^ n mod 2 ^ 32 + x / 2 ^ (32 - n).

(** The functions and constants of round [t]. *)
Definition fips_f (t : nat) (x y z : Z) : Z :=
  if decide (t < 20)%nat then Z.lxor (Z.land x y) (Z.land (Z.lnot x) z)
  else if decide (t < 40)%nat then Z.lxor x (Z.lxor y z)
  else if decide (t < 60)%nat then Z.lxor (Z.land x y) (Z.lxor (Z.land x z) (Z.land y z))
  else Z.lxor x (Z.lxor y z).

Definition fips_K (t : nat) : Z :=
  if decide (t < 20)%nat then 0x5a827999 else if decide (t < 40)%nat then 0x6ed9eba1
  else if decide (t < 60)%nat then 0x8f1bbcdc else 0xca62c1d6.

(** One more word in front of the schedule, which holds the newest word first. *)
Definition fips_next (ws : list Z) : list Z :=
  rotl 1 (Z.lxor (default 0 (ws !! 2%nat)) (Z.lxor (default 0 (ws !! 7%nat))
         (Z.lxor (default 0 (ws !! 13%nat)) (default 0 (ws !! 15%nat))))) :: ws.

Definition fips_schedule (words : list Z) : list Z := reverse (Nat.iter 64 fips_next (reverse words)).

Definition fips_round (v : sha1_vars) (tw : nat * Z) : sha1_vars :=
  let '(a, b, c, d, e) := v in
  ((rotl 5 a + fips_f tw.1 b c d + e + fips_K tw.1 + tw.2) mod 2 ^ 32, a, rotl 30 b, c, d).

(** Big-endian words of a byte string. *)
Fixpoint be_words (m : bytes) : list Z :=
  match m with
  | a :: b :: c :: d :: t => (a * 2 ^ 24 + b * 2 ^ 16 + c * 2 ^ 8 + d) :: be_words t
  | _ => []
  end.

Definition fips_block (h : list Z) (block : bytes) : list Z :=
  let ws := fips_schedule (be_words block) in
  match h with
  | [h0; h1; h2; h3; h4] =>
      let '(a, b, c, d, e) := fold_left fips_round (zip (seq 0 80) ws) (h0, h1, h2, h3, h4) in
      [(h0 + a) mod 2 ^ 32; (h1 + b) mod 2 ^ 32; (h2 + c) mod 2 ^ 32; (h3 + d) mod 2 ^ 32; (h4 + e) mod 2 ^ 32]
  | _ => h
  end.

#[global] Arguments fips_block : simpl never.

Definition fips_pad (m : bytes) : bytes :=
  m ++ [0x80] ++ replicate (Z.to_nat ((55 - zlen m) mod 64)) 0 ++
  be32 (8 * zlen m / 2 ^ 32) ++ be32 (8 * zlen m).

(** The blocks of a string of whole blocks. *)
Definition blocks_of (m : bytes) : list bytes := (fun i => sha1_block m i) <$> seqZ 0 (zlen m / 64).

Definition fips_h0 : list Z := [0x67452301; 0xefcdab89; 0x98badcfe; 0x10325476; 0xc3d2e1f0].

Definition fips_sha1 (m : bytes) : bytes :=
  concat (be32 <$> fold_left fips_block (blocks_of (fips_pad m)) fips_h0).

(** The example of the standard. *)
Example fips_sha1_abc : fips_sha1 [97; 98; 99] =
  [0xa9; 0x99; 0x3e; 0x36; 0x47; 0x06; 0x81; 0x6a; 0xba; 0x3e;
   0x25; 0x71; 0x78; 0x50; 0xc2; 0x6c; 0x9c; 0xd0; 0xd8; 0x9d].
Proof. vm_compute. reflexivity. Qed.

(** ** The compression function *)

Lemma rotl_spec n x : is_u32 x -> 0 < n < 32 -> SHA1_ROTL x n = rotl n x.
Proof.
  unfold is_u32, SHA1_ROTL, rotl, u32. intros Hx Hn.
  rewrite Z.shiftl_mul_pow2, Z.shiftr_div_pow2 by lia.
  assert (E : 2 ^ 32 = 2 ^ (32 - n) * 2 ^ n) by (rewrite <- Z.pow_add_r by lia; f_equal; lia).
  pose proof (Z.pow_pos_nonneg 2 n). pose proof (Z.pow_pos_nonneg 2 (32 - n)).
  change 4294967296 with (2 ^ 32) in *. rewrite E, Z.mul_mod_distr_r by lia.
  rewrite <- Z.shiftl_mul_pow2, lor_shiftl_add by (split || idtac; try lia; first
    [apply Z.div_pos; lia | apply Z.div_lt_upper_bound; lia]).
  rewrite Z.shiftl_mul_pow2 by lia. reflexivity.
Qed.

Lemma rotl_u32 n x : is_u32 x -> 0 < n < 32 -> is_u32 (rotl n x).
Proof.
  unfold is_u32, rotl. intros Hx Hn.
  assert (E : 2 ^ 32 = 2 ^ (32 - n) * 2 ^ n) by (rewrite <- Z.pow_add_r by lia; f_equal; lia).
  pose proof (Z.pow_pos_nonneg 2 n). pose proof (Z.pow_pos_nonneg 2 (32 - n)).
  change 4294967296 with (2 ^ 32) in *. rewrite E, Z.mul_mod_distr_r by lia.
  pose proof (Z.mod_pos_bound x (2 ^ (32 - n))).
  assert (0 <= x / 2 ^ (32 - n) < 2 ^ n) by (split; [apply Z.div_pos; lia|apply Z.div_lt_upper_bound; lia]).
  nia.
Qed.

Lemma fips_f_spec i b c d : is_u32 b -> is_u32 c -> is_u32 d ->
  (if Z.of_nat i <? 20 then Z.lor (Z.land b c) (Z.land (not32 b) d)
   else if Z.of_nat i <? 40 then Z.lxor (Z.lxor b c) d
   else if Z.of_nat i <? 60 then Z.lor (Z.lor (Z.land b c) (Z.land b d)) (Z.land c d)
   else Z.lxor (Z.lxor b c) d) = fips_f i b c d.
Proof.
  rewrite !is_u32_bits. intros [Hb Bb] [Hc Bc] [Hd Bd]. unfold fips_f.
  destruct (Z.ltb_spec (Z.of_nat i) 20), (Z.ltb_spec (Z.of_nat i) 40), (Z.ltb_spec (Z.of_nat i) 60),
    (decide (i < 20)%nat), (decide (i < 40)%nat), (decide (i < 60)%nat); try lia;
    apply Z.bits_inj'; intros k Hk; unfold not32;
    rewrite ?Z.lor_spec, ?Z.lxor_spec, ?Z.land_spec, ?Z.lnot_spec, ?Z.lxor_spec, ?Z.lor_spec, ?Z.land_spec by lia;
    try (change 0xffffffff with (Z.ones 32); destruct (Z.ltb_spec k 32);
         [rewrite Z.ones_spec_low by lia|rewrite Z.ones_spec_high, Bd by lia]);
    by destruct (Z.testbit b k), (Z.testbit c k), (Z.testbit d k).
Qed.

Lemma fips_K_spec i :
  (if Z.of_nat i <? 20 then 0x5A827999 else if Z.of_nat i <? 40 then 0x6ED9EBA1
   else if Z.of_nat i <? 60 then 0x8F1BBCDC else 0xCA62C1D6) = fips_K i.
Proof.
  unfold fips_K. destruct (Z.ltb_spec (Z.of_nat i) 20), (Z.ltb_spec (Z.of_nat i) 40), (Z.ltb_spec (Z.of_nat i) 60),
    (decide (i < 20)%nat), (decide (i < 40)%nat), (decide (i < 60)%nat); lia || done.
Qed.

Definition vars_u32 (v : sha1_vars) : Prop :=
  let '(a, b, c, d, e) := v in is_u32 a /\ is_u32 b /\ is_u32 c /\ is_u32 d /\ is_u32 e.

Lemma sha1_round_spec w v i : vars_u32 v ->
  sha1_round w v (Z.of_nat i) = fips_round v (i, rd w (Z.of_nat i)) /\
  vars_u32 (fips_round v (i, rd w (Z.of_nat i))).
Proof.
  destruct v as [[[[a b] c] d] e]. intros (Ha & Hb & Hc & Hd & He). split.
  - unfold sha1_round, fips_round. simpl fst. simpl snd.
    rewrite <- (fips_f_spec i b c d), <- fips_K_spec, !rotl_spec by (done || lia).
    by destruct (Z.of_nat i <? 20), (Z.of_nat i <? 40), (Z.of_nat i <? 60).
  - unfold fips_round. split; [apply u32_is_u32|]. split; [done|].
    split; [apply rotl_u32; [done|lia]|done].
Qed.

(** Two folds that agree on the states an invariant describes. *)
Lemma fold_left_inv {A B} (I : A -> Prop) (P : B -> Prop) (f g : A -> B -> A) l a :
  (forall a x, I a -> P x -> f a x = g a x /\ I (g a x)) -> Forall P l -> I a ->
  fold_left f l a = fold_left g l a /\ I (fold_left g l a).
Proof.
  intros H Hl. revert a. induction Hl as [|x l Hx Hl IH]; intros a Ha; [done|]. simpl.
  destruct (H a x Ha Hx) as [-> Ha']. by apply IH.
Qed.

Lemma zip_seq_rd (w : list Z) : zip (seq 0 (length w)) w = (fun i => (i, rd w (Z.of_nat i))) <$> seq 0 (length w).
Proof.
  apply list_eq. intros i. rewrite list_lookup_fmap.
  destruct (decide (i < length w)%nat) as [Hi|Hi].
  - destruct (lookup_lt_is_Some_2 w i Hi) as [x Hx].
    rewrite lookup_seq_lt by done. simpl. unfold rd. rewrite Nat2Z.id, Hx.
    apply lookup_zip_with_Some. exists i, x. split; [done|]. split; [by apply lookup_seq_lt|done].
  - rewrite !(proj2 (lookup_ge_None _ _)); [done|rewrite length_seq; lia|].
    rewrite length_zip_with, length_seq. lia.
Qed.

Lemma fold_left_fmap {A B C} (f : A -> C -> A) (g : B -> C) l a :
  fold_left f (g <$> l) a = fold_left (fun a x => f a (g x)) l a.
Proof. revert a. induction l as [|x l IH]; intros a; [done|]. simpl. apply IH. Qed.

Lemma seqZ_of_nat n : seqZ 0 (Z.of_nat n) = Z.of_nat <$> seq 0 n.
Proof. unfold seqZ. rewrite Nat2Z.id. apply list_fmap_ext. intros. lia. Qed.

Lemma sha1_rounds_spec w v : length w = 80%nat -> vars_u32 v ->
  fold_left (sha1_round w) (seqZ 0 80) v = fold_left fips_round (zip (seq 0 80) w) v.
Proof.
  intros Hw Hv. rewrite <- Hw, zip_seq_rd, Hw. change 80 with (Z.of_nat 80%nat) at 1.
  rewrite seqZ_of_nat, !fold_left_fmap.
  refine (proj1 (fold_left_inv vars_u32 (fun _ => True) _ _ _ _ _ _ Hv)); [|by apply Forall_true].
  intros a x Ha _. by apply sha1_round_spec.
Qed.

Lemma rd_u32 w i : Forall is_u32 w -> is_u32 (rd w i).
Proof.
  intros H. unfold rd. destruct (w !! Z.to_nat i) as [x|] eqn:E; simpl; [by eapply Forall_lookup_1|].
  unfold is_u32. lia.
Qed.

(** A read from the end of the schedule is a read of the reversed schedule. *)
Lemma rd_back (w : list Z) (k : nat) : (k < length w)%nat ->
  rd w (zlen w - Z.of_nat (S k)) = default 0 (reverse w !! k).
Proof.
  intros Hk. unfold rd, zlen. rewrite reverse_lookup by done. do 2 f_equal. lia.
Qed.

Lemma sha1_extend_spec w : (16 <= length w)%nat -> Forall is_u32 w ->
  sha1_extend w (zlen w) = reverse (fips_next (reverse w)) /\ Forall is_u32 (sha1_extend w (zlen w)).
Proof.
  intros Hl Hw. unfold sha1_extend, fips_next.
  assert (R : forall z k, z = Z.of_nat (S k) -> (k < 16)%nat -> rd w (zlen w - z) = default 0 (reverse w !! k))
    by (intros z k -> Hk; apply rd_back; lia).
  rewrite reverse_cons, reverse_involutive, (R 3 2%nat), (R 8 7%nat), (R 14 13%nat), (R 16 15%nat) by lia.
  assert (Hx : forall k, is_u32 (default 0 (reverse w !! k))).
  { intros k. destruct (reverse w !! k) as [x|] eqn:E; simpl; [|unfold is_u32; lia].
    eapply Forall_lookup_1; [|exact E]. by apply Forall_reverse. }
  rewrite rotl_spec by (lia || (repeat apply lxor_u32; apply Hx)). rewrite !Z.lxor_assoc. split; [done|].
  apply Forall_app. split; [done|]. constructor; [|constructor].
  apply rotl_u32; [repeat apply lxor_u32; apply Hx|lia].
Qed.

Lemma sha1_extend_loop w n : length w = 16%nat -> Forall is_u32 w ->
  fold_left sha1_extend (seqZ 16 (Z.of_nat n)) w = reverse (Nat.iter n fips_next (reverse w)) /\
  Forall is_u32 (fold_left sha1_extend (seqZ 16 (Z.of_nat n)) w) /\
  length (fold_left sha1_extend (seqZ 16 (Z.of_nat n)) w) = (16 + n)%nat.
Proof.
  intros Hl Hw. induction n as [|n (IH & Hu & Hn)]; [simpl; by rewrite reverse_involutive|].
  assert (E : seqZ 16 (Z.of_nat (S n)) = seqZ 16 (Z.of_nat n) ++ [16 + Z.of_nat n]).
  { rewrite Nat2Z.inj_succ, <- Z.add_1_r, seqZ_app by lia. done. }
  rewrite E, fold_left_app. cbn [fold_left].
  set (w' := fold_left sha1_extend (seqZ 16 (Z.of_nat n)) w) in *.
  assert (Ez : 16 + Z.of_nat n = zlen w') by (unfold zlen; lia). rewrite Ez.
  destruct (sha1_extend_spec w') as [E1 E2]; [lia|done|].
  split; [|split; [done|]].
  - rewrite E1, IH, reverse_involutive. done.
  - unfold sha1_extend. rewrite length_app, Hn. simpl. lia.
Qed.

Lemma be_words_ld n m : length m = (4 * n)%nat -> is_bytes m ->
  (fun i => ld_be32 m (4 * i)) <$> seqZ 0 (Z.of_nat n) = be_words m /\ Forall is_u32 (be_words m) /\
  length (be_words m) = n.
Proof.
  revert m. induction n as [|n IH]; intros m Hl Hb; [by destruct m|].
  destruct m as [|a [|b [|c [|d t]]]]; try (simpl in Hl; lia).
  apply Forall_cons in Hb as [Ha Hb]. apply Forall_cons in Hb as [Hb' Hb].
  apply Forall_cons in Hb as [Hc Hb]. apply Forall_cons in Hb as [Hd Hb].
  destruct (IH t ltac:(simpl in Hl; lia) Hb) as (E & Hu & Hn). cbn [be_words].
  assert (E0 : ld_be32 (a :: b :: c :: d :: t) (4 * 0) = a * 2 ^ 24 + b * 2 ^ 16 + c * 2 ^ 8 + d).
  { exact (ld_be32_4 a b c d Ha Hb' Hc Hd). }
  split; [|split; [constructor; [unfold is_u32, is_byte in *; lia|done]|simpl; lia]].
  rewrite seqZ_of_nat in *. rewrite <- cons_seq, fmap_cons, fmap_cons.
  rewrite <- fmap_S_seq, <- E. f_equal; [exact E0|]. rewrite <- !list_fmap_compose.
  apply list_fmap_ext. intros _ i _. cbv [compose]. unfold ld_be32, rd.
  replace (Z.to_nat (4 * Z.of_nat (S i))) with (S (S (S (S (Z.to_nat (4 * Z.of_nat i)))))) by lia.
  replace (Z.to_nat (4 * Z.of_nat (S i) + 1)) with (S (S (S (S (Z.to_nat (4 * Z.of_nat i + 1)))))) by lia.
  replace (Z.to_nat (4 * Z.of_nat (S i) + 2)) with (S (S (S (S (Z.to_nat (4 * Z.of_nat i + 2)))))) by lia.
  replace (Z.to_nat (4 * Z.of_nat (S i) + 3)) with (S (S (S (S (Z.to_nat (4 * Z.of_nat i + 3)))))) by lia.
  reflexivity.
Qed.

Lemma sha1_schedule_spec block : length block = 64%nat -> is_bytes block ->
  sha1_schedule block = fips_schedule (be_words block) /\ length (sha1_schedule block) = 80%nat.
Proof.
  intros Hl Hb. destruct (be_words_ld 16 block Hl Hb) as (E & Hu & Hn).
  unfold sha1_schedule, fips_schedule. change (seqZ 0 16) with (seqZ 0 (Z.of_nat 16)). rewrite E.
  change (seqZ 16 64) with (seqZ 16 (Z.of_nat 64)).
  destruct (sha1_extend_loop (be_words block) 64 Hn Hu) as (-> & _ & Hz). done.
Qed.

(** A chaining state: five words. *)
Definition chain_ok (h : list Z) : Prop := length h = 5%nat /\ Forall is_u32 h.

Lemma sha1_compress_spec h block : chain_ok h -> length block = 64%nat -> is_bytes block ->
  sha1_compress h block = fips_block h block /\ chain_ok (fips_block h block).
Proof.
  intros [H5 Hu] Hl Hb. destruct h as [|h0 [|h1 [|h2 [|h3 [|h4 [|]]]]]]; try discriminate.
  destruct (sha1_schedule_spec block Hl Hb) as [E En]. unfold sha1_compress, fips_block.
  change (rd _ 0) with h0. change (rd _ 1) with h1. change (rd _ 2) with h2.
  change (rd _ 3) with h3. change (rd _ 4) with h4.
  assert (Hv : vars_u32 (h0, h1, h2, h3, h4)) by (do 5 (apply Forall_cons in Hu as [? Hu]); unfold vars_u32; tauto).
  rewrite (sha1_rounds_spec _ _ En Hv), E.
  destruct (fold_left _ _ _) as [[[[a b] c] d] e]. split; [done|]. split; [done|].
  repeat constructor; apply (u32_is_u32 _).
Qed.

Lemma sha1_blocks_spec bs h : chain_ok h -> Forall (fun b => length b = 64%nat /\ is_bytes b) bs ->
  fold_left sha1_compress bs h = fold_left fips_block bs h /\ chain_ok (fold_left fips_block bs h).
Proof.
  intros Hh Hb. refine (fold_left_inv chain_ok _ _ _ _ _ _ Hb Hh).
  intros a x Ha [Hl Hx]. by apply sha1_compress_spec.
Qed.

(** From here on the compression function is a name. *)
#[local] Opaque sha1_compress fips_block.

(** ** The engine of the S5L8720 *)

Lemma sha1_block_ok m i : is_bytes m -> 0 <= i < zlen m / 64 ->
  length (sha1_block m i) = 64%nat /\ is_bytes (sha1_block m i).
Proof.
  intros Hb Hi. unfold sha1_block, ztake, zdrop, zlen in *. split.
  - rewrite length_take, length_drop. pose proof (Z.mul_div_le (Z.of_nat (length m)) 64). lia.
  - by apply is_bytes_take, is_bytes_drop.
Qed.

Lemma blocks_of_ok m : is_bytes m -> Forall (fun b => length b = 64%nat /\ is_bytes b) (blocks_of m).
Proof.
  intros Hb. unfold blocks_of. apply Forall_fmap, Forall_forall. intros i Hi%elem_of_seqZ.
  cbv [compose]. apply sha1_block_ok; [done|lia].
Qed.

(** The blocks of [n] blocks of guest memory at an address. *)
Definition mem_blocks (phys : Z -> Z) (addr n : Z) : list bytes :=
  (fun i => phys_read phys (addr + i * 64) 64) <$> seqZ 0 n.

Lemma phys_read_drop phys addr n k : 0 <= k -> zdrop k (phys_read phys addr n) = phys_read phys (addr + k) (n - k).
Proof.
  intros Hk. unfold zdrop, phys_read. rewrite <- fmap_drop, drop_seq.
  replace (Z.to_nat n - Z.to_nat k)%nat with (Z.to_nat (n - k)) by lia.
  replace (seq (0 + Z.to_nat k) _) with (Nat.add (Z.to_nat k) <$> seq 0 (Z.to_nat (n - k)))
    by (rewrite fmap_add_seq; f_equal; lia).
  rewrite <- list_fmap_compose.
  apply list_fmap_ext. intros _ i _. cbv [compose]. f_equal. lia.
Qed.

Lemma phys_read_take phys addr n k : 0 <= k <= n -> ztake k (phys_read phys addr n) = phys_read phys addr k.
Proof.
  intros Hk. unfold ztake, phys_read. rewrite <- fmap_take, take_seq.
  by replace (Z.to_nat k `min` Z.to_nat n)%nat with (Z.to_nat k) by lia.
Qed.

Lemma sha1_block_mem phys addr n i : 0 <= i < n ->
  sha1_block (phys_read phys addr (n * 64)) i = phys_read phys (addr + i * 64) 64.
Proof. intros Hi. unfold sha1_block. rewrite phys_read_drop, phys_read_take by lia. done. Qed.

Lemma fold_left_ext_in {A B} (f g : A -> B -> A) l a :
  (forall a x, x ∈ l -> f a x = g a x) -> fold_left f l a = fold_left g l a.
Proof.
  revert a. induction l as [|x l IH]; intros a H; [done|]. simpl.
  rewrite H by apply list_elem_of_here. apply IH. intros b y Hy. apply H. by apply list_elem_of_further.
Qed.

Lemma mem_blocks_app phys addr n k : 0 <= n -> 0 <= k ->
  mem_blocks phys addr (n + k) = mem_blocks phys addr n ++ mem_blocks phys (addr + n * 64) k.
Proof.
  intros Hn Hk. unfold mem_blocks. rewrite seqZ_app, fmap_app by lia. f_equal.
  replace (seqZ (0 + n) k) with (Z.add n <$> seqZ 0 k) by (rewrite fmap_add_seqZ; f_equal; lia).
  rewrite <- list_fmap_compose.
  apply list_fmap_ext. intros _ i _. cbv [compose]. f_equal. lia.
Qed.

(** The batches do not matter: a job compresses its blocks one after another. *)
Lemma sha1_dma_blocks fuel phys addr n st : 0 <= n <= Z.of_nat fuel ->
  sha1_dma fuel phys addr n st = fold_left sha1_compress (mem_blocks phys addr n) st.
Proof.
  revert addr n st. induction fuel as [|fuel IH]; intros addr n st Hn.
  { assert (n = 0) as -> by lia. reflexivity. }
  cbn [sha1_dma]. destruct (Z.eqb_spec n 0) as [->|Hne]; [reflexivity|]. cbv zeta.
  unfold IT_SHA1_DMA_CHUNK. change (64 * 1024 / 0x40) with 1024. set (b := Z.min n 1024).
  rewrite IH by lia. replace (mem_blocks phys addr n) with (mem_blocks phys addr (b + (n - b))) by (f_equal; lia).
  rewrite mem_blocks_app, fold_left_app by lia. f_equal. unfold mem_blocks.
  rewrite fold_left_fmap. apply fold_left_ext_in. intros a i Hi%elem_of_seqZ.
  by rewrite (sha1_block_mem _ _ b) by lia.
Qed.

(** Register writes in order. *)
Definition sha1_writes (phys : Z -> Z) (ws : list (Z * Z)) (s : IPodTouchSHA1State) : IPodTouchSHA1State :=
  fold_left (fun s ov => ipod_touch_sha1_write phys ov.1 ov.2 s) ws s.

(** The two kinds of job the guest starts: whole blocks of guest memory, or
    one block through the hardware buffer. *)
Inductive sha1_job :=
| JobMem (addr len : Z)
| JobBuf (words : list Z).

Definition buf_writes (words : list Z) : list (Z * Z) :=
  imap (fun i w => (SHA_HWBUF + 4 * Z.of_nat i, w)) words.

Definition job_writes (j : sha1_job) : list (Z * Z) :=
  match j with
  | JobMem addr len => [(SHA_MEMORY_START, addr); (SHA_INSIZE, len); (SHA_MEMORY_MODE, 1); (SHA_CONFIG, 2)]
  | JobBuf words => buf_writes words ++ [(SHA_MEMORY_MODE, 0); (SHA_CONFIG, 2)]
  end.

Definition job_ok (j : sha1_job) : Prop :=
  match j with
  | JobMem addr len => is_u32 addr /\ 0 <= len <= IT_SHA1_MAX_JOB /\ len mod 64 = 0
  | JobBuf words => length words = 16%nat /\ Forall is_u32 words
  end.

(** The message bytes of a job. *)
Definition job_bytes (phys : Z -> Z) (j : sha1_job) : bytes :=
  match j with
  | JobMem addr len => phys_read phys addr len
  | JobBuf words => concat (le32 <$> words)
  end.

(** The engine between jobs. *)
Definition sha1_idle (s : IPodTouchSHA1State) : Prop :=
  sh_hw_buffer_dirty s = false /\ length (sh_hw_buffer s) = 16%nat.

(** The chaining state a start leaves. *)
Definition go_state (phys : Z -> Z) (s : IPodTouchSHA1State) : list Z :=
  let st := if sh_hw_buffer_dirty s then sha1_compress (sh_state s) (concat (le32 <$> sh_hw_buffer s))
            else sh_state s in
  let nb := it_guard_size (sh_insize s) IT_SHA1_MAX_JOB / 0x40 in
  if negb (sh_memory_mode s =? 0) then sha1_dma (Z.to_nat nb) phys (sh_memory_start s) nb st else st.

Lemma sha1_run_fields phys n s :
  let s' := sha1_run phys n (sha1_clear_irq s) in
  sh_state s' = go_state phys s /\
  ipod_touch_sha1_last_hash s' = Some (concat ((fun i => be32 (rd (go_state phys s) i)) <$> seqZ 0 5)) /\
  (length (sh_hw_buffer s) = 16%nat -> sha1_idle s').
Proof.
  assert (Hc : go_state phys (sha1_clear_irq s) = go_state phys s /\
               sh_hw_buffer (sha1_clear_irq s) = sh_hw_buffer s).
  { unfold sha1_clear_irq. destruct s, (negb _); done. }
  destruct Hc as [<- <-]. generalize (sha1_clear_irq s). clear s.
  intros [lh lv c ms mm ins st hb d ie is' iq]. unfold sha1_run, sha1_publish, go_state, sha1_idle.
  destruct d, n; simpl; destruct (negb (mm =? 0)); simpl; try (destruct (negb (ie =? 0)); simpl);
    repeat split; trivial.
Qed.

Definition with_buf (b : list Z) (s : IPodTouchSHA1State) : IPodTouchSHA1State :=
  s <| sh_hw_buffer := b |> <| sh_hw_buffer_dirty := true |>.

Lemma sha1_write_buf phys k w s : 0 <= k < 16 ->
  ipod_touch_sha1_write phys (SHA_HWBUF + 4 * k) w s = with_buf (wr (sh_hw_buffer s) k (u32 w)) s.
Proof.
  intros Hk. unfold ipod_touch_sha1_write, SHA_CONFIG, SHA_RESET, SHA_INTSTATUS, SHA_INTENABLE, SHA_MEMORY_START,
    SHA_MEMORY_MODE, SHA_INSIZE, SHA_HASHOUT, SHA_HASHOUT_END, SHA_HWBUF, SHA_HWBUF_END.
  repeat match goal with |- context [?a =? ?b] => rewrite (proj2 (Z.eqb_neq a b)) by lia end.
  rewrite (proj2 (Z.leb_gt (0x40 + 4 * k) 0x30)) by lia. rewrite andb_false_r.
  rewrite (proj2 (Z.leb_le 0x40 (0x40 + 4 * k))), (proj2 (Z.leb_le (0x40 + 4 * k) 0x7c)) by lia.
  replace ((0x40 + 4 * k - 0x40) / 4) with k by (Z.div_mod_to_equations; lia). by destruct s.
Qed.

Lemma buf_writes_effect phys words k s :
  Forall is_u32 words -> (k + length words)%nat = 16%nat -> length (sh_hw_buffer s) = 16%nat -> words <> [] ->
  sha1_writes phys (imap (fun i w => (SHA_HWBUF + 4 * Z.of_nat (k + i), w)) words) s =
  with_buf (take k (sh_hw_buffer s) ++ words) s.
Proof.
  revert k s. induction words as [|w words IH]; intros k s Hu Hk Hl Hne; [done|].
  apply Forall_cons in Hu as [Hw Hu]. simpl in Hk. unfold sha1_writes. rewrite imap_cons. cbn [fold_left fst snd].
  rewrite sha1_write_buf, Nat.add_0_r, u32_id by (done || lia).
  set (s1 := with_buf _ s). fold (sha1_writes phys).
  assert (Eb : sh_hw_buffer s1 = wr (sh_hw_buffer s) (Z.of_nat k) w) by done.
  assert (Et : take (S k) (wr (sh_hw_buffer s) (Z.of_nat k) w) = take k (sh_hw_buffer s) ++ [w]).
  { unfold wr. rewrite Nat2Z.id, (take_S_r _ _ w), take_insert_ge; [done|lia|].
    apply list_lookup_insert_eq. lia. }
  destruct (decide (words = [])) as [->|Hne'].
  - simpl in Hk. rewrite imap_nil. cbn [fold_left]. unfold s1. f_equal. rewrite <- Et.
    symmetry. apply take_ge. unfold wr. rewrite length_insert. lia.
  - transitivity (with_buf (take (S k) (sh_hw_buffer s1) ++ words) s1).
    + rewrite <- IH; [|done|lia|rewrite Eb; unfold wr; by rewrite length_insert|done].
      unfold sha1_writes. f_equal. apply imap_ext. intros i x _. simpl. do 3 f_equal. lia.
    + rewrite Eb, Et, <- app_assoc. by destruct s.
Qed.

Lemma blocks_of_mem phys addr len : 0 <= len -> len mod 64 = 0 ->
  blocks_of (phys_read phys addr len) = mem_blocks phys addr (len / 64).
Proof.
  intros H0 Hm. unfold blocks_of, mem_blocks, zlen. rewrite length_phys_read, Z2Nat.id by done.
  apply list_fmap_ext. intros _ i Hi%list_elem_of_lookup_2%elem_of_seqZ.
  rewrite <- (sha1_block_mem phys addr (len / 64)) by lia.
  by replace (len / 64 * 64) with len by (pose proof (Z.div_mod len 64); lia).
Qed.

Lemma blocks_of_one b : length b = 64%nat -> blocks_of b = [b].
Proof.
  intros H. unfold blocks_of, zlen. rewrite H. change (Z.of_nat 64 / 64) with 1. simpl.
  unfold sha1_block. change (zdrop _ b) with b. by rewrite ztake_all by (unfold zlen; lia).
Qed.

Lemma go_state_buf phys words s :
  go_state phys ((with_buf words s) <| sh_memory_mode := 0 |>) =
  fold_left sha1_compress [concat (le32 <$> words)] (sh_state s).
Proof. reflexivity. Qed.

(** What the writes of a job come to. *)
Lemma job_mem_go phys addr len s : job_ok (JobMem addr len) -> sh_hw_buffer_dirty s = false ->
  length (sh_hw_buffer s) = 16%nat ->
  exists s0, sha1_writes phys (job_writes (JobMem addr len)) s = sha1_run phys false (sha1_clear_irq s0) /\
    length (sh_hw_buffer s0) = 16%nat /\
    go_state phys s0 = fold_left sha1_compress (blocks_of (phys_read phys addr len)) (sh_state s).
Proof.
  intros (Ha & Hl & Hm) Hd Hb. unfold IT_SHA1_MAX_JOB in Hl.
  exists (s <| sh_memory_start := u32 addr |> <| sh_insize := u32 len |> <| sh_memory_mode := 1 |>).
  split; [reflexivity|]. split; [exact Hb|]. unfold go_state. cbn -[sha1_dma it_guard_size u32 Z.to_nat Z.div].
  rewrite Hd, (u32_id addr), (u32_id len) by (done || (unfold is_u32; lia)).
  assert (G : it_guard_size len IT_SHA1_MAX_JOB = len).
  { unfold it_guard_size, IT_SHA1_MAX_JOB. by rewrite (proj2 (Z.ltb_ge _ _)) by lia. }
  assert (0 <= len / 64) by (apply Z.div_pos; lia).
  rewrite G, sha1_dma_blocks, blocks_of_mem by lia. reflexivity.
Qed.

Lemma job_buf_go phys words s : job_ok (JobBuf words) -> length (sh_hw_buffer s) = 16%nat ->
  exists s0, sha1_writes phys (job_writes (JobBuf words)) s = sha1_run phys false (sha1_clear_irq s0) /\
    length (sh_hw_buffer s0) = 16%nat /\
    go_state phys s0 = fold_left sha1_compress (blocks_of (concat (le32 <$> words))) (sh_state s).
Proof.
  intros (Hw & Hu) Hb. exists ((with_buf words s) <| sh_memory_mode := 0 |>). split; [|split; [exact Hw|]].
  - unfold sha1_writes, job_writes. rewrite fold_left_app. fold (sha1_writes phys (buf_writes words) s).
    unfold buf_writes. rewrite (buf_writes_effect phys words 0) by (done || (by intros ->)). done.
  - rewrite blocks_of_one by (rewrite length_concat_le32; lia). apply go_state_buf.
Qed.

(** A job: the chaining state absorbs the blocks of the job. *)
Lemma sha1_job_step phys j s : job_ok j -> sha1_idle s ->
  let s' := sha1_writes phys (job_writes j) s in
  sh_state s' = fold_left sha1_compress (blocks_of (job_bytes phys j)) (sh_state s) /\ sha1_idle s' /\
  ipod_touch_sha1_last_hash s' = Some (concat ((fun i => be32 (rd (sh_state s') i)) <$> seqZ 0 5)).
Proof.
  intros Hj [Hd Hb].
  assert (Go : exists s0, sha1_writes phys (job_writes j) s = sha1_run phys false (sha1_clear_irq s0) /\
    length (sh_hw_buffer s0) = 16%nat /\
    go_state phys s0 = fold_left sha1_compress (blocks_of (job_bytes phys j)) (sh_state s)).
  - destruct j as [addr len|words]; [by apply job_mem_go|by apply job_buf_go].
  - destruct Go as (s0 & -> & H16 & E). cbv zeta.
    destruct (sha1_run_fields phys false s0) as (E1 & E2 & E3). rewrite E1, E2, E. auto.
Qed.

Lemma blocks_of_app m k : zlen m mod 64 = 0 -> blocks_of (m ++ k) = blocks_of m ++ blocks_of k.
Proof.
  intros Hm. pose proof (zlen_nonneg m). pose proof (zlen_nonneg k). unfold blocks_of.
  pose proof (Z.div_mod (zlen m) 64 ltac:(lia)) as E. rewrite Hm in E.
  assert (0 <= zlen k / 64) by (apply Z.div_pos; lia).
  rewrite zlen_app. replace (zlen m + zlen k) with (zlen m / 64 * 64 + zlen k) by lia.
  rewrite Z.div_add_l, seqZ_app, fmap_app by lia. f_equal.
  - apply list_fmap_ext. intros _ i Hi%list_elem_of_lookup_2%elem_of_seqZ.
    unfold sha1_block, ztake, zdrop, zlen in *. rewrite drop_app_le, take_app_le by (rewrite ?length_drop; lia). done.
  - replace (seqZ (0 + zlen m / 64) (zlen k / 64)) with (Z.add (zlen m / 64) <$> seqZ 0 (zlen k / 64))
      by (rewrite fmap_add_seqZ; f_equal; lia).
    rewrite <- list_fmap_compose. apply list_fmap_ext. intros _ i Hi%list_elem_of_lookup_2%elem_of_seqZ.
    cbv [compose]. unfold sha1_block, zdrop. rewrite drop_app_ge by (unfold zlen in *; lia).
    do 2 f_equal. unfold zlen in *. lia.
Qed.

Lemma job_bytes_len phys j : job_ok j -> zlen (job_bytes phys j) mod 64 = 0.
Proof.
  destruct j as [addr len|words]; simpl; unfold zlen.
  - intros (_ & H & Hm). by rewrite length_phys_read, Z2Nat.id by lia.
  - intros [Hw _]. by rewrite length_concat_le32, Hw.
Qed.

Lemma sha1_jobs_chain phys js s : Forall job_ok js -> sha1_idle s ->
  let s' := sha1_writes phys (concat (job_writes <$> js)) s in
  sh_state s' = fold_left sha1_compress (blocks_of (concat (job_bytes phys <$> js))) (sh_state s) /\
  (js <> [] -> ipod_touch_sha1_last_hash s' = Some (concat ((fun i => be32 (rd (sh_state s') i)) <$> seqZ 0 5))).
Proof.
  intros Hj. revert s. induction Hj as [|j js Hj Hjs IH]; intros s Hs; [done|]. cbv zeta.
  rewrite !fmap_cons, !concat_cons, blocks_of_app, fold_left_app by by apply job_bytes_len.
  unfold sha1_writes. rewrite fold_left_app. fold (sha1_writes phys (job_writes j) s).
  destruct (sha1_job_step phys j s Hj Hs) as (E & Hi & Hh). specialize (IH _ Hi) as [E' Hh'].
  fold (sha1_writes phys (concat (job_writes <$> js)) (sha1_writes phys (job_writes j) s)).
  rewrite E', E. split; [done|]. intros _. destruct js as [|j' js']; [|rewrite <- E, <- E'; by apply Hh'].
  change (sha1_writes phys (concat (job_writes <$> [])) ?x) with x. rewrite Hh, E. done.
Qed.

(** Five words read back as bytes. *)
Lemma chain_bytes st : chain_ok st ->
  concat ((fun i => be32 (rd st i)) <$> seqZ 0 5) = concat (be32 <$> st) /\
  concat ((fun i => le32 (bswap32 (rd st i))) <$> seqZ 0 5) = concat (be32 <$> st).
Proof.
  intros [H5 Hu]. destruct st as [|a [|b [|c [|d [|e [|]]]]]]; try discriminate.
  do 5 (apply Forall_cons in Hu as [? Hu]). split; [done|].
  change (seqZ 0 5) with [0; 1; 2; 3; 4]. cbn [fmap list_fmap].
  change (rd _ 0) with a. change (rd _ 1) with b. change (rd _ 2) with c. change (rd _ 3) with d. change (rd _ 4) with e.
  by rewrite !le32_bswap32.
Qed.

Lemma fips_pad_ok m : is_bytes m -> is_bytes (fips_pad m).
Proof.
  intros H. unfold fips_pad. repeat apply is_bytes_app_2 || idtac.
  rewrite !is_bytes_app. split; [done|]. split; [repeat constructor; lia|].
  split; [|split; apply be32_bytes]. apply Forall_replicate. unfold is_byte. lia.
Qed.

Lemma fips_chain m : is_bytes m -> chain_ok (fold_left fips_block (blocks_of (fips_pad m)) fips_h0) /\
  fold_left sha1_compress (blocks_of (fips_pad m)) fips_h0 = fold_left fips_block (blocks_of (fips_pad m)) fips_h0.
Proof.
  intros Hm. destruct (sha1_blocks_spec (blocks_of (fips_pad m)) fips_h0) as [E H]; [|by apply blocks_of_ok, fips_pad_ok|done].
  split; [done|]. repeat constructor; unfold is_u32; lia.
Qed.

Lemma sha1_hash_regs s : chain_ok (sh_state s) ->
  concat ((fun i => le32 (ipod_touch_sha1_read (SHA_HASHOUT + 4 * i) s)) <$> seqZ 0 5) = concat (be32 <$> sh_state s).
Proof. intros H. rewrite <- (proj2 (chain_bytes _ H)). reflexivity. Qed.

Lemma sha1_write_reset phys v s : ipod_touch_sha1_write phys SHA_RESET v s = sha1_reset s.
Proof.
  unfold ipod_touch_sha1_write. change (SHA_RESET =? SHA_CONFIG) with false.
  by change (SHA_RESET =? SHA_RESET) with true.
Qed.

Lemma sha1_writes_cons phys o v ws s :
  sha1_writes phys ((o, v) :: ws) s = sha1_writes phys ws (ipod_touch_sha1_write phys o v s).
Proof. done. Qed.

Lemma sha1_reset_idle s : sha1_idle (sha1_reset s) /\ sh_state (sha1_reset s) = fips_h0.
Proof. unfold sha1_reset, sha1_clear_irq, sha1_idle. destruct s. simpl. by destruct (negb _). Qed.

(** What a sequence of jobs leaves behind. *)
Lemma sha1_jobs_hash phys js m s :
  Forall job_ok js -> is_bytes m -> concat (job_bytes phys <$> js) = fips_pad m ->
  let s' := sha1_writes phys ((SHA_RESET, 1) :: concat (job_writes <$> js)) s in
  concat ((fun i => le32 (ipod_touch_sha1_read (SHA_HASHOUT + 4 * i) s')) <$> seqZ 0 5) = fips_sha1 m /\
  ipod_touch_sha1_last_hash s' = Some (fips_sha1 m).
Proof.
  intros Hj Hm E. cbv zeta.
  assert (Hne : js <> []) by (intros ->; apply eq_sym, app_eq_nil in E as [_ E]; discriminate E).
  rewrite sha1_writes_cons, sha1_write_reset.
  destruct (sha1_reset_idle s) as [Hi Hs]. destruct (sha1_jobs_chain phys js _ Hj Hi) as [E1 E2].
  destruct (fips_chain m Hm) as [Hc Hf]. rewrite E, Hs, Hf in E1.
  rewrite <- E1 in Hc.
  rewrite (E2 Hne), (sha1_hash_regs _ Hc), (proj1 (chain_bytes _ Hc)), E1. split; reflexivity.
Qed.

(** C15. The S5L8720 engine hashes: from a reset, however the guest divides a
    message it padded into jobs over guest memory (any number of whole blocks,
    batched by the engine or not) and blocks through the hardware buffer, the
    five hash registers, read as bytes, and the digest kept for the public-key
    engine are the SHA-1 of the message. *)
Theorem sha1_jobs_digest phys js m s :
  Forall job_ok js -> is_bytes m -> concat (job_bytes phys <$> js) = fips_pad m ->
  let s' := sha1_writes phys ((SHA_RESET, 1) :: concat (job_writes <$> js)) s in
  concat ((fun i => le32 (ipod_touch_sha1_read (SHA_HASHOUT + 4 * i) s')) <$> seqZ 0 5) = fips_sha1 m /\
  ipod_touch_sha1_last_hash s' = Some (fips_sha1 m).
Proof. apply sha1_jobs_hash. Qed.

Definition ex_msg : bytes := replicate 70 97.

(** Guest memory with the first block of the padded message at [0x8000]. *)
Definition ex_phys (a : Z) : Z := rd (fips_pad ex_msg) (a - 0x8000).

Lemma sha1_jobs_digest_witness :
  let js := [JobMem 0x8000 64; JobBuf (ld_le32 (fips_pad ex_msg) <$> (Z.mul 4 <$> seqZ 16 16))] in
  let s' := sha1_writes ex_phys ((SHA_RESET, 1) :: concat (job_writes <$> js)) sha1_zero in
  concat ((fun i => le32 (ipod_touch_sha1_read (SHA_HASHOUT + 4 * i) s')) <$> seqZ 0 5) = fips_sha1 ex_msg /\
  ipod_touch_sha1_last_hash s' = Some (fips_sha1 ex_msg).
Proof.
  refine (sha1_jobs_digest ex_phys _ ex_msg sha1_zero _ _ _).
  - repeat constructor; vm_compute; intuition discriminate.
  - repeat constructor; vm_compute; discriminate.
  - vm_compute. reflexivity.
Defined.

(** ** The engine of the S5L8930 *)

Definition a4_writes (ws : list (Z * Z)) (s : S5L8930SHA1State) : S5L8930SHA1State :=
  fold_left (fun s ov => sha1_write ov.1 ov.2 s) ws s.

(** The A4's jobs: whole blocks through the FIFO after a start, or one block
    written in place before it. *)
Inductive a4_job :=
| A4Fifo (words : list Z)
| A4Pio (words : list Z).

Definition a4_start (cont : bool) : Z * Z :=
  (SHA1_CMD, if cont then Z.lor CMD_START CMD_CONTINUE else CMD_START).

Definition a4_job_writes (cont : bool) (j : a4_job) : list (Z * Z) :=
  match j with
  | A4Fifo words => a4_start cont :: (pair SHA1_FIFO <$> words)
  | A4Pio words => imap (fun i w => (SHA1_DATA + 4 * Z.of_nat i, w)) words ++ [a4_start cont]
  end.

Definition a4_job_words (j : a4_job) : list Z := match j with A4Fifo ws => ws | A4Pio ws => ws end.

Definition a4_job_ok (j : a4_job) : Prop :=
  Forall is_u32 (a4_job_words j) /\
  match j with A4Fifo ws => zlen ws mod 16 = 0 | A4Pio ws => length ws = 16%nat end.

(** Between jobs no word of a block is pending. *)
Definition a4_idle (s : S5L8930SHA1State) : Prop := a4_pio_words s = 0 /\ length (a4_block s) = 64%nat.

Lemma st_le32_at (p : list Z) (x rest : bytes) w : length x = 4%nat ->
  st_le32 (concat (le32 <$> p) ++ x ++ rest) (4 * zlen p) w = concat (le32 <$> (p ++ [w])) ++ rest.
Proof.
  intros Hx. unfold st_le32. replace (Z.to_nat (4 * zlen p)) with (length (concat (le32 <$> p)))
    by (rewrite length_concat_le32; unfold zlen; lia).
  rewrite blit_mid by (rewrite Hx; done). rewrite fmap_app, concat_app, <- app_assoc. done.
Qed.

(** The FIFO holding the words [p] of a block. *)
Definition a4_fifo (p : list Z) (s : S5L8930SHA1State) : S5L8930SHA1State :=
  s <| a4_block := concat (le32 <$> p) ++ drop (4 * length p) (a4_block s) |> <| a4_fill := 4 * zlen p |>.

Lemma u32_all p w : Forall is_u32 (p ++ [w]) -> Forall is_u32 p /\ is_u32 w.
Proof. intros [Hp Hw]%Forall_app. apply Forall_cons in Hw as [Hw _]. done. Qed.

Lemma drop_split4 n (l : bytes) : (4 * S n <= length l)%nat ->
  exists x, length x = 4%nat /\ drop (4 * n) l = x ++ drop (4 * S n) l.
Proof.
  intros H. exists (take 4 (drop (4 * n) l)). split; [rewrite length_take, length_drop; lia|].
  rewrite <- (take_drop 4 (drop (4 * n) l)) at 1. f_equal. rewrite drop_drop. f_equal. lia.
Qed.

Lemma a4_write_fifo w s : is_u32 w ->
  let s1 := s <| a4_block := st_le32 (a4_block s) (a4_fill s) w |> <| a4_fill := a4_fill s + 4 |> in
  sha1_write SHA1_FIFO w s =
  if a4_fill s + 4 =? 64 then s1 <| a4_h := sha1_compress (a4_h s) (a4_block s1) |> <| a4_fill := 0 |> else s1.
Proof. intros Hw. unfold sha1_write. rewrite u32_id by done. by destruct s. Qed.

Lemma a4_fifo_part p s : Forall is_u32 p -> (length p < 16)%nat -> length (a4_block s) = 64%nat -> a4_fill s = 0 ->
  a4_writes (pair SHA1_FIFO <$> p) s = a4_fifo p s.
Proof.
  intros Hp Hl Hb Hf. induction p as [|w p IH] using rev_ind; [destruct s; simpl in *; by subst|].
  apply u32_all in Hp as [Hp Hw]. rewrite length_app in Hl. simpl in Hl.
  unfold a4_writes in *. rewrite fmap_app, fold_left_app, IH by (done || lia). cbn [fmap list_fmap fold_left fst snd].
  rewrite a4_write_fifo by done. destruct (drop_split4 (length p) (a4_block s)) as (x & Hx & Ex); [lia|].
  assert (E1 : a4_block (a4_fifo p s) = concat (le32 <$> p) ++ x ++ drop (4 * S (length p)) (a4_block s))
    by (rewrite <- Ex; done).
  change (a4_fill (a4_fifo p s)) with (4 * zlen p).
  rewrite (proj2 (Z.eqb_neq (4 * zlen p + 4) 64)) by (unfold zlen; lia).
  rewrite E1, st_le32_at by done. unfold a4_fifo. rewrite length_app, zlen_app. simpl.
  rewrite Nat.add_1_r. change (zlen [w]) with 1. replace (4 * (zlen p + 1)) with (4 * zlen p + 4) by lia.
  by destruct s.
Qed.

Lemma a4_fifo_block p s : Forall is_u32 p -> length p = 16%nat -> length (a4_block s) = 64%nat -> a4_fill s = 0 ->
  a4_writes (pair SHA1_FIFO <$> p) s =
  s <| a4_block := concat (le32 <$> p) |> <| a4_h := sha1_compress (a4_h s) (concat (le32 <$> p)) |>.
Proof.
  intros Hp Hl Hb Hf. destruct p as [|w p _] using rev_ind; [done|].
  apply u32_all in Hp as [Hp Hw]. rewrite length_app in Hl. simpl in Hl.
  unfold a4_writes. rewrite fmap_app, fold_left_app. fold (a4_writes (pair SHA1_FIFO <$> p) s).
  rewrite (a4_fifo_part p s) by (done || lia). cbn [fmap list_fmap fold_left fst snd].
  rewrite a4_write_fifo by done. destruct (drop_split4 (length p) (a4_block s)) as (x & Hx & Ex); [lia|].
  assert (E1 : a4_block (a4_fifo p s) = concat (le32 <$> p) ++ x ++ drop (4 * S (length p)) (a4_block s))
    by (rewrite <- Ex; done).
  change (a4_fill (a4_fifo p s)) with (4 * zlen p).
  rewrite (proj2 (Z.eqb_eq (4 * zlen p + 4) 64)) by (unfold zlen; lia).
  rewrite E1, st_le32_at, drop_ge, app_nil_r by (done || lia). destruct s; simpl in *; by subst.
Qed.

(** Whole blocks through the FIFO. *)
Lemma a4_fifo_blocks n p s : Forall is_u32 p -> length p = (16 * n)%nat -> length (a4_block s) = 64%nat -> a4_fill s = 0 ->
  let s' := a4_writes (pair SHA1_FIFO <$> p) s in
  a4_h s' = fold_left sha1_compress (blocks_of (concat (le32 <$> p))) (a4_h s) /\
  length (a4_block s') = 64%nat /\ a4_fill s' = 0 /\ a4_pio_words s' = a4_pio_words s.
Proof.
  revert p s. induction n as [|n IH]; intros p s Hp Hl Hb Hf; [by destruct p|]. cbv zeta.
  rewrite <- (take_drop 16 p) in Hp |- *. apply Forall_app in Hp as [Hp1 Hp2].
  set (p1 := take 16 p) in *. set (p2 := drop 16 p) in *.
  assert (length p1 = 16%nat) by (unfold p1; rewrite length_take; lia).
  assert (length p2 = (16 * n)%nat) by (unfold p2; rewrite length_drop; lia).
  assert (L1 : length (concat (le32 <$> p1)) = 64%nat) by (rewrite length_concat_le32; lia).
  unfold a4_writes. rewrite !fmap_app, fold_left_app. fold (a4_writes (pair SHA1_FIFO <$> p1) s).
  rewrite (a4_fifo_block p1 s) by done. set (s1 := _ <| a4_h := _ |>).
  fold (a4_writes (pair SHA1_FIFO <$> p2) s1).
  destruct (IH p2 s1) as (E & E2 & E3 & E4); [done|done|done|exact Hf|].
  rewrite concat_app, blocks_of_app, fold_left_app, (blocks_of_one _ L1) by (unfold zlen; by rewrite L1).
  rewrite E. done.
Qed.

(** The block holding the words [p], written in place. *)
Definition a4_pio (p : list Z) (s : S5L8930SHA1State) : S5L8930SHA1State :=
  s <| a4_block := concat (le32 <$> p) ++ drop (4 * length p) (a4_block s) |> <| a4_pio_words := 2 ^ zlen p - 1 |>.

Lemma a4_write_data k w s : 0 <= k < 16 -> is_u32 w ->
  sha1_write (SHA1_DATA + 4 * k) w s =
  s <| a4_block := st_le32 (a4_block s) (4 * k) w |> <| a4_pio_words ::= fun p => Z.lor p (Z.shiftl 1 k) |>.
Proof.
  intros Hk Hw. unfold sha1_write, SHA1_CMD, SHA1_DATA. rewrite u32_id by done. cbv zeta.
  rewrite (proj2 (Z.eqb_neq (0x40 + 4 * k) 0)) by lia.
  rewrite (proj2 (Z.leb_le 0x40 (0x40 + 4 * k))), (proj2 (Z.leb_le (0x40 + 4 * k) (0x40 + 0x3c))) by lia.
  replace (0x40 + 4 * k - 0x40) with (4 * k) by lia.
  replace (Z.shiftr (4 * k) 2) with k; [by destruct s|].
  rewrite Z.shiftr_div_pow2 by lia. change (2 ^ 2) with 4. rewrite Z.mul_comm, Z.div_mul; lia.
Qed.

Lemma a4_pio_part p s : Forall is_u32 p -> (length p <= 16)%nat -> a4_idle s ->
  a4_writes (imap (fun i w => (SHA1_DATA + 4 * Z.of_nat i, w)) p) s = a4_pio p s.
Proof.
  intros Hp Hl [Hi Hb]. induction p as [|w p IH] using rev_ind; [destruct s; simpl in *; by subst|].
  apply u32_all in Hp as [Hp Hw]. rewrite length_app in Hl. simpl in Hl.
  unfold a4_writes in *. rewrite imap_app, fold_left_app, IH by (done || lia).
  cbn [imap fold_left fst snd]. rewrite Nat.add_0_r, a4_write_data by (done || lia).
  destruct (drop_split4 (length p) (a4_block s)) as (x & Hx & Ex); [lia|].
  assert (E1 : a4_block (a4_pio p s) = concat (le32 <$> p) ++ x ++ drop (4 * S (length p)) (a4_block s))
    by (rewrite <- Ex; done).
  rewrite E1, (st_le32_at p) by done. unfold a4_pio. rewrite length_app, zlen_app. simpl.
  rewrite Nat.add_1_r. change (zlen [w]) with 1.
  assert (E : Z.lor (2 ^ zlen p - 1) (Z.shiftl 1 (Z.of_nat (length p))) = 2 ^ (zlen p + 1) - 1).
  { pose proof (zlen_nonneg p). fold (zlen p). rewrite Z.lor_comm, lor_shiftl_add, Z.pow_add_r by lia. lia. }
  destruct s. unfold upd, upd_a4_block, upd_a4_pio_words. simpl. by rewrite E.
Qed.

(** Record updates as records. *)
Ltac a4_cbv := cbv [upd upd_a4_cmd upd_a4_mode upd_a4_h upd_a4_block upd_a4_fill upd_a4_pio_words
  a4_cmd a4_mode a4_h a4_block a4_fill a4_pio_words].

Lemma a4_start_spec cont s : sha1_write (a4_start cont).1 (a4_start cont).2 s =
  let h := if cont then a4_h s else sha1_init in
  s <| a4_cmd := (a4_start cont).2 |>
    <| a4_h := if a4_pio_words s =? 0xffff then sha1_compress h (a4_block s) else h |>
    <| a4_fill := 0 |> <| a4_pio_words := 0 |>.
Proof. destruct s as [c m h b f p], cont; unfold sha1_write; simpl; destruct (p =? 0xffff); a4_cbv; reflexivity. Qed.

Lemma a4_started_block c h s :
  a4_block (s <| a4_cmd := c |> <| a4_h := h |> <| a4_fill := 0 |> <| a4_pio_words := 0 |>) = a4_block s.
Proof. by destruct s. Qed.

(** A job, started afresh or continuing. *)
Lemma a4_job_step cont j s : a4_job_ok j -> a4_idle s ->
  let s' := a4_writes (a4_job_writes cont j) s in
  a4_h s' = fold_left sha1_compress (blocks_of (concat (le32 <$> a4_job_words j))) (if cont then a4_h s else sha1_init) /\
  a4_idle s'.
Proof.
  intros [Hu Hj] Hi. destruct j as [ws|ws]; simpl a4_job_words in *; cbv zeta.
  - unfold a4_writes, a4_job_writes. cbn [fold_left]. rewrite a4_start_spec. destruct Hi as [Hp Hb].
    rewrite Hp. change (0 =? 0xffff) with false. cbv zeta iota.
    set (s1 := _ <| a4_pio_words := 0 |>). fold (a4_writes (pair SHA1_FIFO <$> ws) s1).
    assert (length ws = (16 * Z.to_nat (zlen ws / 16))%nat).
    { unfold zlen in *. pose proof (Z.div_mod (Z.of_nat (length ws)) 16). lia. }
    destruct (a4_fifo_blocks (Z.to_nat (zlen ws / 16)) ws s1) as (E1 & E2 & E3 & E4); [done..|].
    rewrite E1. split; [done|]. split; [by rewrite E4|done].
  - unfold a4_writes, a4_job_writes. rewrite fold_left_app.
    fold (a4_writes (imap (fun i w => (SHA1_DATA + 4 * Z.of_nat i, w)) ws) s).
    rewrite a4_pio_part by (done || lia). cbn [fold_left]. rewrite a4_start_spec.
    assert (L : length (concat (le32 <$> ws)) = 64%nat) by (rewrite length_concat_le32; lia).
    assert (Eb : a4_block (a4_pio ws s) = concat (le32 <$> ws)).
    { unfold a4_pio. simpl. rewrite drop_ge by (destruct Hi; lia). apply app_nil_r. }
    assert (Ep : a4_pio_words (a4_pio ws s) = 0xffff) by (unfold a4_pio, zlen; simpl; by rewrite Hj).
    rewrite Ep, Eb. change (0xffff =? 0xffff) with true. cbv zeta iota. rewrite (blocks_of_one _ L).
    split; [by destruct cont|]. split; [done|]. by rewrite a4_started_block, Eb.
Qed.

Lemma a4_words_len j : a4_job_ok j -> zlen (concat (le32 <$> a4_job_words j)) mod 64 = 0.
Proof.
  intros [_ H]. unfold zlen in *. rewrite length_concat_le32. destruct j as [ws|ws]; cbn [a4_job_words] in *; [|by rewrite H].
  rewrite Nat2Z.inj_mul. change (Z.of_nat 4) with 4. change 64 with (4 * 16).
  rewrite Z.mul_mod_distr_l by lia. lia.
Qed.

Lemma a4_jobs_chain js s : Forall a4_job_ok js -> a4_idle s ->
  let s' := a4_writes (concat (a4_job_writes true <$> js)) s in
  a4_h s' = fold_left sha1_compress (blocks_of (concat ((fun j => concat (le32 <$> a4_job_words j)) <$> js))) (a4_h s).
Proof.
  intros Hj. revert s. induction Hj as [|j js Hj Hjs IH]; intros s Hs; [done|]. cbv zeta.
  destruct (a4_job_step true j s Hj Hs) as [E Hi]. specialize (IH _ Hi).
  rewrite !fmap_cons, !concat_cons, blocks_of_app, fold_left_app by by apply a4_words_len.
  unfold a4_writes. rewrite fold_left_app. fold (a4_writes (a4_job_writes true j) s).
  fold (a4_writes (concat (a4_job_writes true <$> js)) (a4_writes (a4_job_writes true j) s)).
  by rewrite IH, E.
Qed.

Lemma a4_hash_regs s : chain_ok (a4_h s) ->
  concat ((fun i => le32 (sha1_read (SHA1_HASH + 4 * i) s)) <$> seqZ 0 5) = concat (be32 <$> a4_h s).
Proof. intros H. rewrite <- (proj2 (chain_bytes _ H)). reflexivity. Qed.

(** The S5L8930 engine hashes: however the guest divides a message it padded
    into blocks streamed through the FIFO and blocks written in place, the first
    job starting afresh and the others continuing, the five hash registers, read
    as bytes, are the SHA-1 of the message, whatever the engine did before. *)
Theorem sha1_a4_digest j js m s :
  Forall a4_job_ok (j :: js) -> is_bytes m -> a4_idle s ->
  concat ((fun j => concat (le32 <$> a4_job_words j)) <$> j :: js) = fips_pad m ->
  let s' := a4_writes (a4_job_writes false j ++ concat (a4_job_writes true <$> js)) s in
  concat ((fun i => le32 (sha1_read (SHA1_HASH + 4 * i) s')) <$> seqZ 0 5) = fips_sha1 m.
Proof.
  intros [Hj Hjs]%Forall_cons Hm Hs E. cbv zeta.
  destruct (a4_job_step false j s Hj Hs) as [E1 Hi]. pose proof (a4_jobs_chain js _ Hjs Hi) as E2. cbv zeta in E2.
  unfold a4_writes at 1. rewrite fold_left_app. fold (a4_writes (a4_job_writes false j) s).
  fold (a4_writes (concat (a4_job_writes true <$> js)) (a4_writes (a4_job_writes false j) s)).
  rewrite E1, <- fold_left_app, <- blocks_of_app in E2 by by apply a4_words_len.
  rewrite fmap_cons, concat_cons in E. rewrite E in E2.
  destruct (fips_chain m Hm) as [Hc Hf]. change sha1_init with fips_h0 in E2. rewrite Hf in E2. rewrite <- E2 in Hc.
  rewrite (a4_hash_regs _ Hc), E2. reflexivity.
Qed.

Lemma sha1_a4_digest_witness :
  let j := A4Fifo (ld_le32 (fips_pad ex_msg) <$> (Z.mul 4 <$> seqZ 0 16)) in
  let js := [A4Pio (ld_le32 (fips_pad ex_msg) <$> (Z.mul 4 <$> seqZ 16 16))] in
  let s' := a4_writes (a4_job_writes false j ++ concat (a4_job_writes true <$> js)) a4_zero in
  concat ((fun i => le32 (sha1_read (SHA1_HASH + 4 * i) s')) <$> seqZ 0 5) = fips_sha1 ex_msg.
Proof.
  refine (sha1_a4_digest _ _ ex_msg a4_zero _ _ _ _).
  - repeat constructor; vm_compute; intuition discriminate.
  - repeat constructor; vm_compute; discriminate.
  - split; reflexivity.
  - vm_compute. reflexivity.
Defined.

(** ** Invariants of the engines *)

Definition a4_fill_ok (s : S5L8930SHA1State) : Prop := 0 <= a4_fill s < 64 /\ a4_fill s mod 4 = 0.

Lemma a4_fill_ok_write o v s : a4_fill_ok s -> a4_fill_ok (sha1_write o v s).
Proof.
  unfold a4_fill_ok. intros [Hr Hm]. destruct s as [c m h b f p]. unfold sha1_write. cbv zeta.
  repeat (match goal with |- context [if ?c then _ else _] =>
            lazymatch c with context [a4_fill] => fail | context [a4_pio_words] => fail | _ => destruct c eqn:? end end);
    try (cbn; split; [lia|reflexivity]); try (cbn; split; assumption).
  - destruct (a4_pio_words _ =? _); cbn; split; (lia || reflexivity).
  - destruct (a4_pio_words _ =? _); cbn; split; (lia || reflexivity).
  - destruct (Z.eqb_spec (f + 4) 64) as [E|E]; simpl in *.
    + rewrite (proj2 (Z.eqb_eq (f + 4) 64) E). simpl. split; [lia|reflexivity].
    + rewrite (proj2 (Z.eqb_neq (f + 4) 64) E). simpl. Z.div_mod_to_equations. lia.
Qed.

(** A word written to the A4's FIFO always lands inside the 64-byte block,
    and a snapshot taken at any moment can be loaded again: whatever registers
    the guest writes and however often the device is reset, the fill level stays
    a multiple of four below 64, which is what the snapshot's check demands. *)
Theorem a4_fill_bounded ws s :
  sha1_post_load s = true -> 0 <= a4_fill s ->
  let s' := fold_left (fun s w => match w with Some (o, v) => sha1_write o v s | None => s5l8930_sha1_reset s end) ws s in
  0 <= a4_fill s' /\ a4_fill s' + 4 <= 64 /\ sha1_post_load s' = true.
Proof.
  intros Hp H0. cbv zeta.
  assert (Hs : a4_fill_ok s).
  { unfold sha1_post_load in Hp. bool_hyps. change 3 with (Z.ones 2) in *. rewrite Z.land_ones in * by lia.
    split; [lia|assumption]. }
  assert (Hf : forall ws s, a4_fill_ok s -> a4_fill_ok
    (fold_left (fun s w => match w with Some (o, v) => sha1_write o v s | None => s5l8930_sha1_reset s end) ws s)).
  { clear. induction ws as [|[[o v]|] ws IH]; intros s Hs; [done|apply IH; by apply a4_fill_ok_write|].
    apply IH. destruct s. split; [cbn; lia|reflexivity]. }
  specialize (Hf ws s Hs). destruct Hf as [Hr Hm]. split; [lia|].
  split; [Z.div_mod_to_equations; lia|]. unfold sha1_post_load. change 3 with (Z.ones 2). rewrite Z.land_ones by lia.
  rewrite (proj2 (Z.ltb_lt _ _)) by lia. change (2 ^ 2) with 4. by rewrite Hm.
Qed.

Lemma a4_fill_bounded_witness :
  let s' := fold_left (fun s w => match w with Some (o, v) => sha1_write o v s | None => s5l8930_sha1_reset s end)
              [Some (SHA1_FIFO, 7); Some (SHA1_FIFO, 8); Some (SHA1_CMD, 2); None; Some (SHA1_FIFO, 9)] a4_zero in
  0 <= a4_fill s' /\ a4_fill s' + 4 <= 64 /\ sha1_post_load s' = true.
Proof. refine (a4_fill_bounded _ a4_zero _ _); [reflexivity|vm_compute; discriminate]. Defined.

(** A machine reset forgets half of the A4's engine: words of a block that
    were written before it still count, so the first start after it compresses
    that old block into the fresh initial value.  The register reset, in
    contrast, discards them. *)
Theorem a4_reset_stale words s :
  Forall is_u32 words -> length words = 16%nat -> a4_idle s ->
  let s1 := a4_writes (imap (fun i w => (SHA1_DATA + 4 * Z.of_nat i, w)) words) s in
  a4_h (sha1_write SHA1_CMD CMD_START (s5l8930_sha1_reset s1)) =
    sha1_compress sha1_init (concat (le32 <$> words)) /\
  a4_h (sha1_write SHA1_CMD CMD_START (sha1_write SHA1_RESET 1 s1)) = sha1_init.
Proof.
  intros Hw Hl Hi. cbv zeta. rewrite a4_pio_part by (done || lia).
  assert (Eb : a4_block (a4_pio words s) = concat (le32 <$> words)).
  { unfold a4_pio. simpl. rewrite drop_ge by (destruct Hi; lia). apply app_nil_r. }
  assert (Ep : a4_pio_words (a4_pio words s) = 0xffff) by (unfold a4_pio, zlen; simpl; by rewrite Hl).
  destruct (a4_pio words s) as [c m h b f p]. simpl in Eb, Ep. subst.
  change (SHA1_CMD) with (a4_start false).1. change CMD_START with (a4_start false).2.
  rewrite !a4_start_spec. split; reflexivity.
Qed.

Lemma a4_reset_stale_witness :
  let s1 := a4_writes (imap (fun i w => (SHA1_DATA + 4 * Z.of_nat i, w)) (replicate 16 5)) a4_zero in
  a4_h (sha1_write SHA1_CMD CMD_START (s5l8930_sha1_reset s1)) =
    sha1_compress sha1_init (concat (le32 <$> replicate 16 5)) /\
  a4_h (sha1_write SHA1_CMD CMD_START (sha1_write SHA1_RESET 1 s1)) = sha1_init.
Proof.
  refine (a4_reset_stale _ a4_zero _ _ _); [|reflexivity|split; reflexivity].
  repeat constructor; discriminate.
Defined.

(** The interrupt line follows the status register. *)
Definition irq_ok (s : IPodTouchSHA1State) : Prop := sh_irq s = negb (sh_int_status s =? 0).

Definition is_start (o v : Z) : bool := (o =? SHA_CONFIG) && Z.testbit v 1.

Lemma clear_irq_low s : irq_ok s -> sh_irq (sha1_clear_irq s) = false /\ irq_ok (sha1_clear_irq s).
Proof.
  unfold irq_ok, sha1_clear_irq. intros H. destruct (Z.eqb_spec (sh_int_status s) 0) as [E|E]; simpl.
  - rewrite H, E. done.
  - done.
Qed.

Lemma sha1_run_irq phys n s :
  sh_irq (sha1_run phys n s) = (n && negb (sh_int_enable s =? 0)) || sh_irq s /\ (irq_ok s -> irq_ok (sha1_run phys n s)).
Proof.
  unfold irq_ok, sha1_run, sha1_publish. destruct s as [lh lv c ms mm ins st hb d ie is' iq].
  destruct d, n; simpl; destruct (negb (mm =? 0)); simpl; try (destruct (negb (ie =? 0)); simpl); done.
Qed.

(** The completion interrupt of the S5L8720 engine is raised exactly for the
    jobs that ask for it: the line always follows the status register; after a
    start it is up if and only if the start word carries the interrupt bit and
    interrupts are enabled, so a polled job never leaves an interrupt behind;
    and no other write raises it. *)
Theorem sha1_irq_contract phys o v s : irq_ok s ->
  let s' := ipod_touch_sha1_write phys o v s in
  irq_ok s' /\
  (is_start o v = true -> sh_irq s' = Z.testbit v 2 && negb (sh_int_enable s =? 0)) /\
  (is_start o v = false -> sh_irq s' = true -> sh_irq s = true).
Proof.
  intros Hs. cbv zeta. destruct (clear_irq_low s Hs) as [Hl Ho]. unfold is_start.
  assert (He : sh_int_enable (sha1_clear_irq s) = sh_int_enable s)
    by (unfold sha1_clear_irq; by case_match).
  unfold ipod_touch_sha1_write. destruct (o =? SHA_CONFIG); rewrite ?andb_true_l, ?andb_false_l.
  - destruct (Z.testbit v 1); [|split; [done|split; done]].
    destruct (sha1_run_irq phys (Z.testbit v 2) (sha1_clear_irq s)) as [E H].
    split; [by apply H|]. split; [|done]. rewrite E, He, Hl. by rewrite orb_false_r.
  - split; [|split; [done|intros _]].
    + repeat case_match; try exact Hs; try exact Ho; try (by apply clear_irq_low).
    + repeat case_match; try done; try (by rewrite Hl);
        try (match goal with |- context [sha1_clear_irq ?x] => rewrite (proj1 (clear_irq_low x Hs)) end; done).
      unfold sha1_reset.
      match goal with |- context [sha1_clear_irq ?x] => by rewrite (proj1 (clear_irq_low x Hs)) end.
Qed.

Lemma sha1_irq_contract_witness :
  let s' := ipod_touch_sha1_write (fun _ => 0) SHA_CONFIG 0xe
              (ipod_touch_sha1_write (fun _ => 0) SHA_INTENABLE 1 ipod_touch_sha1_init) in
  irq_ok s' /\
  (is_start SHA_CONFIG 0xe = true -> sh_irq s' = true) /\
  (is_start SHA_CONFIG 0xe = false -> sh_irq s' = true -> false = true).
Proof.
  exact (sha1_irq_contract (fun _ => 0) SHA_CONFIG 0xe
           (ipod_touch_sha1_write (fun _ => 0) SHA_INTENABLE 1 ipod_touch_sha1_init) eq_refl).
Defined.
