(* ===== verification/Pke.v ===== *)
(** * The public-key engine

    [src/hw/arm/ipod_touch_pke.c]: Montgomery products over operand segments,
    with a cached inverse of the radix, and the option to vouch for an image by
    forging the block its signature check compares.  The big numbers are
    OpenSSL's: the class [Bignum] names the functions the device calls, and
    [BignumLaws] what their documentation says of them. *)

From Stdlib Require Import ZArith Lia.
From stdpp Require Import base numbers list.
From S2P Require Import Prelude CLib HwLib Sha1.
Local Open Scope Z_scope.

(** ** The library's interface *)

Class Bignum := {
  bignum : Type;
  BN_lebin2bn : bytes -> bignum;
  BN_one : bignum;
  BN_pow2 : Z -> bignum;                                   (* BN_new, then BN_set_bit *)
  BN_set_negative : bignum -> bignum;
  BN_is_odd : bignum -> bool;
  BN_is_one : bignum -> bool;
  BN_mod_inverse : bignum -> bignum -> option bignum;      (* NULL when there is none *)
  BN_mod_mul : bignum -> bignum -> bignum -> option bignum;
  BN_bn2binpad : bignum -> Z -> option bytes
}.

(** Little- and big-endian values of byte strings. *)
Fixpoint le_val (l : bytes) : Z := match l with [] => 0 | b :: t => b + 256 * le_val t end.

Definition be_val (l : bytes) : Z := le_val (reverse l).

Class BignumLaws (B : Bignum) := {
  bn_val : bignum -> Z;
  bn_lebin2bn l : bn_val (BN_lebin2bn l) = le_val l;
  bn_one : bn_val BN_one = 1;
  bn_pow2 k : 0 <= k -> bn_val (BN_pow2 k) = 2 ^ k;
  bn_set_negative x : 0 <= bn_val x -> bn_val (BN_set_negative x) = - bn_val x;
  bn_is_odd x : BN_is_odd x = Z.odd (bn_val x);
  bn_is_one x : BN_is_one x = (bn_val x =? 1);
  bn_mod_inverse k r m : 0 <= k -> bn_val r = 2 ^ k -> Z.odd (bn_val m) = true -> 1 < bn_val m ->
    exists i, BN_mod_inverse r m = Some i /\ 0 <= bn_val i < bn_val m /\ (bn_val i * bn_val r) mod bn_val m = 1;
  bn_mod_mul a b m : 0 < bn_val m ->
    exists p, BN_mod_mul a b m = Some p /\ bn_val p = (bn_val a * bn_val b) mod bn_val m;
  bn_bn2binpad x n : 0 <= n -> 0 <= bn_val x < 256 ^ n ->
    exists l, BN_bn2binpad x n = Some l /\ zlen l = n /\ is_bytes l /\ be_val l = bn_val x
}.

(** ** The device *)

Definition REG_PKE_START : Z := 0x8.
Definition REG_PKE_SEG_SIZE : Z := 0x14.
Definition REG_PKE_SWRESET : Z := 0x24.
Definition REG_PKE_SEG_START : Z := 0x800.
Definition PKE_SRAM : Z := 2048.

Definition sha1_digestinfo : bytes :=
  [0x30; 0x21; 0x30; 0x09; 0x06; 0x05; 0x2b; 0x0e; 0x03; 0x02; 0x1a; 0x05; 0x00; 0x04; 0x14].

Definition build_pkcs1_block (len : Z) (hash : bytes) : option bytes :=
  let tail := zlen sha1_digestinfo + 20 in
  if len <? tail + 11 then None
  else Some ([0x00; 0x01] ++ replicate (Z.to_nat (len - tail - 3)) 0xff ++ [0x00] ++ sha1_digestinfo ++ hash).

Section Device.
Context {B : Bignum}.

(** [struct IPodTouchPKEState]; the SHA-1 engine it is wired to is an argument. *)
Record IPodTouchPKEState := mkPke {
  pk_segments : bytes;
  pk_modulus : bytes;
  pk_modulus_size : Z;
  pk_key_len : Z;
  pk_seg_id : Z;
  pk_seg_sign : Z;
  pk_seg_size_reg : Z;
  pk_segment_size : Z;
  pk_forge_sigcheck : bool;
  pk_radix_inverse : option bignum;
  pk_inverse_modulus : bytes;
  pk_inverse_size : Z;
  pk_inverse_bits : Z
}.

Definition eta_pke (r : IPodTouchPKEState) : IPodTouchPKEState :=
  mkPke (pk_segments r) (pk_modulus r) (pk_modulus_size r) (pk_key_len r) (pk_seg_id r) (pk_seg_sign r)
    (pk_seg_size_reg r) (pk_segment_size r) (pk_forge_sigcheck r) (pk_radix_inverse r) (pk_inverse_modulus r)
    (pk_inverse_size r) (pk_inverse_bits r).
#[global] Instance upd_pk_segments : Upd pk_segments := ltac:(derive_upd eta_pke pk_segments).
#[global] Instance upd_pk_modulus : Upd pk_modulus := ltac:(derive_upd eta_pke pk_modulus).
#[global] Instance upd_pk_modulus_size : Upd pk_modulus_size := ltac:(derive_upd eta_pke pk_modulus_size).
#[global] Instance upd_pk_key_len : Upd pk_key_len := ltac:(derive_upd eta_pke pk_key_len).
#[global] Instance upd_pk_seg_id : Upd pk_seg_id := ltac:(derive_upd eta_pke pk_seg_id).
#[global] Instance upd_pk_seg_sign : Upd pk_seg_sign := ltac:(derive_upd eta_pke pk_seg_sign).
#[global] Instance upd_pk_seg_size_reg : Upd pk_seg_size_reg := ltac:(derive_upd eta_pke pk_seg_size_reg).
#[global] Instance upd_pk_segment_size : Upd pk_segment_size := ltac:(derive_upd eta_pke pk_segment_size).
#[global] Instance upd_pk_radix_inverse : Upd pk_radix_inverse := ltac:(derive_upd eta_pke pk_radix_inverse).
#[global] Instance upd_pk_inverse_modulus : Upd pk_inverse_modulus := ltac:(derive_upd eta_pke pk_inverse_modulus).
#[global] Instance upd_pk_inverse_size : Upd pk_inverse_size := ltac:(derive_upd eta_pke pk_inverse_size).
#[global] Instance upd_pk_inverse_bits : Upd pk_inverse_bits := ltac:(derive_upd eta_pke pk_inverse_bits).

Definition pke_zero (forge : bool) : IPodTouchPKEState :=
  mkPke (replicate 2048 0) (replicate 256 0) 0 0 0 0 0 0 forge None (replicate 256 0) 0 0.

(** The operand fields of the segment register. *)
Definition pke_a (s : IPodTouchPKEState) : Z := Z.shiftr (pk_seg_id s) 24.
Definition pke_b (s : IPodTouchPKEState) : Z := Z.land (Z.shiftr (pk_seg_id s) 16) 255.
Definition pke_m (s : IPodTouchPKEState) : Z := Z.land (Z.shiftr (pk_seg_id s) 8) 255.
Definition pke_dest (s : IPodTouchPKEState) : Z := Z.land (pk_seg_id s) 255.

(** Multiply by one instead of the second operand. *)
Definition pke_by_one (s : IPodTouchPKEState) : bool := Z.testbit (pk_seg_size_reg s) 1.

Definition pke_size_ok (size : Z) : bool := (size =? 64) || (size =? 128) || (size =? 256).

Definition pke_select_ok (s : IPodTouchPKEState) : bool :=
  let n := PKE_SRAM / pk_segment_size s in
  pke_size_ok (pk_segment_size s) && (pke_a s <? n) && (pke_dest s <? n) &&
  (pke_by_one s || (pke_b s <? n)) && (pke_m s <? n).

Definition pke_segment (s : IPodTouchPKEState) (i : Z) : bytes :=
  ztake (pk_segment_size s) (zdrop (i * pk_segment_size s) (pk_segments s)).

(** An operand with its sign. *)
Definition pke_operand (s : IPodTouchPKEState) (i : Z) : bignum :=
  let x := BN_lebin2bn (pke_segment s i) in
  if Z.testbit (pk_seg_sign s) i then BN_set_negative x else x.

(** The width of the radix. *)
Definition pke_bits (s : IPodTouchPKEState) : Z :=
  (Z.land (pk_key_len s) 3 + 1) * ((Z.land (Z.shiftr (pk_key_len s) 3) 15 + 1) * 32 + 16).

Definition pke_cached (s : IPodTouchPKEState) : bool :=
  match pk_radix_inverse s with
  | Some _ => (pk_inverse_size s =? pk_segment_size s) && (pk_inverse_bits s =? pke_bits s) &&
              bool_decide (ztake (pk_segment_size s) (pk_inverse_modulus s) = ztake (pk_segment_size s) (pk_modulus s))
  | None => false
  end.

(** The inverse of the radix: the cached one, or a new one that is then kept. *)
Definition pke_inverse (mod' : bignum) (s : IPodTouchPKEState) : IPodTouchPKEState :=
  if pke_cached s then s
  else
    match BN_mod_inverse (BN_pow2 (pke_bits s)) mod' with
    | Some i =>
        s <| pk_radix_inverse := Some i |>
          <| pk_inverse_modulus ::= fun l => blit l 0 (ztake (pk_segment_size s) (pk_modulus s)) |>
          <| pk_inverse_size := pk_segment_size s |> <| pk_inverse_bits := pke_bits s |>
    | None => s <| pk_radix_inverse := None |>
    end.

(** The block the caller compares, when the forge is to supply it. *)
Definition pke_forge (sha1 : option IPodTouchSHA1State) (s : IPodTouchPKEState) (result : bytes) : bytes :=
  let size := pk_segment_size s in
  if pke_by_one s && (pke_a s =? 2) && (pke_dest s =? 1) && pk_forge_sigcheck s then
    let valid := match build_pkcs1_block size (zdrop (size - 20) result) with
                 | Some expected => bool_decide (expected = result)
                 | None => false
                 end in
    match (if valid then None else x ← sha1; ipod_touch_sha1_last_hash x) with
    | Some hash => default result (build_pkcs1_block size hash)
    | None => result
    end
  else result.

(** The product, big-endian, and the state with the inverse it used. *)
Definition pke_product (s : IPodTouchPKEState) : option bytes * IPodTouchPKEState :=
  let size := pk_segment_size s in
  let mod' := BN_lebin2bn (ztake size (pk_modulus s)) in
  let left := pke_operand s (pke_a s) in
  let right := if pke_by_one s then BN_one else pke_operand s (pke_b s) in
  if BN_is_odd mod' && negb (BN_is_one mod') then
    let s := pke_inverse mod' s in
    (inv ← pk_radix_inverse s;
     value ← BN_mod_mul left right mod';
     value ← BN_mod_mul value inv mod';
     result ← BN_bn2binpad value size;
     Some result, s)
  else (None, s).

Definition pke_execute (sha1 : option IPodTouchSHA1State) (command : Z) (s : IPodTouchPKEState) : IPodTouchPKEState :=
  if Z.land command 9 =? 0 then s
  else if negb (pke_select_ok s) then s
  else
    let size := pk_segment_size s in
    let s := if Z.testbit command 3 then
               s <| pk_modulus ::= fun l => blit l 0 (pke_segment s (pke_m s)) |> <| pk_modulus_size := size |>
             else s in
    if negb (Z.testbit command 0) then s
    else if negb (pk_modulus_size s =? size) then s
    else
      match pke_product s with
      | (None, s) => s
      | (Some result, s) =>
          let result := pke_forge sha1 s result in
          s <| pk_segments ::= fun l => blit l (Z.to_nat (pke_dest s * size)) (reverse result) |>
            <| pk_seg_sign ::= fun v => Z.ldiff v (Z.shiftl 1 (pke_dest s)) |>
      end.

(** Whether an access of [size] bytes falls into the operand memory. *)
Definition pke_in_sram (offset size : Z) : bool :=
  negb (size =? 0) && (size <=? 4) && (REG_PKE_SEG_START <=? offset) &&
  (offset - REG_PKE_SEG_START <=? PKE_SRAM - size).

Definition ipod_touch_pke_read (offset size : Z) (s : IPodTouchPKEState) : Z :=
  if pke_in_sram offset size then
    le_val (ztake size (zdrop (offset - REG_PKE_SEG_START) (pk_segments s)))
  else if offset =? 0 then pk_key_len s
  else if offset =? 0xc then pk_seg_id s
  else if offset =? 0x10 then pk_seg_sign s
  else if offset =? REG_PKE_SEG_SIZE then pk_seg_size_reg s
  else 0.

Definition ipod_touch_pke_write (sha1 : option IPodTouchSHA1State) (offset value size : Z) (s : IPodTouchPKEState)
  : IPodTouchPKEState :=
  if pke_in_sram offset size then
    s <| pk_segments ::= fun l => blit l (Z.to_nat (offset - REG_PKE_SEG_START)) (ztake size (le32 value)) |>
  else if offset =? 0 then s <| pk_key_len := u32 value |>
  else if offset =? 0xc then s <| pk_seg_id := u32 value |>
  else if offset =? 0x10 then s <| pk_seg_sign := u32 value |>
  else if offset =? REG_PKE_SEG_SIZE then
    let f := Z.land (Z.shiftr value 6) 3 in
    s <| pk_seg_size_reg := u32 value |> <| pk_segment_size := if f =? 3 then 0 else Z.shiftr 256 f |>
  else if offset =? REG_PKE_START then pke_execute sha1 (u32 value) s
  else if offset =? REG_PKE_SWRESET then s <| pk_modulus_size := 0 |> <| pk_seg_sign := 0 |>
  else s.

Definition ipod_touch_pke_reset (s : IPodTouchPKEState) : IPodTouchPKEState :=
  s <| pk_segments := replicate 2048 0 |> <| pk_seg_size_reg := 0 |> <| pk_segment_size := 0 |>
    <| pk_key_len := 0 |> <| pk_seg_id := 0 |> <| pk_seg_sign := 0 |> <| pk_modulus_size := 0 |>
    <| pk_modulus := replicate 256 0 |>.

(** What a snapshot must satisfy to be loaded. *)
Definition pke_post_load (s : IPodTouchPKEState) : bool :=
  ((pk_segment_size s =? 0) || pke_size_ok (pk_segment_size s)) &&
  ((pk_modulus_size s =? 0) || pke_size_ok (pk_modulus_size s)).

End Device.
