(* ===== verification/PkeFacts.v ===== *)
(** * Facts about the public-key engine

    The product is Montgomery's, the cache of the radix inverse cannot be
    observed, and the forge acts only where it was switched on. *)

From Stdlib Require Import ZArith Lia Znumtheory.
From stdpp Require Import base numbers list.
From S2P Require Import Prelude CLib HwLib Sha1 Sha1Facts Pke.
Local Open Scope Z_scope.

(** ** Values of byte strings *)

Lemma le_val_app l k : le_val (l ++ k) = le_val l + 256 ^ zlen l * le_val k.
Proof.
  induction l as [|b l IH]; [change (le_val k = 0 + 1 * le_val k); lia|].
  cbn [le_val app]. rewrite IH, zlen_cons, Z.pow_add_r by (apply zlen_nonneg || lia). lia.
Qed.

Lemma le_val_range l : is_bytes l -> 0 <= le_val l < 256 ^ zlen l.
Proof.
  induction 1 as [|b l Hb Hl IH]; [vm_compute; split; [discriminate|reflexivity]|]. unfold is_byte in Hb.
  cbn [le_val]. rewrite zlen_cons, Z.pow_add_r by (apply zlen_nonneg || lia). lia.
Qed.

(** A byte string is determined by its value and its length. *)
Lemma le_val_inj l k : is_bytes l -> is_bytes k -> length l = length k -> le_val l = le_val k -> l = k.
Proof.
  intros Hl. revert k. induction Hl as [|b l Hb Hl IH]; intros [|c k] Hk Hn E; try discriminate; [done|].
  apply Forall_cons in Hk as [Hc Hk]. cbn [le_val] in E. unfold is_byte in *.
  assert (b = c /\ le_val l = le_val k) as [-> E'] by (split; lia). f_equal. apply IH; [done| |done]. by injection Hn.
Qed.

Lemma zlen_reverse {A} (l : list A) : zlen (reverse l) = zlen l.
Proof. unfold zlen. by rewrite length_reverse. Qed.

(** ** Well-formed states *)

Section Facts.
Context {B : Bignum} {L : BignumLaws B}.

(** The value of an operand, without the library. *)
Definition op_val (s : IPodTouchPKEState) (i : Z) : Z :=
  (if Z.testbit (pk_seg_sign s) i then -1 else 1) * le_val (pke_segment s i).

Definition mod_val (s : IPodTouchPKEState) : Z := le_val (ztake (pk_segment_size s) (pk_modulus s)).

(** The cached inverse is an inverse of the radix it is kept for. *)
Definition cache_ok (s : IPodTouchPKEState) : Prop :=
  match pk_radix_inverse s with
  | None => True
  | Some i =>
      let m := le_val (ztake (pk_inverse_size s) (pk_inverse_modulus s)) in
      0 <= bn_val i < m /\ (bn_val i * 2 ^ pk_inverse_bits s) mod m = 1
  end.

Definition size_val (n : Z) : Prop := n = 64 \/ n = 128 \/ n = 256.

Record pke_wf (s : IPodTouchPKEState) : Prop := {
  pw_segments : length (pk_segments s) = 2048%nat /\ is_bytes (pk_segments s);
  pw_modulus : length (pk_modulus s) = 256%nat /\ is_bytes (pk_modulus s);
  pw_inverse : length (pk_inverse_modulus s) = 256%nat /\ is_bytes (pk_inverse_modulus s);
  pw_size : pk_segment_size s = 0 \/ size_val (pk_segment_size s);
  pw_msize : pk_modulus_size s = 0 \/ size_val (pk_modulus_size s);
  pw_id : is_u32 (pk_seg_id s);
  pw_cache : cache_ok s
}.

Lemma size_ok_val n : pke_size_ok n = true <-> size_val n.
Proof.
  unfold pke_size_ok, size_val. rewrite !orb_true_iff, !Z.eqb_eq. tauto.
Qed.

(** Facts the selection check establishes. *)
Lemma select_ok_facts s : pke_wf s -> pke_select_ok s = true ->
  size_val (pk_segment_size s) /\
  (0 <= pke_a s /\ (pke_a s + 1) * pk_segment_size s <= 2048) /\
  (0 <= pke_dest s /\ (pke_dest s + 1) * pk_segment_size s <= 2048) /\
  (0 <= pke_m s /\ (pke_m s + 1) * pk_segment_size s <= 2048) /\
  (pke_by_one s = false -> 0 <= pke_b s /\ (pke_b s + 1) * pk_segment_size s <= 2048).
Proof.
  intros W H. unfold pke_select_ok in H.
  repeat match goal with H : _ && _ = true |- _ => apply andb_prop in H as [? ?] end.
  repeat match goal with H : (_ <? _) = true |- _ => apply Z.ltb_lt in H end.
  match goal with H : pke_size_ok _ = true |- _ => apply size_ok_val in H as Hs end.
  pose proof (pw_id s W) as Hid. unfold is_u32 in Hid.
  assert (0 <= pke_a s) by (apply Z.shiftr_nonneg; lia).
  assert (0 <= pke_dest s) by (apply Z.land_nonneg; lia).
  assert (0 <= pke_m s) by (apply Z.land_nonneg; lia).
  assert (0 <= pke_b s) by (apply Z.land_nonneg; lia).
  unfold PKE_SRAM in *. split; [done|].
  assert (D : forall x, x < 2048 / pk_segment_size s -> (x + 1) * pk_segment_size s <= 2048).
  { intros x Hx. destruct Hs as [Hs|[Hs|Hs]]; rewrite Hs in *; vm_compute (2048 / _) in Hx; lia. }
  split; [auto|]. split; [auto|]. split; [auto|]. intros Ho.
  match goal with H : pke_by_one s || _ = true |- _ => rewrite Ho in H; apply Z.ltb_lt in H end. auto.
Qed.

Lemma segment_ok s i : pke_wf s -> 0 <= i -> size_val (pk_segment_size s) -> (i + 1) * pk_segment_size s <= 2048 ->
  is_bytes (pke_segment s i) /\ zlen (pke_segment s i) = pk_segment_size s.
Proof.
  intros W Hi Hs Hb. destruct (pw_segments s W) as [Hl Hy]. unfold pke_segment, ztake, zdrop. split.
  - by apply is_bytes_take, is_bytes_drop.
  - unfold zlen. rewrite length_take, length_drop, Hl. unfold size_val in Hs. lia.
Qed.

Lemma operand_val s i : pke_wf s -> 0 <= i -> size_val (pk_segment_size s) -> (i + 1) * pk_segment_size s <= 2048 ->
  bn_val (pke_operand s i) = op_val s i.
Proof.
  intros W Hi Hs Hb. destruct (segment_ok s i W Hi Hs Hb) as [Hy _]. pose proof (le_val_range _ Hy).
  unfold pke_operand, op_val. destruct (Z.testbit _ _); rewrite ?bn_set_negative, bn_lebin2bn by (rewrite bn_lebin2bn; lia); lia.
Qed.

(** ** The cached inverse *)

(** Everything but the cache. *)
Definition drop_cache (s : IPodTouchPKEState) : IPodTouchPKEState :=
  s <| pk_radix_inverse := None |> <| pk_inverse_modulus := replicate 256 0 |>
    <| pk_inverse_size := 0 |> <| pk_inverse_bits := 0 |>.

Definition is_inverse (i : bignum) (s : IPodTouchPKEState) : Prop :=
  0 <= bn_val i < mod_val s /\ (bn_val i * 2 ^ pke_bits s) mod mod_val s = 1.

Lemma pke_bits_nonneg s : 0 <= pke_bits s.
Proof.
  unfold pke_bits. pose proof (proj2 (Z.land_nonneg (pk_key_len s) 3) ltac:(lia)).
  pose proof (proj2 (Z.land_nonneg (Z.shiftr (pk_key_len s) 3) 15) ltac:(lia)). nia.
Qed.

Lemma blit_take (buf src : bytes) : (length src <= length buf)%nat -> blit buf 0 src = src ++ drop (length src) buf.
Proof.
  intros H. rewrite <- (take_drop (length src) buf) at 1.
  exact (blit_mid [] (take (length src) buf) src (drop (length src) buf) ltac:(rewrite length_take; lia)).
Qed.

Lemma pke_inverse_spec s : pke_wf s -> size_val (pk_segment_size s) -> Z.odd (mod_val s) = true -> 1 < mod_val s ->
  let s1 := pke_inverse (BN_lebin2bn (ztake (pk_segment_size s) (pk_modulus s))) s in
  exists i, pk_radix_inverse s1 = Some i /\ is_inverse i s /\ pke_wf s1 /\ drop_cache s1 = drop_cache s.
Proof.
  intros W Hs Ho Hm. unfold pke_inverse. destruct (pke_cached s) eqn:Hc.
  - unfold pke_cached in Hc. pose proof (pw_cache s W) as C. unfold cache_ok in C.
    destruct (pk_radix_inverse s) as [i|] eqn:Hi; [|done]. exists i. cbv zeta in *. split; [done|].
    apply andb_prop in Hc as [[Hz Hb]%andb_prop He]. apply Z.eqb_eq in Hz, Hb. apply bool_decide_eq_true in He.
    rewrite Hz, Hb, He in C. done.
  - destruct (bn_mod_inverse (pke_bits s) (BN_pow2 (pke_bits s)) (BN_lebin2bn (ztake (pk_segment_size s) (pk_modulus s))))
      as (i & -> & Hr & Hi).
    + apply pke_bits_nonneg.
    + apply bn_pow2, pke_bits_nonneg.
    + by rewrite bn_lebin2bn.
    + by rewrite bn_lebin2bn.
    + rewrite bn_lebin2bn in Hr, Hi. rewrite bn_pow2 in Hi by apply pke_bits_nonneg. fold (mod_val s) in Hr, Hi.
      exists i. split; [done|]. split; [done|]. split; [|by destruct s].
      destruct W as [W1 W2 W3 W4 W5 W6 W7].
      assert (Hl : zlen (ztake (pk_segment_size s) (pk_modulus s)) = pk_segment_size s).
      { rewrite zlen_ztake. unfold zlen. rewrite (proj1 W2). unfold size_val in Hs. lia. }
      assert (Hl' : (length (ztake (pk_segment_size s) (pk_modulus s)) <= length (pk_inverse_modulus s))%nat).
      { unfold zlen in Hl. rewrite (proj1 W3). unfold size_val in Hs. lia. }
      constructor; [exact W1|exact W2| |exact W4|exact W5|exact W6|].
      * cbn. split; [rewrite length_blit; apply W3|]. rewrite blit_take by done. apply is_bytes_app.
        split; [apply is_bytes_take, W2|apply is_bytes_drop, W3].
      * unfold cache_ok. cbn. rewrite blit_take by done.
        assert (E : forall k, ztake (pk_segment_size s) (ztake (pk_segment_size s) (pk_modulus s) ++ k) =
                              ztake (pk_segment_size s) (pk_modulus s))
          by (intros k; rewrite <- Hl at 1; apply ztake_app_len).
        by rewrite E.
Qed.

(** Solutions of [x * R = c] modulo [M] are unique where [R] has an inverse. *)
Lemma mod_solution_unique M R i x y : (i * R) mod M = 1 -> 0 <= x < M -> 0 <= y < M ->
  (x * R) mod M = (y * R) mod M -> x = y.
Proof.
  intros Hi Hx Hy E. rewrite <- (Z.mod_small x M), <- (Z.mod_small y M) by done.
  assert (F : forall z, z mod M = ((z * R) mod M * i) mod M).
  { intros z. rewrite Z.mul_mod_idemp_l by lia. replace (z * R * i) with (z * (i * R)) by lia.
    rewrite <- Z.mul_mod_idemp_r, Hi, Z.mul_1_r by lia. done. }
  by rewrite (F x), (F y), E.
Qed.

(** What the product is, whichever inverse it used. *)
Definition is_product (x : Z) (s : IPodTouchPKEState) : Prop :=
  0 <= x < mod_val s /\
  (x * 2 ^ pke_bits s) mod mod_val s =
  (op_val s (pke_a s) * (if pke_by_one s then 1 else op_val s (pke_b s))) mod mod_val s.

Lemma pke_product_spec s : pke_wf s -> pke_select_ok s = true -> Z.odd (mod_val s) = true -> 1 < mod_val s ->
  exists result s1, pke_product s = (Some result, s1) /\ pke_wf s1 /\ drop_cache s1 = drop_cache s /\
    zlen result = pk_segment_size s /\ is_bytes result /\ is_product (be_val result) s.
Proof.
  intros W Hsel Ho Hm. destruct (select_ok_facts s W Hsel) as (Hs & [Ha Ha'] & _ & _ & Hb).
  unfold pke_product. cbv zeta. rewrite bn_is_odd, bn_is_one, bn_lebin2bn. fold (mod_val s). rewrite Ho.
  rewrite (proj2 (Z.eqb_neq _ _)) by lia. cbn [negb andb].
  destruct (pke_inverse_spec s W Hs Ho Hm) as (i & -> & [Hi0 Hi1] & W1 & E1).
  set (mod' := BN_lebin2bn _) in *. assert (Ev : bn_val mod' = mod_val s) by apply bn_lebin2bn.
  set (right := if pke_by_one s then BN_one else _).
  assert (Er : bn_val right = if pke_by_one s then 1 else op_val s (pke_b s)).
  { unfold right. destruct (pke_by_one s) eqn:Eo; [apply bn_one|]. destruct (Hb eq_refl). by apply operand_val. }
  destruct (bn_mod_mul (pke_operand s (pke_a s)) right mod') as (p & Ep & Vp); [lia|].
  destruct (bn_mod_mul p i mod') as (q & Eq & Vq); [lia|].
  rewrite Ev, Er, operand_val in Vp by done. rewrite Ev, Vp in Vq.
  assert (Hq : 0 <= bn_val q < mod_val s) by (rewrite Vq; apply Z.mod_pos_bound; lia).
  assert (Hlim : mod_val s < 256 ^ pk_segment_size s).
  { destruct (pw_modulus s W) as [Hl Hy]. unfold mod_val.
    replace (pk_segment_size s) with (zlen (ztake (pk_segment_size s) (pk_modulus s))) at 2.
    - apply le_val_range. by apply is_bytes_take.
    - rewrite zlen_ztake. unfold zlen. rewrite Hl. unfold size_val in Hs. lia. }
  destruct (bn_bn2binpad q (pk_segment_size s)) as (l & El & Hl & Hy & Vl); [unfold size_val in Hs; lia|lia|].
  exists l, (pke_inverse mod' s). simpl. rewrite Ep. simpl. rewrite Eq. simpl. rewrite El. simpl.
  split; [done|]. split; [done|]. split; [done|]. split; [done|]. split; [done|].
  rewrite Vl. split; [done|]. rewrite Vq. set (C := op_val s (pke_a s) * _) in *.
  rewrite Z.mul_mod_idemp_l, <- Z.mul_assoc, Z.mul_mod_idemp_l by lia.
  rewrite <- Z.mul_mod_idemp_r, Hi1, Z.mul_1_r by lia. done.
Qed.

(** ** A command *)

(** Storing a result. *)
Definition pke_store (result : bytes) (s : IPodTouchPKEState) : IPodTouchPKEState :=
  s <| pk_segments ::= fun l => blit l (Z.to_nat (pke_dest s * pk_segment_size s)) (reverse result) |>
    <| pk_seg_sign ::= fun v => Z.ldiff v (Z.shiftl 1 (pke_dest s)) |>.

(** Loading the modulus. *)
Definition pke_load (s : IPodTouchPKEState) : IPodTouchPKEState :=
  s <| pk_modulus ::= fun l => blit l 0 (pke_segment s (pke_m s)) |> <| pk_modulus_size := pk_segment_size s |>.

Lemma drop_cache_size s t : drop_cache s = drop_cache t -> pk_segment_size s = pk_segment_size t /\ pke_dest s = pke_dest t.
Proof. intros E. split; [exact (f_equal pk_segment_size E)|exact (f_equal pke_dest E)]. Qed.

Lemma product_size s r s1 : pke_product s = (r, s1) -> drop_cache s1 = drop_cache s.
Proof.
  unfold pke_product, pke_inverse. intros E.
  destruct (_ && _); [|by injection E as _ <-].
  destruct (pke_cached s); [by injection E as _ <-|].
  destruct (BN_mod_inverse _ _); injection E as _ <-; by destruct s.
Qed.

Lemma pke_execute_spec sha1 c s : pke_wf s ->
  pke_execute sha1 c s =
  if (Z.land c 9 =? 0) || negb (pke_select_ok s) then s
  else
    let s := if Z.testbit c 3 then pke_load s else s in
    if negb (Z.testbit c 0) || negb (pk_modulus_size s =? pk_segment_size s) then s
    else match pke_product s with
         | (None, s) => s
         | (Some result, s) => pke_store (pke_forge sha1 s result) s
         end.
Proof.
  intros W. unfold pke_execute. destruct (Z.land c 9 =? 0); [done|]. cbn [orb].
  destruct (pke_select_ok s); [|done]. cbn [negb].
  destruct (Z.testbit c 3), (Z.testbit c 0); cbn [negb orb]; try done.
  - fold (pke_load s). change (pk_segment_size (pke_load s)) with (pk_segment_size s).
    destruct (pk_modulus_size (pke_load s) =? pk_segment_size s); [|done]. cbn [negb].
    destruct (pke_product (pke_load s)) as [[r|] s1] eqn:E; [|done].
    assert (Es : pk_segment_size s1 = pk_segment_size s); [|by rewrite <- Es].
    change (pk_segment_size s) with (pk_segment_size (pke_load s)). apply (drop_cache_size s1). by eapply product_size.
  - destruct (pk_modulus_size s =? pk_segment_size s); [|done]. cbn [negb].
    destruct (pke_product s) as [[r|] s1] eqn:E; [|done].
    assert (Es : pk_segment_size s1 = pk_segment_size s); [|by rewrite <- Es]. apply (drop_cache_size s1). by eapply product_size.
Qed.

(** The digest the SHA-1 engine offers is a digest. *)
Definition digest_ok (sha1 : option IPodTouchSHA1State) : Prop :=
  forall x h, sha1 = Some x -> ipod_touch_sha1_last_hash x = Some h -> length h = 20%nat /\ is_bytes h.

Lemma pkcs1_ok n h : size_val n -> length h = 20%nat -> is_bytes h ->
  exists l, build_pkcs1_block n h = Some l /\ zlen l = n /\ is_bytes l.
Proof.
  intros Hn Hh Hb. unfold build_pkcs1_block. change (zlen sha1_digestinfo) with 15. cbv zeta.
  rewrite (proj2 (Z.ltb_ge _ _)) by (unfold size_val in Hn; lia). eexists. split; [done|]. split.
  - rewrite !zlen_app. change (zlen sha1_digestinfo) with 15. change (zlen [0x00; 0x01]) with 2. change (zlen [0]) with 1.
    unfold zlen. rewrite length_replicate, Hh. unfold size_val in Hn. lia.
  - rewrite !is_bytes_app. split; [repeat constructor; lia|]. split; [apply Forall_replicate; unfold is_byte; lia|].
    split; [repeat constructor; lia|]. split; [repeat constructor; lia|done].
Qed.

Lemma forge_ok sha1 s r : size_val (pk_segment_size s) -> digest_ok sha1 -> zlen r = pk_segment_size s -> is_bytes r ->
  zlen (pke_forge sha1 s r) = pk_segment_size s /\ is_bytes (pke_forge sha1 s r).
Proof.
  intros Hs Hd Hl Hb. unfold pke_forge. cbv zeta. destruct (_ && _ && _ && _); [|done].
  destruct (match build_pkcs1_block _ _ with Some _ => _ | None => _ end); [done|].
  destruct sha1 as [x|]; [|done]. simpl. destruct (ipod_touch_sha1_last_hash x) as [h|] eqn:E; [|done].
  destruct (Hd x h eq_refl E) as [Hh Hy]. by destruct (pkcs1_ok _ h Hs Hh Hy) as (l & -> & ? & ?).
Qed.

Lemma pke_wf_load s : pke_wf s -> pke_select_ok s = true -> pke_wf (pke_load s).
Proof.
  intros W Hsel. destruct (select_ok_facts s W Hsel) as (Hs & _ & _ & [Hm Hm'] & _).
  destruct (segment_ok s (pke_m s) W Hm Hs Hm') as [Hy _]. destruct W as [W1 W2 W3 W4 W5 W6 W7].
  constructor; [exact W1| |exact W3|exact W4|right; exact Hs|exact W6|exact W7].
  cbn. split; [rewrite length_blit; apply W2|apply is_bytes_blit; [apply W2|done]].
Qed.

Lemma pke_wf_store r s : pke_wf s -> pke_select_ok s = true -> is_bytes r -> pke_wf (pke_store r s).
Proof.
  intros W Hsel Hr. destruct W as [W1 W2 W3 W4 W5 W6 W7].
  constructor; [|exact W2|exact W3|exact W4|exact W5|exact W6|exact W7].
  cbn. split; [rewrite length_blit; apply W1|apply is_bytes_blit; [apply W1|by apply Forall_reverse]].
Qed.

(** What a stored result does to the segments. *)
Lemma pke_store_segments r s : pke_wf s -> pke_select_ok s = true -> zlen r = pk_segment_size s ->
  pke_segment (pke_store r s) (pke_dest s) = reverse r /\
  (forall i, 0 <= i -> i <> pke_dest s -> pke_segment (pke_store r s) i = pke_segment s i) /\
  Z.testbit (pk_seg_sign (pke_store r s)) (pke_dest s) = false.
Proof.
  intros W Hsel Hr. destruct (select_ok_facts s W Hsel) as (Hs & _ & [Hd Hd'] & _ & _).
  assert (Hl : length (reverse r) = Z.to_nat (pk_segment_size s)) by (rewrite length_reverse; unfold zlen in Hr; lia).
  destruct (pw_segments s W) as [H2 _]. unfold size_val in Hs. unfold pke_segment, ztake, zdrop. cbn. split; [|split].
  - rewrite <- Hl. apply slice_blit_in. rewrite H2. lia.
  - intros i Hi Hne. apply slice_blit_out. rewrite Hl. destruct (Z.lt_ge_cases i (pke_dest s)); [left|right]; nia.
  - rewrite Z.ldiff_spec, Z.shiftl_spec, Z.sub_diag by lia. apply andb_false_r.
Qed.

(** A start with the modulus loaded. *)
Lemma pke_start_spec s : pke_wf s -> pke_select_ok s = true ->
  pk_modulus_size s = pk_segment_size s -> Z.odd (mod_val s) = true -> 1 < mod_val s ->
  exists r s1, (forall sha1, pke_execute sha1 1 s = pke_store (pke_forge sha1 s r) s1) /\
    pke_wf s1 /\ drop_cache s1 = drop_cache s /\ pke_select_ok s1 = true /\
    zlen r = pk_segment_size s /\ is_bytes r /\ is_product (be_val r) s.
Proof.
  intros W Hsel Hsz Ho Hm. destruct (pke_product_spec s W Hsel Ho Hm) as (r & s1 & E & W1 & E1 & Hl & Hb & Hp).
  exists r, s1. split; [intros sha1|split; [done|split; [done|split; [|done]]]].
  - rewrite pke_execute_spec, Hsel by done. change (Z.land 1 9 =? 0) with false.
    change (Z.testbit 1 3) with false. change (Z.testbit 1 0) with true. cbv zeta. cbn [negb orb].
    rewrite (proj2 (Z.eqb_eq _ _) Hsz), E. cbn [negb].
    f_equal. change (pke_forge sha1 s1 r) with (pke_forge sha1 (drop_cache s1) r). by rewrite E1.
  - change (pke_select_ok s1) with (pke_select_ok (drop_cache s1)). by rewrite E1.
Qed.

(** C16. A start computes the Montgomery product: with the modulus M loaded, odd
    and above one, and the forge out of play, the destination segment holds the
    one residue x below M with x * R = A * B modulo M, where R is the radix of
    the key length register and A and B are the selected operands with their
    signs (or B is one); its sign is cleared and every other segment keeps its
    content.  Whether the radix inverse was cached makes no difference. *)
Theorem pke_montgomery sha1 s :
  pke_wf s -> pke_select_ok s = true -> digest_ok sha1 -> pk_modulus_size s = pk_segment_size s ->
  Z.odd (mod_val s) = true -> 1 < mod_val s ->
  pk_forge_sigcheck s && pke_by_one s && (pke_a s =? 2) && (pke_dest s =? 1) = false ->
  let s' := pke_execute sha1 1 s in
  let x := le_val (pke_segment s' (pke_dest s)) in
  0 <= x < mod_val s /\
  (x * 2 ^ pke_bits s) mod mod_val s =
    (op_val s (pke_a s) * (if pke_by_one s then 1 else op_val s (pke_b s))) mod mod_val s /\
  Z.testbit (pk_seg_sign s') (pke_dest s) = false /\
  (forall i, 0 <= i -> i <> pke_dest s -> pke_segment s' i = pke_segment s i).
Proof.
  intros W Hsel Hd Hsz Ho Hm Hf. cbv zeta.
  destruct (pke_start_spec s W Hsel Hsz Ho Hm) as (r & s1 & -> & W1 & E1 & Hsel1 & Hl & Hb & [P1 P2]).
  assert (Ef : pke_forge sha1 s r = r).
  { unfold pke_forge. replace (pke_by_one s && (pke_a s =? 2) && (pke_dest s =? 1) && pk_forge_sigcheck s) with false; [done|].
    rewrite <- Hf. by destruct (pke_by_one s), (pke_a s =? 2), (pke_dest s =? 1), (pk_forge_sigcheck s). }
  rewrite Ef. destruct (drop_cache_size s1 s E1) as [Es Ed]. rewrite <- Es in Hl.
  destruct (pke_store_segments r s1 W1 Hsel1 Hl) as (S1 & S2 & S3). rewrite <- Ed, S1. fold (be_val r).
  split; [exact P1|]. split; [exact P2|]. split; [exact S3|]. intros i Hi Hne. rewrite S2 by done.
  change (pke_segment s1 i) with (pke_segment (drop_cache s1) i). by rewrite E1.
Qed.
End Facts.

(** ** Integers as a big-number library *)

Fixpoint le_bytes (n : nat) (x : Z) : bytes :=
  match n with O => [] | S n' => (x mod 256) :: le_bytes n' (x / 256) end.

#[export] Instance ZBignum : Bignum := {|
  bignum := Z;
  BN_lebin2bn := le_val;
  BN_one := 1;
  BN_pow2 := Z.pow 2;
  BN_set_negative := Z.opp;
  BN_is_odd := Z.odd;
  BN_is_one := fun x => x =? 1;
  BN_mod_inverse := fun r m => if Z.odd m then Some (((m + 1) / 2) ^ Z.log2 r mod m) else None;
  BN_mod_mul := fun a b m => if 0 <? m then Some ((a * b) mod m) else None;
  BN_bn2binpad := fun x n => if (0 <=? x) && (x <? 256 ^ n) then Some (reverse (le_bytes (Z.to_nat n) x)) else None
|}.

Lemma le_bytes_spec n x : 0 <= x < 256 ^ Z.of_nat n ->
  length (le_bytes n x) = n /\ is_bytes (le_bytes n x) /\ le_val (le_bytes n x) = x.
Proof.
  revert x. induction n as [|n IH]; intros x Hx; [cbn in *; repeat split; [constructor|lia]|].
  rewrite Nat2Z.inj_succ, Z.pow_succ_r in Hx by lia. pose proof (Z.div_mod x 256 ltac:(lia)).
  pose proof (Z.mod_pos_bound x 256 ltac:(lia)).
  destruct (IH (x / 256)) as (H1 & H2 & H3); [split; [apply Z.div_pos; lia|apply Z.div_lt_upper_bound; lia]|].
  cbn [le_bytes length le_val]. split; [by rewrite H1|]. split; [by constructor|]. rewrite H3. lia.
Qed.

(** The inverse of two, to the power. *)
Lemma half_pow m k : Z.odd m = true -> 1 < m -> 0 <= k -> (((m + 1) / 2) ^ k * 2 ^ k) mod m = 1.
Proof.
  intros Ho Hm Hk. apply Z.odd_spec in Ho as [h ->].
  replace ((2 * h + 1 + 1) / 2) with (h + 1) by (apply Z.div_unique with 0; lia).
  rewrite <- Z.pow_mul_l. revert k Hk. apply natlike_ind.
  - rewrite Z.pow_0_r. apply Z.mod_small. lia.
  - intros k Hk IH. rewrite Z.pow_succ_r by done. rewrite <- Z.mul_mod_idemp_r, IH, Z.mul_1_r by lia.
    replace ((h + 1) * 2) with (1 + 1 * (2 * h + 1)) by lia. rewrite Z.mod_add by lia. apply Z.mod_small. lia.
Qed.

#[export] Instance ZBignumLaws : BignumLaws ZBignum.
Proof.
  refine {| bn_val := fun x : @bignum ZBignum => (x : Z) |}; try done.
  - intros k r m Hk Hr Ho Hm. cbn in *. rewrite Ho, Hr, Z.log2_pow2 by done. eexists. split; [done|].
    split; [apply Z.mod_pos_bound; lia|]. rewrite Z.mul_mod_idemp_l by lia. by apply half_pow.
  - intros a b m Hm. cbn in *. rewrite (proj2 (Z.ltb_lt _ _)) by done. by eexists.
  - intros x n Hn Hx. cbn in *. rewrite (proj2 (Z.leb_le _ _)), (proj2 (Z.ltb_lt _ _)) by lia.
    destruct (le_bytes_spec (Z.to_nat n) x) as (H1 & H2 & H3); [by rewrite Z2Nat.id|].
    eexists. split; [done|]. unfold zlen, be_val. rewrite length_reverse, H1, reverse_involutive.
    split; [lia|]. split; [by apply Forall_reverse|done].
Defined.

(** An engine with operands 3 and 5 and modulus 7 in segments of 64 bytes. *)
Definition ex_pke : @IPodTouchPKEState ZBignum :=
  fold_left (fun s ov => ipod_touch_pke_write None ov.1 ov.2 4 s)
    [(REG_PKE_SEG_SIZE, 0x80); (0x800, 3); (0x840, 5); (0x880, 7); (0xc, 0x00010203); (REG_PKE_START, 8)]
    (pke_zero false).

Lemma is_bytes_dec l : forallb (fun b => (0 <=? b) && (b <? 256)) l = true -> is_bytes l.
Proof.
  intros H. apply Forall_forall. intros x Hx%list_elem_of_In. rewrite forallb_forall in H.
  specialize (H x Hx). unfold is_byte. bool_hyps. lia.
Qed.

Lemma ex_pke_wf : pke_wf ex_pke.
Proof.
  constructor.
  - split; [vm_compute; reflexivity|apply is_bytes_dec; vm_compute; reflexivity].
  - split; [vm_compute; reflexivity|apply is_bytes_dec; vm_compute; reflexivity].
  - split; [vm_compute; reflexivity|apply is_bytes_dec; vm_compute; reflexivity].
  - right. left. reflexivity.
  - right. left. reflexivity.
  - vm_compute. split; [discriminate|reflexivity].
  - vm_compute. exact I.
Qed.

Lemma pke_montgomery_witness :
  let s' := pke_execute None 1 ex_pke in
  let x := le_val (pke_segment s' (pke_dest ex_pke)) in
  0 <= x < mod_val ex_pke /\
  (x * 2 ^ pke_bits ex_pke) mod mod_val ex_pke =
    (op_val ex_pke (pke_a ex_pke) * (if pke_by_one ex_pke then 1 else op_val ex_pke (pke_b ex_pke))) mod mod_val ex_pke /\
  Z.testbit (pk_seg_sign s') (pke_dest ex_pke) = false /\
  (forall i, 0 <= i -> i <> pke_dest ex_pke -> pke_segment s' i = pke_segment ex_pke i).
Proof.
  refine (pke_montgomery None ex_pke ex_pke_wf _ _ _ _ _ _); [reflexivity| |reflexivity..].
  intros x h. discriminate.
Defined.

(** ** The cache cannot be observed *)

Section Cache.
Context {B : Bignum} {L : BignumLaws B}.

(** Register writes. *)
Definition pke_writes (sha1 : option IPodTouchSHA1State) (ws : list (Z * Z * Z)) (s : IPodTouchPKEState) : IPodTouchPKEState :=
  fold_left (fun s w => ipod_touch_pke_write sha1 w.1.1 w.1.2 w.2 s) ws s.

(** Two states that differ in their caches only. *)
Definition pke_sim (s t : IPodTouchPKEState) : Prop := pke_wf s /\ pke_wf t /\ drop_cache s = drop_cache t.

Lemma pke_wf_drop s : pke_wf s -> pke_wf (drop_cache s).
Proof.
  intros [W1 W2 W3 W4 W5 W6 W7]. constructor; [exact W1|exact W2| |exact W4|exact W5|exact W6|done].
  split; [apply length_replicate|apply Forall_replicate; unfold is_byte; lia].
Qed.

Lemma store_sim r s t : pke_sim s t -> pke_select_ok s = true -> is_bytes r -> pke_sim (pke_store r s) (pke_store r t).
Proof.
  intros (Ws & Wt & E) Hsel Hr.
  assert (Hsel' : pke_select_ok t = true).
  { change (pke_select_ok t) with (pke_select_ok (drop_cache t)). by rewrite <- E. }
  split; [by apply pke_wf_store|]. split; [by apply pke_wf_store|].
  change (pke_store r (drop_cache s) = pke_store r (drop_cache t)). by rewrite E.
Qed.

(** A product gives the same bytes from either state. *)
Lemma product_sim s t : pke_sim s t -> pke_select_ok s = true ->
  exists r s1 t1, pke_product s = (r, s1) /\ pke_product t = (r, t1) /\ pke_sim s1 t1 /\ drop_cache s1 = drop_cache s /\
    (forall l, r = Some l -> zlen l = pk_segment_size s /\ is_bytes l).
Proof.
  intros (Ws & Wt & E) Hsel.
  assert (Hsel' : pke_select_ok t = true).
  { change (pke_select_ok t) with (pke_select_ok (drop_cache t)). by rewrite <- E. }
  assert (Em : mod_val s = mod_val t) by exact (f_equal mod_val E).
  destruct (Z.odd (mod_val s) && negb (mod_val s =? 1)) eqn:Hm.
  - apply andb_prop in Hm as [Ho H1]. apply negb_true_iff, Z.eqb_neq in H1.
    assert (Hr : 0 <= mod_val s) by (apply le_val_range, is_bytes_take, (pw_modulus s Ws)).
    assert (1 < mod_val s) by (destruct (Z.eq_dec (mod_val s) 0) as [E0|]; [rewrite E0 in Ho; discriminate|lia]).
    destruct (pke_product_spec s Ws Hsel Ho) as (r & s1 & Es & W1 & D1 & Hl & Hb & P1); [done|].
    destruct (pke_product_spec t Wt Hsel') as (r' & t1 & Et & W2 & D2 & Hl' & Hb' & P2); [by rewrite <- Em|by rewrite <- Em|].
    assert (P2' : is_product (be_val r') s).
    { change (is_product (be_val r') (drop_cache s)). by rewrite E. }
    destruct (pke_inverse_spec s Ws) as (i & _ & [_ Hi] & _); [by apply (select_ok_facts s)|done|done|].
    assert (Ev : be_val r = be_val r').
    { apply (mod_solution_unique (mod_val s) (2 ^ pke_bits s) (bn_val i)); [done|apply P1|apply P2'|].
      by rewrite (proj2 P1), (proj2 P2'). }
    assert (r = r') as <-.
    { apply (inj reverse), le_val_inj; [by apply Forall_reverse|by apply Forall_reverse| |done].
      rewrite !length_reverse. assert (pk_segment_size s = pk_segment_size t) by exact (f_equal pk_segment_size E).
      unfold zlen in *. lia. }
    exists (Some r), s1, t1. split; [done|]. split; [done|].
    split; [split; [done|split; [done|by rewrite D1, D2]]|]. split; [done|]. intros l [= <-]. done.
  - exists None, s, t. unfold pke_product. cbv zeta. rewrite !bn_is_odd, !bn_is_one, !bn_lebin2bn.
    fold (mod_val s) (mod_val t). rewrite <- Em, Hm. done.
Qed.

Lemma execute_sim sha1 c s t : digest_ok sha1 -> pke_sim s t -> pke_sim (pke_execute sha1 c s) (pke_execute sha1 c t).
Proof.
  intros Hd Hst. destruct Hst as (Ws & Wt & E). rewrite !pke_execute_spec by done.
  assert (Esel : pke_select_ok t = pke_select_ok s).
  { change (pke_select_ok t) with (pke_select_ok (drop_cache t)). by rewrite <- E. }
  rewrite Esel. destruct ((Z.land c 9 =? 0) || negb (pke_select_ok s)) eqn:Hc; [done|]. bool_hyps. cbv zeta.
  set (s1 := if Z.testbit c 3 then pke_load s else s). set (t1 := if Z.testbit c 3 then pke_load t else t).
  assert (H1 : pke_sim s1 t1 /\ pke_select_ok s1 = true).
  { unfold s1, t1. destruct (Z.testbit c 3); [|done]. split; [|done].
    split; [by apply pke_wf_load|]. split; [apply pke_wf_load; [done|by rewrite Esel]|].
    change (pke_load (drop_cache s) = pke_load (drop_cache t)). by rewrite E. }
  clearbody s1 t1. destruct H1 as [H1 Hsel1].
  assert (Ez : pk_modulus_size t1 = pk_modulus_size s1 /\ pk_segment_size t1 = pk_segment_size s1).
  { split; [exact (f_equal pk_modulus_size (eq_sym (proj2 (proj2 H1))))|
            exact (f_equal pk_segment_size (eq_sym (proj2 (proj2 H1))))]. }
  destruct Ez as [-> ->]. destruct (negb (Z.testbit c 0) || _); [done|].
  destruct (product_sim s1 t1 H1 Hsel1) as (r & s2 & t2 & -> & -> & H2 & D2 & Hr).
  destruct r as [r|]; [|done]. destruct (Hr r eq_refl) as [Hl Hb].
  assert (Ef : pke_forge sha1 t2 r = pke_forge sha1 s2 r).
  { change (pke_forge sha1 t2 r) with (pke_forge sha1 (drop_cache t2) r). by rewrite <- (proj2 (proj2 H2)). }
  assert (Hsel2 : pke_select_ok s2 = true).
  { change (pke_select_ok s2) with (pke_select_ok (drop_cache s2)). by rewrite D2. }
  rewrite Ef. apply store_sim; [done|done|]. apply forge_ok; [|done| |done].
  - apply (select_ok_facts s2); [apply H2|done].
  - rewrite Hl. exact (f_equal pk_segment_size (eq_sym D2)).
Qed.

Lemma size_field v : let f := Z.land (Z.shiftr v 6) 3 in
  (if f =? 3 then 0 else Z.shiftr 256 f) = 0 \/ size_val (if f =? 3 then 0 else Z.shiftr 256 f).
Proof.
  cbv zeta. assert (0 <= Z.land (Z.shiftr v 6) 3 < 4).
  { change 3 with (Z.ones 2). rewrite Z.land_ones by lia. apply Z.mod_pos_bound. lia. }
  unfold size_val. generalize dependent (Z.land (Z.shiftr v 6) 3). intros f Hf.
  assert (f = 0 \/ f = 1 \/ f = 2 \/ f = 3) as [->|[->|[->| ->]]] by lia; vm_compute; tauto.
Qed.

Lemma pke_write_sim sha1 o v n s t : digest_ok sha1 -> pke_sim s t ->
  pke_sim (ipod_touch_pke_write sha1 o v n s) (ipod_touch_pke_write sha1 o v n t).
Proof.
  intros Hd Hst. unfold ipod_touch_pke_write.
  assert (K : forall f : IPodTouchPKEState -> IPodTouchPKEState, (forall s, pke_wf s -> pke_wf (f s)) ->
    (forall s, drop_cache (f s) = f (drop_cache s)) -> pke_sim (f s) (f t)).
  { intros f Hw Hf. destruct Hst as (Ws & Wt & E). split; [by apply Hw|]. split; [by apply Hw|]. by rewrite !Hf, E. }
  destruct (pke_in_sram o n).
  { apply (K (fun s => s <| pk_segments ::= fun l => blit l (Z.to_nat (o - REG_PKE_SEG_START)) (ztake n (le32 v)) |>));
      [|by intros []].
    intros x [W1 W2 W3 W4 W5 W6 W7]. constructor; [|exact W2|exact W3|exact W4|exact W5|exact W6|exact W7].
    cbn. split; [rewrite length_blit; apply W1|apply is_bytes_blit; [apply W1|apply is_bytes_take, le32_bytes]]. }
  destruct (o =? 0).
  { apply (K (fun s => s <| pk_key_len := u32 v |>)); [|by intros []].
    intros x [W1 W2 W3 W4 W5 W6 W7]. by constructor. }
  destruct (o =? 0xc).
  { apply (K (fun s => s <| pk_seg_id := u32 v |>)); [|by intros []].
    intros x [W1 W2 W3 W4 W5 W6 W7]. constructor; [exact W1|exact W2|exact W3|exact W4|exact W5|apply u32_is_u32|exact W7]. }
  destruct (o =? 0x10).
  { apply (K (fun s => s <| pk_seg_sign := u32 v |>)); [|by intros []].
    intros x [W1 W2 W3 W4 W5 W6 W7]. by constructor. }
  destruct (o =? REG_PKE_SEG_SIZE).
  { cbv zeta. apply (K (fun s => s <| pk_seg_size_reg := u32 v |>
                       <| pk_segment_size := if Z.land (Z.shiftr v 6) 3 =? 3 then 0 else Z.shiftr 256 (Z.land (Z.shiftr v 6) 3) |>));
      [|by intros []].
    intros x [W1 W2 W3 W4 W5 W6 W7]. constructor; [exact W1|exact W2|exact W3|apply size_field|exact W5|exact W6|exact W7]. }
  destruct (o =? REG_PKE_START); [by apply execute_sim|].
  destruct (o =? REG_PKE_SWRESET); [|done].
  apply (K (fun s => s <| pk_modulus_size := 0 |> <| pk_seg_sign := 0 |>)); [|by intros []].
  intros x [W1 W2 W3 W4 W5 W6 W7]. constructor; [exact W1|exact W2|exact W3|exact W4|by left|exact W6|exact W7].
Qed.

Lemma pke_writes_sim sha1 ws s t : digest_ok sha1 -> pke_sim s t -> pke_sim (pke_writes sha1 ws s) (pke_writes sha1 ws t).
Proof.
  intros Hd. revert s t. induction ws as [|w ws IH]; intros s t H; [done|]. apply IH. by apply pke_write_sim.
Qed.

(** The cached radix inverse cannot be observed: forget it at any moment and
    run any sequence of register writes, products included, and every register,
    operand, modulus and result is what it would have been with the cache; so a
    snapshot may leave it out.  Every state on the way is one a snapshot accepts. *)
Theorem pke_cache_unobservable sha1 ws s : pke_wf s -> digest_ok sha1 ->
  drop_cache (pke_writes sha1 ws s) = drop_cache (pke_writes sha1 ws (drop_cache s)) /\
  pke_post_load (pke_writes sha1 ws s) = true /\
  (forall o n, ipod_touch_pke_read o n (pke_writes sha1 ws s) = ipod_touch_pke_read o n (pke_writes sha1 ws (drop_cache s))).
Proof.
  intros W Hd. destruct (pke_writes_sim sha1 ws s (drop_cache s) Hd) as (W1 & W2 & E).
  { split; [done|]. split; [by apply pke_wf_drop|by destruct s]. }
  split; [done|]. split.
  - unfold pke_post_load. apply andb_true_intro.
    split; apply orb_true_iff; [destruct (pw_size _ W1) as [->|H]|destruct (pw_msize _ W1) as [->|H]];
      [by left|right; by apply size_ok_val|by left|right; by apply size_ok_val].
  - intros o n. change (ipod_touch_pke_read o n (pke_writes sha1 ws s)) with
      (ipod_touch_pke_read o n (drop_cache (pke_writes sha1 ws s))). by rewrite E.
Qed.
End Cache.

Lemma pke_cache_unobservable_witness :
  let s := pke_execute None 1 ex_pke in
  let ws := [(0xc, 0x03010203, 4); (REG_PKE_START, 1, 4)] in
  drop_cache (pke_writes None ws s) = drop_cache (pke_writes None ws (drop_cache s)) /\
  pke_post_load (pke_writes None ws s) = true /\
  (forall o n, ipod_touch_pke_read o n (pke_writes None ws s) = ipod_touch_pke_read o n (pke_writes None ws (drop_cache s))).
Proof.
  refine (pke_cache_unobservable None _ _ _ _); [|intros x h; discriminate].
  refine (proj1 (execute_sim None 1 ex_pke ex_pke _ _)); [intros x h; discriminate|].
  split; [exact ex_pke_wf|]. split; [exact ex_pke_wf|reflexivity].
Defined.

(** ** The forged block *)

Section Forge.
Context {B : Bignum} {L : BignumLaws B}.

(** Whether a block is the PKCS#1 block of the digest at its end. *)
Definition pkcs1_valid (size : Z) (block : bytes) : bool :=
  bool_decide (build_pkcs1_block size (zdrop (size - 20) block) = Some block).

Lemma fips_sha1_ok m : is_bytes m -> length (fips_sha1 m) = 20%nat /\ is_bytes (fips_sha1 m).
Proof.
  intros Hm. destruct (fips_chain m Hm) as [[H5 _] _]. unfold fips_sha1.
  destruct (fold_left _ _ _) as [|a [|b [|c [|d [|e [|]]]]]]; try discriminate.
  cbn [fmap list_fmap concat]. rewrite !length_app, !is_bytes_app.
  split; [reflexivity|]. repeat split; try apply be32_bytes. constructor.
Qed.

(** A block that was built is valid: it ends in the digest it was built from. *)
Lemma pkcs1_built_valid n h l : size_val n -> length h = 20%nat -> is_bytes h ->
  build_pkcs1_block n h = Some l -> pkcs1_valid n l = true.
Proof.
  intros Hn Hh Hb E. destruct (pkcs1_ok n h Hn Hh Hb) as (l' & E' & Hl & _).
  rewrite E' in E. injection E as ->. apply bool_decide_eq_true. rewrite <- E'. f_equal.
  assert (exists p, l = p ++ h) as (p & ->).
  { unfold build_pkcs1_block in E'. destruct (_ <? _); [discriminate|]. apply (inj Some) in E' as <-. cbv zeta.
    rewrite !app_assoc. by eexists. }
  rewrite zlen_app in Hl. change (zlen h) with (Z.of_nat (length h)) in Hl.
  replace (n - 20) with (zlen p) by lia. apply zdrop_app_len.
Qed.

(** C37. The forge vouches for the image that was hashed, and for nothing else:
    let the guest hash a message with the SHA-1 engine and then leave Montgomery
    form from segment 2 into segment 1 with the option on.  A recovered block
    that is a PKCS#1 block is kept as it is; any other is replaced by the PKCS#1
    block of the SHA-1 of the message, so that segment 1 always holds a block its
    own verifier accepts. *)
Theorem pke_forge_vouches phys js m x s :
  pke_wf s -> pke_select_ok s = true -> pk_modulus_size s = pk_segment_size s ->
  Z.odd (mod_val s) = true -> 1 < mod_val s ->
  pk_forge_sigcheck s = true -> pke_by_one s = true -> pke_a s = 2 -> pke_dest s = 1 ->
  Forall job_ok js -> is_bytes m -> concat (job_bytes phys <$> js) = fips_pad m ->
  let engine := sha1_writes phys ((SHA_RESET, 1) :: concat (job_writes <$> js)) x in
  let recovered := reverse (pke_segment (pke_execute None 1 s) 1) in
  let block := reverse (pke_segment (pke_execute (Some engine) 1 s) 1) in
  pkcs1_valid (pk_segment_size s) block = true /\
  (if pkcs1_valid (pk_segment_size s) recovered then block = recovered
   else build_pkcs1_block (pk_segment_size s) (fips_sha1 m) = Some block).
Proof.
  intros W Hsel Hsz Ho Hm Hf H1 Ha Hdst Hj Hmb E engine. cbv zeta.
  destruct (sha1_jobs_hash phys js m x Hj Hmb E) as [_ Hh]. fold engine in Hh.
  destruct (fips_sha1_ok m Hmb) as [Hl20 Hb20].
  assert (Hd : digest_ok (Some engine)).
  { intros y h [= <-]. rewrite Hh. by intros [= <-]. }
  destruct (select_ok_facts s W Hsel) as (Hs & _).
  destruct (pke_start_spec s W Hsel Hsz Ho Hm) as (r & s1 & Ex & W1 & E1 & Hsel1 & Hl & Hb & _).
  destruct (drop_cache_size s1 s E1) as [Es Ed].
  assert (R : forall sha1, digest_ok sha1 -> reverse (pke_segment (pke_execute sha1 1 s) 1) = pke_forge sha1 s r).
  { intros sha1 Hd1. destruct (forge_ok sha1 s r Hs Hd1 Hl Hb) as [Hl1 _]. rewrite <- Es in Hl1.
    destruct (pke_store_segments _ s1 W1 Hsel1 Hl1) as (S1 & _). rewrite Ed, Hdst in S1.
    by rewrite Ex, S1, reverse_involutive. }
  rewrite !R by (done || intros y h; discriminate).
  assert (Ev : forall h, match build_pkcs1_block (pk_segment_size s) h with Some e => bool_decide (e = r) | None => false end =
               bool_decide (build_pkcs1_block (pk_segment_size s) h = Some r)).
  { intros h. destruct (build_pkcs1_block _ h) as [e|]; [apply bool_decide_ext; naive_solver|by rewrite bool_decide_eq_false_2]. }
  unfold pke_forge. rewrite H1, Ha, Hdst, Hf. cbv zeta. cbn [andb Z.eqb Pos.eqb]. rewrite Ev.
  fold (pkcs1_valid (pk_segment_size s) r). simpl. rewrite Hh. destruct (pkcs1_valid _ r) eqn:Hv; [by rewrite Hv|].
  rewrite Hv. destruct (pkcs1_ok _ _ Hs Hl20 Hb20) as (l & El & _). rewrite El.
  split; [by apply (pkcs1_built_valid _ (fips_sha1 m))|done].
Qed.
End Forge.

(** The same engine set to leave Montgomery form from segment 2, with the forge on. *)
Definition ex_forge : @IPodTouchPKEState ZBignum :=
  fold_left (fun s ov => ipod_touch_pke_write None ov.1 ov.2 4 s)
    [(REG_PKE_SEG_SIZE, 0x82); (0x880, 5); (0x8c0, 7); (0xc, 0x02000301); (REG_PKE_START, 8)] (pke_zero true).

Lemma ex_forge_wf : pke_wf ex_forge.
Proof.
  constructor.
  - split; [vm_compute; reflexivity|apply is_bytes_dec; vm_compute; reflexivity].
  - split; [vm_compute; reflexivity|apply is_bytes_dec; vm_compute; reflexivity].
  - split; [vm_compute; reflexivity|apply is_bytes_dec; vm_compute; reflexivity].
  - right. left. reflexivity.
  - right. left. reflexivity.
  - vm_compute. split; [discriminate|reflexivity].
  - vm_compute. exact I.
Qed.

Definition ex_jobs : list sha1_job :=
  [JobMem 0x8000 64; JobBuf (ld_le32 (fips_pad ex_msg) <$> (Z.mul 4 <$> seqZ 16 16))].

Lemma pke_forge_vouches_witness :
  let engine := sha1_writes ex_phys ((SHA_RESET, 1) :: concat (job_writes <$> ex_jobs)) sha1_zero in
  let recovered := reverse (pke_segment (pke_execute None 1 ex_forge) 1) in
  let block := reverse (pke_segment (pke_execute (Some engine) 1 ex_forge) 1) in
  pkcs1_valid (pk_segment_size ex_forge) block = true /\
  (if pkcs1_valid (pk_segment_size ex_forge) recovered then block = recovered
   else build_pkcs1_block (pk_segment_size ex_forge) (fips_sha1 ex_msg) = Some block).
Proof.
  refine (pke_forge_vouches ex_phys ex_jobs ex_msg sha1_zero ex_forge ex_forge_wf _ _ _ _ _ _ _ _ _ _ _);
    [vm_compute; reflexivity..| | |].
  - repeat constructor; vm_compute; intuition discriminate.
  - repeat constructor; vm_compute; discriminate.
  - vm_compute. reflexivity.
Defined.
