(* ===== verification/Nor.v ===== *)
(** * The serial NOR flash

    [src/hw/arm/ipod_touch_nor_spi.c]: a command automaton behind a chip select,
    a flash array of one megabyte with its write protection, the writable copy
    on the host, and the boot arguments written into the Apple NVRAM banks of a
    freshly read image.  [adler32] of zlib is a parameter; the result of a host
    write is an argument of the operations that make one. *)

From Stdlib Require Import ZArith Lia.
From stdpp Require Import base numbers list.
From S2P Require Import Prelude CLib HwLib.
Local Open Scope Z_scope.

Definition NOR_FLASH_SIZE : Z := 1048576.
Definition NOR_PAGE_SIZE : Z := 256.
Definition NOR_ERASE_32K : Z := 0x52.
Definition NOR_ERASE_64K : Z := 0xd8.
Definition NOR_WRITE_TO_STATUS_REG : Z := 0x1.
Definition NOR_WRITE_DATA_CMD : Z := 0x2.
Definition NOR_READ_DATA_CMD : Z := 0x3.
Definition NOR_DISABLE_WRITE : Z := 0x4.
Definition NOR_GET_STATUS_CMD : Z := 0x5.
Definition NOR_ENABLE_WRITE : Z := 0x6.
Definition NOR_ERASE_BLOCK : Z := 0x20.
Definition NOR_GET_JEDECID : Z := 0x9F.
Definition NOR_STATUS_EPE : Z := 0x20.
Definition NOR_STATUS_SWP : Z := 0x0c.
Definition NOR_STATUS_SPRL : Z := 0x80.

(** A flash array: its bytes by address. *)
Definition flash : Type := Z -> Z.

(** ** Boot arguments in the NVRAM banks *)

Definition NVRAM_BANK_SIZE : Z := 0x2000.
Definition NVRAM_ATOM_HDR : Z := 16.

(** [while (sum > 255)] *)
Fixpoint fold_carry (fuel : nat) (sum : Z) : Z :=
  match fuel with
  | O => sum
  | S fuel => if 255 <? sum then fold_carry fuel (Z.land sum 255 + Z.shiftr sum 8) else sum
  end.

Definition nvram_checksum (hdr : bytes) : Z :=
  fold_carry 3 (fold_left Z.add (zdrop 2 (ztake NVRAM_ATOM_HDR hdr)) (rd hdr 0)).

Definition ld_le16 (l : bytes) (i : Z) : Z := rd l i + 256 * rd l (i + 1).

(** [boot-args=] *)
Definition boot_args_key : bytes := [98; 111; 111; 116; 45; 97; 114; 103; 115; 61].

(** [nvram\0] and [common\0] *)
Definition nvram_name : bytes := [110; 118; 114; 97; 109; 0].
Definition common_name : bytes := [99; 111; 109; 109; 111; 110; 0].

(** [strnlen] over the whole of a list. *)
Definition strnlen (l : bytes) : nat := length (until_nul l).

(** The variables that are kept, or [None] when the list is malformed. *)
Fixpoint nvram_vars (fuel : nat) (rest vars : bytes) : option bytes :=
  match fuel with
  | O => None
  | S fuel =>
      match rest with
      | [] => None
      | b :: _ =>
          if b =? 0 then Some vars
          else
            let n := strnlen rest in
            if (n =? length rest)%nat then None
            else
              let keep := (n <? length boot_args_key)%nat ||
                          negb (bool_decide (take (length boot_args_key) rest = boot_args_key)) in
              nvram_vars fuel (drop (S n) rest) (if keep then vars ++ take (S n) rest else vars)
      end
  end.

Section Nvram.
Variable adler32 : Z -> bytes -> Z.

(** What makes a bank one the firmware would load. *)
Definition nvram_bank_ok (bank : bytes) : bool :=
  (rd bank 0 =? 0x5a) && bool_decide (ztake 6 (zdrop 4 bank) = nvram_name) && (ld_le16 bank 2 =? 2) &&
  (rd bank 1 =? nvram_checksum bank) && (ld_le32 bank 16 =? adler32 1 (zdrop 20 bank)).

(** The partition at [pos] is not one the walk can pass. *)
Definition nvram_part_bad (bank : bytes) (pos : Z) : bool :=
  let hdr := zdrop pos bank in
  let total := ld_le16 hdr 2 * 16 in
  negb (rd hdr 1 =? nvram_checksum hdr) || (total <? NVRAM_ATOM_HDR) ||
  (NVRAM_BANK_SIZE - pos <? total) || (rd hdr 0 =? 0x7f).

(** The common partition at [pos], of [total] bytes, with the new arguments. *)
Definition nvram_common_edit (boot_args bank : bytes) (pos total : Z) : bytes :=
  let len := total - NVRAM_ATOM_HDR in
  let payload := ztake len (zdrop (pos + NVRAM_ATOM_HDR) bank) in
  match nvram_vars (S (length payload)) payload [] with
  | None => bank
  | Some vars =>
      let vars := vars ++ (boot_args_key ++ boot_args) ++ [0] ++ [0] in
      if len <? zlen vars then bank
      else
        let bank := blit bank (Z.to_nat (pos + NVRAM_ATOM_HDR)) (replicate (Z.to_nat len) 0) in
        let bank := blit bank (Z.to_nat (pos + NVRAM_ATOM_HDR)) vars in
        st_le32 bank 16 (adler32 1 (zdrop 20 bank))
  end.

(** The walk over the partitions; each is at least one header long. *)
Fixpoint nvram_walk (fuel : nat) (boot_args bank : bytes) (pos : Z) : bytes :=
  match fuel with
  | O => bank
  | S fuel =>
      if pos + NVRAM_ATOM_HDR <=? NVRAM_BANK_SIZE then
        if nvram_part_bad bank pos then bank
        else
          let hdr := zdrop pos bank in
          let total := ld_le16 hdr 2 * 16 in
          if bool_decide (ztake 7 (zdrop 4 hdr) = common_name) then nvram_common_edit boot_args bank pos total
          else nvram_walk fuel boot_args bank (pos + total)
      else bank
  end.

Definition nvram_bank_edit (boot_args bank : bytes) : bytes :=
  if nvram_bank_ok bank then nvram_walk 512 boot_args bank 32 else bank.

Definition nor_set_boot_args (boot_args : bytes) (norlen : Z) (f : flash) : flash :=
  fold_left (fun f k => let off := k * NVRAM_BANK_SIZE in
                        phys_write f off (nvram_bank_edit boot_args (phys_read f off NVRAM_BANK_SIZE)))
    (seqZ 0 (norlen / NVRAM_BANK_SIZE)) f.
End Nvram.

(** ** The device *)

(** [struct IPodTouchNORSPIState], with the content of the writable copy as
    [nr_blk] and the static flag [nor_io_failed]; of the path only whether it is
    set. *)
Record IPodTouchNORSPIState := mkNor {
  nr_path : bool;
  nr_blk : option flash;
  restore_pending : bool;
  nr_boot_args : option bytes;
  cur_cmd : Z;
  nor_data : flash;
  nor_size : Z;
  write_enabled : Z;
  nor_read_ind : Z;
  address_bytes : Z;
  page_offset : Z;
  stream_offset : Z;
  status : Z;
  data_count : Z;
  page : bytes;
  command_active : bool;
  nor_initialized : bool;
  nor_io_failed : bool
}.

Definition eta_nor (r : IPodTouchNORSPIState) : IPodTouchNORSPIState :=
  mkNor (nr_path r) (nr_blk r) (restore_pending r) (nr_boot_args r) (cur_cmd r) (nor_data r) (nor_size r)
    (write_enabled r) (nor_read_ind r) (address_bytes r) (page_offset r) (stream_offset r) (status r)
    (data_count r) (page r) (command_active r) (nor_initialized r) (nor_io_failed r).
#[global] Instance upd_nr_path : Upd nr_path := ltac:(derive_upd eta_nor nr_path).
#[global] Instance upd_nr_blk : Upd nr_blk := ltac:(derive_upd eta_nor nr_blk).
#[global] Instance upd_restore_pending : Upd restore_pending := ltac:(derive_upd eta_nor restore_pending).
#[global] Instance upd_nr_boot_args : Upd nr_boot_args := ltac:(derive_upd eta_nor nr_boot_args).
#[global] Instance upd_cur_cmd : Upd cur_cmd := ltac:(derive_upd eta_nor cur_cmd).
#[global] Instance upd_nor_data : Upd nor_data := ltac:(derive_upd eta_nor nor_data).
#[global] Instance upd_nor_size : Upd nor_size := ltac:(derive_upd eta_nor nor_size).
#[global] Instance upd_write_enabled : Upd write_enabled := ltac:(derive_upd eta_nor write_enabled).
#[global] Instance upd_nor_read_ind : Upd nor_read_ind := ltac:(derive_upd eta_nor nor_read_ind).
#[global] Instance upd_address_bytes : Upd address_bytes := ltac:(derive_upd eta_nor address_bytes).
#[global] Instance upd_page_offset : Upd page_offset := ltac:(derive_upd eta_nor page_offset).
#[global] Instance upd_stream_offset : Upd stream_offset := ltac:(derive_upd eta_nor stream_offset).
#[global] Instance upd_status : Upd status := ltac:(derive_upd eta_nor status).
#[global] Instance upd_data_count : Upd data_count := ltac:(derive_upd eta_nor data_count).
#[global] Instance upd_page : Upd page := ltac:(derive_upd eta_nor page).
#[global] Instance upd_command_active : Upd command_active := ltac:(derive_upd eta_nor command_active).
#[global] Instance upd_nor_initialized : Upd nor_initialized := ltac:(derive_upd eta_nor nor_initialized).
#[global] Instance upd_nor_io_failed : Upd nor_io_failed := ltac:(derive_upd eta_nor nor_io_failed).

(** What the host answers: whether the copy can be read, what the image file
    holds (its size and bytes), the result of a write to the copy and what a
    failed write leaves in it. *)
Record NorHost := mkNorHost {
  nh_pread : bool;
  nh_file : option (Z * flash);
  nh_pwrite : Z;
  nh_torn : flash
}.

Section Device.
Variable adler32 : Z -> bytes -> Z.

Definition nor_blank : flash := fun _ => 0xff.

Definition nor_image (f : flash) (size : Z) (s : IPodTouchNORSPIState) : IPodTouchNORSPIState :=
  let s := s <| nor_data := f |> <| nor_size := size |> in
  match nr_boot_args s with
  | Some (c :: t) => s <| nor_data := nor_set_boot_args adler32 (c :: t) size f |>
  | _ => s
  end.

Definition initialize_nor (h : NorHost) (s : IPodTouchNORSPIState) : IPodTouchNORSPIState :=
  let s := s <| nor_data := nor_blank |> <| nor_size := 0 |> <| nor_initialized := true |> in
  match nr_blk s with
  | Some disk => if nh_pread h then nor_image disk NOR_FLASH_SIZE s else s
  | None =>
      if nr_path s then
        match nh_file h with
        | Some (size, data) => if size =? NOR_FLASH_SIZE then nor_image data size s else s
        | None => s
        end
      else s
  end.

(** [blk_pwrite] of a range of the array *)
Definition nor_pwrite (start length : Z) (data disk : flash) : flash :=
  fun x => if (start <=? x) && (x <? start + length) then data x else disk x.

Definition nor_persist (h : NorHost) (start length : Z) (s : IPodTouchNORSPIState) : Z * IPodTouchNORSPIState :=
  match nr_blk s with
  | None => (0, s)
  | Some disk =>
      let '(start, length) := if restore_pending s then (0, NOR_FLASH_SIZE) else (start, length) in
      let ret := nh_pwrite h in
      let s := if ret <? 0 then s <| nr_blk := Some (nh_torn h) |> <| nor_io_failed := true |>
               else s <| nr_blk := Some (nor_pwrite start length (nor_data s) disk) |> in
      (ret, if ret =? 0 then s <| restore_pending := false |> else s)
  end.

Definition nor_reset_transaction (s : IPodTouchNORSPIState) : IPodTouchNORSPIState :=
  s <| cur_cmd := 0 |> <| command_active := false |> <| address_bytes := 0 |> <| data_count := 0 |>
    <| stream_offset := 0 |> <| page_offset := 0 |>.

Definition nor_write_status (value : Z) (s : IPodTouchNORSPIState) : IPodTouchNORSPIState :=
  let s := if Z.land (status s) NOR_STATUS_SPRL =? 0 then
             if Z.land value 0x3c =? 0 then s <| status ::= fun v => Z.ldiff v NOR_STATUS_SWP |>
             else if Z.land value 0x3c =? 0x3c then s <| status ::= fun v => Z.lor v NOR_STATUS_SWP |>
             else s
           else s in
  s <| status ::= fun v => Z.lor (Z.ldiff v NOR_STATUS_SPRL) (Z.land value NOR_STATUS_SPRL) |>.

(** How many bytes a command changes; [None] for those that change none. *)
Definition nor_length (cmd : Z) : option Z :=
  if cmd =? NOR_WRITE_DATA_CMD then Some NOR_PAGE_SIZE
  else if cmd =? NOR_ERASE_BLOCK then Some 4096
  else if cmd =? NOR_ERASE_32K then Some 32768
  else if cmd =? NOR_ERASE_64K then Some 65536
  else None.

(** The loop that programs a page, and the [memset] that erases a block. *)
Definition nor_program (start : Z) (pg : bytes) (f : flash) : flash :=
  fun x => if (start <=? x) && (x <? start + NOR_PAGE_SIZE) then Z.land (f x) (rd pg (x - start)) else f x.

Definition nor_erase (start length : Z) (f : flash) : flash :=
  fun x => if (start <=? x) && (x <? start + length) then 0xff else f x.

(** The part of [nor_finish_transaction] after the guards. *)
Definition nor_modify (h : NorHost) (length : Z) (s : IPodTouchNORSPIState) : IPodTouchNORSPIState :=
  let s := s <| status ::= fun v => Z.ldiff v NOR_STATUS_EPE |> in
  let s := if nor_initialized s then s else initialize_nor h s in
  if negb (nor_size s =? NOR_FLASH_SIZE) then s <| status ::= fun v => Z.lor v NOR_STATUS_EPE |>
  else
    let start := Z.ldiff (nor_read_ind s) (length - 1) in
    let s := s <| nor_data ::= if cur_cmd s =? NOR_WRITE_DATA_CMD then nor_program start (page s)
                               else nor_erase start length |> in
    let '(ret, s) := nor_persist h start length s in
    if ret <? 0 then s <| status ::= fun v => Z.lor v NOR_STATUS_EPE |> else s.

Definition nor_finish_transaction (h : NorHost) (s : IPodTouchNORSPIState) : IPodTouchNORSPIState :=
  if negb (command_active s) then s
  else if cur_cmd s =? NOR_ENABLE_WRITE then s <| write_enabled := 1 |>
  else if cur_cmd s =? NOR_DISABLE_WRITE then s <| write_enabled := 0 |>
  else if write_enabled s =? 0 then s
  else if cur_cmd s =? NOR_WRITE_TO_STATUS_REG then
    (if data_count s =? 0 then s else nor_write_status (rd (page s) 0) s) <| write_enabled := 0 |>
  else
    match nor_length (cur_cmd s) with
    | None => s
    | Some length =>
        let s := s <| write_enabled := 0 |> in
        if negb (address_bytes s =? 3) || (cur_cmd s =? NOR_WRITE_DATA_CMD) && (data_count s =? 0) ||
           negb (Z.land (status s) NOR_STATUS_SWP =? 0)
        then s
        else nor_modify h length s
    end.

Definition ipod_touch_nor_spi_set_cs (h : NorHost) (level : bool) (s : IPodTouchNORSPIState) : IPodTouchNORSPIState :=
  nor_reset_transaction (if level then nor_finish_transaction h s else s).

Definition ipod_touch_nor_spi_reset (s : IPodTouchNORSPIState) : IPodTouchNORSPIState :=
  (nor_reset_transaction s) <| write_enabled := 0 |> <| status := NOR_STATUS_SWP |>.

Definition nor_addressed (cmd : Z) : bool :=
  (cmd =? NOR_READ_DATA_CMD) || (cmd =? NOR_WRITE_DATA_CMD) || (cmd =? NOR_ERASE_BLOCK) ||
  (cmd =? NOR_ERASE_32K) || (cmd =? NOR_ERASE_64K).

(** An address byte of a command that has one. *)
Definition nor_address_byte (value : Z) (s : IPodTouchNORSPIState) : IPodTouchNORSPIState :=
  let ind := Z.land (Z.lor (Z.shiftl (nor_read_ind s) 8) value) (NOR_FLASH_SIZE - 1) in
  let s := s <| nor_read_ind := ind |> <| address_bytes ::= fun n => n + 1 |> in
  if address_bytes s =? 3 then s <| page_offset := Z.land ind (NOR_PAGE_SIZE - 1) |> else s.

Definition nor_read_byte (h : NorHost) (s : IPodTouchNORSPIState) : Z * IPodTouchNORSPIState :=
  let s := if nor_initialized s then s else initialize_nor h s in
  (nor_data s (nor_read_ind s), s <| nor_read_ind ::= fun i => Z.land (i + 1) (NOR_FLASH_SIZE - 1) |>).

(** The buffer position is a [uint8_t] and wraps in the page. *)
Definition nor_page_byte (value : Z) (s : IPodTouchNORSPIState) : IPodTouchNORSPIState :=
  s <| page ::= fun l => wr l (page_offset s) value |> <| page_offset ::= fun i => u8 (i + 1) |>
    <| data_count ::= fun n => if n <? NOR_PAGE_SIZE then n + 1 else n |>.

Definition nor_jedec_id : bytes := [0x1f; 0x45; 0x02; 0x00].

(** A byte after the command byte. *)
Definition nor_data_byte (h : NorHost) (value : Z) (s : IPodTouchNORSPIState) : Z * IPodTouchNORSPIState :=
  let cmd := cur_cmd s in
  if nor_addressed cmd then
    if address_bytes s <? 3 then (0, nor_address_byte value s)
    else if cmd =? NOR_READ_DATA_CMD then nor_read_byte h s
    else if cmd =? NOR_WRITE_DATA_CMD then (0, nor_page_byte value s)
    else (0, s)
  else if cmd =? NOR_WRITE_TO_STATUS_REG then
    (0, if data_count s =? 0 then s <| page ::= fun l => wr l 0 value |> <| data_count := 1 |> else s)
  else if cmd =? NOR_GET_STATUS_CMD then
    let s := s <| stream_offset ::= fun x => Z.lxor x 1 |> in
    (if stream_offset s =? 0 then 0
     else Z.lor (Z.lor (status s) 0x10) (if write_enabled s =? 0 then 0 else 2), s)
  else if cmd =? NOR_GET_JEDECID then
    if stream_offset s <? zlen nor_jedec_id then
      (rd nor_jedec_id (stream_offset s), s <| stream_offset ::= fun x => x + 1 |>)
    else (0xff, s)
  else (0xff, s).

Definition nor_command_byte (value : Z) (s : IPodTouchNORSPIState) : IPodTouchNORSPIState :=
  let s := s <| command_active := true |> <| cur_cmd := value |> <| nor_read_ind := 0 |> in
  if value =? NOR_WRITE_DATA_CMD then s <| page := replicate 256 0xff |> else s.

Definition ipod_touch_nor_spi_transfer (h : NorHost) (value : Z) (s : IPodTouchNORSPIState) : Z * IPodTouchNORSPIState :=
  let '(ret, s) := if restore_pending s then nor_persist h 0 NOR_FLASH_SIZE s else (0, s) in
  if ret <? 0 then (0xff, s <| status ::= fun v => Z.lor v NOR_STATUS_EPE |>)
  else
    let value := u8 value in
    if negb (command_active s) then (0, nor_command_byte value s)
    else nor_data_byte h value s.

Definition ipod_touch_nor_spi_realize (s : IPodTouchNORSPIState) : IPodTouchNORSPIState :=
  s <| nor_initialized := false |>.

Definition ipod_touch_nor_spi_pre_save (h : NorHost) (s : IPodTouchNORSPIState) : IPodTouchNORSPIState :=
  if nor_initialized s then s else initialize_nor h s.

(** The ranges a snapshot is checked for. *)
Definition nor_loadable (s : IPodTouchNORSPIState) : bool :=
  nor_initialized s &&
  (Z.ldiff (status s) (Z.lor (Z.lor NOR_STATUS_SPRL NOR_STATUS_SWP) NOR_STATUS_EPE) =? 0) &&
  (nor_read_ind s <? NOR_FLASH_SIZE) && (cur_cmd s <=? 0xff) && (address_bytes s <=? 3) &&
  (data_count s <=? NOR_PAGE_SIZE) && (stream_offset s <=? 4) && (write_enabled s <=? 1) &&
  ((nor_size s =? 0) || (nor_size s =? NOR_FLASH_SIZE)).

Definition ipod_touch_nor_spi_post_load (h : NorHost) (version_id : Z) (s : IPodTouchNORSPIState) : option IPodTouchNORSPIState :=
  let s := if version_id <? 2 then
             (nor_reset_transaction (initialize_nor h s)) <| status := NOR_STATUS_SWP |> <| nor_read_ind := 0 |>
           else s in
  if nor_loadable s then
    Some (s <| restore_pending := match nr_blk s with Some _ => true | None => false end |>)
  else None.

(** ** Opening the writable copy *)

Inductive NorOpenError :=
  | NorNoCopy | NorNoBase | NorSameFile | NorNotRegular | NorOpenFailed | NorAttachFailed | NorWrongSize | NorInitFailed.

(** What the host says of the two files: device, inode and whether the copy is
    a regular file; the content and length of the copy, once opened. *)
Record NorFiles := mkNorFiles {
  nf_writable : option (Z * Z * bool);
  nf_base : option (Z * Z);
  nf_open : option flash;
  nf_attach : bool;
  nf_length : Z
}.

Definition ipod_touch_nor_spi_open_overlay (h : NorHost) (fs : NorFiles) (s : IPodTouchNORSPIState)
  : option NorOpenError * IPodTouchNORSPIState :=
  match nf_writable fs with
  | None => (Some NorNoCopy, s)
  | Some (dev, ino, regular) =>
      let base := if nr_path s then
                    match nf_base fs with
                    | None => Some NorNoBase
                    | Some (bdev, bino) => if (bdev =? dev) && (bino =? ino) then Some NorSameFile else None
                    end
                  else None in
      match base with
      | Some e => (Some e, s)
      | None =>
          if negb regular then (Some NorNotRegular, s)
          else
            let s := s <| nr_blk := nf_open fs |> in
            match nf_open fs with
            | None => (Some NorOpenFailed, s)
            | Some _ =>
                if negb (nf_attach fs) then (Some NorAttachFailed, s)
                else if negb (nf_length fs =? NOR_FLASH_SIZE) then (Some NorWrongSize, s)
                else
                  let s := initialize_nor h s in
                  (if nor_size s =? NOR_FLASH_SIZE then None else Some NorInitFailed, s)
            end
      end
  end.

End Device.
