(* ===== verification/NorFacts.v ===== *)
(** * Facts about the NOR flash

    Ranges of the registers, what may change the array and what cannot, the
    erase, program and read sequence, the writable copy, and the boot arguments. *)

From Stdlib Require Import ZArith Lia.
From stdpp Require Import base numbers list.
From S2P Require Import Prelude CLib HwLib Nor.
Local Open Scope Z_scope.

(** ** Bus traffic *)

(** What can happen to the device, each with the host's answers at that time. *)
Inductive nor_event :=
  | EvCs (h : NorHost) (level : bool)
  | EvByte (h : NorHost) (value : Z)
  | EvReset.

Section Facts.
Variable adler32 : Z -> bytes -> Z.

Definition nor_step (s : IPodTouchNORSPIState) (ev : nor_event) : IPodTouchNORSPIState :=
  match ev with
  | EvCs h level => ipod_touch_nor_spi_set_cs adler32 h level s
  | EvByte h value => (ipod_touch_nor_spi_transfer adler32 h value s).2
  | EvReset => ipod_touch_nor_spi_reset s
  end.

Definition nor_run (evs : list nor_event) (s : IPodTouchNORSPIState) : IPodTouchNORSPIState := fold_left nor_step evs s.

(** ** Ranges *)

Definition status_ok (v : Z) : Prop := 0 <= v < 256 /\ Z.land v 0x53 = 0.

Record nor_wf (s : IPodTouchNORSPIState) : Prop := {
  nw_status : status_ok (status s);
  nw_ind : 0 <= nor_read_ind s < NOR_FLASH_SIZE;
  nw_cmd : is_byte (cur_cmd s);
  nw_addr : 0 <= address_bytes s <= 3;
  nw_count : 0 <= data_count s <= NOR_PAGE_SIZE;
  nw_stream : 0 <= stream_offset s <= 4 /\
    (negb (command_active s) || (cur_cmd s =? NOR_GET_STATUS_CMD) = true -> stream_offset s <= 1);
  nw_enabled : write_enabled s = 0 \/ write_enabled s = 1;
  nw_size : nor_size s = 0 \/ nor_size s = NOR_FLASH_SIZE;
  nw_page : length (page s) = 256%nat;
  nw_offset : is_byte (page_offset s)
}.

Lemma status_forall (P : Z -> bool) : forallb (fun v => negb (Z.land v 0x53 =? 0) || P v) all_bytes = true ->
  forall v, status_ok v -> P v = true.
Proof.
  intros H v [Hv Hm]. pose proof (byte_forall _ H v Hv) as E. cbn beta in E. rewrite Hm in E. exact E.
Qed.

Definition status_okb (v : Z) : bool := (0 <=? v) && (v <? 256) && (Z.land v 0x53 =? 0).

Lemma status_okb_spec v : status_okb v = true -> status_ok v.
Proof. unfold status_okb, status_ok. intros H. bool_hyps. lia. Qed.

Lemma status_set v m : m = NOR_STATUS_EPE \/ m = NOR_STATUS_SWP \/ m = NOR_STATUS_SPRL ->
  status_ok v -> status_ok (Z.lor v m) /\ status_ok (Z.ldiff v m).
Proof.
  intros Hm Hv.
  assert (K : forall m, forallb (fun v => negb (Z.land v 0x53 =? 0) || (status_okb (Z.lor v m) && status_okb (Z.ldiff v m))) all_bytes = true ->
    status_ok (Z.lor v m) /\ status_ok (Z.ldiff v m)).
  { intros k Hk. pose proof (status_forall (fun v => status_okb (Z.lor v k) && status_okb (Z.ldiff v k)) Hk v Hv) as E.
    cbn beta in E. apply andb_prop in E as [E1 E2]. split; by apply status_okb_spec. }
  destruct Hm as [->|[->| ->]]; apply K; vm_compute; reflexivity.
Qed.

Lemma status_sprl v x : status_ok v -> status_ok (Z.lor v (Z.land x NOR_STATUS_SPRL)).
Proof.
  intros Hv. destruct (Z.testbit x 7) eqn:Hx.
  - replace (Z.land x NOR_STATUS_SPRL) with NOR_STATUS_SPRL; [by apply status_set; [tauto|]|].
    symmetry. apply Z.bits_inj'. intros n Hn. change NOR_STATUS_SPRL with (2 ^ 7).
    rewrite Z.land_spec, !Z.pow2_bits_eqb by lia. destruct (Z.eqb_spec 7 n) as [<-|]; [by rewrite Hx|apply andb_false_r].
  - replace (Z.land x NOR_STATUS_SPRL) with 0; [by rewrite Z.lor_0_r|].
    symmetry. apply Z.bits_inj'. intros n Hn. change NOR_STATUS_SPRL with (2 ^ 7).
    rewrite Z.land_spec, Z.bits_0, Z.pow2_bits_eqb by lia. destruct (Z.eqb_spec 7 n) as [<-|]; [by rewrite Hx|apply andb_false_r].
Qed.

Lemma write_status_ok v s : status_ok (status s) -> status_ok (status (nor_write_status v s)).
Proof.
  intros H. unfold nor_write_status.
  destruct (Z.land (status s) NOR_STATUS_SPRL =? 0), (Z.land v 0x3c =? 0), (Z.land v 0x3c =? 0x3c);
    cbn; apply status_sprl, status_set; (tauto || apply status_set; tauto || done).
Qed.

(** An operation that only touches the array, the copy and the sizes. *)
Definition nor_regs (s : IPodTouchNORSPIState) :=
  (nor_read_ind s, cur_cmd s, address_bytes s, data_count s, stream_offset s, write_enabled s, page s, page_offset s,
   command_active s).

Lemma initialize_regs h s : nor_regs (initialize_nor adler32 h s) = nor_regs s /\
  status (initialize_nor adler32 h s) = status s /\ nor_initialized (initialize_nor adler32 h s) = true /\
  (nor_size (initialize_nor adler32 h s) = 0 \/ nor_size (initialize_nor adler32 h s) = NOR_FLASH_SIZE).
Proof.
  unfold initialize_nor, nor_image. destruct s as [pa bl rp ba]; cbn. destruct bl as [d|]; cbn.
  - destruct (nh_pread h); cbn; [destruct ba as [[|]|]; cbn; auto|auto].
  - destruct pa; cbn; [|auto]. destruct (nh_file h) as [[sz f]|]; cbn; [|auto].
    destruct (Z.eqb_spec sz NOR_FLASH_SIZE) as [->|]; cbn; [destruct ba as [[|]|]; cbn; auto|auto].
Qed.

Lemma persist_regs h a n s : nor_regs (nor_persist h a n s).2 = nor_regs s /\ status (nor_persist h a n s).2 = status s /\
  nor_size (nor_persist h a n s).2 = nor_size s /\ nor_initialized (nor_persist h a n s).2 = nor_initialized s /\
  nor_data (nor_persist h a n s).2 = nor_data s.
Proof.
  unfold nor_persist. destruct (nr_blk s); [|done]. destruct (restore_pending s); destruct (nh_pwrite h <? 0), (nh_pwrite h =? 0); done.
Qed.

Lemma nor_wf_regs s t : nor_wf s -> nor_regs t = nor_regs s -> status_ok (status t) ->
  nor_size t = 0 \/ nor_size t = NOR_FLASH_SIZE -> nor_wf t.
Proof.
  intros W E Hs Hz. unfold nor_regs in E. injection E as E1 E2 E3 E4 E5 E6 E7 E8 E9. destruct W.
  constructor; rewrite ?E1, ?E2, ?E3, ?E4, ?E5, ?E6, ?E7, ?E8, ?E9; done.
Qed.

Lemma nor_wf_modify h n s : nor_wf s -> nor_wf (nor_modify adler32 h n s).
Proof.
  intros W. unfold nor_modify. cbv zeta.
  set (s1 := s <| status ::= fun v => Z.ldiff v NOR_STATUS_EPE |>).
  assert (W1 : nor_wf s1).
  { apply (nor_wf_regs s); [done|done|apply status_set; [tauto|apply W]|apply W]. }
  clearbody s1. set (s2 := if nor_initialized s1 then s1 else _).
  assert (W2 : nor_wf s2).
  { unfold s2. destruct (nor_initialized s1); [done|]. destruct (initialize_regs h s1) as (E1 & E2 & _ & E3).
    apply (nor_wf_regs s1); [done|done|rewrite E2; apply W1|done]. }
  clearbody s2. clear s W s1 W1. destruct (negb _).
  { apply (nor_wf_regs s2); [done|done|apply status_set; [tauto|apply W2]|apply W2]. }
  set (s3 := s2 <| nor_data ::= _ |>).
  assert (W3 : nor_wf s3) by (apply (nor_wf_regs s2); [done|done|apply W2|apply W2]).
  clearbody s3. destruct (persist_regs h (Z.ldiff (nor_read_ind s2) (n - 1)) n s3) as (E1 & E2 & E3 & _).
  destruct (nor_persist _ _ _ s3) as [ret s4]. cbn [snd] in *.
  assert (W4 : nor_wf s4) by (apply (nor_wf_regs s3); [done|done|rewrite E2; apply W3|rewrite E3; apply W3]).
  destruct (ret <? 0); [|done].
  apply (nor_wf_regs s4); [done|done|apply status_set; [tauto|apply W4]|apply W4].
Qed.

Lemma nor_wf_enabled s v : nor_wf s -> v = 0 \/ v = 1 -> nor_wf (s <| write_enabled := v |>).
Proof. intros [] Hv. by constructor. Qed.

Lemma nor_wf_finish h s : nor_wf s -> nor_wf (nor_finish_transaction adler32 h s).
Proof.
  intros W. unfold nor_finish_transaction. destruct (negb _); [done|].
  destruct (_ =? NOR_ENABLE_WRITE); [apply nor_wf_enabled; tauto|].
  destruct (_ =? NOR_DISABLE_WRITE); [apply nor_wf_enabled; tauto|].
  destruct (_ =? 0); [done|]. destruct (_ =? NOR_WRITE_TO_STATUS_REG).
  { apply nor_wf_enabled; [|tauto]. destruct (_ =? 0); [done|].
    apply (nor_wf_regs s); [done| |by apply write_status_ok, W|].
    - unfold nor_write_status. by repeat case_match.
    - unfold nor_write_status. repeat case_match; apply W. }
  destruct (nor_length _) as [n|]; [|done]. destruct (_ || _); [apply nor_wf_enabled; tauto|].
  apply nor_wf_modify, nor_wf_enabled; tauto.
Qed.

Lemma nor_wf_idle s : nor_wf s -> nor_wf (nor_reset_transaction s).
Proof.
  intros []. constructor; cbn; try done; unfold is_byte, NOR_PAGE_SIZE; lia.
Qed.

Lemma nor_wf_address v s : nor_wf s -> address_bytes s < 3 -> nor_wf (nor_address_byte v s).
Proof.
  intros W H. unfold nor_address_byte. cbv zeta. set (ind := Z.land _ (NOR_FLASH_SIZE - 1)).
  assert (Hi : 0 <= ind < NOR_FLASH_SIZE).
  { unfold ind. change (NOR_FLASH_SIZE - 1) with (Z.ones 20). rewrite Z.land_ones by lia. by apply Z.mod_pos_bound. }
  assert (Hp : is_byte (Z.land ind (NOR_PAGE_SIZE - 1))).
  { change (NOR_PAGE_SIZE - 1) with (Z.ones 8). rewrite Z.land_ones by lia. by apply Z.mod_pos_bound. }
  clearbody ind. destruct W. case_match; constructor; cbn in *; try done; lia.
Qed.

Lemma nor_wf_page v s : nor_wf s -> nor_wf (nor_page_byte v s).
Proof.
  intros []. constructor; cbn; try done.
  - unfold NOR_PAGE_SIZE in *. destruct (Z.ltb_spec (data_count s) 256); lia.
  - unfold wr. by rewrite length_insert.
  - apply u8_is_byte.
Qed.

Lemma nor_wf_read h s : nor_wf s -> nor_wf (nor_read_byte adler32 h s).2.
Proof.
  intros W. unfold nor_read_byte. cbv zeta. set (t := if nor_initialized s then s else _).
  assert (Wt : nor_wf t).
  { unfold t. destruct (nor_initialized s); [done|]. destruct (initialize_regs h s) as (E1 & E2 & _ & E3).
    apply (nor_wf_regs s); [done|done|rewrite E2; apply W|done]. }
  clearbody t. cbn [snd]. destruct Wt. constructor; cbn; try done.
  change (NOR_FLASH_SIZE - 1) with (Z.ones 20). rewrite Z.land_ones by lia. by apply Z.mod_pos_bound.
Qed.

Lemma nor_wf_data h v s : nor_wf s -> command_active s = true -> nor_wf (nor_data_byte adler32 h v s).2.
Proof.
  intros W Ha. unfold nor_data_byte. cbv zeta. destruct (nor_addressed (cur_cmd s)).
  - destruct (Z.ltb_spec (address_bytes s) 3); [by apply nor_wf_address|].
    destruct (_ =? NOR_READ_DATA_CMD); [by apply nor_wf_read|].
    destruct (_ =? NOR_WRITE_DATA_CMD); [by apply nor_wf_page|done].
  - destruct (_ =? NOR_WRITE_TO_STATUS_REG).
    { cbn. destruct (_ =? 0); [|done]. destruct W. constructor; cbn; try done.
      unfold wr. by rewrite length_insert. }
    destruct (cur_cmd s =? NOR_GET_STATUS_CMD) eqn:Hc.
    { cbn [snd]. destruct W as [? ? ? ? ? [Hs1 Hs2] ? ? ? ?].
      assert (stream_offset s = 0 \/ stream_offset s = 1) as Hs.
      { rewrite Ha, Hc in Hs2. specialize (Hs2 eq_refl). lia. }
      constructor; try done. cbn [stream_offset upd upd_stream_offset]. destruct Hs as [-> | ->];
      (split; [vm_compute; split; discriminate|intros _; vm_compute; discriminate]). }
    destruct (_ =? NOR_GET_JEDECID); [|done]. destruct (Z.ltb_spec (stream_offset s) (zlen nor_jedec_id)) as [Hl|]; [|done].
    cbn [snd]. change (zlen nor_jedec_id) with 4 in Hl. destruct W as [? ? ? ? ? [Hs1 _] ? ? ? ?]. constructor; try done.
    cbn. rewrite Ha, Hc. split; [lia|]. discriminate.
Qed.

Lemma nor_wf_command v s : nor_wf s -> command_active s = false -> is_byte v -> nor_wf (nor_command_byte v s).
Proof.
  intros W Ha Hv. destruct W as [? ? ? ? ? [Hs1 Hs2] ? ? ? ?]. rewrite Ha in Hs2. specialize (Hs2 eq_refl).
  unfold nor_command_byte. cbv zeta. destruct (v =? NOR_WRITE_DATA_CMD); constructor; cbn; try done; lia.
Qed.

Lemma nor_wf_step s ev : nor_wf s -> nor_wf (nor_step s ev).
Proof.
  intros W. destruct ev as [h [|]|h v|]; cbn [nor_step].
  - apply nor_wf_idle. by apply nor_wf_finish.
  - by apply nor_wf_idle.
  - unfold ipod_touch_nor_spi_transfer.
    set (p := if restore_pending s then nor_persist h 0 NOR_FLASH_SIZE s else (0, s)).
    assert (Wp : nor_wf p.2).
    { unfold p. destruct (restore_pending s); [|done]. destruct (persist_regs h 0 NOR_FLASH_SIZE s) as (E1 & E2 & E3 & _).
      apply (nor_wf_regs s); [done|done|rewrite E2; apply W|rewrite E3; apply W]. }
    clearbody p. destruct p as [ret t]. cbn [snd] in Wp. destruct (ret <? 0).
    { apply (nor_wf_regs t); [done|done|apply status_set; [tauto|apply Wp]|apply Wp]. }
    cbv zeta. destruct (command_active t) eqn:Ha; cbn [negb].
    + by apply nor_wf_data.
    + apply nor_wf_command; [done|done|apply u8_is_byte].
  - unfold ipod_touch_nor_spi_reset. pose proof (nor_wf_idle s W) as Wt. generalize dependent (nor_reset_transaction s).
    intros t [H1 H2 H3 H4 H5 H6 H7 H8 H9 H10].
    constructor; cbn [status write_enabled upd upd_status upd_write_enabled]; [by apply status_okb_spec|exact H2|exact H3|exact H4|
      exact H5|exact H6|by left|exact H8|exact H9|exact H10].
Qed.

Lemma nor_wf_run evs s : nor_wf s -> nor_wf (nor_run evs s).
Proof. revert s. induction evs as [|ev evs IH]; intros s W; [done|]. by apply IH, nor_wf_step. Qed.

(** A device as it is created, with its image path, writable copy and boot
    arguments; QEMU resets it before the guest runs. *)
Definition nor_created (path : bool) (blk : option flash) (args : option bytes) : IPodTouchNORSPIState :=
  ipod_touch_nor_spi_reset (ipod_touch_nor_spi_realize
    (mkNor path blk false args 0 (fun _ => 0) 0 0 0 0 0 0 0 0 (replicate 256 0) false false false)).

Lemma nor_created_wf path blk args : nor_wf (nor_created path blk args).
Proof.
  constructor; cbn; try (unfold is_byte, NOR_FLASH_SIZE, NOR_PAGE_SIZE, NOR_STATUS_SWP, status_ok; lia); try tauto; try done.
Qed.

Lemma nor_wf_loadable s : nor_wf s -> nor_initialized s = true -> nor_loadable s = true.
Proof.
  intros [Hs Hi Hc Ha Hd Hst He Hz _ _] Hin. unfold nor_loadable. rewrite Hin. unfold is_byte in Hc.
  assert (Hl : (Z.ldiff (status s) (Z.lor (Z.lor NOR_STATUS_SPRL NOR_STATUS_SWP) NOR_STATUS_EPE) =? 0) = true).
  { apply (status_forall (fun v => Z.ldiff v (Z.lor (Z.lor NOR_STATUS_SPRL NOR_STATUS_SWP) NOR_STATUS_EPE) =? 0));
      [vm_compute; reflexivity|done]. }
  rewrite Hl. repeat (apply andb_true_intro; split); try done; try (apply Z.leb_le; lia); try (apply Z.ltb_lt; lia).
  apply orb_true_iff. rewrite !Z.eqb_eq. done.
Qed.

(** Whatever crosses the bus, in whatever order, and whatever the host
    answers, the registers of the flash stay in their ranges: a snapshot taken
    at any time is one that loading accepts, and it comes back with the flash
    array, the status and the transaction it was taken in. *)
Theorem nor_snapshot path blk args evs h h' :
  let s := ipod_touch_nor_spi_pre_save adler32 h (nor_run evs (nor_created path blk args)) in
  nor_wf s /\
  exists t, ipod_touch_nor_spi_post_load adler32 h' 2 s = Some t /\ nor_regs t = nor_regs s /\
    status t = status s /\ nor_data t = nor_data s /\ nor_size t = nor_size s.
Proof.
  cbv zeta. set (s0 := nor_run _ _). assert (W0 : nor_wf s0) by apply nor_wf_run, nor_created_wf.
  clearbody s0. unfold ipod_touch_nor_spi_pre_save. set (s := if nor_initialized s0 then s0 else _).
  assert (nor_wf s /\ nor_initialized s = true) as [W Hi].
  { unfold s. destruct (nor_initialized s0) eqn:E; [done|]. destruct (initialize_regs h s0) as (E1 & E2 & E3 & E4).
    split; [|done]. apply (nor_wf_regs s0); [done|done|rewrite E2; apply W0|done]. }
  split; [done|]. unfold ipod_touch_nor_spi_post_load. change (2 <? 2) with false. cbv zeta.
  rewrite nor_wf_loadable by done. by eexists.
Qed.

(** ** What can change the array *)

Lemma ldiff_block a k : 0 <= k -> 0 <= a -> Z.ldiff a (2 ^ k - 1) = a - a mod 2 ^ k.
Proof.
  intros Hk Ha. rewrite Z.sub_1_r, <- Z.ones_equiv, Z.ldiff_ones_r, Z.shiftr_div_pow2, Z.shiftl_mul_pow2 by lia.
  pose proof (Z.div_mod a (2 ^ k) ltac:(apply Z.pow_nonzero; lia)). lia.
Qed.

Lemma nor_length_pow c n : nor_length c = Some n -> n = 2 ^ 8 \/ n = 2 ^ 12 \/ n = 2 ^ 15 \/ n = 2 ^ 16.
Proof. unfold nor_length. intros H. repeat case_match; simplify_eq; auto. Qed.

Lemma nor_length_addressed c n : nor_length c = Some n -> nor_addressed c = true /\ c <> NOR_READ_DATA_CMD.
Proof.
  unfold nor_length, nor_addressed. intros H.
  destruct (Z.eqb_spec c NOR_WRITE_DATA_CMD) as [->|]; [done|]. destruct (Z.eqb_spec c NOR_ERASE_BLOCK) as [->|]; [done|].
  destruct (Z.eqb_spec c NOR_ERASE_32K) as [->|]; [done|]. by destruct (Z.eqb_spec c NOR_ERASE_64K) as [->|].
Qed.

Lemma land_ldiff_0 v k m : Z.land v m = 0 -> Z.land (Z.ldiff v k) m = 0.
Proof.
  intros H. apply Z.bits_inj'. intros n Hn. pose proof (f_equal (fun z => Z.testbit z n) H) as E. cbn beta in E.
  rewrite Z.land_spec in E. rewrite Z.land_spec, Z.ldiff_spec, Z.bits_0 in *.
  by destruct (Z.testbit v n), (Z.testbit k n), (Z.testbit m n).
Qed.

(** The block of the array a command is aimed at. *)
Definition nor_start (s : IPodTouchNORSPIState) (n : Z) : Z := nor_read_ind s - nor_read_ind s mod n.

Definition nor_target (s : IPodTouchNORSPIState) (n : Z) (f : flash) : flash :=
  if cur_cmd s =? NOR_WRITE_DATA_CMD then nor_program (nor_start s n) (page s) f else nor_erase (nor_start s n) n f.

Lemma nor_modify_data h n s : nor_wf s -> nor_initialized s = true -> nor_length (cur_cmd s) = Some n ->
  nor_data (nor_modify adler32 h n s) =
  (if nor_size s =? NOR_FLASH_SIZE then nor_target s n (nor_data s) else nor_data s).
Proof.
  intros W Hi Hn. unfold nor_modify. cbv zeta.
  assert (Hs : Z.ldiff (nor_read_ind s) (n - 1) = nor_start s n).
  { unfold nor_start. destruct (nor_length_pow _ _ Hn) as [->|[->|[->| ->]]]; apply ldiff_block; try lia; apply W. }
  change (nor_initialized (s <| status ::= _ |>)) with (nor_initialized s). rewrite Hi.
  change (nor_size (s <| status ::= _ |>)) with (nor_size s). destruct (nor_size s =? NOR_FLASH_SIZE); [|done]. cbn [negb].
  change (nor_read_ind (s <| status ::= _ |>)) with (nor_read_ind s). rewrite Hs. set (t := _ <| nor_data ::= _ |>).
  destruct (persist_regs h (nor_start s n) n t) as (_ & _ & _ & _ & E). destruct (nor_persist _ _ _ t) as [ret u].
  cbn [snd] in E. assert (nor_data u = nor_target s n (nor_data s)).
  { rewrite E. unfold t, nor_target. cbn. by destruct (cur_cmd s =? NOR_WRITE_DATA_CMD). }
  by destruct (ret <? 0).
Qed.

Lemma nor_modify_enabled h n s : write_enabled (nor_modify adler32 h n s) = write_enabled s.
Proof.
  unfold nor_modify. cbv zeta. set (t := if nor_initialized _ then _ else _).
  assert (Et : write_enabled t = write_enabled s).
  { unfold t. case_match; [done|]. set (u := s <| status ::= _ |>). destruct (initialize_regs h u) as (E & _).
    unfold nor_regs in E. injection E as _ _ _ _ _ E _ _ _. exact E. }
  clearbody t. destruct (negb _); [done|]. set (u := t <| nor_data ::= _ |>).
  destruct (persist_regs h (Z.ldiff (nor_read_ind t) (n - 1)) n u) as (E & _). destruct (nor_persist _ _ _ u) as [ret w].
  cbn [snd] in E. unfold nor_regs in E. injection E as _ _ _ _ _ E _ _ _. rewrite <- Et. by destruct (ret <? 0).
Qed.

(** Whether a release of the chip select changes the array. *)
Definition nor_armed (s : IPodTouchNORSPIState) : bool :=
  command_active s && negb (write_enabled s =? 0) && (address_bytes s =? 3) &&
  negb ((cur_cmd s =? NOR_WRITE_DATA_CMD) && (data_count s =? 0)) &&
  (Z.land (status s) NOR_STATUS_SWP =? 0) && (nor_size s =? NOR_FLASH_SIZE).

Lemma nor_finish_data h s : nor_wf s -> nor_initialized s = true ->
  nor_data (nor_finish_transaction adler32 h s) =
  match nor_length (cur_cmd s) with
  | Some n => if nor_armed s then nor_target s n (nor_data s) else nor_data s
  | None => nor_data s
  end.
Proof.
  intros W Hi. unfold nor_finish_transaction, nor_armed. destruct (command_active s); cbn [negb andb]; [|by case_match].
  destruct (Z.eqb_spec (cur_cmd s) NOR_ENABLE_WRITE) as [->|_]; [done|].
  destruct (Z.eqb_spec (cur_cmd s) NOR_DISABLE_WRITE) as [->|_]; [done|].
  destruct (write_enabled s =? 0); cbn [negb andb]; [by case_match|].
  destruct (Z.eqb_spec (cur_cmd s) NOR_WRITE_TO_STATUS_REG) as [->|_].
  { cbn. destruct (_ =? 0); [done|]. unfold nor_write_status. by repeat case_match. }
  destruct (nor_length (cur_cmd s)) as [n|] eqn:Hn; [|done]. cbv zeta. cbn.
  destruct (address_bytes s =? 3); cbn [negb andb orb]; [|done].
  destruct ((cur_cmd s =? NOR_WRITE_DATA_CMD) && (data_count s =? 0)); cbn [negb andb orb]; [done|].
  destruct (Z.land (status s) NOR_STATUS_SWP =? 0); cbn [negb andb orb]; [|done].
  rewrite nor_modify_data; [done|apply nor_wf_enabled; tauto|done|done].
Qed.

Lemma nor_transfer_data h v s : nor_initialized s = true ->
  nor_data (ipod_touch_nor_spi_transfer adler32 h v s).2 = nor_data s /\
  nor_initialized (ipod_touch_nor_spi_transfer adler32 h v s).2 = true /\
  nor_size (ipod_touch_nor_spi_transfer adler32 h v s).2 = nor_size s.
Proof.
  intros Hi. unfold ipod_touch_nor_spi_transfer.
  set (p := if restore_pending s then nor_persist h 0 NOR_FLASH_SIZE s else (0, s)).
  assert (Ep : nor_data p.2 = nor_data s /\ nor_initialized p.2 = true /\ nor_size p.2 = nor_size s).
  { unfold p. destruct (restore_pending s); [|done]. destruct (persist_regs h 0 NOR_FLASH_SIZE s) as (_ & _ & E3 & E4 & E5).
    by rewrite E3, E4, E5. }
  clearbody p. destruct p as [ret t]. cbn [snd] in Ep. destruct Ep as (E1 & E2 & E3). rewrite <- E1, <- E3.
  destruct (ret <? 0); [done|]. cbv zeta. destruct (negb (command_active t)).
  { unfold nor_command_byte. cbv zeta. by case_match. }
  unfold nor_data_byte, nor_address_byte, nor_read_byte, nor_page_byte. cbv zeta. rewrite E2. by repeat case_match.
Qed.

(** The array changes only as a flash would let it: a byte that differs after
    an event was changed by the release of the chip select that ended a program
    or erase command, with the three address bytes clocked in, the write enable
    set (and spent by it) and the sectors unprotected; it lies in the page or
    block that contains the address, erasing leaves 0xff there, and programming
    only clears bits. *)
Theorem nor_change_guarded s ev a : nor_wf s -> nor_initialized s = true ->
  nor_data (nor_step s ev) a <> nor_data s a ->
  exists h n, ev = EvCs h true /\ nor_length (cur_cmd s) = Some n /\ command_active s = true /\
    write_enabled s = 1 /\ address_bytes s = 3 /\ Z.land (status s) NOR_STATUS_SWP = 0 /\
    write_enabled (nor_step s ev) = 0 /\
    nor_start s n <= a < nor_start s n + n /\
    nor_data (nor_step s ev) a =
      (if cur_cmd s =? NOR_WRITE_DATA_CMD then Z.land (nor_data s a) (rd (page s) (a - nor_start s n)) else 0xff).
Proof.
  intros W Hi Hne. destruct ev as [h [|]|h v|]; cbn [nor_step] in *.
  - unfold ipod_touch_nor_spi_set_cs in *.
    change (nor_data (nor_reset_transaction ?x)) with (nor_data x) in *.
    change (write_enabled (nor_reset_transaction ?x)) with (write_enabled x). rewrite nor_finish_data in * by done.
    destruct (nor_length (cur_cmd s)) as [n|] eqn:Hn; [|done]. destruct (nor_armed s) eqn:Ha; [|done].
    exists h, n. unfold nor_armed in Ha.
    apply andb_prop in Ha as [[[[[Hc He]%andb_prop H3]%andb_prop Hd]%andb_prop Hp]%andb_prop _].
    apply negb_true_iff in He, Hd. bool_hyps. destruct (nw_enabled s W) as [|He1]; [done|].
    assert (Hw : write_enabled (nor_finish_transaction adler32 h s) = 0).
    { unfold nor_finish_transaction. rewrite Hc, He1, Hn. change (1 =? 0) with false. cbn [negb].
      destruct (Z.eqb_spec (cur_cmd s) NOR_ENABLE_WRITE) as [E|_]; [by rewrite E in Hn|].
      destruct (Z.eqb_spec (cur_cmd s) NOR_DISABLE_WRITE) as [E|_]; [by rewrite E in Hn|].
      destruct (Z.eqb_spec (cur_cmd s) NOR_WRITE_TO_STATUS_REG) as [E|_]; [by rewrite E in Hn|].
      cbv zeta. destruct (_ || _); [done|]. by rewrite nor_modify_enabled. }
    do 7 (split; [done|]). unfold nor_target, nor_program, nor_erase in *.
    destruct (nor_length_pow _ _ Hn) as [->|[->|[->| ->]]]; destruct (cur_cmd s =? NOR_WRITE_DATA_CMD) eqn:Ec;
      try (unfold nor_length in Hn; rewrite Ec in Hn; discriminate Hn);
      (match type of Hne with (if ?c then _ else _) <> _ => destruct c eqn:Hr end; [|done]);
      bool_hyps; (split; [|done]); change NOR_PAGE_SIZE with (2 ^ 8) in *; lia.
  - by unfold ipod_touch_nor_spi_set_cs in Hne.
  - by rewrite (proj1 (nor_transfer_data h v s Hi)) in Hne.
  - done.
Qed.

(** ** Transactions *)

(** A transaction: select, bytes, release. *)
Definition nor_xact (bs : list (NorHost * Z)) (h : NorHost) : list nor_event :=
  EvCs h false :: ((fun b => EvByte b.1 b.2) <$> bs) ++ [EvCs h true].

Definition nor_xacts (xs : list (list (NorHost * Z) * NorHost)) : list nor_event := concat ((fun x => nor_xact x.1 x.2) <$> xs).

(** What the bytes after the command leave alone. *)
Definition nor_kept (s : IPodTouchNORSPIState) :=
  (cur_cmd s, command_active s, status s, restore_pending s, nr_blk s, nor_data s, nor_initialized s, nor_size s, write_enabled s).

Lemma nor_data_byte_kept h v s : nor_initialized s = true -> nor_kept (nor_data_byte adler32 h v s).2 = nor_kept s.
Proof.
  intros Hi. unfold nor_data_byte, nor_address_byte, nor_read_byte, nor_page_byte. cbv zeta. rewrite Hi. by repeat case_match.
Qed.

Lemma nor_transfer_ready h v s : restore_pending s = false ->
  ipod_touch_nor_spi_transfer adler32 h v s =
  (if negb (command_active s) then (0, nor_command_byte (u8 v) s) else nor_data_byte adler32 h (u8 v) s).
Proof. intros H. unfold ipod_touch_nor_spi_transfer. by rewrite H. Qed.

Lemma nor_bytes_kept bs s : nor_initialized s = true -> restore_pending s = false -> command_active s = true ->
  nor_kept (nor_run ((fun b => EvByte b.1 b.2) <$> bs) s) = nor_kept s.
Proof.
  revert s. induction bs as [|[h v] bs IH]; intros s Hi Hr Ha; [done|]. cbn [fmap list_fmap fst snd].
  change (nor_run (EvByte h v :: ?l) s) with (nor_run l (ipod_touch_nor_spi_transfer adler32 h v s).2).
  rewrite nor_transfer_ready, Ha by done. cbn [negb]. pose proof (nor_data_byte_kept h (u8 v) s Hi) as E.
  rewrite IH; [done|..]; unfold nor_kept in E; congruence.
Qed.

Lemma nor_run_app l k s : nor_run (l ++ k) s = nor_run k (nor_run l s).
Proof. apply fold_left_app. Qed.

(** Locked: initialised, in step with the copy, and protected. *)
Definition nor_locked (s : IPodTouchNORSPIState) : Prop :=
  nor_initialized s = true /\ restore_pending s = false /\ Z.land (status s) NOR_STATUS_SWP <> 0.

Lemma nor_finish_locked h s : nor_locked s -> (command_active s = true -> cur_cmd s <> NOR_WRITE_TO_STATUS_REG) ->
  nor_locked (nor_finish_transaction adler32 h s) /\ nor_data (nor_finish_transaction adler32 h s) = nor_data s /\
  nr_blk (nor_finish_transaction adler32 h s) = nr_blk s.
Proof.
  intros (Hi & Hr & Hp) Hc. unfold nor_finish_transaction. destruct (command_active s); [|done]. cbn [negb].
  destruct (_ =? NOR_ENABLE_WRITE); [done|]. destruct (_ =? NOR_DISABLE_WRITE); [done|]. destruct (_ =? 0); [done|].
  rewrite (proj2 (Z.eqb_neq _ _)) by auto. destruct (nor_length _) as [n|]; [|done]. cbv zeta.
  change (status (s <| write_enabled := 0 |>)) with (status s). rewrite (proj2 (Z.eqb_neq _ _) Hp), orb_true_r. done.
Qed.

Lemma nor_xact_locked bs h s : nor_locked s -> u8 (default (h, 0) (head bs)).2 <> NOR_WRITE_TO_STATUS_REG ->
  nor_locked (nor_run (nor_xact bs h) s) /\ nor_data (nor_run (nor_xact bs h) s) = nor_data s /\
  nr_blk (nor_run (nor_xact bs h) s) = nr_blk s.
Proof.
  intros (Hi & Hr & Hp) Hb. unfold nor_xact. change (EvCs h false :: ?l) with ([EvCs h false] ++ l). rewrite !nor_run_app.
  set (s0 := nor_run [EvCs h false] s).
  assert (K0 : nor_locked s0 /\ nor_data s0 = nor_data s /\ nr_blk s0 = nr_blk s /\ command_active s0 = false) by done.
  clearbody s0. destruct K0 as (L0 & D0 & B0 & A0). rewrite <- D0, <- B0. clear s Hi Hr Hp D0 B0.
  set (s1 := nor_run _ s0).
  assert (K1 : nor_locked s1 /\ nor_data s1 = nor_data s0 /\ nr_blk s1 = nr_blk s0 /\
    (command_active s1 = true -> cur_cmd s1 <> NOR_WRITE_TO_STATUS_REG)).
  { destruct bs as [|[h0 v] bs]; [by unfold s1; cbn; rewrite A0|]. cbn in Hb. destruct L0 as (Hi & Hr & Hp).
    assert (E : nor_kept s1 = nor_kept (nor_command_byte (u8 v) s0)).
    { unfold s1. cbn [fmap list_fmap fst snd].
      change (nor_run (EvByte h0 v :: ?l) s0) with (nor_run l (ipod_touch_nor_spi_transfer adler32 h0 v s0).2).
      rewrite nor_transfer_ready, A0 by done. cbn [negb].
      apply nor_bytes_kept; cbn [snd]; unfold nor_command_byte; cbv zeta; by case_match. }
    assert (E' : nor_kept (nor_command_byte (u8 v) s0) =
      (u8 v, true, status s0, restore_pending s0, nr_blk s0, nor_data s0, nor_initialized s0, nor_size s0, write_enabled s0)).
    { unfold nor_command_byte, nor_kept. cbv zeta. by case_match. }
    rewrite E' in E. unfold nor_kept in E. injection E as E1 E2 E3 E4 E5 E6 E7 E8 E9. unfold nor_locked.
    by rewrite E1, E3, E4, E5, E6, E7. }
  clearbody s1. destruct K1 as (L1 & <- & <- & C1). by apply (nor_finish_locked h s1).
Qed.

(** Protection holds: after a reset, and until the guest sends a write-status
    command, no sequence of transactions, complete or cut short anywhere,
    changes a byte of the array or of the writable copy. *)
Theorem nor_protected xs s : nor_initialized s = true -> restore_pending s = false ->
  Forall (fun x => u8 (default (x.2, 0) (head x.1)).2 <> NOR_WRITE_TO_STATUS_REG) xs ->
  let s' := nor_run (EvReset :: nor_xacts xs) s in
  nor_data s' = nor_data s /\ nr_blk s' = nr_blk s /\ Z.land (status s') NOR_STATUS_SWP <> 0.
Proof.
  intros Hi Hr Hx. cbv zeta. change (nor_run (EvReset :: ?l) s) with (nor_run l (ipod_touch_nor_spi_reset s)).
  assert (L : nor_locked (ipod_touch_nor_spi_reset s)) by done.
  assert (E : nor_data (ipod_touch_nor_spi_reset s) = nor_data s /\ nr_blk (ipod_touch_nor_spi_reset s) = nr_blk s) by done.
  destruct E as [<- <-]. generalize dependent (ipod_touch_nor_spi_reset s). clear s Hi Hr.
  induction Hx as [|[bs h] xs Hb Hx IH]; intros s L; [split; [done|]; split; [done|apply L]|].
  unfold nor_xacts. cbn [fmap list_fmap concat]. rewrite nor_run_app.
  destruct (nor_xact_locked bs h s L Hb) as (L1 & <- & <-). by apply IH.
Qed.

(** ** Erase, program, read *)

(** The bytes the device answers, and the state after them. *)
Fixpoint nor_xfer (h : NorHost) (bs : bytes) (s : IPodTouchNORSPIState) : bytes * IPodTouchNORSPIState :=
  match bs with
  | [] => ([], s)
  | b :: bs =>
      let '(r, s) := ipod_touch_nor_spi_transfer adler32 h b s in
      let '(rs, s) := nor_xfer h bs s in (r :: rs, s)
  end.

Definition nor_session (h : NorHost) (bs : bytes) (s : IPodTouchNORSPIState) : bytes * IPodTouchNORSPIState :=
  let '(rs, s) := nor_xfer h bs (ipod_touch_nor_spi_set_cs adler32 h false s) in
  (rs, ipod_touch_nor_spi_set_cs adler32 h true s).

Definition nor_addr (a : Z) : bytes := [a / 65536; a / 256 mod 256; a mod 256].

Lemma nor_xfer_app h l k s :
  nor_xfer h (l ++ k) s = (let '(r1, s1) := nor_xfer h l s in let '(r2, s2) := nor_xfer h k s1 in (r1 ++ r2, s2)).
Proof.
  revert s. induction l as [|b l IH]; intros s; cbn [nor_xfer app]; [by destruct (nor_xfer h k s)|].
  destruct (ipod_touch_nor_spi_transfer _ _ _ _) as [r t]. rewrite IH. destruct (nor_xfer h l t) as [r1 s1].
  by destruct (nor_xfer h k s1).
Qed.

Lemma nor_xfer_wf h bs s : nor_wf s -> nor_wf (nor_xfer h bs s).2.
Proof.
  revert s. induction bs as [|b bs IH]; intros s W; [done|]. cbn [nor_xfer].
  pose proof (nor_wf_step s (EvByte h b) W) as W1. cbn [nor_step] in W1.
  destruct (ipod_touch_nor_spi_transfer _ _ _ _) as [r t]. specialize (IH t W1). by destruct (nor_xfer h bs t).
Qed.

Lemma nor_session_wf h bs s : nor_wf s -> nor_wf (nor_session h bs s).2.
Proof.
  intros W. unfold nor_session. pose proof (nor_xfer_wf h bs _ (nor_wf_step s (EvCs h false) W)) as W1.
  cbn [nor_step] in W1. destruct (nor_xfer _ _ _) as [rs t]. apply (nor_wf_step t (EvCs h true) W1).
Qed.

Lemma addr_value a : 0 <= a < NOR_FLASH_SIZE ->
  let m := NOR_FLASH_SIZE - 1 in
  Z.land (Z.lor (Z.shiftl (Z.land (Z.lor (Z.shiftl (Z.land (Z.lor (Z.shiftl 0 8) (u8 (a / 65536))) m) 8) (u8 (a / 256 mod 256))) m) 8)
          (u8 (a mod 256))) m = a.
Proof.
  intros Ha. cbv zeta. change (NOR_FLASH_SIZE - 1) with (Z.ones 20). rewrite !Z.land_ones by lia.
  unfold NOR_FLASH_SIZE in Ha. pose proof (Z.mod_pos_bound a 256 ltac:(lia)). pose proof (Z.mod_pos_bound (a / 256) 256 ltac:(lia)).
  assert (0 <= a / 65536 < 16) by (split; [apply Z.div_pos; lia|apply Z.div_lt_upper_bound; lia]).
  rewrite !u8_id by (unfold is_byte; lia). rewrite !lor_shiftl_add by lia.
  rewrite Z.mul_0_l, Z.add_0_l. change (2 ^ 20) with 1048576. change (2 ^ 8) with 256.
  rewrite (Z.mod_small (a / 65536)) by lia.
  assert (Ea : a / 65536 * 256 + (a / 256) mod 256 = a / 256).
  { replace (a / 65536) with (a / 256 / 256) by (rewrite Z.div_div by lia; done).
    pose proof (Z.div_mod (a / 256) 256 ltac:(lia)). lia. }
  rewrite Ea. assert (0 <= a / 256 < 4096) by (split; [apply Z.div_pos; lia|apply Z.div_lt_upper_bound; lia]).
  rewrite (Z.mod_small (a / 256) 1048576) by lia. pose proof (Z.div_mod a 256 ltac:(lia)).
  rewrite Z.mod_small; lia.
Qed.

Lemma nor_transfer_addr h b s : restore_pending s = false -> command_active s = true -> nor_addressed (cur_cmd s) = true ->
  address_bytes s < 3 -> ipod_touch_nor_spi_transfer adler32 h b s = (0, nor_address_byte (u8 b) s).
Proof.
  intros Hr Ha Hc Hb. rewrite nor_transfer_ready, Ha by done. unfold nor_data_byte. rewrite Hc. cbv zeta. cbn [negb].
  by rewrite (proj2 (Z.ltb_lt _ _) Hb).
Qed.

(** A command with its address clocked in. *)
Definition nor_addressed_at (c a : Z) (s : IPodTouchNORSPIState) : IPodTouchNORSPIState :=
  (nor_command_byte c (nor_reset_transaction s)) <| nor_read_ind := a |> <| address_bytes := 3 |> <| page_offset := a mod 256 |>.

Lemma nor_xfer_addr h c a s : nor_addressed c = true -> restore_pending s = false -> 0 <= a < NOR_FLASH_SIZE ->
  nor_xfer h (c :: nor_addr a) (nor_reset_transaction s) = ([0; 0; 0; 0], nor_addressed_at c a s).
Proof.
  intros Hc Hr Ha.
  assert (Hu : u8 c = c).
  { apply u8_id. unfold nor_addressed, is_byte in *.
    repeat match type of Hc with _ || _ = true => apply orb_prop in Hc as [Hc|Hc] end; apply Z.eqb_eq in Hc; subst c; by vm_compute. }
  unfold nor_addr. cbn [nor_xfer]. rewrite (nor_transfer_ready h c) by done. cbn [command_active nor_reset_transaction negb].
  rewrite Hu. change (negb (command_active (nor_reset_transaction s))) with true.
  unfold nor_addressed_at. set (t := nor_command_byte c (nor_reset_transaction s)).
  assert (Ht : restore_pending t = false /\ command_active t = true /\ cur_cmd t = c /\ address_bytes t = 0 /\ nor_read_ind t = 0).
  { unfold t, nor_command_byte. cbv zeta. by case_match. }
  clearbody t. destruct Ht as (H1 & H2 & H3 & H4 & H5). destruct t as [pa bl rp ba cc nd ns we ri ab po so st dc pg ca ni nf].
  cbn in H1, H2, H3, H4, H5. subst rp ca cc ab ri. rewrite !nor_transfer_addr by done.
  unfold nor_address_byte. cbn -[Z.land Z.lor Z.shiftl u8 Z.sub Z.modulo Z.div Z.add].
  change (0 + 1 =? 3) with false. cbn -[Z.land Z.lor Z.shiftl u8 Z.sub Z.modulo Z.div Z.add].
  change (0 + 1 + 1 =? 3) with false. cbn -[Z.land Z.lor Z.shiftl u8 Z.sub Z.modulo Z.div Z.add].
  change (0 + 1 + 1 + 1 =? 3) with true. cbn -[Z.land Z.lor Z.shiftl u8 Z.sub Z.modulo Z.div Z.add]. rewrite addr_value by done.
  change (NOR_PAGE_SIZE - 1) with (Z.ones 8). by rewrite Z.land_ones.
Qed.

(** Data bytes of a page program that do not run past the page. *)
Lemma nor_xfer_page h data s : restore_pending s = false -> command_active s = true -> cur_cmd s = NOR_WRITE_DATA_CMD ->
  address_bytes s = 3 -> 0 <= page_offset s -> page_offset s + zlen data <= 256 -> is_bytes data ->
  let s' := (nor_xfer h data s).2 in
  nor_kept s' = nor_kept s /\ address_bytes s' = 3 /\ nor_read_ind s' = nor_read_ind s /\
  page s' = blit (page s) (Z.to_nat (page_offset s)) data /\
  data_count s <= data_count s' /\ (data <> [] -> 0 <= data_count s -> 0 < data_count s').
Proof.
  cbv zeta. intros Hr Ha Hc H3 Ho Hl Hb. revert s Hr Ha Hc H3 Ho Hl.
  induction Hb as [|v data Hv Hb IH]; intros s Hr Ha Hc H3 Ho Hl; [cbn; repeat split; (done || lia)|].
  rewrite zlen_cons in Hl. pose proof (zlen_nonneg data). cbn [nor_xfer].
  rewrite nor_transfer_ready, Ha, u8_id by done. unfold nor_data_byte. rewrite Hc, H3. cbv zeta.
  change (nor_addressed NOR_WRITE_DATA_CMD) with true. change (3 <? 3) with false.
  change (NOR_WRITE_DATA_CMD =? NOR_READ_DATA_CMD) with false. rewrite Z.eqb_refl. cbn [negb].
  set (t := nor_page_byte v s).
  assert (Ht : nor_kept t = nor_kept s /\ address_bytes t = 3 /\ nor_read_ind t = nor_read_ind s /\
    page t = <[Z.to_nat (page_offset s) := v]> (page s) /\ page_offset t = u8 (page_offset s + 1) /\
    data_count s <= data_count t /\ (0 <= data_count s -> 0 < data_count t)).
  { unfold t, nor_page_byte, nor_kept, NOR_PAGE_SIZE. cbn. repeat split; try done; destruct (Z.ltb_spec (data_count s) 256); lia. }
  clearbody t. destruct Ht as (E1 & E2 & E3 & E4 & E5 & E6 & E7).
  assert (restore_pending t = false /\ command_active t = true /\ cur_cmd t = NOR_WRITE_DATA_CMD) as (K1 & K2 & K3)
    by (unfold nor_kept in E1; injection E1; intros; subst; by repeat split; congruence).
  destruct data as [|w data]; [cbn; rewrite E4; repeat split; (done || auto)|].
  rewrite zlen_cons in Hl. pose proof (zlen_nonneg data).
  assert (Eo : page_offset t = page_offset s + 1) by (rewrite E5; apply u8_id; unfold is_byte; lia).
  destruct (IH t K1 K2 K3 E2) as (F1 & F2 & F3 & F4 & F5 & F6); [lia|rewrite zlen_cons; lia|].
  destruct (nor_xfer h (w :: data) t) as [rs u]. cbn [snd] in *. rewrite F1, F2, F3, F4, E1, E3, E4, Eo.
  replace (Z.to_nat (page_offset s + 1)) with (S (Z.to_nat (page_offset s))) by lia. repeat split; (done || lia).
Qed.

(** ** Reading *)

(** What the flash holds: the array once it was read in, and before that the
    writable copy or the image file, with the boot arguments put in. *)
Definition nor_source (h : NorHost) (s : IPodTouchNORSPIState) : option flash :=
  match nr_blk s with
  | Some disk => if nh_pread h then Some disk else None
  | None => if nr_path s then '(size, f) ← nh_file h; if size =? NOR_FLASH_SIZE then Some f else None else None
  end.

Definition nor_content (h : NorHost) (s : IPodTouchNORSPIState) : flash :=
  if nor_initialized s then nor_data s
  else match nor_source h s, nr_boot_args s with
       | None, _ => nor_blank
       | Some f, Some (c :: t) => nor_set_boot_args adler32 (c :: t) NOR_FLASH_SIZE f
       | Some f, _ => f
       end.

Lemma initialize_content h s : nor_initialized s = false -> nor_data (initialize_nor adler32 h s) = nor_content h s.
Proof.
  intros Hi. unfold nor_content, nor_source, initialize_nor, nor_image. rewrite Hi. destruct s as [pa bl rp ba]; cbn.
  destruct bl as [d|]; cbn; [by destruct (nh_pread h), ba as [[|]|]|].
  destruct pa; cbn; [|done]. destruct (nh_file h) as [[sz f]|]; cbn; [|done].
  destruct (Z.eqb_spec sz NOR_FLASH_SIZE) as [->|]; cbn; [|done]. by destruct ba as [[|]|].
Qed.

(** The copy a loaded snapshot still has to be written to can be written. *)
Definition nor_served (h : NorHost) (s : IPodTouchNORSPIState) : Prop :=
  restore_pending s = true -> nor_initialized s = true /\ 0 <= nh_pwrite h.

(** A transfer of a flash that is served, whatever its protection and whether
    or not it was read in. *)
Lemma nor_transfer_served h b s : nor_served h s ->
  exists t, nor_regs t = nor_regs s /\ nor_content h t = nor_content h s /\ nor_served h t /\
    ipod_touch_nor_spi_transfer adler32 h b s =
    (if negb (command_active t) then (0, nor_command_byte (u8 b) t) else nor_data_byte adler32 h (u8 b) t).
Proof.
  intros Hs. unfold ipod_touch_nor_spi_transfer. destruct (restore_pending s) eqn:Hr.
  2: { exists s. split_and!; [done|done|exact Hs|done]. }
  destruct (Hs Hr) as [Hi Hp]. destruct (persist_regs h 0 NOR_FLASH_SIZE s) as (E1 & _ & _ & E4 & E5).
  assert (E0 : 0 <= (nor_persist h 0 NOR_FLASH_SIZE s).1).
  { unfold nor_persist. destruct (nr_blk s); [|done]. by rewrite Hr. }
  destruct (nor_persist h 0 NOR_FLASH_SIZE s) as [ret t]. cbn [fst snd] in *. exists t.
  split; [done|]. split; [unfold nor_content; by rewrite E4, Hi, E5|]. split; [intros _; by rewrite E4|].
  by rewrite (proj2 (Z.ltb_ge _ _)) by lia.
Qed.

(** A read transaction that has taken [k] address bytes. *)
Record nor_reading (h : NorHost) (f : flash) (k ind : Z) (s : IPodTouchNORSPIState) : Prop := {
  rd_served : nor_served h s;
  rd_content : nor_content h s = f;
  rd_active : command_active s = true;
  rd_cmd : cur_cmd s = NOR_READ_DATA_CMD;
  rd_addr : address_bytes s = k;
  rd_ind : nor_read_ind s = ind
}.

Lemma nor_reading_start h s : nor_served h s ->
  exists u, ipod_touch_nor_spi_transfer adler32 h NOR_READ_DATA_CMD (nor_reset_transaction s) = (0, u) /\
    nor_reading h (nor_content h s) 0 0 u.
Proof.
  intros Hs. destruct (nor_transfer_served h NOR_READ_DATA_CMD (nor_reset_transaction s) Hs) as (t & R & C & S & ->).
  unfold nor_regs in R. injection R as _ _ R3 _ _ _ _ _ R9. rewrite R9. cbn [negb command_active nor_reset_transaction].
  change (command_active (nor_reset_transaction s)) with false. cbn [negb]. eexists. split; [reflexivity|].
  by split.
Qed.

Lemma nor_reading_addr h f k ind b s : nor_reading h f k ind s -> k < 3 ->
  exists u, ipod_touch_nor_spi_transfer adler32 h b s = (0, u) /\
    nor_reading h f (k + 1) (Z.land (Z.lor (Z.shiftl ind 8) (u8 b)) (NOR_FLASH_SIZE - 1)) u.
Proof.
  intros [Hs Hf Ha Hc Hk Hi] Hl. destruct (nor_transfer_served h b s Hs) as (t & R & C & S & ->).
  unfold nor_regs in R. injection R as R1 R2 R3 _ _ _ _ _ R9. rewrite R9, Ha. cbn [negb]. unfold nor_data_byte.
  rewrite R2, Hc, R3, Hk. cbv zeta. change (nor_addressed NOR_READ_DATA_CMD) with true. cbv iota.
  rewrite (proj2 (Z.ltb_lt _ _) Hl). eexists. split; [reflexivity|]. unfold nor_address_byte. cbv zeta.
  set (v := Z.land (Z.lor (Z.shiftl (nor_read_ind t) 8) (u8 b)) (NOR_FLASH_SIZE - 1)).
  assert (Ev : v = Z.land (Z.lor (Z.shiftl ind 8) (u8 b)) (NOR_FLASH_SIZE - 1)) by (unfold v; by rewrite R1, Hi).
  rewrite <- Ev. clearbody v. rewrite Hf in C.
  case_match; (split; cbn; [exact S|exact C|congruence|congruence|by rewrite R3, Hk|done]).
Qed.

Lemma nor_reading_byte h f ind b s : nor_reading h f 3 ind s ->
  exists u, ipod_touch_nor_spi_transfer adler32 h b s = (f ind, u) /\
    nor_reading h f 3 (Z.land (ind + 1) (NOR_FLASH_SIZE - 1)) u.
Proof.
  intros [Hs Hf Ha Hc Hk Hi]. destruct (nor_transfer_served h b s Hs) as (t & R & C & S & ->).
  unfold nor_regs in R. injection R as R1 R2 R3 _ _ _ _ _ R9. rewrite R9, Ha. cbn [negb]. unfold nor_data_byte.
  rewrite R2, Hc, R3, Hk. cbv zeta. change (nor_addressed NOR_READ_DATA_CMD) with true. change (3 <? 3) with false.
  rewrite Z.eqb_refl. cbv iota. unfold nor_read_byte. rewrite Hf in C.
  set (t1 := if nor_initialized t then t else _).
  assert (E : nor_data t1 = f /\ nor_initialized t1 = true /\ nor_regs t1 = nor_regs t /\ nor_served h t1).
  { unfold t1. destruct (nor_initialized t) eqn:Ht; [by unfold nor_content in C; rewrite Ht in C|].
    destruct (initialize_regs h t) as (E1 & _ & E3 & _). rewrite initialize_content by done. split_and!; try done.
    intros Hr. split; [done|]. assert (restore_pending t = true) as Hr'; [|by destruct (S Hr')].
    revert Hr. unfold initialize_nor, nor_image. destruct t as [pa bl rp ba]; cbn. by repeat case_match. }
  clearbody t1. destruct E as (E1 & E2 & E3 & E4). unfold nor_regs in E3. injection E3 as F1 F2 F3 _ _ _ _ _ F9.
  cbv zeta. rewrite E1, F1, R1, Hi. eexists. split; [reflexivity|].
  split; cbn [command_active cur_cmd address_bytes nor_read_ind upd upd_nor_read_ind]; try congruence.
  - exact E4.
  - unfold nor_content. cbn. by rewrite E2.
Qed.

Lemma nor_xfer_read h f bs ind s : nor_reading h f 3 ind s -> 0 <= ind -> ind + zlen bs <= NOR_FLASH_SIZE ->
  (nor_xfer h bs s).1 = phys_read f ind (zlen bs).
Proof.
  revert ind s. induction bs as [|b bs IH]; intros ind s R H0 Hl; [done|].
  rewrite zlen_cons in *. pose proof (zlen_nonneg bs). cbn [nor_xfer].
  destruct (nor_reading_byte h f ind b s R) as (u & -> & R').
  unfold phys_read. replace (Z.to_nat (zlen bs + 1)) with (S (length bs)) by (unfold zlen; lia).
  cbn [seq fmap list_fmap]. rewrite Z.add_0_r, <- fmap_S_seq, <- list_fmap_compose.
  destruct bs as [|b' bs]; [done|]. rewrite zlen_cons in *. pose proof (zlen_nonneg bs).
  assert (Et : Z.land (ind + 1) (NOR_FLASH_SIZE - 1) = ind + 1).
  { change (NOR_FLASH_SIZE - 1) with (Z.ones 20). rewrite Z.land_ones by lia. apply Z.mod_small. change (2 ^ 20) with NOR_FLASH_SIZE. lia. }
  rewrite Et in R'. specialize (IH (ind + 1) u R' ltac:(lia) ltac:(lia)).
  destruct (nor_xfer h (b' :: bs) u) as [rs u']. cbn [fst] in *. rewrite IH. f_equal. unfold phys_read.
  replace (Z.to_nat (zlen bs + 1)) with (length (b' :: bs)) by (unfold zlen; simpl; lia).
  apply list_fmap_ext. intros i x _. unfold compose. f_equal. lia.
Qed.

(** The read command of a flash in any state. *)
Lemma nor_read_any h a bs s : nor_served h s -> 0 <= a < NOR_FLASH_SIZE -> a + zlen bs <= NOR_FLASH_SIZE ->
  zdrop 4 (nor_session h (NOR_READ_DATA_CMD :: nor_addr a ++ bs) s).1 = phys_read (nor_content h s) a (zlen bs).
Proof.
  intros Hs Ha Hl. unfold nor_session.
  change (ipod_touch_nor_spi_set_cs adler32 h false s) with (nor_reset_transaction s).
  unfold nor_addr. cbn [app nor_xfer].
  destruct (nor_reading_start h s Hs) as (u0 & -> & R0).
  destruct (nor_reading_addr h _ 0 0 (a / 65536) u0 R0) as (u1 & -> & R1); [lia|].
  destruct (nor_reading_addr h _ _ _ (a / 256 mod 256) u1 R1) as (u2 & -> & R2); [lia|].
  destruct (nor_reading_addr h _ _ _ (a mod 256) u2 R2) as (u3 & -> & R3); [lia|].
  rewrite addr_value in R3 by done. pose proof (nor_xfer_read h _ bs a u3 R3 ltac:(lia) Hl) as E.
  destruct (nor_xfer h bs u3) as [rs u]. exact E.
Qed.

(** Ready for commands: what the sequences below need of a state and keep. *)
Definition nor_ready (s : IPodTouchNORSPIState) : Prop :=
  nor_wf s /\ nor_initialized s = true /\ restore_pending s = false /\ nor_size s = NOR_FLASH_SIZE /\
  Z.land (status s) NOR_STATUS_SWP = 0.

Lemma nor_modify_ok h n s : nor_wf s -> nor_initialized s = true -> restore_pending s = false -> nor_size s = NOR_FLASH_SIZE ->
  nh_pwrite h = 0 -> nor_length (cur_cmd s) = Some n ->
  let s' := nor_modify adler32 h n s in
  nr_blk s' = nor_pwrite (nor_start s n) n (nor_data s') <$> nr_blk s /\ nor_initialized s' = true /\
  restore_pending s' = false /\ nor_size s' = NOR_FLASH_SIZE /\ status s' = Z.ldiff (status s) NOR_STATUS_EPE.
Proof.
  intros W Hi Hr Hz Hw Hn. cbv zeta. unfold nor_modify. cbv zeta.
  assert (Hs : Z.ldiff (nor_read_ind s) (n - 1) = nor_start s n).
  { unfold nor_start. destruct (nor_length_pow _ _ Hn) as [->|[->|[->| ->]]]; apply ldiff_block; try lia; apply W. }
  change (nor_initialized (s <| status ::= _ |>)) with (nor_initialized s). rewrite Hi.
  change (nor_size (s <| status ::= _ |>)) with (nor_size s). rewrite Hz, Z.eqb_refl. cbn [negb].
  change (nor_read_ind (s <| status ::= _ |>)) with (nor_read_ind s). rewrite Hs. set (t := _ <| nor_data ::= _ |>).
  assert (Ht : nr_blk t = nr_blk s /\ restore_pending t = false /\ nor_initialized t = true /\ nor_size t = NOR_FLASH_SIZE /\
    status t = Z.ldiff (status s) NOR_STATUS_EPE) by done.
  clearbody t. destruct Ht as (<- & T2 & T3 & T4 & <-). unfold nor_persist. rewrite Hw, T2.
  destruct (nr_blk t) as [d|] eqn:Hb; cbn; [done|]. by rewrite Hb.
Qed.

Lemma nor_session_end h bs s :
  (nor_session h bs s).2 = nor_reset_transaction (nor_finish_transaction adler32 h (nor_xfer h bs (nor_reset_transaction s)).2).
Proof.
  unfold nor_session. change (ipod_touch_nor_spi_set_cs adler32 h false s) with (nor_reset_transaction s).
  by destruct (nor_xfer h bs (nor_reset_transaction s)).
Qed.

(** What the end of a transaction leaves of a state. *)
Lemma nor_ready_end s : nor_wf (nor_reset_transaction s) -> nor_initialized s = true -> restore_pending s = false ->
  nor_size s = NOR_FLASH_SIZE -> Z.land (status s) NOR_STATUS_SWP = 0 -> nor_ready (nor_reset_transaction s).
Proof. intros. split; [done|]. split; [done|]. split; [done|]. by split. Qed.

Lemma nor_session_wren h s : nor_ready s ->
  let s' := (nor_session h [NOR_ENABLE_WRITE] s).2 in
  nor_ready s' /\ write_enabled s' = 1 /\ nor_data s' = nor_data s /\ nr_blk s' = nr_blk s.
Proof.
  intros (W & Hi & Hr & Hz & Hp). cbv zeta. pose proof (nor_session_wf h [NOR_ENABLE_WRITE] s W) as W1.
  rewrite nor_session_end in *. set (u := (nor_xfer h [NOR_ENABLE_WRITE] (nor_reset_transaction s)).2) in *.
  assert (Eu : u = nor_command_byte NOR_ENABLE_WRITE (nor_reset_transaction s)).
  { unfold u. cbn [nor_xfer]. rewrite nor_transfer_ready by done. reflexivity. }
  assert (Ef : nor_finish_transaction adler32 h u = u <| write_enabled := 1 |>) by (rewrite Eu; reflexivity).
  rewrite Ef in *. clear Ef. split; [apply nor_ready_end; [exact W1|..]; rewrite Eu; (exact Hi || exact Hr || exact Hz || exact Hp)|].
  rewrite Eu. repeat split.
Qed.

(** What the page buffer or the block becomes. *)
Definition nor_effect (c n a : Z) (data : bytes) : flash -> flash :=
  if c =? NOR_WRITE_DATA_CMD then nor_program (a - a mod n) (blit (replicate 256 0xff) (Z.to_nat (a mod 256)) data)
  else nor_erase (a - a mod n) n.

Lemma nor_data_xfer h c n a data s : nor_ready s -> nor_length c = Some n -> 0 <= a < NOR_FLASH_SIZE -> is_bytes data ->
  (if c =? NOR_WRITE_DATA_CMD then data <> [] /\ a mod 256 + zlen data <= 256 else data = []) ->
  let u := (nor_xfer h (c :: nor_addr a ++ data) (nor_reset_transaction s)).2 in
  nor_kept u = (c, true, status s, restore_pending s, nr_blk s, nor_data s, nor_initialized s, nor_size s, write_enabled s) /\
  address_bytes u = 3 /\ nor_read_ind u = a /\ nor_target u n (nor_data s) = nor_effect c n a data (nor_data s) /\
  (c =? NOR_WRITE_DATA_CMD) && (data_count u =? 0) = false.
Proof.
  intros (W & Hi & Hr & Hz & Hp) Hn Ha Hb Hd. cbv zeta. destruct (nor_length_addressed c n Hn) as [Hc _].
  pose proof (Z.mod_pos_bound a 256 ltac:(lia)). rewrite app_comm_cons, nor_xfer_app, nor_xfer_addr by done.
  set (t := nor_addressed_at c a s). cbv beta iota.
  assert (Ht : nor_kept t = (c, true, status s, restore_pending s, nr_blk s, nor_data s, nor_initialized s, nor_size s, write_enabled s) /\
    address_bytes t = 3 /\ nor_read_ind t = a /\ page_offset t = a mod 256 /\ data_count t = 0 /\
    (c = NOR_WRITE_DATA_CMD -> page t = replicate 256 0xff)).
  { unfold t, nor_addressed_at, nor_command_byte. cbv zeta. destruct (Z.eqb_spec c NOR_WRITE_DATA_CMD); done. }
  clearbody t. destruct Ht as (T1 & T2 & T3 & T4 & T5 & T6).
  pose proof T1 as K. unfold nor_kept in K. injection K as K1 K2 K3 K4 K5 K6 K7 K8 K9.
  unfold nor_target, nor_effect, nor_start. destruct (Z.eqb_spec c NOR_WRITE_DATA_CMD) as [->|Hne].
  - destruct Hd as [Hd1 Hd2].
    destruct (nor_xfer_page h data t) as (F1 & F2 & F3 & F4 & F5 & F6); [congruence|done|done|done|lia|lia|done|].
    destruct (nor_xfer h data t) as [rs u]. cbn [snd] in *. rewrite F1. split; [done|].
    assert (cur_cmd u = NOR_WRITE_DATA_CMD) as -> by (unfold nor_kept in F1; congruence).
    rewrite F2, F3, F4, T3, T4, T6 by done. split; [done|]. split; [done|]. split; [done|].
    apply Z.eqb_neq. specialize (F6 Hd1). lia.
  - subst data. cbn. rewrite K1, T3, (proj2 (Z.eqb_neq _ _) Hne). done.
Qed.

Lemma nor_session_modify h c n a data s : nor_ready s -> write_enabled s = 1 -> nh_pwrite h = 0 ->
  nor_length c = Some n -> 0 <= a < NOR_FLASH_SIZE -> is_bytes data ->
  (if c =? NOR_WRITE_DATA_CMD then data <> [] /\ a mod 256 + zlen data <= 256 else data = []) ->
  let s' := (nor_session h (c :: nor_addr a ++ data) s).2 in
  nor_ready s' /\ nor_data s' = nor_effect c n a data (nor_data s) /\
  nr_blk s' = nor_pwrite (a - a mod n) n (nor_data s') <$> nr_blk s.
Proof.
  intros R He Hw Hn Ha Hb Hd. cbv zeta. pose proof (nor_session_wf h (c :: nor_addr a ++ data) s (proj1 R)) as W'.
  destruct (nor_data_xfer h c n a data s R Hn Ha Hb Hd) as (K & U1 & U2 & U3 & U4).
  pose proof (nor_xfer_wf h (c :: nor_addr a ++ data) (nor_reset_transaction s) (nor_wf_idle s (proj1 R))) as Wu.
  destruct R as (W & Hi & Hr & Hz & Hp). rewrite nor_session_end in *.
  generalize dependent (nor_xfer h (c :: nor_addr a ++ data) (nor_reset_transaction s)).2.
  intros u W' K U1 U2 U3 U4 Wu.
  unfold nor_kept in K. injection K as K1 K2 K3 K4 K5 K6 K7 K8 K9.
  assert (Hf : nor_finish_transaction adler32 h u = nor_modify adler32 h n (u <| write_enabled := 0 |>)).
  { unfold nor_finish_transaction. rewrite K2, K9, He, K1, Hn. change (1 =? 0) with false. cbn [negb].
    destruct (Z.eqb_spec c NOR_ENABLE_WRITE) as [->|_]; [discriminate|].
    destruct (Z.eqb_spec c NOR_DISABLE_WRITE) as [->|_]; [discriminate|].
    destruct (Z.eqb_spec c NOR_WRITE_TO_STATUS_REG) as [->|_]; [discriminate|]. cbv zeta.
    cbn [address_bytes cur_cmd data_count status upd upd_write_enabled]. rewrite U1, K1, U4, K3, Hp. done. }
  rewrite Hf in *. clear Hf.
  set (v := u <| write_enabled := 0 |>) in *.
  assert (Wv : nor_wf v) by (apply nor_wf_enabled; tauto).
  destruct (nor_modify_ok h n v) as (M1 & M2 & M3 & M4 & M5); [done|cbn; congruence|cbn; congruence|cbn; congruence|done|cbn; congruence|].
  assert (D : nor_data (nor_modify adler32 h n v) = nor_effect c n a data (nor_data s)).
  { rewrite nor_modify_data; [|done|cbn; congruence|cbn; congruence]. cbn [nor_size v upd upd_write_enabled]. unfold v. cbn.
    rewrite K8, Hz, Z.eqb_refl, K6. exact U3. }
  assert (Hst : nor_start v n = a - a mod n) by (unfold nor_start, v; cbn; by rewrite U2).
  rewrite Hst in M1. replace (nr_blk v) with (nr_blk s) in M1 by (symmetry; exact K5).
  split; [|split; [exact D|exact M1]]. apply nor_ready_end; [done|done|done|done|].
  rewrite M5. unfold v. cbn [status upd upd_write_enabled]. rewrite K3. by apply land_ldiff_0.
Qed.

(** The byte at [x] of a page that was blank but for [data] at [o]. *)
Lemma page_byte data o x : (Z.of_nat o + zlen data <= 256) -> 0 <= x < 256 -> is_bytes data ->
  rd (blit (replicate 256 0xff) o data) x =
  if (Z.of_nat o <=? x) && (x <? Z.of_nat o + zlen data) then rd data (x - Z.of_nat o) else 0xff.
Proof.
  intros Ho Hx Hb. unfold zlen in *. rewrite blit_splice by (rewrite length_replicate; lia). unfold rd.
  destruct (Z.leb_spec (Z.of_nat o) x); cbn [andb].
  - rewrite lookup_app_r by (rewrite length_take, length_replicate; lia). rewrite length_take, length_replicate.
    destruct (Z.ltb_spec x (Z.of_nat o + Z.of_nat (length data))).
    + rewrite lookup_app_l by lia. f_equal. f_equal. lia.
    + rewrite lookup_app_r by lia. rewrite lookup_drop, lookup_replicate_2 by lia. done.
  - rewrite lookup_app_l by (rewrite length_take, length_replicate; lia). rewrite lookup_take_lt by lia.
    rewrite lookup_replicate_2 by lia. done.
Qed.

Lemma land_ff b : is_byte b -> Z.land 0xff b = b.
Proof. intros H. rewrite Z.land_comm. change 0xff with (Z.ones 8). rewrite Z.land_ones by lia. by apply Z.mod_small. Qed.

Lemma page_in_block a : a - a mod 4096 <= a - a mod 256 /\ a - a mod 256 + 256 <= a - a mod 4096 + 4096.
Proof.
  change 4096 with (256 * 16). rewrite Z.rem_mul_r by lia.
  pose proof (Z.mod_pos_bound (a / 256) 16 ltac:(lia)). pose proof (Z.mod_pos_bound a 256 ltac:(lia)). lia.
Qed.

(** The array after erasing the block of [a] and programming [data] there. *)
Definition nor_programmed (a : Z) (data : bytes) (f : flash) : flash := fun x =>
  if (a - a mod 4096 <=? x) && (x <? a - a mod 4096 + 4096) then
    if (a <=? x) && (x <? a + zlen data) then rd data (x - a) else 0xff
  else f x.

Lemma nor_effects a data f x : 0 <= a -> is_bytes data -> a mod 256 + zlen data <= 256 ->
  nor_effect NOR_WRITE_DATA_CMD 256 a data (nor_effect NOR_ERASE_BLOCK 4096 a [] f) x = nor_programmed a data f x.
Proof.
  intros Ha Hb Hl. unfold nor_effect, nor_programmed, nor_program, nor_erase.
  change (NOR_ERASE_BLOCK =? NOR_WRITE_DATA_CMD) with false. rewrite Z.eqb_refl. unfold NOR_PAGE_SIZE.
  pose proof (page_in_block a) as [P1 P2]. pose proof (Z.mod_pos_bound a 256 ltac:(lia)). pose proof (zlen_nonneg data).
  destruct ((a - a mod 256 <=? x) && (x <? a - a mod 256 + 256)) eqn:Hp.
  - bool_hyps. rewrite (proj2 (Z.leb_le _ x)), (proj2 (Z.ltb_lt x _)) by lia. cbn [andb].
    rewrite page_byte by (done || lia). rewrite Z2Nat.id by lia.
    replace (x - (a - a mod 256) - a mod 256) with (x - a) by lia.
    replace ((a mod 256 <=? x - (a - a mod 256)) && (x - (a - a mod 256) <? a mod 256 + zlen data))
      with ((a <=? x) && (x <? a + zlen data)).
    + destruct (_ && _); [by apply land_ff, rd_is_byte|done].
    + f_equal; apply Bool.eq_iff_eq_true; rewrite ?Z.leb_le, ?Z.ltb_lt; lia.
  - destruct ((a - a mod 4096 <=? x) && (x <? a - a mod 4096 + 4096)); [|done]. replace ((a <=? x) && (x <? a + zlen data)) with false; [done|].
    symmetry. apply andb_false_iff in Hp. apply andb_false_iff. rewrite !Z.leb_gt, !Z.ltb_ge in *. lia.
Qed.

Lemma phys_read_programmed a data f : 0 <= a -> is_bytes data -> a mod 256 + zlen data <= 256 ->
  phys_read (nor_programmed a data f) a (zlen data) = data.
Proof.
  intros Ha Hb Hl. pose proof (page_in_block a) as [P1 P2]. pose proof (Z.mod_pos_bound a 256 ltac:(lia)).
  pose proof (Z.mod_pos_bound a 4096 ltac:(lia)). unfold phys_read, zlen. rewrite Nat2Z.id. apply list_eq. intros i.
  destruct (decide (i < length data)%nat) as [Hi|Hi].
  - rewrite list_lookup_fmap, lookup_seq_lt by done. cbn. unfold nor_programmed, zlen in *.
    repeat rewrite (proj2 (Z.leb_le _ _)) by lia. repeat rewrite (proj2 (Z.ltb_lt _ _)) by lia. cbn [andb].
    replace (a + Z.of_nat i - a) with (Z.of_nat i) by lia. unfold rd. rewrite Nat2Z.id.
    by destruct (lookup_lt_is_Some_2 data i Hi) as [v ->].
  - rewrite !lookup_ge_None_2 by (rewrite ?length_fmap, ?length_seq; lia). done.
Qed.

Lemma nor_session_read h a bs s : nor_ready s -> 0 <= a -> a + zlen bs <= NOR_FLASH_SIZE -> a < NOR_FLASH_SIZE ->
  zdrop 4 (nor_session h (NOR_READ_DATA_CMD :: nor_addr a ++ bs) s).1 = phys_read (nor_data s) a (zlen bs).
Proof.
  intros (W & Hi & Hr & Hz & Hp) Ha Hl Hlt. rewrite nor_read_any by (done || congruence). unfold nor_content. by rewrite Hi.
Qed.

(** C17. Erase, program and read compose: with a full image read in and no loaded
    snapshot left to write back, the sectors unprotected and host writes that
    succeed, erasing the 4 KiB block of an address and programming
    bytes there (not past the end of the page) makes a read of that address
    return exactly those bytes; the rest of the block reads 0xff, every byte
    outside it is untouched, and a writable copy on the host receives the block
    and nothing else. *)
Theorem nor_roundtrip h a data s : nor_ready s -> nh_pwrite h = 0 -> 0 <= a < NOR_FLASH_SIZE ->
  is_bytes data -> data <> [] -> a mod 256 + zlen data <= 256 ->
  let wren s := (nor_session h [NOR_ENABLE_WRITE] s).2 in
  let s1 := (nor_session h (NOR_ERASE_BLOCK :: nor_addr a) (wren s)).2 in
  let s2 := (nor_session h (NOR_WRITE_DATA_CMD :: nor_addr a ++ data) (wren s1)).2 in
  zdrop 4 (nor_session h (NOR_READ_DATA_CMD :: nor_addr a ++ replicate (length data) 0) s2).1 = data /\
  (forall x, nor_data s2 x = nor_programmed a data (nor_data s) x) /\
  (forall d, nr_blk s = Some d -> exists d2, nr_blk s2 = Some d2 /\
     forall x, d2 x = if (a - a mod 4096 <=? x) && (x <? a - a mod 4096 + 4096) then nor_data s2 x else d x).
Proof.
  intros R Hw Ha Hb Hne Hl. cbv zeta. destruct (nor_session_wren h s R) as (R0 & E0 & <- & <-).
  set (s0 := (nor_session h [NOR_ENABLE_WRITE] s).2) in *. clearbody s0. clear s R.
  pose proof (nor_session_modify h NOR_ERASE_BLOCK 4096 a [] s0 R0 E0 Hw eq_refl Ha (Forall_nil_2 _) eq_refl) as (R1 & D1 & B1).
  rewrite app_nil_r in *. set (s1 := (nor_session h (NOR_ERASE_BLOCK :: nor_addr a) s0).2) in *. clearbody s1.
  destruct (nor_session_wren h s1 R1) as (R2 & E2 & D2 & B2).
  set (s2 := (nor_session h [NOR_ENABLE_WRITE] s1).2) in *. clearbody s2.
  pose proof (nor_session_modify h NOR_WRITE_DATA_CMD 256 a data s2 R2 E2 Hw eq_refl Ha Hb (conj Hne Hl)) as (R3 & D3 & B3).
  set (s3 := (nor_session h _ s2).2) in *. clearbody s3. rewrite D2, D1 in D3. rewrite B2, B1 in B3.
  assert (D : forall x, nor_data s3 x = nor_programmed a data (nor_data s0) x)
    by (intros x; rewrite D3; apply nor_effects; (done || lia)).
  assert (Hfit : a + zlen data <= NOR_FLASH_SIZE).
  { unfold NOR_FLASH_SIZE in *. pose proof (Z.div_mod a 256 ltac:(lia)).
    assert (a / 256 < 4096) by (apply Z.div_lt_upper_bound; lia). lia. }
  split; [|split; [exact D|]].
  - rewrite nor_session_read by (done || unfold zlen in *; rewrite ?length_replicate; lia).
    transitivity (phys_read (nor_programmed a data (nor_data s0)) a (zlen data)); [|apply phys_read_programmed; (done || lia)].
    unfold zlen. rewrite length_replicate. unfold phys_read. apply list_fmap_ext. intros i x _. apply D.
  - intros d Ed. rewrite Ed in B3. cbn in B3. eexists. split; [exact B3|]. intros x. unfold nor_pwrite.
    pose proof (page_in_block a) as [P1 P2]. rewrite D, D1. unfold nor_programmed, nor_effect, nor_erase.
    change (NOR_ERASE_BLOCK =? NOR_WRITE_DATA_CMD) with false. cbv iota.
    destruct ((a - a mod 256 <=? x) && (x <? a - a mod 256 + 256)) eqn:Hp.
    + bool_hyps. rewrite (proj2 (Z.leb_le _ x)), (proj2 (Z.ltb_lt x _)) by lia. done.
    + destruct ((a - a mod 4096 <=? x) && _) eqn:Hk; [|done]. replace ((a <=? x) && (x <? a + zlen data)) with false; [done|].
      symmetry. apply andb_false_iff in Hp. apply andb_false_iff. rewrite !Z.leb_gt, !Z.ltb_ge in *.
      pose proof (Z.mod_pos_bound a 256 ltac:(lia)). lia.
Qed.
End Facts.

(** ** An example *)

(** A host whose writes succeed, and an unprotected blank flash with a copy. *)
Definition ex_host : NorHost := mkNorHost true None 0 (fun _ => 0).

Definition ex_nor (cmd addr enabled : Z) : IPodTouchNORSPIState :=
  mkNor false (Some (fun _ => 0xff)) false None cmd (fun _ => 0xff) NOR_FLASH_SIZE enabled addr 3 0 0 0 1
    (replicate 256 0xa5) true true false.

Lemma ex_nor_wf cmd addr enabled : is_byte cmd -> 0 <= addr < NOR_FLASH_SIZE -> enabled = 0 \/ enabled = 1 ->
  nor_wf (ex_nor cmd addr enabled).
Proof.
  intros Hc Ha He. constructor; cbn [ex_nor status nor_read_ind cur_cmd address_bytes data_count stream_offset write_enabled
    nor_size page page_offset command_active]; try done; unfold NOR_PAGE_SIZE, is_byte; try lia; try (by apply status_okb_spec); by right.
Qed.

Definition ex_adler (start : Z) (l : bytes) : Z := u32 start.

Lemma nor_change_guarded_witness :
  let s := ex_nor NOR_WRITE_DATA_CMD 0x1234 1 in
  let ev := EvCs ex_host true in
  exists h n, ev = EvCs h true /\ nor_length (cur_cmd s) = Some n /\ command_active s = true /\
    write_enabled s = 1 /\ address_bytes s = 3 /\ Z.land (status s) NOR_STATUS_SWP = 0 /\
    write_enabled (nor_step ex_adler s ev) = 0 /\
    nor_start s n <= 0x1200 < nor_start s n + n /\
    nor_data (nor_step ex_adler s ev) 0x1200 =
      (if cur_cmd s =? NOR_WRITE_DATA_CMD then Z.land (nor_data s 0x1200) (rd (page s) (0x1200 - nor_start s n)) else 0xff).
Proof.
  refine (nor_change_guarded ex_adler (ex_nor NOR_WRITE_DATA_CMD 0x1234 1) (EvCs ex_host true) 0x1200 _ _ _).
  - apply ex_nor_wf; [by vm_compute|by vm_compute|by right].
  - reflexivity.
  - vm_compute. discriminate.
Defined.

Lemma nor_protected_witness :
  let s := ex_nor NOR_READ_DATA_CMD 0 0 in
  let xs := [([(ex_host, NOR_ENABLE_WRITE)], ex_host);
             ([(ex_host, NOR_ERASE_64K); (ex_host, 0); (ex_host, 0); (ex_host, 0)], ex_host)] in
  let s' := nor_run ex_adler (EvReset :: nor_xacts xs) s in
  nor_data s' = nor_data s /\ nr_blk s' = nr_blk s /\ Z.land (status s') NOR_STATUS_SWP <> 0.
Proof.
  refine (nor_protected ex_adler _ (ex_nor NOR_READ_DATA_CMD 0 0) _ _ _); [reflexivity|reflexivity|].
  repeat constructor; vm_compute; discriminate.
Defined.

Lemma nor_roundtrip_witness :
  let s := ex_nor 0 0 0 in
  let a := 0x54321 in
  let data := [1; 2; 3] in
  let wren s := (nor_session ex_adler ex_host [NOR_ENABLE_WRITE] s).2 in
  let s1 := (nor_session ex_adler ex_host (NOR_ERASE_BLOCK :: nor_addr a) (wren s)).2 in
  let s2 := (nor_session ex_adler ex_host (NOR_WRITE_DATA_CMD :: nor_addr a ++ data) (wren s1)).2 in
  zdrop 4 (nor_session ex_adler ex_host (NOR_READ_DATA_CMD :: nor_addr a ++ replicate (length data) 0) s2).1 = data /\
  (forall x, nor_data s2 x = nor_programmed a data (nor_data s) x) /\
  (forall d, nr_blk s = Some d -> exists d2, nr_blk s2 = Some d2 /\
     forall x, d2 x = if (a - a mod 4096 <=? x) && (x <? a - a mod 4096 + 4096) then nor_data s2 x else d x).
Proof.
  refine (nor_roundtrip ex_adler ex_host 0x54321 [1; 2; 3] (ex_nor 0 0 0) _ _ _ _ _ _).
  - split; [apply ex_nor_wf; [by vm_compute|by vm_compute|by left]|]. repeat split.
  - reflexivity.
  - by vm_compute.
  - repeat constructor; vm_compute; discriminate.
  - discriminate.
  - vm_compute. discriminate.
Defined.
