(* ===== verification/SpiNor.v ===== *)
(** * Reading the boot flash through the SPI controller

    The controller of [Spi] with the flash of [Nor] on its bus, as the machines
    with a boot flash wire them: the chip select is a line of its own. *)

From Stdlib Require Import ZArith Lia.
From stdpp Require Import base numbers list.
From S2P Require Import Prelude CLib HwLib Fifo8 Spi SpiFacts Nor NorFacts.
Local Open Scope Z_scope.

(** [ipod_touch_nor_spi_class_init]; [h] is what the host answers. *)
Definition nor_ssi (adler32 : Z -> bytes -> Z) (h : NorHost) : SsiClass IPodTouchNORSPIState :=
  {| cs_polarity := SSI_CS_LOW;
     ssc_transfer := ipod_touch_nor_spi_transfer adler32 h;
     ssc_set_cs := ipod_touch_nor_spi_set_cs adler32 h |}.

Section SpiNor.
Variable adler32 : Z -> bytes -> Z.
Variable h : NorHost.

#[local] Hint Extern 0 (SsiClass IPodTouchNORSPIState) => exact (nor_ssi adler32 h) : typeclass_instances.

(** The chip select of everything on the bus. *)
Definition select (level : bool) (s : IPodTouchSPIState IPodTouchNORSPIState) : IPodTouchSPIState IPodTouchNORSPIState :=
  s <| sp_bus ::= fmap (ssi_cs_default level) |>.

(** A selected flash sees the bytes of the bus. *)
Lemma bus_nor bs d : bus_xfer bs [mkSsi false d] =
  (let '(rs, d') := nor_xfer adler32 h bs d in (u8 <$> rs, [mkSsi false d'])).
Proof.
  revert d. induction bs as [|b bs IH]; intros d; cbn [bus_xfer nor_xfer ssi_transfer]; [done|].
  unfold ssi_transfer_raw_default. cbn [cs_polarity nor_ssi ssi_cs ssi_dev negb ssc_transfer].
  destruct (ipod_touch_nor_spi_transfer adler32 h b d) as [r d1]. cbn. rewrite IH, Z.lor_0_r. by destruct (nor_xfer adler32 h bs d1).
Qed.

Lemma wf_select l s : spi_wf s -> spi_wf (select l s).
Proof. intros []. by split. Qed.

Lemma nor_xfer_len bs d : zlen (nor_xfer adler32 h bs d).1 = zlen bs.
Proof.
  revert d. induction bs as [|b bs IH]; intros d; cbn [nor_xfer]; [done|].
  destruct (ipod_touch_nor_spi_transfer adler32 h b d) as [r d1]. specialize (IH d1). destruct (nor_xfer adler32 h bs d1).
  cbn [fst] in *. by rewrite !zlen_cons, IH.
Qed.

Lemma u8_phys_read f a n : (forall x, is_byte (f x)) -> u8 <$> phys_read f a n = phys_read f a n.
Proof.
  intros Hf. unfold phys_read. rewrite <- list_fmap_compose. apply list_fmap_ext. intros i x _. by apply u8_id.
Qed.

(** The command that reads at an address. *)
Definition nor_read_at (a : Z) : bytes := NOR_READ_DATA_CMD :: nor_addr a.

Lemma nor_read_at_bytes a : 0 <= a < NOR_FLASH_SIZE -> is_bytes (nor_read_at a).
Proof.
  intros Ha. unfold NOR_FLASH_SIZE in Ha. repeat constructor; try done; Z.div_mod_to_equations; lia.
Qed.

(** C30. Reading the flash through the controller: on a controller with a transmit
    FIFO of at least four places and the flash alone on its bus, set up for words
    of one byte and for sending by itself while a receive count runs (AGD), the
    driver's read command for [n] bytes at an address, between the two edges of the
    chip select, returns the flash's content there, for any number of bytes inside
    the flash and whatever the controller and the flash did before.  The flash may
    be protected, as a reset leaves it, and need not have been read in: its content
    is then the writable copy or the image file, with the boot arguments put in, or
    blank when neither can be read.  Only a loaded snapshot that is still to be
    written back needs a host write that succeeds.  The flash is left as by a read
    transaction of its own, and completion is signalled. *)
Theorem spi_nor_read cfg a n d s : spi_wf s -> sp_bus s = [mkSsi true d] -> 4 <= ff_capacity (sp_tx s) ->
  is_u32 cfg -> flagged cfg R_CFG_AGD = true -> R_CFG_WORD_SIZE cfg = 0 ->
  nor_served h d -> (forall x, is_byte (nor_content adler32 h d x)) -> 0 <= a < NOR_FLASH_SIZE -> 0 <= n -> a + n <= NOR_FLASH_SIZE ->
  exists s', spi_command cfg (nor_read_at a) n (select false s) = Some (phys_read (nor_content adler32 h d) a n, s') /\
    sp_bus (select true s') = [mkSsi true (nor_session adler32 h (nor_read_at a ++ replicate (Z.to_nat n) 0xff) d).2] /\
    flagged (sp_reg s' R_STATUS) R_STATUS_COMPLETE = true /\
    (flagged cfg R_CFG_IE_COMPLETE = true -> sp_irq s' = 1).
Proof.
  intros W Hb Ht Hu Ha Hw Hd Hf Haddr Hn Hl.
  pose proof (nor_read_any adler32 h a (replicate (Z.to_nat n) 0xff) d Hd) as Hr.
  assert (Ez : zlen (replicate (Z.to_nat n) 0xff) = n) by (unfold zlen; rewrite length_replicate; lia). rewrite Ez in Hr.
  specialize (Hr Haddr ltac:(lia)). change (NOR_READ_DATA_CMD :: nor_addr a ++ ?k) with (nor_read_at a ++ k) in Hr.
  pose proof (spi_command_ok cfg (nor_read_at a) n (select false s)) as C.
  assert (Hs : sp_bus (select false s) = [mkSsi false (ipod_touch_nor_spi_set_cs adler32 h false d)]).
  { change (sp_bus (select false s)) with (ssi_cs_default false <$> sp_bus s). by rewrite Hb. }
  rewrite Hs in C. specialize (C (wf_select false s W) Hu Ha Hw (nor_read_at_bytes a Haddr) ltac:(done) Ht ltac:(unfold is_u32, NOR_FLASH_SIZE in *; lia)).
  revert Hr C. unfold nor_session. rewrite nor_xfer_app, bus_nor.
  pose proof (nor_xfer_len (nor_read_at a) (ipod_touch_nor_spi_set_cs adler32 h false d)) as L1.
  destruct (nor_xfer adler32 h (nor_read_at a) _) as [r1 d1]. cbn [fst snd] in *. rewrite bus_nor.
  destruct (nor_xfer adler32 h (replicate _ _) d1) as [r2 d2]. cbn [fst snd].
  change 4 with (zlen (nor_read_at a)). rewrite <- L1, zdrop_app_len. intros -> (s' & E & B & F). exists s'.
  rewrite u8_phys_read in E by done. split; [done|]. split; [|done].
  change (sp_bus (select true s')) with (ssi_cs_default true <$> sp_bus s'). by rewrite B.
Qed.

End SpiNor.

(** A flash as a reset leaves it, protected and not read in, whose image file
    counts up. *)
Definition ex_file : NorHost := mkNorHost true (Some (NOR_FLASH_SIZE, fun x => x mod 256)) 0 (fun _ => 0).

Lemma spi_nor_read_witness :
  let d := nor_created true None None in
  let s := ipod_touch_spi_realize false (replicate 8 0) (replicate 16 0) 8 [mkSsi true d] in
  let cfg := Z.lor R_CFG_AGD R_CFG_IE_COMPLETE in
  nor_initialized d = false /\ status d = NOR_STATUS_SWP /\
  exists s', @spi_command _ (nor_ssi ex_adler ex_file) cfg (nor_read_at 0x1ff0) 100 (select ex_adler ex_file false s) =
      Some (phys_read (fun x => x mod 256) 0x1ff0 100, s') /\
    sp_bus (select ex_adler ex_file true s') =
      [mkSsi true (nor_session ex_adler ex_file (nor_read_at 0x1ff0 ++ replicate (Z.to_nat 100) 0xff) d).2] /\
    flagged (sp_reg s' R_STATUS) R_STATUS_COMPLETE = true /\
    (flagged cfg R_CFG_IE_COMPLETE = true -> sp_irq s' = 1).
Proof.
  split; [reflexivity|]. split; [reflexivity|].
  refine (spi_nor_read ex_adler ex_file _ 0x1ff0 100 (nor_created true None None) _ _ _ _ _ _ _ _ _ _ _ _).
  - apply spi_realized; reflexivity || lia.
  - reflexivity.
  - vm_compute. discriminate.
  - vm_compute. split; [discriminate|reflexivity].
  - reflexivity.
  - reflexivity.
  - intros H. discriminate H.
  - intros x. apply (Z.mod_pos_bound x 256). lia.
  - vm_compute. split; [discriminate|reflexivity].
  - lia.
  - vm_compute. discriminate.
Defined.
