(* ===== verification/NorBootFacts.v ===== *)
(** * Boot arguments in the NVRAM banks

    What the firmware finds in a bank after [nor_set_boot_args]: the bank still
    verifies, its partitions are where they were, and the variables are the old
    ones with the new boot arguments. *)

From Stdlib Require Import ZArith Lia.
From stdpp Require Import base numbers list.
From S2P Require Import Prelude CLib HwLib Nor.
Local Open Scope Z_scope.

(** ** Variable lists *)

(** Strings with their terminators, and the empty string that ends them. *)
Definition nvram_encode (vs : list bytes) : bytes := concat ((fun v => v ++ [0]) <$> vs) ++ [0].

(** Reading such a list; [None] where it runs into the end. *)
Fixpoint nvram_list (fuel : nat) (rest : bytes) : option (list bytes) :=
  match fuel, rest with
  | O, _ | _, [] => None
  | S fuel, b :: _ =>
      if b =? 0 then Some []
      else
        let v := until_nul rest in
        if (length v =? length rest)%nat then None
        else cons v <$> nvram_list fuel (drop (S (length v)) rest)
  end.

Definition is_boot_args (v : bytes) : Prop := starts_with boot_args_key v = true.

#[global] Instance is_boot_args_dec v : Decision (is_boot_args v).
Proof. unfold is_boot_args. apply _. Defined.

(** The variables with the boot arguments replaced. *)
Definition set_boot_args (args : bytes) (vs : list bytes) : list bytes :=
  filter (fun v => ~ is_boot_args v) vs ++ [boot_args_key ++ args].

(** A string of the list and what follows it. *)
Lemma until_nul_split l : length (until_nul l) <> length l ->
  exists t, l = until_nul l ++ 0 :: t /\ drop (S (length (until_nul l))) l = t /\ take (S (length (until_nul l))) l = until_nul l ++ [0].
Proof.
  induction l as [|b l IH]; intros H; [done|]. cbn [until_nul] in *. destruct (Z.eqb_spec b 0) as [->|Hb]; [by exists l|].
  destruct IH as (t & E1 & E2 & E3); [cbn in H; lia|]. exists t. cbn [length app drop take]. rewrite <- E1.
  split; [done|]. split; [exact E2|]. f_equal. exact E3.
Qed.

Lemma keep_spec rest : length (until_nul rest) <> length rest ->
  (strnlen rest <? length boot_args_key)%nat || negb (bool_decide (take (length boot_args_key) rest = boot_args_key)) =
  negb (starts_with boot_args_key (until_nul rest)).
Proof.
  intros H. unfold strnlen. destruct (until_nul_split rest H) as (t & E & _). set (v := until_nul rest) in *. clearbody v. subst rest.
  destruct (Nat.ltb_spec (length v) (length boot_args_key)) as [Hl|Hl]; cbn [orb].
  - destruct (starts_with boot_args_key v) eqn:Hs; [|done]. apply starts_with_spec in Hs as [u ->].
    rewrite length_app in Hl. lia.
  - f_equal. rewrite take_app_le by lia. apply Bool.eq_iff_eq_true. rewrite bool_decide_eq_true, starts_with_spec. split.
    + intros E. exists (drop (length boot_args_key) v). by rewrite <- E at 1; rewrite take_drop.
    + intros [u ->]. by rewrite take_app_length.
Qed.

(** What is kept of a list of variables. *)
Definition kept_vars (vs : list bytes) : bytes := concat ((fun v => v ++ [0]) <$> filter (fun v => ~ is_boot_args v) vs).

Lemma nvram_vars_spec fuel rest acc :
  nvram_vars fuel rest acc = (fun vs => acc ++ kept_vars vs) <$> nvram_list fuel rest.
Proof.
  unfold kept_vars.
  revert rest acc. induction fuel as [|fuel IH]; intros rest acc; [done|]. cbn [nvram_vars nvram_list].
  destruct rest as [|b rest']; [done|]. destruct (Z.eqb_spec b 0); [cbn; by rewrite app_nil_r|].
  set (rest := b :: rest') in *. cbv zeta. unfold strnlen at 1. destruct (Nat.eqb_spec (length (until_nul rest)) (length rest)) as [|Hn]; [done|].
  rewrite IH, keep_spec by done. unfold strnlen. destruct (until_nul_split rest Hn) as (t & _ & -> & ->).
  destruct (nvram_list fuel t) as [vs|]; [|done]. apply (f_equal Some). cbn beta.
  destruct (starts_with boot_args_key (until_nul rest)) eqn:Hs; cbn [negb].
  - by rewrite filter_cons_False by (unfold is_boot_args; tauto).
  - rewrite filter_cons_True by (unfold is_boot_args; rewrite Hs; done). cbn [fmap list_fmap concat]. by rewrite <- !app_assoc.
Qed.

(** Encoded lists read back. *)
Lemma nvram_list_encode vs rest fuel : Forall (fun v => v <> [] /\ Forall (fun b => b <> 0) v) vs -> (length vs < fuel)%nat ->
  nvram_list fuel (nvram_encode vs ++ rest) = Some vs.
Proof.
  intros Hv. revert fuel. induction Hv as [|v vs [Hne Hz] Hv IH]; intros [|fuel] Hf; try (cbn in Hf; lia); [done|].
  unfold nvram_encode in *. cbn [fmap list_fmap concat]. rewrite <- !app_assoc. cbn [app].
  set (tl := concat _ ++ 0 :: rest).
  assert (E : until_nul (v ++ 0 :: tl) = v) by (by apply until_nul_stop).
  cbn [nvram_list]. destruct v as [|b v]; [done|]. cbn [app] in *. apply Forall_cons in Hz as [Hb Hz].
  rewrite (proj2 (Z.eqb_neq _ _) Hb), E. rewrite (proj2 (Nat.eqb_neq _ _)) by (cbn; rewrite length_app; cbn; lia).
  cbn [length drop].
  replace (drop (S (length v)) (v ++ 0 :: tl)) with tl.
  - unfold tl. specialize (IH fuel). rewrite <- app_assoc in IH. cbn [app] in IH. rewrite IH by (cbn in Hf; lia). done.
  - rewrite cons_middle, app_assoc. replace (S (length v)) with (length (v ++ [0])) by (rewrite length_app; cbn; lia).
    by rewrite drop_app_length.
Qed.

Lemma nvram_list_ok fuel rest vs : nvram_list fuel rest = Some vs ->
  Forall (fun v => v <> [] /\ Forall (fun b => b <> 0) v) vs.
Proof.
  revert rest vs. induction fuel as [|fuel IH]; intros [|b rest] vs E; try discriminate. cbn [nvram_list] in E.
  destruct (Z.eqb_spec b 0); [by injection E as <-|]. cbv zeta in E. destruct (_ =? _)%nat; [discriminate|].
  destruct (nvram_list fuel _) as [ws|] eqn:Ew; [|discriminate]. cbn in E. injection E as <-. constructor; [|by eapply IH].
  split; [cbn [until_nul]; by rewrite (proj2 (Z.eqb_neq _ _))|exact (until_nul_no_nul (b :: rest))].
Qed.

Lemma encode_length vs : Forall (fun v => v <> [] /\ Forall (fun b => b <> 0) v) vs -> (length vs < length (nvram_encode vs))%nat.
Proof.
  unfold nvram_encode. induction 1 as [|v vs _ _ IH]; [cbn; lia|]. cbn [fmap list_fmap concat].
  rewrite !length_app in *. cbn [length] in *. lia.
Qed.

Lemma set_boot_args_ok args vs : Forall (fun b => b <> 0) args ->
  Forall (fun v => v <> [] /\ Forall (fun b => b <> 0) v) vs ->
  Forall (fun v => v <> [] /\ Forall (fun b => b <> 0) v) (set_boot_args args vs).
Proof.
  intros Ha Hv. unfold set_boot_args. apply Forall_app. split.
  { apply Forall_forall. intros v [_ Hin]%list_elem_of_filter. rewrite Forall_forall in Hv. by apply Hv. }
  constructor; [|done]. split; [done|]. apply Forall_app. split; [|done]. repeat constructor; discriminate.
Qed.

(** ** Partitions *)

(** The common partition the firmware finds in a bank: position and size. *)
Fixpoint nvram_find (fuel : nat) (bank : bytes) (pos : Z) : option (Z * Z) :=
  match fuel with
  | O => None
  | S fuel =>
      if (pos + NVRAM_ATOM_HDR <=? NVRAM_BANK_SIZE) && negb (nvram_part_bad bank pos) then
        let total := ld_le16 (zdrop pos bank) 2 * 16 in
        if bool_decide (ztake 7 (zdrop 4 (zdrop pos bank)) = common_name) then Some (pos, total)
        else nvram_find fuel bank (pos + total)
      else None
  end.

(** The variables area of a partition. *)
Definition nvram_payload (bank : bytes) (pos total : Z) : bytes :=
  ztake (total - NVRAM_ATOM_HDR) (zdrop (pos + NVRAM_ATOM_HDR) bank).

(** The variables of a partition. *)
Definition nvram_read (bank : bytes) (pos total : Z) : option (list bytes) :=
  nvram_list (S (length (nvram_payload bank pos total))) (nvram_payload bank pos total).

Lemma nvram_find_ok fuel bank pos p t : 32 <= pos -> nvram_find fuel bank pos = Some (p, t) ->
  pos <= p /\ 16 <= t /\ p + t <= NVRAM_BANK_SIZE.
Proof.
  revert pos. induction fuel as [|fuel IH]; intros pos Hpos E; [done|]. cbn [nvram_find] in E.
  destruct (_ && _) eqn:Hg; [|discriminate]. bool_hyps.
  assert (16 <= ld_le16 (zdrop pos bank) 2 * 16 /\ ld_le16 (zdrop pos bank) 2 * 16 <= NVRAM_BANK_SIZE - pos).
  { match goal with H : nvram_part_bad _ _ = false |- _ => unfold nvram_part_bad in H end. bool_hyps. unfold NVRAM_ATOM_HDR in *. lia. }
  cbv zeta in E. destruct (bool_decide _); [injection E as <- <-; lia|]. apply IH in E; lia.
Qed.

Section Edit.
Variable adler32 : Z -> bytes -> Z.

Lemma nvram_walk_find fuel args bank pos :
  nvram_walk adler32 fuel args bank pos =
  match nvram_find fuel bank pos with Some (p, t) => nvram_common_edit adler32 args bank p t | None => bank end.
Proof.
  revert pos. induction fuel as [|fuel IH]; intros pos; [done|]. cbn [nvram_walk nvram_find].
  destruct (pos + NVRAM_ATOM_HDR <=? NVRAM_BANK_SIZE); [|done]. cbn [andb]. destruct (nvram_part_bad bank pos); [done|].
  cbn [negb]. cbv zeta. by destruct (bool_decide _).
Qed.

Lemma length_common_edit args bank p t : length (nvram_common_edit adler32 args bank p t) = length bank.
Proof.
  unfold nvram_common_edit. cbv zeta. destruct (nvram_vars _ _ _); [|done]. destruct (_ <? _); [done|].
  unfold st_le32. by rewrite !length_blit.
Qed.

Lemma length_bank_edit args bank : length (nvram_bank_edit adler32 args bank) = length bank.
Proof.
  unfold nvram_bank_edit. destruct (nvram_bank_ok _ _); [|done]. rewrite nvram_walk_find.
  destruct (nvram_find _ _ _) as [[p t]|]; [apply length_common_edit|done].
Qed.

(** An edit that fits: the bank around the payload and the sum is the old one. *)
Definition edited (bank : bytes) (p : Z) (payload : bytes) (sum : Z) : bytes :=
  st_le32 (blit bank (Z.to_nat (p + NVRAM_ATOM_HDR)) payload) 16 sum.

Lemma blit_twice (buf x y : bytes) off : (length y <= length x)%nat -> (off + length x <= length buf)%nat ->
  blit (blit buf off x) off y = blit buf off (y ++ drop (length y) x).
Proof.
  intros Hl Hb. rewrite (blit_splice buf x) by done. rewrite <- (take_drop (length y) x) at 1. rewrite <- app_assoc.
  replace off with (length (take off buf)) at 3 by (rewrite length_take; lia).
  rewrite blit_mid by (rewrite length_take; lia). rewrite blit_splice by (rewrite length_app, length_drop; lia).
  rewrite length_app, length_drop, <- app_assoc. do 4 f_equal. lia.
Qed.

Lemma common_edit_spec args bank p t vs : zlen bank = NVRAM_BANK_SIZE -> 32 <= p -> 16 <= t -> p + t <= NVRAM_BANK_SIZE ->
  nvram_read bank p t = Some vs -> zlen (nvram_encode (set_boot_args args vs)) <= t - NVRAM_ATOM_HDR ->
  exists pad sum, let b := blit bank (Z.to_nat (p + NVRAM_ATOM_HDR)) (nvram_encode (set_boot_args args vs) ++ pad) in
    zlen (nvram_encode (set_boot_args args vs) ++ pad) = t - NVRAM_ATOM_HDR /\ sum = adler32 1 (zdrop 20 b) /\
    nvram_common_edit adler32 args bank p t = st_le32 b 16 sum.
Proof.
  intros Hb Hp Ht Hpt Hv Hf. unfold nvram_common_edit. cbv zeta. fold (nvram_payload bank p t).
  rewrite nvram_vars_spec. unfold nvram_read in Hv. rewrite Hv. change (?f <$> Some vs) with (Some (f vs)). cbv beta iota.
  assert (E : ([] ++ kept_vars vs) ++ (boot_args_key ++ args) ++ [0] ++ [0] = nvram_encode (set_boot_args args vs)).
  { unfold nvram_encode, set_boot_args, kept_vars. rewrite fmap_app, concat_app. cbn [fmap list_fmap concat]. rewrite app_nil_r. by rewrite <- !app_assoc. }
  rewrite E. set (enc := nvram_encode _) in *. clearbody enc. rewrite (proj2 (Z.ltb_ge _ _) Hf).
  unfold zlen, NVRAM_ATOM_HDR, NVRAM_BANK_SIZE in *.
  rewrite blit_twice by (rewrite length_replicate; lia). rewrite drop_replicate.
  eexists _, _. split; [|split; reflexivity]. rewrite length_app, length_replicate. lia.
Qed.

(** A header determines what is read from it. *)
Lemma hdr_ext h h' : ztake 16 h = ztake 16 h' ->
  rd h 0 = rd h' 0 /\ rd h 1 = rd h' 1 /\ ld_le16 h 2 = ld_le16 h' 2 /\ nvram_checksum h = nvram_checksum h' /\
  ztake 7 (zdrop 4 h) = ztake 7 (zdrop 4 h') /\ ztake 6 (zdrop 4 h) = ztake 6 (zdrop 4 h').
Proof.
  intros E.
  assert (R : forall i, 0 <= i < 16 -> rd h i = rd h' i).
  { intros i Hi. unfold rd, ztake in *. rewrite <- (lookup_take_lt h 16), <- (lookup_take_lt h' 16) by lia.
    change 16%nat with (Z.to_nat 16). by rewrite E. }
  assert (T : forall n, 0 <= n <= 12 -> ztake n (zdrop 4 h) = ztake n (zdrop 4 h')).
  { intros n Hn. unfold ztake, zdrop in *. rewrite !take_drop_commute.
    replace (take (Z.to_nat 4 + Z.to_nat n) h) with (take (Z.to_nat 4 + Z.to_nat n) (take (Z.to_nat 16) h)) by (rewrite take_take; f_equal; lia).
    rewrite E, take_take. do 2 f_equal. lia. }
  unfold ld_le16, nvram_checksum. change NVRAM_ATOM_HDR with 16. rewrite E, !R by lia. repeat split; apply T; lia.
Qed.

Lemma nvram_find_ext fuel bank bank' pos p t : 32 <= pos -> nvram_find fuel bank pos = Some (p, t) ->
  (forall q, 32 <= q <= p -> ztake 16 (zdrop q bank') = ztake 16 (zdrop q bank)) ->
  nvram_find fuel bank' pos = Some (p, t).
Proof.
  revert pos. induction fuel as [|fuel IH]; intros pos Hpos E Hq; [done|].
  destruct (nvram_find_ok (S fuel) bank pos p t Hpos E) as (H1 & _). cbn [nvram_find] in *.
  destruct (hdr_ext _ _ (Hq pos ltac:(lia))) as (E0 & E1 & E2 & E3 & E4 & _).
  assert (Eb : nvram_part_bad bank' pos = nvram_part_bad bank pos) by (unfold nvram_part_bad; by rewrite E0, E1, E2, E3).
  rewrite Eb, E2, E4. destruct (_ && _) eqn:Hg; [|done]. cbv zeta in *. bool_hyps.
  match goal with H : nvram_part_bad bank pos = false |- _ => unfold nvram_part_bad, NVRAM_ATOM_HDR in H end. bool_hyps.
  destruct (bool_decide _); [done|]. apply IH; [lia|done|done].
Qed.

(** The bytes around the two places an edit writes to. *)
Lemma edited_slice bank p payload sum k n : 32 <= p -> (k + n <= 16 \/ 20 <= k)%nat ->
  (k + n <= Z.to_nat (p + 16) \/ Z.to_nat (p + 16) + length payload <= k)%nat ->
  take n (drop k (edited bank p payload sum)) = take n (drop k bank).
Proof.
  intros Hp H1 H2. unfold edited, st_le32. rewrite slice_blit_out by (change (length (le32 sum)) with 4%nat; lia).
  by apply slice_blit_out.
Qed.

Lemma edited_ok bank p t payload : (forall l, is_u32 (adler32 1 l)) -> zlen bank = NVRAM_BANK_SIZE -> 32 <= p -> p + t <= NVRAM_BANK_SIZE ->
  zlen payload = t - NVRAM_ATOM_HDR ->
  let sum := adler32 1 (zdrop 20 (blit bank (Z.to_nat (p + NVRAM_ATOM_HDR)) payload)) in
  let bank' := edited bank p payload sum in
  nvram_payload bank' p t = payload /\ (nvram_bank_ok adler32 bank = true -> nvram_bank_ok adler32 bank' = true).
Proof.
  intros Ha Hb Hp Hpt Hl. cbv zeta. change NVRAM_ATOM_HDR with 16 in *. unfold zlen, NVRAM_BANK_SIZE in *. split.
  - unfold nvram_payload, edited, st_le32, ztake, zdrop. change NVRAM_ATOM_HDR with 16.
    replace (Z.to_nat (t - 16)) with (length payload) by lia. rewrite slice_blit_out by (cbn; lia). apply slice_blit_in. lia.
  - set (sum := adler32 1 _). set (bank' := edited bank p payload sum). unfold nvram_bank_ok.
    assert (E : ztake 16 bank' = ztake 16 bank).
    { unfold ztake. rewrite <- (drop_0 bank'), <- (drop_0 bank). apply edited_slice; lia. }
    destruct (hdr_ext _ _ E) as (E0 & E1 & E2 & E3 & _ & E5). rewrite E0, E1, E2, E3, E5. intros H.
    apply andb_prop in H as [-> _]. cbn [andb]. apply Z.eqb_eq. unfold ztake, zdrop in *.
    assert (Eb : drop (Z.to_nat 20) bank' = drop (Z.to_nat 20) (blit bank (Z.to_nat (p + 16)) payload)).
    { set (b := blit _ _ _). rewrite <- (firstn_all (drop (Z.to_nat 20) bank')), <- (firstn_all (drop (Z.to_nat 20) b)).
      unfold bank', edited, st_le32. change NVRAM_ATOM_HDR with 16. fold b. rewrite !length_drop, length_blit. apply slice_blit_out. cbn. lia. }
    rewrite Eb. change 16 with (Z.of_nat 16). apply ld_le32_slice; [apply Ha|].
    unfold bank', edited, st_le32. change 4%nat with (length (le32 sum)). change (Z.to_nat 16) with 16%nat. apply slice_blit_in.
    rewrite length_blit. cbn. lia.
Qed.

(** ** Banks of the array *)

(** Each bank is edited on its own. *)
Lemma boot_args_bank args norlen f k : 0 <= k < norlen / NVRAM_BANK_SIZE ->
  phys_read (nor_set_boot_args adler32 args norlen f) (k * NVRAM_BANK_SIZE) NVRAM_BANK_SIZE =
  nvram_bank_edit adler32 args (phys_read f (k * NVRAM_BANK_SIZE) NVRAM_BANK_SIZE).
Proof.
  intros Hk. unfold nor_set_boot_args.
  assert (Hlen : forall g a, zlen (nvram_bank_edit adler32 args (phys_read g a NVRAM_BANK_SIZE)) = NVRAM_BANK_SIZE).
  { intros g a. unfold zlen. rewrite length_bank_edit, length_phys_read. done. }
  assert (Ho : forall ks g, k ∉ ks -> phys_read (fold_left (fun f k => let off := k * NVRAM_BANK_SIZE in
      phys_write f off (nvram_bank_edit adler32 args (phys_read f off NVRAM_BANK_SIZE))) ks g) (k * NVRAM_BANK_SIZE) NVRAM_BANK_SIZE =
      phys_read g (k * NVRAM_BANK_SIZE) NVRAM_BANK_SIZE).
  { induction ks as [|j ks IH]; intros g Hks; [done|]. apply not_elem_of_cons in Hks as [Hj Hks]. cbn [fold_left]. rewrite IH by done. cbv zeta.
    apply phys_read_other. rewrite Hlen. unfold NVRAM_BANK_SIZE. lia. }
  assert (Hin : k ∈ seqZ 0 (norlen / NVRAM_BANK_SIZE)) by (apply elem_of_seqZ; lia).
  pose proof (NoDup_seqZ 0 (norlen / NVRAM_BANK_SIZE)) as Hnd.
  apply list_elem_of_split in Hin as (l1 & l2 & Es). rewrite Es in *. apply NoDup_app in Hnd as (_ & Hd & Hnd).
  apply NoDup_cons in Hnd as [Hk2 _].
  assert (Hk1 : k ∉ l1) by (intros H; apply (Hd k H); by left).
  rewrite fold_left_app. cbn [fold_left]. rewrite Ho by done. cbv zeta.
  match goal with |- context [fold_left ?F l1 f] => set (g := fold_left F l1 f) end. assert (Eg : phys_read g (k * NVRAM_BANK_SIZE) NVRAM_BANK_SIZE = phys_read f (k * NVRAM_BANK_SIZE) NVRAM_BANK_SIZE)
    by by apply Ho.
  rewrite Eg. pose proof (Hlen f (k * NVRAM_BANK_SIZE)) as Hl. set (e := nvram_bank_edit _ _ _) in *.
  clearbody e. rewrite <- (phys_read_written g (k * NVRAM_BANK_SIZE) e) at 2. by rewrite Hl.
Qed.

(** C36. Setting the boot arguments does what the firmware needs: in every bank
    that verifies and whose common partition lists variables with room for the
    new ones, the firmware afterwards finds a bank that verifies, the same
    partition, and the old variables with exactly one boot-args, the given one;
    every byte outside that partition's variables and the bank's checksum is
    what it was. *)
Theorem nor_boot_args args norlen f k p t vs :
  (forall l, is_u32 (adler32 1 l)) -> Forall (fun b => b <> 0) args -> 0 <= k < norlen / NVRAM_BANK_SIZE ->
  let bank := phys_read f (k * NVRAM_BANK_SIZE) NVRAM_BANK_SIZE in
  let bank' := phys_read (nor_set_boot_args adler32 args norlen f) (k * NVRAM_BANK_SIZE) NVRAM_BANK_SIZE in
  nvram_bank_ok adler32 bank = true -> nvram_find 512 bank 32 = Some (p, t) -> nvram_read bank p t = Some vs ->
  zlen (nvram_encode (set_boot_args args vs)) <= t - NVRAM_ATOM_HDR ->
  nvram_bank_ok adler32 bank' = true /\ nvram_find 512 bank' 32 = Some (p, t) /\
  nvram_read bank' p t = Some (set_boot_args args vs) /\
  (forall i, 0 <= i < 16 \/ 20 <= i < p + NVRAM_ATOM_HDR \/ p + t <= i -> rd bank' i = rd bank i).
Proof.
  intros Ha Hargs Hk. cbv zeta. rewrite boot_args_bank by done. set (bank := phys_read f _ _).
  assert (Hb : zlen bank = NVRAM_BANK_SIZE) by (unfold bank, zlen; by rewrite length_phys_read).
  clearbody bank. clear f k Hk. intros Hok Hf Hv Hfit. unfold nvram_bank_edit. rewrite Hok, nvram_walk_find, Hf.
  destruct (nvram_find_ok 512 bank 32 p t ltac:(lia) Hf) as (H1 & H2 & H3).
  destruct (common_edit_spec args bank p t vs Hb H1 H2 H3 Hv Hfit) as (pad & sum & Hl & Es & ->).
  set (payload := nvram_encode _ ++ pad) in *.
  destruct (edited_ok bank p t payload Ha Hb H1 H3 Hl) as (P1 & P2). rewrite <- Es in P1, P2.
  fold (edited bank p payload sum). set (bank' := edited bank p payload sum) in *.
  change NVRAM_ATOM_HDR with 16 in *. unfold zlen in Hl. split; [by apply P2|]. split; [|split].
  - apply (nvram_find_ext 512 bank); [lia|done|]. intros q Hq. unfold ztake, zdrop. apply edited_slice; lia.
  - unfold nvram_read. rewrite P1. unfold payload. apply nvram_list_encode.
    + apply set_boot_args_ok; [done|]. by eapply nvram_list_ok.
    + pose proof (encode_length _ (set_boot_args_ok args vs Hargs (nvram_list_ok _ _ _ Hv))). rewrite length_app. lia.
  - intros i Hi. pose proof (edited_slice bank p payload sum (Z.to_nat i) 1 H1 ltac:(lia) ltac:(lia)) as E.
    fold bank' in E. clearbody bank'. apply (f_equal (fun l => l !! 0%nat)) in E.
    rewrite !lookup_take_lt, !lookup_drop, Nat.add_0_r in E by lia. unfold rd. by rewrite E.
Qed.
End Edit.

(** ** An example *)

(** A function that stands in for the checksum of zlib. *)
Definition ex_adler32 (start : Z) (l : bytes) : Z := u32 (fold_left (fun a c => 3 * a + c) (take 64 l) start).

(** A partition header with its checksum in place. *)
Definition ex_header (sig paras : Z) (name : bytes) : bytes :=
  let h := [sig; 0; paras; 0] ++ name ++ replicate (12 - length name) 0 in
  wr h 1 (nvram_checksum h).

(** The variables [a=1] and [boot-args=x]. *)
Definition ex_vars : list bytes := [[97; 61; 49]; boot_args_key ++ [120]].

Definition ex_part : bytes :=
  replicate 12 0 ++ ex_header 0x70 4 common_name ++ nvram_encode ex_vars ++ replicate (48 - length (nvram_encode ex_vars)) 0.

(** A flash whose first bank holds that partition. *)
Definition ex_bank_tail : flash := fun a => if a <? 20 + zlen ex_part then rd ex_part (a - 20) else 0.

Definition ex_sum : bytes := le32 (ex_adler32 1 (phys_read ex_bank_tail 20 (NVRAM_BANK_SIZE - 20))).

Definition ex_nvram : flash := fun a =>
  if a <? 16 then rd (ex_header 0x5a 2 nvram_name) a else if a <? 20 then rd ex_sum (a - 16) else ex_bank_tail a.

Lemma nor_boot_args_witness :
  let args := [45; 118] in
  let bank := phys_read ex_nvram (0 * NVRAM_BANK_SIZE) NVRAM_BANK_SIZE in
  let bank' := phys_read (nor_set_boot_args ex_adler32 args NVRAM_BANK_SIZE ex_nvram) (0 * NVRAM_BANK_SIZE) NVRAM_BANK_SIZE in
  nvram_bank_ok ex_adler32 bank' = true /\ nvram_find 512 bank' 32 = Some (32, 64) /\
  nvram_read bank' 32 64 = Some (set_boot_args args ex_vars) /\
  (forall i, 0 <= i < 16 \/ 20 <= i < 32 + NVRAM_ATOM_HDR \/ 32 + 64 <= i -> rd bank' i = rd bank i).
Proof.
  refine (nor_boot_args ex_adler32 [45; 118] NVRAM_BANK_SIZE ex_nvram 0 32 64 ex_vars _ _ _ _ _ _ _).
  - intros l. apply u32_is_u32.
  - repeat constructor; discriminate.
  - vm_compute. split; [discriminate|reflexivity].
  - lazy. reflexivity.
  - lazy. reflexivity.
  - lazy. reflexivity.
  - lazy. discriminate.
Defined.
