(* ===== verification/Sysic.v ===== *)
(** * The system controller and its GPIO interrupts

    [src/hw/arm/ipod_touch_sysic.c]: power registers, and seven groups of 32
    interrupt sources with polarity, type, mask and status, driven by pads, by
    edge requests and by the level requests of nested controllers. *)

From Stdlib Require Import ZArith Lia.
From stdpp Require Import base numbers list.
From S2P Require Import Prelude CLib HwLib.
Local Open Scope Z_scope.

Definition POWER_ID : Z := 0x44.
Definition POWER_ONCTRL : Z := 0xC.
Definition POWER_OFFCTRL : Z := 0x10.
Definition POWER_SETSTATE : Z := 0x8.
Definition POWER_STATE : Z := 0x14.
Definition POWER_ID_ADM : Z := 0x10.
Definition GPIO_INTLEVEL : Z := 0x80.
Definition GPIO_INTSTAT : Z := 0xA0.
Definition GPIO_INTEN : Z := 0xC0.
Definition GPIO_INTTYPE : Z := 0xE0.
Definition GPIO_NUMINTGROUPS : Z := 7.

(** [struct IPodTouchSYSICState].  An output line that is wired has its level;
    [None] is one that is not. *)
Record IPodTouchSYSICState := mkSysic {
  sy_direct_boot : bool;
  sy_epoch : Z;
  sy_s5l8900 : bool;
  gpio_irqs : list (option bool);
  power_id : Z;
  power_state : Z;
  gpio_int_level : list Z;
  gpio_int_status : list Z;
  gpio_int_enabled : list Z;
  gpio_int_type : list Z;
  gpio_level_pending : list Z;
  gpio_pad_level : list Z;
  gpio_pad_driven : list Z
}.

Definition eta_sysic (r : IPodTouchSYSICState) : IPodTouchSYSICState :=
  mkSysic (sy_direct_boot r) (sy_epoch r) (sy_s5l8900 r) (gpio_irqs r) (power_id r) (power_state r)
    (gpio_int_level r) (gpio_int_status r) (gpio_int_enabled r) (gpio_int_type r) (gpio_level_pending r)
    (gpio_pad_level r) (gpio_pad_driven r).
#[global] Instance upd_sy_direct_boot : Upd sy_direct_boot := ltac:(derive_upd eta_sysic sy_direct_boot).
#[global] Instance upd_sy_epoch : Upd sy_epoch := ltac:(derive_upd eta_sysic sy_epoch).
#[global] Instance upd_sy_s5l8900 : Upd sy_s5l8900 := ltac:(derive_upd eta_sysic sy_s5l8900).
#[global] Instance upd_gpio_irqs : Upd gpio_irqs := ltac:(derive_upd eta_sysic gpio_irqs).
#[global] Instance upd_power_id : Upd power_id := ltac:(derive_upd eta_sysic power_id).
#[global] Instance upd_power_state : Upd power_state := ltac:(derive_upd eta_sysic power_state).
#[global] Instance upd_gpio_int_level : Upd gpio_int_level := ltac:(derive_upd eta_sysic gpio_int_level).
#[global] Instance upd_gpio_int_status : Upd gpio_int_status := ltac:(derive_upd eta_sysic gpio_int_status).
#[global] Instance upd_gpio_int_enabled : Upd gpio_int_enabled := ltac:(derive_upd eta_sysic gpio_int_enabled).
#[global] Instance upd_gpio_int_type : Upd gpio_int_type := ltac:(derive_upd eta_sysic gpio_int_type).
#[global] Instance upd_gpio_level_pending : Upd gpio_level_pending := ltac:(derive_upd eta_sysic gpio_level_pending).
#[global] Instance upd_gpio_pad_level : Upd gpio_pad_level := ltac:(derive_upd eta_sysic gpio_pad_level).
#[global] Instance upd_gpio_pad_driven : Upd gpio_pad_driven := ltac:(derive_upd eta_sysic gpio_pad_driven).

Definition sysic_update_gpio_irq (group : Z) (s : IPodTouchSYSICState) : IPodTouchSYSICState :=
  s <| gpio_irqs ::= alter (option_map (fun _ => negb (Z.land (rd (gpio_int_status s) group) (rd (gpio_int_enabled s) group) =? 0)))
                       (Z.to_nat group) |>.

Definition ipod_touch_sysic_request_edge (group bit : Z) (s : IPodTouchSYSICState) : IPodTouchSYSICState :=
  if (GPIO_NUMINTGROUPS <=? group) || (32 <=? bit) then s
  else
    let s := s <| gpio_int_status ::= fun l => wr l group (Z.lor (rd l group) (Z.shiftl 1 bit)) |> in
    sysic_update_gpio_irq group s.

Definition sysic_pad_match (s : IPodTouchSYSICState) (group : Z) : Z :=
  Z.land (not32 (Z.lxor (rd (gpio_pad_level s) group) (rd (gpio_int_level s) group))) (rd (gpio_pad_driven s) group).

Definition sysic_pad_eval (group was : Z) (s : IPodTouchSYSICState) : IPodTouchSYSICState :=
  let mtch := sysic_pad_match s group in
  let level := rd (gpio_int_type s) group in
  let driven := rd (gpio_pad_driven s) group in
  let s := s <| gpio_level_pending ::= fun l =>
                  wr l group (Z.lor (Z.ldiff (rd l group) (Z.land driven level)) (Z.land mtch level)) |> in
  let s := s <| gpio_int_status ::= fun l =>
                  wr l group (Z.lor (rd l group)
                    (Z.lor (Z.ldiff (Z.ldiff mtch was) level) (Z.land (Z.land mtch level) (rd (gpio_int_enabled s) group)))) |> in
  sysic_update_gpio_irq group s.

Definition ipod_touch_sysic_set_pad (irq : Z) (level : bool) (s : IPodTouchSYSICState) : IPodTouchSYSICState :=
  let group := irq / 32 in
  let bit := Z.shiftl 1 (irq mod 32) in
  if GPIO_NUMINTGROUPS <=? group then s
  else
    let was := sysic_pad_match s group in
    let s := s <| gpio_pad_driven ::= fun l => wr l group (Z.lor (rd l group) bit) |> in
    let s := s <| gpio_pad_level ::= fun l => wr l group (Z.lor (Z.ldiff (rd l group) bit) (if level then bit else 0)) |> in
    sysic_pad_eval group was s.

Definition sysic_gpio_irq_input (pin : Z) (level : bool) (s : IPodTouchSYSICState) : IPodTouchSYSICState :=
  let group := pin / 32 in
  let bit := Z.shiftl 1 (pin mod 32) in
  let s :=
    if level then
      let s := s <| gpio_level_pending ::= fun l => wr l group (Z.lor (rd l group) bit) |> in
      s <| gpio_int_status ::= fun l => wr l group (Z.lor (rd l group) (Z.land bit (rd (gpio_int_enabled s) group))) |>
    else
      let s := s <| gpio_level_pending ::= fun l => wr l group (Z.ldiff (rd l group) bit) |> in
      s <| gpio_int_status ::= fun l => wr l group (Z.ldiff (rd l group) bit) |> in
  sysic_update_gpio_irq group s.

(** [case base ... (base + GPIO_NUMINTGROUPS * 4)] *)
Definition sysic_in (base addr : Z) : bool := (base <=? addr) && (addr <=? base + GPIO_NUMINTGROUPS * 4).

Definition sysic_group (base addr : Z) : Z := u8 ((addr - base) / 4).

Definition sysic_reg (l : list Z) (group : Z) : Z := if group <? GPIO_NUMINTGROUPS then rd l group else 0.

Definition ipod_touch_sysic_read (addr : Z) (s : IPodTouchSYSICState) : Z :=
  if addr =? POWER_ID then
    if sy_direct_boot s then Z.lor (Z.land (power_id s) 0x00FFFFFF) (u32 (Z.shiftl (sy_epoch s) 24)) else power_id s
  else if (addr =? POWER_SETSTATE) || (addr =? POWER_STATE) then power_state s
  else if (addr =? 0x7a) || (addr =? 0x7c) then 1
  else if sysic_in GPIO_INTLEVEL addr then sysic_reg (gpio_int_level s) (sysic_group GPIO_INTLEVEL addr)
  else if sysic_in GPIO_INTSTAT addr then sysic_reg (gpio_int_status s) (sysic_group GPIO_INTSTAT addr)
  else if sysic_in GPIO_INTEN addr then sysic_reg (gpio_int_enabled s) (sysic_group GPIO_INTEN addr)
  else if sysic_in GPIO_INTTYPE addr then sysic_reg (gpio_int_type s) (sysic_group GPIO_INTTYPE addr)
  else 0.

Definition sysic_write_level (group val : Z) (s : IPodTouchSYSICState) : IPodTouchSYSICState :=
  let was := sysic_pad_match s group in
  sysic_pad_eval group was (s <| gpio_int_level ::= fun l => wr l group (u32 val) |>).

Definition sysic_write_ack (group val : Z) (s : IPodTouchSYSICState) : IPodTouchSYSICState :=
  sysic_update_gpio_irq group
    (s <| gpio_int_status ::= fun l =>
            wr l group (Z.lor (Z.ldiff (rd l group) val)
                              (Z.land (rd (gpio_level_pending s) group) (rd (gpio_int_enabled s) group))) |>).

Definition sysic_write_enable (group val : Z) (s : IPodTouchSYSICState) : IPodTouchSYSICState :=
  let s := s <| gpio_int_enabled ::= fun l => wr l group (u32 val) |> in
  sysic_update_gpio_irq group
    (s <| gpio_int_status ::= fun l => wr l group (u32 (Z.lor (rd l group) (Z.land (rd (gpio_level_pending s) group) val))) |>).

Definition sysic_write_type (group val : Z) (s : IPodTouchSYSICState) : IPodTouchSYSICState :=
  let was := sysic_pad_match s group in
  sysic_pad_eval group was (s <| gpio_int_type ::= fun l => wr l group (u32 val) |>).

(** A register of a group, when the group exists. *)
Definition sysic_grouped (base addr : Z) (f : Z -> IPodTouchSYSICState -> IPodTouchSYSICState) (s : IPodTouchSYSICState)
  : IPodTouchSYSICState :=
  let group := sysic_group base addr in
  if group <? GPIO_NUMINTGROUPS then f group s else s.

Definition ipod_touch_sysic_write (addr val : Z) (s : IPodTouchSYSICState) : IPodTouchSYSICState :=
  if addr =? POWER_ID then s <| power_id := u32 val |>
  else if addr =? POWER_ONCTRL then
    if sy_s5l8900 s then s <| power_state ::= fun v => Z.ldiff v val |>
    else if negb (Z.land val 0x20 =? 0) || negb (Z.land val 0x4 =? 0) || negb (Z.land val POWER_ID_ADM =? 0) then s
    else s <| power_state := u32 val |>
  else if addr =? POWER_OFFCTRL then
    if sy_s5l8900 s then s <| power_state ::= fun v => u32 (Z.lor v val) |> else s <| power_state := u32 val |>
  else if sysic_in GPIO_INTLEVEL addr then sysic_grouped GPIO_INTLEVEL addr (fun g => sysic_write_level g val) s
  else if sysic_in GPIO_INTSTAT addr then sysic_grouped GPIO_INTSTAT addr (fun g => sysic_write_ack g val) s
  else if sysic_in GPIO_INTEN addr then sysic_grouped GPIO_INTEN addr (fun g => sysic_write_enable g val) s
  else if sysic_in GPIO_INTTYPE addr then sysic_grouped GPIO_INTTYPE addr (fun g => sysic_write_type g val) s
  else s.

Definition ipod_touch_sysic_reset (s : IPodTouchSYSICState) : IPodTouchSYSICState :=
  s <| power_id := 0 |> <| power_state := 0 |>
    <| gpio_int_level := replicate 7 0 |> <| gpio_int_status := replicate 7 0 |> <| gpio_int_enabled := replicate 7 0 |>
    <| gpio_int_type := replicate 7 0 |> <| gpio_level_pending := replicate 7 0 |>
    <| gpio_pad_level := replicate 7 0 |> <| gpio_pad_driven := replicate 7 0 |>
    <| gpio_irqs ::= map (option_map (fun _ => false)) |>.

Definition sysic_post_load (s : IPodTouchSYSICState) : IPodTouchSYSICState :=
  fold_left (fun s group => sysic_update_gpio_irq group s) (seqZ 0 GPIO_NUMINTGROUPS) s.
