(* ===== verification/SysicFacts.v ===== *)
(** * Facts about the GPIO interrupt controller

    The output lines follow status and mask, level requests cannot be lost, and
    latched edges stay until they are acknowledged. *)

From Stdlib Require Import ZArith Lia.
From stdpp Require Import base numbers list.
From S2P Require Import Prelude CLib HwLib Sysic.
Local Open Scope Z_scope.

(** Everything that reaches the controller. *)
Inductive sysic_event :=
  | SyEdge (group bit : Z)
  | SyPad (irq : Z) (level : bool)
  | SyInput (pin : Z) (level : bool)
  | SyWrite (addr val : Z)
  | SyReset
  | SyLoad.

(** Unsigned arguments, and the pins the board can wire. *)
Definition sysic_event_ok (ev : sysic_event) : Prop :=
  match ev with
  | SyEdge group bit => 0 <= group /\ 0 <= bit
  | SyPad irq _ => 0 <= irq
  | SyInput pin _ => 0 <= pin < GPIO_NUMINTGROUPS * 32
  | SyWrite _ val => is_u32 val
  | SyReset | SyLoad => True
  end.

Definition sysic_step (s : IPodTouchSYSICState) (ev : sysic_event) : IPodTouchSYSICState :=
  match ev with
  | SyEdge group bit => ipod_touch_sysic_request_edge group bit s
  | SyPad irq level => ipod_touch_sysic_set_pad irq level s
  | SyInput pin level => sysic_gpio_irq_input pin level s
  | SyWrite addr val => ipod_touch_sysic_write addr val s
  | SyReset => ipod_touch_sysic_reset s
  | SyLoad => sysic_post_load s
  end.

(** ** Words as sets of bits *)

(** A bit of a register of a group. *)
Definition has (l : list Z) (g b : Z) : Prop := Z.testbit (rd l g) b = true.

Definition groups_ok (l : list Z) : Prop := length l = 7%nat /\ Forall is_u32 l.

Record sysic_wf (s : IPodTouchSYSICState) : Prop := {
  sw_level : groups_ok (gpio_int_level s);
  sw_status : groups_ok (gpio_int_status s);
  sw_enabled : groups_ok (gpio_int_enabled s);
  sw_type : groups_ok (gpio_int_type s);
  sw_pending : groups_ok (gpio_level_pending s);
  sw_pad : groups_ok (gpio_pad_level s);
  sw_driven : groups_ok (gpio_pad_driven s);
  (** An enabled level request is reported. *)
  sw_latched : forall g b, 0 <= g -> 0 <= b -> has (gpio_level_pending s) g b -> has (gpio_int_enabled s) g b -> has (gpio_int_status s) g b;
  (** A wired output line is high exactly when an enabled source is reported. *)
  sw_lines : forall g level, gpio_irqs s !! Z.to_nat g = Some (Some level) -> 0 <= g ->
    level = negb (Z.land (rd (gpio_int_status s) g) (rd (gpio_int_enabled s) g) =? 0)
}.

Lemma rd_groups l g : groups_ok l -> is_u32 (rd l g).
Proof.
  intros [_ H]. unfold rd. destruct (l !! Z.to_nat g) as [v|] eqn:E; [|unfold is_u32; cbn; lia].
  cbn. rewrite Forall_forall in H. apply H. by eapply list_elem_of_lookup_2.
Qed.

Lemma groups_wr l g v : groups_ok l -> is_u32 v -> groups_ok (wr l g v).
Proof. intros [H1 H2] Hv. split; [unfold wr; by rewrite length_insert|]. unfold wr. by apply Forall_insert. Qed.

Lemma rd_wr l g g' v : length l = 7%nat -> 0 <= g < 7 -> 0 <= g' -> rd (wr l g v) g' = if g' =? g then v else rd l g'.
Proof.
  intros Hl Hg Hg'. apply rd_wr_at; [unfold zlen; lia|done].
Qed.

(** ** The invariant *)

(** A change to one group, followed by the update of its line. *)
Lemma sysic_wf_change g s t : sysic_wf s -> 0 <= g < 7 -> gpio_irqs t = gpio_irqs s ->
  groups_ok (gpio_int_level t) -> groups_ok (gpio_int_status t) -> groups_ok (gpio_int_enabled t) ->
  groups_ok (gpio_int_type t) -> groups_ok (gpio_level_pending t) -> groups_ok (gpio_pad_level t) -> groups_ok (gpio_pad_driven t) ->
  (forall g', 0 <= g' -> g' <> g -> rd (gpio_int_status t) g' = rd (gpio_int_status s) g' /\
     rd (gpio_int_enabled t) g' = rd (gpio_int_enabled s) g' /\ rd (gpio_level_pending t) g' = rd (gpio_level_pending s) g') ->
  (forall b, 0 <= b -> has (gpio_level_pending t) g b -> has (gpio_int_enabled t) g b -> has (gpio_int_status t) g b) ->
  sysic_wf (sysic_update_gpio_irq g t).
Proof.
  intros W Hg Hi H1 H2 H3 H4 H5 H6 H7 Ho Hl. constructor; try done.
  - cbn. intros g' b Hg' Hb. destruct (Z.eq_dec g' g) as [->|Hne]; [by apply Hl|].
    destruct (Ho g' Hg' Hne) as (E1 & E2 & E3). unfold has. rewrite E1, E2, E3. by apply (sw_latched s W).
  - cbn. intros g' level Hlk Hg'. rewrite Hi in Hlk. destruct (Z.eq_dec g' g) as [->|Hne].
    + rewrite list_lookup_alter_eq in Hlk. destruct (gpio_irqs s !! Z.to_nat g) as [[|]|]; try discriminate;
        cbn in Hlk; by injection Hlk as <-.
    + rewrite list_lookup_alter_ne in Hlk by lia. destruct (Ho g' Hg' Hne) as (-> & -> & _). by apply (sw_lines s W).
Qed.

(** What follows from the change of one register of a group. *)
Lemma rd_other l g v g' : length l = 7%nat -> 0 <= g < 7 -> 0 <= g' -> g' <> g -> rd (wr l g v) g' = rd l g'.
Proof. intros. rewrite rd_wr by done. by rewrite (proj2 (Z.eqb_neq _ _)). Qed.

Lemma rd_same l g v : length l = 7%nat -> 0 <= g < 7 -> rd (wr l g v) g = v.
Proof. intros. rewrite rd_wr by lia. by rewrite Z.eqb_refl. Qed.

Ltac bits := unfold has in *; repeat (progress rewrite ?Z.lor_spec, ?Z.land_spec, ?Z.ldiff_spec in * ).

Lemma sysic_match_u32 s g : sysic_wf s -> is_u32 (sysic_pad_match s g).
Proof. intros W. unfold sysic_pad_match. rewrite Z.land_comm. apply u32_land_l, rd_groups, W. Qed.

Lemma sysic_wf_eval g was s t : sysic_wf s -> 0 <= g < 7 ->
  gpio_irqs t = gpio_irqs s -> gpio_int_status t = gpio_int_status s -> gpio_int_enabled t = gpio_int_enabled s ->
  gpio_level_pending t = gpio_level_pending s ->
  groups_ok (gpio_int_level t) -> groups_ok (gpio_int_type t) -> groups_ok (gpio_pad_level t) -> groups_ok (gpio_pad_driven t) ->
  sysic_wf (sysic_pad_eval g was t).
Proof.
  intros W Hg E1 E2 E3 E4 H1 H2 H3 H4. unfold sysic_pad_eval. cbv zeta.
  set (m := sysic_pad_match t g).
  assert (Hm : is_u32 m) by (unfold m, sysic_pad_match; rewrite Z.land_comm; by apply u32_land_l, rd_groups).
  pose proof (sw_status s W) as Ws. pose proof (sw_pending s W) as Wp. pose proof (sw_enabled s W) as We.
  apply (sysic_wf_change g s); try done; cbn [gpio_irqs gpio_int_status gpio_int_enabled gpio_level_pending gpio_int_level gpio_int_type
    gpio_pad_level gpio_pad_driven upd upd_gpio_int_status upd_gpio_level_pending]; rewrite ?E2, ?E3, ?E4; try done.
  - apply groups_wr; [done|]. auto using rd_groups with words.
  - apply groups_wr; [done|]. auto using rd_groups with words.
  - intros g' Hg' Hne. rewrite !rd_other by (done || apply Ws || apply Wp). done.
  - intros b Hb. unfold has. rewrite !rd_same by (done || apply Ws || apply Wp). bits. intros Hp He.
    pose proof (sw_latched s W g b (proj1 Hg) Hb) as Hl. unfold has in Hl. rewrite He in *.
    destruct (Z.testbit (rd (gpio_level_pending s) g) b); cbn [andb orb] in *; [by rewrite Hl|].
    rewrite andb_true_r. by rewrite Hp, !orb_true_r.
Qed.

Lemma sysic_wf_pad irq level s : sysic_wf s -> 0 <= irq -> sysic_wf (ipod_touch_sysic_set_pad irq level s).
Proof.
  intros W Hi. unfold ipod_touch_sysic_set_pad. cbv zeta. destruct (Z.leb_spec GPIO_NUMINTGROUPS (irq / 32)) as [|Hg]; [done|].
  pose proof (Z.div_pos irq 32 Hi ltac:(lia)). pose proof (Z.mod_pos_bound irq 32 ltac:(lia)). unfold GPIO_NUMINTGROUPS in Hg.
  assert (is_u32 (Z.shiftl 1 (irq mod 32))) by (apply u32_bit; lia).
  apply (sysic_wf_eval _ _ s); try done; try apply W; cbn.
  - apply groups_wr; [apply W|]. apply u32_lor; [apply u32_ldiff, rd_groups, W|]. destruct level; [done|unfold is_u32; lia].
  - apply groups_wr; [apply W|]. apply u32_lor; [apply rd_groups, W|done].
Qed.

Lemma sysic_wf_edge g b s : sysic_wf s -> 0 <= g -> 0 <= b -> sysic_wf (ipod_touch_sysic_request_edge g b s).
Proof.
  intros W Hg Hb. unfold ipod_touch_sysic_request_edge. destruct (_ || _) eqn:E; [done|]. unfold GPIO_NUMINTGROUPS in E. bool_hyps. cbv zeta.
  pose proof (sw_status s W) as Ws.
  apply (sysic_wf_change g s); try done; try apply W; cbn; try lia.
  - apply groups_wr; [done|]. apply u32_lor; [by apply rd_groups|apply u32_bit; lia].
  - intros g' Hg' Hne. rewrite rd_other by (lia || apply Ws). done.
  - intros b' Hb' Hp He. unfold has. rewrite rd_same by (lia || apply Ws). bits.
    by rewrite (sw_latched s W g b' Hg Hb' Hp He).
Qed.

Lemma sysic_wf_input pin level s : sysic_wf s -> 0 <= pin < GPIO_NUMINTGROUPS * 32 -> sysic_wf (sysic_gpio_irq_input pin level s).
Proof.
  unfold GPIO_NUMINTGROUPS. intros W Hp. unfold sysic_gpio_irq_input. cbv zeta.
  assert (Hg : 0 <= pin / 32 < 7) by (split; [apply Z.div_pos; lia|apply Z.div_lt_upper_bound; lia]).
  pose proof (Z.mod_pos_bound pin 32 ltac:(lia)) as Hm. assert (Hu : is_u32 (Z.shiftl 1 (pin mod 32))) by (apply u32_bit; lia).
  set (g := pin / 32) in *. set (bit := Z.shiftl 1 (pin mod 32)) in *. clearbody g bit.
  pose proof (sw_status s W) as Ws. pose proof (sw_pending s W) as Wp.
  destruct level; (apply (sysic_wf_change g s); try done; try apply W; cbn;
    [apply groups_wr; [done|]; auto using rd_groups with words..|intros g' Hg' Hne; by rewrite !rd_other by (lia || apply Ws || apply Wp)|]);
    intros b Hb; unfold has; rewrite !rd_same by (lia || apply Ws || apply Wp); bits; intros H1 H2.
  - rewrite H2, andb_true_r. apply orb_prop in H1 as [H1|H1]; [|by rewrite H1, orb_true_r].
    by rewrite (sw_latched s W g b (proj1 Hg) Hb H1 H2).
  - apply andb_prop in H1 as [H1 H1']. rewrite H1', andb_true_r. exact (sw_latched s W g b (proj1 Hg) Hb H1 H2).
Qed.

Lemma sysic_wf_ack g v s : sysic_wf s -> 0 <= g < 7 -> sysic_wf (sysic_write_ack g v s).
Proof.
  intros W Hg. unfold sysic_write_ack. pose proof (sw_status s W) as Ws.
  apply (sysic_wf_change g s); try done; try apply W; cbn.
  - apply groups_wr; [done|]. apply u32_lor; [by apply u32_ldiff, rd_groups|apply u32_land_l, rd_groups, W].
  - intros g' Hg' Hne. by rewrite rd_other by (lia || apply Ws).
  - intros b Hb Hp He. unfold has in *. rewrite rd_same by (lia || apply Ws). bits. by rewrite Hp, He, orb_true_r.
Qed.

Lemma u32_testbit x n : 0 <= n < 32 -> Z.testbit (u32 x) n = Z.testbit x n.
Proof. intros H. unfold u32. change 4294967296 with (2 ^ 32). apply Z.mod_pow2_bits_low. lia. Qed.

Lemma sysic_wf_enable g v s : sysic_wf s -> 0 <= g < 7 -> is_u32 v -> sysic_wf (sysic_write_enable g v s).
Proof.
  intros W Hg Hv. unfold sysic_write_enable. cbv zeta. pose proof (sw_status s W) as Ws. pose proof (sw_enabled s W) as We.
  rewrite (u32_id v) by done.
  apply (sysic_wf_change g s); try done; try apply W; cbn.
  - apply groups_wr; [done|apply u32_is_u32].
  - by apply groups_wr.
  - intros g' Hg' Hne. by rewrite !rd_other by (lia || apply Ws || apply We).
  - intros b Hb Hp He. unfold has in *. rewrite !rd_same in * by (lia || apply Ws || apply We).
    rewrite u32_id by (apply u32_lor; [by apply rd_groups|apply u32_land_l, rd_groups, W]). bits. by rewrite Hp, He, orb_true_r.
Qed.

Lemma sysic_wf_grouped base addr f s : sysic_wf s -> (forall g, 0 <= g < 7 -> sysic_wf (f g s)) -> sysic_wf (sysic_grouped base addr f s).
Proof.
  intros W H. unfold sysic_grouped. cbv zeta. destruct (Z.ltb_spec (sysic_group base addr) GPIO_NUMINTGROUPS); [|done].
  apply H. unfold GPIO_NUMINTGROUPS in *. pose proof (u8_is_byte ((addr - base) / 4)) as Hb. unfold sysic_group, is_byte in *. lia.
Qed.

Lemma sysic_wf_same s t : sysic_wf s -> gpio_irqs t = gpio_irqs s -> gpio_int_level t = gpio_int_level s ->
  gpio_int_status t = gpio_int_status s -> gpio_int_enabled t = gpio_int_enabled s -> gpio_int_type t = gpio_int_type s ->
  gpio_level_pending t = gpio_level_pending s -> gpio_pad_level t = gpio_pad_level s -> gpio_pad_driven t = gpio_pad_driven s -> sysic_wf t.
Proof. intros [] E1 E2 E3 E4 E5 E6 E7 E8. constructor; by rewrite ?E1, ?E2, ?E3, ?E4, ?E5, ?E6, ?E7, ?E8. Qed.

Lemma sysic_wf_write addr v s : sysic_wf s -> is_u32 v -> sysic_wf (ipod_touch_sysic_write addr v s).
Proof.
  intros W Hv. unfold ipod_touch_sysic_write.
  destruct (_ =? POWER_ID); [by apply (sysic_wf_same s)|].
  destruct (_ =? POWER_ONCTRL).
  { destruct (sy_s5l8900 s); [by apply (sysic_wf_same s)|]. destruct (_ || _); [done|by apply (sysic_wf_same s)]. }
  destruct (_ =? POWER_OFFCTRL); [destruct (sy_s5l8900 s); by apply (sysic_wf_same s)|].
  destruct (sysic_in GPIO_INTLEVEL addr).
  { apply sysic_wf_grouped; [done|]. intros g Hg. apply (sysic_wf_eval _ _ s); try done; try apply W.
    cbn. apply groups_wr; [apply W|apply u32_is_u32]. }
  destruct (sysic_in GPIO_INTSTAT addr); [apply sysic_wf_grouped; [done|]; intros; by apply sysic_wf_ack|].
  destruct (sysic_in GPIO_INTEN addr); [apply sysic_wf_grouped; [done|]; intros; by apply sysic_wf_enable|].
  destruct (sysic_in GPIO_INTTYPE addr); [|done].
  apply sysic_wf_grouped; [done|]. intros g Hg. apply (sysic_wf_eval _ _ s); try done; try apply W.
  cbn. apply groups_wr; [apply W|apply u32_is_u32].
Qed.

Lemma sysic_wf_update g s : sysic_wf s -> 0 <= g < 7 -> sysic_wf (sysic_update_gpio_irq g s).
Proof. intros W Hg. apply (sysic_wf_change g s); try done; try apply W. intros b Hb. apply (sw_latched s W); lia. Qed.

Lemma sysic_wf_load s : sysic_wf s -> sysic_wf (sysic_post_load s).
Proof.
  unfold sysic_post_load. change (seqZ 0 GPIO_NUMINTGROUPS) with [0; 1; 2; 3; 4; 5; 6].
  intros W. cbn [fold_left]. repeat (apply sysic_wf_update; [|lia]). done.
Qed.

Lemma sysic_wf_reset s : sysic_wf (ipod_touch_sysic_reset s).
Proof.
  assert (G : groups_ok (replicate 7 0)) by (split; [done|repeat constructor; lia]).
  assert (Z0 : forall g, rd (replicate 7 0) g = 0).
  { intros g. unfold rd. destruct (replicate 7 0 !! Z.to_nat g) as [v|] eqn:E; [|done]. by apply lookup_replicate in E as [-> _]. }
  constructor; [exact G..| |].
  - intros g b _ _ H. unfold has in H. change (gpio_level_pending (ipod_touch_sysic_reset s)) with (replicate 7 0) in H.
    rewrite Z0, Z.bits_0 in H. discriminate.
  - intros g level H _. change (gpio_int_status (ipod_touch_sysic_reset s)) with (replicate 7 0). rewrite Z0, Z.land_0_l.
    change (map (option_map (fun _ => false)) (gpio_irqs s) !! Z.to_nat g = Some (Some level)) in H.
    change (map ?f ?l) with (f <$> l) in H. rewrite list_lookup_fmap in H.
    destruct (gpio_irqs s !! Z.to_nat g) as [[|]|]; cbn in H; by simplify_eq.
Qed.

Lemma sysic_wf_step s ev : sysic_wf s -> sysic_event_ok ev -> sysic_wf (sysic_step s ev).
Proof.
  intros W Hok. destruct ev; cbn in *.
  - destruct Hok. by apply sysic_wf_edge.
  - by apply sysic_wf_pad.
  - by apply sysic_wf_input.
  - by apply sysic_wf_write.
  - apply sysic_wf_reset.
  - by apply sysic_wf_load.
Qed.

Definition sysic_run (evs : list sysic_event) (s : IPodTouchSYSICState) : IPodTouchSYSICState := fold_left sysic_step evs s.

Lemma sysic_wf_run evs s : sysic_wf s -> Forall sysic_event_ok evs -> sysic_wf (sysic_run evs s).
Proof. intros W H. revert s W. induction H as [|ev evs Hev H IH]; intros s W; [done|]. by apply IH, sysic_wf_step. Qed.

(** ** Requests *)

Lemma has_set l g b : groups_ok l -> 0 <= g < 7 -> 0 <= b < 32 -> has (wr l g (Z.lor (rd l g) (Z.shiftl 1 b))) g b.
Proof.
  intros [Hl _] Hg Hb. unfold has. rewrite rd_same, Z.lor_spec, Z.shiftl_1_l, Z.pow2_bits_true by (lia || done). apply orb_true_r.
Qed.

(** A status that is reported raises the line of an enabled source. *)
Lemma sysic_line_high s g b level : sysic_wf s -> 0 <= g -> 0 <= b -> has (gpio_int_status s) g b -> has (gpio_int_enabled s) g b ->
  gpio_irqs s !! Z.to_nat g = Some (Some level) -> level = true.
Proof.
  intros W Hg Hb Hs He Hl. rewrite (sw_lines s W g level Hl Hg). apply negb_true_iff, Z.eqb_neq. intros E.
  apply (f_equal (fun z => Z.testbit z b)) in E. unfold has in *. rewrite Z.land_spec, Hs, He, Z.bits_0 in E. discriminate.
Qed.

(** Events that leave the level request of a source alone: not its withdrawal,
    not a reset, and not a pad on the same line. *)
Definition keeps_request (pin : Z) (ev : sysic_event) : Prop :=
  match ev with
  | SyReset => False
  | SyInput p level => p = pin -> level = true
  | SyPad irq _ => irq <> pin
  | _ => True
  end.

(** The request of [pin] stands and no pad drives its line. *)
Definition requested (pin : Z) (s : IPodTouchSYSICState) : Prop :=
  has (gpio_level_pending s) (pin / 32) (pin mod 32) /\ ~ has (gpio_pad_driven s) (pin / 32) (pin mod 32).

Lemma bit_of a n : 0 <= a -> 0 <= n -> Z.testbit (Z.shiftl 1 a) n = (n =? a).
Proof. intros. rewrite Z.shiftl_1_l, Z.pow2_bits_eqb by done. apply Z.eqb_sym. Qed.

(** Where another source of the same group is changed, the bit is another. *)
Lemma other_bit a pin : a <> pin -> a / 32 = pin / 32 -> a mod 32 <> pin mod 32.
Proof. intros H E E'. apply H. rewrite (Z.div_mod a 32), (Z.div_mod pin 32) by lia. by rewrite E, E'. Qed.

Lemma requested_eval pin g was s : length (gpio_level_pending s) = 7%nat -> 0 <= g < 7 -> 0 <= pin ->
  requested pin s -> requested pin (sysic_pad_eval g was s).
Proof.
  intros Wp Hg Hp [H1 H2]. unfold sysic_pad_eval, requested. cbv zeta. cbn. split; [|done].
  pose proof (Z.div_pos pin 32 Hp ltac:(lia)). unfold has in *. rewrite rd_wr by done.
  destruct (Z.eqb_spec (pin / 32) g) as [E|]; [|done]. rewrite E in *. bits. rewrite H1.
  apply not_true_iff_false in H2. by rewrite H2.
Qed.

Lemma requested_input pin p level s : sysic_wf s -> 0 <= p < GPIO_NUMINTGROUPS * 32 -> 0 <= pin -> (p = pin -> level = true) ->
  requested pin s -> requested pin (sysic_gpio_irq_input p level s).
Proof.
  unfold GPIO_NUMINTGROUPS. intros W Hp Hpin Hk [H1 H2]. pose proof (sw_pending s W) as [Wp _].
  assert (Hg : 0 <= p / 32 < 7) by (split; [apply Z.div_pos; lia|apply Z.div_lt_upper_bound; lia]).
  pose proof (Z.div_pos pin 32 Hpin ltac:(lia)). pose proof (Z.mod_pos_bound pin 32 ltac:(lia)). pose proof (Z.mod_pos_bound p 32 ltac:(lia)).
  unfold sysic_gpio_irq_input, requested. cbv zeta. destruct level; cbn; (split; [|done]); unfold has in *;
    rewrite rd_wr by done; destruct (Z.eqb_spec (pin / 32) (p / 32)) as [E|]; try done; rewrite <- E; bits; rewrite H1; [done|].
  rewrite bit_of by lia. rewrite (proj2 (Z.eqb_neq _ _)); [done|]. intros E'. apply (other_bit p pin); [|by rewrite E|by rewrite E'].
  intros ->. by discriminate Hk.
Qed.

Lemma requested_pad pin irq level s : sysic_wf s -> 0 <= irq -> 0 <= pin -> irq <> pin ->
  requested pin s -> requested pin (ipod_touch_sysic_set_pad irq level s).
Proof.
  intros W Hi Hpin Hne [H1 H2]. pose proof (sw_driven s W) as [Wd _]. unfold ipod_touch_sysic_set_pad. cbv zeta.
  destruct (Z.leb_spec GPIO_NUMINTGROUPS (irq / 32)) as [|Hg]; [done|]. unfold GPIO_NUMINTGROUPS in Hg.
  pose proof (Z.div_pos irq 32 Hi ltac:(lia)). pose proof (Z.div_pos pin 32 Hpin ltac:(lia)).
  pose proof (Z.mod_pos_bound pin 32 ltac:(lia)). pose proof (Z.mod_pos_bound irq 32 ltac:(lia)).
  apply requested_eval; [apply (sw_pending s W)|lia|done|]. split; [exact H1|]. cbn. unfold has in *.
  rewrite rd_wr by (lia || done). destruct (Z.eqb_spec (pin / 32) (irq / 32)) as [E|]; [|done]. rewrite <- E. bits.
  apply not_true_iff_false in H2. rewrite H2, bit_of by lia. cbn [orb]. rewrite Z.eqb_eq. intros E'. by apply (other_bit irq pin).
Qed.

Lemma requested_write pin addr v s : sysic_wf s -> 0 <= pin -> requested pin s -> requested pin (ipod_touch_sysic_write addr v s).
Proof.
  intros W Hpin H. unfold ipod_touch_sysic_write.
  assert (K : forall base f, (forall g, 0 <= g < 7 -> requested pin (f g s)) -> requested pin (sysic_grouped base addr f s)).
  { intros base f Hf. unfold sysic_grouped. cbv zeta. destruct (Z.ltb_spec (sysic_group base addr) GPIO_NUMINTGROUPS); [|done].
    apply Hf. unfold GPIO_NUMINTGROUPS in *. pose proof (u8_is_byte ((addr - base) / 4)) as Hb. unfold sysic_group, is_byte in *. lia. }
  destruct (_ =? POWER_ID); [done|]. destruct (_ =? POWER_ONCTRL).
  { destruct (sy_s5l8900 s); [done|]. by destruct (_ || _). }
  destruct (_ =? POWER_OFFCTRL); [by destruct (sy_s5l8900 s)|].
  destruct (sysic_in GPIO_INTLEVEL addr).
  { apply K. intros g Hg. apply requested_eval; [apply (sw_pending s W)|done|done|exact H]. }
  destruct (sysic_in GPIO_INTSTAT addr); [by apply K|]. destruct (sysic_in GPIO_INTEN addr); [by apply K|].
  destruct (sysic_in GPIO_INTTYPE addr); [|done].
  apply K. intros g Hg. apply requested_eval; [apply (sw_pending s W)|done|done|exact H].
Qed.

Lemma sysic_step_requested pin s ev : sysic_wf s -> sysic_event_ok ev -> 0 <= pin ->
  keeps_request pin ev -> requested pin s -> requested pin (sysic_step s ev).
Proof.
  intros W Hok Hpin Hk H. destruct ev; cbn in *.
  - unfold ipod_touch_sysic_request_edge. by destruct (_ || _).
  - by apply requested_pad.
  - by apply requested_input.
  - by apply requested_write.
  - done.
  - done.
Qed.

Lemma sysic_run_requested pin evs s : sysic_wf s -> Forall sysic_event_ok evs -> 0 <= pin -> Forall (keeps_request pin) evs ->
  requested pin s -> requested pin (sysic_run evs s).
Proof.
  intros W Hok Hpin Hk. revert s W Hk. induction Hok as [|ev evs Hev Hok IH]; intros s W Hk H; [done|].
  apply Forall_cons in Hk as [Hk1 Hk]. apply (IH (sysic_step s ev)); [by apply sysic_wf_step|done|by apply sysic_step_requested].
Qed.

(** A level request cannot be lost: once a nested controller has raised its
    line, then whatever the guest acknowledges, masks, unmasks or reprograms and
    whatever else arrives, the request is reported and the group's output is
    high at every moment at which its source is enabled, until the controller
    withdraws it. *)
Theorem sysic_request_held pin evs s : sysic_wf s -> 0 <= pin < GPIO_NUMINTGROUPS * 32 ->
  ~ has (gpio_pad_driven s) (pin / 32) (pin mod 32) ->
  Forall sysic_event_ok evs -> Forall (keeps_request pin) evs ->
  let s' := sysic_run (SyInput pin true :: evs) s in
  has (gpio_int_enabled s') (pin / 32) (pin mod 32) ->
  has (gpio_int_status s') (pin / 32) (pin mod 32) /\
  forall level, gpio_irqs s' !! Z.to_nat (pin / 32) = Some (Some level) -> level = true.
Proof.
  intros W Hp Hd Hok Hk. cbv zeta. change (sysic_run (SyInput pin true :: evs) s) with (sysic_run evs (sysic_gpio_irq_input pin true s)).
  pose proof Hp as Hp'. unfold GPIO_NUMINTGROUPS in Hp'.
  assert (Hg : 0 <= pin / 32 < 7) by (split; [apply Z.div_pos; lia|apply Z.div_lt_upper_bound; lia]).
  pose proof (Z.mod_pos_bound pin 32 ltac:(lia)) as Hm.
  assert (W1 : sysic_wf (sysic_gpio_irq_input pin true s)) by by apply sysic_wf_input.
  assert (R : requested pin (sysic_gpio_irq_input pin true s)).
  { split; [|exact Hd]. unfold sysic_gpio_irq_input. cbn. apply has_set; [apply W|done|done]. }
  pose proof (sysic_wf_run evs _ W1 Hok) as W2.
  destruct (sysic_run_requested pin evs _ W1 Hok ltac:(lia) Hk R) as [R2 _].
  generalize dependent (sysic_run evs (sysic_gpio_irq_input pin true s)). intros t W2 R2 He.
  assert (Hs : has (gpio_int_status t) (pin / 32) (pin mod 32)) by (apply (sw_latched t W2); (lia || done)).
  split; [done|]. intros level. apply (sysic_line_high t (pin / 32) (pin mod 32)); (lia || done).
Qed.

(** Events that leave a latched edge alone: not the acknowledgement of its bit,
    not a reset, and not the withdrawal of a level request on the same line. *)
Definition keeps_edge (g b : Z) (ev : sysic_event) : Prop :=
  match ev with
  | SyReset => False
  | SyInput p level => p = 32 * g + b -> level = true
  | SyWrite addr val => sysic_in GPIO_INTSTAT addr = true -> sysic_group GPIO_INTSTAT addr = g -> Z.testbit val b = false
  | _ => True
  end.

Lemma edge_eval g b g' was s : length (gpio_int_status s) = 7%nat -> 0 <= g' < 7 -> 0 <= g ->
  has (gpio_int_status s) g b -> has (gpio_int_status (sysic_pad_eval g' was s)) g b.
Proof.
  intros Hl Hg' Hg H. unfold sysic_pad_eval. cbv zeta. cbn. unfold has in *. rewrite rd_wr by done.
  destruct (Z.eqb_spec g g') as [->|]; [|done]. bits. by rewrite H.
Qed.

Lemma edge_write g b addr v s : sysic_wf s -> 0 <= g -> 0 <= b < 32 -> keeps_edge g b (SyWrite addr v) -> is_u32 v ->
  has (gpio_int_status s) g b -> has (gpio_int_status (ipod_touch_sysic_write addr v s)) g b.
Proof.
  intros W Hg Hb Hk Hv H. pose proof (sw_status s W) as [Hl Hu]. unfold ipod_touch_sysic_write. cbn in Hk.
  assert (K : forall base f, (forall x, 0 <= x < 7 -> x = sysic_group base addr -> has (gpio_int_status (f x s)) g b) ->
    has (gpio_int_status (sysic_grouped base addr f s)) g b).
  { intros base f Hf. unfold sysic_grouped. cbv zeta. destruct (Z.ltb_spec (sysic_group base addr) GPIO_NUMINTGROUPS); [|done].
    apply Hf; [|done]. unfold GPIO_NUMINTGROUPS in *. pose proof (u8_is_byte ((addr - base) / 4)). unfold sysic_group, is_byte in *. lia. }
  destruct (_ =? POWER_ID); [done|]. destruct (_ =? POWER_ONCTRL).
  { destruct (sy_s5l8900 s); [done|]. by destruct (_ || _). }
  destruct (_ =? POWER_OFFCTRL); [by destruct (sy_s5l8900 s)|].
  destruct (sysic_in GPIO_INTLEVEL addr); [apply K; intros; by apply edge_eval|].
  destruct (sysic_in GPIO_INTSTAT addr) eqn:Ha.
  { apply K. intros x Hx Ex. unfold sysic_write_ack. cbn. unfold has in *. rewrite rd_wr by done.
    destruct (Z.eqb_spec g x) as [->|]; [|done]. bits. by rewrite H, (Hk eq_refl (eq_sym Ex)). }
  destruct (sysic_in GPIO_INTEN addr).
  { apply K. intros x Hx _. unfold sysic_write_enable. cbn. unfold has in *. rewrite rd_wr by done.
    destruct (Z.eqb_spec g x) as [->|]; [|done]. rewrite u32_testbit by done. bits. by rewrite H. }
  destruct (sysic_in GPIO_INTTYPE addr); [|done]. apply K. intros. by apply edge_eval.
Qed.

Lemma sysic_step_edge g b s ev : sysic_wf s -> sysic_event_ok ev -> 0 <= g -> 0 <= b < 32 -> keeps_edge g b ev ->
  has (gpio_int_status s) g b -> has (gpio_int_status (sysic_step s ev)) g b.
Proof.
  intros W Hok Hg Hb Hk H. pose proof (sw_status s W) as [Hl Hu]. destruct ev as [g' b'|irq level|p level|addr v| |]; cbn [sysic_step] in *.
  - unfold ipod_touch_sysic_request_edge. destruct (_ || _) eqn:E; [done|]. unfold GPIO_NUMINTGROUPS in E. bool_hyps. cbn in Hok.
    cbn. unfold has in *. rewrite rd_wr by lia. destruct (Z.eqb_spec g g') as [->|]; [|done]. bits. by rewrite H.
  - unfold ipod_touch_sysic_set_pad. cbv zeta. destruct (Z.leb_spec GPIO_NUMINTGROUPS (irq / 32)) as [|Hi]; [done|].
    unfold GPIO_NUMINTGROUPS in Hi. pose proof (Z.div_pos irq 32 Hok ltac:(lia)). by apply edge_eval.
  - cbn in Hok, Hk. unfold GPIO_NUMINTGROUPS in Hok.
    assert (Hp : 0 <= p / 32 < 7) by (split; [apply Z.div_pos; lia|apply Z.div_lt_upper_bound; lia]).
    pose proof (Z.mod_pos_bound p 32 ltac:(lia)). pose proof (Z.div_mod p 32 ltac:(lia)).
    unfold sysic_gpio_irq_input. cbv zeta. destruct level; cbn; unfold has in *; rewrite rd_wr by done;
      destruct (Z.eqb_spec g (p / 32)) as [->|]; try done; bits; rewrite H; [done|].
    rewrite bit_of by lia. rewrite (proj2 (Z.eqb_neq _ _)); [done|]. intros ->. by discriminate Hk; lia.
  - by apply edge_write.
  - done.
  - done.
Qed.

Lemma sysic_run_edge g b evs s : sysic_wf s -> Forall sysic_event_ok evs -> 0 <= g -> 0 <= b < 32 -> Forall (keeps_edge g b) evs ->
  has (gpio_int_status s) g b -> has (gpio_int_status (sysic_run evs s)) g b.
Proof.
  intros W Hok Hg Hb Hk. revert s W Hk. induction Hok as [|ev evs Hev Hok IH]; intros s W Hk H; [done|].
  apply Forall_cons in Hk as [Hk1 Hk]. apply (IH (sysic_step s ev)); [by apply sysic_wf_step|done|by apply sysic_step_edge].
Qed.

(** A latched edge waits for its acknowledgement: after an edge request, the
    source stays reported, and the group's output high whenever the source is
    enabled, until the guest acknowledges that very bit (or a level request on
    the same line is withdrawn, or the controller is reset). *)
Theorem sysic_edge_kept g b evs s : sysic_wf s -> 0 <= g < GPIO_NUMINTGROUPS -> 0 <= b < 32 ->
  Forall sysic_event_ok evs -> Forall (keeps_edge g b) evs ->
  let s' := sysic_run (SyEdge g b :: evs) s in
  has (gpio_int_status s') g b /\
  (has (gpio_int_enabled s') g b -> forall level, gpio_irqs s' !! Z.to_nat g = Some (Some level) -> level = true).
Proof.
  unfold GPIO_NUMINTGROUPS. intros W Hg Hb Hok Hk. cbv zeta.
  change (sysic_run (SyEdge g b :: evs) s) with (sysic_run evs (ipod_touch_sysic_request_edge g b s)).
  assert (W1 : sysic_wf (ipod_touch_sysic_request_edge g b s)) by (apply sysic_wf_edge; (done || lia)).
  assert (H1 : has (gpio_int_status (ipod_touch_sysic_request_edge g b s)) g b).
  { unfold ipod_touch_sysic_request_edge, GPIO_NUMINTGROUPS. rewrite (proj2 (Z.leb_gt _ _)), (proj2 (Z.leb_gt _ _)) by lia. cbn.
    apply has_set; [apply W|done|done]. }
  pose proof (sysic_run_edge g b evs _ W1 Hok ltac:(lia) Hb Hk H1).
  split; [done|]. intros He level. apply (sysic_line_high _ g b); (lia || done || by apply sysic_wf_run).
Qed.

(** ** An example *)

(** A controller with its lines wired, source 3 of group 1 enabled. *)
Definition ex_sysic : IPodTouchSYSICState :=
  sysic_run [SyReset; SyWrite (GPIO_INTEN + 4) 8] (mkSysic false 4 false (replicate 7 (Some true)) 0 0 [] [] [] [] [] [] []).

Lemma ex_sysic_wf : sysic_wf ex_sysic.
Proof.
  unfold ex_sysic. cbn [sysic_run fold_left sysic_step]. apply sysic_wf_write; [apply sysic_wf_reset|]. vm_compute. split; [discriminate|reflexivity].
Qed.

Lemma sysic_request_held_witness :
  let s' := sysic_run [SyInput 35 true; SyWrite (GPIO_INTSTAT + 4) 0xffffffff] ex_sysic in
  has (gpio_int_status s') (35 / 32) (35 mod 32) /\
  forall level, gpio_irqs s' !! Z.to_nat (35 / 32) = Some (Some level) -> level = true.
Proof.
  refine (sysic_request_held 35 [SyWrite (GPIO_INTSTAT + 4) 0xffffffff] ex_sysic ex_sysic_wf _ _ _ _ _).
  - vm_compute. split; [discriminate|reflexivity].
  - vm_compute. discriminate.
  - constructor; [vm_compute; split; [discriminate|reflexivity]|constructor].
  - repeat constructor.
  - vm_compute. reflexivity.
Defined.

Lemma sysic_edge_kept_witness :
  let s' := sysic_run [SyEdge 1 3; SyWrite (GPIO_INTSTAT + 4) 0xfffffff7; SyPad 40 true] ex_sysic in
  has (gpio_int_status s') 1 3 /\
  (has (gpio_int_enabled s') 1 3 -> forall level, gpio_irqs s' !! Z.to_nat 1 = Some (Some level) -> level = true).
Proof.
  refine (sysic_edge_kept 1 3 [SyWrite (GPIO_INTSTAT + 4) 0xfffffff7; SyPad 40 true] ex_sysic ex_sysic_wf _ _ _ _).
  - vm_compute. split; [discriminate|reflexivity].
  - lia.
  - constructor; [vm_compute; split; [discriminate|reflexivity]|]. constructor; [vm_compute; discriminate|constructor].
  - constructor; [intros _ _; reflexivity|]. constructor; [exact I|constructor].
Defined.
