(* ===== verification/IosDev.v ===== *)
(** * The baseband device

    [src/hw/misc/ios_baseband.c]: the device that owns the core, carries its
    bytes over a UART or over the SPI handshake, runs its clock, and connects it
    to the network, the motor and the properties a user sets.  The core's two
    callbacks only fill queues the core never reads, so each operation runs the
    core and then passes on what it emitted, in order.  [now] is the virtual
    clock in milliseconds. *)

From Stdlib Require Import ZArith Lia String.
From stdpp Require Import base numbers list.
From S2P Require Import Prelude CLib BbState BbTx BbSim BbCalls BbReg BbSms BbGps BbAt BbRx BbTick BbIfx.
Local Open Scope Z_scope.

Definition IOS_BB_LATENCY_MS : Z := 2.

(** [sizeof (s->out)] *)
Definition IOS_BB_OUT_SIZE : Z := 8192.

(** [struct IosBasebandState].  The timer exists from realize on and then has a
    deadline or none; [dv_out] is the prefix of [out] that [out_len] counts;
    [dv_nic] is the MAC address of the data network when there is one;
    [spi_ready] tells whether the controller registered its callback.  The last
    five fields are what the outside sees: the levels driven on SRDY, the calls
    of the callback, the motor line, what the UART got and what the network got. *)
Record IosBasebandState := mkIosBb {
  dv_bb : IosBbCore;
  dv_ifx : IosBbIfx;
  dv_timer : option (option Z);
  dv_out : bytes;
  ifx_version : Z;
  ifx_max_data : Z;
  dv_nitz : bool;
  srdy_level : bool;
  mrdy_level : bool;
  frame_wanted : bool;
  spi_ready : bool;
  dv_nic : option bytes;
  srdy_log : list bool;
  ready_calls : Z;
  vibrator_line : bool;
  uart_log : list bytes;
  frame_log : list bytes
}.

Definition eta_IosBasebandState (r : IosBasebandState) : IosBasebandState :=
  mkIosBb (dv_bb r) (dv_ifx r) (dv_timer r) (dv_out r) (ifx_version r) (ifx_max_data r) (dv_nitz r)
    (srdy_level r) (mrdy_level r) (frame_wanted r) (spi_ready r) (dv_nic r) (srdy_log r) (ready_calls r)
    (vibrator_line r) (uart_log r) (frame_log r).
#[global] Instance upd_dv_bb : Upd dv_bb := ltac:(derive_upd eta_IosBasebandState dv_bb).
#[global] Instance upd_dv_ifx : Upd dv_ifx := ltac:(derive_upd eta_IosBasebandState dv_ifx).
#[global] Instance upd_dv_timer : Upd dv_timer := ltac:(derive_upd eta_IosBasebandState dv_timer).
#[global] Instance upd_dv_out : Upd dv_out := ltac:(derive_upd eta_IosBasebandState dv_out).
#[global] Instance upd_ifx_version : Upd ifx_version := ltac:(derive_upd eta_IosBasebandState ifx_version).
#[global] Instance upd_ifx_max_data : Upd ifx_max_data := ltac:(derive_upd eta_IosBasebandState ifx_max_data).
#[global] Instance upd_dv_nitz : Upd dv_nitz := ltac:(derive_upd eta_IosBasebandState dv_nitz).
#[global] Instance upd_srdy_level : Upd srdy_level := ltac:(derive_upd eta_IosBasebandState srdy_level).
#[global] Instance upd_mrdy_level : Upd mrdy_level := ltac:(derive_upd eta_IosBasebandState mrdy_level).
#[global] Instance upd_frame_wanted : Upd frame_wanted := ltac:(derive_upd eta_IosBasebandState frame_wanted).
#[global] Instance upd_spi_ready : Upd spi_ready := ltac:(derive_upd eta_IosBasebandState spi_ready).
#[global] Instance upd_dv_nic : Upd dv_nic := ltac:(derive_upd eta_IosBasebandState dv_nic).
#[global] Instance upd_srdy_log : Upd srdy_log := ltac:(derive_upd eta_IosBasebandState srdy_log).
#[global] Instance upd_ready_calls : Upd ready_calls := ltac:(derive_upd eta_IosBasebandState ready_calls).
#[global] Instance upd_vibrator_line : Upd vibrator_line := ltac:(derive_upd eta_IosBasebandState vibrator_line).
#[global] Instance upd_uart_log : Upd uart_log := ltac:(derive_upd eta_IosBasebandState uart_log).
#[global] Instance upd_frame_log : Upd frame_log := ltac:(derive_upd eta_IosBasebandState frame_log).

Definition iosbb_arm (at_ms : Z) (s : IosBasebandState) : IosBasebandState :=
  s <| dv_timer ::= fun t => match t with Some _ => Some (Some at_ms) | None => None end |>.

(** [timer_del] *)
Definition iosbb_disarm (s : IosBasebandState) : IosBasebandState :=
  s <| dv_timer ::= fun t => match t with Some _ => Some None | None => None end |>.

(** ** What the core emits *)

Definition iosbb_out (now : Z) (buf : bytes) (s : IosBasebandState) : IosBasebandState :=
  if IOS_BB_OUT_SIZE <? zlen (dv_out s) + zlen buf then s
  else iosbb_arm (now + IOS_BB_LATENCY_MS) (s <| dv_out ::= fun l => l ++ buf |>).

Definition iosbb_gw_mac : bytes := [0x52; 0x55; 0x0a; 0x00; 0x02; 0x02].

Definition iosbb_data_out (buf : bytes) (s : IosBasebandState) : IosBasebandState :=
  match dv_nic s with
  | Some mac =>
      if 2048 <? zlen buf then s
      else s <| frame_log ::= fun l => l ++ [iosbb_gw_mac ++ mac ++ [0x08; 0x00] ++ buf] |>
  | None => s
  end.

(** Which callback the core was given at realize. *)
Definition iosbb_emit (now : Z) (buf : bytes) (s : IosBasebandState) : IosBasebandState :=
  if ifx_version s =? 0 then iosbb_out now buf s else s <| dv_ifx ::= ios_bb_ifx_queue buf |>.

(** Run the core and pass on what it emitted. *)
Definition iosbb_core (now : Z) (f : IosBbCore -> IosBbCore) (s : IosBasebandState) : IosBasebandState :=
  let bb := f (dv_bb s) in
  let s := s <| dv_bb := bb <| b_env; out_log := [] |> <| b_env; data_log := [] |> |> in
  let s := fold_left (fun s buf => iosbb_emit now buf s) (bb.(b_env).(out_log)) s in
  fold_left (fun s buf => iosbb_data_out buf s) (bb.(b_env).(data_log)) s.

(** [cans] are the answers of [qemu_chr_be_can_write], after which it is full. *)
Fixpoint iosbb_flush (cans : list Z) (s : IosBasebandState) : IosBasebandState :=
  match dv_out s, cans with
  | [], _ | _, [] => s
  | out, can :: cans =>
      if can <=? 0 then s
      else
        let can := Z.min can (zlen out) in
        iosbb_flush cans (s <| uart_log ::= fun l => l ++ [ztake can out] |> <| dv_out := zdrop can out |>)
  end.

(** ** The SPI handshake *)

Definition iosbb_set_srdy (level : bool) (s : IosBasebandState) : IosBasebandState :=
  if Bool.eqb level (srdy_level s) then s
  else
    let s := s <| srdy_level := level |> <| srdy_log ::= fun l => l ++ [level] |> in
    if level && spi_ready s then s <| ready_calls ::= fun n => n + 1 |> else s.

Definition iosbb_srdy_update (s : IosBasebandState) : IosBasebandState :=
  if (dv_bb s).(b_at).(off) && negb (ios_bb_ifx_pending (dv_ifx s)) then s
  else if mrdy_level s || (negb (srdy_level s) && (frame_wanted s || ios_bb_ifx_pending (dv_ifx s)))
  then iosbb_set_srdy true s
  else s.

Definition iosbb_mrdy (now : Z) (level : bool) (s : IosBasebandState) : IosBasebandState :=
  iosbb_arm (now + IOS_BB_LATENCY_MS) (iosbb_set_srdy false (s <| mrdy_level := level |>)).

Definition ios_baseband_spi_request (now : Z) (s : IosBasebandState) : IosBasebandState :=
  iosbb_arm (now + IOS_BB_LATENCY_MS) (s <| frame_wanted := true |>).

Definition ios_baseband_spi_done (now : Z) (unread_miso : option bytes) (s : IosBasebandState) : IosBasebandState :=
  let s := s <| frame_wanted := false |> in
  let s := match unread_miso with Some m => s <| dv_ifx ::= ios_bb_ifx_unsent m |> | None => s end in
  iosbb_arm (now + IOS_BB_LATENCY_MS) (iosbb_set_srdy false s).

Definition ios_baseband_spi_srdy (s : IosBasebandState) : bool := srdy_level s.

Definition ios_baseband_spi_set_ready (s : IosBasebandState) : IosBasebandState := s <| spi_ready := true |>.

(** One transfer; the result is the frame sent when the AP wants one. *)
Definition ios_baseband_spi_xfer (now : Z) (mosi : option bytes) (miso : bool) (n : Z) (s : IosBasebandState)
  : bytes * IosBasebandState :=
  let s := s <| dv_bb ::= fun bb => bb <| b_env; now_ms := now |> |> in
  let '(rx, tx, x) := ios_bb_ifx_xfer mosi miso n (dv_ifx s) in
  let s := s <| dv_ifx := x |> in
  let s := if zlen rx =? 0 then s else iosbb_core now (ios_bb_input rx) s in
  (tx, iosbb_arm (now + IOS_BB_LATENCY_MS) s).

(** ** Reset, time and the UART *)

Definition iosbb_vibrator_update (s : IosBasebandState) : IosBasebandState :=
  s <| vibrator_line := ios_bb_vibrating (dv_bb s) |>.

(** SRDY goes low with the modem, whatever it was. *)
Definition iosbb_srdy_drop (s : IosBasebandState) : IosBasebandState :=
  s <| srdy_level := false |> <| frame_wanted := false |> <| srdy_log ::= fun l => l ++ [false] |>.

Definition iosbb_ctl (now : Z) (level : bool) (s : IosBasebandState) : IosBasebandState :=
  if level then s
  else
    let s := iosbb_core now ios_bb_reset s in
    let s := iosbb_vibrator_update (iosbb_disarm (s <| dv_out := [] |>)) in
    if ifx_version s =? 0 then s else iosbb_srdy_drop (s <| dv_ifx ::= ios_bb_ifx_modem_reset |>).

Definition iosbb_machine_reset (now : Z) (s : IosBasebandState) : IosBasebandState :=
  let s := iosbb_core now ios_bb_reset s in
  let s := iosbb_vibrator_update (iosbb_disarm (s <| dv_out := [] |>)) in
  if ifx_version s =? 0 then s else iosbb_srdy_drop (s <| dv_ifx := ios_bb_ifx_init (ifx_version s) (ifx_max_data s) |>).

(** The callback of the timer, which has no deadline while it runs. *)
Definition iosbb_tick_timer (now : Z) (cans : list Z) (s : IosBasebandState) : IosBasebandState :=
  let s := iosbb_disarm s in
  let s := iosbb_vibrator_update (iosbb_core now (ios_bb_tick now) s) in
  let s := if ifx_version s =? 0 then iosbb_flush cans s else iosbb_srdy_update s in
  let due := ios_bb_next_due (dv_bb s) in
  let due := if negb (zlen (dv_out s) =? 0) && ((due =? 0) || (now + IOS_BB_LATENCY_MS <? due))
             then now + IOS_BB_LATENCY_MS else due in
  if due =? 0 then s else iosbb_arm due s.

Definition iosbb_chr_write (now : Z) (buf : bytes) (s : IosBasebandState) : IosBasebandState :=
  iosbb_arm (now + IOS_BB_LATENCY_MS)
    (iosbb_core now (fun bb => ios_bb_input buf (bb <| b_env; now_ms := now |>)) s).

Definition iosbb_chr_accept_input (now : Z) (s : IosBasebandState) : IosBasebandState :=
  iosbb_arm (now + IOS_BB_LATENCY_MS) s.

(** ** The data network *)

Definition guest_ip : bytes := [10; 0; 2; 15].

(** The answer to an ARP request [buf] for the guest's address. *)
Definition arp_reply (mac buf : bytes) : bytes :=
  ztake 6 (zdrop 6 buf) ++ mac ++ ztake 8 (zdrop 12 buf) ++ [0; 2] ++ mac ++ guest_ip ++
  ztake 10 (zdrop 22 buf).

(** The handler belongs to the network interface, so there is one. *)
Definition iosbb_net_receive (now : Z) (buf : bytes) (s : IosBasebandState) : IosBasebandState :=
  match dv_nic s with
  | None => s
  | Some mac =>
      if zlen buf <? 14 then s
      else if (rd buf 12 =? 0x08) && (rd buf 13 =? 0x00) then
        iosbb_arm (now + IOS_BB_LATENCY_MS)
          (iosbb_core now (fun bb => (ios_bb_data_input (zdrop 14 buf) bb).2) s)
      else if (rd buf 12 =? 0x08) && (rd buf 13 =? 0x06) && (42 <=? zlen buf) && (rd buf 21 =? 1) &&
              bool_decide (ztake 4 (zdrop 38 buf) = guest_ip)
      then s <| frame_log ::= fun l => l ++ [arp_reply mac buf] |>
      else s
  end.

(** ** Properties

    A setter returns whether it accepted the value; [None] is a null pointer. *)

Definition no_null (value : option bytes) : bytes := default [] value.

(** The setters [STR_PROP], [BOOL_PROP] and [iosbb_prop_set_int] share: change
    the controls, then tell the core. *)
Definition iosbb_set_ctl (now : Z) (f : Ctl -> Ctl) (s : IosBasebandState) : IosBasebandState :=
  iosbb_core now (fun bb => ios_bb_changed (bb <| b_ctl ::= f |>)) s.

Definition iosbb_set_carrier (now : Z) (value : option bytes) : IosBasebandState -> IosBasebandState :=
  iosbb_set_ctl now (fun c => c <| operator_long := fit 33 (no_null value) |>).
Definition iosbb_set_mcc_mnc (now : Z) (value : option bytes) : IosBasebandState -> IosBasebandState :=
  iosbb_set_ctl now (fun c => c <| plmn := fit 7 (no_null value) |>).
Definition iosbb_set_voicemail (now : Z) (value : option bytes) : IosBasebandState -> IosBasebandState :=
  iosbb_set_ctl now (fun c => c <| voicemail := fit 24 (no_null value) |>).
Definition iosbb_set_imei (now : Z) (value : option bytes) : IosBasebandState -> IosBasebandState :=
  iosbb_set_ctl now (fun c => c <| imei := fit 16 (no_null value) |>).
Definition iosbb_set_imsi (now : Z) (value : option bytes) : IosBasebandState -> IosBasebandState :=
  iosbb_set_ctl now (fun c => c <| imsi := fit 16 (no_null value) |>).
Definition iosbb_set_iccid (now : Z) (value : option bytes) : IosBasebandState -> IosBasebandState :=
  iosbb_set_ctl now (fun c => c <| iccid := fit 21 (no_null value) |>).
Definition iosbb_set_sim_file (now : Z) (value : option bytes) : IosBasebandState -> IosBasebandState :=
  iosbb_core now (fun bb => ios_bb_changed (bb <| b_sim; sim_file := fit 1024 (no_null value) |>)).
Definition iosbb_set_registered (now : Z) (value : bool) : IosBasebandState -> IosBasebandState :=
  iosbb_set_ctl now (fun c => c <| registered := value |>).
Definition iosbb_set_sim_present (now : Z) (value : bool) : IosBasebandState -> IosBasebandState :=
  iosbb_set_ctl now (fun c => c <| sim_present := value |>).

(** The controls with an integer property; the value is cut to an [int]. *)
Inductive int_prop := SignalDbm | BatteryPercent | AnswerDelayMs.

Definition iosbb_prop_set_int (now : Z) (p : int_prop) (val : Z) : IosBasebandState -> IosBasebandState :=
  iosbb_set_ctl now (fun c =>
    match p with
    | SignalDbm => c <| signal_dbm := s32 val |>
    | BatteryPercent => c <| battery := s32 val |>
    | AnswerDelayMs => c <| answer_delay_ms := s32 val |>
    end).

(** A name or a network code: set it and register again. *)
Definition iosbb_set_operator (now : Z) (ok : bytes -> bool)
    (set : Z -> option bytes -> IosBasebandState -> IosBasebandState)
    (value : option bytes) (s : IosBasebandState) : bool * IosBasebandState :=
  match value with
  | Some v =>
      if ok v then
        (true, iosbb_arm (now + IOS_BB_LATENCY_MS) (iosbb_core now ios_bb_operator_changed (set now value s)))
      else (false, s)
  | None => (false, s)
  end.

Definition iosbb_set_carrier_reg (now : Z) : option bytes -> IosBasebandState -> bool * IosBasebandState :=
  iosbb_set_operator now ios_bb_carrier_ok iosbb_set_carrier.
Definition iosbb_set_mcc_mnc_reg (now : Z) : option bytes -> IosBasebandState -> bool * IosBasebandState :=
  iosbb_set_operator now ios_bb_plmn_ok iosbb_set_mcc_mnc.

(** Network events a user asks for; refused ones arm nothing. *)
Definition iosbb_try (now : Z) (f : IosBbCore -> bool * IosBbCore) (s : IosBasebandState)
  : bool * IosBasebandState :=
  let s' := iosbb_core now (fun bb => (f bb).2) s in
  if (f (dv_bb s)).1 then (true, iosbb_arm (now + IOS_BB_LATENCY_MS) s') else (false, s').

Definition iosbb_set_incoming_call (now : Z) (value : option bytes) (s : IosBasebandState)
  : bool * IosBasebandState :=
  match no_null value with
  | [] => (false, s)
  | number => iosbb_try now (ios_bb_incoming_call number) s
  end.

Definition iosbb_set_incoming_sms (now : Z) (value : option bytes) (s : IosBasebandState)
  : bool * IosBasebandState :=
  let v := no_null value in
  match strchr 124 v with
  | None => (false, s)
  | Some bar =>
      if (zlen bar =? zlen v) || (zlen bar <=? 1) then (false, s)
      else
        let num := ztake (Z.min (zlen v - zlen bar) 31) v in
        if negb (ios_bb_sms_sender_ok num) then (false, s)
        else iosbb_try now (ios_bb_incoming_sms num (zdrop 1 bar)) s
  end.

Definition iosbb_set_remote_answer (now : Z) (s : IosBasebandState) : IosBasebandState :=
  iosbb_arm (now + IOS_BB_LATENCY_MS) (iosbb_core now ios_bb_remote_answer s).
Definition iosbb_set_remote_hangup (now : Z) (s : IosBasebandState) : IosBasebandState :=
  iosbb_arm (now + IOS_BB_LATENCY_MS) (iosbb_core now ios_bb_remote_hangup s).

(** [parsed] is what [ios_bb_gps_set] makes of the text: refused, no fix, or the
    report of a position. *)
Definition iosbb_set_gps_fix (parsed : option (option bytes)) (s : IosBasebandState) : bool * IosBasebandState :=
  match parsed with
  | None => (false, s)
  | Some None => (true, s <| dv_bb ::= fun bb => bb <| b_gps; g_fix := false |> |>)
  | Some (Some text) =>
      (true, s <| dv_bb ::= fun bb => bb <| b_gps; g_text := text |> <| b_gps; g_fix := true |> |>)
  end.

Definition iosbb_get_last_mo_sms (s : IosBasebandState) : bytes :=
  ios_bb_last_mo_sms_number (dv_bb s) ++ str "|" ++ ios_bb_last_mo_sms_text (dv_bb s).

(** ** Start and end *)

(** [iosbb_instance_init]: the defaults of the controls. *)
Definition iosbb_instance_init (s : IosBasebandState) : IosBasebandState :=
  s <| dv_bb ::= fun bb => bb <| b_ctl ::= fun c =>
    c <| operator_long := str "Light Touch" |> <| plmn := str "00101" |>
      <| imei := str "000000001234569" |> <| imsi := str "001010000000001" |>
      <| iccid := str "89001010000000000001" |> <| signal_dbm := -59 |> <| battery := 100 |>
      <| registered := true |> <| sim_present := true |> <| lac := 0x1abf |> <| ci := 0x53f1 |>
      <| answer_delay_ms := -1 |> |> |>.

(** [iosbb_realize]; [wall_ms] is the machine's or the host's time at the clock's
    [now], [cell0] the MAC address of the interface when the network exists.
    [None] is the refusal. *)
Definition iosbb_realize (now wall_ms : Z) (cell0 : option bytes) (s : IosBasebandState)
  : option IosBasebandState :=
  if negb (ifx_version s =? 0) && ((2 <? ifx_version s) || (ifx_max_data s <=? 0)) then None
  else
    let s := if ifx_version s =? 0 then s
             else s <| dv_ifx := ios_bb_ifx_init (ifx_version s) (ifx_max_data s) |> in
    let s := iosbb_core now ios_bb_init s in
    let s := s <| dv_bb ::= fun bb => bb <| b_ctl; nitz := dv_nitz s |> |> <| dv_timer := Some None |> in
    let s := s <| dv_bb ::= fun bb => bb <| b_env; wall_offset_ms := wall_ms - now |> |> in
    Some (match cell0 with
          | Some mac => s <| dv_nic := Some mac |> <| dv_bb ::= fun bb => bb <| b_data; data_out := true |> |>
          | None => s
          end).

Definition iosbb_unrealize (s : IosBasebandState) : IosBasebandState := s <| dv_timer := None |>.
