(* ===== verification/IosSnap.v ===== *)
(** * Snapshots of the baseband device

    The [vmstate] descriptions of [src/hw/misc/ios_baseband.c]: what a snapshot
    carries, what the loading device keeps of its own, and the checks after
    loading.  [v] is the device that was saved, [t] the one that loads. *)

From Stdlib Require Import ZArith Lia String.
From stdpp Require Import base numbers list.
From S2P Require Import Prelude CLib BbState BbTx BbSim BbReg BbTick BbIfx BbRx IosDev.
Local Open Scope Z_scope.

(** ** Fields *)

(** A subsection that is only written when the flag is set. *)
Definition load_flag (v t : bool) : bool := if v then v else t.

(** [vmstate_ios_bb_call], with its subsection *)
Definition load_call (v t : IosBbCall) : IosBbCall := v <| c_emergency := load_flag (c_emergency v) (c_emergency t) |>.

Definition load_ctl (v t : Ctl) : Ctl := v <| search_ms := search_ms t |> <| nitz := nitz t |>.

(** [vmstate_ios_baseband_sim_pin]; [camp] tells whether the stream has
    [vmstate_ios_baseband_camp]. *)
Definition load_sim (camp : bool) (v t : Sim) : Sim :=
  v <| sim_file := sim_file t |> <| loci_plmn := if camp then loci_plmn v else loci_plmn t |>.

(** [vmstate_ios_baseband_xemc] and [vmstate_ios_baseband_off] *)
Definition load_at (v t : At) : At :=
  v <| colp_off := colp_off t |> <| xemc_on := load_flag (xemc_on v) (xemc_on t) |>
    <| off := load_flag (off v) (off t) |> <| power_offs := power_offs t |>
    <| xsigstr_on := xsigstr_on t |> <| xsigstr_ch := xsigstr_ch t |>
    <| ctzr_on := ctzr_on t |> <| ctzr_ch := ctzr_ch t |>.

(** [iosbb_pre_load] puts -1 where the subsection would say otherwise. *)
Definition load_reg (camp : bool) (v t : Reg) : Reg :=
  v <| camp_due_ms := if camp then camp_due_ms v else -1 |>
    <| camp_noted := if camp then camp_noted v else camp_noted t |> <| xsim_pushed := xsim_pushed t |>.

(** [vmstate_ios_baseband_vib] *)
Definition load_drv (v t : Drv) : Drv :=
  if vib_mode v =? 0 then
    v <| vib_mode := vib_mode t |> <| vib_period_ms := vib_period_ms t |> <| vib_on_ms := vib_on_ms t |>
      <| vib_start_ms := vib_start_ms t |>
  else v.

(** [vmstate_ios_baseband_gps] *)
Definition load_gps (v t : IosBbGps) : IosBbGps :=
  if g_present v then v <| g_present := g_present t |> else t.

Definition load_core (camp : bool) (v t : IosBbCore) : IosBbCore :=
  mkCore (load_ctl (b_ctl v) (b_ctl t)) (load_sim camp (b_sim v) (b_sim t)) (b_link v) (b_mux v) (b_ch v)
    (load_at (b_at v) (b_at t)) (load_reg camp (b_reg v) (b_reg t)) (load_drv (b_drv v) (b_drv t))
    ((b_call v) <| calls := zip_with load_call (calls (b_call v)) (calls (b_call t)) |>)
    ((b_sms v) <| mo_count := mo_count (b_sms t) |>)
    ((b_data v) <| data_out := data_out (b_data t) |>)
    (load_gps (b_gps v) (b_gps t)) (b_env t).

(** [vmstate_ios_baseband] and [vmstate_ios_baseband_spi] *)
Definition load_fields (camp : bool) (v t : IosBasebandState) : IosBasebandState :=
  let s := t <| dv_bb := load_core camp (dv_bb v) (dv_bb t) |> <| dv_out := dv_out v |> <| dv_timer := dv_timer v |> in
  if ifx_version v =? 0 then s
  else s <| dv_ifx; x_credits_out := x_credits_out (dv_ifx v) |> <| dv_ifx; x_txq := x_txq (dv_ifx v) |>
         <| srdy_level := srdy_level v |> <| mrdy_level := mrdy_level v |> <| frame_wanted := frame_wanted v |>.

(** ** Checks *)

(** [IOSBB_STR_OK] of an array of [size] bytes *)
Definition iosbb_str_ok (size : Z) (a : bytes) : bool := zlen (until_nul a) <? size.

(** [IOSBB_CH_OK] *)
Definition iosbb_ch_ok (c : Z) : bool := (0 <=? c) && (c <? IOS_BB_MAX_CH).

(** Every length against its buffer; [cgreg_ch], which the core never assigns, is 0. *)
Definition lengths_ok (s : IosBasebandState) : bool :=
  let bb := dv_bb s in
  (zlen (dv_out s) <=? IOS_BB_OUT_SIZE) && (zlen (dv_ifx s).(x_txq) <=? IFX_TXQ_SIZE) &&
  (h5_rxlen (b_link bb) <=? H5_RX_SIZE) && (zlen (h5_txq (b_link bb)) <=? H5_TXQ_SIZE) &&
  (zlen (h5_unacked (b_link bb)) <=? IOS_BB_H5_WINDOW) && (zlen (ip_rx (b_data bb)) <=? IP_RX_SIZE) &&
  (zlen (m_buf (muxrx (b_mux bb))) <=? MX_BUF_SIZE).

Definition channels_ok (bb : IosBbCore) : bool :=
  iosbb_ch_ok (creg_ch (b_reg bb)) && iosbb_ch_ok (xciev_ch (b_at bb)) && iosbb_ch_ok (xsim_ch (b_at bb)) &&
  iosbb_ch_ok (call_ch (b_at bb)) && iosbb_ch_ok (sms_ch (b_at bb)) && iosbb_ch_ok (temp_ch (b_drv bb)) &&
  ((g_ch (b_gps bb) =? -1) || iosbb_ch_ok (g_ch (b_gps bb))).

Definition strings_ok (bb : IosBbCore) : bool :=
  let c := b_ctl bb in
  iosbb_str_ok 33 (operator_long c) && iosbb_str_ok 17 (operator_short c) && iosbb_str_ok 7 (plmn c) &&
  iosbb_str_ok 24 (sca c) && iosbb_str_ok 24 (voicemail c) && iosbb_str_ok 16 (imei c) &&
  iosbb_str_ok 16 (imsi c) && iosbb_str_ok 21 (iccid c) && iosbb_str_ok 9 (pin (b_sim bb)) &&
  iosbb_str_ok 9 (puk (b_sim bb)) && iosbb_str_ok 7 (loci_plmn (b_sim bb)) &&
  iosbb_str_ok 32 (last_mo_num (b_sms bb)) && iosbb_str_ok 512 (last_mo_text (b_sms bb)) &&
  iosbb_str_ok 32 (last_dialed (b_call bb)).

Definition entries_ok (bb : IosBbCore) : bool :=
  forallb (fun p => zlen (p_data p) <=? 1024) (h5_unacked (b_link bb)) &&
  forallb (fun c => (ch_len c <? 600) && (rd (ch_line c) 599 =? 0)) (b_ch bb) &&
  forallb (fun c => iosbb_str_ok 32 (c_number c)) (calls (b_call bb)) &&
  forallb (fun m => iosbb_str_ok 32 (s_num m) && iosbb_str_ok 400 (s_pdu m)) (store (b_sms bb)).

(** A snapshot from before the search was modelled is camped where it says registered. *)
Definition post_load_camp (r : Reg) : Reg :=
  if camp_due_ms r =? -1 then
    let reg := (last_creg r =? 1) || (last_creg r =? 5) in
    r <| camp_due_ms := b2z reg |> <| camp_noted := reg |>
  else r.

Definition iosbb_post_load (now : Z) (s : IosBasebandState) : option IosBasebandState :=
  if lengths_ok s && channels_ok (dv_bb s) && strings_ok (dv_bb s) && entries_ok (dv_bb s) then
    Some (iosbb_vibrator_update
            (s <| dv_bb ::= fun bb => bb <| b_reg ::= post_load_camp |> <| b_env; now_ms := now |> |>))
  else None.

Definition iosbb_load (now : Z) (camp : bool) (v t : IosBasebandState) : option IosBasebandState :=
  iosbb_post_load now (load_fields camp v t).
