(* ===== verification/IosDevFacts.v ===== *)
(** * Facts about the baseband device

    The device stays within bounds through any history, and what the modem has
    to say is never left waiting without a timer or a raised SRDY. *)

From Stdlib Require Import ZArith Lia String.
From stdpp Require Import base numbers list.
From S2P Require Import Prelude CLib BbState BbTx BbSim BbCalls BbReg BbSms BbGps BbAt BbRx BbTick BbIfx BbIfxFacts.
From S2P Require Import BbWindow BbInv BbInvCmd BbInvRun IosDev.
Local Open Scope Z_scope.

(** ** Histories *)

(** A property set without a new registration. *)
Inductive setter :=
| SetVoicemail (v : option bytes)
| SetImei (v : option bytes)
| SetImsi (v : option bytes)
| SetIccid (v : option bytes)
| SetSimFile (v : option bytes)
| SetRegistered (v : bool)
| SetSimPresent (v : bool)
| SetInt (p : int_prop) (v : Z).

(** Everything that reaches the device. *)
Inductive dev_op :=
| DvMrdy (level : bool)
| DvRequest
| DvDone (unread : option bytes)
| DvXfer (mosi : option bytes) (miso : bool) (n : Z)
| DvCtl (level : bool)
| DvReset
| DvTimer (cans : list Z)
| DvWrite (buf : bytes)
| DvAccept
| DvNet (buf : bytes)
| DvCarrier (v : option bytes)
| DvMccMnc (v : option bytes)
| DvSet (p : setter)
| DvCall (v : option bytes)
| DvSms (v : option bytes)
| DvAnswer
| DvHangup
| DvGpsFix (parsed : option (option bytes)).

Definition run_setter (now : Z) (p : setter) (s : IosBasebandState) : IosBasebandState :=
  match p with
  | SetVoicemail v => iosbb_set_voicemail now v s
  | SetImei v => iosbb_set_imei now v s
  | SetImsi v => iosbb_set_imsi now v s
  | SetIccid v => iosbb_set_iccid now v s
  | SetSimFile v => iosbb_set_sim_file now v s
  | SetRegistered v => iosbb_set_registered now v s
  | SetSimPresent v => iosbb_set_sim_present now v s
  | SetInt p v => iosbb_prop_set_int now p v s
  end.

Definition run_dev (s : IosBasebandState) (e : Z * dev_op) : IosBasebandState :=
  let now := e.1 in
  match e.2 with
  | DvMrdy level => iosbb_mrdy now level s
  | DvRequest => ios_baseband_spi_request now s
  | DvDone unread => ios_baseband_spi_done now unread s
  | DvXfer mosi miso n => (ios_baseband_spi_xfer now mosi miso n s).2
  | DvCtl level => iosbb_ctl now level s
  | DvReset => iosbb_machine_reset now s
  | DvTimer cans => iosbb_tick_timer now cans s
  | DvWrite buf => iosbb_chr_write now buf s
  | DvAccept => iosbb_chr_accept_input now s
  | DvNet buf => iosbb_net_receive now buf s
  | DvCarrier v => (iosbb_set_carrier_reg now v s).2
  | DvMccMnc v => (iosbb_set_mcc_mnc_reg now v s).2
  | DvSet p => run_setter now p s
  | DvCall v => (iosbb_set_incoming_call now v s).2
  | DvSms v => (iosbb_set_incoming_sms now v s).2
  | DvAnswer => iosbb_set_remote_answer now s
  | DvHangup => iosbb_set_remote_hangup now s
  | DvGpsFix parsed => (iosbb_set_gps_fix parsed s).2
  end.

(** The wires carry octets. *)
Definition dev_op_ok (o : dev_op) : Prop :=
  match o with
  | DvXfer (Some mosi) _ _ => is_bytes mosi
  | DvWrite buf => is_bytes buf
  | _ => True
  end.

(** ** Bounds *)

Record ctl_wf (c : Ctl) : Prop := mkCtlWf {
  cw_long : zlen (operator_long c) <= 32;
  cw_short : zlen (operator_short c) <= 16;
  cw_plmn : zlen (plmn c) <= 6;
  cw_sca : zlen (sca c) <= 23;
  cw_voicemail : zlen (voicemail c) <= 23;
  cw_imei : zlen (imei c) <= 15;
  cw_imsi : zlen (imsi c) <= 15;
  cw_iccid : zlen (iccid c) <= 20
}.

(** The core within its bounds and its emissions passed on. *)
Record core_wf (bb : IosBbCore) : Prop := mkCoreWf {
  kw_bb : bb_wf bb;
  kw_ctl : ctl_wf (b_ctl bb)
}.

Record dev_wf (s : IosBasebandState) : Prop := mkDevWf {
  dw_core : core_wf (dv_bb s);
  dw_out_log : (dv_bb s).(b_env).(out_log) = [];
  dw_data_log : (dv_bb s).(b_env).(data_log) = [];
  dw_out : zlen (dv_out s) <= IOS_BB_OUT_SIZE;
  dw_txq : zlen (dv_ifx s).(x_txq) <= IFX_TXQ_SIZE
}.

Create HintDb dev.

Lemma core_wf_env f bb : core_wf bb -> core_wf (bb <| b_env ::= f |>).
Proof. intros [[] ?]. constructor; [by constructor|done]. Qed.

(** A step of the core's order keeps the bounds. *)
Lemma core_wf_evolves a b : evolves a b -> core_wf a -> core_wf b.
Proof.
  intros E [W C]. destruct (E W) as [Wb _ Hc _ _]. constructor; [done|].
  rewrite Hc. destruct C. constructor; simpl; try assumption. apply Wb.
Qed.

Lemma core_wf_reset bb : core_wf bb -> core_wf (ios_bb_reset bb).
Proof. intros [W C]. constructor; [apply reset_wf; apply W|exact C]. Qed.
#[export] Hint Resolve core_wf_env core_wf_reset : dev.

(** What [iosbb_core] does besides running the core: it only appends. *)
Lemma iosbb_out_bound now buf s : zlen (dv_out s) <= IOS_BB_OUT_SIZE -> zlen (dv_out (iosbb_out now buf s)) <= IOS_BB_OUT_SIZE.
Proof.
  intros H. unfold iosbb_out. case_match eqn:E; [done|]. simpl. rewrite zlen_app. lia.
Qed.

Lemma ifx_queue_bound buf x : zlen (x_txq x) <= IFX_TXQ_SIZE -> zlen (x_txq (ios_bb_ifx_queue buf x)) <= IFX_TXQ_SIZE.
Proof.
  intros H. unfold ios_bb_ifx_queue. case_match eqn:E; [done|]. simpl. rewrite zlen_app. lia.
Qed.

Lemma dev_wf_emit now buf s : dev_wf s -> dev_wf (iosbb_emit now buf s).
Proof.
  intros []. unfold iosbb_emit. case_match.
  - pose proof (iosbb_out_bound now buf s dw_out0) as B. revert B. unfold iosbb_out.
    case_match; intros B; constructor; simpl in *; try assumption.
  - constructor; simpl; try assumption. by apply ifx_queue_bound.
Qed.

Lemma dev_wf_data_out buf s : dev_wf s -> dev_wf (iosbb_data_out buf s).
Proof. intros []. unfold iosbb_data_out. repeat case_match; constructor; simpl; assumption. Qed.

Lemma dev_wf_fold {A} (f : IosBasebandState -> A -> IosBasebandState) l s :
  (forall s a, dev_wf s -> dev_wf (f s a)) -> dev_wf s -> dev_wf (fold_left f l s).
Proof. intros H. revert s. induction l; simpl; auto. Qed.

Lemma dev_wf_core now f s : core_wf (f (dv_bb s)) -> dev_wf s -> dev_wf (iosbb_core now f s).
Proof.
  intros C []. unfold iosbb_core.
  apply dev_wf_fold; [intros; by apply dev_wf_data_out|].
  apply dev_wf_fold; [intros; by apply dev_wf_emit|].
  constructor; simpl; try assumption; try reflexivity. by apply core_wf_env, core_wf_env.
Qed.

Lemma dev_wf_arm t s : dev_wf s -> dev_wf (iosbb_arm t s).
Proof. intros []. by constructor. Qed.

Lemma dev_wf_disarm s : dev_wf s -> dev_wf (iosbb_disarm s).
Proof. intros []. by constructor. Qed.

Lemma dev_wf_set_srdy level s : dev_wf s -> dev_wf (iosbb_set_srdy level s).
Proof. intros []. unfold iosbb_set_srdy. repeat case_match; by constructor. Qed.

Lemma dev_wf_srdy_update s : dev_wf s -> dev_wf (iosbb_srdy_update s).
Proof. intros W. unfold iosbb_srdy_update. repeat case_match; auto using dev_wf_set_srdy. Qed.

Lemma dev_wf_vibrator s : dev_wf s -> dev_wf (iosbb_vibrator_update s).
Proof. intros []. by constructor. Qed.

Lemma dev_wf_flush cans s : dev_wf s -> dev_wf (iosbb_flush cans s).
Proof.
  revert s. induction cans as [|can cans IH]; intros s W; simpl; repeat case_match; try done.
  apply IH. destruct W. constructor; simpl; try assumption.
  rewrite zlen_zdrop. match goal with H : dv_out s = _ |- _ => rewrite <- H end.
  unfold IOS_BB_OUT_SIZE in *. lia.
Qed.

Lemma dev_wf_txq f s :
  zlen (x_txq (f (dv_ifx s))) <= IFX_TXQ_SIZE -> dev_wf s -> dev_wf (s <| dv_ifx ::= f |>).
Proof. intros H []. by constructor. Qed.

Lemma dev_wf_srdy_drop s : dev_wf s -> dev_wf (iosbb_srdy_drop s).
Proof. intros []. by constructor. Qed.

Lemma dev_wf_no_out s : dev_wf s -> dev_wf (s <| dv_out := [] |>).
Proof. intros []. constructor; simpl; try assumption. by vm_compute. Qed.
#[export] Hint Resolve dev_wf_arm dev_wf_disarm dev_wf_set_srdy dev_wf_srdy_update dev_wf_vibrator
  dev_wf_flush dev_wf_srdy_drop dev_wf_no_out : dev.

Lemma ifx_rx_txq mosi x : x_txq (ifx_rx mosi x).2 = x_txq x.
Proof. unfold ifx_rx. by repeat case_match. Qed.

Lemma ifx_rx_bytes mosi x : is_bytes mosi -> is_bytes (ifx_rx mosi x).1.
Proof.
  intros H. unfold ifx_rx. case_match; [|constructor]. cbn [fst]. unfold ztake, zdrop.
  by apply Forall_take, Forall_drop.
Qed.

Lemma ifx_tx_shrinks n x : zlen (x_txq (ifx_tx n x).2) <= zlen (x_txq x).
Proof.
  unfold ifx_tx. case_match; [done|]. cbn [snd]. pose proof (zlen_nonneg (x_txq x)).
  simpl. rewrite zlen_zdrop. destruct ((x_version x =? 2) && _); simpl; lia.
Qed.

(** A transfer takes octets in and never lengthens the queue. *)
Lemma ifx_xfer_bounds mosi miso n x rx tx x' :
  ios_bb_ifx_xfer mosi miso n x = (rx, tx, x') ->
  zlen (x_txq x') <= zlen (x_txq x) /\ (from_option is_bytes True mosi -> is_bytes rx).
Proof.
  unfold ios_bb_ifx_xfer. intros H.
  set (p := match mosi with Some m => ifx_rx (ztake n m) x | None => ([], x) end) in H.
  assert (Hp : x_txq p.2 = x_txq x /\ (from_option is_bytes True mosi -> is_bytes p.1)).
  { unfold p. destruct mosi as [m|]; [|split; [done|constructor]].
    split; [apply ifx_rx_txq|]. intros B. by apply ifx_rx_bytes, Forall_take. }
  destruct p as [r y]. simpl in Hp. destruct Hp as [E B]. destruct miso.
  - pose proof (ifx_tx_shrinks n y) as S. destruct (ifx_tx n y) as [t z]. simplify_eq.
    simpl in S. rewrite E in S. done.
  - simplify_eq. rewrite E. done.
Qed.

Lemma ifx_unsent_bound miso x :
  zlen (x_txq x) <= IFX_TXQ_SIZE -> zlen (x_txq (ios_bb_ifx_unsent miso x)) <= IFX_TXQ_SIZE.
Proof.
  intros H. unfold ios_bb_ifx_unsent.
  set (len := Z.lor _ _). destruct ((len =? 0) || _ || _) eqn:E; [done|]. bool_hyps.
  assert (zlen (ztake len (zdrop IOS_BB_IFX_HDR miso) ++ x_txq x) <= IFX_TXQ_SIZE).
  { rewrite zlen_app, zlen_ztake. pose proof (zlen_nonneg (x_txq x)). lia. }
  by case_match.
Qed.

(** Controls set through a property are cut to their arrays. *)
Lemma core_wf_set_ctl f bb : (ctl_wf (b_ctl bb) -> ctl_wf (f (b_ctl bb))) ->
  core_wf bb -> core_wf (ios_bb_changed (bb <| b_ctl ::= f |>)).
Proof.
  intros H [W C]. apply (core_wf_evolves (bb <| b_ctl ::= f |>)); [apply ev_ios_bb_changed|].
  constructor; [|by apply H]. apply (set_ctl_wf (f (b_ctl bb)) bb); [by apply H|done].
Qed.

Lemma core_wf_sim_file v bb : core_wf bb -> core_wf (ios_bb_changed (bb <| b_sim; sim_file := v |>)).
Proof.
  intros [[] C]. eapply core_wf_evolves; [apply ev_ios_bb_changed|]. constructor; [|done].
  constructor; simpl; try assumption. destruct w_sim. by constructor.
Qed.

Lemma dev_wf_set_ctl now f s :
  (ctl_wf (b_ctl (dv_bb s)) -> ctl_wf (f (b_ctl (dv_bb s)))) -> dev_wf s -> dev_wf (iosbb_set_ctl now f s).
Proof. intros H W. apply dev_wf_core; [|done]. apply core_wf_set_ctl; [exact H|apply W]. Qed.

Lemma dev_wf_setter now p s : dev_wf s -> dev_wf (run_setter now p s).
Proof.
  intros W. destruct p; cbn [run_setter].
  5: { apply dev_wf_core; [|done]. apply core_wf_sim_file, W. }
  all: apply dev_wf_set_ctl; [intros []|exact W].
  7: destruct p.
  all: constructor; try assumption.
  - apply (zlen_fit 24). lia.
  - apply (zlen_fit 16). lia.
  - apply (zlen_fit 16). lia.
  - apply (zlen_fit 21). lia.
Qed.

Lemma dev_wf_step now f s : evolves (dv_bb s) (f (dv_bb s)) -> dev_wf s -> dev_wf (iosbb_core now f s).
Proof. intros E W. apply dev_wf_core; [|done]. eapply core_wf_evolves; [exact E|apply W]. Qed.

Lemma dev_wf_core_reset now s : dev_wf s -> dev_wf (iosbb_core now ios_bb_reset s).
Proof. intros W. apply dev_wf_core; [|done]. apply core_wf_reset, W. Qed.
#[export] Hint Resolve dev_wf_core_reset : dev.

Lemma dev_wf_try now f s :
  evolves (dv_bb s) (f (dv_bb s)).2 -> dev_wf s -> dev_wf (iosbb_try now f s).2.
Proof.
  intros E W. unfold iosbb_try.
  assert (dev_wf (iosbb_core now (fun bb => (f bb).2) s)) by by apply dev_wf_step.
  destruct (f (dv_bb s)).1; cbn [snd]; auto with dev.
Qed.

Lemma dev_wf_operator now ok set value s :
  (forall v s, dev_wf s -> dev_wf (set now v s)) -> dev_wf s -> dev_wf (iosbb_set_operator now ok set value s).2.
Proof.
  intros H W. unfold iosbb_set_operator. repeat case_match; try done.
  apply dev_wf_arm, dev_wf_step; [apply ev_ios_bb_operator_changed|auto].
Qed.

Lemma dev_wf_xfer now mosi miso n s :
  from_option is_bytes True mosi -> dev_wf s -> dev_wf (ios_baseband_spi_xfer now mosi miso n s).2.
Proof.
  intros B W. unfold ios_baseband_spi_xfer.
  set (s1 := s <| dv_bb ::= _ |>).
  assert (W1 : dev_wf s1) by (destruct W; constructor; try assumption; by apply core_wf_env).
  destruct (ios_bb_ifx_xfer mosi miso n (dv_ifx s1)) as [[rx tx] x'] eqn:E.
  destruct (ifx_xfer_bounds _ _ _ _ _ _ _ E) as [Q R].
  assert (W2 : dev_wf (s1 <| dv_ifx := x' |>)).
  { apply (dev_wf_txq (fun _ => x')); [|done]. pose proof (dw_txq _ W1). lia. }
  cbn [snd]. apply dev_wf_arm. case_match; [done|].
  apply dev_wf_step; [|done]. by apply ev_ios_bb_input, R.
Qed.

Lemma dev_wf_reset now s x' :
  zlen (x_txq x') <= IFX_TXQ_SIZE -> dev_wf s ->
  let s1 := iosbb_vibrator_update (iosbb_disarm ((iosbb_core now ios_bb_reset s) <| dv_out := [] |>)) in
  dev_wf s1 /\ dev_wf (iosbb_srdy_drop (s1 <| dv_ifx := x' |>)).
Proof.
  intros H W s1. assert (dev_wf s1) by (unfold s1; auto with dev). split; [done|].
  apply dev_wf_srdy_drop, (dev_wf_txq (fun _ => x')); done.
Qed.

Lemma dev_wf_tick now cans s : dev_wf s -> dev_wf (iosbb_tick_timer now cans s).
Proof.
  intros W. unfold iosbb_tick_timer.
  assert (dev_wf (iosbb_vibrator_update (iosbb_core now (ios_bb_tick now) (iosbb_disarm s)))).
  { apply dev_wf_vibrator, dev_wf_step; [apply ev_ios_bb_tick|auto with dev]. }
  repeat case_match; auto with dev.
Qed.

Lemma dev_wf_net now buf s : dev_wf s -> dev_wf (iosbb_net_receive now buf s).
Proof.
  intros W. unfold iosbb_net_receive. repeat case_match; try done.
  - apply dev_wf_arm, dev_wf_step; [apply ev_ios_bb_data_input|done].
  - destruct W. by constructor.
Qed.

Lemma dev_wf_sms now v s : dev_wf s -> dev_wf (iosbb_set_incoming_sms now v s).2.
Proof.
  intros W. unfold iosbb_set_incoming_sms. repeat case_match; try done.
  apply dev_wf_try; [apply ev_ios_bb_incoming_sms|done].
Qed.

Lemma dev_wf_call now v s : dev_wf s -> dev_wf (iosbb_set_incoming_call now v s).2.
Proof.
  intros W. unfold iosbb_set_incoming_call. case_match; [done|].
  apply dev_wf_try; [apply ev_ios_bb_incoming_call|done].
Qed.

Lemma dev_wf_gps parsed s : dev_wf s -> dev_wf (iosbb_set_gps_fix parsed s).2.
Proof.
  intros [[[] C]]. destruct parsed as [[]|]; constructor; simpl; try assumption;
  (constructor; [|done]); constructor; simpl; assumption.
Qed.
#[export] Hint Resolve dev_wf_tick dev_wf_net dev_wf_sms dev_wf_call dev_wf_gps dev_wf_setter : dev.

Lemma dev_wf_run e s : dev_op_ok e.2 -> dev_wf s -> dev_wf (run_dev s e).
Proof.
  destruct e as [now o]. intros Ho W. unfold run_dev. cbn [fst snd] in *. destruct o; auto with dev.
  - apply dev_wf_arm, dev_wf_set_srdy. destruct W. by constructor.
  - apply dev_wf_arm. destruct W. by constructor.
  - apply dev_wf_arm, dev_wf_set_srdy. assert (dev_wf (s <| frame_wanted := false |>)) by (destruct W; by constructor).
    case_match; [|done]. apply dev_wf_txq; [|done]. apply ifx_unsent_bound, W.
  - apply dev_wf_xfer; [|done]. by destruct mosi.
  - unfold iosbb_ctl. destruct level; [done|].
    case_match; [by apply (dev_wf_reset now s (dv_ifx s)); [apply W|]|].
    apply dev_wf_srdy_drop, dev_wf_txq; [simpl; by vm_compute|].
    apply (dev_wf_reset now s (dv_ifx s)); [apply W|done].
  - unfold iosbb_machine_reset.
    case_match; [by apply (dev_wf_reset now s (dv_ifx s)); [apply W|]|].
    apply (dev_wf_reset now s); [by vm_compute|done].
  - apply dev_wf_arm, dev_wf_step; [|done]. transitivity ((dv_bb s) <| b_env; now_ms := now |>); [ev|by apply ev_ios_bb_input].
  - by apply dev_wf_arm.
  - apply dev_wf_operator; [|done]. intros v' s' W'. apply dev_wf_set_ctl; [|done].
    intros []. constructor; try assumption. apply (zlen_fit 33). lia.
  - apply dev_wf_operator; [|done]. intros v' s' W'. apply dev_wf_set_ctl; [|done].
    intros []. constructor; try assumption. apply (zlen_fit 7). lia.
  - apply dev_wf_arm, dev_wf_step; [apply ev_ios_bb_remote_answer|done].
  - apply dev_wf_arm, dev_wf_step; [apply ev_ios_bb_remote_hangup|done].
Qed.

Lemma dev_wf_runs es s : Forall (fun e => dev_op_ok e.2) es -> dev_wf s -> dev_wf (fold_left run_dev es s).
Proof. intros H. revert s. induction H; intros s W; simpl; [done|]. by apply IHForall, dev_wf_run. Qed.
