(* ===== verification/IosWakeFacts.v ===== *)
(** * The device never leaves the modem's output waiting

    Bytes for the UART always have a timer behind them; on SPI a pending frame
    has SRDY up or a timer that raises it. *)

From Stdlib Require Import ZArith Lia String.
From stdpp Require Import base numbers list.
From S2P Require Import Prelude CLib BbState BbTx BbSim BbCalls BbReg BbSms BbGps BbAt BbRx BbTick BbIfx.
From S2P Require Import BbTxFacts BbInv BbInvRun BbTickFacts IosDev IosDevFacts.
Local Open Scope Z_scope.

Definition has_timer (s : IosBasebandState) : Prop := dv_timer s <> None.
Definition armed (s : IosBasebandState) : Prop := exists t, dv_timer s = Some (Some t).

(** Something is left for the other side: bytes for the UART; on SPI bytes of
    the modem, or a frame the AP started while the modem is on. *)
Definition waiting (s : IosBasebandState) : bool :=
  if ifx_version s =? 0 then negb (zlen (dv_out s) =? 0)
  else ios_bb_ifx_pending (dv_ifx s) || (frame_wanted s && negb (dv_bb s).(b_at).(off)).

(** Then someone will come back to it. *)
Definition attended (s : IosBasebandState) : Prop :=
  waiting s = true -> armed s \/ (ifx_version s <> 0 /\ srdy_level s = true).

(** ** Passing on what the core emitted *)

Record passed (s s' : IosBasebandState) : Prop := mkPassed {
  ps_bb : dv_bb s' = dv_bb s;
  ps_version : ifx_version s' = ifx_version s;
  ps_srdy : srdy_level s' = srdy_level s;
  ps_mrdy : mrdy_level s' = mrdy_level s;
  ps_wanted : frame_wanted s' = frame_wanted s;
  ps_ready : spi_ready s' = spi_ready s;
  ps_log : srdy_log s' = srdy_log s;
  ps_calls : ready_calls s' = ready_calls s;
  ps_pending : ios_bb_ifx_pending (dv_ifx s) = true -> ios_bb_ifx_pending (dv_ifx s') = true;
  ps_timer : has_timer s -> has_timer s';
  ps_armed : armed s -> armed s';
  ps_out : has_timer s -> ifx_version s = 0 -> dv_out s' = dv_out s \/ armed s'
}.

#[global] Instance passed_preorder : PreOrder passed.
Proof.
  split.
  - intros s. constructor; auto.
  - intros a b c [] []. constructor; try congruence; auto. intros T V.
    destruct (ps_out1 (ps_timer0 T)) as [E|E]; [congruence| |by right].
    destruct (ps_out0 T V) as [E'|E']; [left; congruence|right; auto].
Qed.

Lemma has_timer_armed t s : has_timer s -> armed (iosbb_arm t s).
Proof. unfold has_timer, armed. simpl. destruct (dv_timer s) as [o|]; [by eexists|done]. Qed.

Lemma pending_queue buf x : ios_bb_ifx_pending x = true -> ios_bb_ifx_pending (ios_bb_ifx_queue buf x) = true.
Proof.
  unfold ios_bb_ifx_pending, ios_bb_ifx_queue. case_match; [done|]. simpl. rewrite zlen_app.
  pose proof (zlen_nonneg buf). pose proof (zlen_nonneg (x_txq x)). rewrite !negb_true_iff, !Z.eqb_neq. lia.
Qed.

Lemma passed_arm t s : passed s (iosbb_arm t s).
Proof.
  constructor; auto.
  - unfold has_timer. simpl. by destruct (dv_timer s).
  - intros [t' E]. apply has_timer_armed. unfold has_timer. by rewrite E.
Qed.

Lemma passed_emit now buf s : passed s (iosbb_emit now buf s).
Proof.
  unfold iosbb_emit. destruct (Z.eqb_spec (ifx_version s) 0) as [V|V].
  - unfold iosbb_out. case_match; [reflexivity|].
    constructor; auto; unfold has_timer, armed; simpl; destruct (dv_timer s); try done; eauto.
  - constructor; auto; try done. apply pending_queue.
Qed.

Lemma passed_data_out buf s : passed s (iosbb_data_out buf s).
Proof. unfold iosbb_data_out. repeat case_match; try reflexivity. constructor; auto. Qed.

Lemma passed_fold {A} (f : IosBasebandState -> A -> IosBasebandState) l s :
  (forall s a, passed s (f s a)) -> passed s (fold_left f l s).
Proof. intros H. revert s. induction l; intros s; simpl; [reflexivity|]. etransitivity; [apply H|done]. Qed.

(** The device with the core run and its logs taken. *)
Definition ran (f : IosBbCore -> IosBbCore) (s : IosBasebandState) : IosBasebandState :=
  s <| dv_bb := (f (dv_bb s)) <| b_env; out_log := [] |> <| b_env; data_log := [] |> |>.

Lemma passed_core now f s : passed (ran f s) (iosbb_core now f s).
Proof.
  unfold iosbb_core. etransitivity; [|apply passed_fold; intros; apply passed_data_out].
  apply passed_fold. intros. apply passed_emit.
Qed.

Lemma core_timer now f s : has_timer s -> has_timer (iosbb_core now f s).
Proof. exact (ps_timer _ _ (passed_core now f s)). Qed.

(** ** Operations *)

Lemma attended_armed s : armed s -> attended s.
Proof. intros A _. by left. Qed.

(** The fields that matter are unchanged. *)
Lemma attended_same s s' :
  dv_timer s' = dv_timer s -> ifx_version s' = ifx_version s -> dv_out s' = dv_out s -> dv_ifx s' = dv_ifx s ->
  frame_wanted s' = frame_wanted s -> off (b_at (dv_bb s')) = off (b_at (dv_bb s)) -> srdy_level s' = srdy_level s ->
  attended s -> attended s'.
Proof.
  intros E1 E2 E3 E4 E5 E6 E7 A. unfold attended, waiting, armed in *. by rewrite E1, E2, E3, E4, E5, E6, E7.
Qed.

Lemma set_srdy_fields level s :
  let s' := iosbb_set_srdy level s in
  srdy_level s' = level /\ dv_timer s' = dv_timer s /\ ifx_version s' = ifx_version s /\ dv_bb s' = dv_bb s /\
  dv_out s' = dv_out s /\ dv_ifx s' = dv_ifx s /\ frame_wanted s' = frame_wanted s.
Proof.
  cbv zeta. unfold iosbb_set_srdy. destruct (Bool.eqb level (srdy_level s)) eqn:E.
  - apply Bool.eqb_prop in E. by subst.
  - by case_match.
Qed.

(** A core that refused an event did not move. *)
Lemma incoming_call_refused number bb : (ios_bb_incoming_call number bb).1 = false -> (ios_bb_incoming_call number bb).2 = bb.
Proof.
  unfold ios_bb_incoming_call. case_match; [done|]. unfold call_new.
  repeat case_match; simplify_eq; done.
Qed.

Lemma incoming_sms_refused number text bb :
  (ios_bb_incoming_sms number text bb).1 = false -> (ios_bb_incoming_sms number text bb).2 = bb.
Proof. unfold ios_bb_incoming_sms. by repeat case_match. Qed.

Lemma core_idle now f s : f (dv_bb s) = dv_bb s -> dev_wf s -> iosbb_core now f s = s.
Proof.
  intros E W. unfold iosbb_core. rewrite E, (dw_out_log _ W), (dw_data_log _ W). cbn [fold_left].
  pose proof (dw_out_log _ W) as L. pose proof (dw_data_log _ W) as D.
  destruct s as [[? ? ? ? ? ? ? ? ? ? ? ? []]]. cbn in *. by rewrite L, D.
Qed.

Lemma attended_try now f s :
  ((f (dv_bb s)).1 = false -> (f (dv_bb s)).2 = dv_bb s) -> dev_wf s -> has_timer s -> attended s ->
  attended (iosbb_try now f s).2.
Proof.
  intros R W T A. unfold iosbb_try. destruct (f (dv_bb s)).1 eqn:E; cbn [snd].
  - by apply attended_armed, has_timer_armed, core_timer.
  - rewrite core_idle; auto.
Qed.

(** On the UART, whatever the core emits arms the timer. *)
Lemma attended_core_uart now f s : ifx_version s = 0 -> has_timer s -> attended s -> attended (iosbb_core now f s).
Proof.
  intros V T A. pose proof (passed_core now f s) as P.
  destruct (ps_out _ _ P T V) as [E|E]; [|by apply attended_armed].
  intros Wt. left. apply (ps_armed _ _ P). unfold waiting in Wt. rewrite (ps_version _ _ P), E in Wt.
  change (ifx_version (ran f s)) with (ifx_version s) in Wt. change (dv_out (ran f s)) with (dv_out s) in Wt.
  assert (waiting s = true) as Ws by (unfold waiting; by rewrite V in * ).
  destruct (A Ws) as [[t H]|[]]; [by exists t|done].
Qed.

(** ** The timer *)

Lemma tick_at now bb : b_at (ios_bb_tick now bb) = b_at bb.
Proof.
  unfold ios_bb_tick. cbv zeta. destruct (off _); [done|].
  set (b0 := upd b_env _ bb). change (b_at bb) with (b_at b0). clearbody b0.
  set (b1 := tick_xsim now (tick_temp now (tick_reg now (tick_reg_check now (camp_update b0))))).
  assert (b_at b1 = b_at b0) as <-.
  { unfold b1. rewrite (proj1 (view_reg_calls _ _ (tick_xsim_view now _))).
    rewrite (proj1 (view_temp_calls _ _ (tick_temp_view now _))).
    rewrite (proj1 (view_reg_calls _ _ (tick_reg_view now _))).
    rewrite (proj1 (view_reg_calls _ _ (tick_reg_check_view now _))).
    by rewrite (proj1 (view_reg_calls _ _ (camp_update_view _))). }
  clearbody b1. destruct (view_call_inv _ _ (tick_calls_view now b1)) as (_ & _ & _ & E & _).
  rewrite <- E. generalize (tick_calls now b1). intros b2.
  rewrite <- (tx_at _ _ (tick_h5_tx now b2)). generalize (tick_h5 now b2). intros b3.
  unfold tick_gps. destruct (ios_bb_gps_poll _ _) as [g [[ch line]|]]; [|done]. case_match; [|done].
  by rewrite (tx_at _ _ (chan_write_tx _ _ _)).
Qed.

(** The state of the handshake when the timer's callback decides on SRDY. *)
Definition ticked (now : Z) (s : IosBasebandState) : IosBasebandState :=
  iosbb_vibrator_update (iosbb_core now (ios_bb_tick now) (iosbb_disarm s)).

Lemma ticked_passed now s : passed (ran (ios_bb_tick now) (iosbb_disarm s)) (ticked now s).
Proof. etransitivity; [apply passed_core|]. constructor; auto. Qed.

Lemma ticked_off now s : off (b_at (dv_bb (ticked now s))) = off (b_at (dv_bb s)).
Proof. rewrite (ps_bb _ _ (ticked_passed now s)). exact (f_equal off (tick_at now (dv_bb s))). Qed.

(** What the decision amounts to. *)
Definition srdy_due (s : IosBasebandState) : bool :=
  ios_bb_ifx_pending (dv_ifx s) ||
  ((mrdy_level s || frame_wanted s) && negb (dv_bb s).(b_at).(off)).

Lemma srdy_update_spec s :
  srdy_level (iosbb_srdy_update s) = srdy_level s || srdy_due s /\
  iosbb_srdy_update s = (if srdy_due s then iosbb_set_srdy true s else s).
Proof.
  unfold iosbb_srdy_update, srdy_due.
  destruct (off _), (ios_bb_ifx_pending _), (mrdy_level s), (frame_wanted s), (srdy_level s) eqn:E; simpl;
    unfold iosbb_set_srdy; rewrite ?E; simpl; rewrite ?E; try done; by case_match.
Qed.

Lemma tick_spi now cans s :
  ifx_version s <> 0 ->
  exists t, iosbb_tick_timer now cans s = (iosbb_srdy_update (ticked now s)) <| dv_timer := t |>.
Proof.
  intros V. unfold iosbb_tick_timer. fold (ticked now s).
  rewrite (ps_version _ _ (ticked_passed now s)).
  change (ifx_version (ran _ _)) with (ifx_version s). rewrite (proj2 (Z.eqb_neq _ _) V).
  cbv zeta. destruct (_ =? 0); [|by eexists].
  exists (dv_timer (iosbb_srdy_update (ticked now s))). by destruct (iosbb_srdy_update (ticked now s)).
Qed.

Lemma tick_uart now cans s :
  0 <= now -> ifx_version s = 0 -> has_timer s -> attended (iosbb_tick_timer now cans s).
Proof.
  intros N V T. unfold iosbb_tick_timer. fold (ticked now s).
  rewrite (ps_version _ _ (ticked_passed now s)). change (ifx_version (ran _ _)) with (ifx_version s).
  rewrite V. cbn [Z.eqb]. cbv zeta. set (s1 := iosbb_flush cans (ticked now s)).
  assert (F : has_timer s1 /\ ifx_version s1 = 0).
  { unfold s1. assert (has_timer (ticked now s) /\ ifx_version (ticked now s) = 0) as H.
    { split; [|by rewrite (ps_version _ _ (ticked_passed now s))].
      apply (ps_timer _ _ (ticked_passed now s)). revert T. unfold has_timer. simpl. by destruct (dv_timer s). }
    revert H. generalize (ticked now s). clear. induction cans as [|c cans IH]; intros s H; simpl; repeat case_match; auto. }
  destruct F as [T1 V1]. unfold IOS_BB_LATENCY_MS. case_match eqn:E; [|by apply attended_armed, has_timer_armed].
  intros W. exfalso. unfold waiting in W. rewrite V1 in W. cbn [Z.eqb] in W. revert E. rewrite W. cbn [andb].
  destruct (_ || _) eqn:O; rewrite Z.eqb_eq; [lia|]. intros E0. rewrite E0 in O. done.
Qed.

Lemma tick_attended now cans s : 0 <= now -> has_timer s -> attended (iosbb_tick_timer now cans s).
Proof.
  intros N T. destruct (Z.eq_dec (ifx_version s) 0) as [V|V]; [by apply tick_uart|].
  destruct (tick_spi now cans s V) as [t E]. rewrite E. set (s1 := ticked now s).
  assert (V1 : ifx_version s1 <> 0) by (unfold s1; by rewrite (ps_version _ _ (ticked_passed now s))).
  clearbody s1. intros W. right. destruct (srdy_update_spec s1) as [L U].
  assert (F : ifx_version (iosbb_srdy_update s1) = ifx_version s1 /\ dv_ifx (iosbb_srdy_update s1) = dv_ifx s1 /\
              frame_wanted (iosbb_srdy_update s1) = frame_wanted s1 /\ dv_bb (iosbb_srdy_update s1) = dv_bb s1).
  { rewrite U. destruct (srdy_due s1); [|done]. by destruct (set_srdy_fields true s1) as (? & ? & ? & ? & ? & ? & ?). }
  destruct F as (F1 & F2 & F3 & F4). unfold waiting in W. simpl in *. rewrite F1, F2, F3, F4 in W.
  rewrite (proj2 (Z.eqb_neq _ _) V1) in W. rewrite F1, L. split; [done|].
  unfold srdy_due. destruct (ios_bb_ifx_pending (dv_ifx s1)); [apply orb_true_r|]. cbn [orb] in W.
  apply andb_prop in W as [-> ->]. by rewrite !orb_true_r.
Qed.

(** ** Histories *)

(** Time is not negative, and the wires carry octets. *)
Definition wake_ok (e : Z * dev_op) : Prop := 0 <= e.1 /\ dev_op_ok e.2.

(** The events after which the device looks after its output whatever it did
    before: they end by arming the timer, decide on SRDY, or leave no output. *)
Definition rouses (o : dev_op) : bool :=
  match o with
  | DvMrdy _ | DvRequest | DvDone _ | DvXfer _ _ _ | DvCtl false | DvReset | DvTimer _ | DvWrite _ | DvAccept
  | DvAnswer | DvHangup => true
  | _ => false
  end.

(** Whether a history leaves the device looking after its output: on SPI a property
    that is only told to the core undoes it until the next of those events. *)
Definition core_only (o : dev_op) : bool := match o with DvSet _ => true | _ => false end.
Definition told_step (version : Z) (t : bool) (e : Z * dev_op) : bool :=
  if core_only e.2 then t && (version =? 0) else t || rouses e.2.
Definition told (version : Z) (es : list (Z * dev_op)) : bool := fold_left (told_step version) es true.

Record wake_inv (version : Z) (t : bool) (s : IosBasebandState) : Prop := mkWake {
  wk_wf : dev_wf s;
  wk_version : ifx_version s = version;
  wk_timer : has_timer s;
  wk_attended : t = true -> attended s
}.

Lemma core_version now f s : ifx_version (iosbb_core now f s) = ifx_version s.
Proof. exact (ps_version _ _ (passed_core now f s)). Qed.

Lemma setter_core now p s : exists f, run_setter now p s = iosbb_core now f s.
Proof. destruct p; by eexists. Qed.

(** A device whose reset left nothing behind. *)
Lemma attended_reset s1 x' :
  dv_out s1 = [] -> x_txq x' = [] ->
  attended (if ifx_version s1 =? 0 then s1 else iosbb_srdy_drop (s1 <| dv_ifx := x' |>)).
Proof.
  intros O X W. exfalso. destruct (ifx_version s1 =? 0) eqn:V; revert W; unfold waiting.
  - by rewrite V, O.
  - simpl. rewrite V. unfold ios_bb_ifx_pending. by rewrite X.
Qed.

Lemma timer_arm t s : has_timer s -> has_timer (iosbb_arm t s).
Proof. unfold has_timer. simpl. by destruct (dv_timer s). Qed.

Lemma timer_disarm s : has_timer s -> has_timer (iosbb_disarm s).
Proof. unfold has_timer. simpl. by destruct (dv_timer s). Qed.

Lemma timer_set_srdy level s : has_timer s -> has_timer (iosbb_set_srdy level s).
Proof. unfold has_timer. destruct (set_srdy_fields level s) as (_ & -> & _). done. Qed.

(** The state that carries a version and a timer through an operation. *)
Definition kept (s s' : IosBasebandState) : Prop :=
  ifx_version s' = ifx_version s /\ (has_timer s -> has_timer s').

Lemma kept_trans a b c : kept a b -> kept b c -> kept a c.
Proof. unfold kept. intros [] []. split; [congruence|auto]. Qed.

Lemma kept_arm t s : kept s (iosbb_arm t s).
Proof. split; [done|apply timer_arm]. Qed.

Lemma kept_core now f s : kept s (iosbb_core now f s).
Proof. split; [apply core_version|apply core_timer]. Qed.

Lemma kept_set_srdy level s : kept s (iosbb_set_srdy level s).
Proof. split; [|apply timer_set_srdy]. by destruct (set_srdy_fields level s) as (_ & _ & -> & _). Qed.

Lemma kept_tick now cans s : kept s (iosbb_tick_timer now cans s).
Proof.
  apply kept_trans with (ticked now s).
  { split; [by rewrite (ps_version _ _ (ticked_passed now s))|]. intros T.
    apply (ps_timer _ _ (ticked_passed now s)), timer_disarm, T. }
  unfold iosbb_tick_timer. fold (ticked now s). generalize (ticked now s). clear. intros s. cbv zeta.
  set (s1 := if ifx_version s =? 0 then iosbb_flush cans s else iosbb_srdy_update s).
  apply kept_trans with s1; [|case_match; [by split|apply kept_arm]]. unfold s1. case_match.
  - generalize s. clear. induction cans as [|c cans IH]; intros s; simpl; repeat case_match; try by split.
    eapply kept_trans; [|apply IH]. by split.
  - rewrite (proj2 (srdy_update_spec s)). case_match; [apply kept_set_srdy|by split].
Qed.

Lemma kept_reset now s x' :
  let s1 := iosbb_vibrator_update (iosbb_disarm ((iosbb_core now ios_bb_reset s) <| dv_out := [] |>)) in
  kept s s1 /\ kept s (iosbb_srdy_drop (s1 <| dv_ifx := x' |>)).
Proof.
  cbv zeta. destruct (kept_core now ios_bb_reset s) as [V T]. split; (split; [exact V|]); intros H; exact (timer_disarm _ (T H)).
Qed.

(** What an operation does to the attention: restores it if it [r]ouses, and
    keeps it in any case. *)
Definition outcome (r : bool) (s s' : IosBasebandState) : Prop :=
  kept s s' /\ (r = true -> attended s') /\ (attended s -> attended s').

Lemma outcome_same s : outcome false s s.
Proof. by split_and!. Qed.

(** Every operation that ends by arming the timer is attended to. *)
Lemma outcome_arm r t s s' : kept s s' -> has_timer s -> outcome r s (iosbb_arm t s').
Proof.
  intros K T. assert (attended (iosbb_arm t s')) by (by apply attended_armed, has_timer_armed, K).
  split_and!; [by apply (kept_trans s s'); [|apply kept_arm]|done|done].
Qed.

Lemma outcome_try now f s :
  ((f (dv_bb s)).1 = false -> (f (dv_bb s)).2 = dv_bb s) -> dev_wf s -> has_timer s ->
  outcome false s (iosbb_try now f s).2.
Proof.
  intros R W T. split; [|split; [done|by apply attended_try]]. unfold iosbb_try.
  destruct (f (dv_bb s)).1; cbn [snd]; [|apply kept_core].
  eapply kept_trans; [apply kept_core|apply kept_arm].
Qed.

Lemma outcome_operator now ok set value s :
  (forall v, exists f, set now v s = iosbb_core now f s) -> has_timer s ->
  outcome false s (iosbb_set_operator now ok set value s).2.
Proof.
  intros C T. unfold iosbb_set_operator. destruct value as [v|]; [|apply outcome_same].
  destruct (ok v); [|apply outcome_same]. cbn [snd]. apply outcome_arm; [|done]. destruct (C (Some v)) as [f E].
  eapply kept_trans; [|apply kept_core]. rewrite E. apply kept_core.
Qed.

Lemma outcome_done now unread s : has_timer s -> outcome true s (ios_baseband_spi_done now unread s).
Proof. intros T. apply outcome_arm; [|done]. eapply kept_trans; [|apply kept_set_srdy]. by destruct unread. Qed.

Lemma outcome_xfer now mosi miso n s : has_timer s -> outcome true s (ios_baseband_spi_xfer now mosi miso n s).2.
Proof.
  intros T. unfold ios_baseband_spi_xfer. destruct (ios_bb_ifx_xfer _ _ _ _) as [[rx tx] x']. cbn [snd].
  apply outcome_arm; [|done]. case_match; [done|]. eapply kept_trans; [|apply kept_core]. done.
Qed.

Lemma outcome_net now buf s : has_timer s -> outcome false s (iosbb_net_receive now buf s).
Proof.
  intros T. unfold iosbb_net_receive. destruct (dv_nic s); [|apply outcome_same].
  destruct (zlen buf <? 14); [apply outcome_same|]. case_match; [|case_match; [split_and!; [done|done|by apply (attended_same s)]|apply outcome_same]].
  apply outcome_arm; [apply kept_core|done].
Qed.

Lemma outcome_reset now s s' :
  let s1 := iosbb_vibrator_update (iosbb_disarm ((iosbb_core now ios_bb_reset s) <| dv_out := [] |>)) in
  forall x', x_txq x' = [] -> s' = (if ifx_version s1 =? 0 then s1 else iosbb_srdy_drop (s1 <| dv_ifx := x' |>)) ->
  outcome true s s'.
Proof.
  cbv zeta. intros x' X ->. destruct (kept_reset now s x') as [K1 K2]. cbv zeta in *.
  assert (A := attended_reset (iosbb_vibrator_update (iosbb_disarm ((iosbb_core now ios_bb_reset s) <| dv_out := [] |>))) x' eq_refl X).
  split_and!; [by case_match|done|done].
Qed.

Lemma run_outcome now o s : 0 <= now -> dev_wf s -> has_timer s -> core_only o = false ->
  outcome (rouses o) s (run_dev s (now, o)).
Proof.
  intros N W T Hs. unfold run_dev. cbn [fst snd]. destruct o; try done; cbn [rouses].
  - apply outcome_arm; [|done]. eapply kept_trans; [|apply kept_set_srdy]. done.
  - by apply outcome_arm.
  - by apply outcome_done.
  - by apply outcome_xfer.
  - unfold iosbb_ctl. destruct level; [apply outcome_same|].
    by apply (outcome_reset now s _ (ios_bb_ifx_modem_reset (dv_ifx (iosbb_core now ios_bb_reset s)))).
  - unfold iosbb_machine_reset. cbv zeta. set (s1 := iosbb_vibrator_update _).
    by apply (outcome_reset now s _ (ios_bb_ifx_init (ifx_version s1) (ifx_max_data s1))).
  - split_and!; [apply kept_tick|by intros _; apply tick_attended|by intros _; apply tick_attended].
  - apply outcome_arm; [apply kept_core|done].
  - by apply outcome_arm.
  - by apply outcome_net.
  - apply outcome_operator; [|done]. intros v'. by eexists.
  - apply outcome_operator; [|done]. intros v'. by eexists.
  - unfold iosbb_set_incoming_call. case_match; [apply outcome_same|].
    apply outcome_try; [apply incoming_call_refused|done|done].
  - unfold iosbb_set_incoming_sms. repeat case_match; try apply outcome_same.
    apply outcome_try; [apply incoming_sms_refused|done|done].
  - apply outcome_arm; [apply kept_core|done].
  - apply outcome_arm; [apply kept_core|done].
  - destruct parsed as [[]|]; try apply outcome_same; (split_and!; [done|done|]); by apply (attended_same s).
Qed.

(** A property that is only told to the core. *)
Lemma run_setter_outcome now p s : has_timer s ->
  kept s (run_setter now p s) /\ (ifx_version s = 0 -> attended s -> attended (run_setter now p s)).
Proof.
  intros T. destruct (setter_core now p s) as [f ->]. split; [apply kept_core|].
  intros V A. by apply attended_core_uart.
Qed.

Lemma wake_run version t e s : wake_ok e -> wake_inv version t s ->
  wake_inv version (told_step version t e) (run_dev s e).
Proof.
  intros [N Ho] [W V T A]. pose proof (dev_wf_run e s Ho W) as W'. destruct e as [now o]. cbn [fst snd] in *.
  unfold told_step. cbn [snd]. destruct (core_only o) eqn:Eo.
  - destruct o; try done. destruct (run_setter_outcome now p s T) as [[V1 T1] A1].
    constructor; [done|unfold run_dev; cbn; congruence|by apply T1|].
    rewrite andb_true_iff, Z.eqb_eq. intros [Ht E]. apply A1; [congruence|auto].
  - destruct (run_outcome now o s N W T Eo) as ([V1 T1] & A1 & A2).
    constructor; [done|congruence|by apply T1|]. rewrite orb_true_iff. intros [Ht|Ht]; auto.
Qed.

Lemma wake_runs version es s t : Forall wake_ok es -> wake_inv version t s ->
  wake_inv version (fold_left (told_step version) es t) (fold_left run_dev es s).
Proof. intros H. revert s t. induction H; intros s t I; simpl; [done|]. by apply IHForall, wake_run. Qed.

(** The timer raises SRDY with an edge of its own when anything is due. *)
Lemma tick_raises now cans s :
  ifx_version s <> 0 -> waiting s = true -> srdy_level s = false ->
  let s' := iosbb_tick_timer now cans s in
  srdy_level s' = true /\ srdy_log s' = srdy_log s ++ [true] /\
  (spi_ready s = true -> ready_calls s' = ready_calls s + 1).
Proof.
  intros V Wt L. cbv zeta. destruct (tick_spi now cans s V) as [t ->].
  pose proof (ticked_passed now s) as P. pose proof (ticked_off now s) as O.
  set (s1 := ticked now s) in *. clearbody s1.
  assert (D : srdy_due s1 = true).
  { unfold srdy_due. rewrite O, (ps_wanted _ _ P). change (frame_wanted (ran _ _)) with (frame_wanted s).
    unfold waiting in Wt. rewrite (proj2 (Z.eqb_neq _ _) V) in Wt. apply orb_prop in Wt as [Wt|Wt].
    - by rewrite (ps_pending _ _ P Wt).
    - apply andb_prop in Wt as [-> ->]. by rewrite !orb_true_r. }
  rewrite (proj2 (srdy_update_spec s1)), D. pose proof (ps_srdy _ _ P) as E. pose proof (ps_log _ _ P) as G.
  pose proof (ps_ready _ _ P) as R. pose proof (ps_calls _ _ P) as K.
  change (srdy_level (ran _ _)) with (srdy_level s) in E. change (srdy_log (ran _ _)) with (srdy_log s) in G.
  change (spi_ready (ran _ _)) with (spi_ready s) in R. change (ready_calls (ran _ _)) with (ready_calls s) in K.
  unfold iosbb_set_srdy. rewrite E, L. cbn [Bool.eqb]. case_match eqn:X; cbn in *; rewrite ?G, ?K; split_and!; try done.
  intros R'. congruence.
Qed.

(** ** Theorems *)

(** C18. No lost wake-up: through any history of a realized device (the handshake
    lines, transfers, input, the network, resets, timers and every property), when
    the modem has bytes for the UART, or bytes or a started frame on SPI, the timer
    is armed or SRDY is up, except on SPI after a property that is only told to the
    core, until the next handshake, transfer, input, reset, timer, remote answer or
    hang-up; and in any case, on SPI with SRDY low, the next timer, whenever it comes
    and whatever the core does in it, raises SRDY with exactly one edge and calls the
    controller. *)
Theorem iosbb_wakeup version es s :
  wake_inv version true s -> Forall wake_ok es ->
  let s' := fold_left run_dev es s in
  waiting s' = true ->
  (told version es = true -> armed s' \/ (version <> 0 /\ srdy_level s' = true)) /\
  (version <> 0 -> srdy_level s' = false -> forall now cans,
     let s'' := iosbb_tick_timer now cans s' in
     srdy_level s'' = true /\ srdy_log s'' = srdy_log s' ++ [true] /\
     (spi_ready s' = true -> ready_calls s'' = ready_calls s' + 1)).
Proof.
  intros I H. cbv zeta. destruct (wake_runs version es s true H I) as [W V T A].
  intros Wt. rewrite <- V at 2 3. split; [intros Ht; by apply A|]. intros V0 L now cans. by apply tick_raises.
Qed.

(** A modem on SPI, freshly realized, with +XCIEV enabled on the open channel. *)
Definition ex_dev : IosBasebandState :=
  mkIosBb (ex_core <| b_at; xciev_ch := 0 |>) (ios_bb_ifx_init 2 2044) (Some None) [] 2 2044 false false false false true
    None [] 0 false [] [].

Lemma ex_dev_wf : dev_wf ex_dev.
Proof.
  constructor; try done. constructor; [|by constructor].
  destruct ex_core_wf. constructor; try assumption. destruct w_at. by constructor.
Qed.

Lemma ex_dev_inv : wake_inv 2 true ex_dev.
Proof. constructor; [apply ex_dev_wf|done|done|]. by vm_compute. Qed.

(** A property set, and an AT command in a frame of its own. *)
Definition ex_frame : list (Z * dev_op) :=
  [(4, DvSet (SetInt SignalDbm (-100))); (5, DvXfer (Some ([3; 0; 0; 0] ++ str "AT" ++ [13])) false 7)].

Lemma iosbb_wakeup_witness :
  let s' := fold_left run_dev ex_frame ex_dev in
  waiting s' = true /\ srdy_level s' = false /\ armed s' /\ srdy_level (iosbb_tick_timer 7 [] s') = true.
Proof.
  assert (H : Forall wake_ok ex_frame).
  { repeat constructor; simpl; try lia; repeat constructor; unfold is_byte; lia. }
  assert (Wt : waiting (fold_left run_dev ex_frame ex_dev) = true) by (lazy; reflexivity).
  assert (L : srdy_level (fold_left run_dev ex_frame ex_dev) = false) by (lazy; reflexivity).
  destruct (iosbb_wakeup 2 ex_frame ex_dev ex_dev_inv H Wt) as [A R].
  split_and!; [exact Wt|exact L| |apply (R ltac:(lia) L)].
  destruct (A eq_refl) as [Ha|[_ Hs]]; [exact Ha|]. exfalso. rewrite L in Hs. discriminate Hs.
Defined.

(** Setting a property of a modem on SPI makes the core queue its report with
    nobody told: the bytes wait with SRDY low and no timer. *)
Lemma iosbb_setter_unattended :
  let s' := run_dev ex_dev (5, DvSet (SetInt SignalDbm (-100))) in
  ios_bb_ifx_pending (dv_ifx s') = true /\ srdy_level s' = false /\ dv_timer s' = Some None.
Proof. lazy. auto. Qed.
