(* ===== verification/IosSnapFacts.v ===== *)
(** * Facts about snapshots of the baseband device

    A snapshot of a device within bounds always loads, into a device within
    bounds, and restores the modem but for the fields it does not carry. *)

From Stdlib Require Import ZArith Lia String.
From stdpp Require Import base numbers list.
From S2P Require Import Prelude CLib BbState BbTx BbSim BbCalls BbReg BbSms BbGps BbAt BbRx BbTick BbIfx.
From S2P Require Import BbWindow BbInv BbInvCmd BbInvRun IosDev IosSnap IosDevFacts IosWakeFacts.
Local Open Scope Z_scope.

(** ** Bounds of what is loaded *)

Lemma str_ok_bound size a : zlen a <= size - 1 -> iosbb_str_ok size a = true.
Proof. intros H. unfold iosbb_str_ok. pose proof (zlen_until_nul a). apply Z.ltb_lt. lia. Qed.

Lemma ch_ok_ix c : chan_ix c -> iosbb_ch_ok c = true.
Proof. unfold chan_ix, iosbb_ch_ok. intros []. apply andb_true_intro. split; lia. Qed.

Lemma load_calls_wf c d : length (calls d) = IOS_BB_MAX_CALLS -> calls_wf c ->
  calls_wf (c <| calls := zip_with load_call (calls c) (calls d) |>).
Proof.
  intros L [S E Z [I J]].
  assert (K : forall i x, zip_with load_call (calls c) (calls d) !! i = Some x ->
                exists y, calls c !! i = Some y /\ c_used x = c_used y /\ c_id x = c_id y /\ c_number x = c_number y /\
                          c_next_stat x = c_next_stat y).
  { intros i x H. apply lookup_zip_with_Some in H as (y & z & -> & H & _). by exists y. }
  constructor; simpl; try assumption.
  - rewrite length_zip_with. lia.
  - apply Forall_lookup_2. intros i x H. destruct (K i x H) as (y & H' & _ & _ & -> & ->).
    exact (Forall_lookup_1 _ _ _ _ E H').
  - split.
    + intros i x H U. destruct (K i x H) as (y & H' & EU & -> & _). apply (I i y H'). congruence.
    + intros i j x y Hx Hy Ux Uy D. destruct (K i x Hx) as (x' & Hx' & EU & Eid & _).
      destruct (K j y Hy) as (y' & Hy' & EU' & Eid' & _). apply (J i j x' y' Hx' Hy'); congruence.
Qed.

Lemma load_core_wf camp v t : core_wf v -> core_wf t -> core_wf (load_core camp v t).
Proof.
  intros [Wv Cv] [Wt Ct]. destruct Wv, Wt. constructor; [|destruct Cv; by constructor].
  constructor; try assumption.
  - destruct w_sim, w_sim0. constructor; simpl; try assumption. by destruct camp.
  - destruct w_at, w_at0. by constructor.
  - cbn [b_drv load_core]. unfold load_drv. by case_match.
  - apply load_calls_wf; [apply w_call0|done].
  - destruct w_sms. by constructor.
  - cbn [b_gps load_core]. unfold load_gps. by case_match.
Qed.

Lemma load_fields_wf camp v t : dev_wf v -> dev_wf t -> dev_wf (load_fields camp v t).
Proof.
  intros [] []. unfold load_fields. case_match; constructor; simpl; try assumption; by apply load_core_wf.
Qed.

(** ** The checks *)

Lemma lengths_ok_wf s : dev_wf s -> lengths_ok s = true.
Proof.
  intros [[[_ [] [M _] _ _ _ _ _ _ D _ _] _] _ _ O Q]. unfold lengths_ok. unfold data_wf in D.
  repeat (apply andb_true_intro; split); apply Z.leb_le; try assumption; try lia.
  unfold zlen, IOS_BB_H5_WINDOW. lia.
Qed.

Lemma channels_ok_wf bb : bb_wf bb -> channels_ok bb = true.
Proof.
  intros [_ _ _ _ [] [R _] [T _] _ _ _ [G _] _]. unfold channels_ok.
  rewrite !ch_ok_ix by assumption. cbn [andb]. unfold iosbb_ch_ok, IOS_BB_MAX_CH in *. lia.
Qed.

Lemma sim_code_len s n : sim_code_ok s n = true -> zlen s <= 8.
Proof. unfold sim_code_ok. intros H. bool_hyps. lia. Qed.

Lemma strings_ok_wf bb : core_wf bb -> strings_ok bb = true.
Proof.
  intros [[[] _ _ _ _ _ _ [] [] _ _ _] []]. unfold strings_ok.
  repeat (apply andb_true_intro; split); apply str_ok_bound; try lia.
  - by apply (sim_code_len _ 4).
  - by apply (sim_code_len _ 8).
Qed.

Lemma entries_ok_wf bb : bb_wf bb -> entries_ok bb = true.
Proof.
  intros [_ [] _ [_ C] _ _ _ [] [] _ _ _]. unfold entries_ok.
  repeat (apply andb_true_intro; split); apply forallb_forall; intros x Hx; apply list_elem_of_In in Hx.
  - apply Z.leb_le. exact (proj1 (Forall_forall _ _) lw_unacked x Hx).
  - destruct (proj1 (Forall_forall _ _) C x Hx). apply andb_true_intro. split; [lia|by apply Z.eqb_eq].
  - apply str_ok_bound. destruct (proj1 (Forall_forall _ _) kw_each x Hx). lia.
  - destruct (proj1 (Forall_forall _ _) mw_each x Hx). apply andb_true_intro. split; apply str_ok_bound; lia.
Qed.

Lemma post_load_accepts now s : dev_wf s ->
  iosbb_post_load now s =
    Some (iosbb_vibrator_update
            (s <| dv_bb ::= fun bb => bb <| b_reg ::= post_load_camp |> <| b_env; now_ms := now |> |>)).
Proof.
  intros W. unfold iosbb_post_load. pose proof (dw_core _ W) as C. pose proof (kw_bb _ C) as B.
  by rewrite (lengths_ok_wf _ W), (channels_ok_wf _ B), (strings_ok_wf _ C), (entries_ok_wf _ B).
Qed.

Lemma post_load_wf now s s' : dev_wf s -> iosbb_post_load now s = Some s' -> dev_wf s'.
Proof.
  intros W. rewrite (post_load_accepts now s W). intros [= <-]. destruct W as [[[] ?]].
  constructor; simpl; try assumption. constructor; [|done]. constructor; simpl; try assumption.
  unfold post_load_camp. by case_match.
Qed.

(** ** What comes back *)

(** Two devices of the same board: the properties set once, before realize. *)
Record same_board (v t : IosBasebandState) : Prop := mkSameBoard {
  sb_version : ifx_version t = ifx_version v;
  sb_ifx_version : x_version (dv_ifx v) = ifx_version v;
  sb_max_data : x_max_data (dv_ifx v) = Z.min (ifx_max_data t) 0xffe;
  sb_search : search_ms (b_ctl (dv_bb t)) = search_ms (b_ctl (dv_bb v));
  sb_nitz : nitz (b_ctl (dv_bb t)) = nitz (b_ctl (dv_bb v));
  sb_sim_file : sim_file (b_sim (dv_bb t)) = sim_file (b_sim (dv_bb v));
  sb_data : data_out (b_data (dv_bb t)) = data_out (b_data (dv_bb v));
  sb_gps : g_present (b_gps (dv_bb t)) = g_present (b_gps (dv_bb v))
}.

(** A stopped motor and an absent receiver are as after a reset. *)
Definition rest_drv (d : Drv) : Drv :=
  if vib_mode d =? 0 then d <| vib_period_ms := 0 |> <| vib_on_ms := 0 |> <| vib_start_ms := 0 |> else d.

Definition rest_gps (t v : IosBbGps) : IosBbGps := if g_present v then v else ios_bb_gps_reset t.

(** The core of [v] as a device [t] restores it: the report settings of +COLP,
    +XSIGSTR and +CTZR are back at their defaults, and the counters that a user
    reads are those of [t]. *)
Definition restored_at (n : Z) (a : At) : At :=
  mkAt (hex_cs a) false (xemc_on a) (off a) n (xreg_n a) false 0 (xciev_ch a) (xsim_ch a) (call_ch a) (sms_ch a)
    (s0 a) false 0.

Definition restored (now : Z) (t v : IosBbCore) : IosBbCore :=
  mkCore (b_ctl v) (b_sim v) (b_link v) (b_mux v) (b_ch v) (restored_at (power_offs (b_at t)) (b_at v))
    ((b_reg v) <| xsim_pushed := false |>) (rest_drv (b_drv v)) (b_call v) ((b_sms v) <| mo_count := 0 |>) (b_data v)
    (rest_gps (b_gps t) (b_gps v)) ((b_env t) <| now_ms := now |> <| out_log := [] |> <| data_log := [] |>).

Lemma zip_load_reset l :
  length l = IOS_BB_MAX_CALLS -> zip_with load_call l (replicate IOS_BB_MAX_CALLS (call0 <| c_next_stat := -1 |>)) = l.
Proof.
  intros H. do 5 (destruct l as [|? l]; try done). simpl.
  assert (K : forall c, load_call c (call0 <| c_next_stat := -1 |>) = c).
  { intros []. unfold load_call, load_flag. simpl. by destruct c_emergency. }
  by rewrite !K.
Qed.

Lemma load_drv_reset d : load_drv d (mkDrv 0 0 0 0 0 0 0) = rest_drv d.
Proof. unfold load_drv, rest_drv. destruct (Z.eqb_spec (vib_mode d) 0) as [E|E]; [|done]. destruct d. simpl in *. by subst. Qed.

Lemma load_ctl_same v t : search_ms t = search_ms v -> nitz t = nitz v -> load_ctl v t = v.
Proof. intros E1 E2. unfold load_ctl. rewrite E1, E2. by destruct v. Qed.

Lemma load_sim_same v t : sim_file t = sim_file v -> load_sim true v t = v.
Proof. intros E. unfold load_sim. rewrite E. by destruct v. Qed.

Lemma load_at_reset v n :
  load_at v (mkAt false false false false n 0 false 0 2 3 1 3 0 false 0) = restored_at n v.
Proof. unfold load_at, load_flag. destruct v as [? ? x o]. simpl. by destruct x, o. Qed.

Lemma load_reg_reset v t :
  xsim_pushed t = false -> camp_due_ms v <> -1 -> post_load_camp (load_reg true v t) = v <| xsim_pushed := false |>.
Proof.
  intros E C. unfold load_reg, post_load_camp. rewrite E. simpl.
  rewrite (proj2 (Z.eqb_neq _ _) C). by destruct v.
Qed.

Lemma load_gps_reset v t : g_present t = g_present v -> load_gps v (ios_bb_gps_reset t) = rest_gps t v.
Proof.
  intros E. unfold load_gps, rest_gps. change (g_present (ios_bb_gps_reset t)) with (g_present t).
  rewrite E. by destruct v as [[]].
Qed.

Lemma load_data_same v t : data_out t = data_out v -> v <| data_out := data_out t |> = v.
Proof. intros E. rewrite E. by destruct v. Qed.

Lemma load_reset_core now v t :
  length (calls (b_call v)) = IOS_BB_MAX_CALLS -> camp_due_ms (b_reg v) <> -1 ->
  search_ms (b_ctl t) = search_ms (b_ctl v) -> nitz (b_ctl t) = nitz (b_ctl v) ->
  sim_file (b_sim t) = sim_file (b_sim v) -> data_out (b_data t) = data_out (b_data v) ->
  g_present (b_gps t) = g_present (b_gps v) ->
  (load_core true v ((ios_bb_reset t) <| b_env; out_log := [] |> <| b_env; data_log := [] |>))
    <| b_reg ::= post_load_camp |> <| b_env; now_ms := now |> = restored now t v.
Proof.
  intros L C E1 E2 E3 E4 E5.
  set (s0 := (ios_bb_reset t) <| b_env; out_log := [] |> <| b_env; data_log := [] |>).
  change ((load_core true v s0) <| b_reg ::= post_load_camp |> <| b_env; now_ms := now |>) with
    (mkCore (load_ctl (b_ctl v) (b_ctl s0)) (load_sim true (b_sim v) (b_sim s0)) (b_link v) (b_mux v) (b_ch v)
      (load_at (b_at v) (b_at s0)) (post_load_camp (load_reg true (b_reg v) (b_reg s0))) (load_drv (b_drv v) (b_drv s0))
      ((b_call v) <| calls := zip_with load_call (calls (b_call v)) (calls (b_call s0)) |>)
      ((b_sms v) <| mo_count := mo_count (b_sms s0) |>) ((b_data v) <| data_out := data_out (b_data s0) |>)
      (load_gps (b_gps v) (b_gps s0)) ((b_env s0) <| now_ms := now |>)).
  unfold restored. f_equal.
  - by apply load_ctl_same.
  - by apply load_sim_same.
  - apply load_at_reset.
  - by apply load_reg_reset.
  - apply load_drv_reset.
  - change (calls (b_call s0)) with (replicate IOS_BB_MAX_CALLS (call0 <| c_next_stat := -1 |>)).
    rewrite zip_load_reset by done. by destruct (b_call v).
  - by apply load_data_same.
  - by apply load_gps_reset.
Qed.

(** ** Theorems *)

(** C35. A snapshot is never refused: whatever two devices of the model went
    through, the state of one loads into the other, with or without the
    subsection of the network search, every check of [iosbb_post_load] passes,
    and the device that loaded it is within all bounds of the core and the
    device again. *)
Theorem iosbb_snapshot_loads now camp es ds v t :
  dev_wf v -> dev_wf t -> Forall (fun e => dev_op_ok e.2) es -> Forall (fun e => dev_op_ok e.2) ds ->
  exists s', iosbb_load now camp (fold_left run_dev es v) (fold_left run_dev ds t) = Some s' /\ dev_wf s'.
Proof.
  intros Wv Wt He Hd. apply (dev_wf_runs es) in Wv; [|done]. apply (dev_wf_runs ds) in Wt; [|done].
  pose proof (load_fields_wf camp _ _ Wv Wt) as W. unfold iosbb_load.
  pose proof (post_load_accepts now _ W) as E. rewrite E. eexists. split; [done|]. exact (post_load_wf now _ _ W E).
Qed.

(** The core of a device after the machine's reset. *)
Lemma machine_reset_bb now t :
  dv_bb (iosbb_machine_reset now t) =
    (ios_bb_reset (dv_bb t)) <| b_env; out_log := [] |> <| b_env; data_log := [] |>.
Proof.
  pose proof (ps_bb _ _ (passed_core now ios_bb_reset t)) as E.
  change (dv_bb (ran ios_bb_reset t)) with
    ((ios_bb_reset (dv_bb t)) <| b_env; out_log := [] |> <| b_env; data_log := [] |>) in E.
  rewrite <- E. unfold iosbb_machine_reset. generalize (iosbb_core now ios_bb_reset t). intros s. cbv zeta. by case_match.
Qed.

(** The part of the SPI link that the loading device supplies. *)
Lemma machine_reset_ifx now t :
  ifx_version t <> 0 ->
  ifx_version (iosbb_machine_reset now t) = ifx_version t /\
  x_credits_in (dv_ifx (iosbb_machine_reset now t)) = 0 /\
  x_version (dv_ifx (iosbb_machine_reset now t)) = ifx_version t /\
  x_max_data (dv_ifx (iosbb_machine_reset now t)) = Z.min (ifx_max_data (iosbb_core now ios_bb_reset t)) 0xffe.
Proof.
  intros V. pose proof (core_version now ios_bb_reset t) as E. unfold iosbb_machine_reset.
  generalize dependent (iosbb_core now ios_bb_reset t). intros s E. cbv zeta.
  change (ifx_version (iosbb_vibrator_update _)) with (ifx_version s). rewrite <- E in *.
  rewrite (proj2 (Z.eqb_neq _ _) V). done.
Qed.

Lemma core_max_data now f s : ifx_max_data (iosbb_core now f s) = ifx_max_data s.
Proof.
  unfold iosbb_core. set (s1 := s <| dv_bb := _ |>). change (ifx_max_data s) with (ifx_max_data s1). clearbody s1.
  generalize (data_log (b_env (f (dv_bb s)))), (out_log (b_env (f (dv_bb s)))). intros dl ol.
  transitivity (ifx_max_data (fold_left (fun s buf => iosbb_emit now buf s) ol s1)).
  - generalize (fold_left (fun s buf => iosbb_emit now buf s) ol s1). induction dl as [|b dl IH]; intros z; simpl; [done|].
    rewrite IH. unfold iosbb_data_out. by repeat case_match.
  - revert s1. induction ol as [|b ol IH]; intros z; simpl; [done|].
    rewrite IH. unfold iosbb_emit, iosbb_out. by repeat case_match.
Qed.

Lemma load_fields_ifx v t :
  ifx_version v <> 0 -> x_version (dv_ifx t) = x_version (dv_ifx v) -> x_max_data (dv_ifx t) = x_max_data (dv_ifx v) ->
  dv_ifx (load_fields true v t) = (dv_ifx v) <| x_credits_in := x_credits_in (dv_ifx t) |>.
Proof.
  intros V E1 E2. unfold load_fields. rewrite (proj2 (Z.eqb_neq _ _) V). simpl.
  destruct (dv_ifx v), (dv_ifx t). simpl in *. by subst.
Qed.

(** C34. What a snapshot restores: loaded into a freshly reset device of the same
    board, it brings back the whole core, the bytes on their way to the UART, the
    timer, and on SPI the transmit queue, the credits granted to the AP and the
    three handshake lines; what is not carried, and only that, is the report
    settings and counters that [restored] resets and the credits the AP had
    granted to the modem. *)
Theorem iosbb_snapshot_roundtrip now now0 v t :
  dev_wf v -> dev_wf t -> same_board v t -> camp_due_ms (b_reg (dv_bb v)) <> -1 ->
  exists s', iosbb_load now true v (iosbb_machine_reset now0 t) = Some s' /\
    dv_bb s' = restored now (dv_bb t) (dv_bb v) /\ dv_out s' = dv_out v /\ dv_timer s' = dv_timer v /\
    (ifx_version v <> 0 ->
       dv_ifx s' = (dv_ifx v) <| x_credits_in := 0 |> /\ srdy_level s' = srdy_level v /\
       mrdy_level s' = mrdy_level v /\ frame_wanted s' = frame_wanted v).
Proof.
  intros Wv Wt [] C.
  assert (Wr : dev_wf (iosbb_machine_reset now0 t)) by exact (dev_wf_run (now0, DvReset) t I Wt).
  pose proof (load_fields_wf true _ _ Wv Wr) as W. unfold iosbb_load. rewrite (post_load_accepts now _ W).
  eexists. split; [done|]. split_and!.
  - rewrite <- (load_reset_core now (dv_bb v) (dv_bb t)); try done; [|apply (dw_core _ Wv)].
    rewrite <- (machine_reset_bb now0 t). unfold load_fields. by case_match.
  - unfold load_fields. by case_match.
  - unfold load_fields. by case_match.
  - intros V. destruct (machine_reset_ifx now0 t) as (E1 & E2 & E3 & E4); [congruence|]. rewrite core_max_data in E4.
    split.
    + change (dv_ifx (iosbb_vibrator_update _)) with (dv_ifx (load_fields true v (iosbb_machine_reset now0 t))).
      rewrite load_fields_ifx by congruence. by rewrite E2.
    + unfold load_fields. by rewrite (proj2 (Z.eqb_neq _ _) V).
Qed.

Lemma ex_frame_ok : Forall (fun e => dev_op_ok e.2) ex_frame.
Proof. repeat constructor; unfold is_byte; lia. Qed.

Lemma iosbb_snapshot_loads_witness :
  exists s', iosbb_load 9 false (fold_left run_dev ex_frame ex_dev) (fold_left run_dev [] ex_dev) = Some s' /\ dev_wf s'.
Proof.
  apply (iosbb_snapshot_loads 9 false ex_frame [] ex_dev ex_dev ex_dev_wf ex_dev_wf ex_frame_ok). constructor.
Defined.

(** The modem of the example with credits from the AP and +XSIGSTR on. *)
Definition ex_saved : IosBasebandState :=
  (fold_left run_dev ex_frame ex_dev) <| dv_ifx; x_credits_in := 5 |>
    <| dv_bb ::= fun bb => bb <| b_at; xsigstr_on := true |> |>.

Lemma ex_saved_wf : dev_wf ex_saved.
Proof.
  unfold ex_saved. pose proof (dev_wf_runs ex_frame ex_dev ex_frame_ok ex_dev_wf) as W.
  generalize dependent (fold_left run_dev ex_frame ex_dev). intros s [[[] C]].
  constructor; try assumption. constructor; [|exact C]. constructor; try assumption. destruct w_at. by constructor.
Qed.

Lemma ex_saved_board : same_board ex_saved ex_dev.
Proof. constructor; lazy; reflexivity. Qed.

Lemma iosbb_snapshot_roundtrip_witness :
  exists s', iosbb_load 9 true ex_saved (iosbb_machine_reset 8 ex_dev) = Some s' /\
    x_txq (dv_ifx s') = x_txq (dv_ifx ex_saved) /\ x_credits_in (dv_ifx s') = 0.
Proof.
  destruct (iosbb_snapshot_roundtrip 9 8 ex_saved ex_dev ex_saved_wf ex_dev_wf ex_saved_board)
    as (s' & E & _ & _ & _ & H); [lazy; discriminate|].
  destruct H as (H & _); [lazy; discriminate|]. exists s'. split; [exact E|]. rewrite H. split; reflexivity.
Defined.

(** A modem that could send and report its signal can do neither once restored. *)
Lemma iosbb_snapshot_forgets :
  exists s', iosbb_load 9 true ex_saved (iosbb_machine_reset 8 ex_dev) = Some s' /\
    0 < ifx_can_send (dv_ifx ex_saved) /\ ifx_can_send (dv_ifx s') = 0 /\
    (dv_bb ex_saved).(b_at).(xsigstr_on) = true /\ (dv_bb s').(b_at).(xsigstr_on) = false.
Proof. eexists. split_and!; lazy; reflexivity. Qed.
