(* ===== verification/BbSpi.v ===== *)
(** * The baseband SPI controller

    [src/hw/arm/s5l8930_bbspi.c]: the SPI block in front of the baseband device on
    the 3GS and the iPhone 4.  A frame's MISO half is fetched from the modem when
    the clock first runs, its MOSI half is handed over when complete, and the DMA
    engine moves both through the two FIFOs.  [now] is the virtual clock. *)

From Stdlib Require Import ZArith Lia.
From stdpp Require Import base numbers list.
From S2P Require Import Prelude CLib HwLib BbIfx IosDev.
Local Open Scope Z_scope.

Definition R_CTRL : Z := 0x00.
Definition R_CFG : Z := 0x04.
Definition R_STATUS : Z := 0x08.
Definition R_RXCNT : Z := 0x34.
Definition R_TXDATA : Z := 0x10.
Definition R_RXDATA : Z := 0x20.
Definition R_TXCNT : Z := 0x4c.
Definition CTRL_RUN : Z := 0x1.
Definition CTRL_TX_RESET : Z := 0x4.
Definition CTRL_RX_RESET : Z := 0x8.
Definition CFG_GO : Z := 0x40.
Definition CFG_RXONLY : Z := 0x1.
Definition CFG_IE_COMPLETE : Z := 0x200000.
Definition ST_COMPLETE : Z := 0x400000.
Definition FRAME_MAX : Z := 4096.
Definition BBSPI_IDLE_MS : Z := 2000.

(** [struct IosBbSpiState].  [bs_tx] is the prefix of [tx] that [tx_len] counts,
    [bs_rx] the whole of [rx], whose stale part the modem can be handed back.
    [bs_kick] tells whether the bottom half is scheduled, [bs_idle] the deadline
    of the idle timer; [sink_dones] counts the completions reported to the CDMA. *)
Record IosBbSpiState := mkBbSpi {
  bs_regs : list Z;
  bs_tx : bytes;
  bs_rx : bytes;
  bs_rx_len : Z;
  bs_rx_pos : Z;
  bs_modem : option IosBasebandState;
  bs_cdma : bool;
  bs_kick : bool;
  bs_idle : option Z;
  bs_irq : bool;
  sink_dones : Z
}.

Definition eta_IosBbSpiState (r : IosBbSpiState) : IosBbSpiState :=
  mkBbSpi (bs_regs r) (bs_tx r) (bs_rx r) (bs_rx_len r) (bs_rx_pos r) (bs_modem r) (bs_cdma r) (bs_kick r)
    (bs_idle r) (bs_irq r) (sink_dones r).
#[global] Instance upd_bs_regs : Upd bs_regs := ltac:(derive_upd eta_IosBbSpiState bs_regs).
#[global] Instance upd_bs_tx : Upd bs_tx := ltac:(derive_upd eta_IosBbSpiState bs_tx).
#[global] Instance upd_bs_rx : Upd bs_rx := ltac:(derive_upd eta_IosBbSpiState bs_rx).
#[global] Instance upd_bs_rx_len : Upd bs_rx_len := ltac:(derive_upd eta_IosBbSpiState bs_rx_len).
#[global] Instance upd_bs_rx_pos : Upd bs_rx_pos := ltac:(derive_upd eta_IosBbSpiState bs_rx_pos).
#[global] Instance upd_bs_modem : Upd bs_modem := ltac:(derive_upd eta_IosBbSpiState bs_modem).
#[global] Instance upd_bs_cdma : Upd bs_cdma := ltac:(derive_upd eta_IosBbSpiState bs_cdma).
#[global] Instance upd_bs_kick : Upd bs_kick := ltac:(derive_upd eta_IosBbSpiState bs_kick).
#[global] Instance upd_bs_idle : Upd bs_idle := ltac:(derive_upd eta_IosBbSpiState bs_idle).
#[global] Instance upd_bs_irq : Upd bs_irq := ltac:(derive_upd eta_IosBbSpiState bs_irq).
#[global] Instance upd_sink_dones : Upd sink_dones := ltac:(derive_upd eta_IosBbSpiState sink_dones).

(** [s->regs[addr / 4]] *)
Definition bs_reg (s : IosBbSpiState) (addr : Z) : Z := rd (bs_regs s) (addr / 4).
Definition bs_set (addr val : Z) (s : IosBbSpiState) : IosBbSpiState :=
  s <| bs_regs ::= fun l => wr l (addr / 4) val |>.

(** Run the modem; its ready callback, [bbspi_ready], schedules the bottom half. *)
Definition bbspi_modem (f : IosBasebandState -> IosBasebandState) (s : IosBbSpiState) : IosBbSpiState :=
  match bs_modem s with
  | Some d =>
      let d' := f d in
      s <| bs_modem := Some d' |> <| bs_kick ::= fun k => k || (ready_calls d <? ready_calls d') |>
  | None => s
  end.

Definition bbspi_ws (s : IosBbSpiState) : Z := Z.shiftl 1 (Z.min (Z.land (Z.shiftr (bs_reg s R_CFG) 15) 3) 2).

Definition bbspi_irq (s : IosBbSpiState) : IosBbSpiState :=
  s <| bs_irq := flagged (bs_reg s R_CFG) CFG_IE_COMPLETE && flagged (bs_reg s R_STATUS) ST_COMPLETE |>.

(** A count register in bytes, as the unsigned product gives it. *)
Definition bbspi_bytes (s : IosBbSpiState) (cnt : Z) : Z := u32 (bs_reg s cnt * bbspi_ws s).

Definition bbspi_check_done (s : IosBbSpiState) : IosBbSpiState :=
  let t := bbspi_bytes s R_TXCNT in
  if negb (bs_rx_len s =? 0) && (bs_rx_len s <=? bs_rx_pos s) && ((t =? 0) || (t <=? zlen (bs_tx s))) &&
     negb (flagged (bs_reg s R_STATUS) ST_COMPLETE)
  then bbspi_irq (bs_set R_STATUS (Z.lor (bs_reg s R_STATUS) ST_COMPLETE) s)
  else s.

Definition bbspi_build_miso (now : Z) (s : IosBbSpiState) : IosBbSpiState :=
  let n := Z.min (bbspi_bytes s R_RXCNT) FRAME_MAX in
  match bs_modem s with
  | Some d =>
      if negb (n =? 0) && (bs_rx_len s =? 0) then
        let miso := (ios_baseband_spi_xfer now None true n d).1 in
        (bbspi_modem (fun d => (ios_baseband_spi_xfer now None true n d).2) s)
          <| bs_rx ::= fun rx => blit rx 0 miso |> <| bs_rx_len := n |> <| bs_rx_pos := 0 |>
      else s
  | None => s
  end.

Definition bbspi_start (s : IosBbSpiState) : IosBbSpiState := s <| bs_kick := true |>.

(** The clock only runs in a frame, once SRDY is up. *)
Definition bbspi_clocked (s : IosBbSpiState) : bool :=
  match bs_modem s with
  | Some d => ios_baseband_spi_srdy d && flagged (bs_reg s R_CFG) CFG_GO
  | None => false
  end.

Definition bbspi_avail (now : Z) (to_device : bool) (s : IosBbSpiState) : Z * IosBbSpiState :=
  if negb (bbspi_clocked s) then (0, s)
  else if to_device then
    let t := Z.min (bbspi_bytes s R_TXCNT) FRAME_MAX in
    (if zlen (bs_tx s) <? t then t - zlen (bs_tx s) else 0, s)
  else
    let s := bbspi_build_miso now s in
    (u32 (bs_rx_len s - bs_rx_pos s), s).

Definition bbspi_read (addr : Z) (s : IosBbSpiState) : Z * IosBbSpiState :=
  if negb (addr =? R_RXDATA) then (if addr <? 0x100 then bs_reg s addr else 0, s)
  else
    let k := Z.max 0 (Z.min (bbspi_ws s) (bs_rx_len s - bs_rx_pos s)) in
    let r := le_word (ztake k (zdrop (bs_rx_pos s) (bs_rx s))) in
    (r, bbspi_check_done (s <| bs_rx_pos ::= fun p => p + k |>)).

(** ** Writes *)

(** A new transfer: forget the last frame; a MISO nobody clocked goes back. *)
Definition bbspi_flush (now : Z) (s : IosBbSpiState) : IosBbSpiState :=
  let s := if negb (bs_rx_len s =? 0) && (bs_rx_pos s =? 0)
           then bbspi_modem (ios_baseband_spi_done now (Some (bs_rx s))) s else s in
  bs_set R_STATUS (Z.ldiff (bs_reg s R_STATUS) ST_COMPLETE)
    (s <| bs_tx := [] |> <| bs_rx_len := 0 |> <| bs_rx_pos := 0 |>).

Definition bbspi_write_ctrl (now val : Z) (s : IosBbSpiState) : IosBbSpiState :=
  let s := if flagged val (Z.lor CTRL_TX_RESET CTRL_RX_RESET) then bbspi_flush now s else s in
  let s := bs_set R_CTRL (Z.land val CTRL_RUN) s in
  if flagged val CTRL_RUN then
    let go := flagged (bs_reg s R_CFG) CFG_GO in
    let s :=
      if match bs_modem s with Some _ => true | None => false end && go && negb (flagged (bs_reg s R_CFG) CFG_RXONLY)
      then bbspi_modem (ios_baseband_spi_request now) s
      else if go then s <| bs_idle := Some (now + BBSPI_IDLE_MS) |> else s in
    bbspi_start s
  else s.

Definition bbspi_write_txdata (now val : Z) (s : IosBbSpiState) : IosBbSpiState :=
  let t := Z.min (bbspi_bytes s R_TXCNT) FRAME_MAX in
  let s := s <| bs_tx ::= fun tx => tx ++ ztake (Z.min (bbspi_ws s) (t - zlen tx)) (le32 val) |> in
  let s :=
    match bs_modem s with
    | Some _ =>
        if negb (t =? 0) && (zlen (bs_tx s) =? t) then
          let s := bbspi_modem (fun d => (ios_baseband_spi_xfer now (Some (bs_tx s)) false t d).2) s in
          if bs_cdma s then s <| sink_dones ::= fun n => n + 1 |> else s
        else s
    | None => s
    end in
  bbspi_check_done s.

Definition bbspi_write_cfg (now val : Z) (s : IosBbSpiState) : IosBbSpiState :=
  let t := bs_reg s R_CFG in
  let s := bs_set R_CFG val s in
  let s :=
    if flagged val CFG_GO && negb (flagged t CFG_GO) then bbspi_start s
    else
      match bs_modem s with
      | Some _ =>
          if negb (flagged val CFG_GO) && flagged t CFG_GO then
            let unread := if negb (bs_rx_len s =? 0) && (bs_rx_pos s =? 0) then Some (bs_rx s) else None in
            (bbspi_modem (ios_baseband_spi_done now unread) s) <| bs_rx_len := 0 |> <| bs_rx_pos := 0 |>
          else s
      | None => s
      end in
  bbspi_irq s.

Definition bbspi_write (now addr val : Z) (s : IosBbSpiState) : IosBbSpiState :=
  if addr =? R_CTRL then bbspi_write_ctrl now val s
  else if addr =? R_STATUS then bbspi_irq (bs_set R_STATUS (Z.ldiff (bs_reg s R_STATUS) val) s)
  else if addr =? R_TXDATA then bbspi_write_txdata now val s
  else if addr =? R_CFG then bbspi_write_cfg now val s
  else
    let s := if addr <? 0x100 then bs_set addr val s else s in
    if (addr =? R_TXCNT) || (addr =? R_RXCNT) then bbspi_start s else s.

(** ** The rest *)

Definition bbspi_reset (s : IosBbSpiState) : IosBbSpiState :=
  s <| bs_regs := replicate 64 0 |> <| bs_tx := [] |> <| bs_rx_len := 0 |> <| bs_rx_pos := 0 |> <| bs_irq := false |>.

(** The bottom half; the result tells whether it resumes the DMA engine. *)
Definition bbspi_kick (s : IosBbSpiState) : bool * IosBbSpiState := (bs_cdma s, s <| bs_kick := false |>).

Definition bbspi_idle (now : Z) (s : IosBbSpiState) : IosBbSpiState :=
  let s := s <| bs_idle := None |> in
  if flagged (bs_reg s R_CFG) CFG_GO && flagged (bs_reg s R_CFG) CFG_RXONLY &&
     flagged (bs_reg s R_CTRL) CTRL_RUN && (bs_rx_len s =? 0)
  then bbspi_modem (ios_baseband_spi_request now) s else s.

(** The modem is told whom to call. *)
Definition bbspi_realize (s : IosBbSpiState) : IosBbSpiState := bbspi_modem ios_baseband_spi_set_ready s.

Definition bbspi_post_load (s : IosBbSpiState) : bool :=
  (zlen (bs_tx s) <=? FRAME_MAX) && (bs_rx_len s <=? FRAME_MAX) && (bs_rx_pos s <=? bs_rx_len s).
