(* ===== verification/BbSpiFacts.v ===== *)
(** * Facts about the baseband SPI controller

    A frame that the DMA engine moves through the two FIFOs, in whatever order,
    is one transfer in each direction; the buffers stay within their bounds. *)

From Stdlib Require Import ZArith Lia.
From stdpp Require Import base numbers list.
From S2P Require Import Prelude CLib HwLib BbIfx BbIfxFacts IosDev IosDevFacts IosWakeFacts BbSpi.
Local Open Scope Z_scope.

(** ** Accesses *)

(** What the DMA engine does to the FIFOs during a frame. *)
Inductive fifo_op :=
| AskRx
| AskTx
| ReadRx
| WriteTx (w : Z).

(** The words read so far, and the state. *)
Definition fifo_step (now : Z) (st : list Z * IosBbSpiState) (o : fifo_op) : list Z * IosBbSpiState :=
  let '(vals, s) := st in
  match o with
  | AskRx => (vals, (bbspi_avail now false s).2)
  | AskTx => (vals, (bbspi_avail now true s).2)
  | ReadRx => let '(v, s) := bbspi_read R_RXDATA s in (vals ++ [v], s)
  | WriteTx w => (vals, bbspi_write now R_TXDATA w s)
  end.

Definition fifo_run (now : Z) (l : list fifo_op) (s : IosBbSpiState) : list Z * IosBbSpiState :=
  fold_left (fifo_step now) l ([], s).

Definition is_read (o : fifo_op) : bool := match o with ReadRx => true | _ => false end.
Definition written (l : list fifo_op) : list Z := omap (fun o => match o with WriteTx w => Some w | _ => None end) l.
Definition reads (l : list fifo_op) : Z := zlen (filter (fun o => is_read o = true) l).

(** The words of [ws] bytes at the start of [f], and the bytes of words. *)
Definition words_of (ws : Z) (k : Z) (f : bytes) : list Z :=
  (fun i => le_word (ztake ws (zdrop (ws * Z.of_nat i) f))) <$> seq 0 (Z.to_nat k).
Definition bytes_of (ws : Z) (l : list Z) : bytes := mjoin ((fun w => ztake ws (le32 w)) <$> l).

(** ** Small facts *)

Lemma bbspi_ws_range s : bbspi_ws s = 1 \/ bbspi_ws s = 2 \/ bbspi_ws s = 4.
Proof.
  unfold bbspi_ws. set (k := Z.land _ 3).
  assert (0 <= k <= 3).
  { unfold k. pose proof (Z.land_ones (Z.shiftr (bs_reg s R_CFG) 15) 2) as E. change (Z.ones 2) with 3 in E.
    rewrite E by lia. pose proof (Z.mod_pos_bound (Z.shiftr (bs_reg s R_CFG) 15) (2 ^ 2)). lia. }
  assert (Z.min k 2 = 0 \/ Z.min k 2 = 1 \/ Z.min k 2 = 2) as [->|[->| ->]] by lia; auto.
Qed.

Lemma zlen_bytes_of ws l : 0 <= ws <= 4 -> zlen (bytes_of ws l) = ws * zlen l.
Proof.
  intros H. unfold bytes_of. induction l as [|w l IH]; [change (0 = ws * 0); lia|].
  cbn [fmap list_fmap mjoin list_join]. change (mjoin _) with (mjoin ((fun w => ztake ws (le32 w)) <$> l)).
  rewrite zlen_app, IH, zlen_cons, zlen_ztake. change (zlen (le32 w)) with 4. lia.
Qed.

Lemma bytes_of_snoc ws l w : bytes_of ws (l ++ [w]) = bytes_of ws l ++ ztake ws (le32 w).
Proof. unfold bytes_of. rewrite fmap_app, join_app. cbn. by rewrite app_nil_r. Qed.

Lemma words_of_snoc ws k f :
  0 <= k -> words_of ws (k + 1) f = words_of ws k f ++ [le_word (ztake ws (zdrop (ws * k) f))].
Proof.
  intros H. unfold words_of. rewrite Z2Nat.inj_add, seq_app, fmap_app by lia. f_equal.
  change (seq (0 + Z.to_nat k) (Z.to_nat 1)) with [Z.to_nat k]. cbn [fmap list_fmap]. by rewrite Z2Nat.id by lia.
Qed.

Lemma written_snoc l o : written (l ++ [o]) = written l ++ match o with WriteTx w => [w] | _ => [] end.
Proof. unfold written. rewrite omap_app. by destruct o. Qed.

Lemma reads_snoc l o : reads (l ++ [o]) = reads l + b2z (is_read o).
Proof. unfold reads. rewrite filter_app, zlen_app. by destruct o. Qed.

(** The transfer leaves the handshake to the controller. *)
Lemma xfer_srdy now mosi miso n d : srdy_level (ios_baseband_spi_xfer now mosi miso n d).2 = srdy_level d.
Proof.
  unfold ios_baseband_spi_xfer. destruct (ios_bb_ifx_xfer _ _ _ _) as [[rx tx] x']. cbn [snd].
  case_match; [done|]. exact (ps_srdy _ _ (passed_core now _ _)).
Qed.

Lemma xfer_miso now n d : (ios_baseband_spi_xfer now None true n d).1 = (ifx_tx n (dv_ifx d)).1.
Proof.
  unfold ios_baseband_spi_xfer, ios_bb_ifx_xfer.
  match goal with |- context [ifx_tx n (dv_ifx ?x)] => change (dv_ifx x) with (dv_ifx d) end.
  by destruct (ifx_tx n (dv_ifx d)).
Qed.

Lemma xfer_ifx now n d : dv_ifx (ios_baseband_spi_xfer now None true n d).2 = (ifx_tx n (dv_ifx d)).2.
Proof.
  unfold ios_baseband_spi_xfer, ios_bb_ifx_xfer.
  match goal with |- context [ifx_tx n (dv_ifx ?x)] => change (dv_ifx x) with (dv_ifx d) end.
  by destruct (ifx_tx n (dv_ifx d)).
Qed.

Lemma bs_reg_set a b v s :
  zlen (bs_regs s) = 64 -> 0 <= a / 4 < 64 -> 0 <= b / 4 ->
  bs_reg (bs_set a v s) b = if b / 4 =? a / 4 then v else bs_reg s b.
Proof. intros L Ha Hb. unfold bs_reg, bs_set. simpl. apply rd_wr_at; lia. Qed.

(** ** A frame in progress *)

Section frame.
Context (now ws cr ct n t : Z) (s0 : IosBbSpiState) (d0 : IosBasebandState).

(** The controller with a frame set up, nothing moved yet and SRDY up. *)
Record frame_ready : Prop := mkReady {
  fr_modem : bs_modem s0 = Some d0;
  fr_srdy : srdy_level d0 = true;
  fr_go : flagged (bs_reg s0 R_CFG) CFG_GO = true;
  fr_status : flagged (bs_reg s0 R_STATUS) ST_COMPLETE = false;
  fr_regs : zlen (bs_regs s0) = 64;
  fr_rx : zlen (bs_rx s0) = FRAME_MAX;
  fr_tx : bs_tx s0 = [];
  fr_rx_len : bs_rx_len s0 = 0;
  fr_ws : bbspi_ws s0 = ws;
  fr_rxcnt : bs_reg s0 R_RXCNT = cr;
  fr_txcnt : bs_reg s0 R_TXCNT = ct;
  fr_n : n = cr * ws;
  fr_t : t = ct * ws;
  fr_n_size : 4 <= n <= FRAME_MAX;
  fr_t_size : 0 <= t <= FRAME_MAX;
  fr_ifx : ifx_wf (dv_ifx d0)
}.

Context (R : frame_ready).

Local Definition miso : bytes := (ios_baseband_spi_xfer now None true n d0).1.
Local Definition d1 : IosBasebandState := (ios_baseband_spi_xfer now None true n d0).2.
Local Definition d2 (mosi : bytes) : IosBasebandState := (ios_baseband_spi_xfer now (Some mosi) false t d1).2.

(** The modem once the given words are written. *)
Definition handed (ws' : list Z) : bool := negb (ct =? 0) && (zlen ws' =? ct).
Definition modem_after (ws' : list Z) : IosBasebandState := if handed ws' then d2 (bytes_of ws ws') else d1.

Definition frame_done (l : list fifo_op) : bool := (reads l =? cr) && (zlen (written l) =? ct).

(** What the accesses [l] have made of the controller. *)
Record frame_inv (l : list fifo_op) (vals : list Z) (s : IosBbSpiState) : Prop := mkFrame {
  fi_vals : vals = words_of ws (reads l) miso;
  fi_rx : bs_rx s = blit (bs_rx s0) 0 miso;
  fi_rx_len : bs_rx_len s = n;
  fi_rx_pos : bs_rx_pos s = ws * reads l;
  fi_tx : bs_tx s = bytes_of ws (written l);
  fi_modem : bs_modem s = Some (modem_after (written l));
  fi_regs : zlen (bs_regs s) = 64;
  fi_other : forall a, 0 <= a / 4 -> a / 4 <> R_STATUS / 4 -> bs_reg s a = bs_reg s0 a;
  fi_status : flagged (bs_reg s R_STATUS) ST_COMPLETE = frame_done l;
  fi_irq : bs_irq s = if frame_done l then flagged (bs_reg s0 R_CFG) CFG_IE_COMPLETE else bs_irq s0;
  fi_cdma : bs_cdma s = bs_cdma s0;
  fi_dones : sink_dones s = sink_dones s0 + b2z (bs_cdma s0 && handed (written l))
}.

Lemma ws_pos : 1 <= ws <= 4.
Proof. pose proof (bbspi_ws_range s0). rewrite (fr_ws R) in *. lia. Qed.

Lemma counts : 0 < cr /\ 0 <= ct.
Proof. pose proof ws_pos. destruct R. unfold FRAME_MAX in *. nia. Qed.

Lemma miso_len : zlen miso = n.
Proof.
  unfold miso. rewrite xfer_miso. destruct (ifx_tx n (dv_ifx d0)) as [f x'] eqn:E. cbn [fst].
  destruct R. by destruct (ifx_tx_spec n (dv_ifx d0) f x' fr_ifx0 ltac:(lia) E).
Qed.

Lemma d1_srdy : srdy_level d1 = true.
Proof. unfold d1. rewrite xfer_srdy. apply R. Qed.

Lemma after_srdy ws' : srdy_level (modem_after ws') = true.
Proof. unfold modem_after, d2. case_match; rewrite ?xfer_srdy; apply d1_srdy. Qed.

(** Registers other than the status give the same sizes and flags. *)
Lemma inv_sizes l vals s : frame_inv l vals s ->
  bbspi_ws s = ws /\ bbspi_bytes s R_RXCNT = n /\ bbspi_bytes s R_TXCNT = t /\ bbspi_clocked s = true /\
  bs_reg s R_CFG = bs_reg s0 R_CFG.
Proof.
  intros []. pose proof ws_pos. destruct R.
  assert (E1 : bs_reg s R_CFG = bs_reg s0 R_CFG) by (by apply fi_other0).
  assert (E2 : bbspi_ws s = ws) by (rewrite <- fr_ws0; unfold bbspi_ws; by rewrite E1).
  assert (E3 : bs_reg s R_RXCNT = cr) by (rewrite <- fr_rxcnt0; by apply fi_other0).
  assert (E4 : bs_reg s R_TXCNT = ct) by (rewrite <- fr_txcnt0; by apply fi_other0).
  unfold bbspi_bytes, FRAME_MAX in *. rewrite E2, E3, E4, <- fr_n0, <- fr_t0. unfold u32.
  rewrite !Z.mod_small by lia. split_and!; try done.
  unfold bbspi_clocked. rewrite fi_modem0, E1, fr_go0. unfold ios_baseband_spi_srdy. by rewrite after_srdy.
Qed.

(** The completion check at the end of an access. *)
Lemma inv_check l l' vals s :
  reads l <= cr -> zlen (written l) <= ct -> frame_done l' = false ->
  (forall s', bs_rx s' = bs_rx s -> bs_rx_len s' = bs_rx_len s -> bs_rx_pos s' = bs_rx_pos s -> bs_tx s' = bs_tx s ->
     bs_modem s' = bs_modem s -> bs_cdma s' = bs_cdma s -> sink_dones s' = sink_dones s -> zlen (bs_regs s') = 64 ->
     (forall a, 0 <= a / 4 -> a / 4 <> R_STATUS / 4 -> bs_reg s' a = bs_reg s a) ->
     flagged (bs_reg s' R_STATUS) ST_COMPLETE = frame_done l ->
     bs_irq s' = (if frame_done l then flagged (bs_reg s R_CFG) CFG_IE_COMPLETE else bs_irq s) -> frame_inv l vals s') ->
  zlen (bs_regs s) = 64 -> flagged (bs_reg s R_STATUS) ST_COMPLETE = frame_done l' ->
  bs_rx_len s = n -> bs_rx_pos s = ws * reads l -> zlen (bs_tx s) = ws * zlen (written l) ->
  bbspi_bytes s R_TXCNT = t ->
  frame_inv l vals (bbspi_check_done s).
Proof.
  intros Hr Hw D' K L St Rl Rp Tx T. pose proof ws_pos. pose proof counts. destruct R.
  unfold bbspi_check_done. rewrite T, Rl, Rp, Tx, St, D'. cbn [negb]. rewrite andb_true_r.
  replace (negb (n =? 0) && (n <=? ws * reads l) && ((t =? 0) || (t <=? ws * zlen (written l)))) with (frame_done l).
  2: { unfold frame_done. pose proof (zlen_nonneg (written l)).
       destruct (Z.eqb_spec (reads l) cr), (Z.eqb_spec (zlen (written l)) ct), (Z.eqb_spec n 0), (Z.eqb_spec t 0),
         (Z.leb_spec n (ws * reads l)), (Z.leb_spec t (ws * zlen (written l))); simpl; try done; nia. }
  destruct (frame_done l) eqn:D.
  - apply K; try done.
    + unfold bs_set. simpl. by rewrite zlen_wr.
    + intros a Ha Hne. change (bs_reg (bbspi_irq ?x) a) with (bs_reg x a). rewrite bs_reg_set by (done || lia).
      by rewrite (proj2 (Z.eqb_neq _ _)).
    + change (bs_reg (bbspi_irq ?x) R_STATUS) with (bs_reg x R_STATUS). rewrite bs_reg_set by (done || lia).
      rewrite Z.eqb_refl. by apply flagged_set.
    + unfold bbspi_irq. simpl. rewrite !bs_reg_set by (done || lia). cbn [Z.eqb].
      change (R_CFG / 4 =? R_STATUS / 4) with false. change (R_STATUS / 4 =? R_STATUS / 4) with true. cbv iota.
      rewrite flagged_set by done. apply andb_true_r.
  - apply K; try done. by rewrite St, D'.
Qed.

Lemma frame_started : frame_inv [] [] (bbspi_avail now false s0).2.
Proof.
  pose proof ws_pos. pose proof counts. pose proof miso_len as M. destruct R. unfold bbspi_avail, bbspi_clocked.
  rewrite fr_modem0, fr_go0. unfold ios_baseband_spi_srdy. rewrite fr_srdy0. cbn [negb andb snd].
  unfold bbspi_build_miso, bbspi_bytes. rewrite fr_modem0, fr_rxcnt0, fr_ws0, <- fr_n0, fr_rx_len0.
  unfold u32, FRAME_MAX in *. rewrite Z.mod_small, Z.min_l, (proj2 (Z.eqb_neq n 0)) by lia. cbn [negb andb Z.eqb].
  fold miso. unfold bbspi_modem. rewrite fr_modem0. cbv zeta. fold d1.
  assert (D : frame_done [] = false) by (unfold frame_done; change (reads []) with 0; by rewrite (proj2 (Z.eqb_neq 0 cr)) by lia).
  assert (H1 : handed [] = false).
  { unfold handed. change (zlen []) with 0. destruct (Z.eqb_spec ct 0), (Z.eqb_spec 0 ct); simpl; done || lia. }
  constructor; simpl; try done; try lia.
  - change (reads []) with 0. lia.
  - unfold modem_after. by rewrite H1.
  - by rewrite D.
  - by rewrite D.
  - rewrite H1, andb_false_r. simpl. lia.
Qed.

(** An access that finds the frame complete up to now changes nothing else. *)
Lemma inv_ask l vals s to_device : frame_inv l vals s -> frame_inv l vals (bbspi_avail now to_device s).2.
Proof.
  intros I. destruct (inv_sizes _ _ _ I) as (_ & _ & _ & C & _). unfold bbspi_avail. rewrite C. cbn [negb].
  destruct to_device; [done|]. cbn [snd]. unfold bbspi_build_miso. rewrite (fi_modem _ _ _ I), (fi_rx_len _ _ _ I).
  destruct R. rewrite (proj2 (Z.eqb_neq n 0)), andb_false_r by lia. done.
Qed.

Lemma inv_read l vals s : frame_inv l vals s -> reads l < cr -> zlen (written l) <= ct ->
  let '(v, s') := bbspi_read R_RXDATA s in frame_inv (l ++ [ReadRx]) (vals ++ [v]) s'.
Proof.
  intros I Hr Hw. destruct (inv_sizes _ _ _ I) as (E1 & _ & E3 & _ & E5). pose proof ws_pos. pose proof miso_len as M.
  assert (0 <= reads l) by apply zlen_nonneg. destruct I. pose proof R as [].
  unfold bbspi_read. rewrite Z.eqb_refl. cbn [negb]. rewrite E1, fi_rx_len0, fi_rx_pos0, fi_rx0.
  replace (Z.max 0 (Z.min ws (n - ws * reads l))) with ws by nia.
  assert (W : written (l ++ [ReadRx]) = written l) by (rewrite written_snoc; apply app_nil_r).
  assert (Rd : reads (l ++ [ReadRx]) = reads l + 1) by apply reads_snoc.
  assert (V : ztake ws (zdrop (ws * reads l) (blit (bs_rx s0) 0 miso)) = ztake ws (zdrop (ws * reads l) miso)).
  { assert (ws * reads l + ws <= n) by nia. unfold FRAME_MAX, zlen in *. rewrite blit_splice, take_0, app_nil_l by lia.
    unfold ztake, zdrop. rewrite drop_app_le, take_app_le by (rewrite ?length_drop; lia). done. }
  assert (D0 : frame_done l = false) by (unfold frame_done; by rewrite (proj2 (Z.eqb_neq _ _)) by lia).
  rewrite V. apply (inv_check _ l).
  - rewrite Rd. lia.
  - by rewrite W.
  - done.
  - simpl. intros s' A1 A2 A3 A4 A5 B1 B2 A6 A7 A8 A9. constructor; try done; try congruence.
    + by rewrite Rd, words_of_snoc, fi_vals0 by lia.
    + rewrite A3, Rd. lia.
    + intros a Ha Hn. rewrite A7 by done. by apply fi_other0.
    + rewrite A9. case_match; [by rewrite <- E5|by rewrite fi_irq0, D0].
  - done.
  - done.
  - done.
  - simpl. rewrite Rd. lia.
  - rewrite W. simpl. rewrite fi_tx0. apply zlen_bytes_of. lia.
  - done.
Qed.

Lemma inv_write l vals s w : frame_inv l vals s -> reads l <= cr -> zlen (written l) < ct ->
  frame_inv (l ++ [WriteTx w]) vals (bbspi_write now R_TXDATA w s).
Proof.
  intros I Hr Hw. destruct (inv_sizes _ _ _ I) as (E1 & _ & E3 & _ & E5). pose proof ws_pos. destruct I. pose proof R as [].
  assert (W : written (l ++ [WriteTx w]) = written l ++ [w]) by apply written_snoc.
  assert (Rd : reads (l ++ [WriteTx w]) = reads l) by (rewrite reads_snoc; simpl; lia).
  assert (Z1 : zlen (written l ++ [w]) = zlen (written l) + 1) by (rewrite zlen_app; by rewrite zlen_cons).
  change (bbspi_write now R_TXDATA w s) with (bbspi_write_txdata now w s). unfold bbspi_write_txdata. rewrite E3.
  set (s1 := s <| bs_tx ::= _ |>). unfold FRAME_MAX in *. rewrite Z.min_l in * by lia.
  assert (T1 : bs_tx s1 = bytes_of ws (written l ++ [w])).
  { rewrite bytes_of_snoc. unfold s1. simpl. rewrite E1, fi_tx0, zlen_bytes_of by lia. do 2 f_equal. nia. }
  assert (Z2 : zlen (bs_tx s1) = ws * (zlen (written l) + 1)) by (rewrite T1, zlen_bytes_of, Z1 by lia; done).
  rewrite Z2. change (bs_modem s1) with (bs_modem s). rewrite fi_modem0.
  assert (H0 : handed (written l) = false)
    by (unfold handed; by rewrite (proj2 (Z.eqb_neq (zlen (written l)) ct)), andb_false_r by lia).
  assert (D0 : frame_done l = false)
    by (unfold frame_done; by rewrite (proj2 (Z.eqb_neq (zlen (written l)) ct)), andb_false_r by lia).
  set (s2 := if _ : bool then _ else s1).
  assert (F : bs_modem s2 = Some (modem_after (written l ++ [w])) /\ bs_tx s2 = bs_tx s1 /\ bs_rx s2 = bs_rx s /\
              bs_rx_len s2 = bs_rx_len s /\ bs_rx_pos s2 = bs_rx_pos s /\ bs_regs s2 = bs_regs s /\ bs_irq s2 = bs_irq s /\
              bs_cdma s2 = bs_cdma s /\ sink_dones s2 = sink_dones s0 + b2z (bs_cdma s0 && handed (written l ++ [w]))).
  { unfold s2, modem_after. rewrite H0 in fi_dones0. unfold handed. rewrite Z1. unfold modem_after in fi_modem0. rewrite H0 in fi_modem0.
    replace (negb (t =? 0) && (ws * (zlen (written l) + 1) =? t)) with (negb (ct =? 0) && (zlen (written l) + 1 =? ct)).
    2: { destruct (Z.eqb_spec ct 0), (Z.eqb_spec t 0), (Z.eqb_spec (zlen (written l) + 1) ct),
           (Z.eqb_spec (ws * (zlen (written l) + 1)) t); simpl; try done; nia. }
    rewrite andb_false_r, Z.add_0_r in fi_dones0.
    destruct (negb (ct =? 0) && _); [|rewrite andb_false_r, Z.add_0_r; done]. rewrite T1. unfold bbspi_modem.
    change (bs_modem s1) with (bs_modem s). rewrite fi_modem0, andb_true_r. cbn [bs_cdma upd upd_bs_modem upd_bs_kick].
    change (bs_cdma s1) with (bs_cdma s). rewrite fi_cdma0. destruct (bs_cdma s0); cbn; rewrite ?Z.add_0_r, ?fi_dones0; done. }
  clearbody s2. destruct F as (F1 & F2 & F3 & F4 & F5 & F6 & F7 & F8 & F9).
  assert (RG : forall a, bs_reg s2 a = bs_reg s a) by (intros a; unfold bs_reg; by rewrite F6).
  apply (inv_check _ l).
  - by rewrite Rd.
  - rewrite W, Z1. lia.
  - done.
  - intros s' A1 A2 A3 A4 A5 B1 B2 A6 A7 A8 A9. constructor; try done; try congruence.
    + intros a Ha Hn. rewrite A7, RG by done. by apply fi_other0.
    + rewrite A9, RG, E5. case_match; [done|]. by rewrite F7, fi_irq0, D0.
  - by rewrite F6.
  - by rewrite RG.
  - congruence.
  - congruence.
  - rewrite F2, Z2, W, Z1. done.
  - rewrite <- E3. unfold bbspi_bytes, bbspi_ws. by rewrite !RG.
Qed.

Lemma inv_same l l' vals s : reads l' = reads l -> written l' = written l -> frame_inv l vals s -> frame_inv l' vals s.
Proof. intros E1 E2 []. constructor; unfold frame_done in *; by rewrite ?E1, ?E2. Qed.

Lemma frame_run l : reads l <= cr -> zlen (written l) <= ct ->
  let '(vals, s) := fifo_run now (AskRx :: l) s0 in frame_inv l vals s.
Proof.
  induction l as [|o l IH] using rev_ind; intros Hr Hw; [exact frame_started|].
  rewrite reads_snoc in Hr. rewrite written_snoc, zlen_app in Hw.
  assert (0 <= b2z (is_read o)) by (by destruct o).
  pose proof (zlen_nonneg (match o with WriteTx w => [w] | _ => [] end)).
  specialize (IH ltac:(lia) ltac:(lia)). unfold fifo_run in *. rewrite app_comm_cons, fold_left_app.
  destruct (fold_left _ (AskRx :: l) _) as [vals s]. cbn [fold_left fifo_step].
  destruct o; cbn [is_read b2z] in *.
  1,2: apply (inv_same l); [rewrite reads_snoc; simpl; lia|rewrite written_snoc; apply app_nil_r|by apply inv_ask].
  - change (zlen []) with 0 in Hw. pose proof (inv_read l vals s IH ltac:(lia) ltac:(lia)) as I.
    by destruct (bbspi_read R_RXDATA s).
  - change (zlen [w]) with 1 in Hw. apply inv_write; [done|lia|lia].
Qed.

End frame.

(** ** Theorems *)

Lemma written_app l k : written (l ++ k) = written l ++ written k.
Proof. apply omap_app. Qed.

Lemma reads_app l k : reads (l ++ k) = reads l + reads k.
Proof. unfold reads. by rewrite filter_app, zlen_app. Qed.

(** C19. A frame over the SPI block is one transfer each way.  Let a frame of 4 to
    4096 bytes to read and up to 4096 to write be set up, nothing of it moved, its
    completion bit clear and SRDY up; once the DMA engine has asked for receive
    data, let it read the receive FIFO and write the transmit FIFO in any
    interleaving, asking for room as often as it likes.  Then the words read are,
    in order, the frame the modem built, whose payload is the head of the modem's
    queue.  At every point of the interleaving: the modem has been handed all the
    words written if the last of them has arrived and none of them before (in a
    receive-only frame never), which is reported to the DMA engine once; the
    completion bit is set if and only if the last word in both directions has moved;
    and up to then the interrupt line stays as it was, while from then on it is the
    enable bit. *)
Theorem bbspi_frame now ws cr ct n t s d l :
  frame_ready ws cr ct n t s d -> reads l = cr -> zlen (written l) = ct ->
  let f := (ios_baseband_spi_xfer now None true n d).1 in
  let d1 := (ios_baseband_spi_xfer now None true n d).2 in
  (fifo_run now (AskRx :: l) s).1 = words_of ws cr f /\ zlen f = n /\
  ifx_payload f ++ (dv_ifx d1).(x_txq) = (dv_ifx d).(x_txq) /\
  forall l1 l2, l = l1 ++ l2 ->
    let s1 := (fifo_run now (AskRx :: l1) s).2 in
    let sent := negb (ct =? 0) && (zlen (written l1) =? ct) in
    let done := (reads l1 =? cr) && (zlen (written l1) =? ct) in
    bs_modem s1 = Some (if sent then (ios_baseband_spi_xfer now (Some (bytes_of ws (written l))) false t d1).2 else d1) /\
    sink_dones s1 = sink_dones s + b2z (bs_cdma s && sent) /\
    flagged (bs_reg s1 R_STATUS) ST_COMPLETE = done /\
    bs_irq s1 = if done then flagged (bs_reg s R_CFG) CFG_IE_COMPLETE else bs_irq s.
Proof.
  intros R Hr Hw. cbv zeta. split_and!.
  - pose proof (frame_run now ws cr ct n t s d R l ltac:(lia) ltac:(lia)) as I.
    destruct (fifo_run now (AskRx :: l) s) as [vals s']. destruct I. cbn [fst]. by rewrite fi_vals0, Hr.
  - by apply miso_len with (ws := ws) (cr := cr) (ct := ct) (t := t) (s0 := s).
  - rewrite xfer_miso, xfer_ifx.
    destruct (ifx_tx n (dv_ifx d)) as [f x'] eqn:E. destruct R.
    destruct (ifx_tx_spec n (dv_ifx d) f x' fr_ifx0 ltac:(lia) E) as (_ & _ & P & Q & _).
    cbn [fst snd]. rewrite P, Q. apply ztake_zdrop.
  - intros l1 l2 ->. rewrite reads_app in Hr. rewrite written_app, zlen_app in Hw.
    assert (0 <= reads l2) by apply zlen_nonneg. pose proof (zlen_nonneg (written l2)).
    pose proof (frame_run now ws cr ct n t s d R l1 ltac:(lia) ltac:(lia)) as J.
    destruct (fifo_run now (AskRx :: l1) s) as [vals1 s1]. destruct J. cbn [snd]. split_and!; try done.
    rewrite fi_modem0. unfold modem_after, handed. destruct (Z.eqb_spec (zlen (written l1)) ct); [|by rewrite andb_false_r].
    assert (written l2 = []) as E2 by (apply nil_length_inv; unfold zlen in *; lia).
    by rewrite written_app, E2, app_nil_r.
Qed.

(** A frame of two words each way, the modem with an answer queued. *)
Definition ex_spi : IosBbSpiState :=
  mkBbSpi (<[1%nat := 0x210040]> (<[13%nat := 2]> (<[19%nat := 2]> (replicate 64 0)))) [] (replicate 4096 0) 0 0
    (Some (ex_dev <| srdy_level := true |> <| dv_ifx; x_txq := [79; 75] |> <| dv_ifx; x_credits_in := 1 |>)) true false None false 0.

Definition ex_moves : list fifo_op := [WriteTx 0x3; ReadRx; AskTx; ReadRx; WriteTx 0x0d5441].

Lemma ex_spi_ready :
  frame_ready 4 2 2 8 8 ex_spi (ex_dev <| srdy_level := true |> <| dv_ifx; x_txq := [79; 75] |> <| dv_ifx; x_credits_in := 1 |>).
Proof. constructor; try (lazy; reflexivity); try (unfold FRAME_MAX; lia). constructor; lazy; (split; done) || done. Qed.

(** Nothing of it is complete before the last word. *)
Lemma bbspi_frame_witness :
  let before := (fifo_run 7 (AskRx :: take 4 ex_moves) ex_spi).2 in
  let '(vals, s') := fifo_run 7 (AskRx :: ex_moves) ex_spi in
  zlen vals = 2 /\ flagged (bs_reg s' R_STATUS) ST_COMPLETE = true /\ bs_irq s' = true /\ sink_dones s' = 1 /\
  flagged (bs_reg before R_STATUS) ST_COMPLETE = false /\ bs_irq before = false /\ sink_dones before = 0.
Proof.
  pose proof (bbspi_frame 7 4 2 2 8 8 ex_spi _ ex_moves ex_spi_ready eq_refl eq_refl) as H. cbv zeta in H.
  destruct H as (H1 & _ & _ & H). destruct (H ex_moves [] eq_refl) as (_ & D1 & C1 & I1).
  destruct (H (take 4 ex_moves) (drop 4 ex_moves) eq_refl) as (_ & D2 & C2 & I2). cbv zeta.
  destruct (fifo_run 7 (AskRx :: ex_moves) ex_spi) as [vals s']. cbn [fst snd] in *.
  split; [by rewrite H1|]. rewrite C1, I1, D1, C2, I2, D2. lazy. repeat split.
Defined.

(** ** Bounds *)

Record bbspi_wf (s : IosBbSpiState) : Prop := mkSpiWf {
  bw_regs : zlen (bs_regs s) = 64;
  bw_tx : zlen (bs_tx s) <= FRAME_MAX;
  bw_rx : zlen (bs_rx s) = FRAME_MAX;
  bw_rx_len : 0 <= bs_rx_len s <= FRAME_MAX;
  bw_rx_pos : 0 <= bs_rx_pos s <= bs_rx_len s
}.

(** Everything that reaches the controller. *)
Inductive spi_event :=
| SpRead (addr : Z)
| SpWrite (now addr val : Z)
| SpAvail (now : Z) (to_device : bool)
| SpReset
| SpKick
| SpIdle (now : Z)
| SpModem (f : IosBasebandState -> IosBasebandState).

Definition spi_step (s : IosBbSpiState) (e : spi_event) : IosBbSpiState :=
  match e with
  | SpRead addr => (bbspi_read addr s).2
  | SpWrite now addr val => bbspi_write now addr val s
  | SpAvail now to_device => (bbspi_avail now to_device s).2
  | SpReset => bbspi_reset s
  | SpKick => (bbspi_kick s).2
  | SpIdle now => bbspi_idle now s
  | SpModem f => bbspi_modem f s
  end.

Lemma wf_modem f s : bbspi_wf s -> bbspi_wf (bbspi_modem f s).
Proof. intros []. unfold bbspi_modem. case_match; by constructor. Qed.

Lemma wf_set a v s : bbspi_wf s -> bbspi_wf (bs_set a v s).
Proof. intros []. constructor; try assumption. unfold bs_set. simpl. by rewrite zlen_wr. Qed.

Lemma wf_irq s : bbspi_wf s -> bbspi_wf (bbspi_irq s).
Proof. intros []. by constructor. Qed.

Lemma wf_start s : bbspi_wf s -> bbspi_wf (bbspi_start s).
Proof. intros []. by constructor. Qed.

Lemma wf_check s : bbspi_wf s -> bbspi_wf (bbspi_check_done s).
Proof. intros W. unfold bbspi_check_done. cbv zeta. case_match; [|done]. by apply wf_irq, wf_set. Qed.

Lemma wf_no_rx s : bbspi_wf s -> bbspi_wf (s <| bs_rx_len := 0 |> <| bs_rx_pos := 0 |>).
Proof. intros []. constructor; simpl; try assumption; unfold FRAME_MAX; lia. Qed.

Lemma wf_no_tx s : bbspi_wf s -> bbspi_wf (s <| bs_tx := [] |>).
Proof. intros []. constructor; simpl; try assumption. by vm_compute. Qed.

Lemma wf_idle_set t s : bbspi_wf s -> bbspi_wf (s <| bs_idle := t |>).
Proof. intros []. by constructor. Qed.

Create HintDb bbspi.
#[export] Hint Resolve wf_modem wf_set wf_irq wf_start wf_check wf_no_rx wf_no_tx wf_idle_set : bbspi.

Lemma wf_build now s : bbspi_wf s -> bbspi_wf (bbspi_build_miso now s).
Proof.
  intros W. unfold bbspi_build_miso. cbv zeta. case_match; [|done]. case_match; [|done].
  destruct (wf_modem (fun d => (ios_baseband_spi_xfer now None true (Z.min (bbspi_bytes s R_RXCNT) FRAME_MAX) d).2) s W).
  assert (0 <= bbspi_bytes s R_RXCNT) by (unfold bbspi_bytes, u32; apply Z.mod_pos_bound; lia).
  constructor; simpl; try assumption; unfold FRAME_MAX in *; try lia.
  unfold zlen in *. by rewrite length_blit.
Qed.

Lemma wf_read addr s : bbspi_wf s -> bbspi_wf (bbspi_read addr s).2.
Proof.
  intros W. unfold bbspi_read. case_match; [done|]. cbn [snd]. apply wf_check. destruct W.
  constructor; simpl; try assumption. pose proof (bbspi_ws_range s). lia.
Qed.

Lemma wf_flush now s : bbspi_wf s -> bbspi_wf (bbspi_flush now s).
Proof.
  intros W. unfold bbspi_flush. cbv zeta. apply wf_set.
  match goal with |- bbspi_wf (?x <| bs_tx := _ |> <| _ := _ |> <| _ := _ |>) => assert (W' : bbspi_wf x) by (case_match; auto with bbspi) end.
  apply (wf_no_rx _ (wf_no_tx _ W')).
Qed.
#[export] Hint Resolve wf_flush : bbspi.

Lemma wf_txdata now val s : bbspi_wf s -> bbspi_wf (bbspi_write_txdata now val s).
Proof.
  intros W. unfold bbspi_write_txdata. cbv zeta. apply wf_check. set (s1 := s <| bs_tx ::= _ |>).
  assert (W1 : bbspi_wf s1).
  { destruct W. constructor; simpl; try assumption. rewrite zlen_app, zlen_ztake. change (zlen (le32 val)) with 4. lia. }
  clearbody s1. case_match; [|done]. case_match; [|done].
  assert (bbspi_wf (bbspi_modem (fun d => (ios_baseband_spi_xfer now (Some (bs_tx s1)) false (Z.min (bbspi_bytes s R_TXCNT) FRAME_MAX) d).2) s1)) as W2 by auto with bbspi.
  case_match; [|done]. destruct W2. by constructor.
Qed.

Lemma wf_write now addr val s : bbspi_wf s -> bbspi_wf (bbspi_write now addr val s).
Proof.
  intros W. unfold bbspi_write, bbspi_write_ctrl, bbspi_write_cfg. cbv zeta.
  repeat case_match; auto 8 using wf_txdata with bbspi.
  all: apply wf_irq, wf_no_rx; auto with bbspi.
Qed.

Lemma spi_step_wf e s : bbspi_wf s -> bbspi_wf (spi_step s e).
Proof.
  intros W. destruct e; cbn [spi_step]; auto using wf_read, wf_write with bbspi.
  - unfold bbspi_avail. repeat case_match; cbn [snd]; auto using wf_build.
  - destruct W. constructor; try assumption; [done|by vm_compute|simpl; unfold FRAME_MAX; lia|simpl; lia].
  - destruct W. by constructor.
  - unfold bbspi_idle. cbv zeta. case_match; auto with bbspi.
Qed.

(** Whatever the guest, the DMA engine and the modem do, the state can be saved
    and loaded again. *)
Lemma bbspi_loadable es s : bbspi_wf s -> bbspi_post_load (fold_left spi_step es s) = true.
Proof.
  intros W. assert (W' : bbspi_wf (fold_left spi_step es s)) by (revert s W; induction es; intros; simpl; auto using spi_step_wf).
  destruct W'. unfold bbspi_post_load. rewrite !andb_true_iff, !Z.leb_le. lia.
Qed.

(** A transmit count beyond the buffer is cut for the FIFO but not for the
    completion check: such a frame never completes. *)
Lemma bbspi_oversize_stuck s : bbspi_wf s -> FRAME_MAX < bbspi_bytes s R_TXCNT -> bbspi_check_done s = s.
Proof.
  intros [] H. unfold bbspi_check_done. cbv zeta.
  rewrite (proj2 (Z.eqb_neq (bbspi_bytes s R_TXCNT) 0)), (proj2 (Z.leb_gt (bbspi_bytes s R_TXCNT) _)) by (unfold FRAME_MAX in *; lia).
  by rewrite andb_false_r.
Qed.

(** A word written after the last one hands the whole frame to the modem again. *)
Lemma bbspi_extra_word_repeats :
  let s := (fifo_run 7 (AskRx :: ex_moves) ex_spi).2 in
  sink_dones s = 1 /\ sink_dones (bbspi_write 7 R_TXDATA 0 s) = 2 /\ bs_tx (bbspi_write 7 R_TXDATA 0 s) = bs_tx s.
Proof. split_and!; lazy; reflexivity. Qed.
