(* ===== verification/CdmaAes.v ===== *)
(** * The A4's DMA engine: state and AES filter

    [src/hw/arm/s5l8930_cdma.c], the channels' and contexts' state, the AES filter
    and the queue between a feeding and a draining channel.  The block cipher of
    QEMU's crypto back end is a parameter; its CBC mode is written out. *)

From Stdlib Require Import ZArith Lia.
From stdpp Require Import base numbers list.
From S2P Require Import Prelude CLib HwLib.
Local Open Scope Z_scope.

Definition CDMA_CHANNELS : Z := 0x26.
Definition AES_CONTEXTS : Z := 9.
Definition CDMA_MAX_SEGMENT : Z := 16777216.
Definition CDMA_FIFO_MAX : Z := CDMA_MAX_SEGMENT.
Definition GID_BLOB_SIZE : Z := 48.
Definition S5L8930_DRAM_BASE : Z := 0x40000000.

(** AES context setup word *)
Definition AES_CHAN (setup : Z) : Z := Z.land (Z.shiftr setup 8) 0xff.
Definition AES_ENCRYPT : Z := 0x10000.
Definition AES_ENABLE : Z := 0x20000.
Definition AES_KEYLEN (setup : Z) : Z := Z.land (Z.shiftr setup 18) 3.
Definition AES_KEY_CUSTOM : Z := 0x100000.
Definition AES_KEY_GID : Z := 0x200000.

(** [struct CDMAChannel] *)
Record CDMAChannel := mkChan_cdma {
  cd_ctrl : Z;
  cd_settings : Z;
  cd_fifo : Z;
  cd_remain : Z;
  cd_addr : Z;
  cd_desc : Z;
  cd_error : Z;
  cd_in_seg : bool
}.

Definition eta_CDMAChannel (r : CDMAChannel) : CDMAChannel :=
  mkChan_cdma (cd_ctrl r) (cd_settings r) (cd_fifo r) (cd_remain r) (cd_addr r) (cd_desc r) (cd_error r)
    (cd_in_seg r).
#[global] Instance upd_cd_ctrl : Upd cd_ctrl := ltac:(derive_upd eta_CDMAChannel cd_ctrl).
#[global] Instance upd_cd_settings : Upd cd_settings := ltac:(derive_upd eta_CDMAChannel cd_settings).
#[global] Instance upd_cd_fifo : Upd cd_fifo := ltac:(derive_upd eta_CDMAChannel cd_fifo).
#[global] Instance upd_cd_remain : Upd cd_remain := ltac:(derive_upd eta_CDMAChannel cd_remain).
#[global] Instance upd_cd_addr : Upd cd_addr := ltac:(derive_upd eta_CDMAChannel cd_addr).
#[global] Instance upd_cd_desc : Upd cd_desc := ltac:(derive_upd eta_CDMAChannel cd_desc).
#[global] Instance upd_cd_error : Upd cd_error := ltac:(derive_upd eta_CDMAChannel cd_error).
#[global] Instance upd_cd_in_seg : Upd cd_in_seg := ltac:(derive_upd eta_CDMAChannel cd_in_seg).

(** [struct AESContext]; [ax_carry] is the prefix of [carry] that [carry_len] counts. *)
Record AESContext := mkAes {
  ax_setup : Z;
  ax_iv : list Z;
  ax_key : list Z;
  ax_chain : bytes;
  ax_carry : bytes
}.

Definition eta_AESContext (r : AESContext) : AESContext :=
  mkAes (ax_setup r) (ax_iv r) (ax_key r) (ax_chain r) (ax_carry r).
#[global] Instance upd_ax_setup : Upd ax_setup := ltac:(derive_upd eta_AESContext ax_setup).
#[global] Instance upd_ax_iv : Upd ax_iv := ltac:(derive_upd eta_AESContext ax_iv).
#[global] Instance upd_ax_key : Upd ax_key := ltac:(derive_upd eta_AESContext ax_key).
#[global] Instance upd_ax_chain : Upd ax_chain := ltac:(derive_upd eta_AESContext ax_chain).
#[global] Instance upd_ax_carry : Upd ax_carry := ltac:(derive_upd eta_AESContext ax_carry).

(** [struct S5L8930CDMAState]; a source is the base and size of its window, and
    [dm_fifo] is what [fifo_len] counts. *)
Record S5L8930CDMAState := mkCdma {
  dm_dram_size : Z;
  dm_irq : list bool;
  dm_enabled : list Z;
  dm_version : Z;
  dm_paced_base : Z;
  dm_paced_ports : Z;
  dm_ch : list CDMAChannel;
  dm_aes : list AESContext;
  dm_fifo : bytes;
  dm_gid_warned : bool;
  dm_gid_data : bytes;
  dm_src : list (option (Z * Z));
  dm_paced : list bool;
  dm_sink_pending : list bool;
  dm_in_run : list bool;
  dm_sink_early : list bool;
  dm_paced_start : list Z;
  dm_paced_end : list Z;
  dm_paced_desc : list Z;
  dm_paced_sent : list Z;
  dm_paced_bps : list Z;
  dm_pace_timer : option Z
}.

Definition eta_S5L8930CDMAState (r : S5L8930CDMAState) : S5L8930CDMAState :=
  mkCdma (dm_dram_size r) (dm_irq r) (dm_enabled r) (dm_version r) (dm_paced_base r) (dm_paced_ports r) (dm_ch r)
    (dm_aes r) (dm_fifo r) (dm_gid_warned r) (dm_gid_data r) (dm_src r) (dm_paced r) (dm_sink_pending r)
    (dm_in_run r) (dm_sink_early r) (dm_paced_start r) (dm_paced_end r) (dm_paced_desc r) (dm_paced_sent r)
    (dm_paced_bps r) (dm_pace_timer r).
#[global] Instance upd_dm_dram_size : Upd dm_dram_size := ltac:(derive_upd eta_S5L8930CDMAState dm_dram_size).
#[global] Instance upd_dm_irq : Upd dm_irq := ltac:(derive_upd eta_S5L8930CDMAState dm_irq).
#[global] Instance upd_dm_enabled : Upd dm_enabled := ltac:(derive_upd eta_S5L8930CDMAState dm_enabled).
#[global] Instance upd_dm_version : Upd dm_version := ltac:(derive_upd eta_S5L8930CDMAState dm_version).
#[global] Instance upd_dm_paced_base : Upd dm_paced_base := ltac:(derive_upd eta_S5L8930CDMAState dm_paced_base).
#[global] Instance upd_dm_paced_ports : Upd dm_paced_ports := ltac:(derive_upd eta_S5L8930CDMAState dm_paced_ports).
#[global] Instance upd_dm_ch : Upd dm_ch := ltac:(derive_upd eta_S5L8930CDMAState dm_ch).
#[global] Instance upd_dm_aes : Upd dm_aes := ltac:(derive_upd eta_S5L8930CDMAState dm_aes).
#[global] Instance upd_dm_fifo : Upd dm_fifo := ltac:(derive_upd eta_S5L8930CDMAState dm_fifo).
#[global] Instance upd_dm_gid_warned : Upd dm_gid_warned := ltac:(derive_upd eta_S5L8930CDMAState dm_gid_warned).
#[global] Instance upd_dm_gid_data : Upd dm_gid_data := ltac:(derive_upd eta_S5L8930CDMAState dm_gid_data).
#[global] Instance upd_dm_src : Upd dm_src := ltac:(derive_upd eta_S5L8930CDMAState dm_src).
#[global] Instance upd_dm_paced : Upd dm_paced := ltac:(derive_upd eta_S5L8930CDMAState dm_paced).
#[global] Instance upd_dm_sink_pending : Upd dm_sink_pending := ltac:(derive_upd eta_S5L8930CDMAState dm_sink_pending).
#[global] Instance upd_dm_in_run : Upd dm_in_run := ltac:(derive_upd eta_S5L8930CDMAState dm_in_run).
#[global] Instance upd_dm_sink_early : Upd dm_sink_early := ltac:(derive_upd eta_S5L8930CDMAState dm_sink_early).
#[global] Instance upd_dm_paced_start : Upd dm_paced_start := ltac:(derive_upd eta_S5L8930CDMAState dm_paced_start).
#[global] Instance upd_dm_paced_end : Upd dm_paced_end := ltac:(derive_upd eta_S5L8930CDMAState dm_paced_end).
#[global] Instance upd_dm_paced_desc : Upd dm_paced_desc := ltac:(derive_upd eta_S5L8930CDMAState dm_paced_desc).
#[global] Instance upd_dm_paced_sent : Upd dm_paced_sent := ltac:(derive_upd eta_S5L8930CDMAState dm_paced_sent).
#[global] Instance upd_dm_paced_bps : Upd dm_paced_bps := ltac:(derive_upd eta_S5L8930CDMAState dm_paced_bps).
#[global] Instance upd_dm_pace_timer : Upd dm_pace_timer := ltac:(derive_upd eta_S5L8930CDMAState dm_pace_timer).

Definition chan0_cdma : CDMAChannel := mkChan_cdma 0 0 0 0 0 0 0 false.
Definition aes0 : AESContext := mkAes 0 (replicate 4 0) (replicate 8 0) (replicate 16 0) [].

Definition get_chan (ch : Z) (s : S5L8930CDMAState) : CDMAChannel := default chan0_cdma (dm_ch s !! Z.to_nat ch).
Definition upd_chan (ch : Z) (f : CDMAChannel -> CDMAChannel) (s : S5L8930CDMAState) : S5L8930CDMAState :=
  s <| dm_ch ::= alter f (Z.to_nat ch) |>.
Definition get_aes (i : Z) (s : S5L8930CDMAState) : AESContext := default aes0 (dm_aes s !! Z.to_nat i).
Definition upd_aes (i : Z) (f : AESContext -> AESContext) (s : S5L8930CDMAState) : S5L8930CDMAState :=
  s <| dm_aes ::= alter f (Z.to_nat i) |>.
Definition flag_at (l : list bool) (ch : Z) : bool := default false (l !! Z.to_nat ch).

(** ** The cipher *)

(** One block of 16 bytes under a key of 16, 24 or 32. *)
Class BlockCipher := {
  blk_encrypt : bytes -> bytes -> bytes;
  blk_decrypt : bytes -> bytes -> bytes
}.

Definition xor_bytes (a b : bytes) : bytes := zip_with Z.lxor a b.

Section Filter.
Context `{BlockCipher}.

(** CBC of [n] blocks. *)
Fixpoint cbc_encrypt (n : nat) (key iv data : bytes) : bytes :=
  match n with
  | O => []
  | S n => let c := blk_encrypt key (xor_bytes iv (take 16 data)) in c ++ cbc_encrypt n key c (drop 16 data)
  end.

Fixpoint cbc_decrypt (n : nat) (key iv data : bytes) : bytes :=
  match n with
  | O => []
  | S n => let c := take 16 data in xor_bytes iv (blk_decrypt key c) ++ cbc_decrypt n key c (drop 16 data)
  end.

Definition cbc (encrypt : bool) (key iv data : bytes) : bytes :=
  (if encrypt then cbc_encrypt else cbc_decrypt) (length data / 16)%nat key iv data.

(** ** Keys *)

Definition cdma_uid_key : bytes :=
  [0x4b; 0x34; 0x38; 0x41; 0x50; 0x2d; 0x55; 0x49; 0x44; 0x2d; 0x53; 0x35; 0x4c; 0x38; 0x39; 0x33;
   0x30; 0x2d; 0x69; 0x50; 0x61; 0x64; 0x31; 0x2d; 0x37; 0x42; 0x35; 0x30; 0x30; 0x2d; 0x30; 0x31].

(** The key length of [algos[AES_KEYLEN(setup)]] *)
Definition aes_key_len (setup : Z) : Z :=
  let k := AES_KEYLEN setup in if k =? 0 then 16 else if k =? 1 then 24 else 32.

Fixpoint gid_find (fuel : nat) (data buf : bytes) : option bytes :=
  match fuel, data with
  | O, _ | _, [] => None
  | S fuel, _ =>
      if bool_decide (ztake GID_BLOB_SIZE data = buf) then Some (ztake GID_BLOB_SIZE (zdrop GID_BLOB_SIZE data))
      else gid_find fuel (zdrop (2 * GID_BLOB_SIZE) data) buf
  end.

Definition gid_lookup (s : S5L8930CDMAState) (buf : bytes) : option bytes :=
  if negb (zlen buf =? GID_BLOB_SIZE) then None
  else gid_find (length (dm_gid_data s)) (dm_gid_data s) buf.

Definition words_bytes (l : list Z) : bytes := mjoin (le32 <$> l).

(** The key a context selects, when it is not answered from the table. *)
Definition aes_key (c : AESContext) : bytes :=
  if flagged (ax_setup c) AES_KEY_CUSTOM then ztake (aes_key_len (ax_setup c)) (words_bytes (ax_key c))
  else cdma_uid_key.

(** [last]: the last block of ciphertext *)
Definition last_block (buf : bytes) : bytes := zdrop (zlen buf - 16) buf.

(** [aes_apply]: whether it worked, the buffer and the state. *)
Definition aes_apply (i : Z) (buf : bytes) (restart : bool) (s : S5L8930CDMAState)
  : bool * bytes * S5L8930CDMAState :=
  if negb (zlen buf mod 16 =? 0) then (false, buf, s)
  else
    let s := if restart then upd_aes i (fun c => c <| ax_chain := words_bytes (ax_iv c) |>) s else s in
    let c := get_aes i s in
    let encrypt := flagged (ax_setup c) AES_ENCRYPT in
    let gid := negb (flagged (ax_setup c) AES_KEY_CUSTOM) && flagged (ax_setup c) AES_KEY_GID in
    match (if gid && negb encrypt then gid_lookup s buf else None) with
    | Some b => (true, b, s)
    | None =>
        let s := if gid then s <| dm_gid_warned := true |> else s in
        let out := cbc encrypt (aes_key c) (ax_chain c) buf in
        let last := last_block (if encrypt then out else buf) in
        (true, out, upd_aes i (fun c => c <| ax_chain := last |>) s)
    end.

(** ** The engine's queue *)

Definition fifo_push (buf : bytes) (s : S5L8930CDMAState) : bool * S5L8930CDMAState :=
  if it_guard_range (zlen (dm_fifo s)) (zlen buf) CDMA_FIFO_MAX then (true, s <| dm_fifo ::= fun q => q ++ buf |>)
  else (false, s).

Definition fifo_pop (len : Z) (s : S5L8930CDMAState) : bytes * S5L8930CDMAState :=
  let len := Z.min len (zlen (dm_fifo s)) in
  (ztake len (dm_fifo s), s <| dm_fifo ::= zdrop len |>).

(** [aes_feed]: whole blocks go through the engine, the rest is carried over. *)
Definition aes_feed (i : Z) (buf : bytes) (restart : bool) (s : S5L8930CDMAState) : bool * S5L8930CDMAState :=
  let s := if restart then upd_aes i (fun c => c <| ax_carry := [] |> <| ax_chain := words_bytes (ax_iv c) |>) s else s in
  let work := ax_carry (get_aes i s) ++ buf in
  let whole := Z.land (zlen work) (Z.lnot 15) in
  let '(ok, s) :=
    if negb (whole =? 0) then
      let '(ok, out, s) := aes_apply i (ztake whole work) false s in
      let '(pushed, s) := fifo_push out s in
      (pushed && ok, s)
    else (true, s) in
  (ok, upd_aes i (fun c => c <| ax_carry := zdrop whole work |>) s).
End Filter.

(** The first enabled context bound to a channel. *)
Definition aes_for_channel (s : S5L8930CDMAState) (ch : Z) : option Z :=
  head (filter (fun i => flagged (ax_setup (get_aes i s)) AES_ENABLE && (AES_CHAN (ax_setup (get_aes i s)) =? ch) = true)
          (seqZ 1 (AES_CONTEXTS - 1))).
