(* ===== verification/Cdma.v ===== *)
(** * The A4's DMA engine: channels

    [src/hw/arm/s5l8930_cdma.c], the descriptor walk, the register windows, the
    channels paced by a sample clock and snapshots.  What lies behind a channel's
    device address is a parameter: a class of ports that the walk asks for room
    or data, pushes to and pops from.  Guest memory is a function; whether the
    read of a descriptor succeeds is a parameter.  The sample rate of an I2S port
    is an argument. *)

From Stdlib Require Import ZArith Lia.
From stdpp Require Import base numbers list.
From S2P Require Import Prelude CLib HwLib CdmaAes.
Local Open Scope Z_scope.

Definition CDMA_CHAN_SHIFT : Z := 12.
Definition CH_CTRL : Z := 0x00.
Definition CH_SETTINGS : Z := 0x04.
Definition CH_FIFO : Z := 0x08.
Definition CH_REMAIN : Z := 0x0C.
Definition CH_ADDR : Z := 0x10.
Definition CH_DESC : Z := 0x14.
Definition CH_ERROR : Z := 0x18.
Definition CTRL_GO : Z := 0x1.
Definition CTRL_RESET : Z := 0x2.
Definition CTRL_ABORT : Z := 0x4.
Definition CTRL_IRQ_EN : Z := 0x8.
Definition CTRL_HOLD : Z := 0x20.
Definition CTRL_CONFIG_MASK : Z := 0xFFF8.
Definition CTRL_AES_CTX (ctrl : Z) : Z := Z.land (Z.shiftr ctrl 8) 0xFF.
Definition ST_RUNNING : Z := 0x10000.
Definition ST_HELD : Z := 0x20000.
Definition ST_ERROR : Z := 0x40000.
Definition ST_DONE : Z := 0x80000.
Definition ST_FLAG : Z := 0x100000.
Definition ST_ABORTED : Z := 0x200000.
Definition ST_W1C : Z := Z.lor (Z.lor (Z.lor ST_ERROR ST_DONE) ST_FLAG) ST_ABORTED.
Definition SET_TO_DEVICE : Z := 0x2.
Definition DESC_TYPE_MASK : Z := 0xF.
Definition DESC_DATA : Z := 0x3.
Definition DESC_IV : Z := 0x2.
Definition DESC_LAST : Z := 0x100.
Definition DESC_AES : Z := 0x10000.
Definition DESC_AES_RESTART : Z := 0x20000.
Definition AES_SETUP : Z := 0x00.
Definition AES_IV : Z := 0x10.
Definition AES_KEY : Z := 0x20.
Definition S5L8930_UART_BASE (n : Z) : Z := 0x82500000 + n * 0x100000.
Definition CDMA_PACED_STEP_NS : Z := 1000000.
Definition CDMA_PACED_CONTINUE_NS : Z := 50000000.
Definition NANOSECONDS_PER_SECOND : Z := 1000000000.

(** ** Devices behind the channels *)

(** What a device FIFO offers: how much it has or has room for, one access each
    way, and the windows it reports as drained while it takes a push. *)
Class FifoPort (D : Type) := {
  port_avail : Z -> bool -> D -> Z * D;
  port_push : Z -> bytes -> D -> D * list (Z * Z);
  port_pop : Z -> Z -> D -> bytes * D
}.

(** The engine with guest memory and the devices. *)
Record CdmaWorld (D : Type) := mkWorld {
  w_cdma : S5L8930CDMAState;
  w_mem : Z -> Z;
  w_dev : D
}.
Arguments mkWorld {D}.
Arguments w_cdma {D}.
Arguments w_mem {D}.
Arguments w_dev {D}.

#[global] Instance upd_w_cdma {D} : Upd (@w_cdma D) := fun f w => mkWorld (f (w_cdma w)) (w_mem w) (w_dev w).
#[global] Instance upd_w_mem {D} : Upd (@w_mem D) := fun f w => mkWorld (w_cdma w) (f (w_mem w)) (w_dev w).
#[global] Instance upd_w_dev {D} : Upd (@w_dev D) := fun f w => mkWorld (w_cdma w) (w_mem w) (f (w_dev w)).

(** ** Where a channel leads *)

Definition cdma_is_memory (s : S5L8930CDMAState) (addr : Z) : bool :=
  (S5L8930_DRAM_BASE <=? addr) && (addr <? S5L8930_DRAM_BASE + dm_dram_size s).

(** Whether the window of a pacing source holds the address. *)
Definition cdma_src (s : S5L8930CDMAState) (addr : Z) : bool :=
  existsb (fun o => match o with Some (base, size) => (base <=? addr) && (addr - base <? size) | None => false end) (dm_src s).

Definition cdma_fifo_fed (s : S5L8930CDMAState) (c : CDMAChannel) : bool :=
  negb (cdma_is_memory s (cd_fifo c)) && negb (flagged (cd_settings c) SET_TO_DEVICE) && cdma_src s (cd_fifo c).

Definition cdma_waits_for_uart (c : CDMAChannel) : bool :=
  negb (flagged (cd_settings c) SET_TO_DEVICE) && (S5L8930_UART_BASE 0 <=? cd_fifo c) &&
  (cd_fifo c <? S5L8930_UART_BASE 6) && (Z.land (cd_fifo c) 0xfffff =? 0x24).

Definition cdma_update_irq (ch : Z) (s : S5L8930CDMAState) : S5L8930CDMAState :=
  let c := get_chan ch s in
  let en := Z.testbit (rd (dm_enabled s) (Z.shiftr ch 5)) (Z.land ch 31) in
  let en := if negb (flagged (cd_ctrl c) CTRL_IRQ_EN) && ((cd_fifo c =? 0) || cdma_is_memory s (cd_fifo c))
            then false else en in
  s <| dm_irq ::= fun l => wr l ch (en && flagged (cd_ctrl c) (Z.lor ST_DONE ST_ERROR)) |>.

(** Every channel but the global block's slot, in order. *)
Definition channels : list Z := seqZ 1 (CDMA_CHANNELS - 1).

(** The device has taken what was pushed into its window. *)
Definition sink_done_chan (fifo_base size ch : Z) (s : S5L8930CDMAState) : S5L8930CDMAState :=
  let here := (fifo_base <=? cd_fifo (get_chan ch s)) && (cd_fifo (get_chan ch s) <? u32 (fifo_base + size)) in
  let s := if flag_at (dm_in_run s) ch && here then s <| dm_sink_early ::= fun l => wr l ch true |> else s in
  if flag_at (dm_sink_pending s) ch && negb (cd_in_seg (get_chan ch s)) && here then
    let s := s <| dm_sink_pending ::= fun l => wr l ch false |> in
    cdma_update_irq ch (upd_chan ch (fun c => c <| cd_ctrl ::= fun v => Z.lor (Z.ldiff v ST_RUNNING) ST_DONE |>) s)
  else s.

Definition s5l8930_cdma_sink_done (fifo_base size : Z) (s : S5L8930CDMAState) : S5L8930CDMAState :=
  fold_left (fun s ch => sink_done_chan fifo_base size ch s) channels s.

(** A descriptor's four words: next, flags, address, length. *)
Definition desc_word (mem : Z -> Z) (d i : Z) : Z := ld_le32 (phys_read mem (d + 4 * i) 4) 0.

(** What [cdma_run] settles on entry. *)
Record run_env := mkEnv {
  re_dev_mem : bool;
  re_fed : bool;
  re_dev_fifo : bool;
  re_feeds : bool;
  re_drains : bool;
  re_to_device : bool;
  re_width : Z
}.

Definition chan_width (c : CDMAChannel) : Z := Z.shiftl 1 (Z.land (Z.shiftr (cd_settings c) 2) 3).

(** The context that makes a memory-to-memory channel feed the AES engine. *)
Definition ctx_of (s : S5L8930CDMAState) (c : CDMAChannel) : option Z :=
  let ctx := CTRL_AES_CTX (cd_ctrl c) in
  let dev_fifo := negb (cd_fifo c =? 0) && negb (cdma_is_memory s (cd_fifo c)) in
  if (0 <? ctx) && (ctx <? AES_CONTEXTS) && negb (cdma_fifo_fed s c) && negb dev_fifo then Some ctx else None.

Definition env_of (s : S5L8930CDMAState) (c : CDMAChannel) : run_env :=
  let dev_mem := cdma_is_memory s (cd_fifo c) in
  let feeds := match ctx_of s c with Some _ => true | None => false end in
  mkEnv dev_mem (cdma_fifo_fed s c) (negb (cd_fifo c =? 0) && negb dev_mem) feeds
    (negb feeds && (cd_fifo c =? 0) && (cd_settings c =? 0))
    (feeds || flagged (cd_settings c) SET_TO_DEVICE) (chan_width c).

(** How a turn of the walk ends: on to the next descriptor, the end of the chain,
    waiting for the device inside a segment, or with an error code. *)
Inductive turn :=
  | TNext | TStop | TStall | TError (e : Z).

Section Engine.
Context {D : Type} `{FifoPort D} `{BlockCipher} (desc_ok : Z -> bool).

(** ** Device FIFOs *)

(** Cut into accesses of at most [width] bytes. *)
Fixpoint chunks (fuel : nat) (width : Z) (buf : bytes) : list bytes :=
  match fuel, buf with
  | O, _ | _, [] => []
  | S fuel, _ => ztake width buf :: chunks fuel width (zdrop width buf)
  end.

Definition fifo_push_one (fifo : Z) (w : CdmaWorld D) (chunk : bytes) : CdmaWorld D :=
  let '(d, drained) := port_push fifo chunk (w_dev w) in
  w <| w_dev := d |>
    <| w_cdma ::= fun s => fold_left (fun s p => s5l8930_cdma_sink_done p.1 p.2 s) drained s |>.

(** [cdma_fifo_xfer] to the device *)
Definition fifo_write (fifo width : Z) (buf : bytes) (w : CdmaWorld D) : CdmaWorld D :=
  fold_left (fifo_push_one fifo) (chunks (length buf) width buf) w.

(** [cdma_fifo_xfer] from the device; a turn takes at least one byte. *)
Fixpoint fifo_read (fuel : nat) (fifo width len : Z) (w : CdmaWorld D) : bytes * CdmaWorld D :=
  match fuel with
  | O => ([], w)
  | S fuel =>
      if len <=? 0 then ([], w)
      else
        let '(b, d) := port_pop fifo (Z.min width len) (w_dev w) in
        let '(rest, w) := fifo_read fuel fifo width (len - width) (w <| w_dev := d |>) in
        (b ++ rest, w)
  end.

(** ** One segment *)

Definition setc (ch : Z) (f : CDMAChannel -> CDMAChannel) (w : CdmaWorld D) : CdmaWorld D :=
  w <| w_cdma ::= upd_chan ch f |>.
Definition chan (ch : Z) (w : CdmaWorld D) : CDMAChannel := get_chan ch (w_cdma w).

(** Whether the device's source paces the channel. *)
Definition sourced (e : run_env) (dev : Z) (w : CdmaWorld D) : bool :=
  re_fed e || (re_to_device e && re_dev_fifo e && cdma_src (w_cdma w) dev).

(** A device FIFO is filled, the flags telling whether it drained meanwhile. *)
Definition push_device (ch dev width : Z) (buf : bytes) (w : CdmaWorld D) : CdmaWorld D :=
  let w := w <| w_cdma ::= fun s => s <| dm_sink_early ::= fun l => wr l ch false |>
                                      <| dm_in_run ::= fun l => wr l ch true |> |> in
  let w := fifo_write dev width buf w in
  w <| w_cdma ::= fun s => s <| dm_in_run ::= fun l => wr l ch false |> |>.

(** Memory to the device: whether the filter and the queue took it, and where the
    device address is then. *)
Definition move_out (ch : Z) (e : run_env) (dev : Z) (aes : option Z) (flags len : Z) (w : CdmaWorld D)
  : bool * Z * CdmaWorld D :=
  let crypt := flagged flags DESC_AES && negb (re_dev_fifo e) in
  let restart := flagged flags DESC_AES_RESTART in
  let buf := phys_read (w_mem w) (cd_addr (chan ch w)) len in
  let i := default 0 aes in
  if re_feeds e then
    let '(ok, s) := if flagged flags DESC_AES then aes_feed i buf restart (w_cdma w) else fifo_push buf (w_cdma w) in
    (ok, dev, w <| w_cdma := s |>)
  else
    let '(ok, buf, s) := if crypt then aes_apply i buf restart (w_cdma w) else (true, buf, w_cdma w) in
    let w := w <| w_cdma := s |> in
    if re_dev_mem e then (ok, u32 (dev + len), w <| w_mem ::= fun m => phys_write m dev buf |>)
    else (ok, dev, push_device ch dev (re_width e) buf w).

(** What the far end gives: the bytes, the device address, the world. *)
Definition take_in (e : run_env) (dev len : Z) (w : CdmaWorld D) : bytes * Z * CdmaWorld D :=
  if re_drains e then let '(b, s) := fifo_pop len (w_cdma w) in (b, dev, w <| w_cdma := s |>)
  else if re_dev_mem e then (phys_read (w_mem w) dev len, u32 (dev + len), w)
  else let '(b, w) := fifo_read (Z.to_nat len) dev (re_width e) len w in (b, dev, w).

(** The device to memory; [None] is the engine's underrun. *)
Definition move_in (ch : Z) (e : run_env) (dev : Z) (aes : option Z) (flags len : Z) (resume : bool) (w : CdmaWorld D)
  : option (bool * Z) * CdmaWorld D :=
  let crypt := flagged flags DESC_AES && negb (re_dev_fifo e) in
  let '(buf, dev, w) := take_in e dev len w in
  if re_drains e && negb (zlen buf =? len) then (None, w)
  else
    let '(ok, buf, s) :=
      if crypt then aes_apply (default 0 aes) buf (negb resume && flagged flags DESC_AES_RESTART) (w_cdma w)
      else (true, buf, w_cdma w) in
    (Some (ok, dev), (w <| w_cdma := s |>) <| w_mem ::= fun m => phys_write m (cd_addr (chan ch w)) buf |>).

(** Move [len] bytes of the segment: the error, if any, with the walk's device
    address and context, which the first crypted segment may look up. *)
Definition move (ch : Z) (e : run_env) (dev : Z) (aes : option Z) (flags len : Z) (resume : bool) (w : CdmaWorld D)
  : option Z * Z * option Z * CdmaWorld D :=
  let crypt := flagged flags DESC_AES && negb (re_dev_fifo e) in
  let aes := if crypt then match aes with Some i => Some i | None => aes_for_channel (w_cdma w) ch end else aes in
  if crypt && negb (bool_decide (is_Some aes)) then (Some 3, dev, aes, w)
  else
    let '(r, w) :=
      if re_to_device e then let '(ok, dev, w) := move_out ch e dev aes flags len w in (Some (ok, dev), w)
      else move_in ch e dev aes flags len resume w in
    match r with
    | None => (Some 5, dev, aes, w)
    | Some (false, dev) => (Some 4, dev, aes, w)
    | Some (true, dev) =>
        (None, dev, aes, setc ch (fun c => c <| cd_addr ::= fun a => u32 (a + len) |> <| cd_remain ::= fun r => u32 (r - len) |>) w)
    end.

(** Load the segment of a descriptor, unless it is resumed, and find how much of
    it can move now. *)
Definition segment (ch : Z) (e : run_env) (dev addr len : Z) (w : CdmaWorld D) : Z * CdmaWorld D :=
  let w := if cd_in_seg (chan ch w) then w else setc ch (fun c => c <| cd_addr := addr |> <| cd_remain := len |>) w in
  let w := setc ch (fun c => c <| cd_in_seg := false |>) w in
  let len := cd_remain (chan ch w) in
  if sourced e dev w then
    let '(n, d) := port_avail dev (re_to_device e) (w_dev w) in
    let n := Z.ldiff n (re_width e - 1) in
    let w := w <| w_dev := d |> in
    if n <? len then (n, setc ch (fun c => c <| cd_in_seg := true |>) w) else (len, w)
  else (len, w).

(** One turn of [cdma_run]'s loop. *)
Definition cdma_turn (ch : Z) (e : run_env) (dev : Z) (aes : option Z) (w : CdmaWorld D)
  : turn * Z * option Z * CdmaWorld D :=
  let d := cd_desc (chan ch w) in
  if negb (desc_ok d) then (TError 1, dev, aes, w)
  else
    let next := desc_word (w_mem w) d 0 in
    let flags := desc_word (w_mem w) d 1 in
    let len := desc_word (w_mem w) d 3 in
    let type := Z.land flags DESC_TYPE_MASK in
    let resume := cd_in_seg (chan ch w) in
    if type =? 0 then (TStop, dev, aes, w)
    else if type =? DESC_IV then (TNext, dev, aes, setc ch (fun c => c <| cd_desc := next |>) w)
    else if negb (type =? DESC_DATA) || (CDMA_MAX_SEGMENT <? len) then (TError 2, dev, aes, w)
    else
      let '(len, w) := segment ch e dev (desc_word (w_mem w) d 2) len w in
      let '(r, dev, aes, w) := if len =? 0 then (None, dev, aes, w) else move ch e dev aes flags len resume w in
      match r with
      | Some err => (TError err, dev, aes, w)
      | None =>
          if cd_in_seg (chan ch w) then (TStall, dev, aes, w)
          else
            let w := setc ch (fun c => c <| cd_desc := next |>) w in
            (if flagged flags DESC_LAST then TStop else TNext, dev, aes, w)
      end.

(** At most 4096 descriptors a run. *)
Fixpoint cdma_loop (fuel : nat) (ch : Z) (e : run_env) (dev : Z) (aes : option Z) (w : CdmaWorld D)
  : turn * Z * CdmaWorld D :=
  match fuel with
  | O => (TStop, dev, w)
  | S fuel =>
      let '(t, dev, aes, w) := cdma_turn ch e dev aes w in
      match t with
      | TNext => cdma_loop fuel ch e dev aes w
      | _ => (t, dev, w)
      end
  end.

Definition set_ctrl (ch : Z) (f : Z -> Z) (w : CdmaWorld D) : CdmaWorld D := setc ch (fun c => c <| cd_ctrl ::= f |>) w.

(** The chain is over: raise the line. *)
Definition cdma_finish (ch : Z) (w : CdmaWorld D) : CdmaWorld D :=
  (set_ctrl ch (fun v => Z.lor v ST_DONE) w) <| w_cdma ::= cdma_update_irq ch |>.

Definition cdma_run (ch : Z) (w : CdmaWorld D) : CdmaWorld D :=
  let c := chan ch w in
  let e := env_of (w_cdma w) c in
  let aes := ctx_of (w_cdma w) c in
  let w := set_ctrl ch (fun v => Z.ldiff v (Z.lor ST_RUNNING ST_ERROR)) w in
  let '(t, dev, w) := cdma_loop 4096 ch e (cd_fifo c) aes w in
  match t with
  | TStall => set_ctrl ch (fun v => Z.lor v ST_RUNNING) w
  | TError err =>
      cdma_finish ch (setc ch (fun c => c <| cd_error := err |> <| cd_ctrl ::= fun v => Z.lor v ST_ERROR |>) w)
  | _ =>
      if re_to_device e && re_dev_fifo e && cdma_src (w_cdma w) dev then
        if flag_at (dm_sink_early (w_cdma w)) ch
        then cdma_finish ch (w <| w_cdma ::= fun s => s <| dm_sink_early ::= fun l => wr l ch false |> |>)
        else set_ctrl ch (fun v => Z.lor v ST_RUNNING)
               (w <| w_cdma ::= fun s => s <| dm_sink_pending ::= fun l => wr l ch true |> |>)
      else cdma_finish ch w
  end.

(** Resume every channel stalled on a device. *)
Definition s5l8930_cdma_kick (w : CdmaWorld D) : CdmaWorld D :=
  fold_left (fun w ch => if flagged (cd_ctrl (chan ch w)) ST_RUNNING && cd_in_seg (chan ch w) then cdma_run ch w else w)
    channels w.
End Engine.
