(* ===== verification/CdmaRegs.v ===== *)
(** * The A4's DMA engine: paced channels and register windows

    [src/hw/arm/s5l8930_cdma.c], the chains played at a port's sample rate, both
    register windows, reset, the table of GID keys and snapshots.  [now] is the
    virtual clock in nanoseconds and [rate] the frame rate of a port, from the
    I2S device. *)

From Stdlib Require Import ZArith Lia.
From stdpp Require Import base numbers list.
From S2P Require Import Prelude CLib HwLib CdmaAes Cdma.
Local Open Scope Z_scope.

Definition u64 (x : Z) : Z := x mod 18446744073709551616.
(** [uint64_t] converted to [int64_t] *)
Definition s64 (x : Z) : Z := (x + 9223372036854775808) mod 18446744073709551616 - 9223372036854775808.

Section Regs.
Context {D : Type} `{FifoPort D} `{BlockCipher} (desc_ok : Z -> bool) (rate : Z -> Z).

(** ** Audio channels *)

Definition cdma_is_paced (w : CdmaWorld D) (ch : Z) : bool := flag_at (dm_paced (w_cdma w)) ch.
Definition paced_sent (w : CdmaWorld D) (ch : Z) : Z := rd (dm_paced_sent (w_cdma w)) ch.

(** The part of a segment of [len] bytes at [base] that is due. *)
Definition paced_move (ch base addr len upto : Z) (w : CdmaWorld D) : CdmaWorld D :=
  let c := chan ch w in
  if (paced_sent w ch <? base + len) && (base <? upto) then
    let from := Z.max (paced_sent w ch) base - base in
    let to := Z.min upto (base + len) - base in
    let n := u32 (to - from) in
    if flagged (cd_settings c) SET_TO_DEVICE
    then fifo_write (cd_fifo c) (chan_width c) (phys_read (w_mem w) (u32 (addr + from)) n) w
    else
      let '(b, w) := fifo_read (Z.to_nat n) (cd_fifo c) (chan_width c) n w in
      w <| w_mem ::= fun m => phys_write m (u32 (addr + from)) b |>
  else w.

(** Where the channel's registers point. *)
Definition paced_at (ch desc addr remain sent : Z) (w : CdmaWorld D) : CdmaWorld D :=
  (setc ch (fun c => c <| cd_desc := desc |> <| cd_addr := addr |> <| cd_remain := remain |>) w)
    <| w_cdma ::= fun s => s <| dm_paced_sent ::= fun l => wr l ch sent |> |>.

Fixpoint paced_walk (fuel : nat) (ch upto desc base : Z) (w : CdmaWorld D) : bool * CdmaWorld D :=
  match fuel with
  | O => (true, w)
  | S fuel =>
      let flags := desc_word (w_mem w) desc 1 in
      if negb (desc_ok desc) || negb (Z.land flags DESC_TYPE_MASK =? DESC_DATA) then (true, w)
      else
        let next := desc_word (w_mem w) desc 0 in
        let addr := desc_word (w_mem w) desc 2 in
        let len := desc_word (w_mem w) desc 3 in
        let w := paced_move ch base addr len upto w in
        if upto <? base + len then (false, paced_at ch desc (u32 (addr + (upto - base))) (u32 (base + len - upto)) upto w)
        else if flagged flags DESC_LAST then
          (true,
           if desc_ok next
           then paced_at ch next (desc_word (w_mem w) next 2) (desc_word (w_mem w) next 3) (base + len) w
           else paced_at ch next (u32 (addr + len)) 0 (base + len) w)
        else paced_walk fuel ch upto next (base + len) w
  end.

Definition cdma_paced_advance (ch upto : Z) (w : CdmaWorld D) : bool * CdmaWorld D :=
  paced_walk 4096 ch upto (rd (dm_paced_desc (w_cdma w)) ch) 0 w.

Definition cdma_paced_pos (now ch : Z) (s : S5L8930CDMAState) : Z :=
  let elapsed := now - rd (dm_paced_start s) ch in
  Z.ldiff (u64 (Z.max 0 elapsed * rd (dm_paced_bps s) ch) / NANOSECONDS_PER_SECOND) 3.

Definition all_channels : list Z := seqZ 0 CDMA_CHANNELS.

Definition cdma_pace_arm (now : Z) (s : S5L8930CDMAState) : S5L8930CDMAState :=
  s <| dm_pace_timer := if existsb (flag_at (dm_paced s)) all_channels then Some (now + CDMA_PACED_STEP_NS) else None |>.

Definition pace_tick_chan (now : Z) (w : CdmaWorld D) (ch : Z) : CdmaWorld D :=
  if cdma_is_paced w ch then
    let '(over, w) := cdma_paced_advance ch (cdma_paced_pos now ch (w_cdma w)) w in
    if over then
      let s := w_cdma w in
      let fin := s64 (u64 (rd (dm_paced_start s) ch +
                           u64 (rd (dm_paced_sent s) ch * NANOSECONDS_PER_SECOND) / rd (dm_paced_bps s) ch)) in
      let w := w <| w_cdma ::= fun s => s <| dm_paced ::= fun l => wr l ch false |> <| dm_paced_end ::= fun l => wr l ch fin |> |> in
      (set_ctrl ch (fun v => Z.lor (Z.ldiff v ST_RUNNING) ST_DONE) w) <| w_cdma ::= cdma_update_irq ch |>
    else w
  else w.

(** The pacing timer; its deadline has passed. *)
Definition cdma_pace_tick (now : Z) (w : CdmaWorld D) : CdmaWorld D :=
  (fold_left (pace_tick_chan now) all_channels (w <| w_cdma ::= fun s => s <| dm_pace_timer := None |> |>))
    <| w_cdma ::= cdma_pace_arm now |>.

Definition cdma_paced_stop (now ch : Z) (w : CdmaWorld D) : CdmaWorld D :=
  if negb (cdma_is_paced w ch) then w
  else
    let w := (cdma_paced_advance ch (cdma_paced_pos now ch (w_cdma w)) w).2 in
    w <| w_cdma ::= fun s => cdma_pace_arm now (s <| dm_paced ::= fun l => wr l ch false |> <| dm_paced_end ::= fun l => wr l ch 0 |>) |>.

(** [None] where the channel does not lead to an I2S FIFO. *)
Definition cdma_start_paced (now ch : Z) (s : S5L8930CDMAState) : option S5L8930CDMAState :=
  let c := get_chan ch s in
  if (cd_fifo c <? dm_paced_base s) || (u32 (dm_paced_base s + dm_paced_ports s * 0x1000) <=? cd_fifo c) then None
  else
    let s := upd_chan ch (fun c => c <| cd_ctrl ::= fun v => Z.lor (Z.ldiff v ST_ERROR) ST_RUNNING |>) s in
    let bps := u32 (4 * rate (Z.shiftr (cd_fifo c - dm_paced_base s) 12)) in
    let last := rd (dm_paced_end s) ch in
    let start := if now - last <? CDMA_PACED_CONTINUE_NS then last else now in
    let s := s <| dm_paced_desc ::= fun l => wr l ch (cd_desc c) |> <| dm_paced_sent ::= fun l => wr l ch 0 |>
               <| dm_paced_bps ::= fun l => wr l ch bps |> <| dm_paced_start ::= fun l => wr l ch start |>
               <| dm_paced ::= fun l => wr l ch true |> in
    Some (cdma_pace_arm now s).

(** ** The channel window *)

Definition global_read (s : S5L8930CDMAState) (reg : Z) : Z :=
  if (reg =? 0x00) || (reg =? 0x04) then rd (dm_enabled s) (Z.shiftr reg 2)
  else if (reg =? 0x10) || (reg =? 0x14) then rd (dm_enabled s) (Z.shiftr (reg - 0x10) 2)
  else 0.

Definition chan_read (c : CDMAChannel) (reg : Z) : Z :=
  if reg =? CH_CTRL then cd_ctrl c
  else if reg =? CH_SETTINGS then cd_settings c
  else if reg =? CH_FIFO then cd_fifo c
  else if reg =? CH_REMAIN then cd_remain c
  else if reg =? CH_ADDR then cd_addr c
  else if reg =? CH_DESC then cd_desc c
  else if reg =? CH_ERROR then cd_error c
  else 0.

Definition cdma_read (now offset : Z) (w : CdmaWorld D) : Z * CdmaWorld D :=
  let ch := Z.shiftr offset CDMA_CHAN_SHIFT in
  let reg := Z.land offset 0xFFF in
  if ch =? 0 then (global_read (w_cdma w) reg, w)
  else if ch <? CDMA_CHANNELS then
    let w := if cdma_is_paced w ch then (cdma_paced_advance ch (cdma_paced_pos now ch (w_cdma w)) w).2 else w in
    (chan_read (chan ch w) reg, w)
  else (0, w).

Definition update_irqs (s : S5L8930CDMAState) : S5L8930CDMAState :=
  fold_left (fun s ch => cdma_update_irq ch s) channels s.

Definition global_write (reg v : Z) (s : S5L8930CDMAState) : S5L8930CDMAState :=
  if (reg =? 0x00) || (reg =? 0x04) then
    update_irqs (update_irqs (s <| dm_enabled ::= fun l => wr l (Z.shiftr reg 2) (Z.lor (rd l (Z.shiftr reg 2)) v) |>))
  else if (reg =? 0x08) || (reg =? 0x0C) then
    update_irqs (update_irqs (s <| dm_enabled ::= fun l => wr l (Z.shiftr (reg - 8) 2) (Z.ldiff (rd l (Z.shiftr (reg - 8) 2)) v) |>))
  else s.

(** A write of the control word without RESET: what it leaves in the register. *)
Definition ctrl_after (old v : Z) : Z :=
  let ctrl := Z.lor (Z.ldiff old (Z.lor CTRL_CONFIG_MASK (Z.land v ST_W1C))) (Z.land v CTRL_CONFIG_MASK) in
  let ctrl := Z.ldiff ctrl ST_HELD in
  if flagged ctrl CTRL_HOLD && flagged ctrl ST_RUNNING then Z.lor ctrl ST_HELD else ctrl.

(** The go bit. *)
Definition chan_go (now ch : Z) (w : CdmaWorld D) : CdmaWorld D :=
  let c := chan ch w in
  if cdma_waits_for_uart c && negb (cdma_src (w_cdma w) (cd_fifo c)) then
    setc ch (fun c => c <| cd_addr := desc_word (w_mem w) (cd_desc c) 2 |> <| cd_remain := desc_word (w_mem w) (cd_desc c) 3 |>
                        <| cd_ctrl ::= fun v => Z.lor v ST_RUNNING |>) w
  else
    match cdma_start_paced now ch (w_cdma w) with
    | Some s => w <| w_cdma := s |>
    | None => cdma_run desc_ok ch w
    end.

Definition ctrl_write (now ch v : Z) (w : CdmaWorld D) : CdmaWorld D :=
  if flagged v CTRL_RESET then
    setc ch (fun c => c <| cd_ctrl := 0 |> <| cd_settings := 0 |> <| cd_fifo := 0 |> <| cd_remain := 0 |> <| cd_error := 0 |>
                        <| cd_in_seg := false |>) (cdma_paced_stop now ch w)
  else
    let w := set_ctrl ch (fun old => ctrl_after old v) w in
    let w := if flagged v CTRL_ABORT then
               cdma_paced_stop now ch
                 (setc ch (fun c => c <| cd_ctrl ::= fun x => Z.lor (Z.ldiff x ST_RUNNING) ST_ABORTED |> <| cd_in_seg := false |>) w)
             else w in
    if flagged v CTRL_GO && negb (flagged v CTRL_HOLD) then chan_go now ch w else w.

(** [None]: a register that does not exist. *)
Definition chan_reg_write (now ch reg v : Z) (w : CdmaWorld D) : option (CdmaWorld D) :=
  if reg =? CH_CTRL then Some (ctrl_write now ch v w)
  else if reg =? CH_SETTINGS then Some (setc ch (fun c => c <| cd_settings := v |>) w)
  else if reg =? CH_FIFO then Some (setc ch (fun c => c <| cd_fifo := v |>) w)
  else if reg =? CH_REMAIN then Some (setc ch (fun c => c <| cd_remain := v |>) w)
  else if reg =? CH_ADDR then Some (setc ch (fun c => c <| cd_addr := v |>) w)
  else if reg =? CH_DESC then Some (setc ch (fun c => c <| cd_desc := v |>) w)
  else if reg =? CH_ERROR then Some (setc ch (fun c => c <| cd_error := 0 |>) w)
  else None.

Definition cdma_write (now offset value : Z) (w : CdmaWorld D) : CdmaWorld D :=
  let ch := Z.shiftr offset CDMA_CHAN_SHIFT in
  let reg := Z.land offset 0xFFF in
  let v := u32 value in
  if ch =? 0 then w <| w_cdma ::= global_write reg v |>
  else if CDMA_CHANNELS <=? ch then w
  else
    match chan_reg_write now ch reg v w with
    | Some w => w <| w_cdma ::= cdma_update_irq ch |>
    | None => w
    end.
End Regs.

(** A source takes the first free slot or the one with its base; the source
    fails to an assertion when there is none. *)
Fixpoint set_src (l : list (option (Z * Z))) (base size : Z) : option (list (option (Z * Z))) :=
  match l with
  | [] => None
  | x :: l =>
      if match x with Some (b, _) => b =? base | None => true end then Some (Some (base, size) :: l)
      else cons x <$> set_src l base size
  end.

Definition s5l8930_cdma_set_source (base size : Z) (s : S5L8930CDMAState) : option S5L8930CDMAState :=
  (fun l => s <| dm_src := l |>) <$> set_src (dm_src s) base size.

(** ** The AES window *)

Definition aes_read (offset : Z) (s : S5L8930CDMAState) : Z :=
  let ctx := Z.shiftr offset CDMA_CHAN_SHIFT in
  let reg := Z.land offset 0xFFF in
  if ctx <? AES_CONTEXTS then
    let c := get_aes ctx s in
    if reg =? AES_SETUP then ax_setup c
    else if (AES_IV <=? reg) && (reg <? AES_IV + 16) then rd (ax_iv c) (Z.shiftr (reg - AES_IV) 2)
    else 0
  else 0.

Definition aes_write (offset value : Z) (s : S5L8930CDMAState) : S5L8930CDMAState :=
  let ctx := Z.shiftr offset CDMA_CHAN_SHIFT in
  let reg := Z.land offset 0xFFF in
  let v := u32 value in
  if ctx <? AES_CONTEXTS then
    if reg =? AES_SETUP then upd_aes ctx (fun c => c <| ax_setup ::= fun old => if ctx =? 0 then Z.lor old v else v |>) s
    else if (AES_IV <=? reg) && (reg <? AES_IV + 16)
    then upd_aes ctx (fun c => c <| ax_iv ::= fun l => wr l (Z.shiftr (reg - AES_IV) 2) v |>) s
    else if (AES_KEY <=? reg) && (reg <? AES_KEY + 32)
    then upd_aes ctx (fun c => c <| ax_key ::= fun l => wr l (Z.shiftr (reg - AES_KEY) 2) v |>) s
    else s
  else s.

(** ** The device *)

Definition nchan : nat := Z.to_nat CDMA_CHANNELS.

Definition s5l8930_cdma_reset (s : S5L8930CDMAState) : S5L8930CDMAState :=
  s <| dm_enabled := replicate 2 (if dm_version s =? 1 then 0xffffffff else 0) |>
    <| dm_ch := replicate nchan chan0_cdma |>
    <| dm_aes := replicate (Z.to_nat AES_CONTEXTS) aes0 |>
    <| dm_fifo := [] |>
    <| dm_paced := replicate nchan false |>
    <| dm_paced_end := replicate nchan 0 |>
    <| dm_pace_timer := None |>
    <| dm_irq := replicate nchan false |>.

(** The table of GID keys: [file] is what reading it gives, where a path is set.
    The result tells whether the device starts. *)
Definition s5l8930_cdma_realize (path : bool) (file : option bytes) (s : S5L8930CDMAState) : bool * S5L8930CDMAState :=
  if negb path then (true, s)
  else
    match file with
    | None => (false, s)
    | Some data => (negb (zlen data =? 0) && (zlen data mod (2 * GID_BLOB_SIZE) =? 0), s <| dm_gid_data := data |>)
    end.

(** ** Snapshots *)

Definition cdma_fifo_len_ok (s : S5L8930CDMAState) : bool := zlen (dm_fifo s) <=? CDMA_MAX_SEGMENT.

(** The stream: the saved state itself, of which a load uses what is saved;
    [cdma_pre_save] copies [in_seg] out of the channels. *)
Record cdma_stream := mkStream {
  cs_state : S5L8930CDMAState;
  cs_in_seg_mig : list bool
}.

Definition cdma_pre_save (s : S5L8930CDMAState) : option cdma_stream :=
  if cdma_fifo_len_ok s then Some (mkStream s (cd_in_seg <$> dm_ch s)) else None.

(** A channel's and a context's fields; the others keep the target's. *)
Definition load_chan (c t : CDMAChannel) : CDMAChannel :=
  mkChan_cdma (cd_ctrl c) (cd_settings c) (cd_fifo c) (cd_remain c) (cd_addr c) (cd_desc c) (cd_error c) (cd_in_seg t).
Definition load_aes (c t : AESContext) : AESContext :=
  mkAes (ax_setup c) (ax_iv c) (ax_key c) (ax_chain c) (ax_carry t).

(** [cdma_post_load] on the streamed flags. *)
Definition seg_bad (c : CDMAChannel) (in_seg paced : bool) (bps : Z) : bool :=
  (in_seg && (CDMA_MAX_SEGMENT <? cd_remain c)) || (paced && (bps =? 0)).

Definition cdma_post_load (mig : list bool) (s : S5L8930CDMAState) : option S5L8930CDMAState :=
  if existsb (fun ch => seg_bad (get_chan ch s) (flag_at mig ch) (flag_at (dm_paced s) ch) (rd (dm_paced_bps s) ch)) all_channels
  then None
  else Some (s <| dm_ch ::= fun l => zip_with (fun c b => c <| cd_in_seg := b |>) l mig |>).

(** [vmstate_s5l8930_cdma]: a stream of the given version loaded over [t]. *)
Definition cdma_load (version : Z) (v : cdma_stream) (t : S5L8930CDMAState) : option S5L8930CDMAState :=
  let s := cs_state v in
  let since {A} (n : Z) (x y : A) : A := if n <=? version then x else y in
  if negb (cdma_fifo_len_ok s) then None
  else
    cdma_post_load (since 4 (cs_in_seg_mig v) (replicate nchan false))
      (t <| dm_enabled := dm_enabled s |>
         <| dm_fifo := dm_fifo s |>
         <| dm_ch ::= zip_with load_chan (dm_ch s) |>
         <| dm_aes ::= zip_with load_aes (dm_aes s) |>
         <| dm_paced ::= since 2 (dm_paced s) |>
         <| dm_paced_start ::= since 2 (dm_paced_start s) |>
         <| dm_paced_end ::= since 3 (dm_paced_end s) |>
         <| dm_paced_desc ::= since 2 (dm_paced_desc s) |>
         <| dm_paced_sent ::= since 2 (dm_paced_sent s) |>
         <| dm_paced_bps ::= since 2 (dm_paced_bps s) |>
         <| dm_pace_timer ::= since 2 (dm_pace_timer s) |>
         <| dm_sink_pending := since 4 (dm_sink_pending s) (replicate nchan false) |>).
