(* ===== verification/CdmaAesFacts.v ===== *)
(** * The AES filter is a stream cipher over segments

    However a buffer is cut into segments, feeding them one after the other through
    a context queues the CBC of the whole buffer's blocks and carries the rest
    over.  With the two halves of the block cipher inverse to each other, what is
    encrypted decrypts to the original. *)

From Stdlib Require Import ZArith Lia.
From stdpp Require Import base numbers list.
From S2P Require Import Prelude CLib HwLib CdmaAes.
Local Open Scope Z_scope.

(** The whole blocks of a buffer, and what is left of it. *)
Definition whole (x : bytes) : bytes := ztake (16 * (zlen x / 16)) x.
Definition rest (x : bytes) : bytes := zdrop (16 * (zlen x / 16)) x.

Lemma land_not15 n : 0 <= n -> Z.land n (Z.lnot 15) = 16 * (n / 16).
Proof.
  intros H. rewrite <- Z.ldiff_land. change 15 with (Z.ones 4). rewrite Z.ldiff_ones_r by lia.
  rewrite Z.shiftr_div_pow2, Z.shiftl_mul_pow2 by lia. change (2 ^ 4) with 16. lia.
Qed.

Lemma zlen_whole x : zlen (whole x) = 16 * (zlen x / 16).
Proof.
  unfold whole. rewrite zlen_ztake. pose proof (zlen_nonneg x). pose proof (Z.mul_div_le (zlen x) 16).
  pose proof (Z.div_pos (zlen x) 16). lia.
Qed.

Lemma zlen_rest x : zlen (rest x) = zlen x mod 16.
Proof.
  unfold rest. rewrite zlen_zdrop. pose proof (zlen_nonneg x). pose proof (Z.div_mod (zlen x) 16).
  pose proof (Z.mod_pos_bound (zlen x) 16). pose proof (Z.div_pos (zlen x) 16). lia.
Qed.

Lemma whole_rest x : whole x ++ rest x = x.
Proof. apply ztake_zdrop. Qed.

(** Whole blocks in front stay in front. *)
Lemma whole_app a b : zlen a mod 16 = 0 -> whole (a ++ b) = a ++ whole b /\ rest (a ++ b) = rest b.
Proof.
  intros M. apply Z.div_exact in M; [|lia]. pose proof (zlen_nonneg b).
  assert (E : 16 * (zlen (a ++ b) / 16) = zlen a + 16 * (zlen b / 16)).
  { rewrite zlen_app, M, (Z.add_comm _ (zlen b)), (Z.mul_comm 16 (zlen a / 16)), Z.div_add by lia. lia. }
  pose proof (Z.div_pos (zlen b) 16). unfold whole, rest. rewrite E. unfold ztake, zdrop, zlen in *. split.
  - rewrite take_app_ge by lia. f_equal. f_equal. lia.
  - rewrite drop_app_ge by lia. f_equal. lia.
Qed.

Lemma whole_all x : zlen x mod 16 = 0 -> whole x = x /\ rest x = [].
Proof. intros M. pose proof (whole_app x [] M) as W. by rewrite !app_nil_r in W. Qed.

Lemma zdrop_past {A} n (l : list A) : zlen l <= n -> zdrop n l = [].
Proof. intros H. unfold zdrop, zlen in *. apply drop_ge. lia. Qed.

Lemma mod16_app (a b : bytes) : zlen a mod 16 = 0 -> zlen b mod 16 = 0 -> zlen (a ++ b) mod 16 = 0.
Proof. intros H1 H2. rewrite zlen_app, Z.add_mod, H1, H2; done. Qed.

Lemma whole_mod16 x : zlen (whole x) mod 16 = 0.
Proof. rewrite zlen_whole, Z.mul_comm. by apply Z.mod_mul. Qed.

Lemma last_block_app a b : 16 <= zlen b -> last_block (a ++ b) = last_block b.
Proof.
  intros H. unfold last_block, zdrop. rewrite zlen_app. unfold zlen in *. rewrite drop_app_ge by lia. f_equal. lia.
Qed.

Lemma last_block_16 l : zlen l = 16 -> last_block l = l.
Proof. intros H. unfold last_block. by rewrite H. Qed.

Lemma zlen_last_block l : 16 <= zlen l -> zlen (last_block l) = 16.
Proof. intros H. unfold last_block. rewrite zlen_zdrop. lia. Qed.

(** The lengths a block cipher promises. *)
Class CipherLen `{BlockCipher} := {
  encrypt_len key b : zlen b = 16 -> zlen (blk_encrypt key b) = 16;
  decrypt_len key b : zlen b = 16 -> zlen (blk_decrypt key b) = 16
}.

(** Decryption undoes encryption of a block of bytes, and the ciphertext is bytes. *)
Class CipherInv `{BlockCipher} := {
  decrypt_encrypt key b : zlen b = 16 -> is_bytes b -> blk_decrypt key (blk_encrypt key b) = b;
  encrypt_bytes key b : is_bytes b -> is_bytes (blk_encrypt key b)
}.

Section Stream.
Context `{B : BlockCipher} `{L : !CipherLen}.

Definition nblocks (x : bytes) : nat := (length x / 16)%nat.

Lemma zlen_xor a b : zlen a = 16 -> zlen b = 16 -> zlen (xor_bytes a b) = 16.
Proof. unfold xor_bytes, zlen. rewrite length_zip_with. lia. Qed.

Lemma zlen_take16 (x : bytes) : 16 <= zlen x -> zlen (take 16 x) = 16.
Proof. unfold zlen. rewrite length_take. lia. Qed.

(** One block: the output and the next vector. *)
Definition blk_out (enc : bool) (key iv b : bytes) : bytes :=
  if enc then blk_encrypt key (xor_bytes iv b) else xor_bytes iv (blk_decrypt key b).
Definition blk_iv (enc : bool) (key iv b : bytes) : bytes := if enc then blk_out enc key iv b else b.

Lemma zlen_blk_out enc key iv b : zlen iv = 16 -> zlen b = 16 -> zlen (blk_out enc key iv b) = 16.
Proof.
  intros Hi Hb. unfold blk_out. destruct enc; [by apply encrypt_len, zlen_xor|]. by apply zlen_xor, decrypt_len.
Qed.

Lemma zlen_blk_iv enc key iv b : zlen iv = 16 -> zlen b = 16 -> zlen (blk_iv enc key iv b) = 16.
Proof. intros Hi Hb. unfold blk_iv. destruct enc; [by apply zlen_blk_out|done]. Qed.

Lemma cbc_nil enc key iv : cbc enc key iv [] = [].
Proof. by destruct enc. Qed.

Lemma cbc_cons enc key iv b x : zlen b = 16 ->
  cbc enc key iv (b ++ x) = blk_out enc key iv b ++ cbc enc key (blk_iv enc key iv b) x.
Proof.
  intros Hb. unfold zlen in Hb.
  assert (Tx : take 16 (b ++ x) = b) by (by rewrite take_app_length' by lia).
  assert (Dx : drop 16 (b ++ x) = x) by (by rewrite drop_app_length' by lia).
  assert (N : (length (b ++ x) / 16 = S (length x / 16))%nat).
  { rewrite length_app. replace (length b + length x)%nat with (length x + 1 * 16)%nat by lia.
    rewrite Nat.div_add by lia. lia. }
  unfold cbc. rewrite N. destruct enc; cbn [cbc_encrypt cbc_decrypt]; by rewrite Tx, Dx.
Qed.

(** Split a buffer of whole blocks at its first one. *)
Lemma blocks_ind (P : bytes -> Prop) :
  P [] -> (forall b x, zlen b = 16 -> zlen x mod 16 = 0 -> P x -> P (b ++ x)) -> forall x, zlen x mod 16 = 0 -> P x.
Proof.
  intros H0 HS x. remember (nblocks x) as n eqn:En. revert x En. induction n as [|n IH]; intros x En M.
  - apply Z.div_exact in M; [|lia]. unfold nblocks in En. unfold zlen in *.
    rewrite <- (Nat2Z.inj_div _ 16), <- En in M. apply length_zero_iff_nil in M || (destruct x; [done|simpl in M; lia]).
  - assert (16 <= zlen x).
    { unfold nblocks in En. unfold zlen. destruct (decide (length x < 16)%nat); [|lia]. rewrite Nat.div_small in En by done. lia. }
    rewrite <- (take_drop 16 x). assert (M' : zlen (drop 16 x) mod 16 = 0).
    { unfold zlen in *. rewrite length_drop, Nat2Z.inj_sub by lia. change (Z.of_nat 16) with (1 * 16).
      rewrite <- (Z.mod_add _ 1 16) by lia. by rewrite Z.sub_add. }
    apply HS; [by apply zlen_take16|done|]. apply IH; [|done]. unfold nblocks in *. rewrite length_drop.
    unfold zlen in *. replace (length x) with (length x - 16 + 1 * 16)%nat in En by lia. rewrite Nat.div_add in En by lia. lia.
Qed.

Lemma zlen_cbc enc key x : zlen x mod 16 = 0 -> forall iv, zlen iv = 16 -> zlen (cbc enc key iv x) = zlen x.
Proof.
  intros M. revert x M. refine (blocks_ind _ _ _); [|intros b x Hb Hx IH]; intros iv Hi; [by rewrite cbc_nil|].
  rewrite cbc_cons, !zlen_app, IH, zlen_blk_out by (done || by apply zlen_blk_iv). lia.
Qed.

(** The vector a stretch of blocks leaves: the last block of ciphertext. *)
Definition next_iv (enc : bool) (key iv x : bytes) : bytes := last_block (iv ++ (if enc then cbc enc key iv x else x)).

Lemma next_iv_nil enc key iv : zlen iv = 16 -> next_iv enc key iv [] = iv.
Proof. intros H. unfold next_iv. rewrite cbc_nil. by destruct enc; rewrite app_nil_r, last_block_16. Qed.

Lemma next_iv_cons enc key iv b x : zlen iv = 16 -> zlen b = 16 -> zlen x mod 16 = 0 ->
  next_iv enc key iv (b ++ x) = next_iv enc key (blk_iv enc key iv b) x.
Proof.
  intros Hi Hb M. unfold next_iv. pose proof (zlen_nonneg x).
  assert (O : 16 <= zlen (blk_out enc key iv b)) by (rewrite zlen_blk_out by done; lia).
  destruct enc; unfold blk_iv; [rewrite cbc_cons by done|]; rewrite last_block_app; rewrite ?zlen_app; try done; try lia.
  rewrite zlen_cbc; [lia|done|]. by apply zlen_blk_out.
Qed.

Lemma zlen_next_iv enc key iv x : zlen iv = 16 -> zlen (next_iv enc key iv x) = 16.
Proof.
  intros Hi. apply zlen_last_block. rewrite zlen_app, Hi.
  pose proof (zlen_nonneg (if enc then cbc enc key iv x else x)). lia.
Qed.

(** CBC runs on from one stretch to the next. *)
Lemma cbc_app enc key a b : zlen a mod 16 = 0 -> forall iv, zlen iv = 16 ->
  cbc enc key iv (a ++ b) = cbc enc key iv a ++ cbc enc key (next_iv enc key iv a) b.
Proof.
  intros M. revert a M. refine (blocks_ind _ _ _); [|intros b0 x Hb Hx IH]; intros iv Hi.
  - by rewrite cbc_nil, next_iv_nil.
  - by rewrite <- app_assoc, cbc_cons, (cbc_cons _ _ _ b0 x), IH, next_iv_cons, app_assoc by (done || by apply zlen_blk_iv).
Qed.

Lemma next_iv_app enc key a b : zlen a mod 16 = 0 -> zlen b mod 16 = 0 -> forall iv, zlen iv = 16 ->
  next_iv enc key iv (a ++ b) = next_iv enc key (next_iv enc key iv a) b.
Proof.
  intros M Mb. revert a M. refine (blocks_ind _ _ _); [|intros b0 x Hb Hx IH]; intros iv Hi.
  - by rewrite next_iv_nil.
  - assert (zlen (x ++ b) mod 16 = 0) by (by apply mod16_app).
    by rewrite <- app_assoc, next_iv_cons, (next_iv_cons _ _ _ b0 x), IH by (done || by apply zlen_blk_iv).
Qed.

(** ** Feeding *)

(** A context whose key is in hand: no table to ask. *)
Definition plain_key (c : AESContext) : bool := flagged (ax_setup c) AES_KEY_CUSTOM || negb (flagged (ax_setup c) AES_KEY_GID).

Lemma get_upd_aes i f s : (Z.to_nat i < length (dm_aes s))%nat -> get_aes i (upd_aes i f s) = f (get_aes i s).
Proof.
  intros H. unfold get_aes, upd_aes. simpl. rewrite list_lookup_alter_eq.
  destruct (lookup_lt_is_Some_2 _ _ H) as [c ->]. done.
Qed.

Lemma upd_aes_upd i f g s : upd_aes i f (upd_aes i g s) = upd_aes i (fun c => f (g c)) s.
Proof. unfold upd_aes. destruct s. unfold upd, upd_dm_aes. f_equal. apply alter_alter. Qed.

Lemma upd_aes_ext i f g s : f (get_aes i s) = g (get_aes i s) -> upd_aes i f s = upd_aes i g s.
Proof.
  intros E. unfold upd_aes. destruct s. unfold upd, upd_dm_aes. f_equal. apply list_alter_ext; [|done].
  intros c Hc. unfold get_aes in E. simpl in E, Hc. by rewrite Hc in E.
Qed.

Lemma upd_aes_fifo i f q s : (upd_aes i f s) <| dm_fifo := q |> = upd_aes i f (s <| dm_fifo := q |>).
Proof. done. Qed.

(** Context [i] with vector [v], carry [k] and the queue [q]. *)
Definition aes_at (i : Z) (v k q : bytes) (s : S5L8930CDMAState) : S5L8930CDMAState :=
  upd_aes i (fun c => c <| ax_chain := v |> <| ax_carry := k |>) (s <| dm_fifo := q |>).

Lemma aes_at_at i v k q v' k' q' s : aes_at i v k q (aes_at i v' k' q' s) = aes_at i v k q s.
Proof. unfold aes_at. rewrite <- upd_aes_fifo, upd_aes_upd. by rewrite !upd_aes_fifo. Qed.

(** A turn of the filter: a block chained on, the output queued, the rest kept. *)
Lemma aes_at_step i v k q v' k' q' s :
  upd_aes i (fun c => c <| ax_carry := k' |>)
    ((upd_aes i (fun c => c <| ax_chain := v' |>) (aes_at i v k q s)) <| dm_fifo := q' |>) = aes_at i v' k' q' s.
Proof. unfold aes_at. rewrite <- upd_aes_fifo, !upd_aes_upd. by rewrite !upd_aes_fifo. Qed.

Lemma aes_at_self i s : aes_at i (ax_chain (get_aes i s)) (ax_carry (get_aes i s)) (dm_fifo s) s = s.
Proof.
  unfold aes_at. transitivity (upd_aes i id s).
  - replace (s <| dm_fifo := dm_fifo s |>) with s by (by destruct s). apply upd_aes_ext. by destruct (get_aes i s).
  - unfold upd_aes. destruct s. unfold upd, upd_dm_aes. f_equal. apply list_eq. intros j. rewrite list_lookup_alter.
    case_decide as E; [|done]. rewrite E. by destruct (_ !! j).
Qed.

(** A block cipher step on whole blocks, with the key in hand. *)
Lemma aes_apply_plain i buf s : plain_key (get_aes i s) = true -> zlen buf mod 16 = 0 ->
  aes_apply i buf false s =
  let c := get_aes i s in
  let enc := flagged (ax_setup c) AES_ENCRYPT in
  let out := cbc enc (aes_key c) (ax_chain c) buf in
  (true, out, upd_aes i (fun c => c <| ax_chain := last_block (if enc then out else buf) |>) s).
Proof.
  intros P M. unfold aes_apply. rewrite M. cbn [negb Z.eqb]. cbv zeta.
  assert (G : negb (flagged (ax_setup (get_aes i s)) AES_KEY_CUSTOM) && flagged (ax_setup (get_aes i s)) AES_KEY_GID = false).
  { unfold plain_key in P. by destruct (flagged _ AES_KEY_CUSTOM), (flagged _ AES_KEY_GID). }
  by rewrite G.
Qed.

(** The queue takes what fits. *)
Lemma fifo_push_ok buf s : zlen (dm_fifo s) + zlen buf <= CDMA_FIFO_MAX ->
  fifo_push buf s = (true, s <| dm_fifo := dm_fifo s ++ buf |>).
Proof.
  intros Hb. unfold fifo_push, it_guard_range. pose proof (zlen_nonneg buf). pose proof (zlen_nonneg (dm_fifo s)).
  case_match eqn:E; [done|]. bool_hyps. unfold CDMA_FIFO_MAX in *. lia.
Qed.

(** A segment [buf] behind the carry [k]. *)
Lemma aes_feed_step i buf v k q s : (Z.to_nat i < length (dm_aes s))%nat -> plain_key (get_aes i s) = true -> zlen v = 16 ->
  zlen q + zlen k + zlen buf <= CDMA_FIFO_MAX ->
  let c := get_aes i s in
  let enc := flagged (ax_setup c) AES_ENCRYPT in
  let w := whole (k ++ buf) in
  aes_feed i buf false (aes_at i v k q s) =
  (true, aes_at i (next_iv enc (aes_key c) v w) (rest (k ++ buf)) (q ++ cbc enc (aes_key c) v w) s).
Proof.
  intros Hi P Hv Hq c enc w. unfold aes_feed. cbv zeta.
  assert (G : get_aes i (aes_at i v k q s) = c <| ax_chain := v |> <| ax_carry := k |>) by (unfold aes_at; by rewrite get_upd_aes).
  rewrite G. cbn [ax_carry upd upd_ax_carry]. rewrite land_not15 by apply zlen_nonneg. fold (whole (k ++ buf)) (rest (k ++ buf)) w.
  pose proof (whole_mod16 (k ++ buf)) as M. pose proof (zlen_whole (k ++ buf)) as Z. fold w in M, Z. rewrite <- Z.
  destruct (Z.eqb_spec (zlen w) 0) as [E|E]; cbn [negb].
  - assert (w = []) as -> by (unfold zlen in E; destruct w; [done|simpl in E; lia]).
    rewrite cbc_nil, next_iv_nil, app_nil_r by done. f_equal. unfold aes_at at 1. by rewrite upd_aes_upd.
  - rewrite aes_apply_plain by (rewrite ?G; done). cbv zeta. rewrite G.
    change (ax_setup (c <| ax_chain := v |> <| ax_carry := k |>)) with (ax_setup c).
    change (aes_key (c <| ax_chain := v |> <| ax_carry := k |>)) with (aes_key c).
    change (ax_chain (c <| ax_chain := v |> <| ax_carry := k |>)) with v. fold enc.
    assert (Lo : zlen (cbc enc (aes_key c) v w) = zlen w) by (by apply zlen_cbc).
    rewrite fifo_push_ok.
    2:{ unfold aes_at, upd_aes. cbn [dm_fifo upd upd_dm_fifo upd_dm_aes]. rewrite Lo, Z. rewrite zlen_app.
        pose proof (Z.mul_div_le (zlen k + zlen buf) 16). lia. }
    cbn [andb]. rewrite aes_at_step. do 2 f_equal. unfold next_iv.
    rewrite last_block_app; [done|]. pose proof (zlen_nonneg w). assert (16 <= zlen w) by lia. destruct enc; lia.
Qed.

(** The state once [x] has gone through context [i] from vector [iv], with an
    empty carry and [q] queued before. *)
Definition fed (i : Z) (iv x q : bytes) (s : S5L8930CDMAState) : S5L8930CDMAState :=
  let c := get_aes i s in
  let enc := flagged (ax_setup c) AES_ENCRYPT in
  aes_at i (next_iv enc (aes_key c) iv (whole x)) (rest x) (q ++ cbc enc (aes_key c) iv (whole x)) s.

Lemma fed_next i iv x q buf s : (Z.to_nat i < length (dm_aes s))%nat -> plain_key (get_aes i s) = true -> zlen iv = 16 ->
  zlen q + zlen x + zlen buf <= CDMA_FIFO_MAX ->
  aes_feed i buf false (fed i iv x q s) = (true, fed i iv (x ++ buf) q s).
Proof.
  intros Hi P Hv Hq. unfold fed. set (c := get_aes i s). set (enc := flagged (ax_setup c) AES_ENCRYPT). cbv zeta.
  pose proof (whole_mod16 x) as M. pose proof (whole_mod16 (rest x ++ buf)) as M'.
  pose proof (whole_app (whole x) (rest x ++ buf) M) as E. rewrite app_assoc, whole_rest in E.
  destruct E as [-> ->]. assert (zlen x = zlen (whole x) + zlen (rest x)) by (by rewrite <- zlen_app, whole_rest).
  rewrite aes_feed_step; fold c enc; [| done | done | by apply zlen_next_iv |].
  - cbv zeta. by rewrite cbc_app, next_iv_app, app_assoc.
  - rewrite zlen_app, zlen_cbc by done. lia.
Qed.

Lemma fed_first i buf s : (Z.to_nat i < length (dm_aes s))%nat -> plain_key (get_aes i s) = true ->
  length (ax_iv (get_aes i s)) = 4%nat -> zlen (dm_fifo s) + zlen buf <= CDMA_FIFO_MAX ->
  aes_feed i buf true s = (true, fed i (words_bytes (ax_iv (get_aes i s))) buf (dm_fifo s) s).
Proof.
  intros Hi P L4 Hq. set (c := get_aes i s). set (iv := words_bytes (ax_iv c)).
  assert (Hv : zlen iv = 16).
  { unfold iv, c, words_bytes. destruct (ax_iv (get_aes i s)) as [|a [|b [|d [|e [|]]]]]; done. }
  assert (R : upd_aes i (fun c => c <| ax_carry := [] |> <| ax_chain := words_bytes (ax_iv c) |>) s = aes_at i iv [] (dm_fifo s) s).
  { unfold aes_at. replace (s <| dm_fifo := dm_fifo s |>) with s by (by destruct s). by apply upd_aes_ext. }
  pose proof (aes_feed_step i buf iv [] (dm_fifo s) s Hi P Hv ltac:(rewrite zlen_nil; lia)) as F. cbv zeta in F. fold c in F.
  rewrite app_nil_l in F. unfold fed. cbv zeta. fold c. rewrite <- F. unfold aes_feed. by rewrite R.
Qed.

End Stream.

(** ** Decryption undoes encryption *)

Lemma xor_bytes_twice (a b : bytes) : length a = length b -> xor_bytes a (xor_bytes a b) = b.
Proof.
  revert b. induction a as [|x a IH]; intros [|y b] E; try done. cbn in *. f_equal; [|apply IH; lia].
  by rewrite <- Z.lxor_assoc, Z.lxor_nilpotent, Z.lxor_0_l.
Qed.

Lemma is_byte_lxor a b : is_byte a -> is_byte b -> is_byte (Z.lxor a b).
Proof.
  unfold is_byte. intros Ha Hb. assert (N : 0 <= Z.lxor a b) by (apply Z.lxor_nonneg; lia). split; [done|].
  assert (W : forall x, 0 <= x < 256 -> Z.log2 x <= 7) by (intros x Hx; apply (Z.log2_le_mono x 255); lia).
  pose proof (Z.log2_lxor a b ltac:(lia) ltac:(lia)). pose proof (W a ltac:(lia)). pose proof (W b ltac:(lia)).
  destruct (Z.eqb_spec (Z.lxor a b) 0); [lia|]. change 256 with (2 ^ 8). apply Z.log2_lt_pow2; lia.
Qed.

Lemma is_bytes_xor a b : is_bytes a -> is_bytes b -> is_bytes (xor_bytes a b).
Proof.
  intros Ha. revert b. induction Ha as [|x a Hx Ha IH]; intros b Hb; [constructor|].
  destruct Hb as [|y b Hy Hb]; [constructor|]. cbn. constructor; [by apply is_byte_lxor|by apply IH].
Qed.

(** CBC with the same key and vector, both ways. *)
Lemma cbc_inverse `{B : BlockCipher} `{L : !CipherLen} `{I : !CipherInv} key x : zlen x mod 16 = 0 -> is_bytes x ->
  forall iv, zlen iv = 16 -> is_bytes iv -> cbc false key iv (cbc true key iv x) = x.
Proof.
  intros M. revert x M. refine (blocks_ind _ _ _); [done|]. intros b x Hb Hx IH Bx iv Hi Bi.
  apply is_bytes_app in Bx as [Bb Bx]. assert (X : zlen (xor_bytes iv b) = 16) by (by apply zlen_xor).
  rewrite (cbc_cons true) by done. unfold blk_iv, blk_out. rewrite cbc_cons by (by apply encrypt_len).
  unfold blk_iv, blk_out. rewrite decrypt_encrypt by (done || by apply is_bytes_xor).
  rewrite xor_bytes_twice by (unfold zlen in *; lia). f_equal. apply IH; [done|by apply encrypt_len|].
  by apply encrypt_bytes, is_bytes_xor.
Qed.
