(* ===== verification/CdmaFacts.v ===== *)
(** * Chains of the A4's DMA engine

    The walk over a descriptor chain in memory: a feeding channel passes the bytes
    of its segments through the AES context, a draining channel fills its segments
    from the queue.  Together they encrypt or decrypt a buffer whatever the two
    chains' segments are. *)

From Stdlib Require Import ZArith Lia.
From stdpp Require Import base numbers list.
From S2P Require Import Prelude CLib HwLib CdmaAes Cdma CdmaRegs CdmaAesFacts.
Local Open Scope Z_scope.

(** ** Memory *)

(** Two ranges of addresses that do not meet. *)
Definition apart (r t : Z * Z) : bool := (r.1 + r.2 <=? t.1) || (t.1 + t.2 <=? r.1).

Lemma phys_read_write_out m a b r : apart (a, zlen b) r = true -> phys_read (phys_write m a b) r.1 r.2 = phys_read m r.1 r.2.
Proof.
  intros H. apply phys_read_other. unfold apart in H. cbn [fst snd] in H. apply orb_true_iff in H as [H|H]; apply Z.leb_le in H; lia.
Qed.

Lemma phys_write_out m a b r k : apart (a, zlen b) r = true -> 0 <= k < r.2 -> phys_write m a b (r.1 + k) = m (r.1 + k).
Proof.
  intros H Hk. unfold apart in H. cbn [fst snd] in H. unfold phys_write. apply orb_true_iff in H.
  destruct (_ && _) eqn:E; [|done]. bool_hyps. destruct H as [H|H]; apply Z.leb_le in H; lia.
Qed.

(** The bytes of a list of segments, and the segments filled in turn. *)
Definition seg_bytes (mem : Z -> Z) (segs : list (Z * Z)) : bytes := mjoin ((fun r => phys_read mem r.1 r.2) <$> segs).

Fixpoint seg_write (mem : Z -> Z) (segs : list (Z * Z)) (data : bytes) : Z -> Z :=
  match segs with
  | [] => mem
  | (a, n) :: segs => seg_write (phys_write mem a (ztake n data)) segs (zdrop n data)
  end.

Definition seg_total (segs : list (Z * Z)) : Z := foldr (fun r t => r.2 + t) 0 segs.

(** No segment meets another. *)
Fixpoint seg_apart (segs : list (Z * Z)) : bool :=
  match segs with
  | [] => true
  | r :: segs => forallb (apart r) segs && seg_apart segs
  end.

Lemma seg_bytes_cons mem a n segs : seg_bytes mem ((a, n) :: segs) = phys_read mem a n ++ seg_bytes mem segs.
Proof. done. Qed.

Lemma zlen_seg_bytes mem segs : forallb (fun r => 0 <=? r.2) segs = true -> zlen (seg_bytes mem segs) = seg_total segs.
Proof.
  induction segs as [|[a n] segs IH]; intros H; [done|]. cbn [forallb snd] in H. bool_hyps.
  rewrite seg_bytes_cons, zlen_app, zlen_phys_read, IH by done. done.
Qed.

Lemma seg_write_out mem segs data r :
  forallb (fun r => 0 <=? r.2) segs = true -> seg_total segs <= zlen data -> forallb (fun t => apart t r) segs = true ->
  phys_read (seg_write mem segs data) r.1 r.2 = phys_read mem r.1 r.2.
Proof.
  revert mem data. induction segs as [|[a n] segs IH]; intros mem data H L A; [done|].
  cbn [forallb snd seg_write seg_total foldr] in *. bool_hyps. fold (seg_total segs) in L.
  assert (0 <= seg_total segs) by (rewrite <- (zlen_seg_bytes mem) by done; apply zlen_nonneg).
  rewrite IH by (done || rewrite zlen_zdrop; lia). apply phys_read_write_out.
  rewrite zlen_ztake. by replace (Z.min (Z.max 0 n) (zlen data)) with n by lia.
Qed.

(** What is written into segments that do not meet is there afterwards. *)
Lemma seg_write_bytes mem segs data :
  forallb (fun r => 0 <=? r.2) segs = true -> seg_total segs = zlen data -> seg_apart segs = true ->
  seg_bytes (seg_write mem segs data) segs = data.
Proof.
  revert mem data. induction segs as [|[a n] segs IH]; intros mem data H L A.
  { destruct data; [done|]. cbn in L. rewrite zlen_cons in L. pose proof (zlen_nonneg data). lia. }
  cbn [forallb snd seg_write seg_total foldr seg_apart] in *. bool_hyps. fold (seg_total segs) in L.
  assert (0 <= seg_total segs) by (rewrite <- (zlen_seg_bytes mem) by done; apply zlen_nonneg).
  assert (E : zlen (ztake n data) = n) by (rewrite zlen_ztake; lia).
  rewrite seg_bytes_cons, IH by (done || rewrite zlen_zdrop; lia). transitivity (ztake n data ++ zdrop n data); [f_equal|apply ztake_zdrop].
  etransitivity; [apply (seg_write_out _ _ _ (a, n)); [done|rewrite zlen_zdrop; lia|]|].
  - apply forallb_forall. intros t Ht. rewrite forallb_forall in *. rename select (forall x, In x segs -> apart _ x = true) into A1.
    specialize (A1 t Ht). unfold apart in *. by rewrite orb_comm.
  - cbn [fst snd]. rewrite <- E at 2. apply phys_read_written.
Qed.

(** ** Chains *)

Section Chains.
Context (desc_ok : Z -> bool).

(** The chain at [d] has exactly these segments; [P] constrains the flags, of the
    first descriptor and of the others. *)
Fixpoint chain_at (P : bool -> Z -> bool) (mem : Z -> Z) (first : bool) (d : Z) (segs : list (Z * Z)) : bool :=
  match segs with
  | [] => false
  | (a, n) :: segs =>
      let flags := desc_word mem d 1 in
      desc_ok d && (Z.land flags DESC_TYPE_MASK =? DESC_DATA) && (desc_word mem d 2 =? a) && (desc_word mem d 3 =? n) &&
      (0 <? n) && (n <=? CDMA_MAX_SEGMENT) && P first flags &&
      match segs with
      | [] => flagged flags DESC_LAST
      | _ => negb (flagged flags DESC_LAST) && chain_at P mem false (desc_word mem d 0) segs
      end
  end.

(** Where its descriptors are. *)
Fixpoint chain_descs (mem : Z -> Z) (d : Z) (segs : list (Z * Z)) : list (Z * Z) :=
  match segs with
  | [] => []
  | _ :: segs => (d, 16) :: chain_descs mem (desc_word mem d 0) segs
  end.

Lemma desc_word_ext m m' d i : 0 <= i <= 3 -> (forall k, 0 <= k < 16 -> m' (d + k) = m (d + k)) ->
  desc_word m' d i = desc_word m d i.
Proof.
  intros Hi E. unfold desc_word. f_equal. apply phys_read_ext. intros x Hx.
  replace x with (d + (x - d)) by lia. apply E. lia.
Qed.

(** Memory that keeps the descriptors keeps the chain. *)
Lemma chain_same P m m' segs : forall first d,
  (forall r, r ∈ chain_descs m d segs -> forall k, 0 <= k < 16 -> m' (r.1 + k) = m (r.1 + k)) ->
  chain_at P m' first d segs = chain_at P m first d segs /\ chain_descs m' d segs = chain_descs m d segs.
Proof.
  induction segs as [|[a n] segs IH]; intros first d E; [done|]. cbn [chain_descs] in E.
  assert (W : forall i, 0 <= i <= 3 -> desc_word m' d i = desc_word m d i).
  { intros i Hi. apply desc_word_ext; [done|]. apply (E (d, 16)). by left. }
  assert (E' : forall r, r ∈ chain_descs m (desc_word m d 0) segs -> forall k, 0 <= k < 16 -> m' (r.1 + k) = m (r.1 + k))
    by (intros r Hr; apply E; by right).
  destruct (IH false (desc_word m d 0) E') as [I1 I2].
  cbn [chain_at chain_descs]. rewrite !W, I1, I2 by lia. done.
Qed.
End Chains.

(** ** One channel of the state *)

Definition put (ch : Z) (c : CDMAChannel) (s : S5L8930CDMAState) : S5L8930CDMAState := upd_chan ch (fun _ => c) s.

Definition chan_in (ch : Z) (s : S5L8930CDMAState) : Prop := (Z.to_nat ch < length (dm_ch s))%nat.

Lemma get_put ch c s : chan_in ch s -> get_chan ch (put ch c s) = c.
Proof.
  intros H. unfold get_chan, put, upd_chan. simpl. rewrite list_lookup_alter_eq.
  destruct (lookup_lt_is_Some_2 _ _ H) as [c' ->]. done.
Qed.

Lemma get_put_ne ch j c s : Z.to_nat ch <> Z.to_nat j -> get_chan j (put ch c s) = get_chan j s.
Proof. intros H. unfold get_chan, put, upd_chan. simpl. by rewrite list_lookup_alter_ne. Qed.

Lemma put_self ch s : put ch (get_chan ch s) s = s.
Proof.
  unfold put, upd_chan, get_chan. destruct s. unfold upd, upd_dm_ch. f_equal. apply list_eq. intros j.
  rewrite list_lookup_alter. case_decide as E; [|done]. rewrite E. by destruct (_ !! j).
Qed.

Lemma upd_put ch f c s : upd_chan ch f (put ch c s) = put ch (f c) s.
Proof. unfold put, upd_chan. destruct s. unfold upd, upd_dm_ch. f_equal. apply alter_alter. Qed.

Lemma put_put ch c c' s : put ch c (put ch c' s) = put ch c s.
Proof. unfold put at 1. apply upd_put. Qed.

Lemma chan_in_put ch j c s : chan_in j (put ch c s) <-> chan_in j s.
Proof. unfold chan_in, put, upd_chan. simpl. by rewrite length_alter. Qed.

(** The filter and the queue leave the channels alone. *)
Lemma fifo_push_put buf ch c s : fifo_push buf (put ch c s) = let '(ok, s) := fifo_push buf s in (ok, put ch c s).
Proof. unfold fifo_push. change (dm_fifo (put ch c s)) with (dm_fifo s). by case_match. Qed.

Lemma upd_aes_put i f ch c s : upd_aes i f (put ch c s) = put ch c (upd_aes i f s).
Proof. done. Qed.

Lemma aes_apply_put `{BlockCipher} i buf restart ch c s :
  aes_apply i buf restart (put ch c s) = let '(ok, out, s) := aes_apply i buf restart s in (ok, out, put ch c s).
Proof.
  unfold aes_apply. case_match; [done|].
  set (t := if restart then upd_aes i _ s else s).
  assert (E : (if restart then upd_aes i (fun c => c <| ax_chain := words_bytes (ax_iv c) |>) (put ch c s) else put ch c s) = put ch c t)
    by (by destruct restart). rewrite E. cbv zeta.
  change (get_aes i (put ch c t)) with (get_aes i t). change (gid_lookup (put ch c t) buf) with (gid_lookup t buf).
  set (g := if _ && _ && _ then gid_lookup t buf else None). destruct g; [done|]. by destruct (_ && flagged _ AES_KEY_GID).
Qed.

Lemma aes_feed_put `{BlockCipher} i buf restart ch c s :
  aes_feed i buf restart (put ch c s) = let '(ok, s) := aes_feed i buf restart s in (ok, put ch c s).
Proof.
  unfold aes_feed. set (t := if restart then upd_aes i _ s else s).
  set (t' := if restart then upd_aes i _ (put ch c s) else put ch c s).
  assert (E : t' = put ch c t) by (unfold t, t'; by destruct restart). rewrite E. cbv zeta.
  change (get_aes i (put ch c t)) with (get_aes i t).
  match goal with |- context [negb ?b] => destruct (negb b); [|done] end. rewrite aes_apply_put. destruct (aes_apply i _ false t) as [[ok out] u].
  rewrite fifo_push_put. by destruct (fifo_push out u).
Qed.

(** ** Turns of the walk *)

(** A channel that has come to descriptor [d]; its configuration is the same. *)
Record walked (c : CDMAChannel) (d : Z) (c' : CDMAChannel) : Prop := mkWalked {
  wk_ctrl : cd_ctrl c' = cd_ctrl c;
  wk_settings : cd_settings c' = cd_settings c;
  wk_fifo : cd_fifo c' = cd_fifo c;
  wk_error : cd_error c' = cd_error c;
  wk_desc : cd_desc c' = d;
  wk_in_seg : cd_in_seg c' = false
}.

Lemma walked_trans c d c' d' c'' : walked c d c' -> walked c' d' c'' -> walked c d' c''.
Proof. intros [] []. constructor; congruence. Qed.

Section Walk.
Context {D : Type} `{F : FifoPort D} `{B : BlockCipher} `{L : !CipherLen} (desc_ok : Z -> bool).

(** The world with channel [ch] in state [c]. *)
Definition at_chan (ch : Z) (c : CDMAChannel) (s : S5L8930CDMAState) (mem : Z -> Z) (d : D) : CdmaWorld D :=
  mkWorld (put ch c s) mem d.

Lemma setc_at ch f c s mem d : setc ch f (at_chan ch c s mem d) = at_chan ch (f c) s mem d.
Proof. unfold setc, at_chan. unfold upd, upd_w_cdma. cbn [w_cdma w_mem w_dev]. by rewrite upd_put. Qed.

Lemma chan_at_chan ch c s mem d : chan_in ch s -> chan ch (at_chan ch c s mem d) = c.
Proof. intros H. by apply get_put. Qed.

(** What a descriptor of a chain says. *)
Definition descr (mem : Z -> Z) (d flags a n : Z) : Prop :=
  desc_ok d = true /\ desc_word mem d 1 = flags /\ Z.land flags DESC_TYPE_MASK = DESC_DATA /\
  desc_word mem d 2 = a /\ desc_word mem d 3 = n /\ 0 < n <= CDMA_MAX_SEGMENT.

(** The turn on a data descriptor of a channel no device paces. *)
Lemma turn_data ch e dev aes c s mem dv flags a n :
  chan_in ch s -> cd_in_seg c = false -> re_fed e = false -> re_dev_fifo e = false -> descr mem (cd_desc c) flags a n ->
  cdma_turn desc_ok ch e dev aes (at_chan ch c s mem dv) =
  let c1 := c <| cd_addr := a |> <| cd_remain := n |> <| cd_in_seg := false |> in
  let '(r, dev, aes, w) := move ch e dev aes flags n false (at_chan ch c1 s mem dv) in
  match r with
  | Some err => (TError err, dev, aes, w)
  | None =>
      if cd_in_seg (chan ch w) then (TStall, dev, aes, w)
      else (if flagged flags DESC_LAST then TStop else TNext, dev, aes,
            setc ch (fun c => c <| cd_desc := desc_word mem (cd_desc (chan ch (at_chan ch c1 s mem dv))) 0 |>) w)
  end.
Proof.
  intros Hc Hs Hf Hd (D0 & <- & D1 & <- & <- & Hn). unfold cdma_turn. rewrite chan_at_chan by done.
  change (w_mem (at_chan ch c s mem dv)) with mem. rewrite D0, D1, Hs. cbn [negb Z.eqb orb DESC_DATA DESC_IV Pos.eqb].
  rewrite (proj2 (Z.ltb_ge _ _)) by lia.
  assert (E : segment ch e dev (desc_word mem (cd_desc c) 2) (desc_word mem (cd_desc c) 3) (at_chan ch c s mem dv) =
    (desc_word mem (cd_desc c) 3,
     at_chan ch (c <| cd_addr := desc_word mem (cd_desc c) 2 |> <| cd_remain := desc_word mem (cd_desc c) 3 |> <| cd_in_seg := false |>)
       s mem dv)).
  { unfold segment. rewrite chan_at_chan, Hs by done. rewrite !setc_at, chan_at_chan by done.
    unfold sourced. rewrite Hf, Hd, andb_false_r. done. }
  rewrite E, (proj2 (Z.eqb_neq _ _)) by lia. cbv zeta. rewrite chan_at_chan by done. done.
Qed.

(** The channel after a segment. *)
Definition chan_past (c : CDMAChannel) (next a n : Z) : CDMAChannel :=
  c <| cd_addr := u32 (a + n) |> <| cd_remain := u32 (n - n) |> <| cd_in_seg := false |> <| cd_desc := next |>.

Lemma walked_past c next a n : walked c next (chan_past c next a n).
Proof. by constructor. Qed.

(** The environments of the AES pair: the feeding and the draining channel. *)
Definition env_feed (width : Z) : run_env := mkEnv false false false true false true width.
Definition env_drain (width : Z) : run_env := mkEnv false false false false true false width.

Lemma feed_turn ch i width dev c s s' mem dv flags a n :
  chan_in ch s -> chan_in ch s' -> cd_in_seg c = false -> descr mem (cd_desc c) flags a n -> flagged flags DESC_AES = true ->
  aes_feed i (phys_read mem a n) (flagged flags DESC_AES_RESTART) s = (true, s') ->
  cdma_turn desc_ok ch (env_feed width) dev (Some i) (at_chan ch c s mem dv) =
  (if flagged flags DESC_LAST then TStop else TNext, dev, Some i,
   at_chan ch (chan_past c (desc_word mem (cd_desc c) 0) a n) s' mem dv).
Proof.
  intros Hc Hc' Hs Hd Ha E. rewrite (turn_data ch _ _ _ c s mem dv flags a n) by done.
  pose (c1 := c <| cd_addr := a |> <| cd_remain := n |> <| cd_in_seg := false |>). fold c1. cbv zeta.
  unfold move, move_out. cbn [re_dev_fifo re_to_device re_feeds env_feed negb]. rewrite Ha. cbn [andb default].
  rewrite !chan_at_chan by done. change (cd_addr c1) with a. change (cd_desc c1) with (cd_desc c).
  rewrite bool_decide_true by done. cbn [negb default from_option id w_mem w_cdma at_chan].
  rewrite aes_feed_put, E. cbv zeta.
  change ((at_chan ch c1 s mem dv) <| w_cdma := put ch c1 s' |>) with (at_chan ch c1 s' mem dv).
  by rewrite !setc_at, chan_at_chan.
Qed.

(** A draining channel takes its segment from the head of the queue. *)
Lemma drain_turn ch width dev c s mem dv flags a n :
  chan_in ch s -> cd_in_seg c = false -> descr mem (cd_desc c) flags a n -> flagged flags DESC_AES = false ->
  n <= zlen (dm_fifo s) ->
  cdma_turn desc_ok ch (env_drain width) dev None (at_chan ch c s mem dv) =
  (if flagged flags DESC_LAST then TStop else TNext, dev, None,
   at_chan ch (chan_past c (desc_word mem (cd_desc c) 0) a n) (s <| dm_fifo ::= zdrop n |>)
     (phys_write mem a (ztake n (dm_fifo s))) dv).
Proof.
  intros Hc Hs Hd Ha Hn. pose proof Hd as (_ & _ & _ & _ & _ & Hp). rewrite (turn_data ch _ _ _ c s mem dv flags a n) by done.
  pose (c1 := c <| cd_addr := a |> <| cd_remain := n |> <| cd_in_seg := false |>). fold c1. cbv zeta.
  unfold move, move_in, take_in. cbn [re_dev_fifo re_to_device re_drains env_drain negb]. rewrite Ha. cbn [andb].
  unfold fifo_pop. cbn [at_chan w_cdma]. change (dm_fifo (put ch c1 s)) with (dm_fifo s).
  rewrite Z.min_l, zlen_ztake by lia. rewrite (proj2 (Z.eqb_eq _ n)) by lia. cbn [negb].
  change ((at_chan ch c1 s mem dv) <| w_cdma := (put ch c1 s) <| dm_fifo ::= zdrop n |> |>)
    with (at_chan ch c1 (s <| dm_fifo ::= zdrop n |>) mem dv).
  assert (Hc' : chan_in ch (s <| dm_fifo ::= zdrop n |>)) by done.
  rewrite !chan_at_chan by done. change (cd_addr c1) with a. change (cd_desc c1) with (cd_desc c).
  change (((at_chan ch c1 (s <| dm_fifo ::= zdrop n |>) mem dv) <| w_cdma := w_cdma (at_chan ch c1 (s <| dm_fifo ::= zdrop n |>) mem dv) |>)
    <| w_mem ::= fun m => phys_write m a (ztake n (dm_fifo s)) |>)
    with (at_chan ch c1 (s <| dm_fifo ::= zdrop n |>) (phys_write mem a (ztake n (dm_fifo s))) dv).
  by rewrite !setc_at, chan_at_chan.
Qed.

(** ** Whole chains *)

(** The first descriptor restarts the context, all pass through it. *)
Definition feed_flags (first : bool) (flags : Z) : bool :=
  flagged flags DESC_AES && Bool.eqb (flagged flags DESC_AES_RESTART) first.
Definition drain_flags (first : bool) (flags : Z) : bool := negb (flagged flags DESC_AES).

Fixpoint chain_end (mem : Z -> Z) (d : Z) (segs : list (Z * Z)) : Z :=
  match segs with
  | [] => d
  | _ :: segs => chain_end mem (desc_word mem d 0) segs
  end.

Lemma chain_head P mem first d a n segs : chain_at desc_ok P mem first d ((a, n) :: segs) = true ->
  descr mem d (desc_word mem d 1) a n /\ P first (desc_word mem d 1) = true /\
  match segs with
  | [] => flagged (desc_word mem d 1) DESC_LAST = true
  | _ => flagged (desc_word mem d 1) DESC_LAST = false /\ chain_at desc_ok P mem false (desc_word mem d 0) segs = true
  end.
Proof.
  cbn [chain_at]. intros H. bool_hyps. split; [unfold descr; repeat split; done || lia|]. split; [done|].
  destruct segs; [done|]. bool_hyps. done.
Qed.

Lemma chain_lens P mem segs : forall first d, chain_at desc_ok P mem first d segs = true -> forallb (fun r => 0 <=? r.2) segs = true.
Proof.
  induction segs as [|[a n] segs IH]; intros first d H; [done|].
  destruct (chain_head _ _ _ _ _ _ _ H) as ((_ & _ & _ & _ & _ & Hn) & _ & Hr). cbn [forallb snd].
  rewrite (proj2 (Z.leb_le _ _)) by lia. destruct segs; [done|]. destruct Hr as [_ Hr]. exact (IH false _ Hr).
Qed.

Lemma chain_total P mem segs first d : chain_at desc_ok P mem first d segs = true -> 0 <= seg_total segs.
Proof. intros H. rewrite <- (zlen_seg_bytes mem) by (by eapply chain_lens). apply zlen_nonneg. Qed.

(** The rest of the chain counts no less than nothing. *)
Lemma chain_rest_total P mem first d a n segs : chain_at desc_ok P mem first d ((a, n) :: segs) = true -> 0 <= seg_total segs.
Proof. intros H. destruct (chain_head _ _ _ _ _ _ _ H) as (_ & _ & Hr). destruct segs; [done|]. destruct Hr as [_ Hr]. exact (chain_total _ _ _ _ _ Hr). Qed.

Section Feed.
Context (i : Z) (iv q : bytes) (s : S5L8930CDMAState).
Context (Hi : (Z.to_nat i < length (dm_aes s))%nat) (Pk : plain_key (get_aes i s) = true).
Context (L4 : length (ax_iv (get_aes i s)) = 4%nat) (Eiv : iv = words_bytes (ax_iv (get_aes i s))) (Eq : q = dm_fifo s).

(** Before the restart and after it. *)
Definition feeding (first : bool) (x : bytes) : S5L8930CDMAState := if first then s else fed i iv x q s.

Lemma iv_len : zlen iv = 16.
Proof using Eiv L4. subst iv. unfold words_bytes. destruct (ax_iv (get_aes i s)) as [|a [|b [|c [|d [|]]]]]; done. Qed.

Lemma feeding_step first x b : (first = true -> x = []) -> zlen q + zlen x + zlen b <= CDMA_FIFO_MAX ->
  aes_feed i b first (feeding first x) = (true, feeding false (x ++ b)).
Proof using Eiv Eq Hi L L4 Pk.
  intros Hx Hq. destruct first; cbn [feeding].
  - rewrite Hx, app_nil_l by done. subst iv q. apply fed_first; try done. pose proof (zlen_nonneg x). lia.
  - apply fed_next; try done. apply iv_len.
Qed.

Lemma feed_loop ch width dev mem dv segs : chan_in ch s -> forall fuel c first x,
  chain_at desc_ok feed_flags mem first (cd_desc c) segs = true -> (length segs <= fuel)%nat -> cd_in_seg c = false ->
  (first = true -> x = []) -> zlen q + zlen x + seg_total segs <= CDMA_FIFO_MAX ->
  exists c', walked c (chain_end mem (cd_desc c) segs) c' /\
  cdma_loop desc_ok fuel ch (env_feed width) dev (Some i) (at_chan ch c (feeding first x) mem dv) =
  (TStop, dev, at_chan ch c' (feeding false (x ++ seg_bytes mem segs)) mem dv).
Proof using Eiv Eq Hi L L4 Pk.
  intros Hc. induction segs as [|[a n] segs IH]; intros fuel c first x Hch Hf Hs Hx Hq; [done|].
  destruct fuel as [|fuel]; [cbn in Hf; lia|].
  destruct (chain_head _ _ _ _ _ _ _ Hch) as (Hd & Hfl & Hrest). pose proof Hd as (_ & _ & _ & _ & _ & Hn).
  pose proof (chain_rest_total _ _ _ _ _ _ _ Hch) as Ht.
  apply andb_prop in Hfl as [Ha Hr]. apply eqb_prop in Hr. cbn [seg_total foldr snd] in Hq. fold (seg_total segs) in Hq.
  pose proof (zlen_phys_read mem a n ltac:(lia)) as Hl.
  assert (E := feeding_step first x (phys_read mem a n) Hx ltac:(lia)). rewrite <- Hr in E at 1.
  assert (Hcf : forall f y, chan_in ch (feeding f y)) by (by intros [] y).
  cbn [cdma_loop]. rewrite (feed_turn ch i width dev c _ _ mem dv _ a n (Hcf _ _) (Hcf _ _) Hs Hd Ha E).
  rewrite seg_bytes_cons, app_assoc. cbn [chain_end]. destruct segs as [|g segs].
  - rewrite Hrest. exists (chan_past c (desc_word mem (cd_desc c) 0) a n). rewrite app_nil_r. by split; [apply walked_past|].
  - destruct Hrest as [-> Hrest].
    destruct (IH fuel (chan_past c (desc_word mem (cd_desc c) 0) a n) false (x ++ phys_read mem a n)) as (c' & Hw & HL);
      [done|cbn in *; lia|done|done|rewrite zlen_app; lia|].
    exists c'. split; [by eapply walked_trans; [apply walked_past|]|exact HL].
Qed.
End Feed.

(** The segments that are filled do not meet the descriptors of the chain. *)
Definition chain_clear (mem : Z -> Z) (d : Z) (segs dst : list (Z * Z)) : bool :=
  forallb (fun r => forallb (apart r) (chain_descs mem d segs)) dst.

Lemma chain_clear_write P mem first d segs a b : forallb (apart (a, zlen b)) (chain_descs mem d segs) = true ->
  chain_at desc_ok P (phys_write mem a b) first d segs = chain_at desc_ok P mem first d segs /\
  chain_descs (phys_write mem a b) d segs = chain_descs mem d segs.
Proof.
  intros H. apply chain_same. intros r Hr k Hk. rewrite forallb_forall in H. apply list_elem_of_In in Hr.
  assert (r.2 = 16) as E.
  { clear H Hk. revert d Hr. induction segs as [|g segs IH]; intros d Hr; [done|]. destruct Hr as [<-|Hr]; [done|]. by eapply IH. }
  apply phys_write_out; [by apply H|lia].
Qed.

Lemma drain_loop ch width dev dv segs : forall fuel c first s mem,
  chan_in ch s -> chain_at desc_ok drain_flags mem first (cd_desc c) segs = true -> (length segs <= fuel)%nat ->
  cd_in_seg c = false -> chain_clear mem (cd_desc c) segs segs = true -> seg_total segs <= zlen (dm_fifo s) ->
  exists c' d, walked c d c' /\
  cdma_loop desc_ok fuel ch (env_drain width) dev None (at_chan ch c s mem dv) =
  (TStop, dev, at_chan ch c' (s <| dm_fifo := zdrop (seg_total segs) (dm_fifo s) |>) (seg_write mem segs (dm_fifo s)) dv).
Proof.
  induction segs as [|[a n] segs IH]; intros fuel c first s mem Hc Hch Hf Hs Hcl Hq; [done|].
  destruct fuel as [|fuel]; [cbn in Hf; lia|].
  destruct (chain_head _ _ _ _ _ _ _ Hch) as (Hd & Hfl & Hrest). pose proof Hd as (_ & _ & _ & _ & _ & Hn).
  pose proof (chain_rest_total _ _ _ _ _ _ _ Hch) as Ht. apply negb_true_iff in Hfl.
  cbn [seg_total foldr snd] in *. fold (seg_total segs) in *.
  cbn [cdma_loop]. rewrite (drain_turn ch width dev c s mem dv _ a n Hc Hs Hd Hfl ltac:(lia)).
  set (c1 := chan_past c (desc_word mem (cd_desc c) 0) a n). set (m1 := phys_write mem a (ztake n (dm_fifo s))).
  cbn [seg_write]. fold m1. destruct segs as [|g segs].
  - rewrite Hrest. exists c1, (desc_word mem (cd_desc c) 0). split; [apply walked_past|]. by rewrite Z.add_0_r.
  - destruct Hrest as [-> Hrest]. unfold chain_clear in Hcl. rewrite forallb_forall in Hcl.
    assert (Hcl' : forall r, In r ((a, n) :: g :: segs) ->
      forallb (apart r) (chain_descs mem (desc_word mem (cd_desc c) 0) (g :: segs)) = true)
      by (intros r Hr; by apply (andb_prop _ _ (Hcl r Hr))).
    assert (Hl : zlen (ztake n (dm_fifo s)) = n) by (rewrite zlen_ztake; lia).
    assert (Hw : forallb (apart (a, zlen (ztake n (dm_fifo s)))) (chain_descs mem (desc_word mem (cd_desc c) 0) (g :: segs)) = true).
    { rewrite Hl. apply Hcl'. by left. }
    destruct (chain_clear_write drain_flags mem false _ _ _ _ Hw) as [W1 W2]. fold m1 in W1, W2.
    destruct (IH fuel c1 false (s <| dm_fifo ::= zdrop n |>) m1) as (c' & d & Hwk & HL).
    + done.
    + change (cd_desc c1) with (desc_word mem (cd_desc c) 0). by rewrite W1.
    + cbn in *; lia.
    + done.
    + change (cd_desc c1) with (desc_word mem (cd_desc c) 0). unfold chain_clear. rewrite W2.
      apply forallb_forall. intros r Hr. apply Hcl'. by right.
    + change (dm_fifo (s <| dm_fifo ::= zdrop n |>)) with (zdrop n (dm_fifo s)). rewrite zlen_zdrop. lia.
    + exists c', d. split; [by eapply walked_trans; [apply walked_past|]|]. etransitivity; [exact HL|].
      change (dm_fifo (s <| dm_fifo ::= zdrop n |>)) with (zdrop n (dm_fifo s)). by rewrite zdrop_zdrop by lia.
Qed.
End Walk.
