(* ===== verification/CdmaPipe.v ===== *)
(** * The AES pair of the A4's DMA engine

    Starting the feeding channel and then the draining channel through their
    control registers encrypts or decrypts a buffer in memory: what the draining
    chain's segments hold is CBC of what the feeding chain's segments held. *)

From Stdlib Require Import ZArith Lia.
From stdpp Require Import base numbers list.
From S2P Require Import Prelude CLib HwLib CdmaAes Cdma CdmaRegs CdmaAesFacts CdmaFacts.
Local Open Scope Z_scope.

(** ** The control word *)

(** The bits the guest owns are the ones written. *)
Lemma ctrl_after_bits old v k : 3 <= k <= 15 -> Z.testbit (ctrl_after old v) k = Z.testbit v k.
Proof.
  intros Hk. unfold ctrl_after. cbv zeta.
  assert (M : Z.testbit CTRL_CONFIG_MASK k = true /\ Z.testbit ST_HELD k = false).
  { assert (k = 3 \/ k = 4 \/ k = 5 \/ k = 6 \/ k = 7 \/ k = 8 \/ k = 9 \/ k = 10 \/ k = 11 \/ k = 12 \/ k = 13 \/ k = 14 \/ k = 15)
      as E by lia. repeat destruct E as [->|E]; try done. by subst k. }
  destruct M as [M1 M2].
  assert (X : Z.testbit (Z.ldiff (Z.lor (Z.ldiff old (Z.lor CTRL_CONFIG_MASK (Z.land v ST_W1C))) (Z.land v CTRL_CONFIG_MASK)) ST_HELD) k
    = Z.testbit v k).
  { rewrite Z.ldiff_spec, Z.lor_spec, Z.ldiff_spec, Z.lor_spec, !Z.land_spec, M1, M2. cbn. by rewrite !andb_true_r, andb_false_r. }
  case_match; [|done]. by rewrite Z.lor_spec, M2, orb_false_r.
Qed.

Lemma ctrl_after_ctx old v : CTRL_AES_CTX (ctrl_after old v) = CTRL_AES_CTX v.
Proof.
  unfold CTRL_AES_CTX. apply Z.bits_inj'. intros n Hn. rewrite !Z.land_spec, !Z.shiftr_spec by done.
  destruct (decide (n < 8)); [by rewrite ctrl_after_bits by lia|].
  change 0xFF with (Z.ones 8). rewrite Z.ones_spec_high by lia. by rewrite !andb_false_r.
Qed.

(** The control word of a finished chain. *)
Definition ctrl_done (ctrl : Z) : Z := Z.lor (Z.ldiff ctrl (Z.lor ST_RUNNING ST_ERROR)) ST_DONE.

Lemma ctrl_done_bits ctrl :
  flagged (ctrl_done ctrl) ST_DONE = true /\ flagged (ctrl_done ctrl) ST_ERROR = false /\
  flagged (ctrl_done ctrl) ST_RUNNING = false /\ flagged (ctrl_done ctrl) CTRL_IRQ_EN = Z.testbit ctrl 3.
Proof.
  change ST_DONE with (2 ^ 19). change ST_ERROR with (2 ^ 18). change ST_RUNNING with (2 ^ 16). change CTRL_IRQ_EN with (2 ^ 3).
  rewrite !flagged_bit by lia. unfold ctrl_done. rewrite !Z.lor_spec, !Z.ldiff_spec. cbn.
  by rewrite ?orb_true_r, ?orb_false_r, ?andb_true_r, ?andb_false_r.
Qed.

Lemma ctrl_done_line ctrl : flagged (ctrl_done ctrl) (Z.lor ST_DONE ST_ERROR) = true.
Proof.
  destruct (ctrl_done_bits ctrl) as (D0 & _). unfold flagged.
  destruct (Z.eqb_spec (Z.land (ctrl_done ctrl) (Z.lor ST_DONE ST_ERROR)) 0) as [Z|]; [|done].
  pose proof (f_equal (fun x => Z.testbit x 19) Z) as T. cbn beta in T. rewrite Z.land_spec, Z.bits_0 in T.
  change ST_DONE with (2 ^ 19) in D0. rewrite flagged_bit in D0 by lia. by rewrite D0 in T.
Qed.

(** ** Starting a memory-to-memory channel *)

(** A go: bits 0 set, 1, 2 and 5 clear. *)
Definition is_go (v : Z) : bool :=
  flagged v CTRL_GO && negb (flagged v CTRL_RESET) && negb (flagged v CTRL_ABORT) && negb (flagged v CTRL_HOLD).

(** No device or port of the machine is at address 0. *)
Definition null_free (s : S5L8930CDMAState) : bool := negb (cdma_src s 0) && (0 <? dm_paced_base s).

Lemma env_null s c : null_free s = true -> cd_fifo c = 0 ->
  env_of s c =
  let feeds := (0 <? CTRL_AES_CTX (cd_ctrl c)) && (CTRL_AES_CTX (cd_ctrl c) <? AES_CONTEXTS) in
  mkEnv false false false feeds (negb feeds && (cd_settings c =? 0)) (feeds || flagged (cd_settings c) SET_TO_DEVICE) (chan_width c).
Proof.
  intros N F. unfold null_free in N. bool_hyps. unfold env_of, ctx_of, cdma_fifo_fed. rewrite F, H.
  change (cdma_is_memory s 0) with false. cbn. rewrite !andb_false_r, andb_true_r. cbn. rewrite !andb_true_r. by destruct (_ && _).
Qed.

Lemma ctx_null s c : null_free s = true -> cd_fifo c = 0 ->
  ctx_of s c = let ctx := CTRL_AES_CTX (cd_ctrl c) in if (0 <? ctx) && (ctx <? AES_CONTEXTS) then Some ctx else None.
Proof.
  intros N F. unfold null_free in N. bool_hyps. unfold ctx_of, cdma_fifo_fed. rewrite F, H.
  change (cdma_is_memory s 0) with false. cbn. by rewrite !andb_false_r, !andb_true_r.
Qed.

Section Start.
Context {D : Type} `{F : FifoPort D} `{B : BlockCipher} `{L : !CipherLen} (desc_ok : Z -> bool) (rate : Z -> Z).

Lemma world_at ch (w : CdmaWorld D) : w = at_chan ch (chan ch w) (w_cdma w) (w_mem w) (w_dev w).
Proof. unfold at_chan, chan. rewrite put_self. by destruct w. Qed.

Lemma set_ctrl_at ch f (w : CdmaWorld D) :
  set_ctrl ch f w = at_chan ch ((chan ch w) <| cd_ctrl ::= f |>) (w_cdma w) (w_mem w) (w_dev w).
Proof. unfold set_ctrl. etransitivity; [apply f_equal, (world_at ch)|]. apply setc_at. Qed.

Lemma go_run now ch v w : 0 < ch < CDMA_CHANNELS -> is_go v = true -> is_u32 v -> null_free (w_cdma w) = true ->
  chan_in ch (w_cdma w) -> cd_fifo (chan ch w) = 0 ->
  cdma_write desc_ok rate now (Z.shiftl ch 12) v w =
  (cdma_run desc_ok ch (at_chan ch ((chan ch w) <| cd_ctrl ::= fun old => ctrl_after old v |>) (w_cdma w) (w_mem w) (w_dev w))) <| w_cdma ::= cdma_update_irq ch |>.
Proof.
  intros Hch G U N Hin Hf. unfold cdma_write, CDMA_CHAN_SHIFT.
  assert (E1 : Z.shiftr (Z.shiftl ch 12) 12 = ch) by (by rewrite Z.shiftr_shiftl_l, Z.shiftl_0_r by lia).
  assert (E2 : Z.land (Z.shiftl ch 12) 0xFFF = 0).
  { change 0xFFF with (Z.ones 12). rewrite Z.land_ones, Z.shiftl_mul_pow2 by lia. by apply Z.mod_mul. }
  rewrite E1, E2, u32_id by done. rewrite (proj2 (Z.eqb_neq _ _)), (proj2 (Z.leb_gt _ _)) by lia.
  unfold chan_reg_write. cbn [Z.eqb CH_CTRL]. f_equal. unfold ctrl_write. unfold is_go in G. bool_hyps.
  rewrite H, H0, H1, H2. cbn [negb andb]. rewrite set_ctrl_at. set (w1 := at_chan ch _ _ _ _). unfold chan_go.
  assert (C : chan ch w1 = (chan ch w) <| cd_ctrl ::= fun old => ctrl_after old v |>) by (by apply chan_at_chan).
  rewrite C. unfold cdma_waits_for_uart. change (cd_fifo (_ <| cd_ctrl ::= _ |>)) with (cd_fifo (chan ch w)). rewrite Hf.
  cbn [Z.leb Z.compare]. rewrite andb_false_r. cbn [andb].
  unfold cdma_start_paced. change (get_chan ch (w_cdma w1)) with (chan ch w1). rewrite C.
  change (cd_fifo (_ <| cd_ctrl ::= _ |>)) with (cd_fifo (chan ch w)). rewrite Hf.
  unfold null_free in N. bool_hyps. change (dm_paced_base (w_cdma w1)) with (dm_paced_base (w_cdma w)).
  by rewrite (proj2 (Z.ltb_lt _ _)).
Qed.

Lemma update_irq_twice ch s : cdma_update_irq ch (cdma_update_irq ch s) = cdma_update_irq ch s.
Proof. unfold cdma_update_irq, wr. destruct s. unfold upd, upd_dm_irq. f_equal. apply list_insert_insert_eq. Qed.

(** A chain that runs to its end on a channel that leads to no device. *)
Lemma run_end ch c s mem dv c' s' mem' dev :
  chan_in ch s -> re_dev_fifo (env_of (put ch c s) c) = false ->
  cdma_loop desc_ok 4096 ch (env_of (put ch c s) c) (cd_fifo c) (ctx_of (put ch c s) c)
    (at_chan ch (c <| cd_ctrl ::= fun v => Z.ldiff v (Z.lor ST_RUNNING ST_ERROR) |>) s mem dv) =
  (TStop, dev, at_chan ch c' s' mem' dv) ->
  cdma_run desc_ok ch (at_chan ch c s mem dv) =
  mkWorld (cdma_update_irq ch (put ch (c' <| cd_ctrl ::= fun v => Z.lor v ST_DONE |>) s')) mem' dv.
Proof.
  intros Hc He HL. unfold cdma_run. rewrite chan_at_chan by done. cbn [w_cdma at_chan] in *.
  unfold set_ctrl. rewrite setc_at, HL, He, andb_false_r. cbn [andb]. unfold cdma_finish, set_ctrl. by rewrite setc_at.
Qed.

(** The feeding channel: the queue gets what the context makes of the segments. *)
Lemma feed_go now ch v i w segs : 0 < ch < CDMA_CHANNELS -> is_go v = true -> is_u32 v -> null_free (w_cdma w) = true ->
  chan_in ch (w_cdma w) -> cd_fifo (chan ch w) = 0 -> cd_in_seg (chan ch w) = false ->
  CTRL_AES_CTX v = i -> 0 < i < AES_CONTEXTS -> length (dm_aes (w_cdma w)) = Z.to_nat AES_CONTEXTS ->
  plain_key (get_aes i (w_cdma w)) = true -> length (ax_iv (get_aes i (w_cdma w))) = 4%nat ->
  chain_at desc_ok feed_flags (w_mem w) true (cd_desc (chan ch w)) segs = true -> (length segs <= 4096)%nat ->
  zlen (dm_fifo (w_cdma w)) + seg_total segs <= CDMA_FIFO_MAX ->
  exists c, cd_ctrl c = ctrl_done (ctrl_after (cd_ctrl (chan ch w)) v) /\ cd_fifo c = 0 /\
  cdma_write desc_ok rate now (Z.shiftl ch 12) v w =
  mkWorld (cdma_update_irq ch (put ch c (fed i (words_bytes (ax_iv (get_aes i (w_cdma w)))) (seg_bytes (w_mem w) segs)
                                            (dm_fifo (w_cdma w)) (w_cdma w)))) (w_mem w) (w_dev w).
Proof.
  intros Hch G U N Hin Hf Hs Hv Hi La P L4 HC Hn Hq. rewrite go_run by done.
  set (s := w_cdma w) in *. set (c0 := chan ch w) in *.
  set (c := c0 <| cd_ctrl ::= fun old => ctrl_after old v |>).
  assert (Hx : CTRL_AES_CTX (cd_ctrl c) = i) by (change (cd_ctrl c) with (ctrl_after (cd_ctrl c0) v); by rewrite ctrl_after_ctx).
  assert (E : env_of (put ch c s) c = env_feed (chan_width c)).
  { rewrite env_null by done. rewrite Hx, (proj2 (Z.ltb_lt _ _)), (proj2 (Z.ltb_lt _ _)) by lia. done. }
  assert (X : ctx_of (put ch c s) c = Some i).
  { rewrite ctx_null by done. cbv zeta. rewrite Hx. destruct (Z.ltb_spec 0 i), (Z.ltb_spec i AES_CONTEXTS); lia || done. }
  destruct (feed_loop desc_ok i _ _ s ltac:(lia) P L4 eq_refl eq_refl ch (chan_width c) (cd_fifo c) (w_mem w) (w_dev w) segs Hin
    4096%nat (c <| cd_ctrl ::= fun v => Z.ldiff v (Z.lor ST_RUNNING ST_ERROR) |>) true []) as (c' & Hwk & HL);
    [done..|rewrite zlen_nil; lia|].
  rewrite app_nil_l in HL.
  rewrite <- E, <- X in HL. rewrite (run_end ch c s (w_mem w) (w_dev w) _ _ _ _ Hin ltac:(by rewrite E) HL).
  exists (c' <| cd_ctrl ::= fun v => Z.lor v ST_DONE |>). destruct Hwk as [E1 _ E3 _ _ _]. split; [|split].
  - cbn. by rewrite E1.
  - cbn. by rewrite E3.
  - unfold upd at 1, upd_w_cdma. cbn [w_cdma w_mem w_dev]. by rewrite update_irq_twice.
Qed.

(** The draining channel: its segments get the head of the queue. *)
Lemma drain_go now ch v w segs : 0 < ch < CDMA_CHANNELS -> is_go v = true -> is_u32 v -> null_free (w_cdma w) = true ->
  chan_in ch (w_cdma w) -> cd_fifo (chan ch w) = 0 -> cd_settings (chan ch w) = 0 -> cd_in_seg (chan ch w) = false ->
  CTRL_AES_CTX v = 0 -> chain_at desc_ok drain_flags (w_mem w) true (cd_desc (chan ch w)) segs = true ->
  (length segs <= 4096)%nat -> chain_clear (w_mem w) (cd_desc (chan ch w)) segs segs = true ->
  seg_total segs <= zlen (dm_fifo (w_cdma w)) ->
  exists c, cd_ctrl c = ctrl_done (ctrl_after (cd_ctrl (chan ch w)) v) /\ cd_fifo c = 0 /\
  cdma_write desc_ok rate now (Z.shiftl ch 12) v w =
  mkWorld (cdma_update_irq ch (put ch c ((w_cdma w) <| dm_fifo := zdrop (seg_total segs) (dm_fifo (w_cdma w)) |>)))
    (seg_write (w_mem w) segs (dm_fifo (w_cdma w))) (w_dev w).
Proof.
  intros Hch G U N Hin Hf Hset Hs Hv HC Hn Hcl Hq. rewrite go_run by done.
  set (s := w_cdma w) in *. set (c0 := chan ch w) in *.
  set (c := c0 <| cd_ctrl ::= fun old => ctrl_after old v |>).
  assert (Hx : CTRL_AES_CTX (cd_ctrl c) = 0) by (change (cd_ctrl c) with (ctrl_after (cd_ctrl c0) v); by rewrite ctrl_after_ctx).
  assert (E : env_of (put ch c s) c = env_drain (chan_width c)).
  { rewrite env_null by done. rewrite Hx. change (cd_settings c) with (cd_settings c0). by rewrite Hset. }
  assert (X : ctx_of (put ch c s) c = None) by (unfold ctx_of; by rewrite Hx).
  destruct (drain_loop desc_ok ch (chan_width c) (cd_fifo c) (w_dev w) segs 4096%nat
    (c <| cd_ctrl ::= fun v => Z.ldiff v (Z.lor ST_RUNNING ST_ERROR) |>) true s (w_mem w)) as (c' & d & Hwk & HL); [done..|].
  rewrite <- E, <- X in HL. rewrite (run_end ch c s (w_mem w) (w_dev w) _ _ _ _ Hin ltac:(by rewrite E) HL).
  exists (c' <| cd_ctrl ::= fun v => Z.lor v ST_DONE |>). destruct Hwk as [E1 _ E3 _ _ _]. split; [|split].
  - cbn. by rewrite E1.
  - cbn. by rewrite E3.
  - unfold upd at 1, upd_w_cdma. cbn [w_cdma w_mem w_dev]. by rewrite update_irq_twice.
Qed.
End Start.

(** ** The pair *)

Definition chan_enabled (s : S5L8930CDMAState) (ch : Z) : bool := Z.testbit (rd (dm_enabled s) (Z.shiftr ch 5)) (Z.land ch 31).

(** The line of a finished memory-to-memory channel follows bit 3 of its control word. *)
Lemma irq_done ch c s ctrl : chan_in ch s -> (Z.to_nat ch < length (dm_irq s))%nat -> cd_fifo c = 0 -> cd_ctrl c = ctrl_done ctrl ->
  flag_at (dm_irq (cdma_update_irq ch (put ch c s))) ch = chan_enabled s ch && Z.testbit ctrl 3.
Proof.
  intros Hc Hl Hf Ht. unfold cdma_update_irq. rewrite get_put by done. rewrite Hf, Ht. cbn [Z.eqb orb].
  destruct (ctrl_done_bits ctrl) as (D0 & _ & _ & D3). rewrite D3, andb_true_r.
  rewrite ctrl_done_line, andb_true_r. unfold flag_at, wr. cbn [dm_irq upd upd_dm_irq].
  change (dm_irq (?a <| dm_irq ::= ?f |>)) with (f (dm_irq a)). cbv beta. rewrite list_lookup_insert_eq by done. cbn [default].
  change (dm_enabled (put ch c s)) with (dm_enabled s). fold (chan_enabled s ch). unfold id.
  by destruct (Z.testbit ctrl 3), (chan_enabled s ch).
Qed.

Lemma irq_other ch j s : Z.to_nat ch <> Z.to_nat j -> flag_at (dm_irq (cdma_update_irq ch s)) j = flag_at (dm_irq s) j.
Proof.
  intros H. unfold cdma_update_irq, flag_at, wr. cbv zeta.
  change (dm_irq (?a <| dm_irq ::= ?f |>)) with (f (dm_irq a)). cbv beta. by rewrite list_lookup_insert_ne.
Qed.

(** Two channels finished one after the other. *)
Lemma pair_lines a b ca cb ctrla ctrlb q s :
  chan_in a s -> chan_in b s -> (Z.to_nat a < length (dm_irq s))%nat -> (Z.to_nat b < length (dm_irq s))%nat ->
  Z.to_nat a <> Z.to_nat b -> cd_fifo ca = 0 -> cd_fifo cb = 0 -> cd_ctrl ca = ctrl_done ctrla -> cd_ctrl cb = ctrl_done ctrlb ->
  let s' := cdma_update_irq b (put b cb ((cdma_update_irq a (put a ca s)) <| dm_fifo := q |>)) in
  get_chan a s' = ca /\ get_chan b s' = cb /\
  flag_at (dm_irq s') a = chan_enabled s a && Z.testbit ctrla 3 /\ flag_at (dm_irq s') b = chan_enabled s b && Z.testbit ctrlb 3.
Proof.
  intros Ia Ib La Lb N Fa Fb Ea Eb s'. set (t := (cdma_update_irq a (put a ca s)) <| dm_fifo := q |>) in s'.
  assert (It : forall j, chan_in j t <-> chan_in j s) by (intros j; apply (chan_in_put a j ca s)).
  assert (Lt : (Z.to_nat b < length (dm_irq t))%nat).
  { change (dm_irq t) with (dm_irq (cdma_update_irq a (put a ca s))). unfold cdma_update_irq, wr. cbv zeta.
    change (dm_irq (?u <| dm_irq ::= ?f |>)) with (f (dm_irq u)). cbv beta. by rewrite length_insert. }
  repeat split.
  - transitivity (get_chan a (put b cb t)); [done|]. rewrite get_put_ne by done. by apply (get_put a ca s).
  - transitivity (get_chan b (put b cb t)); [done|]. apply get_put. by apply It.
  - unfold s'. rewrite irq_other by done. by apply irq_done.
  - unfold s'. rewrite (irq_done b cb t ctrlb) by (done || by apply It). done.
Qed.

Lemma ctrl_after_irq old v : Z.testbit (ctrl_after old v) 3 = flagged v CTRL_IRQ_EN.
Proof. rewrite ctrl_after_bits by lia. change CTRL_IRQ_EN with (2 ^ 3). by rewrite flagged_bit. Qed.

Section Pair.
Context {D : Type} `{F : FifoPort D} `{B : BlockCipher} `{L : !CipherLen} (desc_ok : Z -> bool) (rate : Z -> Z).

(** Two idle channels with no device address, the one with a chain of source
    segments to go through context [i], the other with a chain of as many bytes. *)
Record aes_ready (w : CdmaWorld D) (a b i va vb : Z) (src dst : list (Z * Z)) : Prop := mkAesReady {
  ar_chans : 0 < a < CDMA_CHANNELS /\ 0 < b < CDMA_CHANNELS /\ a <> b;
  ar_sizes : length (dm_ch (w_cdma w)) = nchan /\ length (dm_irq (w_cdma w)) = nchan /\
             length (dm_aes (w_cdma w)) = Z.to_nat AES_CONTEXTS;
  ar_null : null_free (w_cdma w) = true;
  ar_idle : cd_fifo (chan a w) = 0 /\ cd_in_seg (chan a w) = false /\
            cd_fifo (chan b w) = 0 /\ cd_settings (chan b w) = 0 /\ cd_in_seg (chan b w) = false;
  ar_go : is_go va = true /\ is_u32 va /\ is_go vb = true /\ is_u32 vb;
  ar_ctx : CTRL_AES_CTX va = i /\ 0 < i < AES_CONTEXTS /\ CTRL_AES_CTX vb = 0;
  ar_key : plain_key (get_aes i (w_cdma w)) = true /\ length (ax_iv (get_aes i (w_cdma w))) = 4%nat;
  ar_queue : dm_fifo (w_cdma w) = [];
  ar_src : chain_at desc_ok feed_flags (w_mem w) true (cd_desc (chan a w)) src = true /\ (length src <= 4096)%nat;
  ar_dst : chain_at desc_ok drain_flags (w_mem w) true (cd_desc (chan b w)) dst = true /\ (length dst <= 4096)%nat;
  ar_total : seg_total dst = seg_total src /\ seg_total src mod 16 = 0 /\ seg_total src <= CDMA_FIFO_MAX;
  ar_apart : seg_apart dst = true /\ chain_clear (w_mem w) (cd_desc (chan b w)) dst dst = true
}.

(** What the two goes make of the world. *)
Lemma pair_run now w a b i va vb src dst : aes_ready w a b i va vb src dst ->
  let c := get_aes i (w_cdma w) in
  let x := seg_bytes (w_mem w) src in
  let out := cbc (flagged (ax_setup c) AES_ENCRYPT) (aes_key c) (words_bytes (ax_iv c)) x in
  zlen out = seg_total dst /\ rest x = [] /\
  exists ca cb, cd_fifo ca = 0 /\ cd_fifo cb = 0 /\
  cd_ctrl ca = ctrl_done (ctrl_after (cd_ctrl (chan a w)) va) /\ cd_ctrl cb = ctrl_done (ctrl_after (cd_ctrl (chan b w)) vb) /\
  cdma_write desc_ok rate now (Z.shiftl b 12) vb (cdma_write desc_ok rate now (Z.shiftl a 12) va w) =
  mkWorld (cdma_update_irq b (put b cb ((cdma_update_irq a (put a ca (fed i (words_bytes (ax_iv c)) x [] (w_cdma w))))
             <| dm_fifo := zdrop (seg_total dst) out |>))) (seg_write (w_mem w) dst out) (w_dev w).
Proof.
  intros [(Ha & Hb & Hab) (Lc & Li & La) N (Fa & Sa & Fb & Tb & Sb) (Ga & Ua & Gb & Ub) (Xa & Hi & Xb) (P & L4) Q
    (Cs & Ns) (Cd & Nd) (T1 & T2 & T3) (A1 & A2)] c x out.
  assert (Ia : chan_in a (w_cdma w)) by (unfold chan_in; rewrite Lc; unfold nchan; lia).
  assert (Ib : chan_in b (w_cdma w)) by (unfold chan_in; rewrite Lc; unfold nchan; lia).
  destruct (feed_go desc_ok rate now a va i w src Ha Ga Ua N Ia Fa Sa Xa Hi La P L4 Cs Ns ltac:(rewrite Q, zlen_nil; lia))
    as (ca & Ea & Ffa & W1). fold c x in W1. rewrite Q in W1.
  assert (Lx : zlen x = seg_total src) by (apply zlen_seg_bytes; by eapply chain_lens).
  destruct (whole_all x ltac:(by rewrite Lx)) as [Wx Rx]. set (w1 := mkWorld _ _ _) in W1.
  assert (Cb : chan b w1 = chan b w) by (apply (get_put_ne a b ca (w_cdma w)); lia).
  assert (Ib1 : chan_in b (w_cdma w1)) by (by apply (chan_in_put a b ca (w_cdma w))).
  assert (Q1 : dm_fifo (w_cdma w1) = out) by (etransitivity; [|exact (f_equal (cbc _ _ _) Wx)]; done).
  assert (Hv : zlen (words_bytes (ax_iv c)) = 16) by (by apply (iv_len i _ (w_cdma w))).
  assert (Lq : zlen out = seg_total dst) by (unfold out; rewrite zlen_cbc by (done || by rewrite Lx); lia).
  destruct (drain_go desc_ok rate now b vb w1 dst Hb Gb Ub N Ib1) as (cb & Eb & Ffb & W2);
    rewrite ?Cb, ?Q1; try done; [lia|]. rewrite Cb in Eb. rewrite Q1 in W2.
  split; [done|]. split; [done|]. exists ca, cb. rewrite W1, W2. done.
Qed.

(** C21. The AES pair computes CBC over memory, however the two buffers are cut
    into segments: after a go on the feeding and one on the draining channel the
    draining chain's segments hold CBC, in the direction and with the key and
    vector of the context, of what the feeding chain's segments held.  Nothing
    outside them changes, queue and carry are empty, both channels report done
    without an error, and each line follows bit 3 of the control word.  The length
    is a multiple of 16 that the queue can hold, and the key is not the group key. *)
Theorem cdma_aes_pair now w a b i va vb src dst :
  aes_ready w a b i va vb src dst ->
  let c := get_aes i (w_cdma w) in
  let w' := cdma_write desc_ok rate now (Z.shiftl b 12) vb (cdma_write desc_ok rate now (Z.shiftl a 12) va w) in
  seg_bytes (w_mem w') dst =
    cbc (flagged (ax_setup c) AES_ENCRYPT) (aes_key c) (words_bytes (ax_iv c)) (seg_bytes (w_mem w) src) /\
  (forall r, forallb (fun t => apart t r) dst = true -> phys_read (w_mem w') r.1 r.2 = phys_read (w_mem w) r.1 r.2) /\
  dm_fifo (w_cdma w') = [] /\ ax_carry (get_aes i (w_cdma w')) = [] /\
  (forall ch v, (ch, v) = (a, va) \/ (ch, v) = (b, vb) ->
    flagged (cd_ctrl (chan ch w')) ST_DONE = true /\ flagged (cd_ctrl (chan ch w')) ST_ERROR = false /\
    flag_at (dm_irq (w_cdma w')) ch = chan_enabled (w_cdma w) ch && flagged v CTRL_IRQ_EN).
Proof.
  intros R c w'. destruct (pair_run now w a b i va vb src dst R) as (Lq & Rx & ca & cb & Fa & Fb & Ea & Eb & W).
  fold c in Lq, W. set (out := cbc _ _ _ _) in *. set (x := seg_bytes (w_mem w) src) in *.
  destruct R as [(Ha & Hb & Hab) (Lc & Li & La) _ _ _ (_ & Hi & _) _ _ _ (Cd & _) _ (A1 & _)].
  assert (Fd : forallb (fun r => 0 <=? r.2) dst = true) by (by eapply chain_lens).
  unfold w'. rewrite W. cbn [w_mem w_cdma].
  split; [by apply seg_write_bytes|]. split; [intros r Hr; apply seg_write_out; [done|lia|done]|].
  split; [apply zdrop_past; lia|]. split.
  { transitivity (ax_carry (get_aes i (fed i (words_bytes (ax_iv c)) x [] (w_cdma w)))); [done|].
    unfold fed, aes_at. rewrite get_upd_aes by (change (dm_aes (_ <| dm_fifo := _ |>)) with (dm_aes (w_cdma w)); lia). done. }
  destruct (pair_lines a b ca cb _ _ (zdrop (seg_total dst) out) (fed i (words_bytes (ax_iv c)) x [] (w_cdma w))
    ltac:(unfold chan_in, fed; cbn; rewrite Lc; unfold nchan; lia) ltac:(unfold chan_in, fed; cbn; rewrite Lc; unfold nchan; lia)
    ltac:(cbn; rewrite Li; unfold nchan; lia) ltac:(cbn; rewrite Li; unfold nchan; lia) ltac:(lia) Fa Fb Ea Eb) as (Ga & Gb & Ra & Rb).
  intros ch v [[= -> ->]|[= -> ->]]; unfold chan; cbn [w_cdma].
  - rewrite Ga, Ra, Ea, ctrl_after_irq. destruct (ctrl_done_bits (ctrl_after (cd_ctrl (chan a w)) va)) as (? & ? & _ & _). done.
  - rewrite Gb, Rb, Eb, ctrl_after_irq. destruct (ctrl_done_bits (ctrl_after (cd_ctrl (chan b w)) vb)) as (? & ? & _ & _). done.
Qed.
End Pair.

(** ** An example *)

(** A toy cipher, a machine with no devices and two chains of two segments. *)
Definition ex_cipher : BlockCipher :=
  {| blk_encrypt := fun key b => Z.lxor (rd key 0) <$> b; blk_decrypt := fun key b => Z.lxor (rd key 0) <$> b |}.

Lemma ex_cipher_len : @CipherLen ex_cipher.
Proof. split; intros key b Hb; cbn; unfold zlen in *; by rewrite length_fmap. Qed.

Definition ex_port : FifoPort unit :=
  {| port_avail := fun _ _ d => (0, d); port_push := fun _ _ d => (d, []); port_pop := fun _ n d => (replicate (Z.to_nat n) 0, d) |}.

Definition ex_src : list (Z * Z) := [(0x40001003, 13); (0x40002000, 19)].
Definition ex_dst : list (Z * Z) := [(0x40003000, 5); (0x40004000, 27)].

Definition ex_mem : Z -> Z :=
  phys_write (phys_write (phys_write (phys_write
    (fun x => x mod 251)
    0x40000000 (words_bytes [0x40000020; 0x30003; 0x40001003; 13]))
    0x40000020 (words_bytes [0; 0x10103; 0x40002000; 19]))
    0x40000100 (words_bytes [0x40000120; 0x3; 0x40003000; 5]))
    0x40000120 (words_bytes [0; 0x103; 0x40004000; 27]).

(** Both channels enabled, context 1 encrypts with a key of its own. *)
Definition ex_cdma : S5L8930CDMAState :=
  mkCdma 0x10000000 (replicate nchan false) [0x6; 0] 2 0x84500400 3
    (<[1%nat := mkChan_cdma 0 0 0 0 0 0x40000000 0 false]> (<[2%nat := mkChan_cdma 0 0 0 0 0 0x40000100 0 false]>
       (replicate nchan chan0_cdma)))
    (<[1%nat := mkAes 0x130100 [1; 2; 3; 4] [0x77; 0; 0; 0; 0; 0; 0; 0] (replicate 16 0) []]> (replicate 9 aes0))
    [] false [] [None; None; None; None] (replicate nchan false) (replicate nchan false) (replicate nchan false)
    (replicate nchan false) (replicate nchan 0) (replicate nchan 0) (replicate nchan 0) (replicate nchan 0) (replicate nchan 0) None.

Lemma ex_aes_ready : aes_ready (fun _ => true) (mkWorld ex_cdma ex_mem tt) 1 2 1 0x189 0x89 ex_src ex_dst.
Proof.
  split; repeat split; first [done | lazy; reflexivity | unfold ex_src, ex_dst; cbn [length]; lia | by vm_compute].
Qed.

Lemma cdma_aes_pair_witness :
  let w := mkWorld ex_cdma ex_mem tt in
  let w' := @cdma_write unit ex_port ex_cipher (fun _ => true) (fun _ => 44100) 0 0x2000 0x89
              (@cdma_write unit ex_port ex_cipher (fun _ => true) (fun _ => 44100) 0 0x1000 0x189 w) in
  seg_bytes (w_mem w') ex_dst =
    @cbc ex_cipher true (words_bytes [0x77; 0; 0; 0]) (words_bytes [1; 2; 3; 4]) (seg_bytes ex_mem ex_src) /\
  flag_at (dm_irq (w_cdma w')) 2 = true.
Proof.
  destruct (@cdma_aes_pair unit ex_port ex_cipher ex_cipher_len (fun _ => true) (fun _ => 44100) 0 (mkWorld ex_cdma ex_mem tt)
    1 2 1 0x189 0x89 ex_src ex_dst ex_aes_ready) as (H1 & _ & _ & _ & H2).
  split; [exact H1|]. destruct (H2 2 0x89 (or_intror eq_refl)) as (_ & _ & H3). exact H3.
Defined.
