(* ===== verification/CdmaSpi.v ===== *)
(** * The DMA engine in front of the baseband's SPI controller

    The controller of [src/hw/arm/s5l8930_bbspi.c] as a device behind channels of
    [src/hw/arm/s5l8930_cdma.c]: [bbspi_avail] is its source's callback, and the
    engine's accesses to the two FIFO registers reach it through the memory API,
    whose region takes words of four bytes only.

    With both channels stalled on the controller and the modem ready, one kick of
    the engine moves a whole frame both ways: the lemmas about its turns. *)

From Stdlib Require Import ZArith Lia.
From stdpp Require Import base numbers list.
From S2P Require Import Prelude CLib HwLib BbIfx BbIfxFacts IosDev BbSpi BbSpiFacts CdmaAes Cdma CdmaRegs CdmaAesFacts CdmaFacts CdmaPipe.
Local Open Scope Z_scope.

(** The controller at [base] as a device of the engine.  An access that is not a
    word is refused; what a refused read leaves in the engine's buffer is [junk].
    A push that completes the transmit half reports the transmit window drained. *)
Definition spi_port (now base : Z) (junk : Z -> bytes) : FifoPort IosBbSpiState :=
  {| port_avail := fun _ to_device s => bbspi_avail now to_device s;
     port_push := fun addr chunk s =>
       if zlen chunk =? 4 then
         let s' := bbspi_write now (addr - base) (le_word chunk) s in
         (s', if sink_dones s <? sink_dones s' then [(base + R_TXDATA, 4)] else [])
       else (s, []);
     port_pop := fun addr n s =>
       if n =? 4 then let '(v, s') := bbspi_read (addr - base) s in (le32 v, s') else (junk n, s) |}.

(** The bottom half of the controller resumes the engine. *)
Definition spi_kick `{BlockCipher} (desc_ok : Z -> bool) (now base : Z) (junk : Z -> bytes) (w : CdmaWorld IosBbSpiState)
  : CdmaWorld IosBbSpiState :=
  let '(go, s) := bbspi_kick (w_dev w) in
  let w := w <| w_dev := s |> in
  if go then @s5l8930_cdma_kick IosBbSpiState (spi_port now base junk) _ desc_ok w else w.

(** ** Words and bytes *)

Lemma is_byte_lor a b : is_byte a -> is_byte b -> is_byte (Z.lor a b).
Proof.
  unfold is_byte. intros Ha Hb. split; [apply Z.lor_nonneg; lia|].
  assert (W : forall x, 0 <= x < 256 -> Z.log2 x <= 7) by (intros x Hx; apply (Z.log2_le_mono x 255); lia).
  pose proof (Z.log2_lor a b ltac:(lia) ltac:(lia)). pose proof (W a ltac:(lia)). pose proof (W b ltac:(lia)).
  destruct (Z.eqb_spec (Z.lor a b) 0); [lia|]. change 256 with (2 ^ 8). apply Z.log2_lt_pow2; [|lia].
  assert (0 <= Z.lor a b) by (apply Z.lor_nonneg; lia). lia.
Qed.

(** The modem's frames are bytes. *)
Lemma is_bytes_ifx_tx n x : is_bytes (x_txq x) -> is_bytes (ifx_tx n x).1.
Proof.
  intros Q. assert (Z0 : forall k, is_bytes (replicate k 0)) by (intros k; apply Forall_replicate; unfold is_byte; lia).
  unfold ifx_tx. case_match; [apply Z0|]. cbv zeta. cbn [fst].
  apply is_bytes_app. split; [|apply is_bytes_app; split; [|apply Z0]].
  - assert (B1 : is_byte IFX_MORE) by (by vm_compute). assert (B2 : is_byte IFX_V2_CREDIT_REQ) by (by vm_compute).
    repeat apply Forall_cons_2; try apply Forall_nil_2; repeat case_match; auto using u8_is_byte, is_byte_lor.
    all: unfold is_byte; change 0xf with (Z.ones 4); rewrite Z.land_ones by lia.
    all: match goal with |- context [?a mod 2 ^ 4] => pose proof (Z.mod_pos_bound a (2 ^ 4)) end; lia.
  - apply is_bytes_take. by destruct (_ && negb _).
Qed.

(** ** The controller under the engine's accesses *)

Section Frame.
Context `{B : BlockCipher} (desc_ok : Z -> bool).
Context (now base : Z) (junk : Z -> bytes) (cr ct n t : Z) (s0 : IosBbSpiState) (d0 : IosBasebandState).
Context (R : frame_ready 4 cr ct n t s0 d0) (Bq : is_bytes (x_txq (dv_ifx d0))) (Cd : bs_cdma s0 = true).

#[local] Hint Extern 0 (FifoPort IosBbSpiState) => exact (spi_port now base junk) : typeclass_instances.

(** The modem's frame, and the accesses so far after the first request for data. *)
Definition frame_bytes : bytes := (ios_baseband_spi_xfer now None true n d0).1.

Record after (l : list fifo_op) (s : IosBbSpiState) : Prop := mkAfter {
  af_run : s = (fifo_run now (AskRx :: l) s0).2;
  af_reads : reads l <= cr;
  af_written : zlen (written l) <= ct
}.

Lemma fifo_run_snoc l o : fifo_run now (AskRx :: l ++ [o]) s0 = fifo_step now (fifo_run now (AskRx :: l) s0) o.
Proof. unfold fifo_run. by rewrite app_comm_cons, fold_left_app. Qed.

Lemma after_inv l s : after l s -> exists vals, frame_inv now 4 cr ct n t s0 d0 l vals s /\ fifo_run now (AskRx :: l) s0 = (vals, s).
Proof using R.
  intros [E1 E2 E3]. pose proof (frame_run now 4 cr ct n t s0 d0 R l E2 E3) as I.
  destruct (fifo_run now (AskRx :: l) s0) as [vals s']. cbn [snd] in E1. subst s'. by exists vals.
Qed.

Lemma fifo_step_cdma st o : bs_cdma (fifo_step now st o).2 = bs_cdma st.2.
Proof.
  assert (M : forall f s, bs_cdma (bbspi_modem f s) = bs_cdma s) by (intros f s; unfold bbspi_modem; by case_match).
  assert (C : forall s, bs_cdma (bbspi_check_done s) = bs_cdma s) by (intros s; unfold bbspi_check_done; by case_match).
  assert (A : forall b s, bs_cdma (bbspi_avail now b s).2 = bs_cdma s).
  { intros b s. unfold bbspi_avail. case_match; [done|]. case_match; [done|]. cbn [snd]. unfold bbspi_build_miso.
    case_match; [|done]. case_match; [|done]. apply (M _ s). }
  destruct st as [vals s]. destruct o; cbn [fifo_step snd].
  - apply A.
  - apply A.
  - unfold bbspi_read. rewrite Z.eqb_refl. cbn [negb]. cbv zeta. cbn [snd]. by rewrite C.
  - unfold bbspi_write. cbn [Z.eqb R_TXDATA R_CTRL R_STATUS Pos.eqb]. unfold bbspi_write_txdata. cbv zeta. rewrite C.
    set (u := s <| bs_tx ::= _ |>). change (bs_cdma s) with (bs_cdma u). case_match; [|done]. case_match; [|done].
    case_match; [|apply M]. match goal with |- bs_cdma (?x <| sink_dones ::= _ |>) = _ => change (bs_cdma x = bs_cdma u) end. apply M.
Qed.

Lemma after_cdma l s : after l s -> bs_cdma s = true.
Proof using Cd.
  intros [-> _ _]. unfold fifo_run. rewrite <- Cd. change s0 with (([] : list Z), s0).2 at 2. generalize (([] : list Z), s0).
  generalize (AskRx :: l). clear. intros l. induction l as [|o l IH]; intros st; [done|]. cbn [fold_left].
  by rewrite IH, fifo_step_cdma.
Qed.

Lemma after_start : after [] (bbspi_avail now false s0).2.
Proof using R. pose proof (counts 4 cr ct n t s0 d0 R). constructor; [done|change (reads []) with 0; lia|change (zlen (written [])) with 0; lia]. Qed.

(** What the engine may move. *)
Lemma after_ask l s to_device : after l s ->
  exists s', bbspi_avail now to_device s = (if to_device then t - 4 * zlen (written l) else n - 4 * reads l, s') /\
  after (l ++ [if to_device then AskTx else AskRx]) s'.
Proof using R.
  intros A. destruct (after_inv l s A) as (vals & I & Er).
  destruct (inv_sizes now 4 cr ct n t s0 d0 R _ _ _ I) as (_ & _ & Et & Ec & _). destruct A as [A1 A2 A3].
  exists (bbspi_avail now to_device s).2. split.
  - unfold bbspi_avail. rewrite Ec. cbn [negb]. pose proof R as [].
    assert (0 <= reads l) by apply zlen_nonneg. pose proof (zlen_nonneg (written l)). unfold FRAME_MAX in *. destruct to_device.
    + rewrite Et, Z.min_l by (unfold FRAME_MAX; lia). rewrite (fi_tx _ _ _ _ _ _ _ _ _ _ _ I), zlen_bytes_of by lia.
      cbn [snd]. f_equal. case_match; bool_hyps; lia.
    + unfold bbspi_build_miso. rewrite (fi_modem _ _ _ _ _ _ _ _ _ _ _ I), (fi_rx_len _ _ _ _ _ _ _ _ _ _ _ I).
      rewrite (proj2 (Z.eqb_neq n 0)), andb_false_r by lia. cbn [snd].
      rewrite (fi_rx_len _ _ _ _ _ _ _ _ _ _ _ I), (fi_rx_pos _ _ _ _ _ _ _ _ _ _ _ I). f_equal. apply u32_id. unfold is_u32. lia.
  - constructor.
    + rewrite fifo_run_snoc, Er. by destruct to_device.
    + rewrite reads_snoc. destruct to_device; cbn; lia.
    + rewrite written_snoc. destruct to_device; by rewrite app_nil_r.
Qed.

Lemma frame_len : zlen frame_bytes = n.
Proof using R. exact (miso_len now 4 cr ct n t s0 d0 R). Qed.

Lemma frame_is_bytes : is_bytes frame_bytes.
Proof using Bq. unfold frame_bytes. rewrite xfer_miso. by apply is_bytes_ifx_tx. Qed.

(** A word of the frame. *)
Lemma after_pop l s : after l s -> reads l < cr ->
  exists s', port_pop (base + R_RXDATA) 4 s = (ztake 4 (zdrop (4 * reads l) frame_bytes), s') /\ after (l ++ [ReadRx]) s'.
Proof using Bq R.
  intros A Hr. destruct (after_inv l s A) as (vals & I & Er). destruct A as [A1 A2 A3].
  assert (W : written (l ++ [ReadRx]) = written l) by (rewrite written_snoc; apply app_nil_r).
  assert (Rd : reads (l ++ [ReadRx]) = reads l + 1) by apply reads_snoc.
  pose proof (fifo_run_snoc l ReadRx) as S. rewrite Er in S. cbn [fifo_step] in S.
  cbn [port_pop spi_port Z.eqb Pos.eqb]. replace (base + R_RXDATA - base) with R_RXDATA by lia.
  destruct (bbspi_read R_RXDATA s) as [v s'] eqn:Eb. exists s'.
  assert (A : after (l ++ [ReadRx]) s') by (constructor; [by rewrite S|lia|by rewrite W]). split; [|done].
  destruct (after_inv _ _ A) as (vals' & I' & Er'). rewrite S in Er'. injection Er' as <-.
  pose proof (fi_vals _ _ _ _ _ _ _ _ _ _ _ I') as V. rewrite (fi_vals _ _ _ _ _ _ _ _ _ _ _ I), Rd in V.
  assert (H0 : 0 <= reads l) by apply zlen_nonneg. rewrite words_of_snoc in V by done. apply app_inv_head in V.
  injection V as ->. f_equal. apply le32_le_word; [|by apply is_bytes_take, is_bytes_drop, frame_is_bytes].
  change (BbSpiFacts.miso now n d0) with frame_bytes. rewrite zlen_ztake, zlen_zdrop, frame_len. destruct R. lia.
Qed.

(** The last word of the transmit half is reported. *)
Lemma push_sink l vals s v : frame_inv now 4 cr ct n t s0 d0 l vals s -> bs_cdma s = true -> zlen (written l) < ct ->
  (sink_dones s <? sink_dones (bbspi_write now R_TXDATA v s)) = (zlen (written l) + 1 =? ct).
Proof using R.
  intros I C Hw. destruct (inv_sizes now 4 cr ct n t s0 d0 R _ _ _ I) as (Ew & _ & Et & _ & _). pose proof R as [].
  unfold bbspi_write. cbn [Z.eqb R_TXDATA R_CTRL R_STATUS Pos.eqb]. unfold bbspi_write_txdata. cbv zeta.
  assert (K : forall u, sink_dones (bbspi_check_done u) = sink_dones u) by (intros u; unfold bbspi_check_done; by case_match).
  rewrite K. unfold FRAME_MAX in *. rewrite Et, Ew, Z.min_l by lia. set (u := s <| bs_tx ::= _ |>).
  assert (Lu : zlen (bs_tx u) = 4 * (zlen (written l) + 1)).
  { change (bs_tx u) with (bs_tx s ++ ztake (Z.min 4 (t - zlen (bs_tx s))) (le32 v)).
    rewrite zlen_app, (fi_tx _ _ _ _ _ _ _ _ _ _ _ I), zlen_bytes_of, zlen_ztake by lia. change (zlen (le32 v)) with 4. lia. }
  change (bs_modem u) with (bs_modem s). rewrite (fi_modem _ _ _ _ _ _ _ _ _ _ _ I), Lu.
  pose proof (zlen_nonneg (written l)). rewrite (proj2 (Z.eqb_neq t 0)) by lia. cbn [negb andb].
  assert (M : forall f, sink_dones (bbspi_modem f u) = sink_dones s /\ bs_cdma (bbspi_modem f u) = true).
  { intros f. unfold bbspi_modem. by case_match. }
  destruct (Z.eqb_spec (4 * (zlen (written l) + 1)) t), (Z.eqb_spec (zlen (written l) + 1) ct); try lia.
  - match goal with |- context [bbspi_modem ?f u] => destruct (M f) as [M1 M2]; rewrite M2; set (m := bbspi_modem f u) in * end.
    change (sink_dones (m <| sink_dones ::= _ |>)) with (sink_dones m + 1). rewrite M1. apply Z.ltb_lt. lia.
  - change (sink_dones u) with (sink_dones s). apply Z.ltb_irrefl.
Qed.

Lemma after_push l s chunk : after l s -> zlen (written l) < ct -> zlen chunk = 4 ->
  exists s', port_push (base + R_TXDATA) chunk s = (s', if zlen (written l) + 1 =? ct then [(base + R_TXDATA, 4)] else []) /\
  after (l ++ [WriteTx (le_word chunk)]) s'.
Proof using Cd R.
  intros A Hw Hc. destruct (after_inv l s A) as (vals & I & Er). pose proof (after_cdma l s A) as C. destruct A as [A1 A2 A3].
  cbn [port_push spi_port]. rewrite Hc. cbn [Z.eqb Pos.eqb]. replace (base + R_TXDATA - base) with R_TXDATA by lia.
  rewrite (push_sink l vals s _ I C Hw). eexists. split; [done|]. constructor.
  - by rewrite fifo_run_snoc, Er.
  - rewrite reads_snoc. cbn [is_read b2z]. lia.
  - rewrite written_snoc, zlen_app, zlen_cons, zlen_nil. lia.
Qed.

(** ** Transfers of several words *)

Lemma reads_replicate l m : reads (l ++ replicate m ReadRx) = reads l + Z.of_nat m /\ written (l ++ replicate m ReadRx) = written l.
Proof.
  induction m as [|m [IH1 IH2]]; [rewrite app_nil_r; split; [lia|done]|].
  replace (S m) with (m + 1)%nat by lia. rewrite replicate_add, app_assoc. cbn [replicate].
  rewrite reads_snoc, written_snoc, app_nil_r, IH1, IH2. cbn [is_read b2z]. split; [lia|done].
Qed.

Lemma read_words s mem m : forall fuel l spi, (m <= fuel)%nat -> after l spi -> reads l + Z.of_nat m <= cr ->
  exists spi', fifo_read fuel (base + R_RXDATA) 4 (4 * Z.of_nat m) (mkWorld s mem spi) =
    (ztake (4 * Z.of_nat m) (zdrop (4 * reads l) frame_bytes), mkWorld s mem spi') /\
  after (l ++ replicate m ReadRx) spi'.
Proof using Bq R.
  induction m as [|m IH]; intros fuel l spi Hf A Hr.
  - exists spi. split; [|by rewrite app_nil_r]. destruct fuel; done.
  - destruct fuel as [|fuel]; [lia|]. cbn [fifo_read]. rewrite (proj2 (Z.leb_gt _ _)) by lia.
    rewrite Z.min_l by lia. cbn [w_dev]. destruct (after_pop l spi A ltac:(lia)) as (s1 & E1 & A1). rewrite E1.
    assert (Rd : reads (l ++ [ReadRx]) = reads l + 1) by apply reads_snoc.
    destruct (IH fuel (l ++ [ReadRx]) s1 ltac:(lia) A1 ltac:(lia)) as (s2 & E2 & A2).
    replace (4 * Z.of_nat (S m) - 4) with (4 * Z.of_nat m) by lia.
    change ((mkWorld s mem spi) <| w_dev := s1 |>) with (mkWorld s mem s1). rewrite E2. exists s2. split.
    + f_equal. assert (0 <= reads l) by apply zlen_nonneg.
      replace (4 * Z.of_nat (S m)) with (4 + 4 * Z.of_nat m) by lia. rewrite ztake_add by lia. f_equal. f_equal.
      rewrite zdrop_zdrop by lia. f_equal. lia.
    + by rewrite <- app_assoc in A2.
Qed.

(** What the engine learns of the last push. *)
Definition drained (fin : bool) (s : S5L8930CDMAState) : S5L8930CDMAState :=
  if fin then s5l8930_cdma_sink_done (base + R_TXDATA) 4 s else s.

Lemma written_words l ws : written (l ++ (WriteTx <$> ws)) = written l ++ ws /\ reads (l ++ (WriteTx <$> ws)) = reads l.
Proof.
  induction ws as [|w ws [IH1 IH2]] using rev_ind; [rewrite !app_nil_r; done|].
  rewrite fmap_app, app_assoc. cbn [fmap list_fmap]. rewrite written_snoc, reads_snoc, IH1, IH2. cbn [is_read b2z].
  rewrite app_assoc. split; [done|lia].
Qed.

Lemma write_words s mem m : forall fuel l spi buf, (m <= fuel)%nat -> after l spi -> zlen (written l) + Z.of_nat m <= ct ->
  zlen buf = 4 * Z.of_nat m -> is_bytes buf -> (0 < m)%nat ->
  exists ws spi', bytes_of 4 ws = buf /\ zlen ws = Z.of_nat m /\ after (l ++ (WriteTx <$> ws)) spi' /\
  fold_left (fifo_push_one (base + R_TXDATA)) (chunks fuel 4 buf) (mkWorld s mem spi) =
  mkWorld (drained (zlen (written l) + Z.of_nat m =? ct) s) mem spi'.
Proof using Cd R.
  induction m as [|m IH]; intros fuel l spi buf Hf A Hr Hl Bb Hm; [lia|]. destruct fuel as [|fuel]; [lia|].
  destruct buf as [|b0 buf]; [unfold zlen in Hl; cbn in Hl; lia|]. set (buf1 := b0 :: buf) in *.
  assert (Lc : zlen (ztake 4 buf1) = 4) by (rewrite zlen_ztake; lia).
  assert (Ec : le32 (le_word (ztake 4 buf1)) = ztake 4 buf1) by (apply le32_le_word; [done|by apply is_bytes_take]).
  destruct (after_push l spi (ztake 4 buf1) A ltac:(lia) Lc) as (s1 & E1 & A1).
  assert (Ed : zlen (zdrop 4 buf1) = 4 * Z.of_nat m) by (rewrite zlen_zdrop; lia).
  change (chunks (S fuel) 4 buf1) with (ztake 4 buf1 :: chunks fuel 4 (zdrop 4 buf1)). cbn [fold_left].
  unfold fifo_push_one at 2. cbn [w_dev]. rewrite E1. destruct (decide (m = 0%nat)) as [->|Hm0].
  - exists [le_word (ztake 4 buf1)], s1. assert (Eb : ztake 4 buf1 = buf1) by (apply ztake_all; lia). split; [|split; [|split]].
    + unfold bytes_of. cbn. rewrite app_nil_r. change (ztake 4 (le32 (le_word (ztake 4 buf1))) = buf1). rewrite Ec, Eb. by apply ztake_all; lia.
    + done.
    + exact A1.
    + assert (zdrop 4 buf1 = []) as -> by (apply zdrop_past; lia). change (Z.of_nat 1) with 1.
      transitivity (mkWorld (fold_left (fun s p => s5l8930_cdma_sink_done p.1 p.2 s)
        (if zlen (written l) + 1 =? ct then [(base + R_TXDATA, 4)] else []) s) mem s1); [by destruct fuel|].
      f_equal. unfold drained. destruct (zlen (written l) + 1 =? ct); cbn [fold_left fst snd]; reflexivity.
  - rewrite (proj2 (Z.eqb_neq (zlen (written l) + 1) ct)) by lia. cbn [fold_left].
    change (_ <| w_cdma ::= fun s => s |>) with (mkWorld s mem s1).
    assert (W : zlen (written (l ++ [WriteTx (le_word (ztake 4 buf1))])) = zlen (written l) + 1).
    { rewrite written_snoc, zlen_app. done. }
    destruct (IH fuel (l ++ [WriteTx (le_word (ztake 4 buf1))]) s1 (zdrop 4 buf1)) as (ws & s2 & B1 & B2 & B3 & B4);
      [lia|done|lia|done|by apply is_bytes_drop|lia|].
    exists (le_word (ztake 4 buf1) :: ws), s2. split; [|split; [|split]].
    + transitivity (ztake 4 (le32 (le_word (ztake 4 buf1))) ++ bytes_of 4 ws); [done|]. rewrite B1, Ec.
      rewrite (ztake_all 4 (ztake 4 buf1)) by lia. apply ztake_zdrop.
    + rewrite zlen_cons. lia.
    + rewrite <- app_assoc in B3. exact B3.
    + rewrite B4, W. by replace (zlen (written l) + 1 + Z.of_nat m) with (zlen (written l) + Z.of_nat (S m)) by lia.
Qed.
End Frame.
