(* ===== verification/CdmaFrame.v ===== *)
(** * One kick, one frame

    The two channels of the baseband's SPI controller, resumed by its bottom half:
    the walk over both chains, and what memory and modem hold afterwards. *)

From Stdlib Require Import ZArith Lia.
From stdpp Require Import base numbers list.
From S2P Require Import Prelude CLib HwLib BbIfx BbIfxFacts IosDev BbSpi BbSpiFacts.
From S2P Require Import CdmaAes Cdma CdmaRegs CdmaAesFacts CdmaFacts CdmaPipe CdmaSpi.
Local Open Scope Z_scope.

(** ** A device that drains during a push *)

Definition early (ch : Z) (b : bool) (s : S5L8930CDMAState) : S5L8930CDMAState := s <| dm_sink_early ::= fun l => wr l ch b |>.
Definition running (ch : Z) (b : bool) (s : S5L8930CDMAState) : S5L8930CDMAState := s <| dm_in_run ::= fun l => wr l ch b |>.

Lemma early_early ch b b' s : early ch b (early ch b' s) = early ch b s.
Proof. unfold early, wr. destruct s. unfold upd, upd_dm_sink_early. f_equal. apply list_insert_insert_eq. Qed.

(** No chain waits for a device to drain, and none but [ch] is being pushed. *)
Definition only_run (ch : Z) (s : S5L8930CDMAState) : Prop :=
  forall j, flag_at (dm_sink_pending s) j = false /\ (Z.to_nat j <> Z.to_nat ch -> flag_at (dm_in_run s) j = false).

Lemma sink_done_early ch fb size s : only_run ch s -> flag_at (dm_in_run s) ch = true -> 0 < ch < CDMA_CHANNELS ->
  (fb <=? cd_fifo (get_chan ch s)) && (cd_fifo (get_chan ch s) <? u32 (fb + size)) = true ->
  s5l8930_cdma_sink_done fb size s = early ch true s.
Proof.
  intros Q Hr Hc Hw. unfold s5l8930_cdma_sink_done.
  assert (S : forall (j : Z) (b : bool), 0 < j -> sink_done_chan fb size j (if b then early ch true s else s) =
    if b || (j =? ch) then early ch true s else s).
  { intros j b Hj. destruct (Q j) as [Q1 Q2].
    assert (P : flag_at (dm_sink_pending (if b : bool then early ch true s else s)) j = false) by (by destruct b).
    assert (P' : flag_at (dm_sink_pending (early ch true (if b : bool then early ch true s else s))) j = false) by (by destruct b).
    unfold sink_done_chan. cbv zeta. destruct (Z.eqb_spec j ch) as [->|Ne].
    - replace (flag_at (dm_in_run (if b : bool then early ch true s else s)) ch) with true by (by destruct b).
      replace (get_chan ch (if b : bool then early ch true s else s)) with (get_chan ch s) by (by destruct b).
      rewrite Hw. cbn [andb]. fold (early ch true (if b : bool then early ch true s else s)). rewrite P'. cbn [andb].
      rewrite orb_true_r. destruct b; [apply early_early|done].
    - replace (flag_at (dm_in_run (if b : bool then early ch true s else s)) j) with false by (destruct b; symmetry; apply Q2; lia).
      cbn [andb]. rewrite P. cbn [andb]. by rewrite orb_false_r. }
  assert (G : forall l (b : bool), Forall (fun j => 0 < j) l -> fold_left (fun s j => sink_done_chan fb size j s) l (if b then early ch true s else s) =
    if b || existsb (fun j => j =? ch) l then early ch true s else s).
  { intros l. induction l as [|j l IH]; intros b F; [by rewrite orb_false_r|]. cbn [fold_left existsb].
    apply Forall_cons in F as [F1 F2]. rewrite S, IH by done. by rewrite orb_assoc. }
  rewrite (G channels false).
  - assert (existsb (fun j => j =? ch) channels = true) as ->; [|done]. apply existsb_exists. exists ch.
    split; [|apply Z.eqb_refl]. apply list_elem_of_In, elem_of_seqZ. lia.
  - apply Forall_forall. intros j Hj%elem_of_seqZ. lia.
Qed.

(** ** Turns of a channel its device paces *)

(** A channel at a segment it has not started or has just stalled on. *)
Definition chan_on (c : CDMAChannel) (a n : Z) : Prop := cd_in_seg c = true -> cd_addr c = a /\ cd_remain c = n.

Section Sourced.
Context {D : Type} `{F : FifoPort D} `{B : BlockCipher} (desc_ok : Z -> bool).

Lemma turn_sourced ch e dev c s mem (d d' : D) flags a n k :
  chan_in ch s -> chan_on c a n -> sourced e dev (at_chan ch c s mem d) = true -> descr desc_ok mem (cd_desc c) flags a n ->
  port_avail dev (re_to_device e) d = (k, d') -> n <= Z.ldiff k (re_width e - 1) ->
  cdma_turn desc_ok ch e dev None (at_chan ch c s mem d) =
  let c1 := c <| cd_addr := a |> <| cd_remain := n |> <| cd_in_seg := false |> in
  let '(r, dev, aes, w) := move ch e dev None flags n (cd_in_seg c) (at_chan ch c1 s mem d') in
  match r with
  | Some err => (TError err, dev, aes, w)
  | None =>
      if cd_in_seg (chan ch w) then (TStall, dev, aes, w)
      else (if flagged flags DESC_LAST then TStop else TNext, dev, aes,
            setc ch (fun c' => c' <| cd_desc := desc_word mem (cd_desc c) 0 |>) w)
  end.
Proof.
  intros Hc Ho Hs (D0 & <- & D1 & <- & <- & Hn) Ha Hk. unfold cdma_turn. rewrite chan_at_chan by done.
  change (w_mem (at_chan ch c s mem d)) with mem. rewrite D0, D1. cbn [negb Z.eqb orb DESC_DATA DESC_IV Pos.eqb].
  rewrite (proj2 (Z.ltb_ge _ _)) by lia. set (a := desc_word mem (cd_desc c) 2) in *. set (n := desc_word mem (cd_desc c) 3) in *.
  pose (c1 := c <| cd_addr := a |> <| cd_remain := n |> <| cd_in_seg := false |>).
  assert (E : segment ch e dev a n (at_chan ch c s mem d) = (n, at_chan ch c1 s mem d')).
  { unfold segment. rewrite chan_at_chan by done.
    assert (E1 : setc ch (fun c => c <| cd_in_seg := false |>) (if cd_in_seg c then at_chan ch c s mem d
      else setc ch (fun c => c <| cd_addr := a |> <| cd_remain := n |>) (at_chan ch c s mem d)) = at_chan ch c1 s mem d).
    { destruct (cd_in_seg c) eqn:Ei; rewrite !setc_at; [|done]. destruct (Ho Ei) as [<- <-]. by destruct c. }
    rewrite E1, chan_at_chan by done. change (sourced e dev (at_chan ch c1 s mem d)) with (sourced e dev (at_chan ch c s mem d)).
    rewrite Hs. change (w_dev (at_chan ch c1 s mem d)) with d. rewrite Ha. change (cd_remain c1) with n.
    by rewrite (proj2 (Z.ltb_ge _ _)). }
  rewrite E, (proj2 (Z.eqb_neq _ _)) by lia. done.
Qed.
End Sourced.

Lemma ldiff_words k : Z.ldiff (4 * k) (4 - 1) = 4 * k.
Proof.
  change (4 - 1) with (Z.ones 2). rewrite Z.ldiff_ones_r, Z.shiftr_div_pow2, Z.shiftl_mul_pow2 by lia. change (2 ^ 2) with 4.
  rewrite (Z.mul_comm 4 k), Z.div_mul by lia. lia.
Qed.

(** The environments of the controller's two channels, with words of four bytes. *)
Definition env_rx : run_env := mkEnv false true true false false false 4.
Definition env_tx : run_env := mkEnv false false true false false true 4.

(** Segments of whole words. *)
Definition word_segs (segs : list (Z * Z)) : bool := forallb (fun r => r.2 mod 4 =? 0) segs.

Section Channels.
Context `{B : BlockCipher} (desc_ok : Z -> bool).
Context (now base : Z) (junk : Z -> bytes) (cr ct n t : Z) (s0 : IosBbSpiState) (d0 : IosBasebandState).
Context (R : frame_ready 4 cr ct n t s0 d0) (Bq : is_bytes (x_txq (dv_ifx d0))) (Cd : bs_cdma s0 = true).
#[local] Hint Extern 0 (FifoPort IosBbSpiState) => exact (spi_port now base junk) : typeclass_instances.

(** The controller has been asked and accessed as in [l], or not at all yet. *)
Definition spi_at (l : option (list fifo_op)) (x : IosBbSpiState) : Prop :=
  match l with Some l => after now cr ct s0 l x | None => x = s0 end.
Definition ops_of (l : option (list fifo_op)) : list fifo_op := default [] l.

Lemma ask_rx l x : spi_at l x -> exists x' l', port_avail (base + R_RXDATA) false x = (n - 4 * reads (ops_of l), x') /\
  after now cr ct s0 l' x' /\ reads l' = reads (ops_of l) /\ written l' = written (ops_of l).
Proof using R.
  destruct l as [l|]; cbn [spi_at ops_of default]; intros A.
  - destruct (after_ask now cr ct n t s0 d0 R l x false A) as (x' & E & A'). exists x', (l ++ [AskRx]). split; [exact E|].
    split; [done|]. rewrite reads_snoc, written_snoc, app_nil_r. simpl. split; [lia|done].
  - subst x. pose proof (after_start now cr ct n t s0 d0 R) as A. exists (bbspi_avail now false s0).2, [].
    split; [|done]. destruct (after_inv now cr ct n t s0 d0 R _ _ A) as (vals & I & _). cbn [port_avail spi_port]. pose proof R as [].
    assert (C : bbspi_clocked s0 = true).
    { unfold bbspi_clocked, ios_baseband_spi_srdy. by rewrite fr_modem, fr_srdy, fr_go. }
    unfold bbspi_avail in *. rewrite C in *. cbn [negb fst snd] in *. cbv zeta in *. cbn [fst snd] in *. f_equal.
    rewrite (fi_rx_len _ _ _ _ _ _ _ _ _ _ _ I), (fi_rx_pos _ _ _ _ _ _ _ _ _ _ _ I). change (reads []) with 0.
    apply u32_id. unfold is_u32, FRAME_MAX in *. lia.
Qed.

Lemma rx_turn ch c s mem x l flags a k : chan_in ch s -> spi_at l x -> chan_on c a k -> descr desc_ok mem (cd_desc c) flags a k ->
  k mod 4 = 0 -> 4 * reads (ops_of l) + k <= n ->
  exists x' l', after now cr ct s0 l' x' /\ reads l' = reads (ops_of l) + k / 4 /\ written l' = written (ops_of l) /\
  cdma_turn desc_ok ch env_rx (base + R_RXDATA) None (at_chan ch c s mem x) =
  (if flagged flags DESC_LAST then TStop else TNext, base + R_RXDATA, None,
   at_chan ch (chan_past c (desc_word mem (cd_desc c) 0) a k) s
     (phys_write mem a (ztake k (zdrop (4 * reads (ops_of l)) (frame_bytes now n d0)))) x').
Proof using Bq R.
  intros Hc A Ho Hd Hm Hk. pose proof Hd as (_ & _ & _ & _ & _ & Hp). pose proof R as [].
  destruct (ask_rx l x A) as (x1 & l1 & E1 & A1 & R1 & W1). apply Z.div_exact in Hm; [|lia].
  destruct (read_words now base junk cr ct n t s0 d0 R Bq (put ch (c <| cd_addr := a |> <| cd_remain := k |> <| cd_in_seg := false |>) s)
    mem (Z.to_nat (k / 4)) (Z.to_nat k) l1 x1 ltac:(lia) A1 ltac:(lia)) as (x2 & E2 & A2).
  rewrite Z2Nat.id, <- Hm, R1 in E2 by lia. destruct (reads_replicate l1 (Z.to_nat (k / 4))) as [R2 W2].
  exists x2, (l1 ++ replicate (Z.to_nat (k / 4)) ReadRx). split; [done|]. split; [lia|]. split; [by rewrite W2|].
  rewrite (turn_sourced desc_ok ch env_rx _ c s mem x x1 flags a k _ Hc Ho eq_refl Hd E1).
  2:{ cbn [re_width env_rx]. replace (n - 4 * reads (ops_of l)) with (4 * (cr - reads (ops_of l))) by lia. rewrite ldiff_words. lia. }
  pose (c1 := c <| cd_addr := a |> <| cd_remain := k |> <| cd_in_seg := false |>). fold c1 in E2 |- *. cbv zeta.
  unfold move, move_in, take_in. cbn [re_dev_fifo re_to_device re_drains re_dev_mem re_width env_rx negb]. rewrite andb_false_r. cbn [andb].
  fold (at_chan ch c1 s mem x1) in E2. fold (at_chan ch c1 s mem x2) in E2. rewrite E2. rewrite chan_at_chan by done.
  change (cd_addr c1) with a.
  change (((at_chan ch c1 s mem x2) <| w_cdma := w_cdma (at_chan ch c1 s mem x2) |>) <| w_mem ::= fun m => phys_write m a ?b |>)
    with (at_chan ch c1 s (phys_write mem a b) x2).
  set (m' := phys_write mem a _).
  match goal with |- context [setc ch ?f ?w] => change w with (at_chan ch c1 s m' x2) end.
  rewrite !setc_at, chan_at_chan by done. done.
Qed.

(** A chain whose flags do not matter to the walk, its head perhaps stalled. *)
Definition any_flags (first : bool) (flags : Z) : bool := true.
Definition head_on (c : CDMAChannel) (segs : list (Z * Z)) : Prop :=
  match segs with (a, k) :: _ => chan_on c a k | [] => True end.

Lemma rx_loop ch segs : forall fuel c first s mem x l, chan_in ch s -> spi_at l x ->
  chain_at desc_ok any_flags mem first (cd_desc c) segs = true -> word_segs segs = true -> head_on c segs -> (length segs <= fuel)%nat ->
  chain_clear mem (cd_desc c) segs segs = true -> 4 * reads (ops_of l) + seg_total segs <= n ->
  exists c' d x' l', walked c d c' /\ after now cr ct s0 l' x' /\ 4 * reads l' = 4 * reads (ops_of l) + seg_total segs /\
  written l' = written (ops_of l) /\
  cdma_loop desc_ok fuel ch env_rx (base + R_RXDATA) None (at_chan ch c s mem x) =
  (TStop, base + R_RXDATA, at_chan ch c' s (seg_write mem segs (zdrop (4 * reads (ops_of l)) (frame_bytes now n d0))) x').
Proof using Bq R.
  induction segs as [|[a k] segs IH]; intros fuel c first s mem x l Hc A Hch Hws Ho Hf Hcl Hq; [done|].
  destruct fuel as [|fuel]; [cbn in Hf; lia|].
  destruct (chain_head _ _ _ _ _ _ _ _ Hch) as (Hd & _ & Hrest). pose proof Hd as (_ & _ & _ & _ & _ & Hn).
  pose proof (chain_rest_total _ _ _ _ _ _ _ _ Hch) as Ht. cbn [word_segs forallb snd] in Hws. fold (word_segs segs) in Hws.
  apply andb_prop in Hws as [Hw1 Hw2]. apply Z.eqb_eq in Hw1. cbn [seg_total foldr snd] in *. fold (seg_total segs) in *.
  destruct (rx_turn ch c s mem x l _ a k Hc A Ho Hd Hw1 ltac:(lia)) as (x1 & l1 & A1 & R1 & W1 & E1). cbn [cdma_loop]. rewrite E1.
  set (c1 := chan_past c (desc_word mem (cd_desc c) 0) a k) in *. set (f := zdrop (4 * reads (ops_of l)) (frame_bytes now n d0)) in *.
  set (m1 := phys_write mem a (ztake k f)) in *. cbn [seg_write]. fold m1.
  assert (0 <= reads (ops_of l)) by apply zlen_nonneg. apply Z.div_exact in Hw1; [|lia].
  assert (Lf : zlen (ztake k f) = k).
  { unfold f. rewrite zlen_ztake, zlen_zdrop, (frame_len now cr ct n t s0 d0 R). lia. }
  destruct segs as [|g segs].
  - rewrite Hrest. exists c1, (desc_word mem (cd_desc c) 0), x1, l1. split; [apply walked_past|]. split; [done|].
    split; [cbn; lia|]. done.
  - destruct Hrest as [-> Hrest]. unfold chain_clear in Hcl. rewrite forallb_forall in Hcl.
    assert (Hcl' : forall r, In r ((a, k) :: g :: segs) ->
      forallb (apart r) (chain_descs mem (desc_word mem (cd_desc c) 0) (g :: segs)) = true)
      by (intros r Hr; by apply (andb_prop _ _ (Hcl r Hr))).
    assert (Hw : forallb (apart (a, zlen (ztake k f))) (chain_descs mem (desc_word mem (cd_desc c) 0) (g :: segs)) = true).
    { rewrite Lf. apply Hcl'. by left. }
    destruct (chain_clear_write desc_ok any_flags mem false _ _ _ _ Hw) as [C1 C2]. fold m1 in C1, C2.
    destruct (IH fuel c1 false s m1 x1 (Some l1)) as (c' & d & x2 & l2 & Hwk & A2 & R2 & W2 & HL).
    + done.
    + done.
    + change (cd_desc c1) with (desc_word mem (cd_desc c) 0). by rewrite C1.
    + done.
    + destruct g. intros [=].
    + cbn in *; lia.
    + change (cd_desc c1) with (desc_word mem (cd_desc c) 0). unfold chain_clear. rewrite C2.
      apply forallb_forall. intros r Hr. apply Hcl'. by right.
    + cbn [ops_of default from_option id]. lia.
    + cbn [ops_of default from_option id] in *. exists c', d, x2, l2. split; [by eapply walked_trans; [apply walked_past|]|].
      split; [done|]. split; [lia|]. split; [congruence|]. etransitivity; [exact HL|]. unfold f. rewrite zdrop_zdrop by lia.
      do 4 f_equal. lia.
Qed.

(** ** The transmit channel *)

(** No push is under way and no chain waits for a device to drain. *)
Definition no_run (ch : Z) (s : S5L8930CDMAState) : Prop :=
  (forall j, flag_at (dm_sink_pending s) j = false /\ flag_at (dm_in_run s) j = false) /\
  (Z.to_nat ch < length (dm_in_run s))%nat /\ 0 < ch < CDMA_CHANNELS.

Lemma no_run_early ch b s : no_run ch (early ch b s) <-> no_run ch s.
Proof. done. Qed.

Lemma running_back ch s : no_run ch s -> running ch false (running ch true s) = s.
Proof.
  intros (Q & Hl & _). destruct (Q ch) as [_ Q2]. destruct s. unfold running, upd, upd_dm_in_run, wr. cbn in *. f_equal.
  rewrite list_insert_insert_eq. apply list_insert_id. destruct (lookup_lt_is_Some_2 _ _ Hl) as [b Hb]. unfold flag_at in Q2.
  rewrite Hb in *. by cbn in Q2; subst b.
Qed.

Lemma flag_wr (l : list bool) i j b : (Z.to_nat i < length l)%nat -> flag_at (wr l i b) j = if decide (Z.to_nat i = Z.to_nat j) then b else flag_at l j.
Proof.
  intros Hl. unfold flag_at, wr. case_decide as E; [rewrite <- E, list_lookup_insert_eq by done; done|].
  by rewrite list_lookup_insert_ne.
Qed.

Lemma push_spi ch c s mem x l buf m : chan_in ch s -> no_run ch s -> cd_fifo c = base + R_TXDATA -> 0 <= base -> base + 0x20 < 2 ^ 32 ->
  after now cr ct s0 l x -> zlen buf = 4 * m -> 0 < m -> is_bytes buf -> zlen (written l) + m <= ct ->
  exists ws x', bytes_of 4 ws = buf /\ zlen ws = m /\ after now cr ct s0 (l ++ (WriteTx <$> ws)) x' /\
  push_device ch (base + R_TXDATA) 4 buf (at_chan ch c s mem x) = at_chan ch c (early ch (zlen (written l) + m =? ct) s) mem x'.
Proof using Cd R.
  intros Hc Hq Hf Hb0 Hb A Hl Hm Bb Hw. set (S1 := running ch true (early ch false (put ch c s))).
  destruct (write_words now base junk cr ct n t s0 d0 R Cd S1 mem (Z.to_nat m) (length buf) l x buf) as (ws & x' & B1 & B2 & B3 & B4);
    [unfold zlen in Hl; lia|done|lia|lia|done|lia|]. rewrite Z2Nat.id in B2, B4 by lia.
  exists ws, x'. split; [done|]. split; [done|]. split; [done|].
  unfold push_device, fifo_write. change ((at_chan ch c s mem x) <| w_cdma ::= _ |>) with (mkWorld S1 mem x). rewrite B4.
  change ((mkWorld ?a mem x') <| w_cdma ::= _ |>) with (mkWorld (running ch false a) mem x').
  unfold at_chan. f_equal. unfold drained. destruct (zlen (written l) + m =? ct).
  - rewrite (sink_done_early ch).
    + transitivity (running ch false (running ch true (early ch true (early ch false (put ch c s))))); [done|].
      rewrite running_back, early_early by done. done.
    + intros j. destruct Hq as (Q & Hr & Hk). destruct (Q j) as [Q1 Q2]. split; [exact Q1|]. intros Hj.
      change (dm_in_run S1) with (wr (dm_in_run s) ch true). rewrite flag_wr by done. by case_decide.
    + destruct Hq as (_ & Hr & _). change (dm_in_run S1) with (wr (dm_in_run s) ch true). rewrite flag_wr by done. by case_decide.
    + apply Hq.
    + change (get_chan ch S1) with (get_chan ch (put ch c s)). rewrite get_put, Hf by done. unfold R_TXDATA in *.
      rewrite u32_id by (unfold is_u32; lia). apply andb_true_intro. split; [apply Z.leb_le|apply Z.ltb_lt]; lia.
  - by apply (running_back ch (early ch false (put ch c s))).
Qed.

Lemma bytes_of_app k l m : bytes_of k (l ++ m) = bytes_of k l ++ bytes_of k m.
Proof. unfold bytes_of. by rewrite fmap_app, join_app. Qed.

Lemma is_bytes_read mem a k : (forall y, is_byte (mem y)) -> is_bytes (phys_read mem a k).
Proof. intros H. unfold phys_read, is_bytes. apply Forall_fmap, Forall_true. intros j. apply H. Qed.

(** What stays the same while the transmit chain runs. *)
Record tx_at (ch : Z) (s : S5L8930CDMAState) (c : CDMAChannel) (mem : Z -> Z) : Prop := mkTxAt {
  ta_in : chan_in ch s;
  ta_run : no_run ch s;
  ta_fifo : cd_fifo c = base + R_TXDATA;
  ta_base : 0 <= base /\ base + 0x20 < 2 ^ 32;
  ta_src : cdma_src s (base + R_TXDATA) = true;
  ta_bytes : forall y, is_byte (mem y)
}.

Lemma tx_turn ch c s mem x l flags a k : tx_at ch s c mem -> after now cr ct s0 l x -> chan_on c a k ->
  descr desc_ok mem (cd_desc c) flags a k -> k mod 4 = 0 -> 4 * zlen (written l) + k <= t ->
  exists x' l', after now cr ct s0 l' x' /\ bytes_of 4 (written l') = bytes_of 4 (written l) ++ phys_read mem a k /\
  zlen (written l') = zlen (written l) + k / 4 /\ reads l' = reads l /\
  cdma_turn desc_ok ch env_tx (base + R_TXDATA) None (at_chan ch c s mem x) =
  (if flagged flags DESC_LAST then TStop else TNext, base + R_TXDATA, None,
   at_chan ch (chan_past c (desc_word mem (cd_desc c) 0) a k) (early ch (zlen (written l) + k / 4 =? ct) s) mem x').
Proof using Cd R.
  intros [Hc Hq Hfi [Hb0 Hb] Hsrc Hby] A Ho Hd Hm Hk. pose proof Hd as (_ & _ & _ & _ & _ & Hp). pose proof R as [].
  destruct (after_ask now cr ct n t s0 d0 R l x true A) as (x1 & E1 & A1). apply Z.div_exact in Hm; [|lia].
  assert (E1' : port_avail (base + R_TXDATA) true x = (t - 4 * zlen (written l), x1)) by exact E1.
  assert (W1 : written (l ++ [AskTx]) = written l) by (rewrite written_snoc; apply app_nil_r).
  assert (R1 : reads (l ++ [AskTx]) = reads l) by (rewrite reads_snoc; simpl; lia).
  pose (c1 := c <| cd_addr := a |> <| cd_remain := k |> <| cd_in_seg := false |>).
  destruct (push_spi ch c1 s mem x1 (l ++ [AskTx]) (phys_read mem a k) (k / 4) Hc Hq Hfi Hb0 Hb A1) as (ws & x2 & B1 & B2 & A2 & E2);
    [by rewrite zlen_phys_read by lia|lia|by apply is_bytes_read|rewrite W1; lia|]. rewrite W1 in E2.
  destruct (written_words (l ++ [AskTx]) ws) as [W2 R2]. rewrite W1 in W2. rewrite R1 in R2.
  exists x2, ((l ++ [AskTx]) ++ (WriteTx <$> ws)). split; [done|]. split; [by rewrite W2, bytes_of_app, B1|].
  split; [rewrite W2, zlen_app, B2; done|]. split; [done|].
  rewrite (turn_sourced desc_ok ch env_tx _ c s mem x x1 flags a k _ Hc Ho Hsrc Hd E1').
  2:{ cbn [re_width env_tx]. replace (t - 4 * zlen (written l)) with (4 * (ct - zlen (written l))) by lia. rewrite ldiff_words. lia. }
  fold c1. cbv zeta. unfold move, move_out. cbn [re_dev_fifo re_to_device re_feeds re_dev_mem re_width env_tx negb].
  rewrite andb_false_r. cbn [andb]. rewrite chan_at_chan by done. change (cd_addr c1) with a.
  change (w_mem (at_chan ch c1 s mem x1)) with mem.
  change ((at_chan ch c1 s mem x1) <| w_cdma := w_cdma (at_chan ch c1 s mem x1) |>) with (at_chan ch c1 s mem x1).
  rewrite E2. rewrite !setc_at, chan_at_chan by done. done.
Qed.

Lemma tx_loop ch segs : forall fuel c first s mem x l, tx_at ch s c mem -> after now cr ct s0 l x ->
  chain_at desc_ok any_flags mem first (cd_desc c) segs = true -> word_segs segs = true -> head_on c segs -> (length segs <= fuel)%nat ->
  4 * zlen (written l) + seg_total segs <= t ->
  exists c' d x' l', walked c d c' /\ after now cr ct s0 l' x' /\
  bytes_of 4 (written l') = bytes_of 4 (written l) ++ seg_bytes mem segs /\
  4 * zlen (written l') = 4 * zlen (written l) + seg_total segs /\ reads l' = reads l /\
  cdma_loop desc_ok fuel ch env_tx (base + R_TXDATA) None (at_chan ch c s mem x) =
  (TStop, base + R_TXDATA, at_chan ch c' (early ch (zlen (written l') =? ct) s) mem x').
Proof using Cd R.
  induction segs as [|[a k] segs IH]; intros fuel c first s mem x l T A Hch Hws Ho Hf Hq; [done|].
  destruct fuel as [|fuel]; [cbn in Hf; lia|].
  destruct (chain_head _ _ _ _ _ _ _ _ Hch) as (Hd & _ & Hrest). pose proof Hd as (_ & _ & _ & _ & _ & Hn).
  pose proof (chain_rest_total _ _ _ _ _ _ _ _ Hch) as Ht. cbn [word_segs forallb snd] in Hws. fold (word_segs segs) in Hws.
  apply andb_prop in Hws as [Hw1 Hw2]. apply Z.eqb_eq in Hw1. cbn [seg_total foldr snd] in *. fold (seg_total segs) in *.
  destruct (tx_turn ch c s mem x l _ a k T A Ho Hd Hw1 ltac:(lia)) as (x1 & l1 & A1 & B1 & L1 & R1 & E1). cbn [cdma_loop]. rewrite E1.
  set (c1 := chan_past c (desc_word mem (cd_desc c) 0) a k) in *. apply Z.div_exact in Hw1; [|lia].
  rewrite seg_bytes_cons. destruct segs as [|g segs].
  - rewrite Hrest. exists c1, (desc_word mem (cd_desc c) 0), x1, l1. split; [apply walked_past|]. split; [done|].
    split; [rewrite B1; cbn; by rewrite app_nil_r|]. split; [cbn; lia|]. split; [done|]. by rewrite L1.
  - destruct Hrest as [-> Hrest].
    destruct (IH fuel c1 false (early ch (zlen (written l) + k / 4 =? ct) s) mem x1 l1) as (c' & d & x2 & l2 & Hwk & A2 & B2 & L2 & R2 & HL).
    + by destruct T.
    + done.
    + done.
    + done.
    + destruct g. intros [=].
    + cbn in *; lia.
    + lia.
    + exists c', d, x2, l2. split; [by eapply walked_trans; [apply walked_past|]|]. split; [done|].
      split; [by rewrite B2, B1, app_assoc|]. split; [lia|]. split; [congruence|]. rewrite HL. by rewrite early_early.
Qed.
End Channels.
