(* ===== verification/CdmaKick.v ===== *)
(** * The frame, end to end

    The baseband's SPI controller resumes the DMA engine; the engine walks the
    receive chain and the transmit chain; guest memory and the modem have
    exchanged a frame.  Composes the engine, the controller and the modem. *)

From Stdlib Require Import ZArith Lia.
From stdpp Require Import base numbers list.
From S2P Require Import Prelude CLib HwLib BbIfx BbIfxFacts IosDev IosWakeFacts BbSpi BbSpiFacts.
From S2P Require Import CdmaAes Cdma CdmaRegs CdmaAesFacts CdmaFacts CdmaPipe CdmaSpi CdmaFrame.
Local Open Scope Z_scope.

(** The line of a finished device channel follows its enable bit. *)
Lemma irq_device ch c s ctrl : chan_in ch s -> (Z.to_nat ch < length (dm_irq s))%nat -> cd_fifo c <> 0 ->
  cdma_is_memory s (cd_fifo c) = false -> cd_ctrl c = ctrl_done ctrl ->
  flag_at (dm_irq (cdma_update_irq ch (put ch c s))) ch = chan_enabled s ch.
Proof.
  intros Hc Hl Hf Hm Ht. unfold cdma_update_irq. rewrite get_put, Ht by done.
  change (cdma_is_memory (put ch c s) (cd_fifo c)) with (cdma_is_memory s (cd_fifo c)).
  rewrite Hm, (proj2 (Z.eqb_neq _ _)) by done. cbn [orb]. rewrite andb_false_r.
  rewrite ctrl_done_line, andb_true_r. cbv zeta. change (dm_irq (?a <| dm_irq ::= ?f |>)) with (f (dm_irq a)). cbv beta.
  rewrite flag_wr by done. by case_decide.
Qed.

Lemma length_irqs ch s : length (dm_irq (cdma_update_irq ch s)) = length (dm_irq s).
Proof.
  unfold cdma_update_irq, wr. cbv zeta. change (dm_irq (?u <| dm_irq ::= ?g |>)) with (g (dm_irq u)). cbv beta. apply length_insert.
Qed.

Section Run.
Context `{B : BlockCipher} (desc_ok : Z -> bool).
Context (now base : Z) (junk : Z -> bytes) (cr ct n t : Z) (s0 : IosBbSpiState) (d0 : IosBasebandState).
Context (R : frame_ready 4 cr ct n t s0 d0) (Bq : is_bytes (x_txq (dv_ifx d0))) (Cd : bs_cdma s0 = true).
Context (Hb : 0 <= base /\ base + 0x20 < 2 ^ 32).
#[local] Hint Extern 0 (FifoPort IosBbSpiState) => exact (spi_port now base junk) : typeclass_instances.

(** A channel that leads to one of the two FIFO registers. *)
Record spi_chan (s : S5L8930CDMAState) (c : CDMAChannel) (reg : Z) (out : bool) : Prop := mkSpiChan {
  sc_fifo : cd_fifo c = base + reg;
  sc_out : flagged (cd_settings c) SET_TO_DEVICE = out;
  sc_width : chan_width c = 4;
  sc_src : cdma_src s (base + reg) = true;
  sc_mem : cdma_is_memory s (base + reg) = false
}.

Lemma spi_env s c reg out : 0 < reg -> spi_chan s c reg out ->
  env_of s c = (if out then env_tx else env_rx) /\ ctx_of s c = None.
Proof using Hb.
  intros Hr []. assert (X : ctx_of s c = None).
  { unfold ctx_of. rewrite sc_fifo0, sc_mem0, (proj2 (Z.eqb_neq _ _)) by lia. cbn. by rewrite andb_false_r. }
  split; [|done]. unfold env_of. rewrite X. unfold cdma_fifo_fed. rewrite sc_fifo0, sc_mem0, sc_out0, sc_width0, sc_src0.
  rewrite (proj2 (Z.eqb_neq _ _)) by lia. by destruct out.
Qed.

(** A chain in memory for a stalled channel. *)
Record stalled_chain (mem : Z -> Z) (c : CDMAChannel) (segs : list (Z * Z)) (total : Z) : Prop := mkStalled {
  st_chain : chain_at desc_ok any_flags mem true (cd_desc c) segs = true;
  st_count : (length segs <= 4096)%nat;
  st_words : word_segs segs = true;
  st_head : head_on c segs;
  st_total : seg_total segs = total
}.

Definition entered (c : CDMAChannel) : CDMAChannel := c <| cd_ctrl ::= fun v => Z.ldiff v (Z.lor ST_RUNNING ST_ERROR) |>.

Lemma rx_run ch c s mem segs : chan_in ch s -> spi_chan s c R_RXDATA false -> stalled_chain mem c segs n ->
  chain_clear mem (cd_desc c) segs segs = true ->
  exists c' x' l', cd_ctrl c' = ctrl_done (cd_ctrl c) /\ cd_fifo c' = cd_fifo c /\ after now cr ct s0 l' x' /\ reads l' = cr /\
  written l' = [] /\
  cdma_run desc_ok ch (at_chan ch c s mem s0) = mkWorld (cdma_update_irq ch (put ch c' s)) (seg_write mem segs (frame_bytes now n d0)) x'.
Proof using Bq Hb R.
  intros Hc Sc [Ch Hn Hw Hh Ht] Hcl. destruct (spi_env (put ch c s) c R_RXDATA false ltac:(done) ltac:(by destruct Sc)) as [E X].
  destruct (rx_loop desc_ok now base junk cr ct n t s0 d0 R Bq ch segs 4096%nat (entered c) true s mem s0 None)
    as (c' & d & x' & l' & Hwk & A' & R' & W' & HL); [done..|change (reads (ops_of None)) with 0; lia|]. pose proof R as [].
  destruct Hwk as [E1 _ E3 _ _ _]. exists (c' <| cd_ctrl ::= fun v => Z.lor v ST_DONE |>), x', l'.
  split; [cbn; by rewrite E1|]. split; [cbn; by rewrite E3|]. split; [done|]. change (reads (ops_of None)) with 0 in R'. split; [lia|]. split; [done|].
  unfold cdma_run. rewrite chan_at_chan by done. cbn [w_cdma at_chan]. rewrite E, X, (sc_fifo _ _ _ _ Sc).
  unfold set_ctrl. rewrite setc_at. fold (entered c). rewrite HL. cbn [re_to_device env_rx andb].
  unfold cdma_finish, set_ctrl. by rewrite setc_at.
Qed.

Lemma tx_run ch c s mem x l segs : tx_at base ch s c mem -> spi_chan s c R_TXDATA true -> stalled_chain mem c segs t ->
  (Z.to_nat ch < length (dm_sink_early s))%nat -> after now cr ct s0 l x -> written l = [] ->
  exists c' x' l', cd_ctrl c' = ctrl_done (cd_ctrl c) /\ cd_fifo c' = cd_fifo c /\ after now cr ct s0 l' x' /\ reads l' = reads l /\
  zlen (written l') = ct /\ bytes_of 4 (written l') = seg_bytes mem segs /\
  cdma_run desc_ok ch (at_chan ch c s mem x) = mkWorld (cdma_update_irq ch (put ch c' (early ch false s))) mem x'.
Proof using Cd Hb R.
  intros T Sc [Ch Hn Hw Hh Ht] He A W. destruct (spi_env (put ch c s) c R_TXDATA true ltac:(done) ltac:(by destruct Sc)) as [E X].
  destruct (tx_loop desc_ok now base junk cr ct n t s0 d0 R Cd ch segs 4096%nat (entered c) true s mem x l)
    as (c' & d & x' & l' & Hwk & A' & B' & L' & R' & HL); [by destruct T|done..|rewrite W; change (zlen []) with 0; lia|]. pose proof R as [].
  rewrite W in B', L'. change (zlen []) with 0 in L'. assert (Lt : zlen (written l') = ct) by lia. rewrite Lt, Z.eqb_refl in HL.
  destruct Hwk as [E1 _ E3 _ _ _]. exists (c' <| cd_ctrl ::= fun v => Z.lor v ST_DONE |>), x', l'.
  split; [cbn; by rewrite E1|]. split; [cbn; by rewrite E3|]. split; [done|]. split; [done|]. split; [done|]. split; [done|].
  unfold cdma_run. rewrite chan_at_chan by (by destruct T). cbn [w_cdma at_chan]. rewrite E, X, (sc_fifo _ _ _ _ Sc).
  unfold set_ctrl. rewrite setc_at. fold (entered c). rewrite HL. cbn [re_to_device re_dev_fifo env_tx andb].
  change (cdma_src (w_cdma (at_chan ch c' (early ch true s) mem x')) (base + R_TXDATA)) with (cdma_src s (base + R_TXDATA)).
  rewrite (sc_src _ _ _ _ Sc). change (dm_sink_early (w_cdma (at_chan ch c' (early ch true s) mem x'))) with (wr (dm_sink_early s) ch true).
  rewrite flag_wr by done. rewrite decide_True by done.
  change ((at_chan ch c' (early ch true s) mem x') <| w_cdma ::= _ |>) with (at_chan ch c' (early ch false (early ch true s)) mem x').
  rewrite early_early. unfold cdma_finish, set_ctrl. by rewrite setc_at.
Qed.
End Run.

(** ** The kick *)

Lemma channels_split rx tx : 0 < rx < tx -> tx < CDMA_CHANNELS ->
  channels = seqZ 1 (rx - 1) ++ rx :: seqZ (rx + 1) (tx - rx - 1) ++ tx :: seqZ (tx + 1) (CDMA_CHANNELS - 1 - tx).
Proof.
  intros H1 H2. unfold channels. replace (CDMA_CHANNELS - 1) with ((rx - 1) + (1 + ((tx - rx - 1) + (1 + (CDMA_CHANNELS - 1 - tx))))) at 1 by lia.
  rewrite (seqZ_app 1), (seqZ_app (1 + (rx - 1)) 1), (seqZ_app _ (tx - rx - 1)), (seqZ_app _ 1 (CDMA_CHANNELS - 1 - tx)) by lia.
  rewrite !(seqZ_cons _ 1) by lia. change (Z.pred 1) with 0. rewrite !(seqZ_nil _ 0) by lia. cbn [app].
  f_equal. replace (1 + (rx - 1)) with rx by lia. f_equal. f_equal. replace (rx + 1 + (tx - rx - 1)) with tx by lia. done.
Qed.

Section Kick.
Context `{B : BlockCipher} (desc_ok : Z -> bool) (now base : Z) (junk : Z -> bytes).
#[local] Hint Extern 0 (FifoPort IosBbSpiState) => exact (spi_port now base junk) : typeclass_instances.

Definition stalled (w : CdmaWorld IosBbSpiState) (ch : Z) : bool :=
  flagged (cd_ctrl (chan ch w)) ST_RUNNING && cd_in_seg (chan ch w).
Definition kick_chan (w : CdmaWorld IosBbSpiState) (ch : Z) : CdmaWorld IosBbSpiState :=
  if stalled w ch then cdma_run desc_ok ch w else w.

Lemma kick_idle l w : (forall j, j ∈ l -> stalled w j = false) -> fold_left kick_chan l w = w.
Proof.
  induction l as [|j l IH]; intros H; [done|]. cbn [fold_left]. unfold kick_chan at 2. rewrite H by (by left).
  apply IH. intros k Hk. apply H. by right.
Qed.

(** Two stalled channels are resumed, the lower one first. *)
Lemma kick_two rx tx w w1 : 0 < rx < tx -> tx < CDMA_CHANNELS ->
  (forall j, 0 < j < CDMA_CHANNELS -> j <> rx -> j <> tx -> stalled w j = false) -> stalled w rx = true ->
  w1 = cdma_run desc_ok rx w -> (forall j, j <> rx -> 0 < j -> chan j w1 = chan j w) -> stalled w tx = true ->
  (forall j, j <> tx -> 0 < j -> chan j (cdma_run desc_ok tx w1) = chan j w1) ->
  s5l8930_cdma_kick desc_ok w = cdma_run desc_ok tx w1.
Proof.
  intros H1 H2 Hi Hr E1 Hc1 Ht Hc2. transitivity (fold_left kick_chan channels w); [done|].
  rewrite (channels_split rx tx H1 H2), fold_left_app. cbn [fold_left]. rewrite (kick_idle (seqZ 1 (rx - 1)) w).
  2:{ intros j Hj%elem_of_seqZ. apply Hi; lia. }
  assert (K : kick_chan w rx = w1) by (unfold kick_chan; by rewrite Hr).
  rewrite K, fold_left_app. cbn [fold_left]. rewrite (kick_idle (seqZ (rx + 1) _) w1).
  2:{ intros j Hj%elem_of_seqZ. unfold stalled. rewrite Hc1 by lia. apply Hi; lia. }
  assert (K2 : kick_chan w1 tx = cdma_run desc_ok tx w1) by (unfold kick_chan, stalled; rewrite Hc1 by lia; fold (stalled w tx); by rewrite Ht).
  rewrite K2. apply kick_idle.
  intros j Hj%elem_of_seqZ. unfold stalled. rewrite Hc2, Hc1 by lia. apply Hi; lia.
Qed.

(** ** What the receive chain leaves of the transmit chain *)

Lemma chain_seg_write P first d ts segs : forall mem data, forallb (fun r => 0 <=? r.2) segs = true -> seg_total segs <= zlen data ->
  chain_clear mem d ts segs = true -> chain_at desc_ok P (seg_write mem segs data) first d ts = chain_at desc_ok P mem first d ts.
Proof.
  induction segs as [|[a k] segs IH]; intros mem data Hp Hl Hcl; [done|]. cbn [seg_write forallb snd seg_total foldr] in *.
  fold (seg_total segs) in *. apply andb_prop in Hp as [Hp1 Hp2]. apply Z.leb_le in Hp1. unfold chain_clear in *. cbn [forallb] in Hcl.
  apply andb_prop in Hcl as [C1 C2].
  assert (0 <= seg_total segs) by (rewrite <- (zlen_seg_bytes mem) by done; apply zlen_nonneg).
  assert (Lk : zlen (ztake k data) = k) by (rewrite zlen_ztake; lia). rewrite <- Lk in C1.
  destruct (chain_clear_write desc_ok P mem first d ts a (ztake k data) C1) as [E1 E2].
  rewrite IH; [done|done|rewrite zlen_zdrop; lia|]. by rewrite E2.
Qed.

Lemma seg_write_byte segs : forall mem data, (forall y, is_byte (mem y)) -> is_bytes data -> forall y, is_byte (seg_write mem segs data y).
Proof.
  induction segs as [|[a k] segs IH]; intros mem data Hm Bd y; [apply Hm|]. cbn [seg_write]. apply IH; [|by apply is_bytes_drop].
  intros z. unfold phys_write. case_match; [|apply Hm]. by apply rd_is_byte, is_bytes_take.
Qed.

Lemma seg_bytes_same mem segs data ts : forallb (fun r => 0 <=? r.2) segs = true -> seg_total segs <= zlen data ->
  forallb (fun u => forallb (fun r => apart r u) segs) ts = true -> seg_bytes (seg_write mem segs data) ts = seg_bytes mem ts.
Proof.
  intros Hp Hl. induction ts as [|[a k] ts IH]; intros Ha; [done|]. cbn [forallb] in Ha. apply andb_prop in Ha as [A1 A2].
  rewrite !seg_bytes_cons, IH by done. f_equal. by apply (seg_write_out mem segs data (a, k)).
Qed.

(** ** The frame *)

(** The modem's frame carries the head of its queue. *)
Lemma frame_payload cr ct n t x d : frame_ready 4 cr ct n t x d ->
  ifx_payload (ios_baseband_spi_xfer now None true n d).1 ++ x_txq (dv_ifx (ios_baseband_spi_xfer now None true n d).2) = x_txq (dv_ifx d).
Proof.
  intros []. rewrite xfer_miso, xfer_ifx. destruct (ifx_tx n (dv_ifx d)) as [f x'] eqn:E.
  destruct (ifx_tx_spec n (dv_ifx d) f x' fr_ifx ltac:(lia) E) as (_ & _ & P & Q & _). cbn [fst snd]. rewrite P, Q. apply ztake_zdrop.
Qed.

(** A frame posted in memory: both chains stalled at their heads on the controller
    at [base], every other channel idle, the controller set up and the modem ready. *)
Record frame_posted (w : CdmaWorld IosBbSpiState) (rx tx : Z) (rsegs tsegs : list (Z * Z)) (cr ct n t : Z) (d : IosBasebandState)
  : Prop := mkPosted {
  fp_chans : 0 < rx < tx /\ tx < CDMA_CHANNELS;
  fp_sizes : length (dm_ch (w_cdma w)) = nchan /\ length (dm_irq (w_cdma w)) = nchan /\
             length (dm_in_run (w_cdma w)) = nchan /\ length (dm_sink_early (w_cdma w)) = nchan;
  fp_base : 0 <= base /\ base + 0x20 < 2 ^ 32;
  fp_idle : forall j, 0 < j < CDMA_CHANNELS -> j <> rx -> j <> tx -> stalled w j = false;
  fp_stalled : stalled w rx = true /\ stalled w tx = true;
  fp_quiet : forall j, flag_at (dm_sink_pending (w_cdma w)) j = false /\ flag_at (dm_in_run (w_cdma w)) j = false;
  fp_rx : spi_chan base (w_cdma w) (chan rx w) R_RXDATA false /\ stalled_chain desc_ok (w_mem w) (chan rx w) rsegs n;
  fp_tx : spi_chan base (w_cdma w) (chan tx w) R_TXDATA true /\ stalled_chain desc_ok (w_mem w) (chan tx w) tsegs t;
  fp_apart : seg_apart rsegs = true /\ chain_clear (w_mem w) (cd_desc (chan rx w)) rsegs rsegs = true /\
             chain_clear (w_mem w) (cd_desc (chan tx w)) tsegs rsegs = true /\
             forallb (fun u => forallb (fun r => apart r u) rsegs) tsegs = true;
  fp_bytes : forall y, is_byte (w_mem w y);
  fp_frame : frame_ready 4 cr ct n t (w_dev w) d;
  fp_queue : is_bytes (x_txq (dv_ifx d)) /\ bs_cdma (w_dev w) = true
}.

Lemma kick_frame w rx tx rsegs tsegs cr ct n t d : frame_posted w rx tx rsegs tsegs cr ct n t d ->
  exists crx ctx x' l', after now cr ct (w_dev w) l' x' /\ reads l' = cr /\ zlen (written l') = ct /\
  bytes_of 4 (written l') = seg_bytes (w_mem w) tsegs /\
  cd_ctrl crx = ctrl_done (cd_ctrl (chan rx w)) /\ cd_fifo crx = base + R_RXDATA /\
  cd_ctrl ctx = ctrl_done (cd_ctrl (chan tx w)) /\ cd_fifo ctx = base + R_TXDATA /\
  s5l8930_cdma_kick desc_ok w =
  mkWorld (cdma_update_irq tx (put tx ctx (early tx false (cdma_update_irq rx (put rx crx (w_cdma w))))))
    (seg_write (w_mem w) rsegs (frame_bytes now n d)) x'.
Proof.
  intros [[Hrx Htx] (Lc & Li & Lr & Le) Hb Hidle [Sr St] Hq [Rx1 Rx2] [Tx1 Tx2] (A1 & A2 & A3 & A4) Hby Fr [Bq Cd]].
  assert (In1 : forall j, 0 < j < CDMA_CHANNELS -> chan_in j (w_cdma w)) by (intros j Hj; unfold chan_in; rewrite Lc; unfold nchan; lia).
  destruct (rx_run desc_ok now base junk cr ct n t (w_dev w) d Fr Bq Hb rx (chan rx w) (w_cdma w) (w_mem w) rsegs (In1 rx ltac:(lia)) Rx1 Rx2 A2)
    as (crx & x1 & l1 & C1 & F1 & Af1 & R1 & W1 & E1).
  rewrite <- world_at in E1. set (f := frame_bytes now n d) in *. set (s1 := cdma_update_irq rx (put rx crx (w_cdma w))) in *.
  set (m1 := seg_write (w_mem w) rsegs f) in *.
  assert (Lf : zlen f = n) by (by apply (frame_len now cr ct n t (w_dev w) d Fr)).
  assert (Pr : forallb (fun r => 0 <=? r.2) rsegs = true) by (destruct Rx2; by eapply chain_lens).
  assert (Tr : seg_total rsegs <= zlen f) by (destruct Rx2; lia).
  assert (G1 : forall j, j <> rx -> 0 < j -> chan j (mkWorld s1 m1 x1) = chan j w) by (intros j Hj Hj'; apply (get_put_ne rx j crx (w_cdma w)); lia).
  assert (T1 : tx_at base tx s1 (chan tx w) m1).
  { constructor; [by apply (chan_in_put rx tx crx (w_cdma w)), In1; lia| |by destruct Tx1|done|by destruct Tx1|].
    - split; [exact Hq|]. split; [|lia]. change (dm_in_run s1) with (dm_in_run (w_cdma w)). rewrite Lr. unfold nchan. lia.
    - apply seg_write_byte; [done|]. by apply frame_is_bytes. }
  assert (Tx2' : stalled_chain desc_ok m1 (chan tx w) tsegs t) by (destruct Tx2; constructor; try done; unfold m1; by rewrite chain_seg_write).
  assert (E0 : mkWorld s1 m1 x1 = at_chan tx (chan tx w) s1 m1 x1).
  { rewrite (world_at tx (mkWorld s1 m1 x1)). by rewrite G1 by lia. }
  destruct (tx_run desc_ok now base junk cr ct n t (w_dev w) d Fr Cd Hb tx (chan tx w) s1 m1 x1 l1 tsegs T1 ltac:(by destruct Tx1) Tx2'
    ltac:(change (dm_sink_early s1) with (dm_sink_early (w_cdma w)); rewrite Le; unfold nchan; lia) Af1 W1)
    as (ctx & x2 & l2 & C2 & F2 & Af2 & R2 & L2 & B2 & E2). rewrite <- E0 in E2.
  exists crx, ctx, x2, l2. split; [done|]. split; [congruence|]. split; [done|].
  split; [rewrite B2; by apply seg_bytes_same|]. split; [done|]. split; [rewrite F1; by destruct Rx1|]. split; [done|].
  split; [rewrite F2; by destruct Tx1|].
  rewrite (kick_two rx tx w (mkWorld s1 m1 x1) ltac:(lia) Htx Hidle Sr); [exact E2|by rewrite E1|done|done|].
  intros j Hj Hj'. rewrite E2. apply (get_put_ne tx j ctx s1). lia.
Qed.

(** Scheduling the bottom half is no part of the frame. *)
Lemma posted_kicked w rx tx rsegs tsegs cr ct n t d : frame_posted w rx tx rsegs tsegs cr ct n t d ->
  frame_posted (w <| w_dev ::= fun x => x <| bs_kick := false |> |>) rx tx rsegs tsegs cr ct n t d.
Proof. intros []. constructor; try assumption. by destruct fp_frame0. Qed.

Lemma chain_total_pos P mem first dd segs : chain_at desc_ok P mem first dd segs = true -> 0 < seg_total segs.
Proof.
  destruct segs as [|[a k] segs]; [done|]. intros H. destruct (chain_head _ _ _ _ _ _ _ _ H) as ((_ & _ & _ & _ & _ & Hk) & _ & _).
  pose proof (chain_rest_total _ _ _ _ _ _ _ _ H). cbn [seg_total foldr snd]. fold (seg_total segs). lia.
Qed.

(** The two lines after the kick. *)
Lemma kick_lines (w : CdmaWorld IosBbSpiState) rx tx crx ctx : 0 < rx < tx -> tx < CDMA_CHANNELS -> length (dm_ch (w_cdma w)) = nchan ->
  length (dm_irq (w_cdma w)) = nchan -> 0 <= base -> cd_fifo crx = base + R_RXDATA -> cd_fifo ctx = base + R_TXDATA ->
  cdma_is_memory (w_cdma w) (base + R_RXDATA) = false -> cdma_is_memory (w_cdma w) (base + R_TXDATA) = false ->
  cd_ctrl crx = ctrl_done (cd_ctrl (chan rx w)) -> cd_ctrl ctx = ctrl_done (cd_ctrl (chan tx w)) ->
  let s' := cdma_update_irq tx (put tx ctx (early tx false (cdma_update_irq rx (put rx crx (w_cdma w))))) in
  get_chan rx s' = crx /\ get_chan tx s' = ctx /\ flag_at (dm_irq s') rx = chan_enabled (w_cdma w) rx /\
  flag_at (dm_irq s') tx = chan_enabled (w_cdma w) tx.
Proof.
  intros H1 H2 Lc Li Hb F1 F2 M1 M2 C1 C2 s'. set (s1 := early tx false (cdma_update_irq rx (put rx crx (w_cdma w)))) in s'.
  assert (In1 : forall j, 0 < j < CDMA_CHANNELS -> chan_in j (w_cdma w)) by (intros j Hj; unfold chan_in; rewrite Lc; unfold nchan; lia).
  assert (In2 : forall j, 0 < j < CDMA_CHANNELS -> chan_in j s1) by (intros j Hj; exact (proj2 (chan_in_put rx j crx (w_cdma w)) (In1 j Hj))).
  assert (L1 : (Z.to_nat tx < length (dm_irq s1))%nat).
  { change (dm_irq s1) with (dm_irq (cdma_update_irq rx (put rx crx (w_cdma w)))). rewrite length_irqs.
    change (dm_irq (put rx crx (w_cdma w))) with (dm_irq (w_cdma w)). rewrite Li. unfold nchan. lia. }
  split; [|split; [|split]].
  - transitivity (get_chan rx (put tx ctx s1)); [done|]. rewrite get_put_ne by lia. apply (get_put rx crx (w_cdma w)). apply In1. lia.
  - transitivity (get_chan tx (put tx ctx s1)); [done|]. apply get_put, In2. lia.
  - unfold s'. rewrite irq_other by lia. transitivity (flag_at (dm_irq (cdma_update_irq rx (put rx crx (w_cdma w)))) rx); [done|].
    apply (irq_device _ _ _ (cd_ctrl (chan rx w))); [apply In1; lia|rewrite Li; unfold nchan; lia|rewrite F1; unfold R_RXDATA; lia|by rewrite F1|done].
  - unfold s'. rewrite (irq_device tx ctx s1 (cd_ctrl (chan tx w))); [done|apply In2; lia|done|rewrite F2; unfold R_TXDATA; lia|by rewrite F2|done].
Qed.

(** C20. The engine, the SPI controller and the modem together: with a frame posted
    in memory and the modem ready, one run of the controller's bottom half moves
    the whole frame both ways.  The receive chain's segments hold the frame the
    modem built, whose payload is the head of the modem's queue; the modem is
    given exactly the bytes of the transmit chain's segments; the controller
    reports completion; both channels are done and no longer running, and their
    lines are up where they are enabled.  The receive channel's number is below the
    transmit channel's, and both move words of four bytes. *)
Theorem cdma_spi_frame w rx tx rsegs tsegs cr ct n t d : frame_posted w rx tx rsegs tsegs cr ct n t d ->
  let f := (ios_baseband_spi_xfer now None true n d).1 in
  let d1 := (ios_baseband_spi_xfer now None true n d).2 in
  let w' := spi_kick desc_ok now base junk w in
  seg_bytes (w_mem w') rsegs = f /\
  ifx_payload f ++ x_txq (dv_ifx d1) = x_txq (dv_ifx d) /\
  bs_modem (w_dev w') = Some (ios_baseband_spi_xfer now (Some (seg_bytes (w_mem w) tsegs)) false t d1).2 /\
  flagged (bs_reg (w_dev w') R_STATUS) ST_COMPLETE = true /\
  bs_irq (w_dev w') = flagged (bs_reg (w_dev w) R_CFG) CFG_IE_COMPLETE /\
  (forall ch, ch = rx \/ ch = tx ->
     flagged (cd_ctrl (chan ch w')) ST_DONE = true /\ flagged (cd_ctrl (chan ch w')) ST_RUNNING = false /\
     flag_at (dm_irq (w_cdma w')) ch = chan_enabled (w_cdma w) ch).
Proof.
  intros P0 f d1 w'. assert (Cd : bs_cdma (w_dev w) = true) by (by destruct P0 as [? ? ? ? ? ? ? ? ? ? ? []]).
  unfold w', spi_kick, bbspi_kick. rewrite Cd. apply posted_kicked in P0. set (w1 := w <| w_dev ::= _ |>) in P0.
  change (w <| w_dev := _ |>) with w1. destruct (kick_frame w1 _ _ _ _ _ _ _ _ _ P0) as (crx & ctx & x' & l' & A & R1 & L1 & B1 & C1 & F1 & C2 & F2 & E).
  rewrite E. destruct P0 as [[Hrx Htx] (Lc & Li & _) [Hb _] _ _ _ [Rx1 Rx2] [Tx1 Tx2] (A1 & _) _ Fr _].
  destruct (after_inv now cr ct n t (w_dev w1) d Fr l' x' A) as (vals & I & _). cbn [w_mem w_dev w_cdma].
  assert (Lf : zlen f = n) by (by apply (frame_len now cr ct n t (w_dev w1) d Fr)).
  assert (D : frame_done cr ct l' = true) by (unfold frame_done; by rewrite R1, L1, !Z.eqb_refl).
  assert (Hct : 0 < ct) by (pose proof (chain_total_pos _ _ _ _ _ (st_chain _ _ _ _ _ Tx2)); destruct Tx2, Fr; lia).
  split; [apply seg_write_bytes; [destruct Rx2; by eapply chain_lens|destruct Rx2; change (frame_bytes now n d) with f; lia|done]|].
  split; [by apply (frame_payload cr ct n t (w_dev w1) d Fr)|].
  split; [rewrite (fi_modem _ _ _ _ _ _ _ _ _ _ _ I); unfold modem_after, handed; rewrite L1, Z.eqb_refl, (proj2 (Z.eqb_neq ct 0)) by lia; by rewrite B1|].
  split; [by rewrite (fi_status _ _ _ _ _ _ _ _ _ _ _ I)|]. split; [by rewrite (fi_irq _ _ _ _ _ _ _ _ _ _ _ I), D|].
  destruct (kick_lines w1 rx tx crx ctx Hrx Htx Lc Li Hb F1 F2 (sc_mem _ _ _ _ _ Rx1) (sc_mem _ _ _ _ _ Tx1) C1 C2) as (K1 & K2 & K3 & K4).
  intros ch [->| ->]; unfold chan; cbn [w_cdma].
  - rewrite K1, C1, K3. destruct (ctrl_done_bits (cd_ctrl (chan rx w1))) as (? & _ & ? & _). done.
  - rewrite K2, C2, K4. destruct (ctrl_done_bits (cd_ctrl (chan tx w1))) as (? & _ & ? & _). done.
Qed.
End Kick.

(** ** An example *)

(** The controller of the example frame at [0x82100000], channels 5 and 6. *)
Definition ex_base : Z := 0x82100000.
Definition ex_rsegs : list (Z * Z) := [(0x40003000, 4); (0x40004000, 4)].
Definition ex_tsegs : list (Z * Z) := [(0x40005000, 8)].

Definition ex_posted_mem : Z -> Z :=
  seg_write (fun y => y mod 251) [(0x40000000, 16); (0x40000020, 16); (0x40000100, 16)]
    (words_bytes [0x40000020; 0x3; 0x40003000; 4] ++ words_bytes [0; 0x103; 0x40004000; 4] ++ words_bytes [0; 0x103; 0x40005000; 8]).

Definition ex_posted_cdma : S5L8930CDMAState :=
  ex_cdma <| dm_enabled := [0x60; 0] |> <| dm_src := [Some (ex_base + R_TXDATA, 20); None; None; None] |>
    <| dm_ch := <[5%nat := mkChan_cdma 0x10000 0x8 (ex_base + R_RXDATA) 4 0x40003000 0x40000000 0 true]>
                  (<[6%nat := mkChan_cdma 0x10000 0xa (ex_base + R_TXDATA) 8 0x40005000 0x40000100 0 true]>
                     (replicate nchan chan0_cdma)) |>.

Definition ex_posted : CdmaWorld IosBbSpiState := mkWorld ex_posted_cdma ex_posted_mem ex_spi.

Definition ex_modem : IosBasebandState := default ex_dev (bs_modem ex_spi).

Lemma flag_none k j : flag_at (replicate k false) j = false.
Proof. unfold flag_at. destruct (replicate k false !! Z.to_nat j) as [b|] eqn:E; [|done]. by apply lookup_replicate in E as [-> _]. Qed.

Lemma ex_frame_posted : frame_posted (fun _ => true) ex_base ex_posted 5 6 ex_rsegs ex_tsegs 2 2 8 8 ex_modem.
Proof.
  constructor.
  - by vm_compute.
  - by vm_compute.
  - by vm_compute.
  - intros j Hj N5 N6. assert (A : forallb (fun j => (j =? 5) || (j =? 6) || negb (stalled ex_posted j)) channels = true) by (lazy; reflexivity).
    rewrite forallb_forall in A. specialize (A j ltac:(apply list_elem_of_In, elem_of_seqZ; lia)).
    rewrite (proj2 (Z.eqb_neq j 5)), (proj2 (Z.eqb_neq j 6)) in A by done. by apply negb_true_iff in A.
  - split; lazy; reflexivity.
  - intros j. split; apply flag_none.
  - split; constructor; try (lazy; reflexivity); [cbn; lia|done].
  - split; constructor; try (lazy; reflexivity); [cbn; lia|done].
  - split; [|split; [|split]]; lazy; reflexivity.
  - intros y. apply seg_write_byte; [|repeat constructor; by vm_compute]. intros z. unfold is_byte. pose proof (Z.mod_pos_bound z 251). lia.
  - exact ex_spi_ready.
  - split; [repeat constructor; by vm_compute|done].
Qed.

Lemma cdma_spi_frame_witness :
  let w' := @spi_kick ex_cipher (fun _ => true) 7 ex_base (fun _ => []) ex_posted in
  seg_bytes (w_mem w') ex_rsegs = (ios_baseband_spi_xfer 7 None true 8 ex_modem).1 /\
  flagged (bs_reg (w_dev w') R_STATUS) ST_COMPLETE = true /\ flag_at (dm_irq (w_cdma w')) 5 = true.
Proof.
  destruct (@cdma_spi_frame ex_cipher (fun _ => true) 7 ex_base (fun _ => []) ex_posted 5 6 ex_rsegs ex_tsegs 2 2 8 8 ex_modem ex_frame_posted)
    as (H1 & _ & _ & H2 & _ & H3).
  split; [exact H1|]. split; [exact H2|]. destruct (H3 5 (or_introl eq_refl)) as (_ & _ & H4). rewrite H4. lazy. reflexivity.
Defined.
