(* ===== verification/CdmaPaced.v ===== *)
(** * Chains played at a sample rate

    A chain to an I2S FIFO is delivered in steps, from the timer and from every
    read of the channel's registers.  However those interleave, each byte of the
    chain reaches the FIFO once and in order, and as many have as the sample clock
    says. *)

From Stdlib Require Import ZArith Lia.
From stdpp Require Import base numbers list.
From S2P Require Import Prelude CLib HwLib CdmaAes Cdma CdmaRegs CdmaAesFacts CdmaFacts CdmaPipe CdmaFrame CdmaKick.
Local Open Scope Z_scope.

(** A device that keeps what is pushed. *)
Definition log_port : FifoPort bytes :=
  {| port_avail := fun _ _ d => (0, d); port_push := fun _ chunk d => (d ++ chunk, []); port_pop := fun _ n d => ([], d) |}.

Lemma chunks_join fuel width buf : (length buf <= fuel)%nat -> 0 < width -> mjoin (chunks fuel width buf) = buf.
Proof.
  intros Hf Hw. revert buf Hf. induction fuel as [|fuel IH]; intros [|b buf] Hf; try done; [cbn in Hf; lia|].
  change (chunks (S fuel) width (b :: buf)) with (ztake width (b :: buf) :: chunks fuel width (zdrop width (b :: buf))).
  change (mjoin (?x :: ?y)) with (x ++ mjoin y). rewrite IH; [apply ztake_zdrop|].
  unfold zdrop. rewrite length_drop. cbn in *. lia.
Qed.

Lemma chan_width_pos c : 0 < chan_width c.
Proof. unfold chan_width. rewrite Z.shiftl_mul_pow2 by (apply Z.land_nonneg; lia). apply Z.mul_pos_pos; [lia|]. apply Z.pow_pos_nonneg; [lia|]. apply Z.land_nonneg. lia. Qed.

Section Paced.
Context `{B : BlockCipher} (desc_ok : Z -> bool).
#[local] Hint Extern 0 (FifoPort _) => exact log_port : typeclass_instances.

Lemma fifo_write_log fifo width buf s mem d : 0 < width ->
  fifo_write fifo width buf (mkWorld s mem d) = mkWorld s mem (d ++ buf).
Proof.
  intros Hw. unfold fifo_write. replace (d ++ buf) with (d ++ mjoin (chunks (length buf) width buf)) by (by rewrite chunks_join).
  generalize (chunks (length buf) width buf). intros l. revert d. induction l as [|b l IH]; intros d; [cbn; by rewrite app_nil_r|].
  cbn [fold_left]. change (fifo_push_one fifo (mkWorld s mem d) b) with (mkWorld s mem (d ++ b)). rewrite IH.
  change (mjoin (b :: l)) with (b ++ mjoin l). by rewrite app_assoc.
Qed.

(** The bytes [from] to [to] of a list. *)
Definition slice (l : bytes) (from to : Z) : bytes := ztake (to - from) (zdrop from l).

Lemma slice_app_l a b from to : 0 <= from -> to <= zlen a -> slice (a ++ b) from to = slice a from to.
Proof.
  intros H1 H2. unfold slice, ztake, zdrop, zlen in *. destruct (decide (to <= from)).
  - by replace (Z.to_nat (to - from)) with 0%nat by lia.
  - rewrite drop_app_le by lia. rewrite take_app_le; [done|]. rewrite length_drop. lia.
Qed.

Lemma slice_app_r a b from to : zlen a <= from -> slice (a ++ b) from to = slice b (from - zlen a) (to - zlen a).
Proof.
  intros H1. unfold slice, ztake, zdrop, zlen in *. rewrite drop_app_ge by lia. f_equal; [lia|]. f_equal. lia.
Qed.

Lemma slice_split l from mid to : 0 <= from <= mid -> mid <= to -> slice l from to = slice l from mid ++ slice l mid to.
Proof.
  intros H1 H2. unfold slice. replace (to - from) with ((mid - from) + (to - mid)) by lia. rewrite ztake_add by lia. f_equal. f_equal.
  rewrite zdrop_zdrop by lia. f_equal. lia.
Qed.

Lemma slice_none l from to : to <= from -> slice l from to = [].
Proof. intros H. unfold slice, ztake. by replace (Z.to_nat (to - from)) with 0%nat by lia. Qed.

Lemma slice_zero l to : slice l 0 to = ztake to l.
Proof. unfold slice. by rewrite Z.sub_0_r. Qed.

Lemma lookup_phys_read mem a n (i : nat) : (phys_read mem a n : list Z) !! i = if decide (i < Z.to_nat n)%nat then Some (mem (a + Z.of_nat i)) else None.
Proof.
  unfold phys_read. rewrite list_lookup_fmap. case_decide.
  - by rewrite lookup_seq_lt.
  - by rewrite lookup_seq_ge by lia.
Qed.

Lemma phys_read_slice mem a n from to : 0 <= from -> to <= n -> phys_read mem (a + from) (to - from) = slice (phys_read mem a n) from to.
Proof.
  intros H1 H2. apply list_eq. intros i. unfold slice, ztake, zdrop. rewrite lookup_phys_read.
  destruct (decide (i < Z.to_nat (to - from))%nat).
  - rewrite lookup_take_lt, lookup_drop, lookup_phys_read by done. rewrite decide_True by lia. f_equal. f_equal. lia.
  - by rewrite lookup_take_ge by lia.
Qed.

Lemma slice_app a b from to : 0 <= from -> zlen a <= to ->
  slice (a ++ b) from to = slice a from (zlen a) ++ slice b (Z.max from (zlen a) - zlen a) (to - zlen a).
Proof.
  intros H1 H2. pose proof (zlen_nonneg a). destruct (decide (from <= zlen a)).
  - rewrite (slice_split _ from (zlen a)) by lia. rewrite slice_app_l, slice_app_r, Z.max_r by lia. done.
  - rewrite slice_app_r, (slice_none a), Z.max_l by lia. done.
Qed.

(** ** The walk *)

(** The engine once the chain is delivered up to byte [k]. *)
Definition sent_to (ch k : Z) (c : CDMAChannel) (s : S5L8930CDMAState) : S5L8930CDMAState :=
  (put ch c s) <| dm_paced_sent ::= fun l => wr l ch k |>.

(** The guest's configuration is not touched. *)
Definition same_conf (c c' : CDMAChannel) : Prop :=
  cd_ctrl c' = cd_ctrl c /\ cd_settings c' = cd_settings c /\ cd_fifo c' = cd_fifo c.

Lemma paced_at_sent ch desc addr remain k s mem (d : list Z) : exists c', same_conf (get_chan ch s) c' /\
  paced_at ch desc addr remain k (mkWorld s mem d) = mkWorld (sent_to ch k c' s) mem d.
Proof.
  exists ((get_chan ch s) <| cd_desc := desc |> <| cd_addr := addr |> <| cd_remain := remain |>). split; [done|].
  unfold paced_at, sent_to, setc. unfold upd at 1, upd_w_cdma. cbn [w_cdma w_mem w_dev].
  f_equal. f_equal. rewrite <- (put_self ch s) at 1. unfold upd, upd_w_cdma. cbn [w_cdma]. by rewrite upd_put.
Qed.

(** Segments below the top of the address space. *)
Definition low_segs (segs : list (Z * Z)) : bool := forallb (fun r => (0 <=? r.1) && (r.1 + r.2 <=? 2 ^ 32)) segs.

Lemma paced_move_log ch base a n upto s mem d : flagged (cd_settings (get_chan ch s)) SET_TO_DEVICE = true ->
  0 <= base -> 0 <= rd (dm_paced_sent s) ch <= upto -> 0 <= a -> 0 < n <= CDMA_MAX_SEGMENT -> a + n <= 2 ^ 32 ->
  paced_move ch base a n upto (mkWorld s mem d) =
  mkWorld s mem (d ++ slice (phys_read mem a n) (Z.max (rd (dm_paced_sent s) ch) base - base) (Z.min upto (base + n) - base)).
Proof.
  intros Ho Hb Hs Ha Hn Hn2. unfold paced_move, paced_sent, chan. cbn [w_cdma w_mem]. rewrite Ho.
  set (k := rd (dm_paced_sent s) ch) in *. unfold CDMA_MAX_SEGMENT in *.
  destruct (Z.ltb_spec k (base + n)), (Z.ltb_spec base upto); cbn [andb].
  - rewrite fifo_write_log by apply chan_width_pos. f_equal. f_equal.
    rewrite !u32_id by (unfold is_u32; lia). apply phys_read_slice; lia.
  - rewrite slice_none by lia. by rewrite app_nil_r.
  - rewrite slice_none by lia. by rewrite app_nil_r.
  - rewrite slice_none by lia. by rewrite app_nil_r.
Qed.

Lemma paced_walk_log ch upto mem segs : forall fuel first dd base s d,
  chain_at desc_ok any_flags mem first dd segs = true -> (length segs <= fuel)%nat -> low_segs segs = true ->
  flagged (cd_settings (get_chan ch s)) SET_TO_DEVICE = true -> 0 <= base <= upto -> 0 <= rd (dm_paced_sent s) ch <= upto ->
  exists c', same_conf (get_chan ch s) c' /\
  paced_walk desc_ok fuel ch upto dd base (mkWorld s mem d) =
  (base + seg_total segs <=? upto,
   mkWorld (sent_to ch (Z.min upto (base + seg_total segs)) c' s) mem
     (d ++ slice (seg_bytes mem segs) (Z.max (rd (dm_paced_sent s) ch) base - base) (Z.min upto (base + seg_total segs) - base))).
Proof.
  induction segs as [|[a n] segs IH]; intros fuel first dd base s d Hch Hf Hlow Ho Hb Hs; [done|].
  destruct fuel as [|fuel]; [cbn in Hf; lia|]. pose proof (chain_rest_total _ _ _ _ _ _ _ _ Hch) as Ht.
  destruct (chain_head _ _ _ _ _ _ _ _ Hch) as ((D0 & _ & D1 & D2 & D3 & Hn) & _ & Hrest).
  cbn [low_segs forallb fst snd] in Hlow. fold (low_segs segs) in Hlow. apply andb_prop in Hlow as [Hlow1 Hlow2]. bool_hyps.
  cbn [seg_total foldr snd]. fold (seg_total segs). rewrite seg_bytes_cons.
  assert (La : zlen (phys_read mem a n) = n) by (apply zlen_phys_read; lia).
  cbn [paced_walk]. cbn [w_mem]. rewrite D0, D1, D2, D3. cbn [negb orb]. change (DESC_DATA =? DESC_DATA) with true. cbn [negb orb].
  rewrite paced_move_log by done || lia.
  set (k := rd (dm_paced_sent s) ch) in *.
  destruct (Z.ltb_spec upto (base + n)).
  - destruct (paced_at_sent ch dd (u32 (a + (upto - base))) (u32 (base + n - upto)) upto s mem
      (d ++ slice (phys_read mem a n) (Z.max k base - base) (Z.min upto (base + n) - base))) as (c' & C1 & ->).
    exists c'. split; [done|]. rewrite (proj2 (Z.leb_gt _ _)) by lia. f_equal.
    rewrite !Z.min_l by lia. rewrite slice_app_l by lia. done.
  - assert (Es : slice (phys_read mem a n ++ seg_bytes mem segs) (Z.max k base - base) (Z.min upto (base + (n + seg_total segs)) - base) =
      slice (phys_read mem a n) (Z.max k base - base) (Z.min upto (base + n) - base) ++
      slice (seg_bytes mem segs) (Z.max k (base + n) - (base + n)) (Z.min upto (base + n + seg_total segs) - (base + n))).
    { rewrite slice_app by (rewrite ?La; lia). rewrite La. do 2 f_equal; lia. }
    rewrite Es. replace (base + (n + seg_total segs)) with (base + n + seg_total segs) by lia. destruct segs as [|g segs].
    + rewrite Hrest. cbn [w_mem]. rewrite (proj2 (Z.leb_le _ _)) by (cbn; lia). change (seg_total []) with 0.
      rewrite (slice_none (seg_bytes mem [])), app_nil_r, Z.add_0_r, Z.min_r by lia.
      destruct (desc_ok (desc_word mem dd 0));
        match goal with |- context [paced_at ch ?x ?y ?z ?j (mkWorld s mem ?e)] =>
          destruct (paced_at_sent ch x y z j s mem e) as (c' & C1 & ->) end; (exists c'; split; [exact C1|reflexivity]).
    + destruct Hrest as [-> Hrest].
      destruct (IH fuel false (desc_word mem dd 0) (base + n) s (d ++ slice (phys_read mem a n) (Z.max k base - base) (Z.min upto (base + n) - base)))
        as (c' & C1 & E); [done|cbn in *; lia|done|done|lia|done|].
      exists c'. split; [done|]. rewrite E. fold k. by rewrite app_assoc.
Qed.

(** ** One chain in flight *)

Section Play.
Context (rate : Z -> Z) (ch head start bps : Z) (d0 : list Z) (mem : Z -> Z) (segs : list (Z * Z)).

(** The position of the sample clock. *)
Definition pos (now : Z) : Z := Z.ldiff (u64 (Z.max 0 (now - start) * bps) / NANOSECONDS_PER_SECOND) 3.

(** Channel [ch], and no other, has played [k] bytes of the chain; when it is no
    longer live the chain is over. *)
Record playing (k : Z) (live : bool) (w : CdmaWorld (list Z)) : Prop := mkPlaying {
  pl_mem : w_mem w = mem;
  pl_log : w_dev w = d0 ++ ztake k (seg_bytes mem segs);
  pl_sent : rd (dm_paced_sent (w_cdma w)) ch = k;
  pl_clock : rd (dm_paced_desc (w_cdma w)) ch = head /\ rd (dm_paced_start (w_cdma w)) ch = start /\ rd (dm_paced_bps (w_cdma w)) ch = bps;
  pl_out : flagged (cd_settings (get_chan ch (w_cdma w))) SET_TO_DEVICE = true;
  pl_paced : forall j, 0 <= j -> flag_at (dm_paced (w_cdma w)) j = live && (j =? ch);
  pl_sizes : length (dm_paced (w_cdma w)) = nchan /\ length (dm_paced_sent (w_cdma w)) = nchan /\
             length (dm_ch (w_cdma w)) = nchan /\ length (dm_paced_end (w_cdma w)) = nchan;
  pl_done : live = false -> k = seg_total segs /\ flagged (cd_ctrl (get_chan ch (w_cdma w))) ST_DONE = true /\
            flagged (cd_ctrl (get_chan ch (w_cdma w))) ST_RUNNING = false
}.

(** The chain in memory. *)
Record chain_ok : Prop := mkChainOk {
  co_chain : chain_at desc_ok any_flags mem true head segs = true;
  co_count : (length segs <= 4096)%nat;
  co_low : low_segs segs = true;
  co_chan : 0 < ch < CDMA_CHANNELS
}.

Context (C : chain_ok).

Lemma advance_playing k upto w : playing k true w -> 0 <= k <= seg_total segs -> k <= upto ->
  exists w', cdma_paced_advance desc_ok ch upto w = (seg_total segs <=? upto, w') /\ playing (Z.min upto (seg_total segs)) true w' /\
  same_conf (get_chan ch (w_cdma w)) (get_chan ch (w_cdma w')).
Proof using C.
  intros [] Hk Hu. destruct pl_clock0 as (K1 & K2 & K3). destruct pl_sizes0 as (S1 & S2 & S3 & S4). destruct w as [s m d].
  cbn [w_mem w_dev w_cdma] in *. subst m. unfold cdma_paced_advance. cbn [w_cdma]. rewrite K1. destruct C.
  destruct (paced_walk_log ch upto mem segs 4096%nat true head 0 s d co_chain0 co_count0 co_low0 pl_out0 ltac:(lia) ltac:(lia)) as (c' & Cf & E).
  assert (Ic : chan_in ch s) by (unfold chan_in; rewrite S3; unfold nchan; lia).
  rewrite E. rewrite !Z.add_0_l, !Z.sub_0_r, pl_sent0, Z.max_l by lia. eexists. split; [reflexivity|].
  set (t := sent_to _ _ _ _). assert (Gt : get_chan ch t = c') by (by apply (get_put ch c' s)). split; [|cbn [w_cdma]; by rewrite Gt].
  assert (Lp : (Z.to_nat ch < length (dm_paced_sent s))%nat) by (rewrite S2; unfold nchan; lia).
  constructor; cbn [w_mem w_dev w_cdma].
  - done.
  - rewrite pl_log0, <- app_assoc. f_equal. rewrite <- !slice_zero. by rewrite <- slice_split by lia.
  - change (dm_paced_sent t) with (wr (dm_paced_sent s) ch (Z.min upto (seg_total segs))).
    rewrite rd_wr_at by (unfold zlen; lia). by rewrite Z.eqb_refl.
  - done.
  - rewrite Gt. destruct Cf as (_ & -> & _). done.
  - done.
  - change (dm_paced_sent t) with (wr (dm_paced_sent s) ch (Z.min upto (seg_total segs))).
    change (dm_ch t) with (dm_ch (put ch c' s)). unfold wr, put, upd_chan.
    split; [done|]. split; [by rewrite length_insert|]. split; [|done]. change (length (alter (fun _ => c') (Z.to_nat ch) (dm_ch s)) = nchan). by rewrite length_alter.
  - done.
Qed.

Lemma pos_paced now k live w : playing k live w -> cdma_paced_pos now ch (w_cdma w) = pos now.
Proof. intros []. destruct pl_clock0 as (_ & K2 & K3). unfold cdma_paced_pos, pos. by rewrite K2, K3. Qed.

(** What the guest and the timer do to the channel meanwhile. *)
Inductive audio_op :=
  | ATick (now : Z)
  | ARead (now reg : Z).

Definition op_time (o : audio_op) : Z := match o with ATick t => t | ARead t _ => t end.
Definition op_ok (o : audio_op) : bool := match o with ATick _ => true | ARead _ reg => (0 <=? reg) && (reg <? 0x1000) end.

Definition audio_step (w : CdmaWorld (list Z)) (o : audio_op) : CdmaWorld (list Z) :=
  match o with
  | ATick now => cdma_pace_tick desc_ok now w
  | ARead now reg => (cdma_read desc_ok now (Z.lor (Z.shiftl ch 12) reg) w).2
  end.

(** The tick that finds the clock past the end of the chain ends it. *)
Definition ends (o : audio_op) : bool := match o with ATick now => seg_total segs <=? pos now | ARead _ _ => false end.

Lemma playing_timer k live w t : playing k live w -> playing k live (w <| w_cdma ::= fun s => s <| dm_pace_timer := t |> |>).
Proof. intros []. by constructor. Qed.

Lemma arm_timer now (w : CdmaWorld (list Z)) : w <| w_cdma ::= cdma_pace_arm now |> =
  w <| w_cdma ::= fun s => s <| dm_pace_timer := dm_pace_timer (cdma_pace_arm now (w_cdma w)) |> |>.
Proof. by destruct w. Qed.

Lemma tick_others now l w : (forall j, j ∈ l -> cdma_is_paced w j = false) -> fold_left (pace_tick_chan desc_ok now) l w = w.
Proof.
  induction l as [|j l IH]; intros H; [done|]. cbn [fold_left]. unfold pace_tick_chan at 2. rewrite H by (by left).
  apply IH. intros i Hi. apply H. by right.
Qed.

Lemma ctrl_over ctrl : flagged (Z.lor (Z.ldiff ctrl ST_RUNNING) ST_DONE) ST_DONE = true /\
  flagged (Z.lor (Z.ldiff ctrl ST_RUNNING) ST_DONE) ST_RUNNING = false.
Proof.
  change ST_DONE with (2 ^ 19). change ST_RUNNING with (2 ^ 16). rewrite !flagged_bit by lia.
  rewrite !Z.lor_spec, !Z.ldiff_spec. cbn. by rewrite ?orb_true_r, ?andb_false_r.
Qed.

(** The end of the chain. *)
Lemma over_playing k w fin : playing k true w -> k = seg_total segs -> 0 <= ch < CDMA_CHANNELS ->
  playing k false ((set_ctrl ch (fun v => Z.lor (Z.ldiff v ST_RUNNING) ST_DONE)
    (w <| w_cdma ::= fun s => s <| dm_paced ::= fun l => wr l ch false |> <| dm_paced_end ::= fun l => wr l ch fin |> |>))
    <| w_cdma ::= cdma_update_irq ch |>).
Proof.
  intros [] Ek Hc. destruct w as [s m d]. destruct pl_sizes0 as (S1 & S2 & S3 & S4). cbn [w_mem w_dev w_cdma] in *.
  rewrite set_ctrl_at. match goal with |- context [at_chan ch ?x] => set (c' := x) end.
  set (w' := _ <| w_cdma ::= cdma_update_irq ch |>).
  assert (Ic : chan_in ch s) by (unfold chan_in; rewrite S3; unfold nchan; lia).
  assert (Gc : get_chan ch (w_cdma w') = c') by (by apply (get_put ch c' s)).
  constructor; try done.
  - rewrite Gc. exact pl_out0.
  - intros j Hj. change (dm_paced (w_cdma w')) with (wr (dm_paced s) ch false). rewrite flag_wr by (rewrite S1; unfold nchan; lia).
    case_decide; [done|]. rewrite pl_paced0 by done. destruct (Z.eqb_spec j ch); [congruence|done].
  - change (dm_paced (w_cdma w')) with (wr (dm_paced s) ch false). change (dm_paced_end (w_cdma w')) with (wr (dm_paced_end s) ch fin).
    unfold wr. rewrite !length_insert. split; [done|]. split; [done|]. split; [|done].
    change (length (alter (fun _ => c') (Z.to_nat ch) (dm_ch s)) = nchan). by rewrite length_alter.
  - intros _. split; [done|]. rewrite Gc. apply ctrl_over.
Qed.

Lemma tick_chan_playing now k w : playing k true w -> 0 <= k <= seg_total segs -> k <= pos now ->
  playing (Z.min (pos now) (seg_total segs)) (negb (seg_total segs <=? pos now)) (pace_tick_chan desc_ok now w ch).
Proof using C.
  intros P Hk Hp. unfold pace_tick_chan. pose proof (co_chan C) as Hc. unfold cdma_is_paced. rewrite (pl_paced _ _ _ P) by lia.
  rewrite Z.eqb_refl. cbn [andb]. rewrite (pos_paced now _ _ _ P).
  destruct (advance_playing k (pos now) w P Hk Hp) as (w' & E & P' & _). rewrite E.
  destruct (Z.leb_spec (seg_total segs) (pos now)); cbn [negb]; [|done].
  apply over_playing; [done|lia|lia].
Qed.

Lemma all_channels_split : all_channels = seqZ 0 ch ++ ch :: seqZ (ch + 1) (CDMA_CHANNELS - ch - 1).
Proof using C.
  pose proof (co_chan C). unfold all_channels. replace CDMA_CHANNELS with (ch + (1 + (CDMA_CHANNELS - ch - 1))) at 1 by lia.
  rewrite (seqZ_app 0), (seqZ_app _ 1) by lia. rewrite (seqZ_cons _ 1) by lia. change (Z.pred 1) with 0. rewrite (seqZ_nil _ 0) by lia. done.
Qed.

Lemma audio_step_playing k live w o : playing k live w -> op_ok o = true -> 0 <= k <= seg_total segs -> k <= pos (op_time o) ->
  playing (Z.min (pos (op_time o)) (seg_total segs)) (live && negb (ends o)) (audio_step w o).
Proof using C.
  intros P Ho Hk Hp. pose proof (co_chan C) as Hc. destruct o as [now|now reg]; cbn [audio_step op_time ends op_ok] in *.
  - unfold cdma_pace_tick. rewrite arm_timer. apply playing_timer. apply (playing_timer _ _ _ None) in P.
    set (w1 := w <| w_cdma ::= _ |>) in *. rewrite all_channels_split, fold_left_app. cbn [fold_left].
    assert (Q : forall live' k' w2 l, playing k' live' w2 -> (forall j, j ∈ l -> 0 <= j /\ j <> ch) -> fold_left (pace_tick_chan desc_ok now) l w2 = w2).
    { intros live' k' w2 l P2 Hl. apply tick_others. intros j Hj. destruct (Hl j Hj) as [J1 J2]. unfold cdma_is_paced.
      rewrite (pl_paced _ _ _ P2) by done. rewrite (proj2 (Z.eqb_neq j ch)) by done. apply andb_false_r. }
    rewrite (Q _ _ _ (seqZ 0 ch) P) by (intros j Hj%elem_of_seqZ; lia).
    assert (P3 : playing (Z.min (pos now) (seg_total segs)) (live && negb (seg_total segs <=? pos now)) (pace_tick_chan desc_ok now w1 ch)).
    { destruct live; [by apply tick_chan_playing with (k := k)|]. unfold pace_tick_chan, cdma_is_paced. rewrite (pl_paced _ _ _ P) by lia. cbn [andb].
      destruct (pl_done _ _ _ P eq_refl) as [E _]. replace (Z.min (pos now) (seg_total segs)) with k by lia. exact P. }
    rewrite (Q _ _ _ (seqZ (ch + 1) _) P3) by (intros j Hj%elem_of_seqZ; lia). exact P3.
  - bool_hyps. rewrite andb_true_r. unfold cdma_read, CDMA_CHAN_SHIFT.
    assert (E : Z.shiftr (Z.lor (Z.shiftl ch 12) reg) 12 = ch).
    { rewrite lor_shiftl_add, Z.shiftr_div_pow2 by lia. rewrite Z.add_comm, Z.div_add by lia. rewrite Z.div_small by lia. lia. }
    rewrite E, (proj2 (Z.eqb_neq ch 0)), (proj2 (Z.ltb_lt ch CDMA_CHANNELS)) by lia. cbn [snd].
    unfold cdma_is_paced. rewrite (pl_paced _ _ _ P), Z.eqb_refl, andb_true_r by lia. destruct live.
    + rewrite (pos_paced now _ _ _ P). destruct (advance_playing k (pos now) w P Hk Hp) as (w' & E' & P' & _). by rewrite E'.
    + destruct (pl_done _ _ _ P eq_refl) as [Ek _]. by replace (Z.min (pos now) (seg_total segs)) with k by lia.
Qed.

(** Operations in the order of the clock. *)
Fixpoint in_order (t : Z) (ops : list audio_op) : bool :=
  match ops with
  | [] => true
  | o :: ops => (t <=? op_time o) && op_ok o && in_order (op_time o) ops
  end.

Definition last_time (t : Z) (ops : list audio_op) : Z := default t (op_time <$> last ops).

Lemma last_time_cons t o ops : last_time t (o :: ops) = last_time (op_time o) ops.
Proof. unfold last_time. destruct ops as [|o' ops]; [done|]. rewrite last_cons_cons. by destruct (last (o' :: ops)) eqn:E; [|apply last_None in E]. Qed.

Lemma in_order_last t ops : in_order t ops = true -> t <= last_time t ops.
Proof.
  revert t. induction ops as [|o ops IH]; intros t H; [cbn; lia|]. cbn [in_order] in H. bool_hyps. rewrite last_time_cons.
  rename select (in_order _ _ = true) into H'. apply IH in H'. lia.
Qed.

(** The clock does not go back. *)
Lemma pos_mono a b : 0 <= bps -> start <= a <= b -> (b - start) * bps < 18446744073709551616 -> 0 <= pos a <= pos b.
Proof.
  intros Hb Ha Hl. unfold pos, u64, NANOSECONDS_PER_SECOND. rewrite !Z.max_r by lia. rewrite !Z.mod_small by nia.
  assert (F : forall x, 0 <= x -> Z.ldiff x 3 = 4 * (x / 4)).
  { intros x Hx. change 3 with (Z.ones 2). rewrite Z.ldiff_ones_r, Z.shiftr_div_pow2, Z.shiftl_mul_pow2 by lia. change (2 ^ 2) with 4. lia. }
  assert (0 <= (a - start) * bps / 1000000000 <= (b - start) * bps / 1000000000).
  { split; [apply Z.div_pos; nia|apply Z.div_le_mono; nia]. }
  rewrite !F by lia. split; [|apply Z.mul_le_mono_nonneg_l; [lia|apply Z.div_le_mono; lia]].
  pose proof (Z.div_pos ((a - start) * bps / 1000000000) 4). lia.
Qed.

Lemma audio_run_playing ops : 0 <= bps -> forall t w live, start <= t -> in_order t ops = true ->
  (last_time t ops - start) * bps < 18446744073709551616 -> playing (Z.min (pos t) (seg_total segs)) live w ->
  playing (Z.min (pos (last_time t ops)) (seg_total segs)) (live && negb (existsb ends ops)) (fold_left audio_step ops w).
Proof using C.
  intros Hb. assert (Ht : 0 <= seg_total segs) by (by eapply chain_total, co_chain).
  induction ops as [|o ops IH]; intros t w live Hs Ho Hl P; [cbn [existsb negb]; by rewrite andb_true_r|].
  cbn [in_order] in Ho. apply andb_prop in Ho as [Ho1 Ho2]. apply andb_prop in Ho1 as [Ho0 Ho1]. apply Z.leb_le in Ho0.
  rewrite last_time_cons in *. pose proof (in_order_last _ _ Ho2). pose proof (pos_mono t (op_time o) Hb ltac:(lia) ltac:(nia)) as Pm.
  assert (P' := audio_step_playing _ live w o P Ho1 ltac:(lia) ltac:(lia)). cbn [fold_left existsb].
  rewrite negb_orb, andb_assoc. apply (IH (op_time o)); [lia|done|done|exact P'].
Qed.
End Play.

(** ** From the go *)

(** An engine with nothing playing and a chain for channel [ch] to send. *)
Record idle_engine (ch : Z) (s : S5L8930CDMAState) (mem : Z -> Z) (segs : list (Z * Z)) : Prop := mkIdle {
  id_sizes : length (dm_paced s) = nchan /\ length (dm_paced_sent s) = nchan /\ length (dm_ch s) = nchan /\
             length (dm_paced_end s) = nchan /\ length (dm_paced_desc s) = nchan /\ length (dm_paced_start s) = nchan /\
             length (dm_paced_bps s) = nchan;
  id_idle : forall j, flag_at (dm_paced s) j = false;
  id_out : flagged (cd_settings (get_chan ch s)) SET_TO_DEVICE = true;
  id_chain : chain_ok ch (cd_desc (get_chan ch s)) mem segs
}.

Lemma start_playing rate now ch s s1 mem d segs : idle_engine ch s mem segs -> cdma_start_paced rate now ch s = Some s1 ->
  playing ch (cd_desc (get_chan ch s)) (rd (dm_paced_start s1) ch) (rd (dm_paced_bps s1) ch) d mem segs 0 true (mkWorld s1 mem d) /\
  0 <= rd (dm_paced_bps s1) ch /\ rd (dm_paced_start s1) ch = (if now - rd (dm_paced_end s) ch <? CDMA_PACED_CONTINUE_NS then rd (dm_paced_end s) ch else now).
Proof.
  intros [(S1 & S2 & S3 & S4 & S5 & S6 & S7) Hi Ho [_ _ _ Hc]] E. unfold cdma_start_paced in E. case_match; [done|]. cbv zeta in E. injection E as <-.
  match goal with |- context [upd_chan ch ?f s] => set (c' := f) end. match goal with |- context [u32 (4 * ?r)] => set (bps := u32 (4 * r)) end.
  change (dm_paced_end (upd_chan ch c' s)) with (dm_paced_end s). set (start := if now - _ <? _ then _ else now).
  assert (N : forall v, rd (wr (dm_paced_sent s) ch v) ch = v /\ rd (wr (dm_paced_desc s) ch v) ch = v /\
    rd (wr (dm_paced_start s) ch v) ch = v /\ rd (wr (dm_paced_bps s) ch v) ch = v).
  { intros v. unfold nchan in *. rewrite !rd_wr_at by (unfold zlen; lia). by rewrite Z.eqb_refl. }
  assert (G : get_chan ch (upd_chan ch c' s) = c' (get_chan ch s)).
  { rewrite <- (put_self ch s) at 1. rewrite upd_put, get_put; [done|]. unfold chan_in. rewrite S3. unfold nchan. lia. }
  split; [|split].
  - constructor; cbn [w_mem w_dev w_cdma]; try done.
    + cbn. by rewrite app_nil_r.
    + apply N.
    + split; [apply N|]. done.
    + change (flagged (cd_settings (get_chan ch (upd_chan ch c' s))) SET_TO_DEVICE = true). rewrite G. exact Ho.
    + intros j Hj. cbn [andb]. change (flag_at (wr (dm_paced s) ch true) j = (j =? ch)). rewrite flag_wr by (rewrite S1; unfold nchan; lia).
      case_decide; destruct (Z.eqb_spec j ch); try done; lia.
    + change (length (wr (dm_paced s) ch true) = nchan /\ length (wr (dm_paced_sent s) ch 0) = nchan /\
        length (alter c' (Z.to_nat ch) (dm_ch s)) = nchan /\ length (dm_paced_end s) = nchan). unfold wr. by rewrite !length_insert, length_alter.
  - change (0 <= rd (wr (dm_paced_bps s) ch bps) ch). destruct (N bps) as (_ & _ & _ & ->). unfold bps, u32. apply Z.mod_pos_bound. lia.
  - change (rd (wr (dm_paced_start s) ch start) ch = start). apply N.
Qed.

(** C22. A chain started on an I2S FIFO reaches it byte for byte, once and in order,
    whatever interleaving of timer ticks and register reads drives it: after any
    such sequence in the order of the clock the FIFO has received exactly the
    prefix of the chain that the port's sample clock has reached.  The clock runs
    from the go, or from the end of the previous chain when that was less than
    50 ms ago.  The first tick past the end of the chain, and nothing else, ends
    it: the channel is then done and not running. *)
Theorem cdma_paced_once rate now ch s s1 mem d segs ops :
  idle_engine ch s mem segs -> cdma_start_paced rate now ch s = Some s1 -> rd (dm_paced_end s) ch <= now ->
  let start := rd (dm_paced_start s1) ch in
  let bps := rd (dm_paced_bps s1) ch in
  let t := last_time start ops in
  in_order now ops = true -> (t - start) * bps < 18446744073709551616 ->
  let w := fold_left (audio_step ch) ops (mkWorld s1 mem d) in
  w_dev w = d ++ ztake (pos start bps t) (seg_bytes mem segs) /\
  start = (if now - rd (dm_paced_end s) ch <? CDMA_PACED_CONTINUE_NS then rd (dm_paced_end s) ch else now) /\
  flag_at (dm_paced (w_cdma w)) ch = negb (existsb (ends start bps segs) ops) /\
  (existsb (ends start bps segs) ops = true ->
   flagged (cd_ctrl (get_chan ch (w_cdma w))) ST_DONE = true /\ flagged (cd_ctrl (get_chan ch (w_cdma w))) ST_RUNNING = false).
Proof.
  intros I E Hn start bps t Ho Hl w. destruct (start_playing rate now ch s s1 mem d segs I E) as (P & Hb & Hst). fold start bps in P, Hb, Hst.
  destruct I as [_ _ _ C]. pose proof (chain_total _ _ _ _ _ _ (co_chain _ _ _ _ C)) as Ht.
  assert (Hs : start <= now) by (rewrite Hst; case_match; lia).
  assert (P0 : Z.min (pos start bps start) (seg_total segs) = 0).
  { unfold pos. rewrite Z.sub_diag. change (Z.max 0 0) with 0. rewrite Z.mul_0_l.
    change (Z.ldiff (u64 0 / NANOSECONDS_PER_SECOND) 3) with 0. lia. }
  assert (Ho' : in_order start ops = true).
  { destruct ops as [|o ops]; [done|]. cbn [in_order] in *. bool_hyps. rewrite (proj2 (Z.leb_le _ _)) by lia. cbn [andb]. by apply andb_true_intro. }
  rewrite <- P0 in P. pose proof (audio_run_playing _ _ _ _ _ _ _ C ops Hb start _ true (Z.le_refl _) Ho' Hl P) as Q.
  fold w t in Q. cbn [andb] in Q. destruct Q. pose proof (co_chan _ _ _ _ C). split; [|split; [done|split]].
  - rewrite pl_log0. f_equal. destruct (Z.min_spec (pos start bps t) (seg_total segs)) as [[_ ->]|[Hle ->]]; [done|].
    rewrite !ztake_all; [done| |]; rewrite zlen_seg_bytes by (by eapply chain_lens, co_chain); lia.
  - rewrite pl_paced0, Z.eqb_refl by lia. apply andb_true_r.
  - intros Ex. rewrite Ex in *. by destruct (pl_done0 eq_refl).
Qed.
End Paced.

(** ** An example *)

Definition ex_audio : S5L8930CDMAState :=
  ex_cdma <| dm_ch := <[4%nat := mkChan_cdma 0 0xa 0x84500400 0 0 0x40000000 0 false]> (replicate nchan chan0_cdma) |>.

Definition ex_ops : list audio_op := [ARead 100060000 0x10; ATick 101000000].

Lemma ex_idle : idle_engine (fun _ => true) 4 ex_audio ex_mem ex_src.
Proof.
  constructor; [by vm_compute|intros j; apply flag_none|lazy; reflexivity|].
  constructor; try (lazy; reflexivity); [cbn; lia|done].
Qed.

Lemma cdma_paced_once_witness :
  exists s1, cdma_start_paced (fun _ => 44100) 100000000 4 ex_audio = Some s1 /\
  w_dev (fold_left (@audio_step (fun _ => true) 4) ex_ops (mkWorld s1 ex_mem [])) = seg_bytes ex_mem ex_src /\
  w_dev (fold_left (@audio_step (fun _ => true) 4) (take 1 ex_ops) (mkWorld s1 ex_mem [])) = ztake 8 (seg_bytes ex_mem ex_src).
Proof.
  destruct (cdma_start_paced (fun _ => 44100) 100000000 4 ex_audio) as [s1|] eqn:E; [|by vm_compute in E]. exists s1. split; [done|].
  assert (S : rd (dm_paced_start s1) 4 = 100000000 /\ rd (dm_paced_bps s1) 4 = 176400) by (injection E as <-; by vm_compute).
  destruct S as [S1 S2]. split.
  - destruct (cdma_paced_once (fun _ => true) (fun _ => 44100) 100000000 4 ex_audio s1 ex_mem [] ex_src ex_ops ex_idle E) as [H _];
      [by vm_compute|by vm_compute|rewrite S1, S2; by vm_compute|]. rewrite H, S1, S2. by vm_compute.
  - destruct (cdma_paced_once (fun _ => true) (fun _ => 44100) 100000000 4 ex_audio s1 ex_mem [] ex_src (take 1 ex_ops) ex_idle E) as [H _];
      [by vm_compute|by vm_compute|rewrite S1, S2; by vm_compute|]. rewrite H, S1, S2. by vm_compute.
Defined.
