(* ===== verification/CdmaSnap.v ===== *)
(** * Snapshots and resets of the DMA engine

    What a snapshot carries over, when one is refused, and three places where
    state outlives what it belongs to. *)

From Stdlib Require Import ZArith Lia.
From stdpp Require Import base numbers list.
From S2P Require Import Prelude CLib HwLib IosDev BbSpi CdmaAes Cdma CdmaRegs CdmaAesFacts CdmaFacts CdmaPipe CdmaKick.
Local Open Scope Z_scope.

(** ** Round trip *)

(** The engine's arrays have their sizes. *)
Record cdma_shape (s : S5L8930CDMAState) : Prop := mkShape {
  sh_ch : length (dm_ch s) = nchan;
  sh_aes : length (dm_aes s) = Z.to_nat AES_CONTEXTS
}.

(** What a load refuses. *)
Definition loadable (s : S5L8930CDMAState) : bool :=
  forallb (fun ch => negb (seg_bad (get_chan ch s) (cd_in_seg (get_chan ch s)) (flag_at (dm_paced s) ch) (rd (dm_paced_bps s) ch))) all_channels.

(** The target with everything that is saved: all but the carried bytes of a split
    block, the flags of a run in progress, the interrupt lines and the machine's
    configuration. *)
Definition cdma_restored (s t : S5L8930CDMAState) : S5L8930CDMAState :=
  mkCdma (dm_dram_size t) (dm_irq t) (dm_enabled s) (dm_version t) (dm_paced_base t) (dm_paced_ports t) (dm_ch s)
    (zip_with load_aes (dm_aes s) (dm_aes t)) (dm_fifo s) (dm_gid_warned t) (dm_gid_data t) (dm_src t) (dm_paced s)
    (dm_sink_pending s) (dm_in_run t) (dm_sink_early t) (dm_paced_start s) (dm_paced_end s) (dm_paced_desc s) (dm_paced_sent s)
    (dm_paced_bps s) (dm_pace_timer s).

Lemma load_chans (l k : list CDMAChannel) : length l = length k ->
  zip_with (fun c b => c <| cd_in_seg := b |>) (zip_with load_chan l k) (cd_in_seg <$> l) = l.
Proof.
  revert k. induction l as [|c l IH]; intros [|d k] E; try done. cbn. rewrite IH by (cbn in E; lia). by destruct c.
Qed.

Lemma load_chan_get ch l k s t : length l = length k -> dm_ch s = zip_with load_chan l k -> dm_ch t = l -> (Z.to_nat ch < length l)%nat ->
  cd_remain (get_chan ch s) = cd_remain (get_chan ch t).
Proof.
  intros E Es Et Hc. unfold get_chan. rewrite Es, Et, lookup_zip_with. destruct (lookup_lt_is_Some_2 l _ Hc) as [c ->].
  destruct (lookup_lt_is_Some_2 k (Z.to_nat ch) ltac:(lia)) as [d ->]. done.
Qed.

(** A snapshot of the current version restores the engine, unless a stalled
    channel's count or a playing channel's rate is out of range. *)
Lemma cdma_snapshot s t : cdma_shape s -> cdma_shape t -> cdma_fifo_len_ok s = true -> loadable s = true ->
  exists v, cdma_pre_save s = Some v /\ cdma_load 4 v t = Some (cdma_restored s t).
Proof.
  intros [C1 A1] [C2 A2] F Lo. exists (mkStream s (cd_in_seg <$> dm_ch s)). unfold cdma_pre_save. rewrite F. split; [done|].
  unfold cdma_load. cbn [cs_state cs_in_seg_mig]. rewrite F. cbn [negb]. change (2 <=? 4) with true. change (3 <=? 4) with true. change (4 <=? 4) with true.
  cbv zeta. unfold cdma_post_load. match goal with |- (if existsb _ _ then None else Some (?x <| dm_ch ::= _ |>)) = _ => set (u := x) end.
  assert (E : existsb (fun ch => seg_bad (get_chan ch u) (flag_at (cd_in_seg <$> dm_ch s) ch) (flag_at (dm_paced u) ch) (rd (dm_paced_bps u) ch)) all_channels = false).
  { destruct (existsb _ _) eqn:X; [|done]. apply existsb_exists in X as (ch & Hin & Hb). unfold loadable in Lo. rewrite forallb_forall in Lo.
    specialize (Lo ch Hin). apply list_elem_of_In, elem_of_seqZ in Hin. apply negb_true_iff in Lo. unfold seg_bad in *.
    rewrite (load_chan_get ch (dm_ch s) (dm_ch t) u s) in Hb; [|lia|done|done|rewrite C1; unfold nchan; lia].
    assert (I : flag_at (cd_in_seg <$> dm_ch s) ch = cd_in_seg (get_chan ch s)).
    { unfold flag_at, get_chan. rewrite list_lookup_fmap. by destruct (dm_ch s !! Z.to_nat ch). }
    rewrite I in Hb. change (dm_paced u) with (dm_paced s) in Hb. change (dm_paced_bps u) with (dm_paced_bps s) in Hb. congruence. }
  rewrite E. f_equal. transitivity ((cdma_restored s t) <| dm_ch :=
    zip_with (fun c b => c <| cd_in_seg := b |>) (zip_with load_chan (dm_ch s) (dm_ch t)) (cd_in_seg <$> dm_ch s) |>); [done|].
  by rewrite load_chans by lia.
Qed.

(** ** State that outlives its owner *)

(** A guest can make its own snapshot unloadable: the count register of a stalled
    channel takes any value, and a load refuses one above the segment limit. *)
Lemma cdma_snapshot_refused :
  let w := @cdma_write _ ex_port ex_cipher (fun _ => true) (fun _ => 44100) 0 0x500c 0x2000000 (mkWorld ex_posted_cdma ex_mem tt) in
  (cdma_pre_save (w_cdma w) ≫= fun v => Some (cdma_load 4 v ex_cdma)) = Some None.
Proof. lazy. reflexivity. Qed.

(** A transmit channel whose chain waits in the device. *)
Definition ex_waiting : S5L8930CDMAState :=
  ex_posted_cdma <| dm_ch ::= alter (fun c => c <| cd_in_seg := false |>) 6%nat |> <| dm_sink_pending ::= fun l => wr l 6 true |>.

(** An abort leaves the channel waiting: when the device drains, the aborted
    channel reports done and raises its line. *)
Lemma cdma_abort_done :
  let w := @cdma_write _ ex_port ex_cipher (fun _ => true) (fun _ => 44100) 0 0x6000 CTRL_ABORT (mkWorld ex_waiting ex_mem tt) in
  let s := s5l8930_cdma_sink_done (ex_base + R_TXDATA) 4 (w_cdma w) in
  cd_ctrl (chan 6 w) = ST_ABORTED /\ cd_ctrl (get_chan 6 s) = Z.lor ST_ABORTED ST_DONE /\ flag_at (dm_irq s) 6 = true.
Proof. split; [|split]; lazy; reflexivity. Qed.

(** So does a reset of the whole engine: a channel the guest has only pointed at
    the device again, and not started, reports done. *)
Lemma cdma_reset_done :
  let w := @cdma_write _ ex_port ex_cipher (fun _ => true) (fun _ => 44100) 0 0x6008 (ex_base + R_TXDATA)
             (mkWorld (s5l8930_cdma_reset ex_waiting) ex_mem tt) in
  cd_ctrl (get_chan 6 (s5l8930_cdma_sink_done (ex_base + R_TXDATA) 4 (w_cdma w))) = ST_DONE.
Proof. lazy. reflexivity. Qed.

(** A feeding chain that is not a whole number of blocks leaves the rest of its
    last block behind in the context after the go. *)
Lemma cdma_carry_left :
  let mem := phys_write ex_mem 0x40000020 (words_bytes [0; 0x10103; 0x40002000; 7]) in
  let w := @cdma_write _ ex_port ex_cipher (fun _ => true) (fun _ => 44100) 0 0x1000 0x189 (mkWorld ex_cdma mem tt) in
  zlen (ax_carry (get_aes 1 (w_cdma w))) = 4 /\ flagged (cd_ctrl (chan 1 w)) ST_DONE = true.
Proof. split; lazy; reflexivity. Qed.
